(* ===== verification/_CoqProject ===== *)
-Q . S2P
Header.v
Prelude.v
RefCount.v
Idr.v
DentryLayout.v
DentryHash.v
DentryGroup.v
DentryFile.v
DentryMap.v
DentryList.v
Protocol.v
MessageVerify.v
ClientMsg.v
ClientReply.v
ServerPath.v
DentryPath.v
ShareTable.v
Writeback.v
NodeEvents.v
Handshake.v
CacheName.v
CacheNode.v
Timespec.v
DcacheValid.v
OpenCache.v
DropPush.v
CachePull.v
StashFile.v
Stash.v
StashRebuild.v
ServerFile.v
MsgTable.v
MergeName.v
MergeList.v
MergeLookup.v
MergeOps.v
Transport.v
FileSlices.v
Reopen.v
Authority.v
Bundles.v
Connections.v
