(* ===== verification/Header.v ===== *)
(** hmdfs, a distributed file system kernel module (src/hmdfs): a model of its core
    data structures and protocol, and the theorems that make them correct.

    * The program

    hmdfs shows the files of other devices under one mount.  Each device keeps, for
    every remote directory it looks at, a dentry file: a cached directory stored as a
    multi-level hash table of 4 KiB groups in a file of the lower file system
    (hmdfs_dentryfile.c).  Requests travel as a 24-byte head followed by a command's
    struct and its strings (comm/protocol.h); the client side builds them and reads the
    replies (hmdfs_client.c), and the receiving side verifies every message before it
    is handled (comm/message_verify.c) and refuses paths that climb out of the exported
    tree (hmdfs_server.c).  Files are shared for a limited time through a table of at
    most 128 items (hmdfs_share.c).  Writers to remote files are throttled by the dirty
    thresholds of client_writeback.c, configured through comm/device_node.c.

    Dentry files are kept on two lists, one of directories cached from peers and one of
    directories cached for them, under names that encode the peer and the path
    (hmdfs_dentryfile.c).  The server rebuilds one when its directory changed and tells
    every device that cached it to drop it (hmdfs_server.c, inode_local.c); a client pulls
    a new one when its own is too old or was dropped (file_remote.c).  Opening a remote
    file compares its size and ctime with those of the pages kept from earlier opens.
    Devices meet by a handshake that negotiates encryption, features and case
    sensitivity, and come and go by events that are queued and merged while their
    handlers run (comm/connection.c).

    While a device is away, the files open for writing are stashed: their dirty pages go to
    local stash files, which are copied to the remote files when the device is back, also
    after a restart (stash.c, and the tracking of writers in file_remote.c).  The event
    handlers run concurrently with opens, closes and page writeback.

    Messages go over TCP sockets that take and give bytes in pieces; a thread per connection
    cuts the stream into messages (comm/transport.c).  A dentry file is answered in slices of
    1 MiB, which works write into the file in any order (comm/socket_adapter.c).  A remote file
    whose peer was away is opened again at its next use (file_remote.c).  A peer has several
    connections, counted objects that receive threads, senders, commands of user space and
    works use, replace and close at the same time (comm/connection.c).

    Every directory has a permission word that says where it lies, from which the owner, the
    group and the mode of what is in it follow (authority/authentication.c); the ids of the
    applications are written through configfs (authority/config.c).

    The merge view shows the directories of all devices as one (file_merge.c,
    inode_merge.c): a directory is listed device after device, names that are taken get the
    number of their device or a suffix for directories, and a name is looked up on all devices
    at once, by works that end in any order.

    * The files

    - Prelude: machine-width integers, errno values, little-endian fields, C strings,
      bitmaps, and the automation (zb, split_if, the hint database hmdfs).
    - RefCount: counted objects (struct kref, files) and when their counts are exact.
      Idr: the kernel's id allocator as a class with its laws.
    - DentryLayout (hmdfs_dentryfile.c: get_bucketaddr .. get_max_depth, and the
      directory positions of file_remote.c), DentryHash (str2hashbuf, tea_transform,
      hmdfs_dentry_hash).
    - DentryGroup (struct hmdfs_dentry_group): bytes and fields, the 80-bit slot bitmap,
      room_for_filename, find_in_block, update_dentry, delete_slots.  The invariant
      wf_group says that the set bits split into runs, one per entry, each as long as
      its name needs.
    - DentryFile: find_dentry_page, hmdfs_find_dentry, create_dentry,
      hmdfs_delete_dentry, hmdfs_rename_dentry, update_inode_to_dentry, read_dentry over
      a file that is an instance of the class CacheFile (group count, read, write, lock,
      unlock, with their errors).  CacheFileLaws states what a file without I/O errors
      promises, memfile is an instance, and the refinement theorems are proved against
      the laws alone.
    - DentryMap: a dentry file of depth d represents a finite map from names to
      dentries; find, create, delete and rename are its lookup, insert, delete and move, on
      mounts that mind case and on those, the default, that do not.  resolves says which
      name of the map a name stands for.
    - DentryList: read_dentry, complete and resumable.
    - Protocol: structs as lists of named fields, offsets computed from them.
    - MessageVerify: the length table, the verifiers and hmdfs_message_verify.  Reading
      outside the message is a value of its own ([None]), so memory safety is stated.
    - ClientMsg and ClientReply: the request payloads, and what the replies become.
    - ServerPath: path_contain_dotdot.
    - ShareTable: the share table's operations and the expiry timers as a step relation.
    - Writeback: thresholds, throttling loop, sysfs settings, inode queue.
    - DentryPath: hmdfs_dentry_path_raw and the relative, absolute and joined paths, with
      the buffer filled from its end.
    - NodeEvents: raw online and offline events of a peer, the pending and waiting events,
      their sequence ring and the work that announces them, as a step relation.
    - Handshake: the handshake messages' extension fields, filled and parsed.
    - CacheName: the hash of a directory's path, the names of cache files, linking them,
      and parsing a name back.
    - CacheNode: struct cache_file_node on a heap with reference counts, the lists, and
      every operation on them.  An access to a freed node has no result, so memory safety
      is stated.
    - Timespec: the operations of the kernel on times, a class whose laws plain_time meets,
      and the comparison of jiffies.
    - DcacheValid: the header of a dentry file and when a cache is still valid.
    - OpenCache: the server's answer to an open and the client's decision about its pages.
    - DropPush: the devices that cached a directory, their drop flags, the local
      operations and the remote ones that change a directory.
    - CachePull: the items of a directory's dentry, fetching and revalidating its file,
      over the lists of CacheNode.

    - StashFile (stash.c): the layout of a stash file, writing pages and metadata to it,
      verifying it and copying it to the remote file, hole by hole.  The lower file system
      is the class SparseFile; SparseFileLaws states reads, writes and SEEK_DATA without
      errors, and memsparse is an instance.
    - Stash: the inodes of a device on a heap with reference counts and their states NONE,
      STASHING and RESTORING, the lists of writers and of stashed inodes, and the handlers
      hmdfs_stash_offline_prepare, _offline_do_stash, _online_do_restore and
      _del_do_cleanup with all they call.  stash_op is one step of any of them.  The record
      inv says what every inode's counts, lists and stash file are, given the writers and
      references from outside.
    - StashRebuild: hmdfs_stash_online_prepare, which pins the stashed inodes again after
      a restart.
    - ServerFile (hmdfs_server.c): the files a server holds open for a client, counted, in a
      table of ids behind the class Idr, the version of
      an id, and the handlers of open, atomic open, release, fsync, readpage and writepage.
      server_step interleaves the requests of a client, cut where others can come between.
    - MsgTable (comm/socket_adapter.c, comm/connection.c, comm/transport.c, hmdfs_client.c):
      the table of message ids of a peer on the class Idr, its counted heads, and the threads
      that allocate, send, wait for, answer, time out and cancel synchronous, asynchronous
      and page requests, with the offline handler that walks the table.  msg_step is one
      step of any of them, or an event from outside (an answer, a timeout, going offline).
    - MergeName: rename_conflicting_file and _directory, check_filename and
      hmdfs_get_real_dname.  A write behind the buffer or a read in front of the name is [None].
    - MergeList (file_merge.c): the tree of names that were shown, the actor, and
      hmdfs_iterate_merge over the directories of the devices.  The rb tree's rebalancing and
      the directories are the classes RbTree and LowerDir with their laws; plain_tree and
      list_dir are instances.  merged is the listing as it is meant.
    - MergeLookup (inode_merge.c): merge_lookup_async, the work, and the lookups that start the
      works and wait for them; work_step runs one work, in any order.
    - MergeOps (inode_merge.c): create_lo_d_child with the recursion for missing parents, the
      removal and renaming on every device, and do_dir_open_merge, over the class LowerFs.
    - Transport (comm/transport.c): a socket as the events it has for its reader, the loops
      that read, the receivers of requests, answers and page answers, tcp_recv_thread, and
      sending and answering.  turn_env is what a turn of the thread finds: whether it is to
      stop, whether its connection is on a list, and the link, which tcp_handle_is_available
      tests.  The cipher is a pair of functions that are inverses.
    - FileSlices (comm/socket_adapter.c): hmdfs_readfile_response and hmdfs_send_slice, and the
      works hmdfs_file_response_work_fn on the dentry file and the request they share; works_of
      is what a receive thread makes of a stream.
    - Reopen (file_remote.c): the file id a client keeps, hmdfs_remote_file_reopen and the wait
      in front of it as steps of several users over a server that is the class FileServer; the
      table of ServerFile is an instance.  net says which messages of a step are lost, and
      opens and closes may be handled after their sender gave up.
    - Authority (authority/authentication.c): the permission words, the ways a directory or a
      file comes to one (made here, found here, shown by a peer), and overriding the ids.
    - Bundles (authority/config.c): the three hash tables of configfs as lists in the order of
      their buckets, and the operations on them.
    - Connections (comm/connection.c, comm/transport.c, comm/socket_adapter.c,
      comm/device_node.c): struct connection on a heap with reference counts, the lists of the
      peer, and the threads that use them.  A thread is the list of actions it has to do;
      conn_op_step is an action of any of them, a command of user space, a send or a work.

    * The theorems

    Dentry files: the operations refine a map (DentryMap), the listing emits every entry
    once and can be resumed (DentryList), a group's bytes round-trip and its slots are
    allocated first-fit (DentryGroup), buckets tile the file (DentryLayout), the hash is
    the reference one (DentryHash).  Messages: acceptance of a request is exactly
    well-formedness (MessageVerify), and every request the client builds is accepted and
    decodes to the strings it was built from (ClientMsg).  Paths: the check finds
    exactly the paths with a ".." component (ServerPath).  Sharing: item count,
    references, timers and uniqueness are invariants of every interleaving, and access
    is granted to exactly the intended device (ShareTable).  Writeback: the settings keep
    the thresholds ordered, the loop returns, pauses are bounded, the queue is FIFO
    without duplicates (Writeback).

    Caches: every sequence of list operations keeps counts exact and touches no freed node,
    and each list is a finite map from directory and device to a file (CacheNode).  A
    file's name gives back what it was made from (CacheName).  A cache whose directory
    changed is rebuilt, and pages of a file that changed are dropped, given a clock that
    lags by less than the precision (DcacheValid, OpenCache).  A change is announced to
    every other device once, but for an unlink that ends with -EOWNERDEAD (DropPush).
    After a pull the directory is fresh and
    references balance (CachePull).  Paths are those of the chain of parents, or too long
    (DentryPath).  Connections: any interleaving of events and their work announces an
    alternating sequence that ends with the last event, and the work terminates
    (NodeEvents); two devices agree on the negotiated values exactly when their messages
    say they can (Handshake).

    Stash: no interleaving of steps touches a freed inode, and counts and lists stay right
    (Stash.stash_invariant); the handlers come to an end and settle every inode, whatever
    fails; a device that is removed keeps no reference; and if nothing fails, the bytes
    written while the device was away are those of the remote file in the end (Stash,
    StashFile), across a restart as well (StashRebuild).  A stash file that is accepted is
    well formed, and reading it stays inside of its buffer (StashFile).

    Server: whatever the requests of a client do to each other, the references of every open
    file are exactly those of the table and of the handlers; an id reaches the file it was
    answered for or none; files are closed when the connection goes away (ServerFile).
    A client may release an id before its open is answered; the theorems take no open to fail
    after that.

    Messages in flight: in every interleaving each request ends exactly once, no freed head
    is touched and no page unlocked twice; an answer reaches only the request whose id and
    command it carries; and after the offline handler everything that waits comes to an end
    without its timeout (MsgTable).  The timers of requests run for seconds; the theorems take
    none to go off between the statement that starts it and the next one, which sets wfired.

    Merge view: a reader gets the whole listing whatever its buffers have room for, no name
    appears twice and every entry of every device is there, for names of at most 238
    bytes that do not end in the suffix of directories, and device ids below 10000
    (MergeList); a lookup ends when its
    last work does, with exactly the comrades that the entries found allow, and every listed
    name is found again, a renamed one on the device it came from, when no device has
    a name that looks like one of an entry in conflict (MergeLookup); an entry that is created
    gets its whole local path, from the top down, or is not created for the error of a step, the
    directories above being made and linked, and a removal stops at the first
    device that fails (MergeOps).

    Transport: a message that was sent arrives as it was, whatever pieces the socket gives, and
    nothing else does, until the thread is stopped or finds the link broken, when the messages
    it has not read are lost (Transport).  A dentry file that the server answers in slices is, after
    any interleaving of the works, the same file at the client, and the requester is woken up
    with 0 (FileSlices.dentry_file_transferred, from the server's file through the socket to
    the client's).  In every interleaving the references of a connection are exactly those of
    its list, its thread and its users, and none that was freed is touched; once the sockets are
    dead every thread ends and every socket is closed; a message goes to the first connection
    of the list that works, and those in front of it are given up, if the peer is
    online (Connections).  A file that is opened again is held once at the server as long as its
    users do not overlap, and not at all once it is closed, but for one file for every message
    lost since the peer was last away (Reopen).

    Authority: the word of a directory is a function of its path, and of whether "system" was
    made or found; its owner is that of its place or of its parent when it was made and its own
    when it was found; and a peer is shown what the directory has, but for two cases (Authority);
    the tables of bundle ids are maps, without regard to case (Bundles).

    Several theorems state faults of the code as it is: the group left locked after a
    change (DentryMap.change_keeps_group_locked), the credentials left overridden
    (DentryFile.read_dentry_cred), the size test of extended-attribute responses
    (MessageVerify.xattr_response_size_one), the reads past short responses
    (MessageVerify.verify_reads_in_bounds, ClientReply.getxattr_reply_bounds), the drop
    flag a failed rename leaves behind (DropPush.failed_rename_loses_push), the file an
    insertion hands out without a reference (CacheNode.inserted_file_closed), the overflow
    of the file size (DentryLayout.dcache_file_size_bounds), the divide error of the
    largest byte limits (Writeback.settings_invariant), the pages an aborted restore
    loses (Stash.aborted_restore_loses_stash), the files an atomic open leaves open
    (ServerFile.atomic_open_leaks_file), the receiver that waits for ever after a failed
    send (MsgTable.failed_send_blocks_receiver) and the head a sender writes to after its
    timer freed it (MsgTable.early_timeout_uses_freed_head), the file that is put once more when
    an open fails after its id was released (ServerFile.early_release_closes_twice), the entry
    that is lost when a rename changes only the case of a name on a mount that ignores case
    (DentryMap.case_only_rename_loses_entry), the entries an empty directory
    hides (MergeList.empty_device_hides_others), the names and buffers that are left
    (MergeName.conflict_names_out_of_bounds), the entries behind a long name in conflict
    (MergeList.long_conflict_hides_rest), the entries whose own names look like names in conflict
    (MergeLookup.own_conflict_names_not_found), the file of several devices that is found
    first (MergeLookup.file_lookup_depends_on_order), the renames whose failure is lost
    (MergeOps.rename_reports_last), the payload of a refused message that is received as
    messages (Transport.refused_payload_is_received), the message that a short send mixes with
    the next (Transport.short_send_mixes_messages), the slice that could not be written and is
    reported as written (FileSlices.failed_write_hidden), the messages dropped with a link that the
    peer closed (Transport.broken_link_drops_unread), the payload read that repeats EBADMSG without
    end (Transport.bad_records_are_not_counted), the slices read behind an answer
    (FileSlices.answer_read_in_bounds) or written over the start of a file of 4 GiB
    (FileSlices.slice_offset_wraps), the files that users who open one again at once leave open
    (Reopen.overlapping_reopens_leak), the two words that differ between the views
    (Authority.views_agree_iff), the owner of an unknown bundle
    (Authority.unknown_bundle_owner), the bundle that its removal leaves
    (Bundles.overlapping_stores_survive_release), the receive thread that goes on after its peer
    was released (Connections.receive_thread_outlives_peer), the connection that works and is no
    longer found while a handshake is repeated on it (Connections.handshake_hides_working_connection),
    and the peer that is online after it was disconnected (Connections.online_after_disconnect)
    or although its last acknowledgement was not sent (Connections.failed_ack_goes_online).

    * Bounds and fuel

    Integers are Z with their wrap-around written out (u8, u32, u64, swrap).  Recursion
    that is not structural runs on fuel: the bitmap scans on 80 (the slots of a group),
    the level loops on the 63 levels of MAX_BUCKET_LEVEL, the hash on the blocks of the
    name, the path scan on its length plus one, the inode handler on the queue's length,
    the walk to the root on the buffer's length plus one (every step uses a byte of it),
    the names of a cache file on DENTRY_FILE_NAME_RETRY, the parser of the handshake on
    the data's length plus one, the event work on the two turns each of at most four events,
    the copy of a stash file on twice its size plus one (of two turns one copies a byte);
    the theorems about them show the fuel is enough.  The refinement theorems hold for
    files of at most 30 levels, where group numbers fit the unsigned int the code uses.
    The theorems on file ids speak of at most 2^31 requests, before the ids wrap around.
    The loop over the directories of a listing runs on the number of devices.
    Reading from a socket runs on the events it has plus one, each turn taking one; the
    receive thread on the bytes, the events and the turns it is given, plus one, so that it ends
    when the socket fails finitely often before its stream ends; the loop over slices on the
    size of the file plus one.  Transfers are stated for files below 4 GiB.
    The steps of message threads after the peer went offline are bounded by MsgTable.to_do,
    those of connections with dead sockets by Connections.left_to_do.

    * What is not modelled

    Memory allocation succeeds except where a flag says otherwise; raw struct fields are
    little-endian (on-disk and on-wire fields are, by the code's conversions).  A walk up
    the parents that races with a rename is repeated by the code and seen once.  A pull
    reads the items before and after it takes the lock, the two reads being independent.
    The stash's statistics per device, its directory and the waiting for page writeback
    are left out; a stash file's blocks are those written, as SEEK_DATA reports them.
    Iterating the cache directory at mount time and the cache files of the cloud are left
    out.  Of requests without an answer (TIMEOUT_NONE) and of interrupted waits only the
    latter are modelled, as timeouts.  The
    list of peers, the statistics of connections, the wait for messages in flight at a
    disconnection and the exchange of keys are left out, the cipher being a parameter; the
    receiver of page answers gets the lookup of the waiting page as a parameter.  Trace points, the VFS glue of the
    inode and file operations, mount options, the cloud view, the handlers that pass a path to
    the lower file system, the user space agent and the fuzzer around the module are not
    modelled; hmdfs-bak is an older copy of the module. *)
