(* ===== verification/Prelude.v ===== *)
(** Shared prelude of the hmdfs development: machine-width integers, errno
    values, byte buffers (little-endian fields, C strings, sub-buffer reads and
    writes), 80-bit bitmaps, and the automation the component files use. *)
From stdpp Require Export base numbers list gmap strings option.
From Stdlib Require Export ZArith Lia.

Declare Scope hmdfs_scope.
Delimit Scope hmdfs_scope with hm.
Global Open Scope Z_scope.

Create HintDb hmdfs discriminated.

(** * Automation *)

(** Turn the boolean comparisons of the code into arithmetic facts. *)
Ltac zb :=
  repeat match goal with
  | H : (_ && _)%bool = true |- _ => apply andb_true_iff in H; destruct H
  | H : (_ || _)%bool = false |- _ => apply orb_false_iff in H; destruct H
  | H : negb _ = true |- _ => apply negb_true_iff in H
  | H : negb _ = false |- _ => apply negb_false_iff in H
  | H : (_ <? _) = true |- _ => apply Z.ltb_lt in H
  | H : (_ <? _) = false |- _ => apply Z.ltb_ge in H
  | H : (_ <=? _) = true |- _ => apply Z.leb_le in H
  | H : (_ <=? _) = false |- _ => apply Z.leb_gt in H
  | H : (_ =? _) = true |- _ => apply Z.eqb_eq in H
  | H : (_ =? _) = false |- _ => apply Z.eqb_neq in H
  | H : (_ >? _) = _ |- _ => rewrite Z.gtb_ltb in H
  | H : (_ >=? _) = _ |- _ => rewrite Z.geb_leb in H
  | H : bool_decide _ = true |- _ => apply bool_decide_eq_true in H
  | H : bool_decide _ = false |- _ => apply bool_decide_eq_false in H
  end.

(** Split on the condition of the first conditional or match of the goal. *)
Ltac split_if :=
  match goal with
  | |- context [if ?b then _ else _] =>
      match type of b with
      | bool => let E := fresh "E" in destruct b eqn:E; zb
      end
  end.
Ltac split_ifs := repeat (split_if; try lia; try congruence).
Ltac split_if_in H :=
  match type of H with
  | context [if ?b then _ else _] =>
      match type of b with
      | bool => let E := fresh "E" in destruct b eqn:E; zb
      end
  end.

(** * Machine-width integers *)

(** An unsigned [w]-bit value is the residue of the mathematical one. *)
Definition wrap (w z : Z) : Z := z mod 2 ^ w.
Abbreviation u8 := (wrap 8).
Abbreviation u16 := (wrap 16).
Abbreviation u32 := (wrap 32).
Abbreviation u64 := (wrap 64).

(** Two's-complement reading of a [w]-bit value (a C cast to a signed type). *)
Definition swrap (w z : Z) : Z :=
  let m := z mod 2 ^ w in if m <? 2 ^ (w - 1) then m else m - 2 ^ w.
Abbreviation s32 := (swrap 32).
Abbreviation s64 := (swrap 64).

Lemma wrap_range w z : 0 <= w -> 0 <= wrap w z < 2 ^ w.
Proof. intros. apply Z.mod_pos_bound. lia. Qed.

Lemma wrap_small w z : 0 <= z < 2 ^ w -> wrap w z = z.
Proof. intros. by apply Z.mod_small. Qed.

Lemma swrap_small w z : 0 <= z < 2 ^ (w - 1) -> 0 < w -> swrap w z = z.
Proof.
  intros Hz Hw. unfold swrap.
  assert (2 ^ w = 2 * 2 ^ (w - 1)) as E.
  { replace w with (1 + (w - 1)) at 1 by lia. rewrite Z.pow_add_r; lia. }
  rewrite Z.mod_small by lia. destruct (z <? 2 ^ (w - 1)) eqn:F; zb; lia.
Qed.

Lemma swrap_id w z : 0 < w -> - 2 ^ (w - 1) <= z < 2 ^ (w - 1) -> swrap w z = z.
Proof.
  intros Hw Hz. assert (2 ^ w = 2 * 2 ^ (w - 1)) as Hp.
  { rewrite <- Z.pow_succ_r by lia. f_equal. lia. }
  unfold swrap, wrap. destruct (Z.lt_ge_cases z 0).
  - replace (z mod 2 ^ w) with (z + 2 ^ w) by (apply Z.mod_unique with (-1); lia). split_ifs.
  - rewrite Z.mod_small by lia. split_ifs.
Qed.

Lemma swrap_range w z : 0 < w -> - 2 ^ (w - 1) <= swrap w z < 2 ^ (w - 1).
Proof.
  intros Hw. unfold swrap.
  assert (2 ^ w = 2 * 2 ^ (w - 1)) as E.
  { replace w with (1 + (w - 1)) at 1 by lia. rewrite Z.pow_add_r; lia. }
  pose proof (Z.mod_pos_bound z (2 ^ w)) as B.
  assert (0 < 2 ^ (w - 1)) by (apply Z.pow_pos_nonneg; lia).
  destruct (z mod 2 ^ w <? 2 ^ (w - 1)) eqn:F; zb; lia.
Qed.

Lemma u32_add a b : u32 (u32 a + b) = u32 (a + b).
Proof. unfold wrap. by rewrite Zplus_mod_idemp_l. Qed.

(** * errno *)
Definition EPERM := 1.
Definition ENOENT := 2.
Definition EINTR := 4.
Definition EIO := 5.
Definition EAGAIN := 11.
Definition ENOMEM := 12.
Definition EACCES := 13.
Definition EBUSY := 16.
Definition EEXIST := 17.
Definition EXDEV := 18.
Definition EINVAL := 22.
Definition EMFILE := 24.
Definition ENOSPC := 28.
Definition ETIME := 62.
Definition ENAMETOOLONG := 36.
Definition ENOTEMPTY := 39.
Definition EBADMSG := 74.
Definition EOPNOTSUPP := 95.
Definition ESHUTDOWN := 108.
Definition ETIMEDOUT := 110.

(** The longest path the kernel handles, its NUL included. *)
Definition PATH_MAX := 4096.
Definition NAME_MAX := 255.

(** The types of directory entries. *)
Definition DT_UNKNOWN := 0.
Definition DT_DIR := 4.
Definition DT_REG := 8.
Definition DT_LNK := 10.

(** * Byte buffers *)

Abbreviation bytes := (list Z).
Definition is_byte (b : Z) : Prop := 0 <= b < 256.

(** [len] bytes of [l] from offset [off]; shorter when the buffer ends first. *)
Definition sub {A} (off len : nat) (l : list A) : list A := take len (drop off l).

(** memcpy of [src] to offset [off] of [l]. *)
Definition memcpy_at {A} (off : nat) (src l : list A) : list A :=
  take off l ++ src ++ drop (off + length src) l.

Fixpoint le_enc (n : nat) (z : Z) : bytes :=
  match n with
  | O => []
  | S n => z mod 256 :: le_enc n (z / 256)
  end.

Fixpoint le_dec (l : bytes) : Z :=
  match l with
  | [] => 0
  | b :: l => b + 256 * le_dec l
  end.

Lemma length_le_enc n z : length (le_enc n z) = n.
Proof. revert z; induction n; intros; simpl; auto. Qed.

Lemma le_enc_bytes n z : Forall is_byte (le_enc n z).
Proof.
  revert z; induction n; intros z; simpl; constructor; auto.
  apply Z.mod_pos_bound; lia.
Qed.

Lemma le_dec_enc n z : 0 <= z < 256 ^ Z.of_nat n -> le_dec (le_enc n z) = z.
Proof.
  revert z; induction n as [|n IH]; intros z Hz; simpl; [simpl in Hz; lia|].
  rewrite Nat2Z.inj_succ, Z.pow_succ_r in Hz by lia.
  rewrite IH.
  - pose proof (Z_div_mod_eq_full z 256). lia.
  - split; [apply Z.div_pos; lia | apply Z.div_lt_upper_bound; lia].
Qed.

Lemma le_dec_enc_mod n z : le_dec (le_enc n z) = z mod 256 ^ Z.of_nat n.
Proof.
  revert z; induction n as [|n IH]; intros z; [by rewrite Z.mod_1_r|].
  cbn [le_enc le_dec]. rewrite IH, Nat2Z.inj_succ, Z.pow_succ_r by lia.
  by rewrite Z.rem_mul_r by lia.
Qed.

Lemma le_dec_range l : Forall is_byte l -> 0 <= le_dec l < 256 ^ Z.of_nat (length l).
Proof.
  induction 1 as [|b l Hb Hl IH]; [simpl; lia|].
  cbn [le_dec length]. rewrite Nat2Z.inj_succ, Z.pow_succ_r by lia.
  unfold is_byte in Hb. lia.
Qed.

Lemma le_enc_dec l : Forall is_byte l -> le_enc (length l) (le_dec l) = l.
Proof.
  induction 1 as [|b l Hb Hl IH]; [done|]. simpl. unfold is_byte in Hb.
  replace ((b + 256 * le_dec l) mod 256) with b.
  - replace ((b + 256 * le_dec l) / 256) with (le_dec l); [by rewrite IH|].
    rewrite Z.mul_comm, Z.div_add, Z.div_small; lia.
  - rewrite Z.mul_comm, Z.mod_add, Z.mod_small; lia.
Qed.

Section buffers.
Context {A : Type}.
Implicit Types l src : list A.

Lemma length_sub off len l :
  (off + len <= length l)%nat -> length (sub off len l) = len.
Proof. intros. unfold sub. rewrite length_take, length_drop. lia. Qed.

Lemma length_memcpy_at off src l :
  (off + length src <= length l)%nat ->
  length (memcpy_at off src l) = length l.
Proof.
  intros. unfold memcpy_at. rewrite !length_app, length_take, length_drop. lia.
Qed.

Lemma lookup_memcpy_out off src l i :
  (off + length src <= length l)%nat ->
  (i < off \/ off + length src <= i)%nat ->
  memcpy_at off src l !! i = l !! i.
Proof.
  intros Hl [Hi|Hi]; unfold memcpy_at.
  - rewrite lookup_app_l by (rewrite length_take; lia).
    apply lookup_take_lt; lia.
  - rewrite lookup_app_r by (rewrite length_take; lia).
    rewrite length_take, Nat.min_l by lia.
    rewrite lookup_app_r by lia. rewrite lookup_drop. f_equal. lia.
Qed.

Lemma sub_memcpy_same off src l :
  (off + length src <= length l)%nat ->
  sub off (length src) (memcpy_at off src l) = src.
Proof.
  intros. unfold sub, memcpy_at.
  rewrite drop_app_length' by (rewrite length_take; lia).
  by rewrite take_app_length.
Qed.

Lemma lookup_sub off len l i :
  (i < len)%nat -> sub off len l !! i = l !! (off + i)%nat.
Proof. intros. unfold sub. rewrite lookup_take_lt by lia. apply lookup_drop. Qed.

Lemma lookup_sub_ge off len l i : (len <= i)%nat -> sub off len l !! i = None.
Proof. intros. unfold sub. by rewrite lookup_take_ge by lia. Qed.

Lemma sub_memcpy_other off src l off' len :
  (off + length src <= length l)%nat ->
  (off' + len <= off \/ off + length src <= off')%nat ->
  sub off' len (memcpy_at off src l) = sub off' len l.
Proof.
  intros Hl Hd. apply list_eq. intros i.
  destruct (decide (i < len)%nat).
  - rewrite !lookup_sub by lia. apply lookup_memcpy_out; lia.
  - by rewrite !lookup_sub_ge by lia.
Qed.

Lemma sub_all l : sub 0 (length l) l = l.
Proof. unfold sub. rewrite drop_0. by rewrite take_ge. Qed.

(** Reading a field of a concatenation of fields. *)
Lemma sub_app_at (pre f post : list A) off len :
  off = length pre -> len = length f -> sub off len (pre ++ f ++ post) = f.
Proof.
  intros -> ->. unfold sub. rewrite drop_app_length. by rewrite take_app_length.
Qed.
End buffers.

(** snprintf of [text] into [size] bytes, its NUL left out. *)
Definition snprintf (size : Z) (text : bytes) : bytes := take (Z.to_nat (size - 1)) text.

Lemma snprintf_fits size text : Z.of_nat (length text) < size -> snprintf size text = text.
Proof. intros H. apply take_ge. lia. Qed.

(** strnlen(l, max): the bytes before the first NUL, at most [max]. *)
Fixpoint strnlen (l : bytes) (max : nat) : nat :=
  match max, l with
  | O, _ => O
  | _, [] => O
  | S m, b :: l => if b =? 0 then O else S (strnlen l m)
  end.

Lemma strnlen_le l m : (strnlen l m <= m)%nat.
Proof.
  revert l; induction m; intros [|b l]; simpl; [lia..|].
  destruct (b =? 0); [lia|]. specialize (IHm l). lia.
Qed.

(** The string found is NUL-free, and is followed by a NUL when it is shorter
    than the bound and the buffer goes on. *)
Lemma strnlen_prefix l m i b :
  (i < strnlen l m)%nat -> l !! i = Some b -> b <> 0.
Proof.
  revert l i; induction m as [|m IH]; intros [|c l] i; simpl; [lia..|].
  destruct (c =? 0) eqn:E; [lia|]. zb. destruct i as [|i]; simpl; intros Hi Hl.
  - congruence.
  - apply (IH l i); [lia|done].
Qed.

Lemma strnlen_eq l m n :
  (n < m)%nat -> l !! n = Some 0 ->
  (forall i b, (i < n)%nat -> l !! i = Some b -> b <> 0) ->
  strnlen l m = n.
Proof.
  revert l n; induction m as [|m IH]; intros [|c l] n Hn H0 Hnz; simpl; try lia.
  - done.
  - destruct n as [|n]; simpl in H0.
    + injection H0 as ->. done.
    + assert (c <> 0) by (apply (Hnz 0%nat); [lia|done]).
      destruct (c =? 0) eqn:E; zb; [lia|]. f_equal. apply IH; [lia|done|].
      intros i b Hi Hl. apply (Hnz (S i)); [lia|done].
Qed.

(** The kernel's tolower: its ctype table marks A-Z and the Latin-1 capitals
    0xC0-0xDE except 0xD7 as upper case. *)
Definition isupper (c : Z) : bool :=
  ((65 <=? c) && (c <=? 90)) || ((192 <=? c) && (c <=? 222) && negb (c =? 215)).
Definition tolower (c : Z) : Z := if isupper c then c + 32 else c.

(** Lower-casing neither creates nor destroys a byte below 'A'. *)
Lemma tolower_eq_low c k : 0 <= k < 65 -> (tolower c =? k) = (c =? k).
Proof.
  intros Hk. unfold tolower, isupper.
  destruct (c =? k) eqn:E; zb; [subst|]; split_if; zb; try lia;
    apply Z.eqb_eq || apply Z.eqb_neq; lia.
Qed.

Fixpoint beqb (a b : bytes) : bool :=
  match a, b with
  | [], [] => true
  | x :: a, y :: b => (x =? y) && beqb a b
  | _, _ => false
  end.

Lemma beqb_eq a b : beqb a b = true <-> a = b.
Proof.
  revert b; induction a as [|x a IH]; intros [|y b]; simpl; try naive_solver.
  rewrite andb_true_iff, Z.eqb_eq, IH. naive_solver.
Qed.

Lemma beqb_refl a : beqb a a = true.
Proof. by apply beqb_eq. Qed.

Definition case_eqb (a b : bytes) : bool := beqb (map tolower a) (map tolower b).

Lemma case_eqb_refl a : case_eqb a a = true.
Proof. apply beqb_refl. Qed.

Lemma case_eqb_iff a b : case_eqb a b = true <-> map tolower a = map tolower b.
Proof. apply beqb_eq. Qed.

#[export] Hint Resolve beqb_refl case_eqb_refl strnlen_le : hmdfs.

(** * Filters *)

Lemma filter_all {A} (P : A -> Prop) `{forall x, Decision (P x)} (l : list A) :
  (forall x, x ∈ l -> P x) -> filter P l = l.
Proof.
  induction l as [|x l IH]; intros Hl; [done|]. rewrite filter_cons_True by (apply Hl; set_solver).
  f_equal. apply IH. set_solver.
Qed.

(** * First match in a list *)

Lemma find_split {A} (f : A -> bool) l x :
  List.find f l = Some x <->
  exists l1 l2, l = l1 ++ x :: l2 /\ f x = true /\ forall y, y ∈ l1 -> f y = false.
Proof.
  induction l as [|y l IH]; simpl.
  - split; [done|]. by intros ([|? ?]&?&?&_).
  - destruct (f y) eqn:E.
    + split.
      * intros [= ->]. exists [], l. split; [done|split; [done|]].
        intros z Hz. by apply elem_of_nil in Hz.
      * intros ([|z l1]&l2&?&Hx&Hn); simplify_eq/=; [done|].
        rewrite Hn in E by set_solver. done.
    + rewrite IH. split.
      * intros (l1&l2&->&Hx&Hn). exists (y :: l1), l2. split; [done|split; [done|]].
        intros z [->|Hz]%elem_of_cons; auto.
      * intros ([|z l1]&l2&?&Hx&Hn); simplify_eq/=; [congruence|].
        exists l1, l2. split; [done|split; [done|]]. intros; apply Hn; set_solver.
Qed.

Lemma find_none_iff {A} (f : A -> bool) l :
  List.find f l = None <-> forall y, y ∈ l -> f y = false.
Proof.
  induction l as [|y l IH]; simpl.
  - split; [|done]. intros _ y Hy. by apply elem_of_nil in Hy.
  - destruct (f y) eqn:E.
    + split; [done|]. intros H. rewrite H in E by set_solver. done.
    + rewrite IH. split; [|set_solver]. intros H z [->|Hz]%elem_of_cons; auto.
Qed.

Lemma find_ext {A} (f g : A -> bool) l :
  (forall x, x ∈ l -> f x = g x) -> List.find f l = List.find g l.
Proof.
  induction l as [|y l IH]; intros H; simpl; [done|].
  rewrite <- H by set_solver. destruct (f y); [done|]. apply IH. set_solver.
Qed.

Lemma find_app {A} (f : A -> bool) l1 l2 :
  List.find f (l1 ++ l2) =
  match List.find f l1 with Some x => Some x | None => List.find f l2 end.
Proof. induction l1 as [|y l1 IH]; simpl; [done|]. by destruct (f y). Qed.

(** * Bitmaps held as a little-endian integer *)

Definition test_bit_le (nr : Z) (bm : Z) : bool := Z.testbit bm nr.

(** __set_bit_le / __clear_bit_le on the [n] bits from [p] upwards. *)
Fixpoint set_bits (p : Z) (n : nat) (bm : Z) : Z :=
  match n with
  | O => bm
  | S n => set_bits (p + 1) n (Z.setbit bm p)
  end.

Fixpoint clear_bits (p : Z) (n : nat) (bm : Z) : Z :=
  match n with
  | O => bm
  | S n => clear_bits (p + 1) n (Z.clearbit bm p)
  end.

Lemma set_bits_spec p n bm i :
  0 <= p -> 0 <= i ->
  Z.testbit (set_bits p n bm) i
  = ((p <=? i) && (i <? p + Z.of_nat n)) || Z.testbit bm i.
Proof.
  revert p bm; induction n as [|n IH]; intros p bm Hp Hi; simpl.
  - destruct (p <=? i) eqn:A, (i <? p + Z.of_nat 0) eqn:B; zb; try lia; done.
  - rewrite IH by lia. rewrite Z.setbit_eqb by lia.
    destruct (p + 1 <=? i) eqn:A, (i <? p + 1 + Z.of_nat n) eqn:B,
      (p <=? i) eqn:C, (i <? p + Z.of_nat (S n)) eqn:D, (p =? i) eqn:E;
      zb; simpl; try lia; try done; by rewrite ?orb_true_r, ?orb_false_r.
Qed.

Lemma clear_bits_spec p n bm i :
  0 <= p -> 0 <= i ->
  Z.testbit (clear_bits p n bm) i
  = negb ((p <=? i) && (i <? p + Z.of_nat n)) && Z.testbit bm i.
Proof.
  revert p bm; induction n as [|n IH]; intros p bm Hp Hi; simpl.
  - destruct (p <=? i) eqn:A, (i <? p + Z.of_nat 0) eqn:B; zb; try lia; done.
  - rewrite IH by lia. rewrite Z.clearbit_eqb by lia.
    destruct (p + 1 <=? i) eqn:A, (i <? p + 1 + Z.of_nat n) eqn:B,
      (p <=? i) eqn:C, (i <? p + Z.of_nat (S n)) eqn:D, (p =? i) eqn:E;
      zb; simpl; try lia; destruct (Z.testbit bm i); done.
Qed.

(** find_next_bit_le and find_next_zero_bit_le: the first set (clear) bit at or
    after [off] below [size], or [size].  [n] bounds the bits inspected. *)
Fixpoint find_next (b : bool) (bm : Z) (n : nat) (size off : Z) : Z :=
  match n with
  | O => size
  | S n => if size <=? off then size
           else if eqb (Z.testbit bm off) b then off
           else find_next b bm n size (off + 1)
  end.
Definition find_next_bit_le (bm size off : Z) : Z :=
  find_next true bm (Z.to_nat size) size off.
Definition find_next_zero_bit_le (bm size off : Z) : Z :=
  find_next false bm (Z.to_nat size) size off.

Lemma find_next_spec b bm n size off :
  0 <= off -> size - off <= Z.of_nat n ->
  let r := find_next b bm n size off in
  (forall i, off <= i < r -> i < size -> Z.testbit bm i = negb b) /\
  ((off <= r < size /\ Z.testbit bm r = b) \/ r = size).
Proof.
  revert off; induction n as [|n IH]; intros off Ho Hn; simpl.
  - split; [intros; lia | auto].
  - destruct (size <=? off) eqn:E; zb; [split; [intros; lia|auto]|].
    destruct (eqb (Z.testbit bm off) b) eqn:F.
    + apply eqb_prop in F. split; [intros; lia|left; split; [lia|done]].
    + apply eqb_false_iff in F. destruct (IH (off + 1)) as [H1 H2]; [lia..|].
      split.
      * intros i Hi Hs. destruct (decide (i = off)) as [->|].
        -- destruct (Z.testbit bm off), b; done.
        -- apply H1; lia.
      * destruct H2 as [[? ?]|?]; [left; split; [lia|done]|auto].
Qed.

Lemma find_next_bit_le_spec bm size off :
  0 <= off -> 0 <= size ->
  let r := find_next_bit_le bm size off in
  (forall i, off <= i < r -> i < size -> Z.testbit bm i = false) /\
  ((off <= r < size /\ Z.testbit bm r = true) \/ r = size).
Proof. intros. apply (find_next_spec true); lia. Qed.

Lemma find_next_zero_bit_le_spec bm size off :
  0 <= off -> 0 <= size ->
  let r := find_next_zero_bit_le bm size off in
  (forall i, off <= i < r -> i < size -> Z.testbit bm i = true) /\
  ((off <= r < size /\ Z.testbit bm r = false) \/ r = size).
Proof. intros. apply (find_next_spec false); lia. Qed.

(** * Occurrences in a list *)

Definition cnt (f : Z) (l : list Z) : Z := Z.of_nat (length (filter (fun x => x = f) l)).

Lemma cnt_cons f x l : cnt f (x :: l) = (if decide (x = f) then 1 else 0) + cnt f l.
Proof. unfold cnt. rewrite filter_cons. destruct (decide _); cbn [length]; lia. Qed.
Lemma cnt_app f l l' : cnt f (l ++ l') = cnt f l + cnt f l'.
Proof. unfold cnt. rewrite list.filter_app, length_app. lia. Qed.
Lemma cnt_nonneg f l : 0 <= cnt f l.
Proof. unfold cnt. lia. Qed.
Lemma cnt_pos f l : f ∈ l -> 0 < cnt f l.
Proof. induction l as [|x l IH]; [by intros ?%elem_of_nil|]. rewrite cnt_cons. intros [<-|Hf]%elem_of_cons.
  - rewrite decide_True by done. pose proof (cnt_nonneg f l). lia.
  - pose proof (IH Hf). destruct (decide _); lia. Qed.
#[export] Instance cnt_perm f : Proper (Permutation ==> eq) (cnt f).
Proof. intros l l' H. unfold cnt. by rewrite H. Qed.
