(* ===== verification/RefCount.v ===== *)
(** Reference counts (struct kref, get_file and fput): a finite map from the objects that
    exist to their counts, kept equal to the number of references somebody holds. *)
From S2P Require Import Prelude.

(** [n] more references to [f]. *)
Definition add_ref (refs : Z -> Z) (f : Z) (n : Z) : Z -> Z :=
  fun g => if g =? f then refs g + n else refs g.

(** A reference more, and one less: the last one frees the object. An object that does not
    exist has no result. *)
Definition inc_ref (m : gmap Z Z) (f : Z) : option (gmap Z Z) := n ← m !! f; Some (<[f := n + 1]> m).
Definition dec_ref (m : gmap Z Z) (f : Z) : option (gmap Z Z) :=
  n ← m !! f; Some (if n - 1 =? 0 then delete f m else <[f := n - 1]> m).

(** Every object has exactly the references [r] says, and exists while it has any. *)
Definition counts (m : gmap Z Z) (r : Z -> Z) : Prop :=
  forall f, match m !! f with Some n => n = r f /\ 0 < n | None => r f = 0 end.

Lemma add_ref_eq r f n g : add_ref r f n g = (if decide (f = g) then n else 0) + r g.
Proof. unfold add_ref. destruct (g =? f) eqn:E; zb; destruct (decide _); lia || congruence. Qed.

Lemma counts_ext m r r' : (forall f, r' f = r f) -> counts m r -> counts m r'.
Proof. intros E Hc f. rewrite E. apply Hc. Qed.

Lemma counts_live m r f : counts m r -> 0 < r f -> m !! f = Some (r f).
Proof. intros Hc Hr. specialize (Hc f). destruct (m !! f); [destruct Hc; congruence|lia]. Qed.

Lemma counts_dom m r f : counts m r -> is_Some (m !! f) <-> r f <> 0.
Proof.
  intros Hc. specialize (Hc f). destruct (m !! f); split; intros H; try lia; [by eexists|by destruct H].
Qed.

Lemma counts_nonneg m r f : counts m r -> 0 <= r f.
Proof. intros Hc. specialize (Hc f). destruct (m !! f); lia. Qed.

Lemma counts_insert m r f n : counts m r -> 0 < r f + n -> counts (<[f := r f + n]> m) (add_ref r f n).
Proof.
  intros Hc Hn g. rewrite add_ref_eq. destruct (decide (f = g)) as [->|Hne].
  - rewrite lookup_insert_eq. split; lia.
  - rewrite lookup_insert_ne by done. apply Hc.
Qed.

Lemma counts_delete m r f : counts m r -> counts (delete f m) (add_ref r f (- r f)).
Proof.
  intros Hc g. rewrite add_ref_eq. destruct (decide (f = g)) as [->|Hne].
  - rewrite lookup_delete_eq. lia.
  - rewrite lookup_delete_ne by done. apply Hc.
Qed.

Lemma inc_ref_ok m r f : counts m r -> 0 < r f -> exists m', inc_ref m f = Some m' /\ counts m' (add_ref r f 1).
Proof.
  intros Hc Hr. unfold inc_ref. rewrite (counts_live _ _ _ Hc Hr). cbn [mbind option_bind].
  eexists. split; [done|]. apply counts_insert; [done|lia].
Qed.

Lemma dec_ref_ok m r f : counts m r -> 0 < r f -> exists m', dec_ref m f = Some m' /\ counts m' (add_ref r f (-1)).
Proof.
  intros Hc Hr. unfold dec_ref. rewrite (counts_live _ _ _ Hc Hr). cbn [mbind option_bind].
  eexists. split; [done|]. destruct (r f - 1 =? 0) eqn:E; zb; [|apply (counts_insert _ _ _ (-1)); [done|lia]].
  replace (-1) with (- r f) by lia. by apply counts_delete.
Qed.

(** Two ways to count the same references. *)
Ltac same_counts Hm :=
  eapply counts_ext; [|exact Hm]; intros ?; rewrite ?add_ref_eq;
  repeat (destruct (decide _) || destruct (_ =? _) eqn:?; zb); subst; try congruence; try lia.
