(* ===== verification/Idr.v ===== *)
(** The kernel's id allocator (idr_alloc_cyclic), which the tables of open files and of
    messages use: a class with its laws, and an allocator that meets them. *)
From S2P Require Import Prelude.

Definition INT_MAX := 2 ^ 31 - 1.

(** idr_alloc_cyclic(idr, ptr, start, 0): the id, at least [start], or an error. [next] is the
    cursor of the table, which the caller moves behind the id. *)
Class Idr := { idr_alloc_cyclic : gmap Z Z -> Z -> Z -> Z + Z }.

(** The id is free, and it is the one at the cursor if that one is free. *)
Class IdrLaws `{Idr} := {
  idr_error m start next e : idr_alloc_cyclic m start next = inl e -> e < 0;
  idr_found m start next id : idr_alloc_cyclic m start next = inr id -> start <= id <= INT_MAX /\ m !! id = None;
  idr_cyclic m start next id : idr_alloc_cyclic m start next = inr id ->
    Z.max start next <= INT_MAX -> m !! Z.max start next = None -> id = Z.max start next
}.

(** The entry with the smallest id from [id] on (idr_get_next). *)
Definition idr_first (m : gmap Z Z) (id : Z) : option (Z * Z) :=
  foldr (fun x best => if x.1 <? id then best
                       else match best with Some b => if x.1 <? b.1 then Some x else best | None => Some x end)
    None (map_to_list m).

Lemma idr_first_spec m id :
  match idr_first m id with
  | Some (i, a) => m !! i = Some a /\ id <= i /\ forall j, id <= j < i -> m !! j = None
  | None => forall j, id <= j -> m !! j = None
  end.
Proof.
  unfold idr_first.
  assert (H : match foldr (fun x best => if x.1 <? id then best
      else match best with Some b => if x.1 <? b.1 then Some x else best | None => Some x end) None (map_to_list m) with
    | Some (i, a) => (i, a) ∈ map_to_list m /\ id <= i /\ forall j b, (j, b) ∈ map_to_list m -> id <= j -> i <= j
    | None => forall j b, (j, b) ∈ map_to_list m -> j < id
    end).
  { induction (map_to_list m) as [|[j b] l IH]; cbn -[Z.ltb]; [by intros j b ?%elem_of_nil|].
    destruct (foldr _ None l) as [[i a]|]; destruct (j <? id) eqn:Hj; zb; cbn [fst].
    - destruct IH as (Hin&Hi&Hmin). split_and!; [by right|done|]. intros j' b' [[= -> ->]|Hin']%elem_of_cons Hle; [lia|eauto].
    - destruct IH as (Hin&Hi&Hmin). destruct (j <? i) eqn:Hlt; zb.
      + split_and!; [by left|done|]. intros j' b' [[= -> ->]|Hin']%elem_of_cons Hle; [lia|]. specialize (Hmin _ _ Hin' Hle). lia.
      + split_and!; [by right|done|]. intros j' b' [[= -> ->]|Hin']%elem_of_cons Hle; [lia|eauto].
    - intros j' b' [[= -> ->]|Hin']%elem_of_cons; [lia|eauto].
    - split_and!; [by left|done|]. intros j' b' [[= -> ->]|Hin']%elem_of_cons Hle; [lia|]. specialize (IH _ _ Hin'). lia. }
  destruct (foldr _ None _) as [[i a]|].
  - destruct H as (Hin&Hi&Hmin). apply elem_of_map_to_list in Hin. split_and!; [done|done|]. intros j Hj.
    destruct (m !! j) as [b|] eqn:E; [|done]. apply elem_of_map_to_list in E. specialize (Hmin _ _ E). lia.
  - intros j Hj. destruct (m !! j) as [b|] eqn:E; [|done]. apply elem_of_map_to_list in E. specialize (H _ _ E). lia.
Qed.

(** An allocator that only tries the cursor. *)
Definition cursor_alloc (m : gmap Z Z) (start next : Z) : Z + Z :=
  let id := Z.max start next in
  match m !! id with
  | None => if id <=? INT_MAX then inr id else inl (- ENOSPC)
  | Some _ => inl (- ENOSPC)
  end.

Definition cursor_idr : Idr := {| idr_alloc_cyclic := cursor_alloc |}.

Lemma cursor_idr_laws : @IdrLaws cursor_idr.
Proof.
  split; cbn; unfold cursor_alloc; intros m start next ?; destruct (m !! Z.max start next) eqn:E; try destruct (_ <=? _) eqn:Hb;
    intros [= <-] || intros [=]; zb; subst; try done; try (split; [lia|done]); intros; congruence.
Qed.
