(* ===== verification/DentryLayout.v ===== *)
(** The layout of a dentry cache file (hmdfs_dentryfile.h, hmdfs_dentryfile.c):
    group positions, the bucket numbering of the hash levels, file sizes, the
    depth of a file, readdir positions and the 64-bit inode numbers. *)
From S2P Require Import Prelude.

(** * Constants of hmdfs_dentryfile.h *)
Definition DENTRYGROUP_SIZE := 4096.
Definition DENTRYGROUP_HEADER := 4096.
Definition DENTRY_NAME_LEN := 8.
Definition DENTRY_PER_GROUP := 80.
Definition DENTRY_BITMAP_LENGTH := 10.
Definition DENTRY_RESERVED_LENGTH := 3.
Definition DENTRY_GROUP_RESERVED := 5.
Definition MAX_BUCKET_LEVEL := 63.
Definition BUCKET_BLOCKS := 2.
Definition BITS_PER_BYTE := 8.
Definition HMDFS_SLOT_LEN_BITS := 3.
Definition POS_BIT_NUM := 64.
Definition DEV_ID_BIT_NUM := 16.
Definition GROUP_ID_BIT_NUM := 39.
Definition OFFSET_BIT_NUM := 8.
Definition OFFSET_BIT_MASK := 255.
Definition INUNUMBER_START := 10000000.
Definition DENTRY_NAME_MAX_LEN := DENTRY_PER_GROUP * DENTRY_NAME_LEN.

(** * Positions and counts *)

(** [bidx] is an unsigned int. *)
Definition get_dentry_group_pos (bidx : Z) : Z :=
  u32 bidx * DENTRYGROUP_SIZE + DENTRYGROUP_HEADER.

(** [size] is i_size_read(inode); the result is an unsigned int. *)
Definition get_dentry_group_cnt (size : Z) : Z :=
  u32 (if DENTRYGROUP_HEADER <=? size
       then (size - DENTRYGROUP_HEADER) / DENTRYGROUP_SIZE
       else 0).

Definition get_dentry_slots (x : Z) : Z :=
  Z.shiftr (x + BITS_PER_BYTE - 1) HMDFS_SLOT_LEN_BITS.

(** * Buckets *)

Definition get_bucketaddr (level buckoffset : Z) : Z :=
  if MAX_BUCKET_LEVEL <=? level then 0
  else let curlevelmaxbucks := u64 (Z.shiftl 1 level) in
       if curlevelmaxbucks <=? buckoffset then 0
       else u64 (curlevelmaxbucks + buckoffset - 1).

Definition get_bucket_by_level (level : Z) : Z :=
  if MAX_BUCKET_LEVEL <=? level then 0 else u64 (Z.shiftl 1 level).

Definition get_overall_bucket (level : Z) : Z :=
  if MAX_BUCKET_LEVEL <=? level then 0
  else u64 (u64 (Z.shiftl 1 (level + 1)) - 1).

(** loff_t arithmetic, wrapped to 64 bits. *)
Definition get_dcache_file_size (level : Z) : Z :=
  let buckets := s64 (get_overall_bucket level) in
  s64 (buckets * DENTRYGROUP_SIZE * BUCKET_BLOCKS + DENTRYGROUP_HEADER).

(** get_count_order of linux/bitops.h: the ceiling of log2, -1 for 0. *)
Definition fls (x : Z) : Z := if x =? 0 then 0 else Z.log2 x + 1.
Definition get_count_order (count : Z) : Z := if count =? 0 then -1 else fls (count - 1).

(** The number of levels a file of [size] bytes has. *)
Definition get_max_depth (size : Z) : Z :=
  let isize := get_dentry_group_cnt size / BUCKET_BLOCKS in
  u32 (get_count_order (u32 (isize + 1))).

(** * Readdir positions (file_remote.c) *)
Definition hmdfs_set_pos (dev_id group_id offset : Z) : Z :=
  let pos := s64 (s64 (Z.shiftl dev_id (POS_BIT_NUM - 1 - DEV_ID_BIT_NUM))
                  + s64 (Z.shiftl group_id OFFSET_BIT_NUM) + offset) in
  if dev_id =? 0 then pos
  else s64 (Z.lor pos (Z.shiftl 1 (POS_BIT_NUM - 1))).

(** The two shifts with which read_dentry takes group and offset out of an
    unsigned position. *)
Definition pos_group_id (pos : Z) : Z :=
  Z.shiftr (u64 (Z.shiftl (u64 pos) (1 + DEV_ID_BIT_NUM)))
           (POS_BIT_NUM - GROUP_ID_BIT_NUM).
Definition pos_offset (pos : Z) : Z := Z.land (u64 pos) OFFSET_BIT_MASK.

(** * Inode numbers *)
Definition generate_u64_ino (ino generation : Z) : Z :=
  Z.lor (u64 ino) (u64 (Z.shiftl (u32 generation) 32)).

(** * Shared facts *)

Lemma bucket_by_level_pow level :
  0 <= level < 63 -> get_bucket_by_level level = 2 ^ level.
Proof.
  intros H. unfold get_bucket_by_level, MAX_BUCKET_LEVEL.
  destruct (63 <=? level) eqn:E; zb; [lia|].
  rewrite Z.shiftl_1_l. apply wrap_small.
  split; [lia|]. apply Z.pow_lt_mono_r; lia.
Qed.

Lemma bucketaddr_eq level off :
  0 <= level < 63 -> 0 <= off < 2 ^ level ->
  get_bucketaddr level off = 2 ^ level + off - 1.
Proof.
  intros H Ho. unfold get_bucketaddr, MAX_BUCKET_LEVEL.
  destruct (63 <=? level) eqn:E; zb; [lia|].
  assert (2 ^ level < 2 ^ 63) by (apply Z.pow_lt_mono_r; lia).
  rewrite Z.shiftl_1_l, (wrap_small 64 (2 ^ level)) by lia.
  destruct (2 ^ level <=? off) eqn:F; zb; [lia|].
  apply wrap_small. lia.
Qed.

Lemma overall_bucket_eq level :
  0 <= level < 63 -> get_overall_bucket level = 2 ^ (level + 1) - 1.
Proof.
  intros H. unfold get_overall_bucket, MAX_BUCKET_LEVEL.
  destruct (63 <=? level) eqn:E; zb; [lia|].
  assert (2 ^ (level + 1) <= 2 ^ 63) by (apply Z.pow_le_mono_r; lia).
  assert (0 < 2 ^ (level + 1)) by (apply Z.pow_pos_nonneg; lia).
  rewrite Z.shiftl_1_l, (wrap_small 64 (2 ^ (level + 1))) by lia.
  apply wrap_small; lia.
Qed.

Lemma dcache_file_size_eq level :
  0 <= level <= 49 ->
  get_dcache_file_size level
  = DENTRYGROUP_HEADER + (2 ^ (level + 1) - 1) * BUCKET_BLOCKS * DENTRYGROUP_SIZE.
Proof.
  intros H. unfold get_dcache_file_size.
  assert (2 ^ (level + 1) <= 2 ^ 50) by (apply Z.pow_le_mono_r; lia).
  assert (0 < 2 ^ (level + 1)) by (apply Z.pow_pos_nonneg; lia).
  rewrite overall_bucket_eq by lia.
  unfold BUCKET_BLOCKS, DENTRYGROUP_SIZE, DENTRYGROUP_HEADER.
  rewrite (swrap_small 64 (2 ^ (level + 1) - 1)) by lia.
  rewrite swrap_small by lia. lia.
Qed.

Lemma dentry_group_cnt_eq n :
  0 <= n < 2 ^ 32 ->
  get_dentry_group_cnt (DENTRYGROUP_HEADER + n * DENTRYGROUP_SIZE) = n.
Proof.
  intros H. unfold get_dentry_group_cnt, DENTRYGROUP_HEADER, DENTRYGROUP_SIZE.
  destruct (4096 <=? 4096 + n * 4096) eqn:E; zb; [|lia].
  replace (4096 + n * 4096 - 4096) with (n * 4096) by lia.
  rewrite Z.div_mul by lia. apply wrap_small. lia.
Qed.

Lemma count_order_pow n : 0 <= n -> get_count_order (2 ^ n) = n.
Proof.
  intros H. unfold get_count_order, fls.
  assert (0 < 2 ^ n) by (apply Z.pow_pos_nonneg; lia).
  destruct (2 ^ n =? 0) eqn:E; zb; [lia|].
  destruct (decide (n = 0)) as [->|]; [done|].
  assert (1 < 2 ^ n) by (apply Z.pow_gt_1; lia).
  destruct (2 ^ n - 1 =? 0) eqn:F; zb; [lia|].
  rewrite (Z.log2_unique (2 ^ n - 1) (n - 1)); [lia|lia|].
  replace (Z.succ (n - 1)) with n by lia.
  assert (2 ^ n = 2 * 2 ^ (n - 1)).
  { replace n with (1 + (n - 1)) at 1 by lia. rewrite Z.pow_add_r; lia. }
  lia.
Qed.

(** A file sized for level [l] has [l + 1] levels. *)
Lemma max_depth_full l :
  0 <= l <= 29 -> get_max_depth (get_dcache_file_size l) = l + 1.
Proof.
  intros H. unfold get_max_depth. rewrite dcache_file_size_eq by lia.
  assert (2 ^ (l + 1) <= 2 ^ 30) by (apply Z.pow_le_mono_r; lia).
  assert (0 < 2 ^ (l + 1)) by (apply Z.pow_pos_nonneg; lia).
  rewrite dentry_group_cnt_eq by (unfold BUCKET_BLOCKS; lia).
  unfold BUCKET_BLOCKS. rewrite Z.div_mul by lia.
  rewrite Z.sub_add, (wrap_small 32 (2 ^ (l + 1))) by lia.
  rewrite count_order_pow by lia. apply wrap_small. lia.
Qed.

Lemma slots_ge len : 0 <= len -> get_dentry_slots len * 8 >= len.
Proof.
  intros. unfold get_dentry_slots, BITS_PER_BYTE, HMDFS_SLOT_LEN_BITS.
  rewrite Z.shiftr_div_pow2 by lia. change (2 ^ 3) with 8.
  pose proof (Z_div_mod_eq_full (len + 8 - 1) 8).
  pose proof (Z.mod_pos_bound (len + 8 - 1) 8). lia.
Qed.

Lemma slots_pos len : 0 < len -> 0 < get_dentry_slots len.
Proof. intros. pose proof (slots_ge len). lia. Qed.

Lemma slots_le len k : 0 <= len <= 8 * k -> 0 <= get_dentry_slots len <= k.
Proof.
  intros. unfold get_dentry_slots, BITS_PER_BYTE, HMDFS_SLOT_LEN_BITS.
  rewrite Z.shiftr_div_pow2 by lia. change (2 ^ 3) with 8.
  split; [apply Z.div_pos; lia|].
  enough ((len + 8 - 1) / 8 < k + 1) by lia.
  apply Z.div_lt_upper_bound; lia.
Qed.

(** Positions are unsigned shifts of the group and slot numbers. *)
Lemma set_pos_eq dev g o :
  0 <= dev < 2 ^ 16 -> 0 <= g < 2 ^ 39 -> 0 <= o < 256 ->
  u64 (hmdfs_set_pos dev g o)
  = (if dev =? 0 then 0 else 2 ^ 63) + dev * 2 ^ 47 + g * 256 + o.
Proof.
  intros Hd Hg Ho. unfold hmdfs_set_pos, POS_BIT_NUM, DEV_ID_BIT_NUM, OFFSET_BIT_NUM.
  rewrite !Z.shiftl_mul_pow2 by lia.
  change (64 - 1 - 16) with 47. change (64 - 1) with 63.
  rewrite (swrap_small 64 (dev * 2 ^ 47)), (swrap_small 64 (g * 2 ^ 8)) by lia.
  rewrite (swrap_small 64 (dev * 2 ^ 47 + g * 2 ^ 8 + o)) by lia.
  destruct (dev =? 0) eqn:E; zb; [apply wrap_small; lia|].
  set (x := dev * 2 ^ 47 + g * 2 ^ 8 + o).
  assert (0 <= x < 2 ^ 63) as Hx by (unfold x; lia).
  assert (Z.lor x (1 * 2 ^ 63) = x + 2 ^ 63) as ->.
  { rewrite Z.mul_1_l. symmetry. rewrite Z.add_nocarry_lxor, Z.lxor_lor; [done| |].
    all: apply Z.bits_inj'; intros n Hn; rewrite Z.land_spec, Z.bits_0.
    all: rewrite Z.pow2_bits_eqb by lia; destruct (63 =? n) eqn:F; zb;
      [subst n|apply andb_false_r].
    all: rewrite andb_true_r; rewrite <- (Z.mod_small x (2 ^ 63)) by lia;
      apply Z.mod_pow2_bits_high; lia. }
  unfold swrap, wrap. rewrite (Z.mod_small (x + 2 ^ 63)) by lia.
  destruct (x + 2 ^ 63 <? 2 ^ (64 - 1)) eqn:F; zb; [lia|].
  replace (x + 2 ^ 63 - 2 ^ 64) with (x + 2 ^ 63 + (-1) * 2 ^ 64) by lia.
  rewrite Z.mod_add, Z.mod_small by lia. unfold x. lia.
Qed.

(** A bucket of an existing level lies inside a file sized for level [l]; a
    bucket of a deeper level does not. *)
Lemma bucket_inside l level h :
  0 <= level <= l -> l <= 29 ->
  get_bucketaddr level (h mod get_bucket_by_level level) * BUCKET_BLOCKS + BUCKET_BLOCKS
  <= (2 ^ (l + 1) - 1) * BUCKET_BLOCKS.
Proof.
  intros H Hl. rewrite bucket_by_level_pow by lia.
  assert (0 < 2 ^ level) by (apply Z.pow_pos_nonneg; lia).
  pose proof (Z.mod_pos_bound h (2 ^ level)).
  rewrite bucketaddr_eq by lia.
  assert (2 ^ (level + 1) <= 2 ^ (l + 1)) by (apply Z.pow_le_mono_r; lia).
  rewrite (Z.pow_add_r 2 level) in * by lia. unfold BUCKET_BLOCKS. lia.
Qed.

Lemma bucket_outside l level h :
  0 <= l < level -> level < 63 ->
  (2 ^ (l + 1) - 1) * BUCKET_BLOCKS
  < get_bucketaddr level (h mod get_bucket_by_level level) * BUCKET_BLOCKS + BUCKET_BLOCKS.
Proof.
  intros H Hl. rewrite bucket_by_level_pow by lia.
  assert (0 < 2 ^ level) by (apply Z.pow_pos_nonneg; lia).
  pose proof (Z.mod_pos_bound h (2 ^ level)).
  rewrite bucketaddr_eq by lia.
  assert (2 ^ (l + 1) <= 2 ^ level) by (apply Z.pow_le_mono_r; lia).
  unfold BUCKET_BLOCKS. lia.
Qed.

(** * Properties *)

(** The numbering of buckets is a bijection between the pairs (level, bucket of
    that level) and the naturals: no two buckets of a file share a block pair,
    and no block pair is left out. *)
Theorem bucketaddr_bijective n :
  0 <= n < 2 ^ 62 ->
  exists level off,
    (0 <= level < 63 /\ 0 <= off < get_bucket_by_level level /\
     get_bucketaddr level off = n) /\
    forall level' off',
      0 <= level' < 63 -> 0 <= off' < get_bucket_by_level level' ->
      get_bucketaddr level' off' = n -> level' = level /\ off' = off.
Proof.
  intros Hn.
  assert (0 <= Z.log2 (n + 1) < 63) as Hl.
  { split; [apply Z.log2_nonneg|].
    apply Z.log2_lt_pow2; lia. }
  pose proof (Z.log2_spec (n + 1)) as Hs.
  exists (Z.log2 (n + 1)), (n + 1 - 2 ^ Z.log2 (n + 1)).
  rewrite bucket_by_level_pow by lia. rewrite <- Z.add_1_r, Z.pow_add_r in Hs by lia.
  split; [split; [lia|split; [lia|rewrite bucketaddr_eq by lia; lia]]|].
  intros l o Hl' Ho He. rewrite bucket_by_level_pow in Ho by lia.
  rewrite bucketaddr_eq in He by lia.
  assert (Z.log2 (n + 1) = l) as El.
  { apply Z.log2_unique; [lia|]. rewrite <- Z.add_1_r, Z.pow_add_r by lia. lia. }
  subst l. lia.
Qed.

Lemma bucketaddr_bijective_witness :
  0 <= 4 < 2 ^ 62 /\ exists level off,
    (0 <= level < 63 /\ 0 <= off < get_bucket_by_level level /\
     get_bucketaddr level off = 4) /\
    forall level' off',
      0 <= level' < 63 -> 0 <= off' < get_bucket_by_level level' ->
      get_bucketaddr level' off' = 4 -> level' = level /\ off' = off.
Proof. split; [lia|]. apply bucketaddr_bijective. lia. Defined.

(** The file sizes get_dcache_file_size computes do not overflow a loff_t up to
    level 49 and are exactly the sizes get_max_depth inverts (up to the 29 levels
    whose group count fits an unsigned int); at level 50 the product overflows
    and the size the code passes to truncate is negative. *)
Theorem dcache_file_size_bounds l :
  0 <= l ->
  (l <= 49 -> 0 < get_dcache_file_size l < 2 ^ 63) /\
  (l <= 29 -> get_max_depth (get_dcache_file_size l) = l + 1 /\
              get_dentry_group_cnt (get_dcache_file_size l)
              = get_overall_bucket l * BUCKET_BLOCKS) /\
  (l = 50 -> get_dcache_file_size l < 0).
Proof.
  intros Hl. split; [|split].
  - intros H. rewrite dcache_file_size_eq by lia.
    assert (2 ^ (l + 1) <= 2 ^ 50) by (apply Z.pow_le_mono_r; lia).
    assert (0 < 2 ^ (l + 1)) by (apply Z.pow_pos_nonneg; lia).
    unfold BUCKET_BLOCKS, DENTRYGROUP_SIZE, DENTRYGROUP_HEADER. lia.
  - intros H. split; [apply max_depth_full; lia|].
    assert (2 ^ (l + 1) <= 2 ^ 30) by (apply Z.pow_le_mono_r; lia).
    assert (0 < 2 ^ (l + 1)) by (apply Z.pow_pos_nonneg; lia).
    rewrite dcache_file_size_eq, overall_bucket_eq by lia.
    apply dentry_group_cnt_eq. unfold BUCKET_BLOCKS. lia.
  - intros ->. vm_compute. reflexivity.
Qed.

Lemma dcache_file_size_bounds_witness :
  0 <= 3 /\
  (3 <= 49 -> 0 < get_dcache_file_size 3 < 2 ^ 63) /\
  (3 <= 29 -> get_max_depth (get_dcache_file_size 3) = 3 + 1 /\
              get_dentry_group_cnt (get_dcache_file_size 3)
              = get_overall_bucket 3 * BUCKET_BLOCKS) /\
  (3 = 50 -> get_dcache_file_size 3 < 0).
Proof. split; [lia|]. apply dcache_file_size_bounds. lia. Defined.

Lemma set_pos_decode dev g o :
  0 <= dev < 2 ^ 16 -> 0 <= g < 2 ^ 39 -> 0 <= o < 256 ->
  pos_group_id (hmdfs_set_pos dev g o) = g /\ pos_offset (hmdfs_set_pos dev g o) = o.
Proof.
  intros Hd Hg Ho. unfold pos_group_id, pos_offset.
  rewrite !set_pos_eq by lia. split.
  - unfold DEV_ID_BIT_NUM, POS_BIT_NUM, GROUP_ID_BIT_NUM.
    rewrite Z.shiftl_mul_pow2, Z.shiftr_div_pow2 by lia.
    set (s := if dev =? 0 then 0 else 2 ^ 63).
    assert (exists k, s = k * 2 ^ 63) as [k Hk].
    { unfold s. destruct (dev =? 0); [exists 0|exists 1]; lia. }
    replace (u64 _) with ((g * 256 + o) * 2 ^ (1 + 16)).
    + change (64 - 39) with 25. change (1 + 16) with 17.
      replace ((g * 256 + o) * 2 ^ 17) with (g * 2 ^ 25 + o * 2 ^ 17) by lia.
      rewrite Z.div_add_l, Z.div_small; lia.
    + unfold wrap. rewrite Hk.
      replace ((k * 2 ^ 63 + dev * 2 ^ 47 + g * 256 + o) * 2 ^ (1 + 16))
        with ((g * 256 + o) * 2 ^ (1 + 16) + (k * 2 ^ 16 + dev) * 2 ^ 64) by lia.
      rewrite Z.mod_add, Z.mod_small; lia.
  - unfold OFFSET_BIT_MASK. change 255 with (Z.ones 8).
    rewrite Z.land_ones by lia.
    destruct (dev =? 0).
    + replace (0 + dev * 2 ^ 47 + g * 256 + o)
        with (o + (dev * 2 ^ 39 + g) * 2 ^ 8) by lia.
      rewrite Z.mod_add, Z.mod_small; lia.
    + replace (2 ^ 63 + dev * 2 ^ 47 + g * 256 + o)
        with (o + (2 ^ 55 + dev * 2 ^ 39 + g) * 2 ^ 8) by lia.
      rewrite Z.mod_add, Z.mod_small; lia.
Qed.

(** A readdir position determines the group and the slot it was made from, for
    every device id, and on one device positions grow with (group, slot): a
    listing resumed at a returned position neither repeats nor skips a slot. *)
Theorem set_pos_roundtrip dev g o g' o' :
  0 <= dev < 2 ^ 16 -> 0 <= g < 2 ^ 39 -> 0 <= o < 256 ->
  0 <= g' < 2 ^ 39 -> 0 <= o' < 256 ->
  pos_group_id (hmdfs_set_pos dev g o) = g /\
  pos_offset (hmdfs_set_pos dev g o) = o /\
  (u64 (hmdfs_set_pos dev g o) < u64 (hmdfs_set_pos dev g' o') <->
   g < g' \/ (g = g' /\ o < o')).
Proof.
  intros Hd Hg Ho Hg' Ho'. destruct (set_pos_decode dev g o) as [E1 E2]; [done..|].
  split; [exact E1|]. split; [exact E2|]. rewrite !set_pos_eq by lia. lia.
Qed.

Lemma set_pos_roundtrip_witness :
  pos_group_id (hmdfs_set_pos 7 5 79) = 5 /\
  pos_offset (hmdfs_set_pos 7 5 79) = 79 /\
  (u64 (hmdfs_set_pos 7 5 79) < u64 (hmdfs_set_pos 7 6 0) <->
   5 < 6 \/ (5 = 6 /\ 79 < 0)).
Proof. apply set_pos_roundtrip; lia. Defined.
