(* ===== verification/DentryHash.v ===== *)
(** The name hash of the dentry cache (hmdfs_dentryfile.c: is_dot_dotdot,
    str2hashbuf, tea_transform, hmdfs_dentry_hash), on 32-bit words. *)
From S2P Require Import Prelude.

Definition DELTA := 0x9E3779B9.
Definition HMDFS_HASH_COL_BIT := Z.shiftl 1 63.

Definition is_dot_dotdot (name : bytes) (len : nat) : bool :=
  match len, name with
  | 1%nat, c0 :: _ => c0 =? 46
  | 2%nat, c0 :: c1 :: _ => (c0 =? 46) && (c1 =? 46)
  | _, _ => false
  end.

(** The loop state of str2hashbuf: the words written through [*buf++], the word
    being built and the number of words still to write. *)
Record hashbuf := Hashbuf { hb_buf : list Z; hb_val : Z; hb_num : Z }.

(** One iteration of the [for] loop, for byte [c] at index [i]. *)
Definition hb_step (case_sense : bool) (pad i c : Z) (st : hashbuf) : hashbuf :=
  let val := if i mod 4 =? 0 then pad else hb_val st in
  let c := if case_sense then c else tolower c in
  let val := u32 (c + u32 (Z.shiftl val 8)) in
  if i mod 4 =? 3 then Hashbuf (hb_buf st ++ [val]) pad (hb_num st - 1)
  else Hashbuf (hb_buf st) val (hb_num st).

Fixpoint hb_loop (case_sense : bool) (pad i : Z) (msg : bytes) (st : hashbuf) : hashbuf :=
  match msg with
  | [] => st
  | c :: msg => hb_loop case_sense pad (i + 1) msg (hb_step case_sense pad i c st)
  end.

Definition hb_pad (len : Z) : Z :=
  let pad := u32 (Z.lor (u32 len) (u32 (Z.shiftl (u32 len) 8))) in
  Z.lor pad (u32 (Z.shiftl pad 16)).

(** [msg] holds the [len] remaining bytes of the name. *)
Definition str2hashbuf (msg : bytes) (len : nat) (num : Z) (case_sense : bool) : list Z :=
  let pad := hb_pad (Z.of_nat len) in
  let len := Nat.min len (Z.to_nat (num * 4)) in
  let st := hb_loop case_sense pad 0 (take len msg) (Hashbuf [] pad num) in
  let num := hb_num st - 1 in
  let '(buf, num) := if 0 <=? num then (hb_buf st ++ [hb_val st], num)
                     else (hb_buf st, num) in
  buf ++ replicate (Z.to_nat num) pad.

(** One round of the TEA mixing; [sum] has been advanced by DELTA. *)
Definition tea_round (a b c d sum b0 b1 : Z) : Z * Z :=
  let b0 := u32 (b0 + Z.lxor (Z.lxor (u32 (u32 (Z.shiftl b1 4) + a)) (u32 (b1 + sum)))
                             (u32 (Z.shiftr b1 5 + b))) in
  let b1 := u32 (b1 + Z.lxor (Z.lxor (u32 (u32 (Z.shiftl b0 4) + c)) (u32 (b0 + sum)))
                             (u32 (Z.shiftr b0 5 + d))) in
  (b0, b1).

Fixpoint tea_loop (n : nat) (a b c d sum b0 b1 : Z) : Z * Z :=
  match n with
  | O => (b0, b1)
  | S n =>
      let sum := u32 (sum + DELTA) in
      let '(b0, b1) := tea_round a b c d sum b0 b1 in
      tea_loop n a b c d sum b0 b1
  end.

(** [buf] is the pair buf[0], buf[1]: buf[2] and buf[3] are never touched. *)
Definition tea_transform (buf : Z * Z) (inp : list Z) : Z * Z :=
  let '(b0, b1) := buf in
  let w i := nth i inp 0 in
  let '(t0, t1) := tea_loop 16 (w 0%nat) (w 1%nat) (w 2%nat) (w 3%nat) 0 b0 b1 in
  (u32 (b0 + t0), u32 (b1 + t1)).

(** The [while (1)] loop: 16 bytes per turn; [fuel] counts turns. *)
Fixpoint hash_loop (fuel : nat) (case_sense : bool) (p : bytes) (len : nat)
    (buf : Z * Z) : option (Z * Z) :=
  match fuel with
  | O => None
  | S fuel =>
      let buf := tea_transform buf (str2hashbuf p len 4 case_sense) in
      if (len <=? 16)%nat then Some buf
      else hash_loop fuel case_sense (drop 16 p) (len - 16) buf
  end.

Definition hash_fuel (len : nat) : nat := S (len / 16).

Definition hmdfs_dentry_hash (name : bytes) (case_sense : bool) : Z :=
  let len := length name in
  if is_dot_dotdot name len then 0
  else
    match hash_loop (hash_fuel len) case_sense name len (0x67452301, 0xefcdab89) with
    | Some (hash, _) => u32 (Z.land hash (Z.lnot HMDFS_HASH_COL_BIT))
    | None => 0
    end.

(** * Lemmas *)

(** The fuel chosen is enough: the loop leaves by its [break]. *)
Lemma hash_loop_enough fuel cs p len buf :
  (len < 16 * fuel)%nat -> (0 < fuel)%nat -> is_Some (hash_loop fuel cs p len buf).
Proof.
  revert p len buf; induction fuel as [|fuel IH]; intros p len buf Hl Hf; [lia|].
  cbn [hash_loop]. destruct (len <=? 16)%nat eqn:E; [eauto|].
  apply Nat.leb_gt in E. apply IH; lia.
Qed.

Lemma hash_fuel_enough len : (len < 16 * hash_fuel len)%nat.
Proof.
  unfold hash_fuel. pose proof (Nat.div_mod_eq len 16).
  pose proof (Nat.mod_upper_bound len 16). lia.
Qed.

Lemma hb_loop_app cs pad i m1 m2 st :
  hb_loop cs pad i (m1 ++ m2) st
  = hb_loop cs pad (i + Z.of_nat (length m1)) m2 (hb_loop cs pad i m1 st).
Proof.
  revert i st; induction m1 as [|c m1 IH]; intros i st; simpl.
  - f_equal; lia.
  - rewrite IH. f_equal. lia.
Qed.

(** Words written and words left always add up to the initial count. *)
Lemma hb_loop_count cs pad i msg st :
  let st' := hb_loop cs pad i msg st in
  Z.of_nat (length (hb_buf st')) + hb_num st'
  = Z.of_nat (length (hb_buf st)) + hb_num st.
Proof.
  revert i st; induction msg as [|c msg IH]; intros i st; simpl; [done|].
  rewrite IH. unfold hb_step. destruct (i mod 4 =? 3); simpl; [|done].
  rewrite length_app. simpl. lia.
Qed.

(** One word is written for every fourth byte. *)
Lemma hb_loop_num cs pad i msg st :
  0 <= i ->
  hb_num (hb_loop cs pad i msg st)
  = hb_num st - ((i + Z.of_nat (length msg)) / 4 - i / 4).
Proof.
  revert i st; induction msg as [|c msg IH]; intros i st Hi; simpl.
  - replace (i + Z.of_nat 0) with i by lia. lia.
  - rewrite IH by lia. unfold hb_step.
    replace (i + Z.of_nat (S (length msg))) with (i + 1 + Z.of_nat (length msg)) by lia.
    pose proof (Z_div_mod_eq_full i 4). pose proof (Z.mod_pos_bound i 4).
    destruct (i mod 4 =? 3) eqn:E; zb; simpl.
    + replace ((i + 1) / 4) with (i / 4 + 1); [lia|].
      apply Z.div_unique with 0; lia.
    + replace ((i + 1) / 4) with (i / 4); [lia|].
      apply Z.div_unique with (i mod 4 + 1); lia.
Qed.

Lemma hb_loop_words cs pad i msg st :
  0 <= pad < 2 ^ 32 -> 0 <= hb_val st < 2 ^ 32 ->
  Forall (fun w => 0 <= w < 2 ^ 32) (hb_buf st) ->
  let st' := hb_loop cs pad i msg st in
  0 <= hb_val st' < 2 ^ 32 /\ Forall (fun w => 0 <= w < 2 ^ 32) (hb_buf st').
Proof.
  intros Hp. revert i st; induction msg as [|c msg IH]; intros i st Hv Hb; simpl; [done|].
  apply IH; unfold hb_step; destruct (i mod 4 =? 3); simpl;
    try done; try (apply wrap_range; lia).
  apply Forall_app; split; [done|]. constructor; [|done]. apply wrap_range; lia.
Qed.

Lemma hb_pad_range len : 0 <= hb_pad len < 2 ^ 32.
Proof.
  unfold hb_pad. set (a := u32 _). set (b := u32 _).
  assert (0 <= a < 2 ^ 32) by (apply wrap_range; lia).
  assert (0 <= b < 2 ^ 32) by (apply wrap_range; lia).
  split; [apply Z.lor_nonneg; lia|].
  destruct (decide (Z.lor a b = 0)) as [->|]; [lia|].
  apply Z.log2_lt_pow2; [pose proof (proj2 (Z.lor_nonneg a b)); lia|].
  rewrite Z.log2_lor by lia. apply Z.max_lub_lt.
  - destruct (decide (a = 0)) as [->|]; [done|]. apply Z.log2_lt_pow2; lia.
  - destruct (decide (b = 0)) as [->|]; [done|]. apply Z.log2_lt_pow2; lia.
Qed.

Lemma tea_transform_range buf inp :
  0 <= (tea_transform buf inp).1 < 2 ^ 32 /\ 0 <= (tea_transform buf inp).2 < 2 ^ 32.
Proof.
  unfold tea_transform. destruct buf as [b0 b1].
  destruct (tea_loop _ _ _ _ _ _ _ _) as [t0 t1]. simpl.
  split; apply wrap_range; lia.
Qed.

(** Folding the case of the input before an insensitive hash changes nothing. *)
Lemma hb_loop_ci pad i m1 m2 st :
  map tolower m1 = map tolower m2 ->
  hb_loop false pad i m1 st = hb_loop false pad i m2 st.
Proof.
  revert i m2 st; induction m1 as [|c m1 IH]; intros i [|d m2] st; simpl;
    intros H; try done.
  injection H as Hc Hm. unfold hb_step. rewrite Hc. by apply IH.
Qed.

Lemma str2hashbuf_ci m1 m2 len num :
  map tolower m1 = map tolower m2 ->
  str2hashbuf m1 len num false = str2hashbuf m2 len num false.
Proof.
  intros H. unfold str2hashbuf.
  rewrite (hb_loop_ci _ _ (take _ m1) (take (Nat.min len (Z.to_nat (num * 4))) m2));
    [done|]. by rewrite <- !firstn_map, H.
Qed.

Lemma hash_loop_ci fuel m1 m2 len buf :
  map tolower m1 = map tolower m2 ->
  hash_loop fuel false m1 len buf = hash_loop fuel false m2 len buf.
Proof.
  revert m1 m2 len buf; induction fuel as [|fuel IH]; intros m1 m2 len buf H; [done|].
  cbn [hash_loop]. rewrite (str2hashbuf_ci m1 m2) by done.
  destruct (len <=? 16)%nat; [done|]. apply IH. by rewrite <- !skipn_map, H.
Qed.

Lemma is_dot_dotdot_ci m1 m2 len :
  map tolower m1 = map tolower m2 -> is_dot_dotdot m1 len = is_dot_dotdot m2 len.
Proof.
  intros H.
  destruct len as [|[|[|len]]]; simpl; try done;
    destruct m1 as [|c m1], m2 as [|d m2]; simpl in H; try done; injection H as H0 H.
  - rewrite <- (tolower_eq_low c), <- (tolower_eq_low d) by lia. by rewrite H0.
  - destruct m1 as [|c' m1], m2 as [|d' m2]; simpl in H; try done. injection H as H1 H.
    rewrite <- (tolower_eq_low c), <- (tolower_eq_low d) by lia.
    rewrite <- (tolower_eq_low c'), <- (tolower_eq_low d') by lia. by rewrite H0, H1.
Qed.

Lemma dentry_hash_ci n1 n2 :
  map tolower n1 = map tolower n2 ->
  hmdfs_dentry_hash n1 false = hmdfs_dentry_hash n2 false.
Proof.
  intros H. unfold hmdfs_dentry_hash.
  assert (length n1 = length n2) as ->.
  { by rewrite <- (length_map tolower n1), H, length_map. }
  by rewrite (is_dot_dotdot_ci n1 n2), (hash_loop_ci _ n1 n2) by done.
Qed.

Lemma dentry_hash_range name cs : 0 <= hmdfs_dentry_hash name cs < 2 ^ 32.
Proof.
  unfold hmdfs_dentry_hash. destruct (is_dot_dotdot _ _); [lia|].
  destruct (hash_loop _ _ _ _ _) as [[h ?]|]; [apply wrap_range; lia|lia].
Qed.

(** * Properties *)

(** str2hashbuf fills its buffer exactly: whatever the length of the name it
    writes [num] words, never one more, each a 32-bit value. *)
Theorem str2hashbuf_fills_buffer msg cs num :
  0 <= num ->
  let ws := str2hashbuf msg (length msg) num cs in
  Z.of_nat (length ws) = num /\ Forall (fun w => 0 <= w < 2 ^ 32) ws.
Proof.
  intros Hn ws. unfold ws, str2hashbuf. clear ws.
  set (pad := hb_pad _). pose proof (hb_pad_range (Z.of_nat (length msg))) as Hp.
  fold pad in Hp. set (m := take _ msg).
  assert (Z.of_nat (length m) <= num * 4) as Hm.
  { unfold m. rewrite length_take. lia. }
  pose proof (hb_loop_count cs pad 0 m (Hashbuf [] pad num)) as Hc.
  pose proof (hb_loop_num cs pad 0 m (Hashbuf [] pad num)) as Hnum.
  destruct (hb_loop_words cs pad 0 m (Hashbuf [] pad num)) as [Hv Hw]; [done..|].
  set (st := hb_loop _ _ _ _ _) in *. simpl in Hc, Hnum.
  assert (0 <= hb_num st) as H0.
  { rewrite Hnum by lia. change (0 / 4) with 0. rewrite Z.add_0_l.
    pose proof (Z.div_le_upper_bound (Z.of_nat (length m)) 4 num). lia. }
  destruct (0 <=? hb_num st - 1) eqn:E; zb.
  - rewrite !length_app, length_replicate. simpl. split; [lia|].
    rewrite !Forall_app. repeat split; auto. by apply Forall_replicate.
  - replace (Z.to_nat (hb_num st - 1)) with 0%nat by lia. simpl.
    rewrite app_nil_r. split; [lia|done].
Qed.

Lemma str2hashbuf_fills_buffer_witness :
  0 <= 4 /\ let ws := str2hashbuf [97; 98; 99; 100; 101] 5 4 true in
  Z.of_nat (length ws) = 4 /\ Forall (fun w => 0 <= w < 2 ^ 32) ws.
Proof.
  split; [lia|]. exact (str2hashbuf_fills_buffer [97; 98; 99; 100; 101] true 4 ltac:(lia)).
Defined.

(** The name hash is a total 32-bit function: its block loop ends for every name
    (it consumes 16 bytes a turn), "." and ".." hash to 0, and on a
    case-insensitive mount names equal up to case hash alike, so they share every
    bucket the lookup visits. *)
Theorem dentry_hash_correct name1 name2 cs :
  (forall buf, is_Some (hash_loop (hash_fuel (length name1)) cs name1 (length name1) buf)) /\
  0 <= hmdfs_dentry_hash name1 cs < 2 ^ 32 /\
  hmdfs_dentry_hash [46] cs = 0 /\ hmdfs_dentry_hash [46; 46] cs = 0 /\
  (case_eqb name1 name2 = true ->
   hmdfs_dentry_hash name1 false = hmdfs_dentry_hash name2 false).
Proof.
  split; [|split; [|split; [|split]]].
  - intros. apply hash_loop_enough; [apply hash_fuel_enough|unfold hash_fuel; lia].
  - apply dentry_hash_range.
  - done.
  - done.
  - intros H. apply dentry_hash_ci. by apply case_eqb_iff.
Qed.

#[export] Hint Resolve dentry_hash_range : hmdfs.
