(* ===== verification/DentryGroup.v ===== *)
(** One dentry group (hmdfs_dentryfile.h/.c): its packed 4096-byte layout, the
    slot allocator room_for_filename, the lookup find_in_block, update_dentry and
    the bitmap part of hmdfs_delete_dentry, with the well-formedness invariant
    "the set bits are exactly the slots of the entries" they all preserve. *)
From S2P Require Import Prelude DentryLayout.

(** * Data *)

(** Fields hold CPU-order values; [dentry_encode] writes them little-endian. *)
Record hmdfs_dentry := mk_dentry {
  de_hash : Z;
  de_i_mode : Z;
  de_namelen : Z;
  de_i_size : Z;
  de_i_mtime : Z;
  de_i_mtime_nsec : Z;
  de_i_ino : Z;
  de_i_flag : Z;
  de_reserved : bytes
}.

(** [dg_bitmap] is the ten bitmap bytes read as a little-endian integer;
    [dg_filename] is the 80 x 8 byte filename area, flat as in memory. *)
Record hmdfs_dentry_group := mk_group {
  dg_version : Z;
  dg_bitmap : Z;
  dg_nsl : list hmdfs_dentry;
  dg_filename : bytes;
  dg_reserved : bytes
}.

Definition zero_dentry : hmdfs_dentry := mk_dentry 0 0 0 0 0 0 0 0 [0; 0; 0].

(** What kzalloc, or a hole read back from the file, gives. *)
Definition zero_group : hmdfs_dentry_group :=
  mk_group 0 0 (replicate 80 zero_dentry) (replicate 640 0) (replicate 5 0).

(** The inode fields the dentry cache copies. *)
Record inode := mk_inode {
  i_ino : Z;
  i_generation : Z;
  i_mode : Z;
  i_size : Z;
  i_mtime_sec : Z;
  i_mtime_nsec : Z
}.

Definition S_IFMT := 61440.
Definition S_IFDIR := 16384.
Definition S_IFREG := 32768.
Definition S_IFLNK := 40960.
Definition S_ISDIR (mode : Z) : bool := Z.land mode S_IFMT =? S_IFDIR.
Definition S_ISREG (mode : Z) : bool := Z.land mode S_IFMT =? S_IFREG.
Definition S_ISLNK (mode : Z) : bool := Z.land mode S_IFMT =? S_IFLNK.

Inductive HMDFS_FILE_TYPE := HM_REG | HM_SYMLINK | HM_SHARE.
Definition hm_islnk (t : HMDFS_FILE_TYPE) : bool :=
  match t with HM_SYMLINK => true | _ => false end.

(** * Packed encoding *)

Definition dentry_encode (d : hmdfs_dentry) : bytes :=
  le_enc 4 (de_hash d) ++ le_enc 2 (de_i_mode d) ++ le_enc 2 (de_namelen d) ++
  le_enc 8 (de_i_size d) ++ le_enc 8 (de_i_mtime d) ++ le_enc 4 (de_i_mtime_nsec d) ++
  le_enc 8 (de_i_ino d) ++ le_enc 4 (de_i_flag d) ++ de_reserved d.

Definition dentry_decode (b : bytes) : hmdfs_dentry :=
  mk_dentry (le_dec (sub 0 4 b)) (le_dec (sub 4 2 b)) (le_dec (sub 6 2 b))
    (le_dec (sub 8 8 b)) (le_dec (sub 16 8 b)) (le_dec (sub 24 4 b))
    (le_dec (sub 28 8 b)) (le_dec (sub 36 4 b)) (sub 40 3 b).

Definition group_encode (g : hmdfs_dentry_group) : bytes :=
  [u8 (dg_version g)] ++ le_enc 10 (dg_bitmap g) ++
  concat (map dentry_encode (dg_nsl g)) ++ dg_filename g ++ dg_reserved g.

Fixpoint decode_nsl (n : nat) (b : bytes) : list hmdfs_dentry :=
  match n with
  | O => []
  | S n => dentry_decode (take 43 b) :: decode_nsl n (drop 43 b)
  end.

Definition group_decode (b : bytes) : hmdfs_dentry_group :=
  mk_group (le_dec (sub 0 1 b)) (le_dec (sub 1 10 b))
    (decode_nsl 80 (sub 11 3440 b)) (sub 3451 640 b) (sub 4091 5 b).

(** * Accessors *)

Definition nsl_at (g : hmdfs_dentry_group) (p : Z) : hmdfs_dentry :=
  nth (Z.to_nat p) (dg_nsl g) zero_dentry.

(** [filename[p]], [len] bytes onwards: a name longer than 8 bytes runs on into
    the following slots. *)
Definition name_at (g : hmdfs_dentry_group) (p len : Z) : bytes :=
  sub (8 * Z.to_nat p) (Z.to_nat len) (dg_filename g).

Definition set_nsl (g : hmdfs_dentry_group) (nsl : list hmdfs_dentry) :=
  mk_group (dg_version g) (dg_bitmap g) nsl (dg_filename g) (dg_reserved g).
Definition set_bitmap (g : hmdfs_dentry_group) (bm : Z) :=
  mk_group (dg_version g) bm (dg_nsl g) (dg_filename g) (dg_reserved g).

(** * room_for_filename *)

(** The [next:] loop; [None] only when the fuel runs out. *)
Fixpoint room_loop (fuel : nat) (bitmap slots max_slots bit_start : Z) : option Z :=
  match fuel with
  | O => None
  | S fuel =>
      let zero_start := find_next_zero_bit_le bitmap max_slots bit_start in
      if max_slots <=? zero_start then Some max_slots
      else
        let zero_end := find_next_bit_le bitmap max_slots zero_start in
        if slots <=? zero_end - zero_start then Some zero_start
        else
          let bit_start := zero_end + 1 in
          if max_slots <=? zero_end + 1 then Some max_slots
          else room_loop fuel bitmap slots max_slots bit_start
  end.

Definition room_for_filename (bitmap slots max_slots : Z) : Z :=
  match room_loop (S (Z.to_nat max_slots)) bitmap slots max_slots 0 with
  | Some r => r
  | None => max_slots
  end.

(** * find_in_block *)

(** The exact match: hash, length and bytes. *)
Definition match_exact (g : hmdfs_dentry_group) (namehash : Z) (name : bytes) (p : Z) : bool :=
  let de := nsl_at g p in
  (de_hash de =? namehash) && (de_namelen de =? Z.of_nat (length name)) &&
  beqb name (name_at g p (de_namelen de)).

(** The same with str_n_case_eq. *)
Definition match_ci (g : hmdfs_dentry_group) (namehash : Z) (name : bytes) (p : Z) : bool :=
  let de := nsl_at g p in
  (de_hash de =? namehash) && (de_namelen de =? Z.of_nat (length name)) &&
  case_eqb name (name_at g p (de_namelen de)).

(** The scan of a block: the slot of the exact match, and the updated
    [*insense_de], both as slot numbers of this block. *)
Fixpoint find_in_block_loop (fuel : nat) (g : hmdfs_dentry_group) (namehash : Z)
    (name : bytes) (insense_de : option Z) (case_sense : bool) (bit_pos : Z)
    : option Z * option Z :=
  match fuel with
  | O => (None, insense_de)
  | S fuel =>
      if DENTRY_PER_GROUP <=? bit_pos then (None, insense_de)
      else if negb (test_bit_le bit_pos (dg_bitmap g)) then
        find_in_block_loop fuel g namehash name insense_de case_sense (bit_pos + 1)
      else
        let de := nsl_at g bit_pos in
        if de_namelen de =? 0 then
          find_in_block_loop fuel g namehash name insense_de case_sense (bit_pos + 1)
        else if match_exact g namehash name bit_pos then (Some bit_pos, insense_de)
        else
          let insense_de :=
            match insense_de with
            | None => if negb case_sense && match_ci g namehash name bit_pos
                      then Some bit_pos else None
            | Some _ => insense_de
            end in
          find_in_block_loop fuel g namehash name insense_de case_sense
            (bit_pos + get_dentry_slots (de_namelen de))
  end.

Definition find_in_block (g : hmdfs_dentry_group) (namehash : Z) (name : bytes)
    (insense_de : option Z) (case_sense : bool) : option Z * option Z :=
  find_in_block_loop 81 g namehash name insense_de case_sense 0.

(** * update_dentry *)

(** [(de + i)->namelen = 0] for the continuation slots. *)
Fixpoint clear_namelen (p : Z) (n : nat) (nsl : list hmdfs_dentry) : list hmdfs_dentry :=
  match n with
  | O => nsl
  | S n =>
      let de := nth (Z.to_nat p) nsl zero_dentry in
      clear_namelen (p + 1) n
        (<[Z.to_nat p := mk_dentry (de_hash de) (de_i_mode de) 0 (de_i_size de)
             (de_i_mtime de) (de_i_mtime_nsec de) (de_i_ino de) (de_i_flag de)
             (de_reserved de)]> nsl)
  end.

(** The slot written by update_dentry.  [gdi] is the hmdfs dentry's file type when
    the child belongs to the hmdfs super block and [None] otherwise; [child] is
    d_inode(child_dentry); the reserved bytes stay as they were. *)
Definition dentry_of (name : bytes) (child inode : inode)
    (gdi : option HMDFS_FILE_TYPE) (name_hash : Z) (reserved : bytes) : hmdfs_dentry :=
  let child_link := match gdi with None => S_ISLNK (i_mode child) | Some _ => false end in
  let '(ino, igen) := if child_link then (i_ino child, i_generation child)
                      else (i_ino inode, i_generation inode) in
  let mode := match gdi with
              | Some t => if hm_islnk t then S_IFLNK else u16 (i_mode inode)
              | None => if S_ISLNK (i_mode child) then u16 (i_mode child)
                        else u16 (i_mode inode)
              end in
  mk_dentry (u32 name_hash) mode (u16 (Z.of_nat (length name)))
    (u64 (i_size inode)) (u64 (i_mtime_sec inode)) (u32 (i_mtime_nsec inode))
    (u64 (generate_u64_ino ino igen)) 0 reserved.

Definition update_dentry (d : hmdfs_dentry_group) (name : bytes) (child inode : inode)
    (gdi : option HMDFS_FILE_TYPE) (name_hash bit_pos : Z) : hmdfs_dentry_group :=
  let slots := get_dentry_slots (Z.of_nat (length name)) in
  let de := dentry_of name child inode gdi name_hash (de_reserved (nsl_at d bit_pos)) in
  mk_group (dg_version d)
    (set_bits bit_pos (Z.to_nat slots) (dg_bitmap d))
    (clear_namelen (bit_pos + 1) (Z.to_nat (slots - 1))
       (<[Z.to_nat bit_pos := de]> (dg_nsl d)))
    (memcpy_at (8 * Z.to_nat bit_pos) name (dg_filename d))
    (dg_reserved d).

(** The bitmap loop of hmdfs_delete_dentry. *)
Definition delete_slots (d : hmdfs_dentry_group) (bit_pos : Z) : hmdfs_dentry_group :=
  let slots := get_dentry_slots (de_namelen (nsl_at d bit_pos)) in
  set_bitmap d (clear_bits bit_pos (Z.to_nat slots) (dg_bitmap d)).

(** * The layout invariant *)

(** [lay bm len p l]: from slot [p] upwards the bitmap is free slots and entries;
    [l] lists the entries' first slots in increasing order.  An entry at [q] has
    length [len q > 0], its [get_dentry_slots (len q)] bits are set, and the length
    fields of its continuation slots are 0, so that a listing skips them. *)
Inductive lay (bm : Z) (len : Z -> Z) : Z -> list Z -> Prop :=
| lay_end : lay bm len DENTRY_PER_GROUP []
| lay_free p l :
    0 <= p < DENTRY_PER_GROUP -> Z.testbit bm p = false ->
    lay bm len (p + 1) l -> lay bm len p l
| lay_entry p l :
    0 <= p -> 0 < len p ->
    p + get_dentry_slots (len p) <= DENTRY_PER_GROUP ->
    (forall i, p <= i < p + get_dentry_slots (len p) -> Z.testbit bm i = true) ->
    (forall i, p < i < p + get_dentry_slots (len p) -> len i = 0) ->
    lay bm len (p + get_dentry_slots (len p)) l -> lay bm len p (p :: l).

Definition glen (g : hmdfs_dentry_group) (p : Z) : Z := de_namelen (nsl_at g p).

Record wf_group (g : hmdfs_dentry_group) (l : list Z) : Prop := {
  wfg_nsl : length (dg_nsl g) = 80%nat;
  wfg_filename : length (dg_filename g) = 640%nat;
  wfg_lay : lay (dg_bitmap g) (glen g) 0 l
}.

Section lay.
Implicit Types (bm : Z) (len : Z -> Z) (l : list Z).

Lemma lay_bounds bm len p l : lay bm len p l -> 0 <= p <= DENTRY_PER_GROUP.
Proof.
  unfold DENTRY_PER_GROUP. induction 1; unfold DENTRY_PER_GROUP in *; try lia.
  pose proof (slots_pos (len p)). lia.
Qed.

Lemma lay_elem bm len p l x :
  lay bm len p l -> x ∈ l ->
  p <= x /\ 0 < len x /\ x + get_dentry_slots (len x) <= DENTRY_PER_GROUP /\
  (forall i, x <= i < x + get_dentry_slots (len x) -> Z.testbit bm i = true).
Proof.
  induction 1; intros Hx.
  - by apply elem_of_nil in Hx.
  - destruct IHlay as (?&?&?&?); [done|]. repeat split; try done. lia.
  - apply elem_of_cons in Hx as [->|Hx]; [repeat split; try done; lia|].
    destruct IHlay as (?&?&?&?); [done|]. repeat split; try done.
    pose proof (slots_pos (len p)). lia.
Qed.

Lemma lay_sorted bm len p l x l1 l2 :
  lay bm len p l -> l = l1 ++ x :: l2 ->
  (forall y, y ∈ l1 -> y + get_dentry_slots (len y) <= x) /\
  (forall y, y ∈ l2 -> x + get_dentry_slots (len x) <= y).
Proof.
  intros H. revert l1; induction H; intros l1 He.
  - by destruct l1.
  - auto.
  - destruct l1 as [|z l1]; simplify_eq/=.
    + split; [intros y Hy; by apply elem_of_nil in Hy|].
      intros y Hy. by destruct (lay_elem _ _ _ _ _ H4 Hy).
    + destruct (IHlay l1) as [HA HB]; [done|]. split; [|done].
      intros y [->|Hy]%elem_of_cons; [|auto].
      destruct (lay_elem _ _ _ _ x H4) as (?&_); [set_solver|lia].
Qed.

(** Only the part at and above [p] matters. *)
Lemma lay_frame bm bm' len len' p l :
  lay bm len p l ->
  (forall i, p <= i < DENTRY_PER_GROUP -> Z.testbit bm' i = Z.testbit bm i) ->
  (forall i, p <= i < DENTRY_PER_GROUP -> len' i = len i) ->
  lay bm' len' p l.
Proof.
  induction 1 as [|p l Hp Hb Hl IH|p l Hp Hlen Hs Hb Hc Hl IH]; intros HB HL.
  - constructor.
  - constructor; [done|rewrite HB by lia; done|].
    apply IH; intros; [apply HB|apply HL]; lia.
  - pose proof (slots_pos (len p)).
    assert (len' p = len p) as E by (apply HL; lia).
    apply lay_entry; rewrite ?E; try done.
    + intros i Hi. rewrite HB by lia. by apply Hb.
    + intros i Hi. rewrite HL by lia. by apply Hc.
    + apply IH; intros; [apply HB|apply HL]; lia.
Qed.

Lemma lay_free_run bm len p n l :
  0 <= p -> p + Z.of_nat n <= DENTRY_PER_GROUP ->
  (forall i, p <= i < p + Z.of_nat n -> Z.testbit bm i = false) ->
  lay bm len (p + Z.of_nat n) l -> lay bm len p l.
Proof.
  revert p; induction n as [|n IH]; intros p Hp Hn Hb Hl.
  - by rewrite Z.add_0_r in Hl.
  - apply lay_free; [lia|apply Hb; lia|]. apply IH; [lia..| |].
    + intros i Hi; apply Hb; lia.
    + by replace (p + 1 + Z.of_nat n) with (p + Z.of_nat (S n)) by lia.
Qed.

Lemma lay_skip_run bm len p n l :
  lay bm len p l -> p + Z.of_nat n <= DENTRY_PER_GROUP ->
  (forall i, p <= i < p + Z.of_nat n -> Z.testbit bm i = false) ->
  lay bm len (p + Z.of_nat n) l.
Proof.
  revert p; induction n as [|n IH]; intros p Hl Hn Hb; [by rewrite Z.add_0_r|].
  replace (p + Z.of_nat (S n)) with (p + 1 + Z.of_nat n) by lia.
  apply IH; [|lia|intros; apply Hb; lia].
  inversion Hl as [|? ? ? ? ?|? ? ? ? ? Hbit ?]; subst; [lia|done|].
  pose proof (slots_pos (len p)).
  specialize (Hbit p ltac:(lia)). by rewrite Hb in Hbit by lia.
Qed.

(** Claiming a free run of exactly the slots a name needs adds one entry and
    keeps the order of the others. *)
Lemma lay_insert bm len bm' len' p l q :
  lay bm len p l -> p <= q -> 0 < len' q ->
  let s := get_dentry_slots (len' q) in
  q + s <= DENTRY_PER_GROUP ->
  (forall i, q <= i < q + s -> Z.testbit bm i = false) ->
  (forall i, 0 <= i -> Z.testbit bm' i = ((q <=? i) && (i <? q + s)) || Z.testbit bm i) ->
  (forall i, 0 <= i -> i < q \/ q + s <= i -> len' i = len i) ->
  (forall i, q < i < q + s -> len' i = 0) ->
  exists l1 l2, l = l1 ++ l2 /\ lay bm' len' p (l1 ++ q :: l2).
Proof.
  intros Hl Hpq Hlen s Hs Hfree Hbm Hlen' Hcont. pose proof (slots_pos (len' q)) as Hsp.
  fold s in Hsp. revert Hpq.
  assert (forall i, i < q \/ q + s <= i -> 0 <= i -> Z.testbit bm' i = Z.testbit bm i)
    as Hout.
  { intros i Hi H0. rewrite Hbm by lia.
    destruct (q <=? i) eqn:E1, (i <? q + s) eqn:E2; zb; simpl; try done; lia. }
  induction Hl as [|p l Hp Hb Hl IH|p l Hp Hlp Hps Hb Hc Hl IH]; intros Hpq; [lia| |].
  - destruct (decide (p = q)) as [->|].
    + exists [], l. split; [done|]. simpl. apply lay_entry; fold s; [lia|done|done| |done|].
      * intros i Hi. rewrite Hbm by lia.
        destruct (q <=? i) eqn:E1, (i <? q + s) eqn:E2; zb; simpl; try done; lia.
      * apply (lay_frame bm bm' len).
        -- replace s with (Z.of_nat (Z.to_nat s)) by lia.
           apply lay_skip_run; [by apply lay_free|lia|].
           intros i Hi; apply Hfree; lia.
        -- intros i Hi. apply Hout; lia.
        -- intros i Hi. apply Hlen'; lia.
    + destruct IH as (l1&l2&->&H1); [lia|]. exists l1, l2. split; [done|].
      apply lay_free; [done|rewrite Hout by lia; done|done].
  - pose proof (slots_pos (len p)) as Hpp.
    assert (q >= p + get_dentry_slots (len p)) as Hge.
    { destruct (decide (q < p + get_dentry_slots (len p))); [|lia].
      specialize (Hfree q). rewrite Hb in Hfree by lia. by specialize (Hfree ltac:(lia)). }
    destruct IH as (l1&l2&->&H1); [lia|]. exists (p :: l1), l2. split; [done|].
    assert (len' p = len p) as E by (apply Hlen'; lia).
    simpl. apply lay_entry; rewrite ?E; try done.
    + intros i Hi. rewrite Hout by lia. by apply Hb.
    + intros i Hi. rewrite Hlen' by lia. by apply Hc.
Qed.

(** Clearing the slots of one entry removes exactly it. *)
Lemma lay_delete bm len bm' p l1 q l2 :
  lay bm len p (l1 ++ q :: l2) ->
  let s := get_dentry_slots (len q) in
  (forall i, 0 <= i ->
     Z.testbit bm' i = negb ((q <=? i) && (i <? q + s)) && Z.testbit bm i) ->
  lay bm' len p (l1 ++ l2).
Proof.
  intros Hl s Hbm. remember (l1 ++ q :: l2) as l eqn:El.
  revert l1 El. induction Hl as [|p l Hp Hb Hl IH|p l Hp Hlp Hps Hb Hc Hl IH]; intros l1 El.
  - by destruct l1.
  - apply lay_free; [done| |by apply IH].
    rewrite Hbm, Hb by lia. apply andb_false_r.
  - pose proof (slots_pos (len p)) as Hpp.
    destruct l1 as [|z l1]; simplify_eq/=.
    + fold s in Hpp, Hps, Hb, Hl.
      replace s with (Z.of_nat (Z.to_nat s)) in * by lia.
      apply (lay_free_run _ _ _ (Z.to_nat s)); [lia|lia| |].
      * intros i Hi. rewrite Hbm by lia.
        destruct (q <=? i) eqn:E1, (i <? q + Z.of_nat (Z.to_nat s)) eqn:E2; zb;
          simpl; try done; lia.
      * apply (lay_frame bm _ len); [done| |done].
        intros i Hi. rewrite Hbm by lia.
        destruct (q <=? i) eqn:E1, (i <? q + Z.of_nat (Z.to_nat s)) eqn:E2; zb;
          simpl; try done; lia.
    + destruct (lay_elem _ _ _ _ q Hl) as (Hge&_); [set_solver|].
      apply lay_entry; try done; [|by apply IH].
      intros i Hi. rewrite Hbm, Hb by lia.
      destruct (q <=? i) eqn:E1; zb; simpl; [lia|done].
Qed.
End lay.

(** The bitmap and the lengths determine the entry list. *)
Lemma lay_unique bm len p l l' : lay bm len p l -> lay bm len p l' -> l = l'.
Proof.
  intros H. revert l'. induction H as [|p l Hp Hb Hl IH|p l Hp Hlen Hs Hb Hc Hl IH]; intros l' H'.
  - inversion H' as [|? ? Hr|? ? ? Hlen Hs]; subst; [done|lia|].
    pose proof (slots_pos (len DENTRY_PER_GROUP)). lia.
  - inversion H' as [|? ? ? ? ?|? ? ? Hlen ? Hb']; subst; [lia|auto|].
    pose proof (slots_pos (len p)). rewrite Hb' in Hb by lia. done.
  - pose proof (slots_pos (len p)).
    inversion H' as [|? ? ? Hb'|]; subst; [lia|rewrite Hb in Hb' by lia; done|].
    f_equal. auto.
Qed.

Lemma wf_group_unique g l l' : wf_group g l -> wf_group g l' -> l = l'.
Proof. intros [_ _ H1] [_ _ H2]. by eapply lay_unique. Qed.

(** * The lookup as a search of the entry list *)

(** The entries met before the first one satisfying [f]. *)
Fixpoint before {A} (f : A -> bool) (l : list A) : list A :=
  match l with
  | [] => []
  | x :: l => if f x then [] else x :: before f l
  end.

Definition insense_spec (g : hmdfs_dentry_group) (h : Z) (name : bytes)
    (ins : option Z) (cs : bool) (l : list Z) : option Z :=
  match ins with
  | Some _ => ins
  | None => if cs then None
            else List.find (match_ci g h name) (before (match_exact g h name) l)
  end.

Lemma find_in_block_lay fuel g h name ins cs p l :
  lay (dg_bitmap g) (glen g) p l -> DENTRY_PER_GROUP - p < Z.of_nat fuel ->
  find_in_block_loop fuel g h name ins cs p
  = (List.find (match_exact g h name) l, insense_spec g h name ins cs l).
Proof.
  revert p l ins; induction fuel as [|fuel IH]; intros p l ins Hl Hf.
  { pose proof (lay_bounds _ _ _ _ Hl). lia. }
  cbn [find_in_block_loop].
  inversion Hl as [|? ? ? Hb Hl'|? l' ? Hlen Hs Hb Hc Hl']; subst.
  - cbn. destruct ins, cs; done.
  - destruct (DENTRY_PER_GROUP <=? p) eqn:E; zb; [lia|].
    unfold test_bit_le. rewrite Hb. simpl. apply IH; [done|lia].
  - pose proof (slots_pos (glen g p)) as Hsp.
    destruct (DENTRY_PER_GROUP <=? p) eqn:E; zb; [lia|].
    unfold test_bit_le. rewrite Hb by lia. cbn [negb].
    fold (glen g p). destruct (glen g p =? 0) eqn:E0; zb; [lia|].
    cbn [List.find before insense_spec].
    destruct (match_exact g h name p) eqn:Em.
    + destruct ins, cs; unfold insense_spec; cbn; rewrite ?Em; done.
    + rewrite (IH _ l') by (done || lia). f_equal. unfold insense_spec.
      destruct ins; [done|]. destruct cs; cbn; [done|]. rewrite Em. cbn.
      by destruct (match_ci g h name p).
Qed.

Lemma find_in_block_wf g l h name ins cs :
  wf_group g l ->
  find_in_block g h name ins cs
  = (List.find (match_exact g h name) l, insense_spec g h name ins cs l).
Proof.
  intros [_ _ Hl]. unfold find_in_block. apply find_in_block_lay; [done|].
  unfold DENTRY_PER_GROUP. lia.
Qed.

(** * What update_dentry leaves in memory *)

Lemma nth_insert {A} (l : list A) i j x d :
  (i < length l)%nat -> nth j (<[i:=x]> l) d = if decide (i = j) then x else nth j l d.
Proof.
  intros Hi. rewrite !nth_lookup. destruct (decide (i = j)) as [->|].
  - by rewrite list_lookup_insert_eq.
  - by rewrite list_lookup_insert_ne.
Qed.

Lemma length_clear_namelen p n nsl : length (clear_namelen p n nsl) = length nsl.
Proof.
  revert p nsl; induction n as [|n IH]; intros p nsl; simpl; [done|].
  by rewrite IH, length_insert.
Qed.

Lemma clear_namelen_out p n nsl x d :
  0 <= p -> p + Z.of_nat n <= Z.of_nat (length nsl) -> 0 <= x ->
  x < p \/ p + Z.of_nat n <= x ->
  nth (Z.to_nat x) (clear_namelen p n nsl) d = nth (Z.to_nat x) nsl d.
Proof.
  revert p nsl; induction n as [|n IH]; intros p nsl Hp Hn Hx Ho; simpl; [done|].
  rewrite IH by (rewrite ?length_insert; lia).
  rewrite nth_insert by lia. rewrite decide_False by lia. done.
Qed.

Lemma clear_namelen_in p n nsl x d :
  0 <= p -> p + Z.of_nat n <= Z.of_nat (length nsl) -> p <= x < p + Z.of_nat n ->
  de_namelen (nth (Z.to_nat x) (clear_namelen p n nsl) d) = 0.
Proof.
  revert p nsl; induction n as [|n IH]; intros p nsl Hp Hn Hx; [lia|]. cbn [clear_namelen].
  destruct (decide (x = p)) as [->|].
  - rewrite clear_namelen_out by (rewrite ?length_insert; lia).
    rewrite nth_insert by lia. by rewrite decide_True.
  - apply IH; rewrite ?length_insert; lia.
Qed.

Section update.
Context (g : hmdfs_dentry_group) (l : list Z) (Hwf : wf_group g l).
Context (name : bytes) (child ino : inode) (gdi : option HMDFS_FILE_TYPE) (h p : Z).
Let s := get_dentry_slots (Z.of_nat (length name)).
Context (Hname : (0 < length name)%nat) (Hp : 0 <= p)
  (Hfit : p + s <= DENTRY_PER_GROUP)
  (Hfree : forall i, p <= i < p + s -> Z.testbit (dg_bitmap g) i = false).
Let g' := update_dentry g name child ino gdi h p.

Lemma update_slots :
  0 < s /\ Z.of_nat (length name) <= 8 * s /\ Z.of_nat (length name) <= 640.
Proof using Hname Hp Hfit.
  unfold s, DENTRY_PER_GROUP in *. pose proof (slots_pos (Z.of_nat (length name))).
  pose proof (slots_ge (Z.of_nat (length name))). lia.
Qed.

Lemma update_nsl_new :
  nsl_at g' p = dentry_of name child ino gdi h (de_reserved (nsl_at g p)).
Proof using Hname Hp Hfit Hwf.
  pose proof update_slots. destruct Hwf as [Hn _ _]. unfold DENTRY_PER_GROUP in Hfit.
  unfold g', update_dentry. fold s. unfold nsl_at at 1. cbn [dg_nsl].
  rewrite clear_namelen_out by (rewrite ?length_insert; lia).
  rewrite nth_insert by lia. by rewrite decide_True by done.
Qed.

Lemma update_key_new :
  de_hash (nsl_at g' p) = u32 h /\ de_namelen (nsl_at g' p) = Z.of_nat (length name).
Proof using Hname Hp Hfit Hwf.
  pose proof update_slots. rewrite update_nsl_new. unfold dentry_of.
  destruct (match gdi with None => _ | Some _ => _ end); simpl.
  all: split; [done|]; apply wrap_small; lia.
Qed.

Lemma update_nsl_old x :
  0 <= x -> x < p \/ p + s <= x -> nsl_at g' x = nsl_at g x.
Proof using Hname Hp Hfit Hwf.
  intros Hx Ho. pose proof update_slots. destruct Hwf as [Hn _ _].
  unfold DENTRY_PER_GROUP in Hfit.
  unfold g', update_dentry. fold s. unfold nsl_at. cbn [dg_nsl].
  rewrite clear_namelen_out by (rewrite ?length_insert; lia).
  rewrite nth_insert by lia. by rewrite decide_False by lia.
Qed.

Lemma update_nsl_cont x : p < x < p + s -> de_namelen (nsl_at g' x) = 0.
Proof using Hname Hp Hfit Hwf.
  intros Hx. pose proof update_slots. destruct Hwf as [Hn _ _].
  unfold DENTRY_PER_GROUP in Hfit.
  unfold g', update_dentry. fold s. unfold nsl_at. cbn [dg_nsl].
  apply clear_namelen_in; rewrite ?length_insert; lia.
Qed.

Lemma update_fields :
  dg_bitmap g' = set_bits p (Z.to_nat s) (dg_bitmap g) /\
  dg_filename g' = memcpy_at (8 * Z.to_nat p) name (dg_filename g) /\
  length (dg_nsl g') = 80%nat.
Proof using Hwf.
  destruct Hwf as [Hn _ _]. unfold g', update_dentry. fold s. cbn [dg_bitmap dg_filename dg_nsl].
  split; [done|split; [done|]]. by rewrite length_clear_namelen, length_insert.
Qed.

Lemma update_name_new : name_at g' p (Z.of_nat (length name)) = name.
Proof using Hname Hp Hfit Hwf.
  pose proof update_slots. destruct Hwf as [_ Hf _]. unfold DENTRY_PER_GROUP in Hfit.
  unfold name_at. destruct update_fields as (_&->&_). rewrite Nat2Z.id.
  apply sub_memcpy_same. lia.
Qed.

Lemma update_name_old x :
  x ∈ l -> name_at g' x (glen g x) = name_at g x (glen g x).
Proof using Hname Hp Hfit Hfree Hwf.
  intros Hx. pose proof update_slots. destruct Hwf as [_ Hf Hl].
  destruct (lay_elem _ _ _ _ _ Hl Hx) as (H0&H1&H2&H3).
  pose proof (slots_ge (glen g x)). pose proof (slots_pos (glen g x)).
  unfold DENTRY_PER_GROUP in *. unfold name_at. destruct update_fields as (_&->&_).
  apply sub_memcpy_other; [lia|].
  assert (x + get_dentry_slots (glen g x) <= p \/ p + s <= x) as [?|?]; [|lia..].
  destruct (decide (x + get_dentry_slots (glen g x) <= p)); [by left|].
  destruct (decide (p + s <= x)); [by right|]. exfalso.
  specialize (Hfree (Z.max p x)). rewrite H3 in Hfree by lia.
  by specialize (Hfree ltac:(lia)).
Qed.

(** update_dentry adds one entry to the group. *)
Lemma update_wf : exists l1 l2, l = l1 ++ l2 /\ wf_group g' (l1 ++ p :: l2).
Proof using Hname Hp Hfit Hfree Hwf.
  pose proof update_slots as Hs. destruct update_key_new as [_ Hlen].
  destruct update_fields as (Hbm&Hfn&Hnsl).
  destruct Hwf as [Hn Hf Hl].
  destruct (lay_insert (dg_bitmap g) (glen g) (dg_bitmap g') (glen g') 0 l p)
    as (l1&l2&->&Hl').
  - done.
  - lia.
  - unfold glen at 1. rewrite Hlen. lia.
  - unfold glen at 1. rewrite Hlen. done.
  - unfold glen at 1. rewrite Hlen. done.
  - intros i Hi. unfold glen. rewrite Hlen. fold s. rewrite Hbm, set_bits_spec by lia.
    by replace (Z.of_nat (Z.to_nat s)) with s by lia.
  - unfold glen at 1. rewrite Hlen. fold s. intros i H0 Hi.
    unfold glen. by rewrite update_nsl_old.
  - unfold glen at 1. rewrite Hlen. fold s. intros i Hi. by apply update_nsl_cont.
  - exists l1, l2. split; [done|]. split; [done| |done].
    rewrite Hfn, length_memcpy_at; [done|]. unfold DENTRY_PER_GROUP in *. lia.
Qed.

(** The old entries keep the outcome of every comparison; the new one matches
    exactly the name and hash it was given. *)
Lemma update_match_old h' n x :
  x ∈ l -> match_exact g' h' n x = match_exact g h' n x /\
           match_ci g' h' n x = match_ci g h' n x.
Proof using Hname Hp Hfit Hfree Hwf.
  intros Hx. pose proof update_slots. pose proof (update_name_old x Hx) as Hnm.
  destruct Hwf as [_ _ Hl].
  destruct (lay_elem _ _ _ _ _ Hl Hx) as (H0&H1&H2&H3).
  pose proof (slots_pos (glen g x)).
  assert (nsl_at g' x = nsl_at g x) as E.
  { apply update_nsl_old; [done|].
    destruct (decide (x < p)); [by left|]. destruct (decide (p + s <= x)); [by right|].
    specialize (Hfree x). rewrite H3 in Hfree by lia. by specialize (Hfree ltac:(lia)). }
  unfold match_exact, match_ci. rewrite E. unfold glen in Hnm. by rewrite Hnm.
Qed.

Lemma update_match_new h' n :
  match_exact g' h' n p = (u32 h =? h') && beqb n name.
Proof using Hname Hp Hfit Hwf.
  unfold match_exact. destruct update_key_new as [-> ->]. rewrite update_name_new.
  destruct (u32 h =? h'); [|done]. simpl.
  destruct (beqb n name) eqn:E; [apply beqb_eq in E; subst; by rewrite Z.eqb_refl|].
  by rewrite andb_false_r.
Qed.
End update.

(** * Clearing an entry's slots *)
Section delete.
Context (g : hmdfs_dentry_group) (l1 l2 : list Z) (p : Z).
Context (Hwf : wf_group g (l1 ++ p :: l2)).
Let g' := delete_slots g p.

Lemma delete_wf : wf_group g' (l1 ++ l2).
Proof using Hwf.
  destruct Hwf as [Hn Hf Hl]. split; [done..|].
  assert (0 <= p) by (destruct (lay_elem _ _ _ _ p Hl); [set_solver|lia]).
  eapply lay_delete; [exact Hl|]. intros i Hi. simpl. fold (glen g p).
  rewrite clear_bits_spec by lia.
  destruct (lay_elem _ _ _ _ p Hl) as (_&?&_); [set_solver|].
  pose proof (slots_pos (glen g p)).
  by replace (Z.of_nat (Z.to_nat (get_dentry_slots (glen g p))))
    with (get_dentry_slots (glen g p)) by lia.
Qed.

Lemma delete_match h n x :
  match_exact g' h n x = match_exact g h n x /\ match_ci g' h n x = match_ci g h n x.
Proof. done. Qed.
End delete.

(** * The slot allocator *)

Definition free_run (bm slots max p : Z) : Prop :=
  0 <= p /\ p + slots <= max /\ forall i, p <= i < p + slots -> Z.testbit bm i = false.

Lemma room_loop_spec fuel bm slots max b :
  1 <= slots -> 0 <= b <= max -> max - b < Z.of_nat fuel ->
  (forall p, p < b -> ~ free_run bm slots max p) ->
  exists r, room_loop fuel bm slots max b = Some r /\
    ((r < max /\ free_run bm slots max r /\ forall p, p < r -> ~ free_run bm slots max p)
     \/ (r = max /\ forall p, ~ free_run bm slots max p)).
Proof.
  revert b; induction fuel as [|fuel IH]; intros b Hs Hb Hf Hinv; [lia|].
  cbn [room_loop].
  destruct (find_next_zero_bit_le_spec bm max b) as [Hz1 Hz2]; [lia..|].
  set (zs := find_next_zero_bit_le bm max b) in *.
  assert (forall p, p < zs -> ~ free_run bm slots max p) as Hinv2.
  { intros p Hp Hr. destruct (decide (p < b)); [by eapply Hinv|].
    destruct Hr as (?&?&Hr). specialize (Hr p ltac:(lia)).
    by rewrite Hz1 in Hr by lia. }
  destruct (max <=? zs) eqn:E; zb.
  { exists max. split; [done|]. right. split; [done|]. intros p Hr.
    apply (Hinv2 p); [|done]. destruct Hr as (?&?&?). lia. }
  destruct Hz2 as [[Hzr Hzb]|]; [|lia].
  destruct (find_next_bit_le_spec bm max zs) as [He1 He2]; [lia..|].
  set (ze := find_next_bit_le bm max zs) in *.
  assert (zs < ze <= max) as Hze.
  { destruct He2 as [[? Ht]|]; [|lia].
    assert (ze <> zs) by (intros ->; congruence). lia. }
  destruct (slots <=? ze - zs) eqn:E2; zb.
  { exists zs. split; [done|]. left. split; [lia|]. split; [|done].
    split; [lia|split; [lia|]]. intros i Hi. apply He1; lia. }
  assert (forall p, p < ze + 1 -> ~ free_run bm slots max p) as Hinv3.
  { intros p Hp Hr. destruct (decide (p < zs)); [by eapply Hinv2|].
    destruct Hr as (?&?&Hr). destruct He2 as [[? Ht]|He2]; [|lia].
    rewrite Hr in Ht by lia. done. }
  destruct (max <=? ze + 1) eqn:E3; zb.
  - exists max. split; [done|]. right. split; [done|]. intros p Hr.
    apply (Hinv3 p); [|done]. destruct Hr as (?&?&?). lia.
  - apply IH; [lia|lia|lia|done].
Qed.

Lemma room_spec bm slots max :
  1 <= slots -> 0 <= max ->
  let r := room_for_filename bm slots max in
  room_loop (S (Z.to_nat max)) bm slots max 0 = Some r /\
  ((r < max /\ free_run bm slots max r /\ forall p, p < r -> ~ free_run bm slots max p)
   \/ (r = max /\ forall p, ~ free_run bm slots max p)).
Proof.
  intros Hs Hm r. unfold r, room_for_filename.
  destruct (room_loop_spec (S (Z.to_nat max)) bm slots max 0) as (r'&Hr&H); [lia..| |].
  { intros p Hp (?&_). lia. }
  rewrite Hr. split; [done|exact H].
Qed.

Lemma room_found bm slots max :
  1 <= slots -> 0 <= max -> room_for_filename bm slots max < max ->
  free_run bm slots max (room_for_filename bm slots max).
Proof. intros Hs Hm Hr. destruct (room_spec bm slots max) as [_ [(?&?&_)|[? _]]]; [done..|lia]. Qed.

Lemma room_zero slots :
  1 <= slots <= DENTRY_PER_GROUP -> room_for_filename 0 slots DENTRY_PER_GROUP = 0.
Proof.
  unfold DENTRY_PER_GROUP. intros Hs.
  assert (free_run 0 slots 80 0) as H0.
  { split; [lia|split; [lia|]]. intros. apply Z.bits_0. }
  destruct (room_spec 0 slots 80) as [_ [(H1&H2&H3)|[H1 H2]]]; [lia..| |].
  - destruct H2 as (H2&_). destruct (decide (0 < room_for_filename 0 slots 80)); [|lia].
    by destruct (H3 0).
  - by destruct (H2 0).
Qed.

Lemma zero_group_wf : wf_group zero_group [].
Proof.
  split; [done|done|]. apply (lay_free_run _ _ 0 80); [lia|done| |constructor].
  intros. apply Z.bits_0.
Qed.

#[export] Hint Resolve zero_group_wf : hmdfs.

(** * Byte-level lemmas *)

Definition wf_dentry (d : hmdfs_dentry) : Prop :=
  0 <= de_hash d < 2 ^ 32 /\ 0 <= de_i_mode d < 2 ^ 16 /\ 0 <= de_namelen d < 2 ^ 16 /\
  0 <= de_i_size d < 2 ^ 64 /\ 0 <= de_i_mtime d < 2 ^ 64 /\
  0 <= de_i_mtime_nsec d < 2 ^ 32 /\ 0 <= de_i_ino d < 2 ^ 64 /\
  0 <= de_i_flag d < 2 ^ 32 /\ length (de_reserved d) = 3%nat.

Lemma dentry_encode_length d : length (de_reserved d) = 3%nat -> length (dentry_encode d) = 43%nat.
Proof. intros H. unfold dentry_encode. rewrite !length_app, !length_le_enc, H. done. Qed.

Lemma sub_app_r {A} (a b : list A) off len k :
  length a = k -> (k <= off)%nat -> sub off len (a ++ b) = sub (off - k) len b.
Proof.
  intros <- Hk. unfold sub. rewrite drop_app. by rewrite (drop_ge a) by lia.
Qed.

Lemma sub_app_l {A} (a b : list A) k : length a = k -> sub 0 k (a ++ b) = a.
Proof. intros <-. unfold sub. rewrite drop_0. apply take_app_length. Qed.

Lemma dentry_decode_encode d : wf_dentry d -> dentry_decode (dentry_encode d) = d.
Proof.
  intros (H1&H2&H3&H4&H5&H6&H7&H8&H9). destruct d as [h m nl sz mt mn ino fl rs].
  unfold dentry_encode, dentry_decode.
  cbn [de_hash de_i_mode de_namelen de_i_size de_i_mtime de_i_mtime_nsec de_i_ino de_i_flag de_reserved] in *.
  f_equal.
  all: repeat first
    [ rewrite (sub_app_r (le_enc 4 _) _ _ _ 4) by (apply length_le_enc || lia)
    | rewrite (sub_app_r (le_enc 2 _) _ _ _ 2) by (apply length_le_enc || lia)
    | rewrite (sub_app_r (le_enc 8 _) _ _ _ 8) by (apply length_le_enc || lia) ];
    cbn [Nat.sub].
  all: rewrite ?sub_app_l by apply length_le_enc; rewrite ?le_dec_enc by done; try done.
  rewrite <- H9. apply sub_all.
Qed.

Lemma decode_nsl_encode ds rest :
  Forall wf_dentry ds ->
  decode_nsl (length ds) (concat (map dentry_encode ds) ++ rest) = ds.
Proof.
  induction 1 as [|d ds Hd Hds IH]; cbn [decode_nsl length map concat]; [done|].
  rewrite <- app_assoc.
  assert (length (dentry_encode d) = 43%nat) as E by (apply dentry_encode_length; apply Hd).
  rewrite take_app_length', drop_app_length' by (symmetry; exact E).
  by rewrite dentry_decode_encode, IH.
Qed.

Lemma nsl_bytes_length ds :
  Forall wf_dentry ds ->
  length (concat (map dentry_encode ds)) = (43 * length ds)%nat.
Proof.
  induction 1 as [|d ds Hd Hds IH]; cbn [length map concat]; [done|].
  rewrite length_app, dentry_encode_length, IH by apply Hd. lia.
Qed.

(** * Properties *)

Record wf_widths (g : hmdfs_dentry_group) : Prop := {
  ww_version : 0 <= dg_version g < 256;
  ww_bitmap : 0 <= dg_bitmap g < 2 ^ 80;
  ww_nsl : length (dg_nsl g) = 80%nat /\ Forall wf_dentry (dg_nsl g);
  ww_filename : length (dg_filename g) = 640%nat;
  ww_reserved : length (dg_reserved g) = 5%nat
}.

(** The packed layout of a group is exactly one 4096-byte page, decoding inverts
    encoding, and a page of zeros (a hole left by truncate) is the empty group. *)
Theorem group_encode_roundtrip g :
  wf_widths g ->
  length (group_encode g) = Z.to_nat DENTRYGROUP_SIZE /\
  group_decode (group_encode g) = g /\
  group_decode (replicate 4096 0) = zero_group.
Proof.
  intros [Hv Hb [Hn Hwd] Hf Hr].
  assert (length (concat (map dentry_encode (dg_nsl g))) = 3440%nat) as Hc
    by (rewrite nsl_bytes_length, Hn; done).
  split; [|split; [|vm_compute; reflexivity]].
  { unfold group_encode. rewrite !length_app, length_le_enc, Hc, Hf, Hr. done. }
  destruct g as [v bm nsl fn rs]. unfold group_decode, group_encode.
  cbn [dg_version dg_bitmap dg_nsl dg_filename dg_reserved] in *.
  rewrite (wrap_small 8) by lia. f_equal.
  - rewrite (sub_app_l [v]) by done. cbn. lia.
  - rewrite (sub_app_r [v] _ _ _ 1) by (done || lia).
    rewrite (sub_app_l (le_enc 10 bm)) by apply length_le_enc.
    apply le_dec_enc. done.
  - rewrite (sub_app_r [v] _ _ _ 1) by (done || lia).
    rewrite (sub_app_r (le_enc 10 bm) _ _ _ 10) by (apply length_le_enc || lia).
    cbn [Nat.sub]. rewrite (sub_app_l _ _ 3440) by done.
    rewrite <- Hn, <- (app_nil_r (concat _)). by apply decode_nsl_encode.
  - rewrite (sub_app_r [v] _ _ _ 1) by (done || lia).
    rewrite (sub_app_r (le_enc 10 bm) _ _ _ 10) by (apply length_le_enc || lia).
    rewrite (sub_app_r (concat _) _ _ _ 3440) by (done || lia).
    cbn [Nat.sub]. by apply sub_app_l.
  - rewrite (sub_app_r [v] _ _ _ 1) by (done || lia).
    rewrite (sub_app_r (le_enc 10 bm) _ _ _ 10) by (apply length_le_enc || lia).
    rewrite (sub_app_r (concat _) _ _ _ 3440) by (done || lia).
    rewrite (sub_app_r fn _ _ _ 640) by (done || lia).
    cbn [Nat.sub]. rewrite <- Hr. apply sub_all.
Qed.

Lemma group_encode_roundtrip_witness :
  wf_widths zero_group /\
  length (group_encode zero_group) = Z.to_nat DENTRYGROUP_SIZE /\
  group_decode (group_encode zero_group) = zero_group /\
  group_decode (replicate 4096 0) = zero_group.
Proof.
  assert (wf_widths zero_group) as H.
  { split; cbn [zero_group dg_version dg_bitmap]; [lia|lia| |reflexivity|reflexivity].
    split; [reflexivity|]. apply Forall_replicate.
    unfold wf_dentry; cbn [zero_dentry de_hash de_i_mode de_namelen de_i_size de_i_mtime
      de_i_mtime_nsec de_i_ino de_i_flag de_reserved length]. lia. }
  split; [exact H|]. exact (group_encode_roundtrip zero_group H).
Defined.

(** room_for_filename ends (its [goto next] loop is bounded), and is first fit: it
    returns the lowest slot where the requested run is free and fits, and the
    limit itself only when no such run exists. *)
Theorem room_for_filename_first_fit bm slots max :
  1 <= slots -> 0 <= max ->
  let r := room_for_filename bm slots max in
  is_Some (room_loop (S (Z.to_nat max)) bm slots max 0) /\ 0 <= r <= max /\
  (r < max -> (forall i, r <= i < r + slots -> Z.testbit bm i = false) /\
              r + slots <= max /\ forall p, p < r -> ~ free_run bm slots max p) /\
  (r = max -> forall p, ~ free_run bm slots max p).
Proof.
  intros Hs Hm r. destruct (room_spec bm slots max) as [H1 H2]; [done..|].
  fold r in H1, H2. split; [eauto|].
  destruct H2 as [(Hr&(H3&H4&H5)&H6)|(Hr&H3)].
  - repeat split; try done; try lia.
  - repeat split; try done; lia.
Qed.

Lemma room_for_filename_first_fit_witness :
  1 <= 2 /\ 0 <= 80 /\
  let r := room_for_filename 0x1b 2 80 in
  is_Some (room_loop (S (Z.to_nat 80)) 0x1b 2 80 0) /\ 0 <= r <= 80 /\
  (r < 80 -> (forall i, r <= i < r + 2 -> Z.testbit 0x1b i = false) /\
              r + 2 <= 80 /\ forall p, p < r -> ~ free_run 0x1b 2 80 p) /\
  (r = 80 -> forall p, ~ free_run 0x1b 2 80 p).
Proof.
  split; [lia|]. split; [lia|].
  exact (room_for_filename_first_fit 0x1b 2 80 ltac:(lia) ltac:(lia)).
Defined.

(** On a well-formed group find_in_block finds the first entry, in slot order,
    with the hash and name asked for, and nothing when there is none; on a
    case-sensitive mount the insensitive candidate stays unset, otherwise it is
    an entry equal up to case. *)
Theorem find_in_block_correct g l h name cs :
  wf_group g l ->
  let '(de, ins) := find_in_block g h name None cs in
  (forall p, de = Some p ->
     p ∈ l /\ de_hash (nsl_at g p) = h /\ name_at g p (glen g p) = name /\
     forall q, q ∈ l -> q < p -> de_hash (nsl_at g q) = h -> name_at g q (glen g q) <> name) /\
  (de = None ->
     forall q, q ∈ l -> de_hash (nsl_at g q) = h -> name_at g q (glen g q) <> name) /\
  (cs = true -> ins = None) /\
  (forall q, ins = Some q ->
     q ∈ l /\ de_hash (nsl_at g q) = h /\ case_eqb name (name_at g q (glen g q)) = true).
Proof.
  intros Hwf. rewrite (find_in_block_wf g l) by done.
  assert (forall q, q ∈ l -> de_hash (nsl_at g q) = h -> name_at g q (glen g q) = name ->
          match_exact g h name q = true) as Hm.
  { intros q Hq Hh Hn. destruct Hwf as [_ Hf Hl].
    destruct (lay_elem _ _ _ _ _ Hl Hq) as (?&?&?&_).
    pose proof (slots_ge (glen g q)). unfold DENTRY_PER_GROUP in *.
    unfold match_exact. rewrite Hh, Z.eqb_refl. fold (glen g q). rewrite Hn.
    replace (glen g q =? Z.of_nat (length name)) with true; [apply beqb_refl|].
    symmetry. apply Z.eqb_eq. rewrite <- Hn. unfold name_at. rewrite length_sub; lia. }
  split; [|split; [|split]].
  - intros p (l1&l2&->&He&Hn)%find_split.
    unfold match_exact in He. zb. apply beqb_eq in H0. split; [set_solver|].
    split; [done|split; [unfold glen; by symmetry|]].
    intros q Hq Hlt Hh Hnm. destruct Hwf as [_ _ Hl].
    destruct (lay_sorted _ _ _ _ _ _ _ Hl eq_refl) as [Hs1 Hs2].
    specialize (Hm q Hq Hh Hnm).
    apply elem_of_app in Hq as [Hq|[->|Hq]%elem_of_cons]; [by rewrite Hn in Hm|lia|].
    specialize (Hs2 _ Hq). destruct (lay_elem _ _ _ _ p Hl) as (_&Hp&_); [set_solver|].
    pose proof (slots_pos (glen g p)). lia.
  - intros Hn q Hq Hh He. rewrite find_none_iff in Hn.
    specialize (Hn q Hq). by rewrite Hm in Hn.
  - intros ->. done.
  - intros q. unfold insense_spec. destruct cs; [done|]. intros Hq.
    apply List.find_some in Hq as [Hin He]. unfold match_ci in He. zb.
    split; [|split; [done|done]].
    apply list_elem_of_In in Hin. clear -Hin. induction l as [|k l IH]; simpl in *; [done|].
    destruct (match_exact g h name k); [by apply elem_of_nil in Hin|]. set_solver.
Qed.

Lemma find_in_block_correct_witness :
  let ino := mk_inode 7 1 33188 100 5 6 in
  let g := update_dentry zero_group [97; 98] ino ino None 42 0 in
  exists l, wf_group g l /\
  let '(de, ins) := find_in_block g 42 [97; 98] None true in
  (forall p, de = Some p ->
     p ∈ l /\ de_hash (nsl_at g p) = 42 /\ name_at g p (glen g p) = [97; 98] /\
     forall q, q ∈ l -> q < p -> de_hash (nsl_at g q) = 42 ->
               name_at g q (glen g q) <> [97; 98]) /\
  (de = None ->
     forall q, q ∈ l -> de_hash (nsl_at g q) = 42 -> name_at g q (glen g q) <> [97; 98]) /\
  (true = true -> ins = None) /\
  (forall q, ins = Some q ->
     q ∈ l /\ de_hash (nsl_at g q) = 42 /\ case_eqb [97; 98] (name_at g q (glen g q)) = true).
Proof.
  intros ino g.
  destruct (update_wf zero_group [] zero_group_wf [97; 98] ino ino None 42 0)
    as (l1&l2&_&Hw); [simpl; lia|lia|done|intros; apply Z.bits_0|].
  exists (l1 ++ 0 :: l2). split; [exact Hw|].
  exact (find_in_block_correct g (l1 ++ 0 :: l2) 42 [97; 98] true Hw).
Defined.
