(* ===== verification/DentryFile.v ===== *)
(** A whole dentry cache file (hmdfs_dentryfile.c): lookup across the hash levels,
    creation, deletion, rename, attribute update and directory listing, with the
    record locks the code takes on the groups.  The file itself (kernel_read,
    kernel_write, vfs_truncate and posix locks, none of them code of this
    repository) is the interface [CacheFile]; [CacheFileLaws] states what a file
    without I/O errors does, and [memfile] is an implementation. *)
From S2P Require Import Prelude DentryLayout DentryHash DentryGroup.

(** * The interface to the file *)

(** Positions are byte offsets of groups; every read, write and lock of this code
    covers one 4096-byte group.  [cf_read f pos buf] is kernel_read into [buf]: the
    byte count (or -errno) and the buffer afterwards.  [cf_lock] is
    locks_lock_file_wait with F_WRLCK, [cf_unlock] with F_UNLCK, on
    [pos, pos + 4096). *)
Class CacheFile (F : Type) := {
  cf_size : F -> Z;
  cf_read : F -> Z -> hmdfs_dentry_group -> Z * hmdfs_dentry_group;
  cf_write : F -> Z -> hmdfs_dentry_group -> Z * F;
  cf_truncate : F -> Z -> Z * F;
  cf_lock : F -> Z -> Z * F;
  cf_unlock : F -> Z -> F
}.

Section operations.
Context {F : Type} `{!CacheFile F}.
Implicit Types f : F.

(** kernel_read and kernel_write advance the position they are given. *)
Definition advance (pos n : Z) : Z := if 0 <? n then pos + n else pos.

Definition group_cnt f : Z := get_dentry_group_cnt (cf_size f).

(** * Lookup *)

Record hmdfs_dcache_lookup_ctx := mk_ctx {
  ctx_name : bytes;
  ctx_hash : Z;
  ctx_bidx : Z;
  ctx_page : option hmdfs_dentry_group;
  ctx_insense_de : option Z;
  ctx_insense_bidx : Z;
  ctx_insense_page : option hmdfs_dentry_group
}.

Definition hmdfs_init_dcache_lookup_ctx (name : bytes) : hmdfs_dcache_lookup_ctx :=
  mk_ctx name 0 0 None None 0 None.

Definition find_dentry_page f (index : Z) : option hmdfs_dentry_group * F :=
  let pos := get_dentry_group_pos index in
  let '(err, f) := cf_lock f pos in
  if negb (err =? 0) then (None, f)
  else
    let '(size, dentry_blk) := cf_read f pos zero_group in
    let pos := advance pos size in
    if negb (size =? DENTRYGROUP_SIZE) then (None, cf_unlock f pos)
    else (Some dentry_blk, f).

(** The [for (; bidx < end_block; bidx++)] loop of hmdfs_in_level; [n] blocks are
    left.  The result is the entry found, the block the loop stopped at, the
    context and the file. *)
Fixpoint in_level_loop (n : nat) (bidx : Z) (tmp_insense_de : option Z)
    (ctx : hmdfs_dcache_lookup_ctx) (case_sense : bool) f
    : option Z * Z * hmdfs_dcache_lookup_ctx * F :=
  match n with
  | O => (None, bidx, ctx, f)
  | S n =>
      match find_dentry_page f bidx with
      | (None, f) => (None, bidx, ctx, f)
      | (Some dentry_blk, f) =>
          let '(de, tmp_insense_de) :=
            find_in_block dentry_blk (ctx_hash ctx) (ctx_name ctx) tmp_insense_de case_sense in
          match de, ctx_insense_de ctx, tmp_insense_de with
          | None, None, Some _ =>
              in_level_loop n (bidx + 1) tmp_insense_de
                (mk_ctx (ctx_name ctx) (ctx_hash ctx) (ctx_bidx ctx) (ctx_page ctx)
                   tmp_insense_de bidx (Some dentry_blk)) case_sense f
          | None, _, _ =>
              in_level_loop n (bidx + 1) tmp_insense_de ctx case_sense
                (cf_unlock f (get_dentry_group_pos bidx))
          | Some _, _, _ =>
              (de, bidx,
               mk_ctx (ctx_name ctx) (ctx_hash ctx) (ctx_bidx ctx) (Some dentry_blk)
                 (ctx_insense_de ctx) (ctx_insense_bidx ctx) (ctx_insense_page ctx), f)
          end
      end
  end.

Definition hmdfs_in_level (level : Z) (ctx : hmdfs_dcache_lookup_ctx) (case_sense : bool) f
    : option Z * hmdfs_dcache_lookup_ctx * F :=
  let nbucket := get_bucket_by_level level in
  if nbucket =? 0 then (None, ctx, f)
  else
    let bidx := u64 (get_bucketaddr level (ctx_hash ctx mod nbucket) * BUCKET_BLOCKS) in
    let '(de, bidx, ctx, f) :=
      in_level_loop (Z.to_nat BUCKET_BLOCKS) bidx None ctx case_sense f in
    (de, mk_ctx (ctx_name ctx) (ctx_hash ctx) (u32 bidx) (ctx_page ctx)
           (ctx_insense_de ctx) (ctx_insense_bidx ctx) (ctx_insense_page ctx), f).

(** The level loop of hmdfs_find_dentry; [n] levels are left. *)
Fixpoint find_levels (n : nat) (level : Z) (ctx : hmdfs_dcache_lookup_ctx)
    (case_sense : bool) f : option Z * hmdfs_dcache_lookup_ctx * F :=
  match n with
  | O =>
      match ctx_insense_de ctx with
      | Some de =>
          (Some de, mk_ctx (ctx_name ctx) (ctx_hash ctx) (ctx_insense_bidx ctx)
                      (ctx_insense_page ctx) (ctx_insense_de ctx) 0 None, f)
      | None => (None, ctx, f)
      end
  | S n =>
      match hmdfs_in_level level ctx case_sense f with
      | (Some de, ctx, f) =>
          match ctx_insense_page ctx with
          | Some _ =>
              (Some de, mk_ctx (ctx_name ctx) (ctx_hash ctx) (ctx_bidx ctx) (ctx_page ctx)
                          (ctx_insense_de ctx) (ctx_insense_bidx ctx) None,
               cf_unlock f (get_dentry_group_pos (ctx_insense_bidx ctx)))
          | None => (Some de, ctx, f)
          end
      | (None, ctx, f) => find_levels n (level + 1) ctx case_sense f
      end
  end.

Definition hmdfs_find_dentry (ctx : hmdfs_dcache_lookup_ctx) (case_sense : bool) f
    : option Z * hmdfs_dcache_lookup_ctx * F :=
  let ctx := mk_ctx (ctx_name ctx) (hmdfs_dentry_hash (ctx_name ctx) case_sense)
               (ctx_bidx ctx) (ctx_page ctx) (ctx_insense_de ctx)
               (ctx_insense_bidx ctx) (ctx_insense_page ctx) in
  let max_depth := get_max_depth (cf_size f) in
  find_levels (Z.to_nat max_depth) 0 ctx case_sense f.

(** * Creation *)

Inductive block_result :=
| BlockFail (ret : Z) (f : F)
| BlockAdd (bidx bit_pos : Z) (blk : hmdfs_dentry_group) (ret : Z) (f : F)
| BlockNone (f : F).

(** The block loop of create_dentry.  [pos] has been advanced by the read when
    the group is unlocked again. *)
Fixpoint create_blocks (n : nat) (bidx : Z) (name : bytes) f : block_result :=
  match n with
  | O => BlockNone f
  | S n =>
      let pos := get_dentry_group_pos bidx in
      let '(ret, f) := cf_lock f pos in
      if negb (ret =? 0) then BlockFail ret f
      else
        let '(size, dentry_blk) := cf_read f pos zero_group in
        let pos := advance pos size in
        if negb (size =? DENTRYGROUP_SIZE) then BlockFail (- ENOSPC) (cf_unlock f pos)
        else
          let bit_pos := room_for_filename (dg_bitmap dentry_blk)
                           (get_dentry_slots (Z.of_nat (length name))) DENTRY_PER_GROUP in
          if bit_pos <? DENTRY_PER_GROUP then BlockAdd bidx bit_pos dentry_blk ret f
          else create_blocks n (bidx + 1) name (cf_unlock f pos)
  end.

(** The [find:] loop over levels. *)
Fixpoint create_levels (fuel : nat) (level : Z) (name : bytes) (child inode : inode)
    (gdi : option HMDFS_FILE_TYPE) (namehash : Z) f : Z * F :=
  match fuel with
  | O => (- ENOSPC, f)
  | S fuel =>
      if level =? MAX_BUCKET_LEVEL then (- ENOSPC, f)
      else
        let bidx := u64 (BUCKET_BLOCKS *
                         get_bucketaddr level (namehash mod get_bucket_by_level level)) in
        let end_block := u64 (bidx + BUCKET_BLOCKS) in
        let '(err, f) := if group_cnt f <? end_block
                         then cf_truncate f (get_dcache_file_size level)
                         else (0, f) in
        if negb (err =? 0) then (- ENOSPC, f)
        else
          match create_blocks (Z.to_nat BUCKET_BLOCKS) bidx name f with
          | BlockFail ret f => (ret, f)
          | BlockNone f => create_levels fuel (level + 1) name child inode gdi namehash f
          | BlockAdd bidx bit_pos blk ret f =>
              let pos := get_dentry_group_pos bidx in
              let blk := update_dentry blk name child inode gdi namehash bit_pos in
              let '(size, f) := cf_write f pos blk in
              let pos := advance pos size in
              (ret, cf_unlock f pos)
          end
  end.

(** One level per turn and 63 levels at most: 64 turns always suffice. *)
Definition create_dentry (name : bytes) (child inode : inode)
    (gdi : option HMDFS_FILE_TYPE) (case_sense : bool) f : Z * F :=
  create_levels 64 0 name child inode gdi (hmdfs_dentry_hash name case_sense) f.

(** * Deletion *)

Definition hmdfs_delete_dentry (name : bytes) (case_sense : bool) f : F :=
  match hmdfs_find_dentry (hmdfs_init_dcache_lookup_ctx name) case_sense f with
  | (Some bit_pos, ctx, f) =>
      match ctx_page ctx with
      | Some page =>
          let ipos := get_dentry_group_pos (ctx_bidx ctx) in
          let '(size, f) := cf_write f ipos (delete_slots page bit_pos) in
          cf_unlock f (advance ipos size)
      | None => f
      end
  | (None, _, f) => f
  end.

(** * Attribute update *)

Definition set_de_attrs (de : hmdfs_dentry) (inode : inode) : hmdfs_dentry :=
  mk_dentry (de_hash de) (de_i_mode de) (de_namelen de) (u64 (i_size inode))
    (u64 (i_mtime_sec inode)) (u32 (i_mtime_nsec inode))
    (u64 (generate_u64_ino (i_ino inode) (i_generation inode))) 0 (de_reserved de).

(** [parent_is_device]: the parent is an HMDFS_LAYER_FIRST_DEVICE dentry;
    [relative_path] is the result of hmdfs_get_dentry_relative_path (NULL on
    failure); [find_cfn] gives the file of the cache node found for it. *)
Definition update_inode_to_dentry (parent_is_device : bool) (relative_path : option bytes)
    (find_cfn : bytes -> option F) (name : bytes) (inode : inode) (case_sense : bool)
    : Z * option F :=
  if parent_is_device then (0, None)
  else match relative_path with
  | None => (- ENOMEM, None)
  | Some path =>
      match find_cfn path with
      | None => (0, None)
      | Some f =>
          match hmdfs_find_dentry (hmdfs_init_dcache_lookup_ctx name) case_sense f with
          | (Some bit_pos, ctx, f) =>
              match ctx_page ctx with
              | Some page =>
                  let page := set_nsl page
                    (<[Z.to_nat bit_pos := set_de_attrs (nsl_at page bit_pos) inode]>
                       (dg_nsl page)) in
                  let ipos := get_dentry_group_pos (ctx_bidx ctx) in
                  (* write_dentry_page takes the position by value *)
                  let '(_, f) := cf_write f ipos page in
                  (0, Some (cf_unlock f ipos))
              | None => (0, Some f)
              end
          | (None, _, f) => (0, Some f)
          end
      end
  end.

(** * Rename *)

(** The files are named by ids because the two directories may share one. *)
Definition hmdfs_rename_dentry (old_name new_name : bytes) (old_inode new_inode : inode)
    (gdi : option HMDFS_FILE_TYPE) (old_filp new_filp : positive) (case_sense : bool)
    (files : gmap positive F) : Z * gmap positive F :=
  let files := alter (hmdfs_delete_dentry new_name case_sense) new_filp files in
  match files !! new_filp with
  | None => (0, files)
  | Some f =>
      let '(ret, f) := create_dentry new_name new_inode old_inode gdi case_sense f in
      let files := <[new_filp := f]> files in
      if negb (ret =? 0) then (ret, files)
      else (0, alter (hmdfs_delete_dentry old_name case_sense) old_filp files)
  end.

(** * Listing *)

Definition mode_file_type (mode : Z) : option Z :=
  if S_ISDIR mode then Some DT_DIR
  else if S_ISREG mode then Some DT_REG
  else if S_ISLNK mode then Some DT_LNK
  else None.

(** [actor] is dir_emit with the caller's context: name, inode number, type. *)
Context {C : Type} (actor : C -> bytes -> Z -> Z -> bool * C).

(** The slot loop; [inr] is the [goto done] with the position reached. *)
Fixpoint emit_slots (n : nat) (g : hmdfs_dentry_group) (i j : Z) (ctx : C) : C + (C * Z) :=
  match n with
  | O => inl ctx
  | S n =>
      let len := de_namelen (nsl_at g j) in
      if negb (test_bit_le j (dg_bitmap g)) || (len =? 0) then emit_slots n g i (j + 1) ctx
      else match mode_file_type (de_i_mode (nsl_at g j)) with
      | None => emit_slots n g i (j + 1) ctx
      | Some file_type =>
          let '(is_continue, ctx) := actor ctx (name_at g j len) (de_i_ino (nsl_at g j)) file_type in
          if is_continue then emit_slots n g i (j + 1) ctx
          else inr (ctx, hmdfs_set_pos 0 i j)
      end
  end.

(** The group loop: the result of hmdfs_metainfo_read is not looked at. *)
Fixpoint emit_groups (n : nat) (i offset : Z) (buf : hmdfs_dentry_group) f (ctx : C)
    : C + (C * Z) :=
  match n with
  | O => inl ctx
  | S n =>
      let '(_, buf) := cf_read f (get_dentry_group_pos i) buf in
      match emit_slots (Z.to_nat (DENTRY_PER_GROUP - offset)) buf i offset ctx with
      | inl ctx => emit_groups n (i + 1) 0 buf f ctx
      | inr r => inr r
      end
  end.

Record read_result := mk_read {
  rd_ret : Z;
  rd_pos : Z;
  rd_ctx : C;
  rd_cred_overridden : bool
}.

(** [prepare_cred] says whether hmdfs_override_fsids succeeds, [file_name] whether
    the name is non-NULL, [alloc] whether kzalloc succeeds, [handler] is the result
    of hmdfs_get_or_create_dents. *)
Definition read_dentry (prepare_cred file_name alloc : bool) (handler : option F) (pos : Z)
    (ctx : C) : read_result :=
  if negb prepare_cred then mk_read (- ENOMEM) pos ctx false
  else if negb file_name then mk_read (- EINVAL) pos ctx true
  else if negb alloc then mk_read (- ENOMEM) pos ctx true
  else match handler with
  | None => mk_read (- ENOENT) pos ctx true
  | Some f =>
      let group_id := pos_group_id pos in
      let offset := pos_offset pos in
      let group_num := swrap 32 (group_cnt f) in
      let i := swrap 32 group_id in
      match emit_groups (Z.to_nat (group_num - i)) i offset zero_group f ctx with
      | inl ctx => mk_read 0 pos ctx false
      | inr (ctx, pos) => mk_read 1 pos ctx false
      end
  end.
End operations.

Arguments CacheFile : clear implicits.

(** * A file without I/O errors *)

(** [view f] is the list of groups of the file, [held f] the positions locked by
    its owner. *)
Class CacheFileLaws (F : Type) `{CacheFile F} := {
  view : F -> list hmdfs_dentry_group;
  held : F -> gset Z;
  cnt_view f : group_cnt f = u32 (Z.of_nat (length (view f)));
  read_view f (i : nat) g buf :
    view f !! i = Some g ->
    cf_read f (DENTRYGROUP_HEADER + Z.of_nat i * DENTRYGROUP_SIZE) buf = (DENTRYGROUP_SIZE, g);
  write_view f (i : nat) g :
    (i < length (view f))%nat ->
    exists f', cf_write f (DENTRYGROUP_HEADER + Z.of_nat i * DENTRYGROUP_SIZE) g
               = (DENTRYGROUP_SIZE, f') /\
      view f' = <[i := g]> (view f) /\ held f' = held f;
  truncate_view f (n : nat) :
    (length (view f) <= n)%nat -> Z.of_nat n < 2 ^ 32 ->
    exists f', cf_truncate f (DENTRYGROUP_HEADER + Z.of_nat n * DENTRYGROUP_SIZE) = (0, f') /\
      view f' = view f ++ replicate (n - length (view f)) zero_group /\ held f' = held f;
  lock_view f pos :
    exists f', cf_lock f pos = (0, f') /\ view f' = view f /\ held f' = {[pos]} ∪ held f;
  unlock_view f pos :
    view (cf_unlock f pos) = view f /\ held (cf_unlock f pos) = held f ∖ {[pos]}
}.

(** An in-memory implementation. *)
Record memfile := mk_memfile { mf_groups : list hmdfs_dentry_group; mf_locks : gset Z }.

Definition mf_index (pos : Z) : nat := Z.to_nat ((pos - DENTRYGROUP_HEADER) / DENTRYGROUP_SIZE).

#[export] Instance memfile_file : CacheFile memfile := {
  cf_size f := DENTRYGROUP_HEADER + Z.of_nat (length (mf_groups f)) * DENTRYGROUP_SIZE;
  cf_read f pos buf :=
    match mf_groups f !! mf_index pos with
    | Some g => (DENTRYGROUP_SIZE, g)
    | None => (0, buf)
    end;
  cf_write f pos g :=
    if decide (mf_index pos < length (mf_groups f))%nat
    then (DENTRYGROUP_SIZE, mk_memfile (<[mf_index pos := g]> (mf_groups f)) (mf_locks f))
    else (- EIO, f);
  cf_truncate f len :=
    if (len <? 0) || (2 ^ 32 <=? Z.of_nat (mf_index len)) then (- EINVAL, f)
    else (0, mk_memfile (take (mf_index len) (mf_groups f) ++
                         replicate (mf_index len - length (mf_groups f)) zero_group)
                        (mf_locks f));
  cf_lock f pos := (0, mk_memfile (mf_groups f) ({[pos]} ∪ mf_locks f));
  cf_unlock f pos := mk_memfile (mf_groups f) (mf_locks f ∖ {[pos]})
}.

Lemma mf_index_pos (i : nat) :
  mf_index (DENTRYGROUP_HEADER + Z.of_nat i * DENTRYGROUP_SIZE) = i.
Proof.
  unfold mf_index, DENTRYGROUP_HEADER, DENTRYGROUP_SIZE.
  replace (4096 + Z.of_nat i * 4096 - 4096) with (Z.of_nat i * 4096) by lia.
  rewrite Z.div_mul by lia. lia.
Qed.

#[export] Program Instance memfile_laws : CacheFileLaws memfile := {
  view := mf_groups;
  held := mf_locks
}.
Next Obligation.
  intros f. unfold group_cnt, get_dentry_group_cnt. cbn [cf_size memfile_file].
  unfold DENTRYGROUP_HEADER, DENTRYGROUP_SIZE.
  destruct (4096 <=? _) eqn:E; zb; [|lia]. f_equal.
  rewrite Z.add_comm, Z.add_simpl_r. apply Z.div_mul. lia.
Qed.
Next Obligation. intros f i g buf Hi. simpl. by rewrite mf_index_pos, Hi. Qed.
Next Obligation.
  intros f i g Hi. simpl. rewrite mf_index_pos. rewrite decide_True by done. eauto.
Qed.
Next Obligation.
  intros f n Hn Hb. cbn [cf_truncate memfile_file]. rewrite mf_index_pos.
  destruct (_ || _) eqn:E.
  { apply orb_true_iff in E as [E|E]; zb; unfold DENTRYGROUP_HEADER, DENTRYGROUP_SIZE in *; lia. }
  rewrite take_ge by done. eauto.
Qed.
Next Obligation. intros f pos. simpl. eauto. Qed.
Next Obligation. done. Qed.

(** * Where a name may live *)

(** The two blocks of a level, then all blocks of the first [d] levels. *)
Definition level_block (h : Z) (level : nat) : nat :=
  Z.to_nat (get_bucketaddr (Z.of_nat level) (h mod get_bucket_by_level (Z.of_nat level))
            * BUCKET_BLOCKS).
Definition level_blocks (h : Z) (level : nat) : list nat :=
  [level_block h level; S (level_block h level)].
Definition path (h : Z) (d : nat) : list nat := concat (map (level_blocks h) (seq 0 d)).

Definition group_find (g : hmdfs_dentry_group) (h : Z) (name : bytes) : option Z :=
  (find_in_block g h name None true).1.
#[global] Arguments group_find : simpl never.

Definition block_find (gs : list hmdfs_dentry_group) (b : nat) (h : Z) (name : bytes)
    : option Z :=
  match gs !! b with Some g => group_find g h name | None => None end.

(** The first block of [bs] in which [find] finds a slot. *)
Fixpoint lookup_by (find : nat -> option Z) (bs : list nat) : option (nat * Z) :=
  match bs with
  | [] => None
  | b :: bs => match find b with Some p => Some (b, p) | None => lookup_by find bs end
  end.

(** The abstract lookup: the first block of the path with a matching entry. *)
Definition lookup_path (gs : list hmdfs_dentry_group) (h : Z) (name : bytes) (bs : list nat)
    : option (nat * Z) := lookup_by (fun b => block_find gs b h name) bs.
#[global] Arguments block_find : simpl never.

(** The candidate of a case-insensitive lookup in a block that has no exact match, and the
    first one of the path. *)
Definition block_find_ci (gs : list hmdfs_dentry_group) (b : nat) (h : Z) (name : bytes)
    : option Z :=
  match gs !! b with Some g => (find_in_block g h name None false).2 | None => None end.
#[global] Arguments block_find_ci : simpl never.
Definition lookup_ci (gs : list hmdfs_dentry_group) (h : Z) (name : bytes) (bs : list nat)
    : option (nat * Z) := lookup_by (fun b => block_find_ci gs b h name) bs.

(** What hmdfs_find_dentry looks for: an exact match anywhere on the path, and without one, on
    a mount that ignores case, the first entry that differs only in case. *)
Definition lookup_any (cs : bool) (gs : list hmdfs_dentry_group) (h : Z) (name : bytes)
    (bs : list nat) : option (nat * Z) :=
  match lookup_path gs h name bs with
  | Some r => Some r
  | None => if cs then None else lookup_ci gs h name bs
  end.

Definition groups_of_depth (d : nat) : nat := Z.to_nat ((2 ^ Z.of_nat d - 1) * BUCKET_BLOCKS).

(** A file of depth [d]: all blocks of levels below [d], each well formed.  The
    bound keeps the group count within the unsigned int the code uses. *)
Record wf_groups (gs : list hmdfs_dentry_group) (d : nat) : Prop := {
  wfs_depth : (d <= 30)%nat;
  wfs_length : length gs = groups_of_depth d;
  wfs_groups : forall i g, gs !! i = Some g -> exists l, wf_group g l
}.

(** The dentry exactly this name is bound to in a file of depth [d], whose entries were
    hashed with or without regard to case. *)
Definition dentry_lookup (cs : bool) (gs : list hmdfs_dentry_group) (d : nat) (name : bytes)
    : option hmdfs_dentry :=
  match lookup_path gs (hmdfs_dentry_hash name cs) name
          (path (hmdfs_dentry_hash name cs) d) with
  | Some (b, p) => (fun g => nsl_at g p) <$> gs !! b
  | None => None
  end.

(** * Facts about paths *)

Lemma groups_of_depth_Z d :
  (d <= 30)%nat ->
  Z.of_nat (groups_of_depth d) = (2 ^ Z.of_nat d - 1) * 2 /\
  0 < 2 ^ Z.of_nat d <= 2 ^ 30.
Proof.
  intros Hd.
  assert (2 ^ Z.of_nat d <= 2 ^ 30) by (apply Z.pow_le_mono_r; lia).
  assert (0 < 2 ^ Z.of_nat d) by (apply Z.pow_pos_nonneg; lia).
  unfold groups_of_depth, BUCKET_BLOCKS. lia.
Qed.

Lemma level_block_Z h level :
  (level < 63)%nat ->
  Z.of_nat (level_block h level)
  = get_bucketaddr (Z.of_nat level) (h mod get_bucket_by_level (Z.of_nat level)) * BUCKET_BLOCKS.
Proof.
  intros Hl. unfold level_block. rewrite Z2Nat.id; [done|].
  rewrite bucket_by_level_pow by lia.
  assert (0 < 2 ^ Z.of_nat level) by (apply Z.pow_pos_nonneg; lia).
  pose proof (Z.mod_pos_bound h (2 ^ Z.of_nat level)).
  rewrite bucketaddr_eq by lia. unfold BUCKET_BLOCKS. lia.
Qed.

Lemma level_block_inside h level d :
  (level < d <= 30)%nat -> (S (level_block h level) < groups_of_depth d)%nat.
Proof.
  intros Hl. destruct (groups_of_depth_Z d) as [Hg _]; [lia|].
  pose proof (level_block_Z h level ltac:(lia)) as Hb.
  pose proof (bucket_inside (Z.of_nat d - 1) (Z.of_nat level) h) as H.
  rewrite <- Hb in H. rewrite Z.sub_add in H. unfold BUCKET_BLOCKS in H. lia.
Qed.

Lemma level_block_outside h level d :
  (d <= level < 63)%nat -> (d <= 30)%nat ->
  (groups_of_depth d < S (S (level_block h level)))%nat.
Proof.
  intros Hl Hd. destruct (groups_of_depth_Z d) as [Hg _]; [lia|].
  pose proof (level_block_Z h level ltac:(lia)) as Hb.
  destruct d as [|d]; [simpl in Hg; lia|].
  pose proof (bucket_outside (Z.of_nat d) (Z.of_nat level) h) as H.
  rewrite <- Hb in H. replace (Z.of_nat d + 1) with (Z.of_nat (S d)) in H by lia.
  unfold BUCKET_BLOCKS in H. lia.
Qed.

Lemma elem_of_path h d b :
  b ∈ path h d <-> exists level, (level < d)%nat /\ b ∈ level_blocks h level.
Proof.
  unfold path. rewrite list_elem_of_In, in_concat. split.
  - intros (bs&Hbs&Hb). apply in_map_iff in Hbs as (level&<-&Hs).
    apply in_seq in Hs. exists level. rewrite list_elem_of_In. split; [lia|done].
  - intros (level&Hl&Hb). exists (level_blocks h level). rewrite list_elem_of_In in Hb.
    split; [|done]. apply in_map. apply in_seq. lia.
Qed.

Lemma elem_of_level_blocks h d level c :
  (level < d)%nat -> (level_block h level <= c < level_block h level + 2)%nat -> c ∈ path h d.
Proof.
  intros Hl Hc. apply elem_of_path. exists level. split; [done|]. unfold level_blocks.
  assert (c = level_block h level \/ c = S (level_block h level)) as [->| ->] by lia; set_solver.
Qed.

Lemma path_inside h d b : (d <= 30)%nat -> b ∈ path h d -> (b < groups_of_depth d)%nat.
Proof.
  intros Hd (level&Hl&Hb)%elem_of_path.
  pose proof (level_block_inside h level d ltac:(lia)). unfold level_blocks in Hb. set_solver by lia.
Qed.

Lemma path_S h d : path h (S d) = path h d ++ level_blocks h d.
Proof.
  unfold path. by rewrite seq_S, map_app, concat_app.
Qed.

Lemma group_pos_eq (b : nat) :
  Z.of_nat b < 2 ^ 32 ->
  get_dentry_group_pos (Z.of_nat b) = DENTRYGROUP_HEADER + Z.of_nat b * DENTRYGROUP_SIZE.
Proof. intros Hb. unfold get_dentry_group_pos. rewrite wrap_small by lia. lia. Qed.

Lemma lookup_by_app find bs1 bs2 :
  lookup_by find (bs1 ++ bs2)
  = match lookup_by find bs1 with Some r => Some r | None => lookup_by find bs2 end.
Proof. induction bs1 as [|b bs1 IH]; [done|]. cbn. by destruct (find b). Qed.

Lemma lookup_by_None find bs :
  lookup_by find bs = None <-> forall b, b ∈ bs -> find b = None.
Proof.
  induction bs as [|b bs IH]; cbn.
  - split; [|done]. intros _ b Hb. by apply elem_of_nil in Hb.
  - destruct (find b) eqn:Ef.
    + split; [done|]. intros H. rewrite H in Ef; [done|set_solver].
    + rewrite IH. split; [|set_solver]. intros H b' [->|Hb]%elem_of_cons; auto.
Qed.

Lemma lookup_by_Some find bs b p :
  lookup_by find bs = Some (b, p) -> b ∈ bs /\ find b = Some p.
Proof.
  induction bs as [|b' bs IH]; cbn; [done|]. destruct (find b') eqn:Ef.
  - intros [= -> ->]. split; [set_solver|done].
  - intros H. destruct (IH H) as [? ?]. split; [set_solver|done].
Qed.

Section abstract_lookup.
Implicit Types (gs : list hmdfs_dentry_group) (h : Z) (name : bytes) (bs : list nat).

Lemma lookup_path_cons gs h name b bs :
  lookup_path gs h name (b :: bs)
  = match block_find gs b h name with
    | Some p => Some (b, p)
    | None => lookup_path gs h name bs
    end.
Proof. done. Qed.

Lemma lookup_path_app gs h name bs1 bs2 :
  lookup_path gs h name (bs1 ++ bs2)
  = match lookup_path gs h name bs1 with
    | Some r => Some r
    | None => lookup_path gs h name bs2
    end.
Proof. apply lookup_by_app. Qed.

Lemma lookup_path_None gs h name bs :
  lookup_path gs h name bs = None <-> forall b, b ∈ bs -> block_find gs b h name = None.
Proof. apply lookup_by_None. Qed.

Lemma lookup_path_Some gs h name bs b p :
  lookup_path gs h name bs = Some (b, p) -> b ∈ bs /\ block_find gs b h name = Some p.
Proof. apply lookup_by_Some. Qed.

(** Two files that agree on what each block of the path binds the name to. *)
Lemma lookup_path_ext gs gs' h name bs :
  (forall b, b ∈ bs -> block_find gs b h name = block_find gs' b h name) ->
  lookup_path gs h name bs = lookup_path gs' h name bs.
Proof.
  unfold lookup_path. induction bs as [|b bs IH]; intros H; [done|].
  cbn. rewrite (H b) by set_solver. rewrite IH; [done|set_solver].
Qed.

(** The only block that binds the name is found. *)
Lemma lookup_path_unique gs h name bs b p :
  b ∈ bs -> block_find gs b h name = Some p ->
  (forall b', b' ∈ bs -> b' <> b -> block_find gs b' h name = None) ->
  lookup_path gs h name bs = Some (b, p).
Proof.
  intros Hb Hf Hu. destruct (lookup_path gs h name bs) as [[b' p']|] eqn:E.
  - apply lookup_path_Some in E as (Hb'&Hf').
    destruct (decide (b' = b)) as [->|]; [congruence|]. by rewrite Hu in Hf'.
  - rewrite lookup_path_None in E. by rewrite E in Hf.
Qed.

Lemma block_find_Some gs b h name p :
  block_find gs b h name = Some p -> exists g, gs !! b = Some g /\ group_find g h name = Some p.
Proof. unfold block_find. destruct (gs !! b); [eauto|done]. Qed.

Lemma block_find_at gs b g h name :
  gs !! b = Some g -> block_find gs b h name = group_find g h name.
Proof. unfold block_find. by intros ->. Qed.
End abstract_lookup.

Lemma group_find_wf g l h name :
  wf_group g l -> group_find g h name = List.find (match_exact g h name) l.
Proof. intros Hw. unfold group_find. by rewrite (find_in_block_wf g l). Qed.

Lemma group_find_zero h name : group_find zero_group h name = None.
Proof. by rewrite (group_find_wf _ []) by apply zero_group_wf. Qed.

(** * The code on an error-free file *)

Section laws.
Context {F : Type} `{CacheFileLaws F}.
Implicit Types f : F.

Abbreviation gpos b := (get_dentry_group_pos (Z.of_nat b)).

Lemma wf_groups_bound gs d :
  wf_groups gs d -> Z.of_nat (length gs) = (2 ^ Z.of_nat d - 1) * 2 /\
                    Z.of_nat (length gs) < 2 ^ 32 /\ 0 < 2 ^ Z.of_nat d <= 2 ^ 30.
Proof. intros [Hd Hl _]. destruct (groups_of_depth_Z d Hd) as [Hg ?]. rewrite Hl. lia. Qed.

Lemma wf_group_cnt f d : wf_groups (view f) d -> group_cnt f = Z.of_nat (length (view f)).
Proof. intros Hw. rewrite cnt_view. apply wrap_small. pose proof (wf_groups_bound _ _ Hw). lia. Qed.

Lemma wf_max_depth f d : wf_groups (view f) d -> get_max_depth (cf_size f) = Z.of_nat d.
Proof.
  intros Hw. pose proof (wf_group_cnt f d Hw) as Hc. unfold group_cnt in Hc.
  destruct (wf_groups_bound _ _ Hw) as (Hl&_&Hp).
  unfold get_max_depth. rewrite Hc, Hl. unfold BUCKET_BLOCKS. rewrite Z.div_mul by lia.
  rewrite Z.sub_add, (wrap_small 32 (2 ^ Z.of_nat d)) by lia.
  rewrite count_order_pow by lia. apply wrap_small. destruct Hw as [? _ _]. lia.
Qed.

Lemma find_dentry_page_spec f b g :
  Z.of_nat b < 2 ^ 32 -> view f !! b = Some g ->
  exists f', find_dentry_page f (Z.of_nat b) = (Some g, f') /\
    view f' = view f /\ held f' = {[gpos b]} ∪ held f.
Proof.
  intros Hb Hg. unfold find_dentry_page.
  destruct (lock_view f (gpos b)) as (f'&->&Hv&Hh). cbn [Z.eqb negb].
  rewrite (group_pos_eq b) in * by done.
  rewrite (read_view f' b g) by by rewrite Hv. rewrite Z.eqb_refl. exists f'. done.
Qed.

(** The candidate a lookup that ignores case holds on to: the slot, its block's page, which
    stays locked, while the blocks from [b] on are still to be searched. *)
Definition cand_ok (gs : list hmdfs_dentry_group) (b : nat) (ctx : hmdfs_dcache_lookup_ctx)
    (c : option (nat * Z)) : Prop :=
  match c with
  | None => ctx_insense_de ctx = None /\ ctx_insense_page ctx = None
  | Some (k, p) =>
      ctx_insense_de ctx = Some p /\ ctx_insense_bidx ctx = Z.of_nat k /\
      ctx_insense_page ctx = gs !! k /\ is_Some (gs !! k) /\ (k < b)%nat
  end.

Definition locks (c : option (nat * Z)) : gset Z :=
  match c with Some (k, _) => {[gpos k]} | None => ∅ end.

(** The candidate after the blocks [bs], none of which matches exactly. *)
Definition pick (cs : bool) gs h name (c : option (nat * Z)) bs : option (nat * Z) :=
  match c with Some _ => c | None => if cs then None else lookup_ci gs h name bs end.

Lemma pick_app cs gs h name c bs1 bs2 :
  pick cs gs h name c (bs1 ++ bs2) = pick cs gs h name (pick cs gs h name c bs1) bs2.
Proof.
  unfold pick. destruct c; [done|]. destruct cs; [done|]. unfold lookup_ci.
  rewrite lookup_by_app. by destruct (lookup_by _ bs1).
Qed.

Lemma cand_mono gs b b' ctx c : (b <= b')%nat -> cand_ok gs b ctx c -> cand_ok gs b' ctx c.
Proof. destruct c as [[k p]|]; [|done]. intros ? (?&?&?&?&?). repeat split; try done. lia. Qed.

Lemma cand_ctx gs b ctx ctx' c :
  ctx_insense_de ctx' = ctx_insense_de ctx -> ctx_insense_bidx ctx' = ctx_insense_bidx ctx ->
  ctx_insense_page ctx' = ctx_insense_page ctx -> cand_ok gs b ctx c -> cand_ok gs b ctx' c.
Proof. unfold cand_ok. by intros -> -> ->. Qed.

Lemma locks_other gs b ctx c :
  Z.of_nat b < 2 ^ 32 -> cand_ok gs b ctx c -> gpos b ∉ locks c.
Proof.
  destruct c as [[k p]|]; [|set_solver]. intros Hb (_&_&_&_&Hk). cbn.
  rewrite elem_of_singleton, !group_pos_eq by lia. unfold DENTRYGROUP_SIZE. lia.
Qed.

(** Locks added in two steps. *)
Lemma locks_grow (a b c d e h : gset Z) : a ⊆ b ∪ c ∪ d -> d ⊆ e ∪ h -> e ⊆ c -> a ⊆ b ∪ c ∪ h.
Proof. set_solver. Qed.

(** How a search of the blocks from [b] up to [b1] ends. *)
Definition search_end (cs : bool) (b1 : nat) (c : option (nat * Z)) ctx f (bs : list nat)
    (r : option (nat * Z)) (bidx : Z) (page : option hmdfs_dentry_group) ctx' f'
    (c' : option (nat * Z)) : Prop :=
  view f' = view f /\ cand_ok (view f) b1 ctx' c' /\ locks c' ⊆ held f' /\ locks c ⊆ locks c' /\
  ctx_name ctx' = ctx_name ctx /\ ctx_hash ctx' = ctx_hash ctx /\
  match r with
  | Some (b', _) => bidx = Z.of_nat b' /\ page = view f !! b' /\ cand_ok (view f) b' ctx' c' /\
                    gpos b' ∈ held f' /\ held f' ⊆ {[gpos b']} ∪ locks c' ∪ held f
  | None => c' = pick cs (view f) (ctx_hash ctx) (ctx_name ctx) c bs /\ held f' ⊆ locks c' ∪ held f
  end.

(** One block more in front of a search. *)
Lemma search_end_cons cs b n c c1 ctx ctx1 f f2 r bidx pg ctx' f' c' :
  view f2 = view f -> held f2 ⊆ locks c1 ∪ held f -> locks c ⊆ locks c1 ->
  ctx_name ctx1 = ctx_name ctx -> ctx_hash ctx1 = ctx_hash ctx ->
  c1 = pick cs (view f) (ctx_hash ctx) (ctx_name ctx) c [b] ->
  search_end cs (S b + n) c1 ctx1 f2 (seq (S b) n) r bidx pg ctx' f' c' ->
  search_end cs (b + S n) c ctx f (b :: seq (S b) n) r bidx pg ctx' f' c'.
Proof.
  intros Hv Hs1 Hcl En Eh Ep (H'&Hk&Hl'&Hcl'&Hn'&Hh'&Hm). rewrite Hv, En, Eh in *.
  replace (b + S n)%nat with (S b + n)%nat by lia.
  split; [congruence|]. do 2 (split; [done|]). split; [by etrans|]. do 2 (split; [congruence|]).
  destruct r as [[b' p']|].
  - destruct Hm as (?&?&?&?&?). do 4 (split; [done|]). by eapply locks_grow.
  - destruct Hm as [-> Hm]. split; [|clear - Hm Hs1 Hcl'; set_solver].
    change (b :: seq (S b) n) with ([b] ++ seq (S b) n). by rewrite pick_app, <- Ep.
Qed.

(** Blocks that do not match are unlocked again, but for the candidate's; the block of a match
    stays locked and its page is handed out. *)
Lemma in_level_loop_spec cs n b tmp c ctx f :
  cand_ok (view f) b ctx c -> locks c ⊆ held f -> (c = None -> tmp = None) ->
  Z.of_nat (b + n) < 2 ^ 32 ->
  (forall i, (b <= i < b + n)%nat -> exists g l, view f !! i = Some g /\ wf_group g l) ->
  let r := lookup_path (view f) (ctx_hash ctx) (ctx_name ctx) (seq b n) in
  exists bidx ctx' f' c',
    in_level_loop n (Z.of_nat b) tmp ctx cs f = (snd <$> r, bidx, ctx', f') /\
    search_end cs (b + n) c ctx f (seq b n) r bidx (ctx_page ctx') ctx' f' c'.
Proof.
  revert b tmp c ctx f; induction n as [|n IH]; intros b tmp c ctx f Hc Hlk Ht Hb Hgs r.
  { exists (Z.of_nat b), ctx, f, c. split; [done|]. rewrite Nat.add_0_r.
    do 6 (split; [done|]). split; [|set_solver]. destruct c, cs; done. }
  unfold r. clear r. cbn [in_level_loop seq]. rewrite lookup_path_cons.
  destruct (Hgs b) as (g&l&Hg&Hw); [lia|].
  destruct (find_dentry_page_spec f b g) as (f1&->&Hv1&Hh1); [lia|done|].
  rewrite (find_in_block_wf g l) by done.
  rewrite (block_find_at _ _ _ _ _ Hg), (group_find_wf g l) by done.
  pose proof (locks_other _ b ctx c ltac:(lia) Hc) as Hnb.
  destruct (List.find _ l) as [p|] eqn:Ef.
  - eexists _, _, f1, c. split; [done|]. split; [done|].
    split; [apply (cand_mono _ b); [lia|by eapply cand_ctx]|].
    split; [set_solver|]. do 3 (split; [done|]). cbn [ctx_page].
    split; [done|]. split; [done|]. split; [by eapply cand_ctx|]. rewrite Hh1. set_solver.
  - destruct (unlock_view f1 (gpos b)) as [Hv2 Hh2].
    replace (Z.of_nat b + 1) with (Z.of_nat (S b)) by lia.
    assert (forall tmp' c1 ctx1 f2, view f2 = view f -> cand_ok (view f) (S b) ctx1 c1 ->
      locks c1 ⊆ held f2 -> held f2 ⊆ locks c1 ∪ held f -> (c1 = None -> tmp' = None) ->
      locks c ⊆ locks c1 -> ctx_name ctx1 = ctx_name ctx -> ctx_hash ctx1 = ctx_hash ctx ->
      c1 = pick cs (view f) (ctx_hash ctx) (ctx_name ctx) c [b] ->
      let r := lookup_path (view f) (ctx_hash ctx) (ctx_name ctx) (seq (S b) n) in
      exists bidx ctx' f' c',
        in_level_loop n (Z.of_nat (S b)) tmp' ctx1 cs f2 = (snd <$> r, bidx, ctx', f') /\
        search_end cs (b + S n) c ctx f (b :: seq (S b) n) r bidx (ctx_page ctx') ctx' f' c') as Hgo.
    { intros tmp' c1 ctx1 f2 Hv Hc1 Hl1 Hs1 Ht1 Hcl En Eh Ep.
      destruct (IH (S b) tmp' c1 ctx1 f2) as (bidx&ctx'&f'&c'&E&He);
        [by rewrite Hv|done|done|lia|intros; rewrite Hv; apply Hgs; lia|].
      rewrite Hv, En, Eh in E, He. exists bidx, ctx', f', c'. split; [exact E|].
      by eapply search_end_cons. }
    assert (block_find_ci (view f) b (ctx_hash ctx) (ctx_name ctx)
            = insense_spec g (ctx_hash ctx) (ctx_name ctx) None false l) as Eci.
    { unfold block_find_ci. by rewrite Hg, (find_in_block_wf g l). }
    assert (locks c ⊆ held (cf_unlock f1 (gpos b)) /\ held (cf_unlock f1 (gpos b)) ⊆ locks c ∪ held f)
      as [Hl2 Hs2] by (rewrite Hh2, Hh1; set_solver).
    destruct c as [[k q]|].
    + pose proof Hc as (->&_). apply (Hgo _ (Some (k, q))); try done; [congruence|].
      by apply (cand_mono _ b); [lia|].
    + specialize (Ht eq_refl) as ->. pose proof Hc as [-> _]. unfold insense_spec in *.
      destruct cs; [apply (Hgo _ None); try done; congruence|].
      destruct (List.find (match_ci _ _ _) _) as [q|] eqn:Eq.
      * apply (Hgo _ (Some (b, q))); try done; cbn [locks] in *.
        -- cbn. rewrite Hg. repeat split; [eauto|lia].
        -- rewrite Hh1. set_solver.
        -- rewrite Hh1. set_solver.
        -- unfold pick, lookup_ci. cbn. by rewrite Eci.
      * apply (Hgo _ None); try done; try congruence. unfold pick, lookup_ci. cbn. by rewrite Eci.
Qed.

Lemma hmdfs_in_level_spec cs level c ctx f d :
  cand_ok (view f) (level_block (ctx_hash ctx) level) ctx c -> locks c ⊆ held f ->
  wf_groups (view f) d -> (level < d)%nat ->
  let bs := level_blocks (ctx_hash ctx) level in
  let r := lookup_path (view f) (ctx_hash ctx) (ctx_name ctx) bs in
  exists ctx' f' c',
    hmdfs_in_level (Z.of_nat level) ctx cs f = (snd <$> r, ctx', f') /\
    search_end cs (level_block (ctx_hash ctx) level + 2) c ctx f bs r (ctx_bidx ctx') (ctx_page ctx') ctx' f' c'.
Proof.
  intros Hc Hlk Hw Hl bs r. pose proof (wf_groups_bound _ _ Hw) as (_&Hb&_).
  destruct Hw as [Hd Hlen Hgs].
  pose proof (level_block_inside (ctx_hash ctx) level d ltac:(lia)) as Hin.
  unfold hmdfs_in_level. rewrite <- level_block_Z by lia.
  rewrite bucket_by_level_pow by lia.
  assert (0 < 2 ^ Z.of_nat level) by (apply Z.pow_pos_nonneg; lia).
  destruct (2 ^ Z.of_nat level =? 0) eqn:E; zb; [lia|].
  rewrite wrap_small by lia. change (Z.to_nat BUCKET_BLOCKS) with 2%nat.
  destruct (in_level_loop_spec cs 2 (level_block (ctx_hash ctx) level) None c ctx f)
    as (bidx&ctx'&f'&c'&E1&Hv&Hk&Hl'&Hcl&Hn&Hh&Hm); [done|done|done|lia| |].
  { intros i Hi. destruct (lookup_lt_is_Some_2 (view f) i) as [g Hg]; [lia|].
    destruct (Hgs i g Hg) as [l Hl']. eauto. }
  rewrite E1. change (seq (level_block (ctx_hash ctx) level) 2) with bs in *. fold r in Hm |- *.
  eexists _, f', c'. split; [done|]. split; [done|]. split; [by eapply cand_ctx|].
  do 4 (split; [done|]). cbn [ctx_bidx ctx_page].
  destruct r as [[b' p']|] eqn:Er; [|done]. destruct Hm as (->&?&?&?&?).
  split; [|split; [done|split; [by eapply cand_ctx|done]]].
  apply lookup_path_Some in Er as [Hb' _]. apply wrap_small.
  unfold bs, level_blocks in Hb'. apply elem_of_cons in Hb' as [->|Hb']; [lia|].
  apply list_elem_of_singleton in Hb' as ->. lia.
Qed.

(** The blocks of a level lie behind those of the levels before it. *)
Lemma level_blocks_ascend h level d :
  (S level < d <= 30)%nat -> (level_block h level + 2 <= level_block h (S level))%nat.
Proof.
  intros Hl. pose proof (level_block_inside h level (S level) ltac:(lia)).
  pose proof (groups_of_depth_Z (S level) ltac:(lia)) as [Hg Hp].
  pose proof (level_block_Z h (S level) ltac:(lia)) as Hz. rewrite bucket_by_level_pow in Hz by lia.
  pose proof (Z.mod_pos_bound h (2 ^ Z.of_nat (S level)) ltac:(lia)).
  rewrite bucketaddr_eq in Hz by lia. unfold BUCKET_BLOCKS in Hz. lia.
Qed.

(** What is locked and handed out when the whole search is over; [h0] was locked before. *)
Definition find_end (h0 : gset Z) (r : option (nat * Z)) gs ctx' f' : Prop :=
  view f' = gs /\
  match r with
  | Some (b, _) => ctx_bidx ctx' = Z.of_nat b /\ ctx_page ctx' = gs !! b /\
                   gpos b ∈ held f' /\ held f' ⊆ {[gpos b]} ∪ h0
  | None => held f' ⊆ h0
  end.

Lemma find_levels_spec cs h0 n level c ctx f d :
  ((0 < n)%nat -> cand_ok (view f) (level_block (ctx_hash ctx) level) ctx c) ->
  (exists b, cand_ok (view f) b ctx c) -> locks c ⊆ held f -> held f ⊆ locks c ∪ h0 ->
  wf_groups (view f) d -> (level + n = d)%nat ->
  let bs := concat (map (level_blocks (ctx_hash ctx)) (seq level n)) in
  let r := match lookup_path (view f) (ctx_hash ctx) (ctx_name ctx) bs with
           | Some r => Some r
           | None => pick cs (view f) (ctx_hash ctx) (ctx_name ctx) c bs
           end in
  exists ctx' f',
    find_levels n (Z.of_nat level) ctx cs f = (snd <$> r, ctx', f') /\ find_end h0 r (view f) ctx' f'.
Proof.
  revert level c ctx f; induction n as [|n IH]; intros level c ctx f Hc [b0 Hc0] Hlk Hh0 Hw Hl bs r.
  { unfold r, bs. cbn [find_levels seq map concat].
    change (lookup_path (view f) (ctx_hash ctx) (ctx_name ctx) []) with (@None (nat * Z)). cbn iota.
    destruct c as [[k p]|]; cbn [cand_ok locks] in *.
    - destruct Hc0 as (->&Hb&Hp&_&_). eexists _, f. split; [done|]. split; [done|].
      cbn [ctx_bidx ctx_page]. split; [done|]. split; [done|]. set_solver.
    - destruct Hc0 as [-> _]. exists ctx, f. unfold pick, lookup_ci. cbn.
      destruct cs; (split; [done|]); (split; [done|]); set_solver. }
  unfold r, bs. clear r bs. cbn [find_levels seq map concat]. rewrite lookup_path_app, pick_app.
  destruct (hmdfs_in_level_spec cs level c ctx f d) as (ctx1&f1&c1&->&Hv&Hk&Hl1&Hcl&Hn&Hh&Hm);
    [apply Hc; lia|done|done|lia|].
  pose proof (wf_groups_bound _ _ Hw) as (_&Hb32&_).
  destruct (lookup_path (view f) _ _ (level_blocks _ level)) as [[b p]|] eqn:Er.
  - cbn [fmap option_fmap option_map snd]. destruct Hm as (Hbi&Hpg&Hkb&Hg1&Hg2).
    apply lookup_path_Some in Er as [_ (g&Hg&_)%block_find_Some].
    apply lookup_lt_Some in Hg.
    pose proof (locks_other _ b ctx1 c1 ltac:(lia) Hkb) as Hnb.
    destruct c1 as [[k q]|]; cbn [cand_ok locks] in *.
    + destruct Hk as (_&Hib&->&[gk ->]&_). destruct (unlock_view f1 (gpos k)) as [Hv2 Hh2].
      eexists _, _. split; [done|]. rewrite Hib. split; [congruence|]. cbn [ctx_bidx ctx_page].
      split; [done|]. split; [done|]. rewrite Hh2. clear - Hg1 Hg2 Hnb Hcl Hh0; set_solver.
    + destruct Hk as [_ ->]. eexists _, _. split; [done|]. split; [done|].
      split; [done|]. split; [done|]. split; [done|]. clear - Hg2 Hcl Hh0; set_solver.
  - cbn [fmap option_fmap option_map]. destruct Hm as [Hc1 Hs1].
    destruct (IH (S level) c1 ctx1 f1) as (ctx2&f2&E&Hend).
    + intros Hn0. rewrite Hv, Hh. eapply cand_mono; [|exact Hk].
      apply (level_blocks_ascend _ _ d). destruct Hw. lia.
    + eexists. rewrite Hv. exact Hk.
    + done.
    + clear - Hs1 Hcl Hh0; set_solver.
    + by rewrite Hv.
    + lia.
    + replace (Z.of_nat level + 1) with (Z.of_nat (S level)) by lia.
      rewrite Hn, Hh, Hv in *. rewrite <- Hc1. exists ctx2, f2. done.
Qed.

(** hmdfs_find_dentry computes the abstract lookup. *)
Lemma find_dentry_spec f cs name d :
  wf_groups (view f) d ->
  let h := hmdfs_dentry_hash name cs in
  let r := lookup_any cs (view f) h name (path h d) in
  exists ctx f',
    hmdfs_find_dentry (hmdfs_init_dcache_lookup_ctx name) cs f = (snd <$> r, ctx, f') /\
    find_end (held f) r (view f) ctx f'.
Proof.
  intros Hw h r. unfold hmdfs_find_dentry. rewrite (wf_max_depth f d Hw), Nat2Z.id.
  unfold hmdfs_init_dcache_lookup_ctx. cbn [ctx_name ctx_bidx ctx_page ctx_insense_de
    ctx_insense_bidx ctx_insense_page].
  apply (find_levels_spec cs (held f) d 0 None (mk_ctx name h 0 None None 0 None) f d);
    [done|by exists 0%nat|set_solver|set_solver|done|done].
Qed.
End laws.

(** * Adding an entry to one block *)

Section add_entry.
Context (cs : bool) (gs : list hmdfs_dentry_group) (d : nat) (Hgs : wf_groups gs d).
Context (name : bytes) (child ino : inode) (gdi : option HMDFS_FILE_TYPE) (b : nat)
  (g : hmdfs_dentry_group).
Let h := hmdfs_dentry_hash name cs.
Let p := room_for_filename (dg_bitmap g) (get_dentry_slots (Z.of_nat (length name)))
           DENTRY_PER_GROUP.
Let g' := update_dentry g name child ino gdi h p.
Context (Hname : (0 < length name)%nat) (Hg : gs !! b = Some g)
  (Hroom : p < DENTRY_PER_GROUP).

Lemma add_ready :
  0 <= p /\ p + get_dentry_slots (Z.of_nat (length name)) <= DENTRY_PER_GROUP /\
  (forall i, p <= i < p + get_dentry_slots (Z.of_nat (length name)) ->
             Z.testbit (dg_bitmap g) i = false).
Proof using Hname Hroom.
  clear - Hname Hroom. apply room_found; [|done|done]. pose proof (slots_pos (Z.of_nat (length name))). lia.
Qed.

Lemma add_wf : wf_groups (<[b := g']> gs) d.
Proof using Hgs Hg Hname Hroom.
  destruct Hgs as [Hd Hl Hw]. split; [done|by rewrite length_insert|].
  intros i g0 Hi. destruct (Hw b g Hg) as [l Hwg]. destruct add_ready as (H1&H2&H3).
  destruct (decide (i = b)) as [->|].
  - rewrite list_lookup_insert_eq in Hi by (by eapply lookup_lt_Some). simplify_eq.
    destruct (update_wf g l Hwg name child ino gdi h p) as (l1&l2&_&?); eauto.
  - rewrite list_lookup_insert_ne in Hi by done. eauto.
Qed.

(** The new entry is found in its block when no entry there had the name. *)
Lemma add_find_new :
  group_find g h name = None ->
  group_find g' h name = Some p /\
  nsl_at g' p = dentry_of name child ino gdi h (de_reserved (nsl_at g p)).
Proof using Hgs Hg Hname Hroom.
  intros Hn. destruct Hgs as [_ _ Hw]. destruct (Hw b g Hg) as [l Hwg].
  destruct add_ready as (H1&H2&H3).
  destruct (update_wf g l Hwg name child ino gdi h p) as (l1&l2&El&Hwg'); [done..|].
  split; [|by apply update_nsl_new with (l := l)].
  rewrite (group_find_wf g l) in Hn by done. rewrite find_none_iff in Hn.
  unfold g'. rewrite (group_find_wf _ (l1 ++ p :: l2)) by done.
  apply find_split. exists l1, l2. split; [done|]. split.
  - rewrite (update_match_new g l) by done. rewrite beqb_refl, andb_true_r.
    apply Z.eqb_eq. apply wrap_small. apply dentry_hash_range.
  - intros y Hy. destruct (update_match_old g l Hwg name child ino gdi h p Hname H1 H2 H3 h name y)
      as [-> _]; [set_solver|]. apply Hn. set_solver.
Qed.

(** Every other name keeps its entry, unchanged. *)
Lemma add_find_old h' n :
  n <> name ->
  group_find g' h' n = group_find g h' n /\
  forall q, group_find g h' n = Some q -> nsl_at g' q = nsl_at g q.
Proof using Hgs Hg Hname Hroom.
  intros Hne. destruct Hgs as [_ _ Hw]. destruct (Hw b g Hg) as [l Hwg].
  destruct add_ready as (H1&H2&H3).
  destruct (update_wf g l Hwg name child ino gdi h p) as (l1&l2&El&Hwg'); [done..|].
  assert (forall x, x ∈ l -> match_exact g' h' n x = match_exact g h' n x) as Hold.
  { intros x Hx. by destruct (update_match_old g l Hwg name child ino gdi h p Hname H1 H2 H3 h' n x). }
  rewrite (group_find_wf g l) by done.
  unfold g'. rewrite (group_find_wf _ (l1 ++ p :: l2)) by done. fold g'. split.
  - rewrite El, !find_app. cbn [List.find].
    rewrite (find_ext (match_exact g' h' n) (match_exact g h' n) l1) by (intros; apply Hold; set_solver).
    rewrite (find_ext (match_exact g' h' n) (match_exact g h' n) l2) by (intros; apply Hold; set_solver).
    unfold g'. rewrite (update_match_new g l) by done.
    destruct (beqb n name) eqn:E; [by apply beqb_eq in E|]. by rewrite andb_false_r.
  - intros q (k1&k2&Ek&_&_)%find_split. destruct Hwg as [Hn Hf Hl].
    destruct (lay_elem _ _ _ _ q Hl) as (Hq0&Hq1&Hq2&Hq3); [rewrite Ek; set_solver|].
    pose proof (slots_pos (glen g q)).
    apply update_nsl_old with (l := l); try done.
    destruct (decide (q < p)); [by left|].
    destruct (decide (p + get_dentry_slots (Z.of_nat (length name)) <= q)); [by right|].
    specialize (H3 q ltac:(lia)). by rewrite Hq3 in H3 by lia.
Qed.

Lemma add_lookup_new d' :
  b ∈ path h d' ->
  lookup_path gs h name (path h d') = None ->
  lookup_path (<[b := g']> gs) h name (path h d') = Some (b, p).
Proof using Hgs Hg Hname Hroom.
  intros Hb Hn. rewrite lookup_path_None in Hn.
  assert (<[b := g']> gs !! b = Some g') as Hb'
    by (apply list_lookup_insert_eq; by eapply lookup_lt_Some).
  apply lookup_path_unique; [done| |].
  - rewrite (block_find_at _ _ _ _ _ Hb'). apply add_find_new.
    rewrite <- (block_find_at _ _ _ _ _ Hg). by apply Hn.
  - intros c Hc Hne. rewrite <- (Hn c Hc). unfold block_find.
    by rewrite list_lookup_insert_ne.
Qed.

Lemma add_dentry_lookup_old d' n :
  n <> name -> dentry_lookup cs (<[b := g']> gs) d' n = dentry_lookup cs gs d' n.
Proof using Hgs Hg Hname Hroom.
  intros Hne. unfold dentry_lookup. set (h' := hmdfs_dentry_hash n cs).
  destruct (add_find_old h' n Hne) as [Hf Hde].
  assert (<[b := g']> gs !! b = Some g') as Hb'
    by (apply list_lookup_insert_eq; by eapply lookup_lt_Some).
  rewrite (lookup_path_ext (<[b := g']> gs) gs).
  - destruct (lookup_path gs h' n (path h' d')) as [[c q]|] eqn:E; [|done].
    destruct (decide (c = b)) as [->|]; [|by rewrite list_lookup_insert_ne].
    rewrite Hb', Hg. cbn. f_equal.
    apply lookup_path_Some in E as [_ E]. rewrite (block_find_at _ _ _ _ _ Hg) in E.
    by apply Hde.
  - intros c _. destruct (decide (c = b)) as [->|].
    + by rewrite (block_find_at _ _ _ _ _ Hb'), (block_find_at _ _ _ _ _ Hg).
    + unfold block_find. by rewrite list_lookup_insert_ne.
Qed.
End add_entry.

(** Extending a file by the groups of one more level adds no entry. *)
Section extend.
Context (gs : list hmdfs_dentry_group) (d : nat) (Hgs : wf_groups gs d) (Hd : (d < 30)%nat).
Let gs' := gs ++ replicate (groups_of_depth (S d) - length gs) zero_group.

Lemma extend_length : (length gs <= groups_of_depth (S d))%nat.
Proof using Hgs Hd.
  destruct Hgs as [? -> _]. destruct (groups_of_depth_Z d); [lia|].
  destruct (groups_of_depth_Z (S d)); [lia|].
  rewrite Nat2Z.inj_succ, Z.pow_succ_r in * by lia. lia.
Qed.

Lemma extend_wf : wf_groups gs' (S d).
Proof using Hgs Hd.
  pose proof extend_length. destruct Hgs as [_ _ Hw]. split; [lia| |].
  - unfold gs'. rewrite length_app, length_replicate. lia.
  - intros i g. unfold gs'. intros [Hi|[_ Hi]]%lookup_app_Some; [eauto|].
    apply lookup_replicate in Hi as [-> _]. exists []. apply zero_group_wf.
Qed.

Lemma extend_block_find b h name : block_find gs' b h name = block_find gs b h name.
Proof using.
  unfold block_find, gs'. destruct (gs !! b) as [g|] eqn:E.
  - by rewrite (lookup_app_l_Some _ _ _ _ E).
  - apply lookup_ge_None in E. rewrite lookup_app_r by done.
    destruct (replicate _ zero_group !! (b - length gs)%nat) as [g|] eqn:F; [|done].
    apply lookup_replicate in F as [-> _]. apply group_find_zero.
Qed.

Lemma new_level_past h : (length gs <= level_block h d)%nat.
Proof using Hgs Hd.
  destruct Hgs as [_ Hl _]. destruct (groups_of_depth_Z d) as [Hg Hp]; [lia|].
  pose proof (level_block_Z h d ltac:(lia)) as Hz.
  rewrite bucket_by_level_pow in Hz by lia.
  pose proof (Z.mod_pos_bound h (2 ^ Z.of_nat d) ltac:(lia)).
  rewrite bucketaddr_eq in Hz by lia. unfold BUCKET_BLOCKS in Hz. lia.
Qed.

Lemma extend_lookup h name :
  lookup_path gs' h name (path h (S d)) = lookup_path gs h name (path h d).
Proof using Hgs Hd.
  rewrite path_S, lookup_path_app.
  rewrite (lookup_path_ext gs' gs _ _ (path h d)) by (intros; apply extend_block_find).
  destruct (lookup_path gs h name (path h d)); [done|].
  apply lookup_path_None. intros b Hb. rewrite extend_block_find. unfold block_find.
  destruct (gs !! b) as [g|] eqn:E; [|done]. exfalso.
  apply lookup_lt_Some in E. pose proof (new_level_past h).
  unfold level_blocks in Hb. apply elem_of_cons in Hb as [->|Hb]; [lia|].
  apply list_elem_of_singleton in Hb as ->. lia.
Qed.

(** The block a hash selects in the new level is a fresh one. *)
Lemma new_level_empty h : gs' !! level_block h d = Some zero_group.
Proof using Hgs Hd.
  pose proof extend_length. pose proof (level_block_inside h d (S d) ltac:(lia)).
  pose proof (new_level_past h). unfold gs'. rewrite lookup_app_r by done.
  apply lookup_replicate. split; [done|lia].
Qed.

Lemma extend_dentry_lookup cs name : dentry_lookup cs gs' (S d) name = dentry_lookup cs gs d name.
Proof using Hgs Hd.
  unfold dentry_lookup. rewrite extend_lookup.
  destruct (lookup_path gs _ name _) as [[b p]|] eqn:E; [|done].
  apply lookup_path_Some in E as [_ (g&Hg&_)%block_find_Some].
  unfold gs'. by rewrite (lookup_app_l_Some _ _ _ _ Hg), Hg.
Qed.
End extend.

(** * Creation on an error-free file *)

(** The position kernel_read or kernel_write leaves is not the group's any more. *)
Lemma gpos_next (b : nat) :
  Z.of_nat b < 2 ^ 32 ->
  get_dentry_group_pos (Z.of_nat b)
  <> advance (get_dentry_group_pos (Z.of_nat b)) DENTRYGROUP_SIZE.
Proof. intros Hb. rewrite group_pos_eq by done. unfold advance, DENTRYGROUP_SIZE. simpl. lia. Qed.

Section creation.
Context {F : Type} `{CacheFileLaws F}.
Implicit Types f : F.
Context (cs : bool) (name : bytes) (Hname : (0 < length name <= 640)%nat).

Abbreviation gpos b := (get_dentry_group_pos (Z.of_nat b)).
Abbreviation nslots := (get_dentry_slots (Z.of_nat (length name))).
Abbreviation room g := (room_for_filename (dg_bitmap g) nslots DENTRY_PER_GROUP).

Lemma room_empty : room zero_group < DENTRY_PER_GROUP.
Proof using Hname.
  cbn [dg_bitmap zero_group]. rewrite room_zero; [done|].
  pose proof (slots_pos (Z.of_nat (length name))).
  pose proof (slots_le (Z.of_nat (length name)) 80). unfold DENTRY_PER_GROUP. lia.
Qed.

Lemma create_blocks_spec n b f :
  Z.of_nat (b + n) < 2 ^ 32 -> (b + n <= length (view f))%nat ->
  (exists c g f', create_blocks n (Z.of_nat b) name f = BlockAdd (Z.of_nat c) (room g) g 0 f' /\
     (b <= c < b + n)%nat /\ view f !! c = Some g /\ room g < DENTRY_PER_GROUP /\
     view f' = view f /\ gpos c ∈ held f') \/
  (exists f', create_blocks n (Z.of_nat b) name f = BlockNone f' /\ view f' = view f /\
     forall i g, (b <= i < b + n)%nat -> view f !! i = Some g -> DENTRY_PER_GROUP <= room g).
Proof.
  revert b f; induction n as [|n IH]; intros b f Hb Hl.
  { right. exists f. split; [done|]. split; [done|]. intros; lia. }
  cbn [create_blocks].
  destruct (lookup_lt_is_Some_2 (view f) b) as [g Hg]; [lia|].
  destruct (lock_view f (gpos b)) as (f1&->&Hv1&Hh1).
  pose proof (group_pos_eq b ltac:(lia)) as Ep.
  assert (cf_read f1 (gpos b) zero_group = (DENTRYGROUP_SIZE, g)) as ->
    by (rewrite Ep; apply read_view; by rewrite Hv1).
  rewrite Z.eqb_refl. cbn [Z.eqb negb].
  destruct (room g <? DENTRY_PER_GROUP) eqn:E; zb.
  - left. exists b, g, f1. split; [done|]. split; [lia|]. split; [done|].
    split; [done|]. split; [done|]. rewrite Hh1. set_solver.
  - destruct (unlock_view f1 (advance (gpos b) DENTRYGROUP_SIZE)) as [Hv2 Hh2].
    replace (Z.of_nat b + 1) with (Z.of_nat (S b)) by lia.
    destruct (IH (S b) (cf_unlock f1 (advance (gpos b) DENTRYGROUP_SIZE)))
      as [(c&g'&f'&E1&Hc&Hg'&Hr&Hv&Hh)|(f'&E1&Hv&Hfull)]; [lia|rewrite Hv2, Hv1; lia| |].
    + left. rewrite Hv2, Hv1 in *. exists c, g', f'. repeat (split; [done || lia|]). done.
    + right. rewrite Hv2, Hv1 in *. exists f'. split; [done|]. split; [done|].
      intros i g0 Hi Hgi. destruct (decide (i = b)) as [->|]; [by simplify_eq|].
      apply (Hfull i); [lia|done].
Qed.

(** Where create_dentry puts the entry: in a block of the path of the existing
    levels, or in one of the next level after adding it to the file. *)
Definition created (child ino : inode) (gdi : option HMDFS_FILE_TYPE)
    (gs : list hmdfs_dentry_group) (d : nat) (f' : F) : Prop :=
  let h := hmdfs_dentry_hash name cs in
  exists gs0 d' b g,
    ((gs0 = gs /\ d' = d) \/
     (d' = S d /\ gs0 = gs ++ replicate (groups_of_depth (S d) - length gs) zero_group)) /\
    b ∈ path h d' /\ gs0 !! b = Some g /\ room g < DENTRY_PER_GROUP /\
    view f' = <[b := update_dentry g name child ino gdi h (room g)]> gs0 /\
    gpos b ∈ held f'.

Lemma add_block_spec child ino gdi h b g f :
  Z.of_nat b < 2 ^ 32 -> view f !! b = Some g -> gpos b ∈ held f ->
  exists f',
    (let '(size, f') := cf_write f (gpos b) (update_dentry g name child ino gdi h (room g)) in
     (0, cf_unlock f' (advance (gpos b) size))) = (0, f') /\
    view f' = <[b := update_dentry g name child ino gdi h (room g)]> (view f) /\
    gpos b ∈ held f'.
Proof.
  intros Hb Hg Hh. pose proof (group_pos_eq b Hb) as Ep.
  destruct (write_view f b (update_dentry g name child ino gdi h (room g)))
    as (f1&E&Hv&Hh1); [by eapply lookup_lt_Some|].
  rewrite <- Ep in E. rewrite E.
  destruct (unlock_view f1 (advance (gpos b) DENTRYGROUP_SIZE)) as [Hv2 Hh2].
  eexists. split; [done|]. split; [congruence|].
  rewrite Hh2, Hh1. pose proof (gpos_next b Hb). set_solver.
Qed.

(** Adding the next level always makes room: its blocks are empty. *)
Lemma create_new_level child ino gdi f d :
  let h := hmdfs_dentry_hash name cs in
  wf_groups (view f) d -> (d < 30)%nat ->
  exists f1, cf_truncate f (get_dcache_file_size (Z.of_nat d)) = (0, f1) /\
  exists c g f2, create_blocks 2 (Z.of_nat (level_block h d)) name f1
                 = BlockAdd (Z.of_nat c) (room g) g 0 f2 /\
  exists f3,
    (let '(size, f') := cf_write f2 (gpos c) (update_dentry g name child ino gdi h (room g)) in
     (0, cf_unlock f' (advance (gpos c) size))) = (0, f3) /\
    created child ino gdi (view f) d f3.
Proof using Hname.
  intros h Hw Hd. pose proof (wf_groups_bound _ _ Hw) as (Hlen2&Hb32&Hp30).
  pose proof (level_block_inside h d (S d) ltac:(lia)) as Hin.
  destruct (groups_of_depth_Z (S d)) as [HgS HpS]; [lia|].
  set (b := level_block h d) in *.
  pose proof (extend_length (view f) d Hw Hd) as Hext.
  destruct (truncate_view f (groups_of_depth (S d))) as (f1&E1&Hv1&Hh1); [done|lia|].
  assert (get_dcache_file_size (Z.of_nat d)
          = DENTRYGROUP_HEADER + Z.of_nat (groups_of_depth (S d)) * DENTRYGROUP_SIZE) as ->.
  { rewrite dcache_file_size_eq by lia. rewrite HgS.
    by replace (Z.of_nat (S d)) with (Z.of_nat d + 1) by lia. }
  exists f1. split; [done|].
  pose proof (new_level_empty (view f) d Hw Hd h) as Hz. fold b in Hz. rewrite <- Hv1 in Hz.
  pose proof room_empty as Hr0.
  destruct (create_blocks_spec 2 b f1) as
    [(c&g&f2&E2&Hc&Hg&Hr&Hv2&Hh2)|(f2&E2&Hv2&Hfull)];
    [lia|rewrite Hv1, length_app, length_replicate; lia| |].
  2:{ specialize (Hfull b zero_group ltac:(lia) Hz). lia. }
  exists c, g, f2. split; [done|].
  destruct (add_block_spec child ino gdi h c g f2) as (f3&E3&Hv3&Hh3); [lia|congruence|done|].
  exists f3. split; [exact E3|].
  exists (view f ++ replicate (groups_of_depth (S d) - length (view f)) zero_group), (S d), c, g.
  split; [by right|]. split; [apply (elem_of_level_blocks h (S d) d); [lia|exact Hc]|].
  rewrite <- Hv1. split; [done|]. split; [done|]. split; [|done]. by rewrite Hv3, Hv2.
Qed.

Lemma create_levels_spec fuel level child ino gdi f d :
  wf_groups (view f) d -> (d < 30)%nat -> (level <= d)%nat -> (d - level < fuel)%nat ->
  exists f',
    create_levels fuel (Z.of_nat level) name child ino gdi (hmdfs_dentry_hash name cs) f
    = (0, f') /\ created child ino gdi (view f) d f'.
Proof using Hname.
  set (h := hmdfs_dentry_hash name cs).
  revert level f; induction fuel as [|fuel IH]; intros level f Hw Hd Hl Hf; [lia|].
  pose proof (wf_groups_bound _ _ Hw) as (Hlen2&Hb32&Hp30).
  cbn [create_levels]. destruct (Z.of_nat level =? MAX_BUCKET_LEVEL) eqn:E; zb.
  { unfold MAX_BUCKET_LEVEL in E. lia. }
  rewrite (Z.mul_comm BUCKET_BLOCKS), <- level_block_Z by lia.
  pose proof (level_block_inside h level (S d) ltac:(lia)) as Hin.
  destruct (groups_of_depth_Z (S d)) as [HgS HpS]; [lia|].
  rewrite (wrap_small 64 (Z.of_nat (level_block h level))) by lia.
  rewrite (wrap_small 64) by (unfold BUCKET_BLOCKS; lia).
  rewrite (wf_group_cnt f d) by done. change (Z.to_nat BUCKET_BLOCKS) with 2%nat.
  destruct (Z.of_nat (length (view f)) <? Z.of_nat (level_block h level) + BUCKET_BLOCKS) eqn:Ec;
    zb; unfold BUCKET_BLOCKS in Ec.
  - assert (level = d) as ->.
    { destruct (decide (level < d)%nat); [|lia].
      pose proof (level_block_inside h level d ltac:(destruct Hw; lia)) as Hin2.
      destruct Hw as [_ Hlen _]. lia. }
    destruct (create_new_level child ino gdi f d Hw Hd) as (f1&->&c&g&f2&E2&f3&E3&Hc).
    cbn [Z.eqb negb]. fold h in E2, E3. rewrite E2. exists f3. split; [exact E3|done].
  - cbn [Z.eqb negb].
    assert (level < d)%nat as Hlt.
    { destruct (decide (level < d)%nat); [done|].
      pose proof (level_block_outside h level d ltac:(lia) ltac:(lia)) as Ho.
      destruct Hw as [_ Hlen _]. lia. }
    destruct (create_blocks_spec 2 (level_block h level) f) as
      [(c&g&f2&E2&Hc&Hg&Hr&Hv2&Hh2)|(f2&E2&Hv2&Hfull)]; [lia|lia| |]; rewrite E2.
    + destruct (add_block_spec child ino gdi h c g f2) as (f3&E3&Hv3&Hh3);
        [lia|congruence|done|].
      exists f3. split; [exact E3|]. exists (view f), d, c, g.
      split; [by left|]. split; [apply (elem_of_level_blocks h d level); [lia|exact Hc]|].
      split; [done|]. split; [done|]. split; [|done]. by rewrite Hv3, Hv2.
    + replace (Z.of_nat level + 1) with (Z.of_nat (S level)) by lia.
      destruct (IH (S level) f2) as (f3&E3&Hcr); [by rewrite Hv2|done|lia|lia|].
      exists f3. split; [done|]. by rewrite Hv2 in Hcr.
Qed.

Lemma create_dentry_spec child ino gdi f d :
  wf_groups (view f) d -> (d < 30)%nat ->
  exists f', create_dentry name child ino gdi cs f = (0, f') /\
             created child ino gdi (view f) d f'.
Proof using Hname.
  intros Hw Hd. apply (create_levels_spec 64 0); [done|done|lia|lia].
Qed.
End creation.

(** * Removing an entry from its block *)

Section remove_entry.
Context (cs : bool) (gs : list hmdfs_dentry_group) (d : nat) (Hgs : wf_groups gs d).
Context (name : bytes) (b : nat) (g : hmdfs_dentry_group) (p : Z).
Let h := hmdfs_dentry_hash name cs.
Let g' := delete_slots g p.
Context (Hg : gs !! b = Some g) (Hp : group_find g h name = Some p).

Lemma remove_split :
  exists l1 l2, wf_group g (l1 ++ p :: l2) /\ wf_group g' (l1 ++ l2) /\
    match_exact g h name p = true /\ (forall x, x ∈ l1 -> match_exact g h name x = false).
Proof using Hgs Hg Hp.
  destruct Hgs as [_ _ Hw]. destruct (Hw b g Hg) as [l Hwg].
  rewrite (group_find_wf g l) in Hp by done.
  apply find_split in Hp as (l1&l2&->&Hm&Hn). exists l1, l2.
  split; [done|]. split; [by apply delete_wf|done].
Qed.

Lemma remove_wf : wf_groups (<[b := g']> gs) d.
Proof using Hgs Hg Hp.
  destruct remove_split as (l1&l2&_&Hw'&_). destruct Hgs as [Hd Hl Hw].
  split; [done|by rewrite length_insert|]. intros i g0 Hi.
  destruct (decide (i = b)) as [->|].
  - rewrite list_lookup_insert_eq in Hi by (by eapply lookup_lt_Some). simplify_eq. eauto.
  - rewrite list_lookup_insert_ne in Hi by done. eauto.
Qed.

Lemma remove_find_old h' n : n <> name -> group_find g' h' n = group_find g h' n.
Proof using Hgs Hg Hp.
  intros Hne. destruct remove_split as (l1&l2&Hw&Hw'&Hm&_).
  rewrite (group_find_wf g' (l1 ++ l2)), (group_find_wf g (l1 ++ p :: l2)) by done.
  rewrite !find_app. cbn [List.find].
  rewrite (find_ext (match_exact g' h' n) (match_exact g h' n) l1) by done.
  rewrite (find_ext (match_exact g' h' n) (match_exact g h' n) l2) by done.
  destruct (match_exact g h' n p) eqn:E; [|done]. exfalso. apply Hne.
  unfold match_exact in E, Hm. zb.
  match goal with H1 : beqb n _ = true, H2 : beqb name _ = true |- _ =>
    apply beqb_eq in H1, H2; congruence end.
Qed.

Lemma remove_dentry_lookup_old d' n :
  n <> name -> dentry_lookup cs (<[b := g']> gs) d' n = dentry_lookup cs gs d' n.
Proof using Hgs Hg Hp.
  intros Hne. unfold dentry_lookup. set (h' := hmdfs_dentry_hash n cs).
  assert (<[b := g']> gs !! b = Some g') as Hb'
    by (apply list_lookup_insert_eq; by eapply lookup_lt_Some).
  rewrite (lookup_path_ext (<[b := g']> gs) gs).
  - destruct (lookup_path gs h' n (path h' d')) as [[c q]|] eqn:E; [|done].
    destruct (decide (c = b)) as [->|]; [|by rewrite list_lookup_insert_ne].
    by rewrite Hb', Hg.
  - intros c _. destruct (decide (c = b)) as [->|].
    + rewrite (block_find_at _ _ _ _ _ Hb'), (block_find_at _ _ _ _ _ Hg).
      by apply remove_find_old.
    + unfold block_find. by rewrite list_lookup_insert_ne.
Qed.
End remove_entry.

(** * How read_dentry ends *)

(** Of the ways read_dentry ends, the failures after the credential override (no
    name, no memory, no dentry file) return without reverting it; every other
    ending, errors included, leaves the caller's credentials in place. *)
Theorem read_dentry_cred {C F : Type} `{CacheFile F} (actor : C -> bytes -> Z -> Z -> bool * C)
    cred name alloc (handler : option F) pos ctx :
  rd_cred_overridden (read_dentry actor cred name alloc handler pos ctx) = true <->
  cred = true /\ (name = false \/ alloc = false \/ handler = None).
Proof.
  unfold read_dentry. destruct cred, name, alloc, handler; cbn;
    try (destruct (emit_groups _ _ _ _ _ _ _) as [|[]]; cbn); naive_solver.
Qed.
