(* ===== verification/DentryMap.v ===== *)
(** The dentry file as a finite map from names to dentries: on a file without I/O
    errors, hmdfs_find_dentry, create_dentry, hmdfs_delete_dentry and
    hmdfs_rename_dentry (DentryFile.v) implement lookup, insert, delete and move of
    an abstract map, whatever the hash levels and blocks the entries sit in. *)
From S2P Require Import Prelude DentryLayout DentryHash DentryGroup DentryFile.

(** * Entries of a file *)

(** Block [b] has an entry for [n] at slot [x]; [cs] is whether the mount minds case, on which
    the hash depends. *)
Definition entry_at (cs : bool) (gs : list hmdfs_dentry_group) (n : bytes) (b : nat) (x : Z) : Prop :=
  exists g l, gs !! b = Some g /\ wf_group g l /\ x ∈ l /\
              match_exact g (hmdfs_dentry_hash n cs) n x = true.

(** [n] is bound at most once on its path. *)
Definition bound_once (cs : bool) (gs : list hmdfs_dentry_group) (d : nat) (n : bytes) : Prop :=
  forall b b' x x',
    b ∈ path (hmdfs_dentry_hash n cs) d -> b' ∈ path (hmdfs_dentry_hash n cs) d ->
    entry_at cs gs n b x -> entry_at cs gs n b' x' -> b = b' /\ x = x'.

(** The map a file of depth [d] represents: from exact names, on either kind of mount. *)
Record represents (cs : bool) (gs : list hmdfs_dentry_group) (d : nat) (m : gmap bytes hmdfs_dentry)
    : Prop := {
  rep_wf : wf_groups gs d;
  rep_once n : bound_once cs gs d n;
  rep_lookup n : dentry_lookup cs gs d n = m !! n
}.

(** The name under which a lookup of [name] finds an entry ([None]: none): the name itself if it
    is bound; on a mount that ignores case, which is the default, else one that differs only in
    case.  Several such names may be bound, one of them is found. *)
Definition resolves (cs : bool) (m : gmap bytes hmdfs_dentry) (name : bytes) (r : option bytes)
    : Prop :=
  match r with
  | Some k => is_Some (m !! k) /\ (k = name \/ cs = false /\ m !! name = None /\ case_eqb name k = true)
  | None => m !! name = None /\ (cs = false -> forall k, case_eqb name k = true -> m !! k = None)
  end.

Definition drop_name (r : option bytes) (m : gmap bytes hmdfs_dentry) : gmap bytes hmdfs_dentry :=
  match r with Some k => delete k m | None => m end.

Lemma resolves_exact m name r :
  resolves true m name r <-> r = match m !! name with Some _ => Some name | None => None end.
Proof.
  destruct r as [k|]; cbn.
  - split; [intros [[v Hv] [->|[? _]]]; [by rewrite Hv|done]|].
    destruct (m !! name) eqn:E; [|done]. intros [= ->]. rewrite E. eauto.
  - destruct (m !! name); [split; [by intros [? _]|done]|done].
Qed.

Lemma drop_name_absent cs m name r : resolves cs m name r -> drop_name r m !! name = None.
Proof.
  destruct r as [k|]; cbn; [|by intros [? _]]. intros [_ [->|(_&Hn&_)]]; [apply lookup_delete_eq|].
  apply lookup_delete_None. by right.
Qed.

Section entries.
Context (cs : bool).
Implicit Types (gs : list hmdfs_dentry_group) (n : bytes).

Lemma block_find_entry gs n b x :
  (exists g l, gs !! b = Some g /\ wf_group g l) ->
  block_find gs b (hmdfs_dentry_hash n cs) n = Some x -> entry_at cs gs n b x.
Proof.
  intros (g&l&Hg&Hw). rewrite (block_find_at _ _ _ _ _ Hg), (group_find_wf g l) by done.
  intros (l1&l2&->&Hm&_)%find_split. exists g, (l1 ++ x :: l2). set_solver.
Qed.

Lemma entry_block_find gs n b x :
  entry_at cs gs n b x -> block_find gs b (hmdfs_dentry_hash n cs) n <> None.
Proof.
  intros (g&l&Hg&Hw&Hx&Hm). rewrite (block_find_at _ _ _ _ _ Hg), (group_find_wf g l) by done.
  rewrite find_none_iff. intros Hn. specialize (Hn x Hx). congruence.
Qed.

Lemma dentry_lookup_None gs d n :
  wf_groups gs d ->
  dentry_lookup cs gs d n = None <->
  lookup_path gs (hmdfs_dentry_hash n cs) n (path (hmdfs_dentry_hash n cs) d) = None.
Proof.
  intros Hw. unfold dentry_lookup.
  destruct (lookup_path _ _ _ _) as [[b p]|] eqn:E; [|done].
  apply lookup_path_Some in E as [_ (g&Hg&_)%block_find_Some]. by rewrite Hg.
Qed.

Lemma absent_entry gs d n b x :
  dentry_lookup cs gs d n = None -> wf_groups gs d ->
  b ∈ path (hmdfs_dentry_hash n cs) d -> ~ entry_at cs gs n b x.
Proof.
  intros Hn Hw Hb He. rewrite dentry_lookup_None, lookup_path_None in Hn by done.
  by apply entry_block_find in He; auto.
Qed.

Lemma no_entry_absent gs d n :
  wf_groups gs d ->
  (forall b x, b ∈ path (hmdfs_dentry_hash n cs) d -> ~ entry_at cs gs n b x) ->
  dentry_lookup cs gs d n = None.
Proof.
  intros Hw Hn. apply dentry_lookup_None; [done|]. apply lookup_path_None. intros b Hb.
  destruct (block_find gs b _ n) as [x|] eqn:E; [|done]. exfalso.
  apply (Hn b x Hb). apply block_find_entry; [|done].
  destruct Hw as [Hd Hl Hg].
  destruct (lookup_lt_is_Some_2 gs b) as [g Eg].
  { rewrite Hl. by eapply path_inside. }
  destruct (Hg b g Eg) as [l ?]. eauto.
Qed.

(** Entries of the same hash other than at [b] do not see an update of [b]. *)
Lemma entry_at_ne gs n b c x g : c <> b -> entry_at cs (<[b := g]> gs) n c x -> entry_at cs gs n c x.
Proof.
  intros Hne (g0&l&Hg&?). rewrite list_lookup_insert_ne in Hg by done. exists g0, l. done.
Qed.

Lemma add_entry_at gs d (Hgs : wf_groups gs d) name child ino gdi b g n c x :
  let p := room_for_filename (dg_bitmap g) (get_dentry_slots (Z.of_nat (length name)))
             DENTRY_PER_GROUP in
  (0 < length name)%nat -> gs !! b = Some g -> p < DENTRY_PER_GROUP ->
  entry_at cs (<[b := update_dentry g name child ino gdi (hmdfs_dentry_hash name cs) p]> gs)
    n c x ->
  (n = name /\ c = b /\ x = p) \/ entry_at cs gs n c x.
Proof.
  intros p Hname Hg Hroom He. destruct (decide (c = b)) as [->|];
    [|by right; eapply entry_at_ne].
  destruct He as (g'&l'&Hg'&Hw'&Hx&Hm). 
  rewrite list_lookup_insert_eq in Hg' by (by eapply lookup_lt_Some). simplify_eq.
  destruct Hgs as [_ _ Hw]. destruct (Hw b g Hg) as [l Hwg].
  destruct (add_ready name g Hname Hroom) as (H1&H2&H3).
  destruct (update_wf g l Hwg name child ino gdi (hmdfs_dentry_hash name cs) p)
    as (l1&l2&El&Hwg'); [done..|].
  rewrite (wf_group_unique _ _ _ Hw' Hwg') in Hx.
  assert (x = p \/ x ∈ l) as [->|Hxl] by set_solver.
  - left. rewrite (update_match_new g l) in Hm by done. zb.
    match goal with H : beqb n name = true |- _ => apply beqb_eq in H end. done.
  - right. exists g, l.
    destruct (update_match_old g l Hwg name child ino gdi (hmdfs_dentry_hash name cs) p
      Hname H1 H2 H3 (hmdfs_dentry_hash n cs) n x Hxl) as [Hold _].
    split; [done|]. split; [done|]. split; [done|]. by rewrite <- Hold.
Qed.

Lemma remove_entry_at gs d (Hgs : wf_groups gs d) name b g p n c x :
  gs !! b = Some g -> group_find g (hmdfs_dentry_hash name cs) name = Some p ->
  entry_at cs (<[b := delete_slots g p]> gs) n c x ->
  entry_at cs gs n c x /\ (c = b -> x <> p).
Proof.
  intros Hg Hp He. destruct (decide (c = b)) as [->|]; [|by split; [eapply entry_at_ne|]].
  destruct He as (g'&l'&Hg'&Hw'&Hx&Hm).
  rewrite list_lookup_insert_eq in Hg' by (by eapply lookup_lt_Some). simplify_eq.
  destruct (remove_split cs gs d Hgs name b g p Hg Hp) as (l1&l2&Hw1&Hw2&Hmp&_).
  rewrite (wf_group_unique _ _ _ Hw' Hw2) in Hx. split.
  - exists g, (l1 ++ p :: l2). split; [done|]. split; [done|]. split; [set_solver|done].
  - intros _ ->. destruct Hw1 as [_ _ Hlay].
    destruct (lay_sorted _ _ _ _ _ _ _ Hlay eq_refl) as [Hs1 Hs2].
    destruct (lay_elem _ _ _ _ p Hlay) as (_&Hpos&_); [set_solver|].
    pose proof (slots_pos (glen g p)).
    apply elem_of_app in Hx as [Hy|Hy]; [specialize (Hs1 _ Hy)|specialize (Hs2 _ Hy)]; lia.
Qed.

Lemma extend_entry_at gs k n c x :
  entry_at cs (gs ++ replicate k zero_group) n c x -> entry_at cs gs n c x.
Proof.
  intros (g&l&Hg&Hw&Hx&Hm). apply lookup_app_Some in Hg as [Hg|[_ Hg]].
  - exists g, l. done.
  - apply lookup_replicate in Hg as [-> _].
    rewrite (wf_group_unique _ _ _ Hw zero_group_wf) in Hx. by apply elem_of_nil in Hx.
Qed.
End entries.

(** * The steps on the groups *)

Section steps.
Context (cs : bool) (gs : list hmdfs_dentry_group) (d : nat) (m : gmap bytes hmdfs_dentry)
  (Hrep : represents cs gs d m).

Lemma extend_represents :
  (d < 30)%nat ->
  represents cs (gs ++ replicate (groups_of_depth (S d) - length gs) zero_group) (S d) m.
Proof using Hrep.
  intros Hd. destruct Hrep as [Hw Ho Hl]. split.
  - by apply extend_wf.
  - assert (forall n b x, b ∈ path (hmdfs_dentry_hash n cs) (S d) -> entry_at cs gs n b x ->
                          b ∈ path (hmdfs_dentry_hash n cs) d) as Hin.
    { intros n b x Hb (g&l&Hg&_). rewrite path_S in Hb. apply elem_of_app in Hb as [Hb|Hb];
        [done|]. apply lookup_lt_Some in Hg.
      pose proof (new_level_past gs d Hw Hd (hmdfs_dentry_hash n cs)).
      unfold level_blocks in Hb. set_solver by lia. }
    intros n b b' x x' Hb Hb' He%extend_entry_at He'%extend_entry_at.
    apply (Ho n); eauto.
  - intros n. rewrite extend_dentry_lookup by done. apply Hl.
Qed.

Lemma insert_represents name child ino gdi b g :
  let h := hmdfs_dentry_hash name cs in
  let p := room_for_filename (dg_bitmap g) (get_dentry_slots (Z.of_nat (length name)))
             DENTRY_PER_GROUP in
  (0 < length name)%nat -> m !! name = None -> b ∈ path h d -> gs !! b = Some g ->
  p < DENTRY_PER_GROUP ->
  represents cs (<[b := update_dentry g name child ino gdi h p]> gs) d
    (<[name := dentry_of name child ino gdi h (de_reserved (nsl_at g p))]> m).
Proof using Hrep.
  intros h p Hn Hm Hb Hg Hp. destruct Hrep as [Hw Ho Hl].
  pose proof (Hl name) as Habs. rewrite Hm in Habs.
  assert (lookup_path gs h name (path h d) = None) as Hnone
    by (by apply dentry_lookup_None).
  split; [by apply add_wf| |].
  - intros n c c' x x' Hc Hc' He He'.
    destruct (add_entry_at cs gs d Hw _ _ _ _ _ _ _ _ _ Hn Hg Hp He) as [(->&->&->)|He0];
    destruct (add_entry_at cs gs d Hw _ _ _ _ _ _ _ _ _ Hn Hg Hp He') as [(?&->&->)|He1];
      simplify_eq; try done.
    + by apply (absent_entry cs gs d) in He1.
    + by apply (absent_entry cs gs d) in He0.
    + by apply (Ho n).
  - intros n. destruct (decide (n = name)) as [->|Hne].
    + rewrite lookup_insert_eq. unfold dentry_lookup. fold h.
      unfold p, h. erewrite (add_lookup_new cs gs d Hw name child ino gdi b g Hn Hg Hp d) by done.
      rewrite list_lookup_insert_eq by (by eapply lookup_lt_Some). cbn. f_equal.
      apply (add_find_new cs gs d Hw name child ino gdi b g Hn Hg Hp).
      rewrite <- (block_find_at _ _ _ _ _ Hg). rewrite lookup_path_None in Hnone. by apply Hnone.
    + rewrite lookup_insert_ne by done. rewrite <- Hl. by apply (add_dentry_lookup_old cs gs d Hw).
Qed.

Lemma delete_represents name b g p :
  let h := hmdfs_dentry_hash name cs in
  lookup_path gs h name (path h d) = Some (b, p) -> gs !! b = Some g ->
  represents cs (<[b := delete_slots g p]> gs) d (delete name m).
Proof using Hrep.
  intros h Hlk Hg. destruct Hrep as [Hw Ho Hl].
  pose proof Hlk as [Hb Hf]%lookup_path_Some.
  assert (entry_at cs gs name b p) as Hent.
  { apply block_find_entry; [|done]. destruct Hw as [_ _ Hwg]. destruct (Hwg b g Hg). eauto. }
  rewrite (block_find_at _ _ _ _ _ Hg) in Hf.
  assert (wf_groups (<[b := delete_slots g p]> gs) d) as Hw' by (by eapply remove_wf).
  split; [done| |].
  - intros n c c' x x' Hc Hc' He He'.
    eapply (remove_entry_at cs gs d Hw name) in He as [He _]; [|done..].
    eapply (remove_entry_at cs gs d Hw name) in He' as [He' _]; [|done..].
    by apply (Ho n).
  - intros n. destruct (decide (n = name)) as [->|Hne].
    + rewrite lookup_delete_eq. apply no_entry_absent; [done|]. intros c x Hc He.
      eapply (remove_entry_at cs gs d Hw name) in He as [He Hx]; [|done..].
      destruct (Ho name b c p x) as [<- <-]; try done. by apply Hx.
    + rewrite lookup_delete_ne by done. rewrite <- Hl.
      by apply (remove_dentry_lookup_old cs gs d Hw name b g p Hg Hf).
Qed.
End steps.

(** * The code on an error-free file *)

(** An entry that a search ignoring case stops at is an entry of the name written in it. *)
Lemma ci_entry g l h name p :
  wf_group g l -> p ∈ l -> match_ci g h name p = true -> h = hmdfs_dentry_hash name false ->
  let k := name_at g p (glen g p) in
  hmdfs_dentry_hash k false = h /\ match_exact g h k p = true /\ case_eqb name k = true.
Proof.
  intros [_ Hf Hl] Hp Hm -> k. unfold match_ci in Hm. zb. fold (glen g p) in *. fold k in H |- *.
  destruct (lay_elem _ _ _ _ p Hl Hp) as (?&?&?&_). pose proof (slots_ge (glen g p)).
  unfold DENTRY_PER_GROUP in *.
  split; [symmetry; apply dentry_hash_ci; by apply case_eqb_iff|]. split; [|done].
  unfold match_exact. fold (glen g p). fold k. rewrite beqb_refl, andb_true_r. apply andb_true_iff.
  split; apply Z.eqb_eq; [done|]. unfold k, name_at. rewrite length_sub; lia.
Qed.

Lemma exact_ci g h k name x :
  match_exact g h k x = true -> case_eqb name k = true -> match_ci g h name x = true.
Proof.
  unfold match_exact, match_ci. intros Hm Hc. zb.
  match goal with H : beqb k _ = true |- _ => apply beqb_eq in H as Hk end. rewrite <- Hk, Hc.
  apply case_eqb_iff in Hc. apply (f_equal length) in Hc. rewrite !length_map in Hc.
  rewrite andb_true_r. apply andb_true_iff. split; apply Z.eqb_eq; [done|lia].
Qed.

Section code.
Context {F : Type} `{CacheFileLaws F} (cs : bool).
Implicit Types f : F.

Abbreviation gpos b := (get_dentry_group_pos (Z.of_nat b)).

Lemma create_represents f d m name child ino gdi :
  represents cs (view f) d m -> (d < 30)%nat -> (0 < length name <= 640)%nat ->
  m !! name = None ->
  exists f' d' reserved b,
    create_dentry name child ino gdi cs f = (0, f') /\ (d' = d \/ d' = S d) /\
    represents cs (view f') d'
      (<[name := dentry_of name child ino gdi (hmdfs_dentry_hash name cs) reserved]> m) /\
    gpos b ∈ held f' /\ Z.of_nat b < 2 ^ 32.
Proof.
  intros Hr Hd Hn Hm.
  destruct (create_dentry_spec cs name Hn child ino gdi f d) as (f'&E&gs0&d'&b&g&Hgs&Hb&Hg&Hroom&Hv&Hh);
    [by destruct Hr|done|].
  assert (represents cs gs0 d' m) as Hr0.
  { destruct Hgs as [[-> ->]|[-> ->]]; [done|by apply extend_represents]. }
  exists f', d', (de_reserved (nsl_at g (room_for_filename (dg_bitmap g)
    (get_dentry_slots (Z.of_nat (length name))) DENTRY_PER_GROUP))), b.
  split; [done|]. split; [destruct Hgs as [[_ ->]|[-> _]]; auto|].
  split; [rewrite Hv; apply insert_represents; try done; lia|]. split; [done|].
  apply lookup_lt_Some in Hg. destruct Hr0 as [Hw _ _]. pose proof (wf_groups_bound _ _ Hw). lia.
Qed.

(** What a search of the file finds is the entry of the name it resolves to. *)
Lemma lookup_any_resolves gs d m name :
  represents cs gs d m ->
  match lookup_any cs gs (hmdfs_dentry_hash name cs) name (path (hmdfs_dentry_hash name cs) d) with
  | Some (b, p) =>
      exists k, resolves cs m name (Some k) /\
        lookup_path gs (hmdfs_dentry_hash k cs) k (path (hmdfs_dentry_hash k cs) d) = Some (b, p)
  | None => resolves cs m name None
  end.
Proof using.
  intros [Hw Ho Hl]. unfold lookup_any. remember (hmdfs_dentry_hash name cs) as h eqn:Eh.
  destruct (lookup_path gs h name (path h d)) as [[b p]|] eqn:E.
  { exists name. rewrite <- Eh. split; [|exact E]. split; [|by left]. rewrite <- Hl. apply not_eq_None_Some.
    rewrite dentry_lookup_None by exact Hw. rewrite <- Eh, E. discriminate. }
  assert (m !! name = None) as Hn by (rewrite <- Hl; apply dentry_lookup_None; [exact Hw|rewrite <- Eh; exact E]).
  destruct cs eqn:Ecs; [done|].
  assert (forall b g l, b ∈ path h d -> gs !! b = Some g -> wf_group g l ->
            block_find_ci gs b h name = List.find (match_ci g h name) l) as Hci.
  { intros b g l Hb Hg Hwg. unfold block_find_ci. rewrite Hg, (find_in_block_wf g l) by done. cbn.
    f_equal. rewrite lookup_path_None in E. specialize (E b Hb).
    rewrite (block_find_at _ _ _ _ _ Hg), (group_find_wf g l), find_none_iff in E by done.
    clear - E. induction l as [|x l IH]; [done|]. cbn. rewrite E by set_solver. f_equal.
    apply IH. intros y Hy. apply E. set_solver. }
  destruct (lookup_ci gs h name (path h d)) as [[b p]|] eqn:Eci.
  - apply lookup_by_Some in Eci as [Hb Hf]. pose proof Hf as Hf'. unfold block_find_ci in Hf'.
    destruct (gs !! b) as [g|] eqn:Hg; [|done]. clear Hf'.
    destruct (wfs_groups _ _ Hw b g Hg) as [l Hwg]. rewrite (Hci b g l Hb Hg Hwg) in Hf.
    apply List.find_some in Hf as [Hp Hm]. apply list_elem_of_In in Hp.
    destruct (ci_entry g l h name p Hwg Hp Hm Eh) as (Hh&Hex&Hc).
    generalize (name_at g p (glen g p)), Hh, Hex, Hc. clear Hh Hex Hc. intros k Hh Hex Hc.
    exists k. assert (entry_at false gs k b p) as He by (exists g, l; by rewrite Hh).
    assert (lookup_path gs (hmdfs_dentry_hash k false) k (path (hmdfs_dentry_hash k false) d) = Some (b, p)) as Hlk.
    { destruct (lookup_path gs (hmdfs_dentry_hash k false) k (path (hmdfs_dentry_hash k false) d)) as [[b' p']|] eqn:El.
      - apply lookup_path_Some in El as [Hb' Hf'].
        apply (block_find_entry false) in Hf';
          [|apply block_find_Some in Hf' as (g'&Hg'&_); destruct (wfs_groups _ _ Hw b' g' Hg'); eauto].
        assert (b ∈ path (hmdfs_dentry_hash k false) d) as Hb2 by (rewrite Hh; exact Hb).
        by destruct (Ho k b b' p p' Hb2 Hb' He Hf') as [<- <-].
      - rewrite lookup_path_None in El. exfalso. apply (entry_block_find false _ _ _ _ He). apply El.
        rewrite Hh. exact Hb. }
    split; [|done]. split.
    + rewrite <- Hl. apply not_eq_None_Some. rewrite dentry_lookup_None, Hlk by exact Hw. discriminate.
    + right. done.
  - split; [done|]. intros _ k Hk. rewrite <- Hl. apply (no_entry_absent false _ _ _ Hw).
    assert (hmdfs_dentry_hash k false = h) as Hh.
    { rewrite Eh. symmetry. apply dentry_hash_ci. by apply case_eqb_iff. }
    intros b x Hb (g&l&Hg&Hwg&Hx&Hm). rewrite Hh in Hb, Hm. unfold lookup_ci in Eci. rewrite lookup_by_None in Eci.
    specialize (Eci b Hb). cbn in Eci. rewrite (Hci b g l Hb Hg Hwg), find_none_iff in Eci.
    specialize (Eci x Hx). revert Eci. apply not_false_iff_true. apply (exact_ci g h k); done.
Qed.

Lemma delete_dentry_represents f d m name :
  represents cs (view f) d m ->
  let f' := hmdfs_delete_dentry name cs f in
  exists r, resolves cs m name r /\ represents cs (view f') d (drop_name r m) /\
  (is_Some r -> exists b, gpos b ∈ held f' /\ Z.of_nat b < 2 ^ 32).
Proof.
  intros Hr f'. pose proof Hr as [Hw Ho Hl]. unfold f', hmdfs_delete_dentry.
  destruct (find_dentry_spec f cs name d Hw) as (ctx&f1&->&Hv&Hm).
  pose proof (lookup_any_resolves (view f) d m name Hr) as Hres.
  destruct (lookup_any _ _ _ _ _) as [[b p]|] eqn:E; cbn [fmap option_fmap option_map snd].
  - destruct Hm as (Hbi&Hpg&Hh&_). destruct Hres as (k&Hk&Hlk).
    pose proof Hlk as [_ (g&Hg&_)%block_find_Some]%lookup_path_Some.
    rewrite Hpg, Hg, Hbi. pose proof (lookup_lt_Some _ _ _ Hg) as Hlt.
    pose proof (wf_groups_bound _ _ Hw) as (_&Hb&_).
    assert (Z.of_nat b < 2 ^ 32) as Hb32 by lia.
    destruct (write_view f1 b (delete_slots g p)) as (f2&Ew&Hv2&Hh2); [by rewrite Hv|].
    pose proof (gpos_next b Hb32). rewrite (group_pos_eq b) in * by done. rewrite Ew.
    destruct (unlock_view f2 (advance (DENTRYGROUP_HEADER + Z.of_nat b * DENTRYGROUP_SIZE)
                                DENTRYGROUP_SIZE)) as [Hv3 Hh3].
    exists (Some k). split; [done|].
    rewrite Hv3, Hv2, Hv. split; [by apply delete_represents|].
    intros _. exists b. split; [|done]. rewrite group_pos_eq, Hh3, Hh2 by done. set_solver.
  - exists None. rewrite Hv. split; [done|]. split; [done|]. by intros [? ?].
Qed.
End code.

(** * Concrete files for the witnesses *)

Definition ex_inode : inode := mk_inode 7 1 33188 100 5 6.

Lemma empty_represents cs : represents cs [] 0 ∅.
Proof.
  split.
  - split; [lia|done|]. intros i g Hi. by rewrite lookup_nil in Hi.
  - intros n b b' x x' Hb. by apply elem_of_nil in Hb.
  - intros n. by rewrite lookup_empty.
Qed.

Lemma empty_file_represents cs : represents cs (view (mk_memfile [] ∅)) 0 ∅.
Proof. exact (empty_represents cs). Qed.

(** One file holding the name "ab", built by the code itself. *)
Definition ex_file (cs : bool) : memfile :=
  (create_dentry [97; 98] ex_inode ex_inode None cs (mk_memfile [] ∅)).2.

Lemma ex_file_represents cs :
  exists d m de, (d < 30)%nat /\ represents cs (view (ex_file cs)) d m /\
    m !! [97; 98] = Some de /\ forall n, n <> [97; 98] -> m !! n = None.
Proof.
  destruct (create_represents cs (mk_memfile [] ∅) 0 ∅ [97; 98] ex_inode ex_inode None)
    as (f'&d'&r&b&E&Hd&Hr&_); [apply empty_represents|lia|simpl; lia|done|].
  unfold ex_file. rewrite E. eexists d', _, _. split; [lia|]. split; [exact Hr|].
  split; [apply lookup_insert_eq|]. intros n Hn. by rewrite lookup_insert_ne.
Qed.

(** On a mount that ignores case, "AB" is found as "ab". *)
Lemma ex_file_resolves m de :
  m !! [97; 98] = Some de -> (forall n, n <> [97; 98] -> m !! n = None) ->
  forall r, resolves false m [65; 66] r -> r = Some [97; 98].
Proof.
  intros Hm Ho [k|]; cbn.
  - intros [[v Hv] _]. destruct (decide (k = [97; 98])) as [->|Hk]; [done|]. by rewrite Ho in Hv.
  - intros [_ Hn]. by rewrite (Hn eq_refl [97; 98] eq_refl) in Hm.
Qed.

(** * Properties *)

(** C1: hmdfs_find_dentry is the lookup of the map, on mounts that mind case and on those that
    do not: it finds the slot of the dentry of the name it resolves to, in the block it reports,
    exactly when there is one; that is the name itself if it is bound and otherwise, only where
    case is ignored, a name that differs in case.  It leaves the file as it was, and of the
    groups it visited only the found one stays locked. *)
Theorem find_dentry_refines {F : Type} `{CacheFileLaws F} (cs : bool) (f : F) d m name :
  represents cs (view f) d m ->
  exists r de ctx f',
    hmdfs_find_dentry (hmdfs_init_dcache_lookup_ctx name) cs f = (de, ctx, f') /\
    view f' = view f /\ resolves cs m name r /\
    match r with
    | None => de = None /\ held f' ⊆ held f
    | Some k =>
        exists p b g, de = Some p /\ ctx_bidx ctx = Z.of_nat b /\ ctx_page ctx = Some g /\
          view f !! b = Some g /\ m !! k = Some (nsl_at g p) /\
          get_dentry_group_pos (Z.of_nat b) ∈ held f' /\
          held f' ⊆ {[get_dentry_group_pos (Z.of_nat b)]} ∪ held f
    end.
Proof.
  intros Hr. pose proof Hr as [Hw _ Hl].
  destruct (find_dentry_spec f cs name d Hw) as (ctx&f'&E&Hv&Hm).
  pose proof (lookup_any_resolves cs (view f) d m name Hr) as Hres.
  destruct (lookup_any _ _ _ _ _) as [[b p]|] eqn:Ep.
  - destruct Hres as (k&Hk&Hlk). destruct Hm as (?&Hp&?&?). exists (Some k). eexists _, ctx, f'.
    split; [exact E|]. split; [done|]. split; [done|].
    pose proof Hlk as [_ (g&Hg&_)%block_find_Some]%lookup_path_Some.
    exists p, b, g. split; [done|]. split; [done|]. split; [by rewrite Hp|]. split; [done|].
    split; [|done]. rewrite <- Hl. unfold dentry_lookup. by rewrite Hlk, Hg.
  - exists None. eexists _, ctx, f'. split; [exact E|]. done.
Qed.

Lemma find_dentry_refines_witness :
  exists d m, represents false (view (ex_file false)) d m /\ is_Some (m !! [97; 98]) /\
    (forall r, resolves false m [65; 66] r -> r = Some [97; 98]) /\
  exists r de ctx f',
    hmdfs_find_dentry (hmdfs_init_dcache_lookup_ctx [65; 66]) false (ex_file false) = (de, ctx, f') /\
    view f' = view (ex_file false) /\ resolves false m [65; 66] r /\
    match r with
    | None => de = None /\ held f' ⊆ held (ex_file false)
    | Some k =>
        exists p b g, de = Some p /\ ctx_bidx ctx = Z.of_nat b /\ ctx_page ctx = Some g /\
          view (ex_file false) !! b = Some g /\ m !! k = Some (nsl_at g p) /\
          get_dentry_group_pos (Z.of_nat b) ∈ held f' /\
          held f' ⊆ {[get_dentry_group_pos (Z.of_nat b)]} ∪ held (ex_file false)
    end.
Proof.
  destruct (ex_file_represents false) as (d&m&de&Hd&Hr&Hm&Ho). exists d, m. split; [exact Hr|].
  split; [by exists de|]. split; [by apply (ex_file_resolves m de)|].
  exact (find_dentry_refines false (ex_file false) d m [65; 66] Hr).
Defined.

(** C2: create_dentry is the insertion of the map, on either kind of mount: for a name that is
    not bound as it is written it succeeds, binds exactly this name to the dentry built from the
    inode, keeps every other name's dentry, those that differ only in case included, adds at most
    one level to the file, and keeps all groups well formed and every name bound at most once. *)
Theorem create_dentry_refines {F : Type} `{CacheFileLaws F} (cs : bool) (f : F) d m name child ino gdi :
  represents cs (view f) d m -> (d < 30)%nat -> (0 < length name <= 640)%nat ->
  m !! name = None ->
  exists f' d' reserved,
    create_dentry name child ino gdi cs f = (0, f') /\ (d' = d \/ d' = S d) /\
    represents cs (view f') d'
      (<[name := dentry_of name child ino gdi (hmdfs_dentry_hash name cs) reserved]> m).
Proof.
  intros Hr Hd Hn Hm.
  destruct (create_represents cs f d m name child ino gdi) as (f'&d'&r&b&?&?&?&_); [done..|].
  by exists f', d', r.
Qed.

Lemma create_dentry_refines_witness :
  exists d m, represents false (view (ex_file false)) d m /\ is_Some (m !! [97; 98]) /\
  exists f' d' reserved,
    create_dentry [65; 66] ex_inode ex_inode None false (ex_file false) = (0, f') /\ (d' = d \/ d' = S d) /\
    represents false (view f') d'
      (<[[65; 66] := dentry_of [65; 66] ex_inode ex_inode None (hmdfs_dentry_hash [65; 66] false) reserved]> m).
Proof.
  destruct (ex_file_represents false) as (d&m&de&Hd&Hr&Hm&Ho). exists d, m. split; [exact Hr|].
  split; [by exists de|].
  apply (create_dentry_refines false (ex_file false) d m [65; 66] ex_inode ex_inode None Hr Hd);
    [simpl; lia|by apply Ho].
Defined.

(** C3: hmdfs_delete_dentry is the deletion of the map: the name it resolves to, which on a mount
    that ignores case may be one that differs in case, is absent afterwards, and so is the name
    itself; every other name keeps its dentry, and the file stays well formed at the same depth. *)
Theorem delete_dentry_refines {F : Type} `{CacheFileLaws F} (cs : bool) (f : F) d m name :
  represents cs (view f) d m ->
  exists r, resolves cs m name r /\ drop_name r m !! name = None /\
    represents cs (view (hmdfs_delete_dentry name cs f)) d (drop_name r m).
Proof.
  intros Hr. destruct (delete_dentry_represents cs f d m name Hr) as (r&Hres&Hr'&_).
  exists r. split; [done|]. split; [by eapply drop_name_absent|done].
Qed.

Lemma delete_dentry_refines_witness :
  exists d m, represents false (view (ex_file false)) d m /\ is_Some (m !! [97; 98]) /\
    (forall r, resolves false m [65; 66] r -> r = Some [97; 98]) /\
    exists r, resolves false m [65; 66] r /\ drop_name r m !! [65; 66] = None /\
      represents false (view (hmdfs_delete_dentry [65; 66] false (ex_file false))) d (drop_name r m).
Proof.
  destruct (ex_file_represents false) as (d&m&de&Hd&Hr&Hm&Ho). exists d, m. split; [exact Hr|].
  split; [by exists de|]. split; [by apply (ex_file_resolves m de)|].
  exact (delete_dentry_refines false (ex_file false) d m [65; 66] Hr).
Defined.

(** create_dentry and hmdfs_delete_dentry unlock the group at the position that
    kernel_write has already advanced past it, so the group they changed is still
    locked when they return. *)
Theorem change_keeps_group_locked {F : Type} `{CacheFileLaws F} (cs : bool) (f : F) d m name child ino gdi :
  represents cs (view f) d m -> (d < 30)%nat -> (0 < length name <= 640)%nat ->
  exists b,
    get_dentry_group_pos (Z.of_nat b)
    ∈ held (if decide (m !! name = None) then (create_dentry name child ino gdi cs f).2
            else hmdfs_delete_dentry name cs f).
Proof.
  intros Hr Hd Hn. destruct (decide (m !! name = None)) as [Hm|Hm].
  - destruct (create_represents cs f d m name child ino gdi) as (f'&d'&r&b&E&_&_&Hh&_); [done..|].
    exists b. by rewrite E.
  - destruct (delete_dentry_represents cs f d m name Hr) as (r&Hres&_&Hh).
    destruct Hh as (b&?&_); [|by exists b]. destruct r; [eauto|]. by destruct Hres as [? _].
Qed.

Lemma change_keeps_group_locked_witness :
  let f := mk_memfile [] ∅ in
  represents true (view f) 0 ∅ /\ held f = ∅ /\
  exists b, get_dentry_group_pos (Z.of_nat b)
    ∈ held (if decide ((∅ : gmap bytes hmdfs_dentry) !! [97] = None)
            then (create_dentry [97] ex_inode ex_inode None true f).2
            else hmdfs_delete_dentry [97] true f).
Proof.
  split; [apply empty_file_represents|]. split; [done|].
  apply (change_keeps_group_locked true (mk_memfile [] ∅) 0 ∅ [97] ex_inode ex_inode None
           (empty_file_represents true)); [lia|simpl; lia].
Defined.

(** Both names in one file: the target is changed first, then the old name looked up in it. *)
Lemma rename_in_one_file {F : Type} `{CacheFileLaws F} (cs : bool) (files : gmap positive F)
    old_name new_name old_inode new_inode gdi k (f : F) d m :
  (0 < length new_name <= 640)%nat -> files !! k = Some f -> represents cs (view f) d m -> (d < 30)%nat ->
  exists files' e reserved f1 rnew rold,
    let de := dentry_of new_name new_inode old_inode gdi (hmdfs_dentry_hash new_name cs)
                reserved in
    let target := <[new_name := de]> (drop_name rnew m) in
    hmdfs_rename_dentry old_name new_name old_inode new_inode gdi k k cs files = (0, files') /\
    files' !! k = Some f1 /\ resolves cs m new_name rnew /\
    resolves cs target old_name rold /\ represents cs (view f1) e (drop_name rold target).
Proof.
  intros Hn Hf Hr Hd. unfold hmdfs_rename_dentry.
  rewrite lookup_alter_eq, Hf. cbn [fmap option_fmap option_map].
  destruct (delete_dentry_represents cs f d m new_name Hr) as (rnew&Hres&Hr1&_).
  destruct (create_represents cs (hmdfs_delete_dentry new_name cs f) d (drop_name rnew m)
    new_name new_inode old_inode gdi) as (f2&e'&r&b&E&He&Hr2&_);
    [done|done|done|by eapply drop_name_absent|].
  rewrite E. cbn [Z.eqb negb].
  destruct (delete_dentry_represents cs f2 e' _ old_name Hr2) as (rold&Hold&Hr3&_).
  eexists _, e', r, _, rnew, rold. split; [done|]. rewrite lookup_alter_eq, lookup_insert_eq. cbn.
  split; [done|]. split; [done|]. split; [exact Hold|exact Hr3].
Qed.

(** C4: hmdfs_rename_dentry moves the entry: what the new name resolves to in the target is
    dropped and exactly the new name bound to a dentry of the old inode, then what the old name
    resolves to is dropped, in the source or, if both directories are cached in one file, in
    that one as it is by then.  Names not involved keep their dentries. *)
Theorem rename_dentry_refines {F : Type} `{CacheFileLaws F} (cs : bool) (files : gmap positive F)
    old_name new_name old_inode new_inode gdi k k' (f f' : F) d d' m m' :
  (0 < length new_name <= 640)%nat ->
  files !! k = Some f -> represents cs (view f) d m -> (d < 30)%nat ->
  files !! k' = Some f' -> represents cs (view f') d' m' -> (d' < 30)%nat ->
  exists files' e e' reserved f1 f1' rnew rold,
    let de := dentry_of new_name new_inode old_inode gdi (hmdfs_dentry_hash new_name cs)
                reserved in
    let target := <[new_name := de]> (drop_name rnew m') in
    hmdfs_rename_dentry old_name new_name old_inode new_inode gdi k k' cs files = (0, files') /\
    files' !! k = Some f1 /\ files' !! k' = Some f1' /\ resolves cs m' new_name rnew /\
    if decide (k = k') then
      resolves cs target old_name rold /\ represents cs (view f1') e' (drop_name rold target)
    else
      resolves cs m old_name rold /\ represents cs (view f1) e (drop_name rold m) /\
      represents cs (view f1') e' target.
Proof.
  intros Hn Hf Hr Hd Hf' Hr' Hd'. destruct (decide (k = k')) as [<-|Hne].
  { destruct (rename_in_one_file cs files old_name new_name old_inode new_inode gdi k f' d' m')
      as (files'&e&r&f1&rnew&rold&E&H1&Hnew&Hold&Hr1); try done.
    by exists files', e, e, r, f1, f1, rnew, rold. }
  unfold hmdfs_rename_dentry. rewrite lookup_alter_eq, Hf'. cbn [fmap option_fmap option_map].
  destruct (delete_dentry_represents cs f' d' m' new_name Hr') as (rnew&Hres&Hr1&_).
  destruct (create_represents cs (hmdfs_delete_dentry new_name cs f') d' (drop_name rnew m')
    new_name new_inode old_inode gdi) as (f2&e'&r&b&E&He&Hr2&_);
    [done|done|done|by eapply drop_name_absent|].
  rewrite E. cbn [Z.eqb negb]. destruct (delete_dentry_represents cs f d m old_name Hr) as (rold&Hold&Hr3&_).
  eexists _, d, e', r, _, _, rnew, rold. split; [done|].
  rewrite lookup_alter_eq, lookup_insert_ne, lookup_alter_ne, Hf by done. cbn.
  rewrite lookup_alter_ne, lookup_insert_eq by done. done.
Qed.

Lemma rename_dentry_refines_witness :
  let files : gmap positive memfile := {[1%positive := ex_file false; 2%positive := mk_memfile [] ∅]} in
  exists d m, represents false (view (ex_file false)) d m /\
    (forall r, resolves false m [65; 66] r -> r = Some [97; 98]) /\
  exists files' e e' reserved f1 f1' rnew rold,
    let de := dentry_of [99] ex_inode ex_inode None (hmdfs_dentry_hash [99] false) reserved in
    let target := <[[99] := de]> (drop_name rnew ∅) in
    hmdfs_rename_dentry [65; 66] [99] ex_inode ex_inode None 1 2 false files = (0, files') /\
    files' !! 1%positive = Some f1 /\ files' !! 2%positive = Some f1' /\ resolves false ∅ [99] rnew /\
    if decide (1%positive = 2%positive) then
      resolves false target [65; 66] rold /\ represents false (view f1') e' (drop_name rold target)
    else
      resolves false m [65; 66] rold /\ represents false (view f1) e (drop_name rold m) /\
      represents false (view f1') e' target.
Proof.
  destruct (ex_file_represents false) as (d&m&de&Hd&Hr&Hm&Ho). exists d, m. split; [exact Hr|].
  split; [by apply (ex_file_resolves m de)|].
  apply (rename_dentry_refines false {[1%positive := ex_file false; 2%positive := mk_memfile [] ∅]}
    [65; 66] [99] ex_inode ex_inode None 1 2 (ex_file false) (mk_memfile [] ∅) d 0 m ∅);
    [simpl; lia|reflexivity|exact Hr|exact Hd|reflexivity|exact (empty_file_represents false)|lia].
Defined.

(** A rename that changes only the case of a name, on a mount that ignores case, leaves neither
    name in the cached directory: the entry of the old name is what the new name resolves to,
    and the new entry is what the old name then resolves to. *)
Lemma case_only_rename_loses_entry {F : Type} `{CacheFileLaws F} (f : F) d m old_name new_name
    old_inode new_inode gdi de :
  represents false (view f) d m -> (d < 30)%nat -> (0 < length new_name <= 640)%nat ->
  m !! old_name = Some de -> case_eqb new_name old_name = true -> new_name <> old_name ->
  (forall k, case_eqb new_name k = true -> k <> old_name -> m !! k = None) ->
  exists files' f1 e,
    hmdfs_rename_dentry old_name new_name old_inode new_inode gdi 1 1 false {[1%positive := f]} = (0, files') /\
    files' !! 1%positive = Some f1 /\ represents false (view f1) e (delete old_name m).
Proof.
  intros Hr Hd Hn Hold Hc Hne Honly.
  destruct (rename_in_one_file false {[1%positive := f]} old_name new_name old_inode new_inode gdi 1 f d m)
    as (files'&e'&rs&f1&rnew&rold&E&H1&Hnew&Hro&Hr'); try done.
  assert (m !! new_name = None) as Hmn by (by apply Honly; [apply case_eqb_refl|]).
  assert (rnew = Some old_name) as ->.
  { destruct rnew as [k|]; [|destruct Hnew as [_ Hx]; by rewrite (Hx eq_refl _ Hc) in Hold].
    destruct Hnew as [[v Hv] Hk]. f_equal. destruct (decide (k = old_name)) as [|Hko]; [done|].
    destruct Hk as [->|(_&_&Hk)]; [congruence|]. by rewrite (Honly k Hk Hko) in Hv. }
  assert (rold = Some new_name) as ->.
  { cbn in Hro. destruct rold as [k|].
    - destruct Hro as [[v Hv] Hk]. f_equal. destruct (decide (k = new_name)) as [|Hkn]; [done|].
      rewrite lookup_insert_ne in Hv by done. apply lookup_delete_Some in Hv as [Hko Hv].
      destruct Hk as [->|(_&_&Hk)]; [done|]. rewrite (Honly k) in Hv; [done| |done].
      apply case_eqb_iff. apply case_eqb_iff in Hk, Hc. congruence.
    - destruct Hro as [_ Hx]. specialize (Hx eq_refl new_name). rewrite lookup_insert_eq in Hx.
      discriminate Hx. apply case_eqb_iff. apply case_eqb_iff in Hc. congruence. }
  exists files', f1, e'. split; [exact E|]. split; [done|].
  cbn [drop_name] in Hr'.
  rewrite delete_insert_eq, delete_id in Hr'; [done|]. by rewrite lookup_delete_ne.
Qed.
