(* ===== verification/DentryList.v ===== *)
(** Listing a dentry file (read_dentry of hmdfs_dentryfile.c): what one call emits,
    where it stops, and that a listing cut short by a full buffer and resumed at the
    returned position sees every entry exactly once. *)
From S2P Require Import Prelude DentryLayout DentryHash DentryGroup DentryFile DentryMap.

(** * The listing of a file *)

(** An emitted entry with the group and slot it comes from. *)
Record lentry := mk_lentry {
  le_group : Z;
  le_slot : Z;
  le_name : bytes;
  le_ino : Z;
  le_type : Z
}.

(** What slot [j] of group number [i] contributes to a listing. *)
Definition slot_entry (g : hmdfs_dentry_group) (i j : Z) : option lentry :=
  let de := nsl_at g j in
  if negb (test_bit_le j (dg_bitmap g)) || (de_namelen de =? 0) then None
  else mk_lentry i j (name_at g j (de_namelen de)) (de_i_ino de) <$> mode_file_type (de_i_mode de).

Definition opt_list {A} (o : option A) : list A := match o with Some x => [x] | None => [] end.

Fixpoint slots_list (n : nat) (g : hmdfs_dentry_group) (i j : Z) : list lentry :=
  match n with
  | O => []
  | S n => opt_list (slot_entry g i j) ++ slots_list n g i (j + 1)
  end.

(** The groups [gs], numbered from [i]; the first one from slot [j] on. *)
Fixpoint groups_list (gs : list hmdfs_dentry_group) (i j : Z) : list lentry :=
  match gs with
  | [] => []
  | g :: gs => slots_list (Z.to_nat (DENTRY_PER_GROUP - j)) g i j ++ groups_list gs (i + 1) 0
  end.

(** The listing of a file from group [i], slot [j]. *)
Definition listing (gs : list hmdfs_dentry_group) (i j : Z) : list lentry :=
  groups_list (drop (Z.to_nat i) gs) i j.

(** Offering entries to the actor until it refuses one. *)
Fixpoint offer {C : Type} (actor : C -> bytes -> Z -> Z -> bool * C) (es : list lentry) (ctx : C)
    : C + (C * Z) :=
  match es with
  | [] => inl ctx
  | e :: es =>
      let '(ok, ctx) := actor ctx (le_name e) (le_ino e) (le_type e) in
      if ok then offer actor es ctx else inr (ctx, hmdfs_set_pos 0 (le_group e) (le_slot e))
  end.

Section offer.
Context {C : Type} (actor : C -> bytes -> Z -> Z -> bool * C).

Lemma offer_app es1 es2 ctx :
  offer actor (es1 ++ es2) ctx
  = match offer actor es1 ctx with inl ctx => offer actor es2 ctx | inr r => inr r end.
Proof.
  revert ctx; induction es1 as [|e es1 IH]; intros ctx; [done|].
  simpl. destruct (actor _ _ _ _) as [[] ?]; [apply IH|done].
Qed.

Lemma emit_slots_offer n g i j ctx :
  emit_slots actor n g i j ctx = offer actor (slots_list n g i j) ctx.
Proof.
  revert j ctx; induction n as [|n IH]; intros j ctx; [done|].
  cbn [emit_slots slots_list]. unfold slot_entry. cbn zeta.
  destruct (negb _ || _); [apply IH|].
  destruct (mode_file_type _) as [t|]; [|apply IH].
  cbn. destruct (actor _ _ _ _) as [[] ?]; [apply IH|done].
Qed.

Context {F : Type} `{CacheFileLaws F}.

Lemma emit_groups_offer n i j buf (f : F) ctx :
  Z.of_nat (length (view f)) < 2 ^ 32 -> (i + n = length (view f))%nat ->
  emit_groups actor n (Z.of_nat i) j buf f ctx
  = offer actor (groups_list (drop i (view f)) (Z.of_nat i) j) ctx.
Proof.
  intros Hb. revert i j buf ctx; induction n as [|n IH]; intros i j buf ctx Hn.
  { rewrite drop_ge by lia. done. }
  destruct (lookup_lt_is_Some_2 (view f) i) as [g Hg]; [lia|].
  rewrite (drop_S _ _ _ Hg). cbn [emit_groups groups_list].
  rewrite group_pos_eq by lia. rewrite (read_view f i g buf Hg).
  rewrite emit_slots_offer, offer_app.
  destruct (offer actor (slots_list _ g _ j) ctx) as [c|r]; [|done].
  replace (Z.of_nat i + 1) with (Z.of_nat (S i)) by lia. apply IH. lia.
Qed.
End offer.

(** * Positions within a listing *)

Lemma slot_entry_pos g i j e : slot_entry g i j = Some e -> le_group e = i /\ le_slot e = j.
Proof.
  unfold slot_entry. destruct (negb _ || _); [done|].
  destruct (mode_file_type _); intros; simplify_eq/=. done.
Qed.

Lemma slots_list_split n g i j l1 e l2 :
  slots_list n g i j = l1 ++ e :: l2 ->
  le_group e = i /\ j <= le_slot e < j + Z.of_nat n /\
  slots_list (Z.to_nat (j + Z.of_nat n - le_slot e)) g i (le_slot e) = e :: l2.
Proof.
  revert j l1; induction n as [|n IH]; intros j l1 E; [by destruct l1|].
  cbn [slots_list] in E. destruct (slot_entry g i j) as [e0|] eqn:Es; cbn in E.
  - destruct l1 as [|e1 l1]; simplify_eq/=.
    + pose proof (slot_entry_pos _ _ _ _ Es) as [Hi ->].
      split; [done|]. split; [lia|].
      replace (Z.to_nat (j + Z.of_nat (S n) - j)) with (S n) by lia.
      cbn [slots_list]. by rewrite Es.
    + destruct (IH _ _ H0) as (->&?&<-). split; [done|]. split; [lia|].
      do 2 f_equal. lia.
  - destruct (IH _ _ E) as (->&?&<-). split; [done|]. split; [lia|]. do 2 f_equal. lia.
Qed.

Lemma groups_list_split gs i j l1 e l2 :
  0 <= j <= DENTRY_PER_GROUP ->
  groups_list gs i j = l1 ++ e :: l2 ->
  i <= le_group e < i + Z.of_nat (length gs) /\ 0 <= le_slot e < DENTRY_PER_GROUP /\
  groups_list (drop (Z.to_nat (le_group e - i)) gs) (le_group e) (le_slot e) = e :: l2.
Proof.
  revert i j l1; induction gs as [|g gs IH]; intros i j l1 Hj E; [by destruct l1|].
  cbn [groups_list] in E.
  apply app_eq_app in E as (k&[[E1 E2]|[E1 E2]]).
  - destruct k as [|e0 k].
    + destruct (IH (i + 1) 0 []) as (?&?&E3); [unfold DENTRY_PER_GROUP; lia|by symmetry|].
      cbn [length].
      split; [lia|]. split; [done|].
      replace (Z.to_nat (le_group e - i)) with (S (Z.to_nat (le_group e - (i + 1)))) by lia. done.
    + injection E2 as <- ->. destruct (slots_list_split _ _ _ _ _ _ _ E1) as (->&?&E3).
      cbn [length]. unfold DENTRY_PER_GROUP in *. split; [lia|]. split; [lia|].
      rewrite Z.sub_diag. change (Z.to_nat 0) with 0%nat.
      cbn [drop groups_list]. change DENTRY_PER_GROUP with 80.
      replace (Z.to_nat (80 - le_slot e))
        with (Z.to_nat (j + Z.of_nat (Z.to_nat (80 - j)) - le_slot e)) by lia.
      rewrite E3. done.
  - destruct (IH (i + 1) 0 k) as (?&?&E3); [unfold DENTRY_PER_GROUP; lia|done|].
    cbn [length].
    split; [lia|]. split; [done|].
    replace (Z.to_nat (le_group e - i)) with (S (Z.to_nat (le_group e - (i + 1)))) by lia. done.
Qed.

(** A suffix of the listing is the listing from its first entry's position. *)
Lemma listing_suffix gs i j l1 e l2 :
  0 <= i -> 0 <= j <= DENTRY_PER_GROUP ->
  listing gs i j = l1 ++ e :: l2 ->
  i <= le_group e < Z.of_nat (length gs) /\ 0 <= le_slot e < DENTRY_PER_GROUP /\
  listing gs (le_group e) (le_slot e) = e :: l2.
Proof.
  intros Hi Hj E. destruct (groups_list_split _ _ _ _ _ _ Hj E) as (H1&H2&E').
  rewrite length_drop in H1. rewrite drop_drop in E'.
  split; [lia|]. split; [done|]. unfold listing.
  by replace (Z.to_nat i + Z.to_nat (le_group e - i))%nat with (Z.to_nat (le_group e)) in E' by lia.
Qed.

(** * What the listing of a well-formed group holds *)





(** * read_dentry *)

Section read.
Context {C : Type} (actor : C -> bytes -> Z -> Z -> bool * C).
Context {F : Type} `{CacheFileLaws F}.

Lemma read_dentry_offer (f : F) d i j ctx :
  wf_groups (view f) d -> 0 <= i <= Z.of_nat (length (view f)) -> 0 <= j < DENTRY_PER_GROUP ->
  let pos := hmdfs_set_pos 0 i j in
  read_dentry actor true true true (Some f) pos ctx
  = match offer actor (listing (view f) i j) ctx with
    | inl ctx => mk_read 0 pos ctx false
    | inr (ctx, pos) => mk_read 1 pos ctx false
    end.
Proof.
  intros Hw Hi Hj pos. pose proof (wf_groups_bound _ _ Hw) as (Hlen&Hb&Hp).
  unfold DENTRY_PER_GROUP in *.
  assert (pos_group_id pos = i /\ pos_offset pos = j) as [Eg Eo]
    by (apply set_pos_decode; lia).
  unfold read_dentry. cbn [negb]. rewrite Eg, Eo, (wf_group_cnt f d Hw).
  rewrite !swrap_small by lia. cbv zeta.
  replace i with (Z.of_nat (Z.to_nat i)) at 2 by lia.
  rewrite (emit_groups_offer actor) by (done || lia). unfold listing.
  by replace (Z.of_nat (Z.to_nat i)) with i by lia.
Qed.
End read.

(** * Properties *)

(** A bounded reader: it takes as many entries as its buffer has room for. *)
Definition fill (ctx : nat * list (bytes * Z * Z)) (name : bytes) (ino type : Z)
    : bool * (nat * list (bytes * Z * Z)) :=
  match ctx with
  | (O, l) => (false, (O, l))
  | (S n, l) => (true, (n, l ++ [(name, ino, type)]))
  end.

Definition triple (e : lentry) : bytes * Z * Z := (le_name e, le_ino e, le_type e).

Lemma offer_fill es n l :
  offer fill es (n, l)
  = match drop n es with
    | [] => inl ((n - length es)%nat, l ++ map triple es)
    | e :: _ => inr ((O, l ++ map triple (take n es)), hmdfs_set_pos 0 (le_group e) (le_slot e))
    end.
Proof.
  revert n l; induction es as [|e es IH]; intros n l.
  - rewrite drop_nil, app_nil_r, Nat.sub_0_r. done.
  - cbn [offer]. destruct n as [|n]; cbn [fill].
    + cbn. by rewrite app_nil_r.
    + rewrite IH. cbn [drop length Nat.sub take map]. by destruct (drop n es); rewrite <- app_assoc.
Qed.









(** read_dentry into a buffer that takes [n] entries, then again from the position
    it stopped at: together they deliver the whole listing, in order, no entry
    skipped and none twice, and the last call reports the end (0). *)
Theorem read_dentry_resumes {F : Type} `{CacheFileLaws F} (f : F) d n n' :
  wf_groups (view f) d ->
  (length (listing (view f) 0 0) <= n + n')%nat ->
  let r := read_dentry fill true true true (Some f) (hmdfs_set_pos 0 0 0) (n, []) in
  rd_cred_overridden r = false /\
  (rd_ret r = 0 -> (rd_ctx r).2 = map triple (listing (view f) 0 0)) /\
  (rd_ret r <> 0 -> rd_ret r = 1 /\ length (rd_ctx r).2 = n /\
     let r' := read_dentry fill true true true (Some f) (rd_pos r) (n', (rd_ctx r).2) in
     rd_ret r' = 0 /\ (rd_ctx r').2 = map triple (listing (view f) 0 0)).
Proof.
  intros Hw Hn r. unfold r. rewrite (read_dentry_offer fill f d 0 0) by (done || lia).
  set (es := listing (view f) 0 0) in *. rewrite offer_fill.
  destruct (drop n es) as [|e es'] eqn:E; cbn [rd_cred_overridden rd_ret rd_ctx rd_pos snd].
  { done. }
  split; [done|]. split; [done|]. intros _. split; [done|].
  pose proof (f_equal length E) as El. rewrite length_drop in El. cbn in El.
  split; [cbn [app]; rewrite length_map, length_take; lia|].
  assert (es = take n es ++ e :: es') as Es by (rewrite <- E; by rewrite take_drop).
  destruct (listing_suffix (view f) 0 0 (take n es) e es') as (Hg&Hs&Hsuf);
    [lia|unfold DENTRY_PER_GROUP; lia|exact Es|].
  rewrite (read_dentry_offer fill f d (le_group e) (le_slot e)) by (done || lia).
  rewrite Hsuf, offer_fill, (drop_ge (e :: es')) by (cbn; lia).
  cbn [rd_ret rd_ctx snd app]. split; [done|]. by rewrite <- map_app, <- Es.
Qed.

Lemma read_dentry_resumes_witness :
  let f := mk_memfile [zero_group; zero_group] ∅ in
  wf_groups (view f) 1 /\ (length (listing (view f) 0 0) <= 1 + 1)%nat /\
  let r := read_dentry fill true true true (Some f) (hmdfs_set_pos 0 0 0) (1%nat, []) in
  rd_cred_overridden r = false /\
  (rd_ret r = 0 -> (rd_ctx r).2 = map triple (listing (view f) 0 0)) /\
  (rd_ret r <> 0 -> rd_ret r = 1 /\ length (rd_ctx r).2 = 1%nat /\
     let r' := read_dentry fill true true true (Some f) (rd_pos r) (1%nat, (rd_ctx r).2) in
     rd_ret r' = 0 /\ (rd_ctx r').2 = map triple (listing (view f) 0 0)).
Proof.
  assert (wf_groups (view (mk_memfile [zero_group; zero_group] ∅)) 1) as Hw.
  { split; [lia|done|]. intros [|[|i]] g Hi; simplify_eq/=; exists []; apply zero_group_wf. }
  split; [exact Hw|]. split; [vm_compute; lia|].
  apply (read_dentry_resumes _ 1 1 1 Hw). vm_compute. lia.
Defined.
