(* ===== verification/Protocol.v ===== *)
(** The wire protocol (comm/protocol.h): packed message layouts, commands, the
    message head, reads and writes of fields in a message buffer, and C strings. *)
From S2P Require Import Prelude.

Open Scope string_scope.
Open Scope list_scope.
Open Scope Z_scope.

(** * Packed layouts *)

(** A packed struct is its fields in order with their widths in bytes. *)
Definition layout : Type := list (string * nat).

Fixpoint size_of (st : layout) : nat :=
  match st with [] => O | (_, w) :: st => (w + size_of st)%nat end.

Definition sizeof (st : layout) : Z := Z.of_nat (size_of st).

(** Offset and width of a field. *)
Fixpoint field_at (st : layout) (f : string) : option (nat * nat) :=
  match st with
  | [] => None
  | (g, w) :: st =>
      if String.eqb f g then Some (O, w)
      else match field_at st f with
           | Some (off, w') => Some ((w + off)%nat, w')
           | None => None
           end
  end.

(** Reading [n] bytes of a buffer at [off]; [None] is a read outside of it. *)
Definition read_le (msg : bytes) (off n : nat) : option Z :=
  if decide (off + n <= length msg)%nat then Some (le_dec (sub off n msg)) else None.

(** Field [f] of the struct [st] at [msg]: the raw little-endian value. *)
Definition fld (st : layout) (msg : bytes) (f : string) : option Z :=
  match field_at st f with
  | Some (off, w) => read_le msg off w
  | None => None
  end.

(** Assignment of [v] to that field. *)
Definition put (st : layout) (f : string) (v : Z) (msg : bytes) : bytes :=
  match field_at st f with
  | Some (off, w) => memcpy_at off (le_enc w v) msg
  | None => msg
  end.

(** * The message head *)

Definition hmdfs_cmd : layout :=
  [("reserved", 1%nat); ("cmd_flag", 1%nat); ("command", 1%nat); ("reserved2", 1%nat)].

Definition HMDFS_MSG_MAGIC := 0xF7.
Definition HMDFS_MAX_MESSAGE_LEN := 8 * 1024 * 1024.

Definition hmdfs_head_cmd : layout :=
  [("magic", 1%nat); ("version", 1%nat); ("reserved", 2%nat); ("data_len", 4%nat)] ++
  hmdfs_cmd ++ [("ret_code", 4%nat); ("msg_id", 4%nat); ("reserved1", 4%nat)].

Definition slice_descriptor : layout :=
  [("num_slices", 4%nat); ("slice_size", 4%nat); ("slice_sn", 4%nat); ("content_size", 4%nat)].

Definition HMDFS_VERSION := 0x40.
Definition C_REQUEST := 0.
Definition C_RESPONSE := 1.
Definition C_FLAG_SIZE := 2.

(** enum FILE_CMD *)
Definition F_OPEN := 0.
Definition F_RELEASE := 1.
Definition F_READPAGE := 2.
Definition F_WRITEPAGE := 3.
Definition F_ITERATE := 4.
Definition F_RESERVED_1 := 5.
Definition F_RESERVED_2 := 6.
Definition F_RESERVED_3 := 7.
Definition F_RESERVED_4 := 8.
Definition F_MKDIR := 9.
Definition F_RMDIR := 10.
Definition F_CREATE := 11.
Definition F_UNLINK := 12.
Definition F_RENAME := 13.
Definition F_SETATTR := 14.
Definition F_RESERVED_5 := 15.
Definition F_STATFS := 16.
Definition F_CONNECT_REKEY := 17.
Definition F_DROP_PUSH := 18.
Definition F_RESERVED_6 := 19.
Definition F_GETATTR := 20.
Definition F_FSYNC := 21.
Definition F_SYNCFS := 22.
Definition F_GETXATTR := 23.
Definition F_SETXATTR := 24.
Definition F_LISTXATTR := 25.
Definition F_RESERVED_7 := 26.
Definition F_RESERVED_8 := 27.
Definition F_ATOMIC_OPEN := 28.
Definition F_SIZE := 29.

(** * Requests and responses *)

Definition open_request : layout := [("file_type", 1%nat); ("flags", 4%nat); ("path_len", 4%nat)].

Definition open_response : layout :=
  [("change_detect_cap", 4%nat); ("file_ver", 8%nat); ("file_id", 4%nat); ("file_size", 8%nat);
   ("ino", 8%nat); ("ctime", 8%nat); ("ctime_nsec", 4%nat); ("mtime", 8%nat);
   ("mtime_nsec", 4%nat); ("stable_ctime", 8%nat); ("stable_ctime_nsec", 4%nat);
   ("ichange_count", 8%nat)].

Definition atomic_open_request : layout :=
  [("open_flags", 4%nat); ("mode", 2%nat); ("reserved1", 2%nat); ("path_len", 4%nat);
   ("file_len", 4%nat); ("reserved2", 32%nat)].

Definition atomic_open_response : layout :=
  [("fno", 4%nat); ("i_mode", 2%nat); ("reserved1", 2%nat); ("i_flags", 4%nat);
   ("reserved2", 4%nat); ("reserved3", 32%nat); ("open_resp", size_of open_response)].

Definition release_request : layout := [("file_ver", 8%nat); ("file_id", 4%nat)].

Definition fsync_request : layout :=
  [("file_ver", 8%nat); ("file_id", 4%nat); ("datasync", 4%nat); ("start", 8%nat); ("end", 8%nat)].

Definition readpage_request : layout :=
  [("file_ver", 8%nat); ("file_id", 4%nat); ("size", 4%nat); ("index", 8%nat)].

Definition writepage_request : layout :=
  [("file_ver", 8%nat); ("file_id", 4%nat); ("index", 8%nat); ("count", 4%nat)].

Definition writepage_response : layout :=
  [("ichange_count", 8%nat); ("ctime", 8%nat); ("ctime_nsec", 4%nat)].

Definition readdir_request : layout :=
  [("dcache_crtime", 8%nat); ("dcache_crtime_nsec", 8%nat); ("dentry_ctime", 8%nat);
   ("dentry_ctime_nsec", 8%nat); ("num", 8%nat); ("verify_cache", 4%nat); ("path_len", 4%nat)].

Definition hmdfs_inodeinfo_response : layout :=
  [("i_size", 8%nat); ("i_mtime", 8%nat); ("i_mtime_nsec", 4%nat); ("fno", 4%nat);
   ("i_mode", 2%nat); ("i_ino", 8%nat); ("i_flags", 4%nat); ("i_reserved", 4%nat)].

Definition mkdir_request : layout := [("path_len", 4%nat); ("name_len", 4%nat); ("mode", 2%nat)].

Definition create_request : layout :=
  [("path_len", 4%nat); ("name_len", 4%nat); ("mode", 2%nat); ("want_excl", 1%nat)].

Definition rmdir_request : layout := [("path_len", 4%nat); ("name_len", 4%nat)].

Definition unlink_request : layout := [("path_len", 4%nat); ("name_len", 4%nat)].

Definition rename_request : layout :=
  [("old_path_len", 4%nat); ("new_path_len", 4%nat); ("old_name_len", 4%nat);
   ("new_name_len", 4%nat); ("flags", 4%nat)].

Definition drop_push_request : layout := [("path_len", 4%nat)].

Definition setattr_request : layout :=
  [("size", 8%nat); ("valid", 4%nat); ("mode", 2%nat); ("uid", 4%nat); ("gid", 4%nat);
   ("atime", 8%nat); ("atime_nsec", 4%nat); ("mtime", 8%nat); ("mtime_nsec", 4%nat);
   ("path_len", 4%nat)].

Definition getattr_request : layout := [("lookup_flags", 4%nat); ("path_len", 4%nat)].

Definition getattr_response : layout :=
  [("change_detect_cap", 4%nat); ("result_mask", 4%nat); ("flags", 4%nat); ("fsid", 8%nat);
   ("mode", 2%nat); ("nlink", 4%nat); ("uid", 4%nat); ("gid", 4%nat); ("rdev", 4%nat);
   ("ino", 8%nat); ("size", 8%nat); ("blocks", 8%nat); ("blksize", 4%nat); ("atime", 8%nat);
   ("atime_nsec", 4%nat); ("mtime", 8%nat); ("mtime_nsec", 4%nat); ("ctime", 8%nat);
   ("ctime_nsec", 4%nat); ("crtime", 8%nat); ("crtime_nsec", 4%nat); ("ichange_count", 8%nat)].

Definition statfs_request : layout := [("path_len", 4%nat)].

Definition statfs_response : layout :=
  [("f_type", 8%nat); ("f_bsize", 8%nat); ("f_blocks", 8%nat); ("f_bfree", 8%nat);
   ("f_bavail", 8%nat); ("f_files", 8%nat); ("f_ffree", 8%nat); ("f_fsid_0", 4%nat);
   ("f_fsid_1", 4%nat); ("f_namelen", 8%nat); ("f_frsize", 8%nat); ("f_flags", 8%nat);
   ("f_spare_0", 8%nat); ("f_spare_1", 8%nat); ("f_spare_2", 8%nat); ("f_spare_3", 8%nat)].

Definition syncfs_request : layout := [("version", 8%nat); ("flags", 4%nat)].

Definition getxattr_request : layout :=
  [("path_len", 4%nat); ("name_len", 4%nat); ("size", 4%nat)].

Definition getxattr_response : layout := [("size", 4%nat)].

Definition setxattr_request : layout :=
  [("path_len", 4%nat); ("name_len", 4%nat); ("size", 4%nat); ("flags", 4%nat); ("del", 1%nat)].

Definition listxattr_request : layout := [("path_len", 4%nat); ("size", 4%nat)].

Definition listxattr_response : layout := [("size", 4%nat)].

Definition connection_rekey_request : layout := [("update_request", 4%nat)].

(** * Encoded structs *)

Definition encode (st : layout) (env : string -> Z) : bytes :=
  concat (map (fun p => le_enc p.2 (env p.1)) st).

Definition upd (env : string -> Z) (f : string) (v : Z) : string -> Z :=
  fun g => if String.eqb g f then v else env g.

Lemma length_encode st env : length (encode st env) = size_of st.
Proof.
  induction st as [|[f w] st IH]; [done|].
  unfold encode in *. cbn. rewrite length_app, length_le_enc, IH. done.
Qed.

Lemma encode_cons f w st env : encode ((f, w) :: st) env = le_enc w (env f) ++ encode st env.
Proof. done. Qed.

Lemma encode_ext st env env' :
  (forall f, f ∈ map fst st -> env f = env' f) -> encode st env = encode st env'.
Proof.
  induction st as [|[f w] st IH]; intros H; [done|]. rewrite !encode_cons.
  rewrite (H f) by (cbn; set_solver). rewrite IH; [done|]. intros g Hg. apply H. cbn. set_solver.
Qed.

Lemma encode_zero st : encode st (fun _ => 0) = replicate (size_of st) 0.
Proof.
  induction st as [|[f w] st IH]; [done|]. rewrite encode_cons, IH. cbn [size_of].
  rewrite replicate_add. f_equal. clear. induction w; [done|]. cbn. by f_equal.
Qed.

(** A field of an encoded struct reads back as its value, cut to its width. *)
Lemma fld_encode st env rest f off w :
  field_at st f = Some (off, w) ->
  fld st (encode st env ++ rest) f = Some (env f mod 256 ^ Z.of_nat w).
Proof.
  unfold fld. intros E. rewrite E. revert off E.
  induction st as [|[g wg] st IH]; intros off E; [done|]. cbn [field_at] in E.
  rewrite encode_cons, <- app_assoc. destruct (String.eqb f g) eqn:Eg.
  - apply String.eqb_eq in Eg. simplify_eq. unfold read_le.
    rewrite decide_True by (rewrite length_app, length_le_enc; lia).
    f_equal. unfold sub. rewrite drop_0, take_app_length' by (by rewrite length_le_enc).
    apply le_dec_enc_mod.
  - destruct (field_at st f) as [[off' w']|]; [|done]. simplify_eq.
    specialize (IH off' eq_refl). unfold read_le in *.
    rewrite length_app, length_le_enc. case_decide; [|done].
    rewrite decide_True by lia. unfold sub in *.
    rewrite drop_app_add' by (by rewrite length_le_enc). done.
Qed.

(** Writing a field of an encoded struct. *)
Lemma put_encode st env rest f v :
  NoDup (map fst st) -> f ∈ map fst st ->
  put st f v (encode st env ++ rest) = encode st (upd env f v) ++ rest.
Proof.
  intros Hnd Hin. unfold put.
  enough (exists off w, field_at st f = Some (off, w) /\
    memcpy_at off (le_enc w v) (encode st env ++ rest) = encode st (upd env f v) ++ rest)
    as (off&w&->&?) by done.
  revert Hnd Hin. induction st as [|[g w] st IH]; intros Hnd Hin; [by apply elem_of_nil in Hin|].
  cbn [map fst] in *. apply list.NoDup_cons in Hnd as [Hg Hnd].
  cbn [field_at]. rewrite !encode_cons, <- !app_assoc. unfold upd at 1.
  destruct (String.eqb f g) eqn:E.
  - apply String.eqb_eq in E as ->. rewrite String.eqb_refl. exists O, w. split; [done|].
    unfold memcpy_at. rewrite length_le_enc, Nat.add_0_l, take_0, app_nil_l.
    rewrite drop_app_length' by (by rewrite length_le_enc). f_equal. f_equal.
    apply encode_ext. intros f Hf. unfold upd.
    destruct (String.eqb f g) eqn:E; [|done]. apply String.eqb_eq in E as ->. done.
  - apply elem_of_cons in Hin as [->|Hin]; [by rewrite String.eqb_refl in E|].
    destruct (IH Hnd Hin) as (off&w'&->&H). exists (w + off)%nat, w'. split; [done|].
    rewrite String.eqb_sym, E. unfold memcpy_at in *.
    rewrite take_app_add', <- Nat.add_assoc, drop_app_add' by (by rewrite length_le_enc).
    rewrite <- app_assoc. by f_equal.
Qed.

(** * C strings *)

(** strnlen of the string at [off]: [None] when it reads past the buffer. *)
Fixpoint rd_strnlen (l : bytes) (max : nat) : option nat :=
  match max, l with
  | O, _ => Some O
  | _, [] => None
  | S max, b :: l => if b =? 0 then Some O else S <$> rd_strnlen l max
  end.

Definition nul_free (s : bytes) : Prop := Forall (fun b => b <> 0) s.

(** Consecutive NUL-terminated strings, as the requests carry them. *)
Definition c_strings (ss : list bytes) : bytes := concat (map (fun s => s ++ [0]) ss).

Lemma rd_strnlen_some l max n :
  (n < max)%nat -> l !! n = Some 0 -> exists k, rd_strnlen l max = Some k /\ (k <= n)%nat.
Proof.
  revert l n; induction max as [|max IH]; intros l n Hn Hl; [lia|].
  destruct l as [|b l]; [done|]. cbn. destruct (b =? 0) eqn:E; [exists O; split; [done|lia]|].
  destruct n as [|n]; [simplify_eq/=; done|]. destruct (IH l n) as (k&->&?); [lia|done|].
  exists (S k). split; [done|lia].
Qed.

Lemma rd_strnlen_spec l max n rest :
  (n < max)%nat ->
  (rd_strnlen l max = Some n /\ l !! n = Some 0 /\ rest = drop (S n) l)
  <-> exists s, length s = n /\ nul_free s /\ l = s ++ 0 :: rest.
Proof.
  revert l n; induction max as [|max IH]; intros l n Hn; [lia|]. split.
  - intros (H1&H2&->). destruct l as [|b l]; [done|]. cbn in H1.
    destruct (b =? 0) eqn:E; zb.
    + simplify_eq. exists []. cbn. split; [done|]. split; [constructor|]. by rewrite drop_0.
    + destruct (rd_strnlen l max) as [k|] eqn:Ek; [|done]. simplify_eq/=.
      destruct (IH l k ltac:(lia)) as [(s&Hs&Hf&El) _]; [done|].
      exists (b :: s). cbn. split; [by f_equal|]. split; [by constructor|].
      cbn in El. by f_equal.
  - intros (s&Hs&Hf&->). destruct s as [|b s]; cbn in *.
    + subst n. done.
    + inversion Hf; subst. rewrite (proj2 (Z.eqb_neq b 0)) by done.
      destruct (IH (s ++ 0 :: rest) (length s) ltac:(lia)) as [_ (E1&E2&E3)]; [by exists s|].
      rewrite E1. done.
Qed.

Lemma fld_range st msg f v : Forall is_byte msg -> fld st msg f = Some v -> 0 <= v.
Proof.
  intros Hm. unfold fld. destruct (field_at st f) as [[off w]|]; [|done]. unfold read_le.
  case_decide; [|done]. intros [= <-]. apply le_dec_range. unfold sub.
  apply Forall_take, Forall_drop, Hm.
Qed.

Lemma fld_some st msg f :
  is_Some (field_at st f) -> (size_of st <= length msg)%nat -> is_Some (fld st msg f).
Proof.
  intros [[off w] E] Hl. unfold fld, read_le. rewrite E.
  assert (off + w <= size_of st)%nat.
  { clear Hl. revert off E. induction st as [|[g wg] st IH]; intros off E; [done|]. cbn in *.
    destruct (String.eqb f g); simplify_eq; [lia|].
    destruct (field_at st f) as [[]|]; simplify_eq. specialize (IH _ eq_refl). lia. }
  rewrite decide_True by lia. done.
Qed.
