(* ===== verification/MessageVerify.v ===== *)
(** Verification of received messages (comm/message_verify.c): the length table,
    one verifier per command, the handling of bad messages and
    hmdfs_message_verify, which every received message passes before it is
    dispatched.  Reads of the message buffer are checked: [None] means that the
    code read outside of it.  Fields are compared as raw values, as the code does
    (little-endian hosts). *)
From S2P Require Import Prelude Protocol.

Open Scope string_scope.
Open Scope list_scope.
Open Scope Z_scope.

(** * The length table *)

Definition XATTR_NAME_MAX := 255.
Definition XATTR_SIZE_MAX := 65536.
Definition XATTR_LIST_MAX := 65536.
Definition HMDFS_PAGE_SIZE := 4096.
Definition PAGE_SIZE := 4096.
Definition HMDFS_XATTR_SIZE_MAX := 4096.
Definition HMDFS_LISTXATTR_SIZE_MAX := 4096.

Definition MESSAGE_LEN_JUDGE_RANGE := 0.
Definition MESSAGE_LEN_JUDGE_BIN := 1.

Definition need_response (cmd : Z) : bool :=
  negb ((cmd =? F_RELEASE) || (cmd =? F_CONNECT_REKEY) || (cmd =? F_DROP_PUSH)).

(** The three cells message_length[flag][cmd] of a command. *)
Record length_row := mk_row {
  lr_flag : Z;
  lr_cmd : Z;
  lr_min : Z;
  lr_max : Z;
  lr_judge : Z
}.

Definition message_length_file : list length_row := [
  mk_row C_REQUEST F_OPEN (sizeof open_request) (sizeof open_request + PATH_MAX + 1)
    MESSAGE_LEN_JUDGE_RANGE;
  mk_row C_RESPONSE F_OPEN 0 (sizeof open_response) MESSAGE_LEN_JUDGE_BIN;
  mk_row C_REQUEST F_ATOMIC_OPEN (sizeof atomic_open_request)
    (sizeof atomic_open_request + PATH_MAX + NAME_MAX + 1) MESSAGE_LEN_JUDGE_RANGE;
  mk_row C_RESPONSE F_ATOMIC_OPEN 0 (sizeof atomic_open_response) MESSAGE_LEN_JUDGE_BIN;
  mk_row C_REQUEST F_RELEASE (sizeof release_request) (sizeof release_request)
    MESSAGE_LEN_JUDGE_BIN;
  mk_row C_REQUEST F_FSYNC (sizeof fsync_request) (sizeof fsync_request) MESSAGE_LEN_JUDGE_BIN;
  mk_row C_RESPONSE F_FSYNC 0 0 MESSAGE_LEN_JUDGE_BIN;
  mk_row C_REQUEST F_READPAGE (sizeof readpage_request) (sizeof readpage_request)
    MESSAGE_LEN_JUDGE_BIN;
  mk_row C_RESPONSE F_READPAGE 0 HMDFS_PAGE_SIZE MESSAGE_LEN_JUDGE_RANGE;
  mk_row C_REQUEST F_WRITEPAGE (sizeof writepage_request + HMDFS_PAGE_SIZE)
    (sizeof writepage_request + HMDFS_PAGE_SIZE) MESSAGE_LEN_JUDGE_BIN;
  mk_row C_RESPONSE F_WRITEPAGE 0 (sizeof writepage_response) MESSAGE_LEN_JUDGE_BIN;
  mk_row C_REQUEST F_ITERATE (sizeof readdir_request) (sizeof readdir_request + PATH_MAX + 1)
    MESSAGE_LEN_JUDGE_RANGE;
  mk_row C_RESPONSE F_ITERATE 0 (8 + HMDFS_MAX_MESSAGE_LEN) MESSAGE_LEN_JUDGE_RANGE
].

Definition message_length_dir : list length_row := [
  mk_row C_REQUEST F_MKDIR (sizeof mkdir_request)
    (sizeof mkdir_request + PATH_MAX + NAME_MAX + 2) MESSAGE_LEN_JUDGE_RANGE;
  mk_row C_RESPONSE F_MKDIR (sizeof hmdfs_inodeinfo_response) (sizeof hmdfs_inodeinfo_response)
    MESSAGE_LEN_JUDGE_BIN;
  mk_row C_REQUEST F_CREATE (sizeof create_request)
    (sizeof create_request + PATH_MAX + NAME_MAX + 2) MESSAGE_LEN_JUDGE_RANGE;
  mk_row C_RESPONSE F_CREATE (sizeof hmdfs_inodeinfo_response) (sizeof hmdfs_inodeinfo_response)
    MESSAGE_LEN_JUDGE_BIN;
  mk_row C_REQUEST F_RMDIR (sizeof rmdir_request)
    (sizeof rmdir_request + PATH_MAX + NAME_MAX + 2) MESSAGE_LEN_JUDGE_RANGE;
  mk_row C_RESPONSE F_RMDIR 0 0 MESSAGE_LEN_JUDGE_BIN;
  mk_row C_REQUEST F_UNLINK (sizeof unlink_request)
    (sizeof unlink_request + PATH_MAX + NAME_MAX + 2) MESSAGE_LEN_JUDGE_RANGE;
  mk_row C_RESPONSE F_UNLINK 0 0 MESSAGE_LEN_JUDGE_BIN;
  mk_row C_REQUEST F_RENAME (sizeof rename_request) (sizeof rename_request + 4 + 4 * PATH_MAX)
    MESSAGE_LEN_JUDGE_RANGE;
  mk_row C_RESPONSE F_RENAME 0 0 MESSAGE_LEN_JUDGE_BIN;
  mk_row C_REQUEST F_SETATTR (sizeof setattr_request) (sizeof setattr_request + PATH_MAX + 1)
    MESSAGE_LEN_JUDGE_RANGE;
  mk_row C_RESPONSE F_SETATTR 0 0 MESSAGE_LEN_JUDGE_BIN;
  mk_row C_REQUEST F_GETATTR (sizeof getattr_request) (sizeof getattr_request + PATH_MAX + 1)
    MESSAGE_LEN_JUDGE_RANGE;
  mk_row C_RESPONSE F_GETATTR 0 (sizeof getattr_response) MESSAGE_LEN_JUDGE_BIN
].

Definition message_length_fs : list length_row := [
  mk_row C_REQUEST F_STATFS (sizeof statfs_request) (sizeof statfs_request + PATH_MAX + 1)
    MESSAGE_LEN_JUDGE_RANGE;
  mk_row C_RESPONSE F_STATFS 0 (sizeof statfs_response) MESSAGE_LEN_JUDGE_BIN;
  mk_row C_REQUEST F_SYNCFS (sizeof syncfs_request) (sizeof syncfs_request)
    MESSAGE_LEN_JUDGE_BIN;
  mk_row C_RESPONSE F_SYNCFS 0 0 MESSAGE_LEN_JUDGE_BIN;
  mk_row C_REQUEST F_GETXATTR (sizeof getxattr_request)
    (sizeof getxattr_request + PATH_MAX + XATTR_NAME_MAX + 2) MESSAGE_LEN_JUDGE_RANGE;
  mk_row C_RESPONSE F_GETXATTR 0 (sizeof getxattr_response + HMDFS_XATTR_SIZE_MAX)
    MESSAGE_LEN_JUDGE_RANGE;
  mk_row C_REQUEST F_SETXATTR (sizeof setxattr_request)
    (sizeof setxattr_request + PATH_MAX + XATTR_NAME_MAX + HMDFS_XATTR_SIZE_MAX + 2)
    MESSAGE_LEN_JUDGE_RANGE;
  mk_row C_RESPONSE F_SETXATTR 0 0 MESSAGE_LEN_JUDGE_BIN;
  mk_row C_REQUEST F_LISTXATTR (sizeof listxattr_request)
    (sizeof listxattr_request + PATH_MAX + 1) MESSAGE_LEN_JUDGE_RANGE;
  mk_row C_RESPONSE F_LISTXATTR 0 (sizeof listxattr_response + HMDFS_LISTXATTR_SIZE_MAX)
    MESSAGE_LEN_JUDGE_RANGE;
  mk_row C_REQUEST F_CONNECT_REKEY (sizeof connection_rekey_request)
    (sizeof connection_rekey_request) MESSAGE_LEN_JUDGE_BIN;
  mk_row C_REQUEST F_DROP_PUSH (sizeof drop_push_request)
    (sizeof drop_push_request + PATH_MAX + 1) MESSAGE_LEN_JUDGE_RANGE
].

(** What hmdfs_message_verify_init leaves in message_length: every cell starts as
    the empty range (1, 0), and each listed pair is assigned once. *)
Definition message_length (flag cmd : Z) : length_row :=
  default (mk_row flag cmd 1 0 MESSAGE_LEN_JUDGE_RANGE)
    (List.find (fun r => (lr_flag r =? flag) && (lr_cmd r =? cmd))
       (message_length_file ++ message_length_dir ++ message_length_fs)).

(** * The strings of a request *)

(** [msg] points at the first string. *)
Fixpoint is_str_msg_valid (msg : bytes) (str_len : list Z) : option Z :=
  match str_len with
  | [] => Some 0
  | len :: str_len =>
      c ← msg !! Z.to_nat len;
      if negb (c =? 0) then Some (- EINVAL)
      else
        n ← rd_strnlen msg (Z.to_nat PATH_MAX);
        if negb (Z.of_nat n =? len) then Some (- EINVAL)
        else is_str_msg_valid (drop (Z.to_nat len + 1) msg) str_len
  end.

(** The common body of the verify_*_req functions: the length fields [names] of
    [st], the exact message length with [extra] trailing bytes, a further check
    [bad], and the strings after the struct. *)
Definition verify_strs (st : layout) (names : list string) (extra : Z) (bad : bool)
    (msg_len : Z) (msg : bytes) : option Z :=
  str_len ← mapM (fld st msg) names;
  if existsb (fun l => (l <? 0) || (PATH_MAX <=? l)) str_len then Some (- EINVAL)
  else if negb (msg_len =? u64 (sizeof st + foldr (fun l n => l + 1 + n) 0 str_len + extra))
  then Some (- EINVAL)
  else if bad then Some (- EINVAL)
  else
    r ← is_str_msg_valid (drop (size_of st) msg) str_len;
    Some (if r =? 0 then 0 else - EINVAL).

Definition exact_size (st : layout) (msg_len : Z) (msg : bytes) : option Z :=
  Some (if negb (msg_len =? sizeof st) then - EINVAL else 0).

(** The dispatch on the flag shared by the hmdfs_*_verify functions. *)
Definition by_flag (req resp : Z -> bytes -> option Z) (flag msg_len : Z) (msg : option bytes)
    : option Z :=
  match msg with
  | None => Some 0
  | Some m =>
      if msg_len =? 0 then Some 0
      else if flag =? C_REQUEST then req msg_len m else resp msg_len m
  end.

Definition no_check (msg_len : Z) (msg : bytes) : option Z := Some 0.

(** * One verifier per command *)

Definition verify_open_req := verify_strs open_request ["path_len"] 0 false.
Definition verify_open_resp := exact_size open_response.
Definition hmdfs_open_verify := by_flag verify_open_req verify_open_resp.

Definition verify_atomic_open_req :=
  verify_strs atomic_open_request ["path_len"; "file_len"] 0 false.
Definition verify_atomic_open_resp := exact_size atomic_open_response.
Definition hmdfs_atomic_open_verify := by_flag verify_atomic_open_req verify_atomic_open_resp.

Definition verify_iterate_req := verify_strs readdir_request ["path_len"] 0 false.
Definition hmdfs_iterate_verify := by_flag verify_iterate_req no_check.

Definition verify_mkdir_req := verify_strs mkdir_request ["path_len"; "name_len"] 0 false.
Definition verify_mkdir_resp := exact_size hmdfs_inodeinfo_response.
Definition hmdfs_mkdir_verify := by_flag verify_mkdir_req verify_mkdir_resp.

Definition verify_create_req := verify_strs create_request ["path_len"; "name_len"] 0 false.
Definition verify_create_resp := exact_size hmdfs_inodeinfo_response.
Definition hmdfs_create_verify := by_flag verify_create_req verify_create_resp.

Definition verify_rmdir_req := verify_strs rmdir_request ["path_len"; "name_len"] 0 false.
Definition hmdfs_rmdir_verify := by_flag verify_rmdir_req no_check.

Definition verify_unlink_req := verify_strs unlink_request ["path_len"; "name_len"] 0 false.
Definition hmdfs_unlink_verify := by_flag verify_unlink_req no_check.

Definition verify_rename_req :=
  verify_strs rename_request ["old_path_len"; "new_path_len"; "old_name_len"; "new_name_len"]
    0 false.
Definition hmdfs_rename_verify := by_flag verify_rename_req no_check.

Definition verify_setattr_req := verify_strs setattr_request ["path_len"] 0 false.
Definition hmdfs_setattr_verify := by_flag verify_setattr_req no_check.

Definition verify_getattr_req := verify_strs getattr_request ["path_len"] 0 false.
Definition verify_getattr_resp := exact_size getattr_response.
Definition hmdfs_getattr_verify := by_flag verify_getattr_req verify_getattr_resp.

Definition verify_getxattr_req (msg_len : Z) (msg : bytes) : option Z :=
  name_len ← fld getxattr_request msg "name_len";
  size ← fld getxattr_request msg "size";
  verify_strs getxattr_request ["path_len"; "name_len"] 0
    ((XATTR_NAME_MAX <? name_len) || (size <? 0) || (XATTR_SIZE_MAX <? size)) msg_len msg.

(** [sizeof] of one char of the flexible array is 1. *)
Definition verify_getxattr_resp (msg_len : Z) (msg : bytes) : option Z :=
  size ← fld getxattr_response msg "size";
  Some (if negb (size =? 1) then - EINVAL
        else if msg_len <? sizeof getxattr_response then - EINVAL
        else if XATTR_SIZE_MAX <? size then - EINVAL
        else 0).
Definition hmdfs_getxattr_verify := by_flag verify_getxattr_req verify_getxattr_resp.

Definition verify_setxattr_req (msg_len : Z) (msg : bytes) : option Z :=
  name_len ← fld setxattr_request msg "name_len";
  size ← fld setxattr_request msg "size";
  verify_strs setxattr_request ["path_len"; "name_len"] size
    ((XATTR_NAME_MAX <? name_len) || (size <? 0) || (XATTR_SIZE_MAX <? size)) msg_len msg.
Definition hmdfs_setxattr_verify := by_flag verify_setxattr_req no_check.

Definition verify_listxattr_req (msg_len : Z) (msg : bytes) : option Z :=
  size ← fld listxattr_request msg "size";
  verify_strs listxattr_request ["path_len"] 0 ((size <? 0) || (XATTR_LIST_MAX <? size))
    msg_len msg.
Definition verify_listxattr_resp (msg_len : Z) (msg : bytes) : option Z :=
  size ← fld listxattr_response msg "size";
  Some (if negb (size =? 1) then - EINVAL
        else if msg_len <? sizeof listxattr_response then - EINVAL
        else if XATTR_LIST_MAX <? size then - EINVAL
        else 0).
Definition hmdfs_listxattr_verify := by_flag verify_listxattr_req verify_listxattr_resp.

Definition hmdfs_readpage_verify := by_flag (exact_size readpage_request) no_check.

Definition verify_writepage_req (msg_len : Z) (msg : bytes) : option Z :=
  count ← fld writepage_request msg "count";
  Some (if (count <=? 0) || (HMDFS_PAGE_SIZE <? count) then - EINVAL
        else if negb (msg_len =? sizeof writepage_request + HMDFS_PAGE_SIZE) then - EINVAL
        else 0).
Definition hmdfs_writepage_verify := by_flag verify_writepage_req no_check.

Definition verify_statfs_req := verify_strs statfs_request ["path_len"] 0 false.
Definition verify_statfs_resp := exact_size statfs_response.
Definition hmdfs_statfs_verify := by_flag verify_statfs_req verify_statfs_resp.

Definition verify_drop_push_req := verify_strs drop_push_request ["path_len"] 0 false.
Definition hmdfs_drop_push_verify := by_flag verify_drop_push_req no_check.

(** The table; the commands it does not list have no verifier. *)
Definition message_verify_table : list (Z * (Z -> Z -> option bytes -> option Z)) :=
  [(F_OPEN, hmdfs_open_verify); (F_READPAGE, hmdfs_readpage_verify);
   (F_WRITEPAGE, hmdfs_writepage_verify); (F_ITERATE, hmdfs_iterate_verify);
   (F_MKDIR, hmdfs_mkdir_verify); (F_RMDIR, hmdfs_rmdir_verify);
   (F_CREATE, hmdfs_create_verify); (F_UNLINK, hmdfs_unlink_verify);
   (F_RENAME, hmdfs_rename_verify); (F_SETATTR, hmdfs_setattr_verify);
   (F_STATFS, hmdfs_statfs_verify); (F_DROP_PUSH, hmdfs_drop_push_verify);
   (F_GETATTR, hmdfs_getattr_verify); (F_GETXATTR, hmdfs_getxattr_verify);
   (F_SETXATTR, hmdfs_setxattr_verify); (F_LISTXATTR, hmdfs_listxattr_verify);
   (F_ATOMIC_OPEN, hmdfs_atomic_open_verify)].

Definition message_verify (cmd : Z) : option (Z -> Z -> option bytes -> option Z) :=
  snd <$> List.find (fun p => p.1 =? cmd) message_verify_table.

(** * hmdfs_message_verify *)

(** The head fields the verification looks at or changes, in CPU order. *)
Record head := mk_head {
  h_cmd_flag : Z;
  h_command : Z;
  h_data_len : Z;
  h_ret_code : Z
}.

(** The return value, the head afterwards, and the error response sent, if any. *)
Record verified := mk_verified {
  v_err : Z;
  v_head : head;
  v_sent : option Z
}.

Definition handle_bad_message (h : head) (err : Z) : verified :=
  if h_cmd_flag h =? C_RESPONSE then
    mk_verified 0
      (mk_head (h_cmd_flag h) (h_command h) (h_data_len h) (u32 (- EOPNOTSUPP))) None
  else if F_SIZE <=? h_command h then mk_verified err h None
  else mk_verified err h (if need_response (h_command h) then Some (- EOPNOTSUPP) else None).

Definition is_reserved_command (command : Z) : bool :=
  ((F_RESERVED_1 <=? command) && (command <=? F_RESERVED_4)) ||
  (command =? F_RESERVED_5) || (command =? F_RESERVED_6) ||
  (command =? F_RESERVED_7) || (command =? F_RESERVED_8).

(** [h = None] is a NULL head. *)
Definition hmdfs_message_verify (h : option head) (data : option bytes) : option (Z + verified) :=
  match h with
  | None => Some (inl (- EINVAL))
  | Some h =>
      let flag := h_cmd_flag h in
      if negb (flag =? C_REQUEST) && negb (flag =? C_RESPONSE) then Some (inl (- EINVAL))
      else
        let cmd := h_command h in
        if (F_SIZE <=? cmd) || (cmd <? F_OPEN) || is_reserved_command cmd then
          Some (inr (handle_bad_message h (- EINVAL)))
        else
          let len := u64 (h_data_len h - sizeof hmdfs_head_cmd) in
          let row := message_length flag cmd in
          let max := if (cmd =? F_ITERATE) && (flag =? C_RESPONSE)
                     then sizeof slice_descriptor + PAGE_SIZE else lr_max row in
          let bad := if lr_judge row =? MESSAGE_LEN_JUDGE_RANGE
                     then (len <? lr_min row) || (max <? len)
                     else negb (len =? lr_min row) && negb (len =? max) in
          if bad then Some (inr (handle_bad_message h (- EINVAL)))
          else
            err ← match message_verify cmd with
                  | Some verify => verify flag len data
                  | None => Some 0
                  end;
            if negb (err =? 0) then Some (inr (handle_bad_message h err))
            else Some (inr (mk_verified 0 h None))
  end.

#[global] Arguments message_length : simpl never.
#[global] Arguments message_verify : simpl never.
#[global] Arguments verify_strs : simpl never.

(** * What the string check accepts *)

Abbreviation str_total lens := (foldr (fun l n => l + 1 + n) 0 lens).
Definition str_lens (ss : list bytes) : list Z := map (fun s => Z.of_nat (length s)) ss.

(** [msg] starts with NUL-terminated strings of exactly the lengths [lens]. *)
Definition strings_at (msg : bytes) (lens : list Z) : Prop :=
  exists ss rest, msg = c_strings ss ++ rest /\ str_lens ss = lens /\ Forall nul_free ss.

Lemma length_c_strings ss : Z.of_nat (length (c_strings ss)) = str_total (str_lens ss).
Proof.
  induction ss as [|s ss IH]; [done|].
  unfold c_strings, str_lens in *. cbn. rewrite !length_app. cbn. lia.
Qed.

Lemma strings_at_cons msg l lens :
  0 <= l < PATH_MAX ->
  strings_at msg (l :: lens) <->
  rd_strnlen msg (Z.to_nat PATH_MAX) = Some (Z.to_nat l) /\ msg !! Z.to_nat l = Some 0 /\
  strings_at (drop (Z.to_nat l + 1) msg) lens.
Proof.
  intros Hl. unfold PATH_MAX in *. split.
  - intros (ss&rest&->&Hs&Hf). destruct ss as [|s ss]; [done|].
    unfold str_lens in Hs. cbn in Hs. injection Hs as <- Hs. inversion Hf; subst.
    rewrite Nat2Z.id. unfold c_strings. cbn [map concat]. rewrite <- !app_assoc.
    destruct (rd_strnlen_spec (s ++ 0 :: c_strings ss ++ rest) (Z.to_nat 4096) (length s)
      (c_strings ss ++ rest)) as [_ (E1&E2&E3)]; [lia|by exists s|].
    split; [exact E1|]. split; [exact E2|]. exists ss, rest.
    rewrite Nat.add_1_r. split; [by rewrite E3|]. done.
  - intros (H1&H2&(ss&rest&H3&Hs&Hf)).
    destruct (rd_strnlen_spec msg (Z.to_nat 4096) (Z.to_nat l) (drop (S (Z.to_nat l)) msg))
      as [(s&Hlen&Hnf&E) _]; [lia|done|].
    exists (s :: ss), rest. rewrite Nat.add_1_r in H3.
    split; [|split; [|by constructor]].
    + rewrite E, H3. unfold c_strings. cbn [map concat]. by rewrite <- !app_assoc.
    + unfold str_lens in *. cbn. rewrite Hs. f_equal. lia.
Qed.

Lemma is_str_msg_valid_spec msg lens :
  Forall (fun l => 0 <= l < PATH_MAX) lens -> str_total lens <= Z.of_nat (length msg) ->
  exists r, is_str_msg_valid msg lens = Some r /\ (r = 0 \/ r = - EINVAL) /\
            (r = 0 <-> strings_at msg lens).
Proof.
  revert msg; induction lens as [|l lens IH]; intros msg Hl Hm.
  { exists 0. split; [done|]. split; [by left|]. split; [|done]. intros _. by exists [], msg. }
  inversion Hl as [|? ? Hl1 Hl2]; subst. cbn [foldr] in Hm.
  assert (forall lens, Forall (fun l => 0 <= l < PATH_MAX) lens -> 0 <= str_total lens) as Hpos.
  { clear. induction 1; cbn; lia. }
  specialize (Hpos lens Hl2).
  destruct (lookup_lt_is_Some_2 msg (Z.to_nat l)) as [c Hc]; [lia|].
  cbn [is_str_msg_valid]. rewrite Hc. cbn. pose proof (strings_at_cons msg l lens Hl1) as Hcons.
  destruct (c =? 0) eqn:E; zb; cbn.
  2:{ exists (- EINVAL). split; [done|]. split; [by right|]. split; [done|].
      rewrite Hcons. intros (_&H0&_). congruence. }
  subst c. destruct (rd_strnlen_some msg (Z.to_nat PATH_MAX) (Z.to_nat l)) as (n&Hn&Hle);
    [unfold PATH_MAX in *; lia|done|].
  rewrite Hn. cbn. destruct (Z.of_nat n =? l) eqn:En; zb; cbn.
  2:{ exists (- EINVAL). split; [done|]. split; [by right|]. split; [done|].
      rewrite Hcons. intros (H0&_). simplify_eq. lia. }
  destruct (IH (drop (Z.to_nat l + 1) msg)) as (r&Er&Hr&Hiff); [done|rewrite length_drop; lia|].
  exists r. split; [done|]. split; [done|]. rewrite Hiff, Hcons. split.
  - intros H0. split; [rewrite Hn; f_equal; lia|done].
  - by intros (_&_&H0).
Qed.

(** The strings behind the struct, with [extra] bytes after them. *)
Definition strings_behind (st : layout) (names : list string) (extra : Z) (msg : bytes) : Prop :=
  exists ss rest,
    msg = take (size_of st) msg ++ c_strings ss ++ rest /\
    mapM (fld st msg) names = Some (str_lens ss) /\ Forall nul_free ss /\
    Forall (fun l => l < PATH_MAX) (str_lens ss) /\ Z.of_nat (length rest) = extra.

Lemma mapM_fld st msg names :
  Forall (fun f => is_Some (field_at st f)) names -> (size_of st <= length msg)%nat ->
  Forall is_byte msg ->
  exists lens, mapM (fld st msg) names = Some lens /\ Forall (fun l => 0 <= l) lens.
Proof.
  intros Hn Hl Hb. induction Hn as [|f names Hf _ (lens&IH&Hpos)]; [exists []; split; [done|constructor]|].
  destruct (fld_some st msg f Hf Hl) as [v Hv]. exists (v :: lens). cbn. rewrite Hv. cbn.
  rewrite IH. split; [done|]. constructor; [by eapply fld_range|done].
Qed.

Lemma verify_strs_spec st names extra bad msg :
  Forall (fun f => is_Some (field_at st f)) names -> (size_of st <= length msg)%nat ->
  Forall is_byte msg -> (length names <= 4)%nat -> 0 <= extra < 2 ^ 32 -> sizeof st < 2 ^ 32 ->
  exists r, verify_strs st names extra bad (Z.of_nat (length msg)) msg = Some r /\
    (r = 0 \/ r = - EINVAL) /\
    (r = 0 <-> bad = false /\ strings_behind st names extra msg).
Proof.
  intros Hf Hl Hb Hn He Hs. destruct (mapM_fld st msg names Hf Hl Hb) as (lens&E&Hpos).
  pose proof (length_mapM _ _ _ E) as Hlen. unfold verify_strs. rewrite E. cbn [mbind option_bind].
  destruct (existsb _ lens) eqn:Ex.
  { exists (- EINVAL). split; [done|]. split; [by right|]. split; [done|].
    intros (_&ss&rest&_&Em&_&Hlt&_). rewrite E in Em. injection Em as ->.
    apply existsb_exists in Ex as (l&Hin&Hx). apply list_elem_of_In in Hin.
    rewrite list.Forall_forall in Hpos, Hlt. specialize (Hpos l Hin). specialize (Hlt l Hin).
    apply orb_true_iff in Hx as [Hx|Hx]; zb; lia. }
  assert (Forall (fun l => 0 <= l < PATH_MAX) lens) as Hrange.
  { rewrite list.Forall_forall in *. intros l Hin. specialize (Hpos l Hin).
    apply not_true_iff_false in Ex. split; [done|].
    destruct (decide (l < PATH_MAX)); [done|]. exfalso. apply Ex. apply existsb_exists.
    exists l. rewrite <- list_elem_of_In. split; [done|]. apply orb_true_iff. right. zb.
    apply Z.leb_le. lia. }
  assert (0 <= str_total lens <= 4096 * 4) as Htot.
  { clear - Hrange Hlen Hn. assert (length lens <= 4)%nat as Hn4 by lia.
    assert (0 <= str_total lens <= 4096 * Z.of_nat (length lens)); [|lia].
    clear -Hrange. unfold PATH_MAX in *. induction Hrange; cbn; lia. }
  rewrite wrap_small by (unfold sizeof in *; lia).
  destruct (Z.of_nat (length msg) =? _) eqn:El; zb; cbn [negb].
  2:{ exists (- EINVAL). split; [done|]. split; [by right|]. split; [done|].
    intros (_&ss&rest&Em&Em'&_&_&Hr). rewrite E in Em'. injection Em' as ->. exfalso. apply El.
    rewrite Em at 1. rewrite !length_app, length_take. pose proof (length_c_strings ss).
    unfold sizeof. lia. }
  destruct bad; [exists (- EINVAL); split; [done|]; split; [by right|]; naive_solver|].
  destruct (is_str_msg_valid_spec (drop (size_of st) msg) lens Hrange) as (r&Er&Hr&Hiff).
  { rewrite length_drop. unfold sizeof in *. lia. }
  rewrite Er. cbn. exists (if r =? 0 then 0 else - EINVAL). split; [done|].
  split; [destruct (r =? 0); auto|].
  assert ((if r =? 0 then 0 else - EINVAL) = 0 <-> r = 0) as -> by (destruct Hr as [->| ->]; done).
  rewrite Hiff. split.
  - intros (ss&rest&Ed&Hss&Hnf). split; [done|]. exists ss, rest.
    split; [rewrite <- Ed; by rewrite take_drop|]. rewrite Hss. split; [done|]. split; [done|].
    split; [eapply list.Forall_impl; [exact Hrange|naive_solver]|].
    pose proof (f_equal length Ed) as HL. rewrite length_drop, length_app in HL.
    pose proof (length_c_strings ss) as HS. rewrite Hss in HS. unfold sizeof in *. lia.
  - intros (_&ss&rest&Em&Em'&Hnf&_&_). rewrite E in Em'. injection Em' as ->.
    exists ss, rest. split; [|done]. rewrite Em at 1.
    rewrite drop_app_length'; [done|]. rewrite length_take. lia.
Qed.

(** * The requests that carry strings *)

Definition request_table : list (Z * (layout * list string)) := [
  (F_OPEN, (open_request, ["path_len"]));
  (F_ATOMIC_OPEN, (atomic_open_request, ["path_len"; "file_len"]));
  (F_ITERATE, (readdir_request, ["path_len"]));
  (F_MKDIR, (mkdir_request, ["path_len"; "name_len"]));
  (F_CREATE, (create_request, ["path_len"; "name_len"]));
  (F_RMDIR, (rmdir_request, ["path_len"; "name_len"]));
  (F_UNLINK, (unlink_request, ["path_len"; "name_len"]));
  (F_RENAME, (rename_request, ["old_path_len"; "new_path_len"; "old_name_len"; "new_name_len"]));
  (F_SETATTR, (setattr_request, ["path_len"]));
  (F_GETATTR, (getattr_request, ["path_len"]));
  (F_STATFS, (statfs_request, ["path_len"]));
  (F_GETXATTR, (getxattr_request, ["path_len"; "name_len"]));
  (F_SETXATTR, (setxattr_request, ["path_len"; "name_len"]));
  (F_LISTXATTR, (listxattr_request, ["path_len"]));
  (F_DROP_PUSH, (drop_push_request, ["path_len"]))
].

(** The bytes after the strings and the limits of the extended-attribute requests. *)
Definition trailing (cmd : Z) (msg : bytes) : Z :=
  if cmd =? F_SETXATTR then default 0 (fld setxattr_request msg "size") else 0.

Definition over_limit (cmd : Z) (msg : bytes) : bool :=
  if cmd =? F_GETXATTR then
    let size := default 0 (fld getxattr_request msg "size") in
    (XATTR_NAME_MAX <? default 0 (fld getxattr_request msg "name_len")) ||
    (size <? 0) || (XATTR_SIZE_MAX <? size)
  else if cmd =? F_SETXATTR then
    let size := default 0 (fld setxattr_request msg "size") in
    (XATTR_NAME_MAX <? default 0 (fld setxattr_request msg "name_len")) ||
    (size <? 0) || (XATTR_SIZE_MAX <? size)
  else if cmd =? F_LISTXATTR then
    let size := default 0 (fld listxattr_request msg "size") in
    (size <? 0) || (XATTR_LIST_MAX <? size)
  else false.

(** Static facts about the table, by evaluation. *)
Lemma request_table_facts cmd st names :
  (cmd, (st, names)) ∈ request_table ->
  Forall (fun f => is_Some (field_at st f)) names /\ (length names <= 4)%nat /\
  (0 < size_of st < 100)%nat /\
  (F_SIZE <=? cmd) || (cmd <? F_OPEN) || is_reserved_command cmd = false /\
  lr_judge (message_length C_REQUEST cmd) = MESSAGE_LEN_JUDGE_RANGE /\
  lr_min (message_length C_REQUEST cmd) = sizeof st.
Proof.
  intros H. unfold request_table in H.
  repeat (apply elem_of_cons in H as [[= -> -> ->]|H];
    [split; [repeat constructor; eexists; reflexivity|]; split; [cbn; lia|];
     split; [cbn; lia|]; split; [reflexivity|]; split; reflexivity|]).
  by apply elem_of_nil in H.
Qed.

Lemma by_flag_request req resp len msg :
  0 < len -> by_flag req resp C_REQUEST len (Some msg) = req len msg.
Proof. intros Hl. unfold by_flag. by rewrite (proj2 (Z.eqb_neq len 0)) by lia. Qed.

(** Every request verifier of the table is [verify_strs] of its layout. *)
Lemma request_table_verify cmd st names msg :
  (cmd, (st, names)) ∈ request_table -> (size_of st <= length msg)%nat -> (0 < length msg)%nat ->
  exists v, message_verify cmd = Some v /\
    v C_REQUEST (Z.of_nat (length msg)) (Some msg)
    = verify_strs st names (trailing cmd msg) (over_limit cmd msg) (Z.of_nat (length msg)) msg.
Proof.
  intros H Hl Hpos.
  unfold request_table in H.
  repeat (apply elem_of_cons in H as [H|H];
    [injection H as Hc Hst Hnm; subst cmd st names; eexists; split; [reflexivity|];
     (etransitivity; [apply by_flag_request; lia|]); try reflexivity|]).
  - unfold verify_getxattr_req, trailing, over_limit. cbn [Z.eqb F_GETXATTR F_SETXATTR].
    destruct (fld_some getxattr_request msg "name_len") as [n En]; [by eexists|done|].
    destruct (fld_some getxattr_request msg "size") as [s Es]; [by eexists|done|].
    rewrite En, Es. reflexivity.
  - unfold verify_setxattr_req, trailing, over_limit. cbn [Z.eqb F_GETXATTR F_SETXATTR].
    destruct (fld_some setxattr_request msg "name_len") as [n En]; [by eexists|done|].
    destruct (fld_some setxattr_request msg "size") as [s Es]; [by eexists|done|].
    rewrite En, Es. reflexivity.
  - unfold verify_listxattr_req, trailing, over_limit. cbn [Z.eqb F_GETXATTR F_SETXATTR F_LISTXATTR].
    destruct (fld_some listxattr_request msg "size") as [s Es]; [by eexists|done|].
    rewrite Es. reflexivity.
  - by apply elem_of_nil in H.
Qed.

Lemma fld_bound st msg f off v :
  Forall is_byte msg -> field_at st f = Some (off, 4%nat) -> fld st msg f = Some v ->
  0 <= v < 2 ^ 32.
Proof.
  intros Hm E. unfold fld, read_le. rewrite E. case_decide; [|done]. intros [= <-].
  pose proof (le_dec_range (sub off 4 msg)) as Hr.
  assert (length (sub off 4 msg) = 4%nat) as HL.
  { unfold sub. rewrite length_take, length_drop. lia. }
  rewrite HL in Hr. apply Hr. unfold sub. apply Forall_take, Forall_drop, Hm.
Qed.

Lemma trailing_range cmd msg : Forall is_byte msg -> 0 <= trailing cmd msg < 2 ^ 32.
Proof.
  intros Hm. unfold trailing. destruct (cmd =? F_SETXATTR); [|lia].
  destruct (fld setxattr_request msg "size") as [v|] eqn:E; cbn; [|lia].
  by apply (fld_bound setxattr_request msg "size" 8).
Qed.

(** The verifier of a request that carries strings, on a message long enough for
    its struct: it stays inside the message and accepts exactly the requests whose
    strings fill it. *)
Lemma request_verifier_spec cmd st names msg :
  (cmd, (st, names)) ∈ request_table -> (size_of st <= length msg)%nat -> Forall is_byte msg ->
  exists v r, message_verify cmd = Some v /\
    v C_REQUEST (Z.of_nat (length msg)) (Some msg) = Some r /\ (r = 0 \/ r = - EINVAL) /\
    (r = 0 <-> over_limit cmd msg = false /\ strings_behind st names (trailing cmd msg) msg).
Proof.
  intros Hin Hl Hb. destruct (request_table_facts _ _ _ Hin) as (H1&H2&H3&_).
  destruct (request_table_verify _ _ _ msg Hin) as (v&Ev&E); [lia|lia|].
  destruct (verify_strs_spec st names (trailing cmd msg) (over_limit cmd msg) msg)
    as (r&Er&Hr&Hiff); [done|lia|done|done|by apply trailing_range|unfold sizeof; lia|].
  exists v, r. rewrite E. done.
Qed.

(** The length of a message with payload [msg]. *)
Lemma payload_len h (msg : bytes) :
  h_data_len h = sizeof hmdfs_head_cmd + Z.of_nat (length msg) -> h_data_len h < 2 ^ 32 ->
  u64 (h_data_len h - sizeof hmdfs_head_cmd) = Z.of_nat (length msg).
Proof. intros E Hb. unfold sizeof in *. rewrite wrap_small by lia. lia. Qed.

Lemma verify_request h msg cmd st names :
  (cmd, (st, names)) ∈ request_table -> Forall is_byte msg ->
  h_cmd_flag h = C_REQUEST -> h_command h = cmd ->
  h_data_len h = sizeof hmdfs_head_cmd + Z.of_nat (length msg) -> h_data_len h < 2 ^ 32 ->
  exists v, hmdfs_message_verify (Some h) (Some msg) = Some (inr v) /\
    (v_err v = 0 /\ v = mk_verified 0 h None \/ v = handle_bad_message h (- EINVAL)) /\
    (v_err v = 0 <->
     sizeof st <= Z.of_nat (length msg) <= lr_max (message_length C_REQUEST cmd) /\
     over_limit cmd msg = false /\ strings_behind st names (trailing cmd msg) msg).
Proof.
  intros Hin Hb Hf Hc Hl Hl32. destruct (request_table_facts _ _ _ Hin) as (_&_&_&Hok&Hj&Hmin).
  unfold C_REQUEST in *. unfold hmdfs_message_verify. rewrite Hf, Hc, Hok. cbn [Z.eqb C_REQUEST negb andb].
  rewrite (payload_len h msg) by done. rewrite andb_false_r, Hj, Hmin. cbn [Z.eqb MESSAGE_LEN_JUDGE_RANGE].
  assert (v_err (handle_bad_message h (- EINVAL)) <> 0) as Hbad.
  { unfold handle_bad_message. rewrite Hf. cbn [Z.eqb C_RESPONSE].
    by destruct (F_SIZE <=? h_command h). }
  destruct ((Z.of_nat (length msg) <? sizeof st) || _) eqn:Eb.
  - eexists. split; [reflexivity|]. split; [by right|]. split; [done|].
    intros ([H1 H2]&_). apply orb_true_iff in Eb as [Eb|Eb]; zb; lia.
  - zb. destruct (request_verifier_spec cmd st names msg Hin) as (v&r&->&Er&Hr&Hiff);
      [unfold sizeof in *; lia|done|].
    unfold C_REQUEST in Er. rewrite Er. cbn.
    destruct Hr as [->| ->]; cbn.
    + eexists. split; [reflexivity|]. split; [by left|]. split; [|done]. intros _.
      split; [lia|]. by apply Hiff.
    + eexists. split; [reflexivity|]. split; [by right|]. split; [done|].
      intros (_&Ha). by apply Hiff in Ha.
Qed.

(** A response whose length is in its table range goes to its verifier. *)
Lemma verify_response h msg cmd verify r :
  h_cmd_flag h = C_RESPONSE -> h_command h = cmd ->
  h_data_len h = sizeof hmdfs_head_cmd + Z.of_nat (length msg) -> h_data_len h < 2 ^ 32 ->
  (F_SIZE <=? cmd) || (cmd <? F_OPEN) || is_reserved_command cmd = false -> cmd <> F_ITERATE ->
  lr_judge (message_length C_RESPONSE cmd) = MESSAGE_LEN_JUDGE_RANGE ->
  lr_min (message_length C_RESPONSE cmd) = 0 ->
  Z.of_nat (length msg) <= lr_max (message_length C_RESPONSE cmd) ->
  message_verify cmd = Some verify ->
  verify C_RESPONSE (Z.of_nat (length msg)) (Some msg) = r ->
  hmdfs_message_verify (Some h) (Some msg)
  = err ← r; Some (inr (if err =? 0 then mk_verified 0 h None else handle_bad_message h err)).
Proof.
  intros Hf Hc Hl Hl32 Hok Hit Hj Hmin Hmax Hv Hr. unfold hmdfs_message_verify.
  unfold C_RESPONSE in *. rewrite Hf, Hc, Hok, Hj, Hmin, Hv. rewrite (payload_len h msg) by done.
  rewrite (proj2 (Z.eqb_neq cmd F_ITERATE)) by done. cbn [Z.eqb C_REQUEST negb andb].
  cbn [MESSAGE_LEN_JUDGE_RANGE Z.eqb].
  rewrite (proj2 (Z.ltb_ge _ 0)) by lia. rewrite (proj2 (Z.ltb_ge _ _)) by done.
  cbn [orb]. rewrite Hr. destruct r as [r|]; [|done]. cbn. by destruct (r =? 0).
Qed.

Lemma by_flag_response req resp len msg :
  0 < len -> by_flag req resp C_RESPONSE len (Some msg) = resp len msg.
Proof. intros Hl. unfold by_flag. by rewrite (proj2 (Z.eqb_neq len 0)) by lia. Qed.

(** * Properties *)

(** C34: A request that carries strings is accepted iff its length lies in the table's
    range, its extended-attribute sizes are within their limits and its payload is
    exactly the struct, then NUL-terminated strings whose lengths, below PATH_MAX,
    are the struct's length fields, then (setxattr only) as many bytes as its size
    field says.  A rejected one is answered with -EOPNOTSUPP when its command
    expects a response, and verification never reads outside the payload. *)
Theorem request_accepted_iff h msg cmd st names :
  (cmd, (st, names)) ∈ request_table -> Forall is_byte msg ->
  h_cmd_flag h = C_REQUEST -> h_command h = cmd ->
  h_data_len h = sizeof hmdfs_head_cmd + Z.of_nat (length msg) -> h_data_len h < 2 ^ 32 ->
  exists v, hmdfs_message_verify (Some h) (Some msg) = Some (inr v) /\
    (v_err v = 0 <->
     sizeof st <= Z.of_nat (length msg) <= lr_max (message_length C_REQUEST cmd) /\
     over_limit cmd msg = false /\ strings_behind st names (trailing cmd msg) msg) /\
    (v_err v = 0 -> v = mk_verified 0 h None) /\
    (v_err v <> 0 -> v_err v = - EINVAL /\ v_head v = h /\
       v_sent v = if need_response cmd then Some (- EOPNOTSUPP) else None).
Proof.
  intros Hin Hb Hf Hc Hl Hl32.
  destruct (verify_request h msg cmd st names) as (v&E&Hv&Hiff); [done..|].
  exists v. split; [done|]. split; [done|].
  destruct (request_table_facts _ _ _ Hin) as (_&_&_&Hok&_).
  unfold handle_bad_message in Hv. rewrite Hf, Hc in Hv. cbn [Z.eqb C_RESPONSE] in Hv.
  apply orb_false_iff in Hok as [Hok _]. apply orb_false_iff in Hok as [Hok _].
  rewrite Hok in Hv. destruct Hv as [[? ->]| ->]; cbn; naive_solver.
Qed.

Lemma request_accepted_iff_witness :
  let msg := le_enc 4 1 ++ [97; 0] in
  let h := mk_head C_REQUEST F_STATFS (sizeof hmdfs_head_cmd + Z.of_nat (length msg)) 0 in
  (F_STATFS, (statfs_request, ["path_len"])) ∈ request_table /\
  exists v, hmdfs_message_verify (Some h) (Some msg) = Some (inr v) /\
    (v_err v = 0 <->
     sizeof statfs_request <= Z.of_nat (length msg)
       <= lr_max (message_length C_REQUEST F_STATFS) /\
     over_limit F_STATFS msg = false /\
     strings_behind statfs_request ["path_len"] (trailing F_STATFS msg) msg) /\
    (v_err v = 0 -> v = mk_verified 0 h None) /\
    (v_err v <> 0 -> v_err v = - EINVAL /\ v_head v = h /\
       v_sent v = if need_response F_STATFS then Some (- EOPNOTSUPP) else None).
Proof.
  assert ((F_STATFS, (statfs_request, ["path_len"])) ∈ request_table) as Hin.
  { unfold request_table. set_solver. }
  split; [exact Hin|].
  apply (request_accepted_iff _ (le_enc 4 1 ++ [97; 0]) F_STATFS statfs_request ["path_len"] Hin);
    [|reflexivity|reflexivity|reflexivity|reflexivity].
  apply list.Forall_app. split; [apply le_enc_bytes|]. repeat constructor; done.
Defined.

(** The response verifier of getxattr and listxattr wants the size field to be
    sizeof of one char, so a response whose value is [n] bytes long is turned into
    -EOPNOTSUPP for the caller unless [n] is 1. *)
Theorem xattr_response_size_one h cmd n val :
  (cmd = F_GETXATTR \/ cmd = F_LISTXATTR) ->
  0 <= n < 2 ^ 32 -> Z.of_nat (length val) <= HMDFS_XATTR_SIZE_MAX ->
  h_cmd_flag h = C_RESPONSE -> h_command h = cmd ->
  h_data_len h = sizeof hmdfs_head_cmd + Z.of_nat (length (le_enc 4 n ++ val)) ->
  hmdfs_message_verify (Some h) (Some (le_enc 4 n ++ val))
  = Some (inr (if n =? 1 then mk_verified 0 h None
               else mk_verified 0 (mk_head C_RESPONSE cmd (h_data_len h) (u32 (- EOPNOTSUPP))) None)).
Proof.
  intros Hcmd Hn Hv Hf Hc Hl. unfold HMDFS_XATTR_SIZE_MAX in Hv.
  set (msg := le_enc 4 n ++ val) in *.
  assert (length msg = (4 + length val)%nat) as El
    by (unfold msg; by rewrite length_app, length_le_enc).
  assert (read_le msg 0 4 = Some n) as Hr.
  { unfold read_le. rewrite decide_True by lia. f_equal. unfold sub, msg.
    rewrite drop_0, take_app_length' by (by rewrite length_le_enc). apply le_dec_enc. lia. }
  assert ((Z.of_nat (length msg) <? sizeof getxattr_response) = false) as H4
    by (apply Z.ltb_ge; unfold sizeof; cbn; lia).
  assert (forall verify, message_verify cmd = Some verify ->
    verify C_RESPONSE (Z.of_nat (length msg)) (Some msg)
    = Some (if negb (n =? 1) then - EINVAL else 0)) as Hver.
  { destruct Hcmd as [-> | ->]; intros ? [= <-];
      (etransitivity; [apply by_flag_response; lia|]).
    all: unfold verify_getxattr_resp, verify_listxattr_resp;
      try rewrite (Hr : fld getxattr_response msg "size" = Some n);
      try rewrite (Hr : fld listxattr_response msg "size" = Some n);
      cbn [mbind option_bind]; change (sizeof listxattr_response) with (sizeof getxattr_response);
      rewrite H4; destruct (n =? 1) eqn:E; zb; [subst n|]; done. }
  destruct (message_verify cmd) as [verify|] eqn:Ev; [|by destruct Hcmd as [-> | ->]].
  rewrite (verify_response h msg cmd verify (Some (if negb (n =? 1) then - EINVAL else 0)) Hf Hc Hl);
    [| | | | | | |done|by apply Hver].
  - cbn. unfold handle_bad_message. rewrite Hf, Hc. by destruct (n =? 1).
  - rewrite Hl, El. unfold sizeof. cbn. lia.
  - by destruct Hcmd as [-> | ->].
  - by destruct Hcmd as [-> | ->].
  - by destruct Hcmd as [-> | ->].
  - by destruct Hcmd as [-> | ->].
  - rewrite El. destruct Hcmd as [-> | ->]; [change (lr_max _) with 4100|change (lr_max _) with 4100]; lia.
Qed.

Lemma xattr_response_size_one_witness :
  let h := mk_head C_RESPONSE F_GETXATTR
             (sizeof hmdfs_head_cmd + Z.of_nat (length (le_enc 4 5 ++ [1; 2; 3; 4; 5]))) 0 in
  hmdfs_message_verify (Some h) (Some (le_enc 4 5 ++ [1; 2; 3; 4; 5]))
  = Some (inr (if 5 =? 1 then mk_verified 0 h None
      else mk_verified 0 (mk_head C_RESPONSE F_GETXATTR (h_data_len h) (u32 (- EOPNOTSUPP))) None)).
Proof.
  apply (xattr_response_size_one _ F_GETXATTR 5 [1; 2; 3; 4; 5]);
    [by left|lia|done|reflexivity|reflexivity|reflexivity].
Defined.

(** * Where verification reads *)

Lemma message_verify_elem cmd v :
  message_verify cmd = Some v -> (cmd, v) ∈ message_verify_table.
Proof.
  unfold message_verify. intros (p&Ep&->)%fmap_Some. destruct p as [c v'].
  apply List.find_some in Ep as [Hin E]. apply Z.eqb_eq in E. simpl in E. subst c.
  by apply list_elem_of_In.
Qed.

Lemma verify_none_iff h msg :
  h_data_len h = sizeof hmdfs_head_cmd + Z.of_nat (length msg) -> h_data_len h < 2 ^ 32 ->
  hmdfs_message_verify (Some h) (Some msg) = None ->
  exists flag verify, (flag = C_REQUEST \/ flag = C_RESPONSE) /\ flag = h_cmd_flag h /\
    (h_command h, verify) ∈ message_verify_table /\
    (lr_judge (message_length flag (h_command h)) = MESSAGE_LEN_JUDGE_RANGE ->
     lr_min (message_length flag (h_command h)) <= Z.of_nat (length msg)) /\
    (lr_judge (message_length flag (h_command h)) <> MESSAGE_LEN_JUDGE_RANGE ->
     Z.of_nat (length msg) = lr_min (message_length flag (h_command h)) \/
     Z.of_nat (length msg) = (if (h_command h =? F_ITERATE) && (flag =? C_RESPONSE)
       then sizeof slice_descriptor + PAGE_SIZE else lr_max (message_length flag (h_command h)))) /\
    verify flag (Z.of_nat (length msg)) (Some msg) = None.
Proof.
  intros Hl Hl32. unfold hmdfs_message_verify. rewrite (payload_len h msg) by done.
  destruct (negb _ && negb _) eqn:Ef; [done|].
  assert (h_cmd_flag h = C_REQUEST \/ h_cmd_flag h = C_RESPONSE) as Hf.
  { apply andb_false_iff in Ef as [Ef|Ef]; zb; auto. }
  destruct ((F_SIZE <=? _) || _ || _); [done|].
  destruct (if lr_judge _ =? _ then _ else _) eqn:Eb; [done|].
  destruct (message_verify _) as [verify|] eqn:Ev; [|done].
  apply message_verify_elem in Ev. cbn zeta.
  destruct (verify _ _ _) as [r|] eqn:Er; [by cbn; destruct (r =? 0)|]. intros _.
  exists (h_cmd_flag h), verify. split; [done|]. split; [done|]. split; [done|].
  destruct (lr_judge _ =? MESSAGE_LEN_JUDGE_RANGE) eqn:Ej; zb.
  - split; [intros _; lia|]. done.
  - split; [done|]. split; [|done]. intros _.
    apply andb_false_iff in Eb as [Eb|Eb]; zb; auto.
Qed.

Lemma exact_size_some st len msg : exact_size st len msg <> None.
Proof. done. Qed.

Lemma request_verifier_some cmd st names verify msg :
  (cmd, (st, names)) ∈ request_table -> message_verify cmd = Some verify ->
  (size_of st <= length msg)%nat -> Forall is_byte msg ->
  verify C_REQUEST (Z.of_nat (length msg)) (Some msg) <> None.
Proof.
  intros Hin Hv Hl Hb.
  destruct (request_verifier_spec cmd st names msg Hin Hl Hb) as (v&r&E&Er&_). congruence.
Qed.

(** Which verifier calls read outside of the message. *)
Lemma verifier_oob cmd verify flag msg :
  (cmd, verify) ∈ message_verify_table -> Forall is_byte msg ->
  (flag = C_REQUEST \/ flag = C_RESPONSE) ->
  (lr_judge (message_length flag cmd) = MESSAGE_LEN_JUDGE_RANGE ->
   lr_min (message_length flag cmd) <= Z.of_nat (length msg)) ->
  (cmd = F_WRITEPAGE -> flag = C_REQUEST -> (24 <= length msg)%nat) ->
  verify flag (Z.of_nat (length msg)) (Some msg) = None ->
  flag = C_RESPONSE /\ (cmd = F_GETXATTR \/ cmd = F_LISTXATTR) /\ (0 < length msg < 4)%nat.
Proof.
  intros Hin Hb Hf Hmin Hwp Hn.
  destruct Hf as [-> | ->].
  - exfalso.
    assert (forall st names, (cmd, (st, names)) ∈ request_table -> False) as Hreq.
    { intros st names Hr. destruct (request_table_facts _ _ _ Hr) as (_&_&_&_&Hj&Hm).
      specialize (Hmin Hj). rewrite Hm in Hmin. unfold sizeof in Hmin.
      assert (message_verify cmd = Some verify) as Hv.
      { clear -Hin. unfold message_verify_table in Hin.
        repeat (apply elem_of_cons in Hin as [[= -> ->]|Hin]; [reflexivity|]).
        by apply elem_of_nil in Hin. }
      apply (request_verifier_some cmd st names verify msg Hr Hv); [lia|done|done]. }
    unfold message_verify_table in Hin.
    repeat (apply elem_of_cons in Hin as [Hin|Hin];
      [injection Hin as Hc Hv; subst cmd verify; first
         [solve [eapply Hreq; unfold request_table; repeat (apply elem_of_cons; (by left) || right)]
         |idtac]|]).
    + unfold hmdfs_readpage_verify, by_flag in Hn. by destruct (_ =? 0).
    + unfold hmdfs_writepage_verify, by_flag in Hn. destruct (_ =? 0); [done|].
      cbn [Z.eqb C_REQUEST] in Hn. unfold verify_writepage_req in Hn.
      destruct (fld_some writepage_request msg "count") as [v Ev]; [by eexists|by apply Hwp|].
      by rewrite Ev in Hn.
    + by apply elem_of_nil in Hin.
  - unfold message_verify_table in Hin. split; [done|].
    repeat (apply elem_of_cons in Hin as [Hin|Hin];
      [injection Hin as Hc Hv; subst cmd verify; clear Hmin Hwp|]); try by apply elem_of_nil in Hin.
    all: repeat match type of Hn with ?f _ _ _ = None => unfold f in Hn end; unfold by_flag in Hn;
      destruct (Z.of_nat (length msg) =? 0) eqn:El; [done|]; cbn [Z.eqb C_REQUEST C_RESPONSE] in Hn;
      try done.
    all: zb; split; [auto|].
    all: enough (length msg < 4)%nat by lia.
    all: destruct (decide (4 <= length msg)%nat); [|lia]; exfalso.
    + destruct (fld_some getxattr_response msg "size") as [v Ev]; [by eexists|done|].
      unfold verify_getxattr_resp in Hn. by rewrite Ev in Hn.
    + destruct (fld_some listxattr_response msg "size") as [v Ev]; [by eexists|done|].
      unfold verify_listxattr_resp in Hn. by rewrite Ev in Hn.
Qed.

(** C40: Whatever bytes a peer sends, verifying a message reads only inside its payload,
    with one exception: a getxattr or listxattr response of one to three bytes, whose
    size field is read before its length is checked. *)
Theorem verify_reads_in_bounds h msg :
  Forall is_byte msg ->
  h_data_len h = sizeof hmdfs_head_cmd + Z.of_nat (length msg) -> h_data_len h < 2 ^ 32 ->
  hmdfs_message_verify (Some h) (Some msg) = None <->
  h_cmd_flag h = C_RESPONSE /\ (h_command h = F_GETXATTR \/ h_command h = F_LISTXATTR) /\
  (0 < length msg < 4)%nat.
Proof.
  intros Hb Hl Hl32. split.
  - intros Hn. destruct (verify_none_iff h msg Hl Hl32 Hn) as (flag&v&Hf&->&Hin&Hr&Hbin&Hv).
    apply (verifier_oob (h_command h) v (h_cmd_flag h) msg Hin Hb Hf Hr); [|done].
    intros Hc Hfl. rewrite Hc, Hfl in Hbin.
    assert (Z.of_nat (length msg) = 24 + HMDFS_PAGE_SIZE) as E by (destruct Hbin; done).
    unfold HMDFS_PAGE_SIZE in E. lia.
  - intros (Hf&Hc&Hlen).
    assert (exists verify, message_verify (h_command h) = Some verify /\
      verify C_RESPONSE (Z.of_nat (length msg)) (Some msg) = None) as (verify&Ev&En).
    { destruct Hc as [-> | ->]; eexists; (split; [reflexivity|]);
        (etransitivity; [apply by_flag_response; lia|]).
      all: unfold verify_getxattr_resp, verify_listxattr_resp, fld; cbn [field_at];
        unfold read_le; cbn; rewrite decide_False by lia; done. }
    rewrite (verify_response h msg (h_command h) verify None Hf eq_refl Hl); [done|done|..|done|done];
      destruct Hc as [-> | ->]; try done; change (lr_max _) with 4100; lia.
Qed.

Lemma verify_reads_in_bounds_witness :
  let h := mk_head C_RESPONSE F_GETXATTR (sizeof hmdfs_head_cmd + Z.of_nat (length [1; 0])) 0 in
  hmdfs_message_verify (Some h) (Some [1; 0]) = None <->
  h_cmd_flag h = C_RESPONSE /\ (h_command h = F_GETXATTR \/ h_command h = F_LISTXATTR) /\
  (0 < length [1; 0] < 4)%nat.
Proof.
  apply verify_reads_in_bounds; [|reflexivity|reflexivity].
  repeat constructor; unfold is_byte; lia.
Defined.

(** What may come of a message with head [h] and a valid flag. *)
Definition handled (h : head) (v : verified) : Prop :=
  (h_cmd_flag h = C_RESPONSE /\ v_err v = 0 /\ v_sent v = None /\
     (v_head v = h \/
      v_head v = mk_head C_RESPONSE (h_command h) (h_data_len h) (u32 (- EOPNOTSUPP)))) \/
  (h_cmd_flag h = C_REQUEST /\ v_head v = h /\
     (v_sent v = Some (- EOPNOTSUPP) <->
      v_err v <> 0 /\ h_command h < F_SIZE /\ need_response (h_command h) = true) /\
     (v_sent v = None \/ v_sent v = Some (- EOPNOTSUPP))).

Lemma bad_handled h err :
  err <> 0 -> h_cmd_flag h = C_REQUEST \/ h_cmd_flag h = C_RESPONSE ->
  handled h (handle_bad_message h err).
Proof.
  intros He Hf. unfold handled, handle_bad_message. destruct Hf as [Hf|Hf]; rewrite Hf; cbn -[F_SIZE].
  - right. destruct (F_SIZE <=? h_command h) eqn:Ec; zb; cbn [v_head v_sent v_err].
    + split; [done|]. split; [done|]. split; [|by left]. split; [done|]. intros (_&?&_). lia.
    + destruct (need_response _) eqn:En; (split; [done|]); (split; [done|]).
      * split; [|by right]. split; [done|]. done.
      * split; [|by left]. split; [done|]. by intros (_&_&?).
  - left. naive_solver.
Qed.

Lemma ok_handled h :
  h_cmd_flag h = C_REQUEST \/ h_cmd_flag h = C_RESPONSE -> handled h (mk_verified 0 h None).
Proof. intros [Hf|Hf]; unfold handled; rewrite Hf; cbn; naive_solver. Qed.

(** No response makes hmdfs_message_verify fail: a bad one is turned into a message
    with return code -EOPNOTSUPP for the waiting caller, and nothing is sent; a bad
    request fails, keeps its head, and is answered with -EOPNOTSUPP exactly when its
    command exists and expects a response.  A message with neither flag, and one
    with no head, is dropped silently. *)
Theorem bad_message_handling h data r :
  hmdfs_message_verify (Some h) data = Some r ->
  (h_cmd_flag h <> C_REQUEST /\ h_cmd_flag h <> C_RESPONSE /\ r = inl (- EINVAL)) \/
  exists v, r = inr v /\ handled h v.
Proof.
  unfold hmdfs_message_verify. destruct (negb _ && negb _) eqn:Ef.
  { zb. intros [= <-]. left. done. }
  assert (h_cmd_flag h = C_REQUEST \/ h_cmd_flag h = C_RESPONSE) as Hf.
  { apply andb_false_iff in Ef as [Ef|Ef]; zb; auto. }
  intros Hr. right.
  destruct ((F_SIZE <=? _) || _ || _).
  { simplify_eq. eexists. split; [done|]. by apply bad_handled. }
  destruct (if lr_judge _ =? _ then _ else _).
  { simplify_eq. eexists. split; [done|]. by apply bad_handled. }
  destruct (match message_verify _ with Some _ => _ | None => _ end) as [err|]; [|done].
  cbn in Hr. destruct (err =? 0) eqn:Ee; zb; cbn in Hr; simplify_eq; eexists; (split; [done|]).
  - by apply ok_handled.
  - by apply bad_handled.
Qed.

Lemma bad_message_handling_witness :
  let h := mk_head C_REQUEST F_MKDIR 24 0 in
  let r := inr (mk_verified (- EINVAL) h (Some (- EOPNOTSUPP))) in
  hmdfs_message_verify (Some h) None = Some r /\
  ((h_cmd_flag h <> C_REQUEST /\ h_cmd_flag h <> C_RESPONSE /\ r = inl (- EINVAL)) \/
   exists v, r = inr v /\ handled h v).
Proof.
  split; [vm_compute; reflexivity|].
  apply (bad_message_handling (mk_head C_REQUEST F_MKDIR 24 0) None). vm_compute. reflexivity.
Defined.
