(* ===== verification/ClientMsg.v ===== *)
(** The requests a client builds (hmdfs_client.c), what it makes of the responses,
    and the strings the server takes out of them (hmdfs_server.c).  Sending
    (hmdfs_sendmessage_request, the transport) is the argument [send]: given a
    command and the request it returns the result code and the response buffer.
    Allocation of the request is taken to succeed (the code returns -ENOMEM
    otherwise, before sending). *)
From S2P Require Import Prelude Protocol MessageVerify.

Open Scope string_scope.
Open Scope list_scope.
Open Scope Z_scope.

(** * Building a request *)

Definition zlen (s : bytes) : Z := Z.of_nat (length s).

(** The field assignments, in order. *)
Definition put_all (st : layout) (kvs : list (string * Z)) (msg : bytes) : bytes :=
  foldl (fun msg kv => put st kv.1 kv.2 msg) msg kvs.

(** [strncpy] of each string, one byte (the NUL of the zeroed buffer) apart. *)
Fixpoint copy_strs (off : nat) (ss : list bytes) (msg : bytes) : bytes :=
  match ss with
  | [] => msg
  | s :: ss => copy_strs (off + length s + 1) ss (memcpy_at off s msg)
  end.

(** kzalloc(send_len), the assignments and the strings; [tail] is what is copied
    behind the strings, in [tail_len] bytes. *)
Definition request (st : layout) (kvs : list (string * Z)) (ss : list bytes)
    (tail_len : nat) (tail : bytes) : bytes :=
  let send_len := (size_of st + length (c_strings ss) + tail_len)%nat in
  let msg := copy_strs (size_of st) ss (put_all st kvs (replicate send_len 0)) in
  memcpy_at (size_of st + length (c_strings ss)) tail msg.

Definition open_msg (path : bytes) (file_type : Z) : bytes :=
  request open_request [("file_type", u8 file_type); ("path_len", zlen path)] [path] 0 [].

(** [header]: crtime, crtime_nsec, ctime, ctime_nsec and num of a cached file. *)
Definition readdir_msg (path : bytes) (header : option (Z * Z * Z * Z * Z)) : bytes :=
  request readdir_request
    (("path_len", zlen path) ::
     match header with
     | Some (crtime, crtime_nsec, ctime, ctime_nsec, num) =>
         [("dcache_crtime", crtime); ("dcache_crtime_nsec", crtime_nsec);
          ("dentry_ctime", ctime); ("dentry_ctime_nsec", ctime_nsec); ("num", num);
          ("verify_cache", 1)]
     | None => []
     end) [path] 0 [].

Definition mkdir_msg (path name : bytes) (mode : Z) : bytes :=
  request mkdir_request
    [("path_len", zlen path); ("name_len", zlen name); ("mode", mode)] [path; name] 0 [].

Definition create_msg (path name : bytes) (mode : Z) (want_excl : bool) : bytes :=
  request create_request
    [("path_len", zlen path); ("name_len", zlen name); ("mode", mode);
     ("want_excl", if want_excl then 1 else 0)] [path; name] 0 [].

Definition rmdir_msg (path name : bytes) : bytes :=
  request rmdir_request [("path_len", zlen path); ("name_len", zlen name)] [path; name] 0 [].

Definition unlink_msg (path name : bytes) : bytes :=
  request unlink_request [("path_len", zlen path); ("name_len", zlen name)] [path; name] 0 [].

Definition rename_msg (old_path old_name new_path new_name : bytes) (flags : Z) : bytes :=
  request rename_request
    [("old_path_len", zlen old_path); ("new_path_len", zlen new_path);
     ("old_name_len", zlen old_name); ("new_name_len", zlen new_name); ("flags", flags)]
    [old_path; new_path; old_name; new_name] 0 [].

Record setattr_info := mk_setattr {
  sa_size : Z;
  sa_valid : Z;
  sa_mtime : Z;
  sa_mtime_nsec : Z
}.

(** The string is copied first here; the fields lie before it. *)
Definition setattr_msg (path : bytes) (attr : setattr_info) : bytes :=
  request setattr_request
    [("path_len", zlen path); ("valid", sa_valid attr); ("size", sa_size attr);
     ("mtime", sa_mtime attr); ("mtime_nsec", sa_mtime_nsec attr)] [path] 0 [].

Definition getattr_msg (path : bytes) (lookup_flags : Z) : bytes :=
  request getattr_request [("path_len", zlen path); ("lookup_flags", lookup_flags)] [path] 0 [].

Definition statfs_msg (path : bytes) : bytes :=
  request statfs_request [("path_len", zlen path)] [path] 0 [].

Definition getxattr_msg (path name : bytes) (size : Z) : bytes :=
  request getxattr_request
    [("path_len", zlen path); ("name_len", zlen name); ("size", size)] [path; name] 0 [].

(** A NULL value asks for removal. *)
Definition setxattr_msg (path name : bytes) (value : option bytes) (size flags : Z) : bytes :=
  request setxattr_request
    ([("path_len", zlen path); ("name_len", zlen name); ("size", size); ("flags", flags)] ++
     match value with None => [("del", 1)] | Some _ => [] end)
    [path; name] (Z.to_nat size) (default [] value).

Definition listxattr_msg (path : bytes) (size : Z) : bytes :=
  request listxattr_request [("path_len", zlen path); ("size", size)] [path] 0 [].

Definition drop_push_msg (path : bytes) : bytes :=
  request drop_push_request [("path_len", zlen path)] [path] 0 [].

(** * The strings the server takes out *)

(** The C string at [off]. *)
Definition c_str (msg : bytes) (off : nat) : bytes :=
  let s := drop off msg in take (strnlen s (length s)) s.

(** [recv->path], then each string one past the previous one's length field. *)
Fixpoint recv_strings (msg : bytes) (off : nat) (lens : list Z) : list bytes :=
  match lens with
  | [] => []
  | len :: lens => c_str msg off :: recv_strings msg (off + Z.to_nat len + 1) lens
  end.

Definition server_strings (st : layout) (names : list string) (msg : bytes)
    : option (list bytes) :=
  recv_strings msg (size_of st) <$> mapM (fld st msg) names.

(** * The shape of a built request *)

Lemma put_all_encode st kvs env rest :
  NoDup (map fst st) -> Forall (fun kv => kv.1 ∈ map fst st) kvs ->
  put_all st kvs (encode st env ++ rest)
  = encode st (foldl (fun env kv => upd env kv.1 kv.2) env kvs) ++ rest.
Proof.
  intros Hnd. revert env. induction kvs as [|[k v] kvs IH]; intros env Hk; [done|].
  inversion Hk; subst. cbn. rewrite put_encode by done. by apply IH.
Qed.

Lemma c_strings_cons s ss : c_strings (s :: ss) = s ++ 0 :: c_strings ss.
Proof. unfold c_strings. cbn. by rewrite <- app_assoc. Qed.

Lemma copy_strs_shape pre ss n :
  copy_strs (length pre) ss (pre ++ replicate (length (c_strings ss) + n) 0)
  = pre ++ c_strings ss ++ replicate n 0.
Proof.
  revert pre; induction ss as [|s ss IH]; intros pre; [done|].
  rewrite c_strings_cons. cbn [copy_strs].
  assert (memcpy_at (length pre) s (pre ++ replicate (length (s ++ 0 :: c_strings ss) + n) 0)
     = (pre ++ s ++ [0]) ++ replicate (length (c_strings ss) + n) 0) as ->.
  { unfold memcpy_at. rewrite take_app_length, drop_app_add, length_app. cbn [length].
    replace (length s + S (length (c_strings ss)) + n)%nat
      with (length s + S (length (c_strings ss) + n))%nat by lia.
    rewrite replicate_add, drop_app_length' by (by rewrite length_replicate).
    rewrite <- !app_assoc. done. }
  replace (length pre + length s + 1)%nat with (length (pre ++ s ++ [0]))
    by (rewrite !length_app; cbn; lia).
  rewrite IH. by rewrite <- !app_assoc.
Qed.

Definition env_of (kvs : list (string * Z)) : string -> Z :=
  foldl (fun env kv => upd env kv.1 kv.2) (fun _ => 0) kvs.

(** A request is its encoded struct, its strings and the bytes behind them. *)
Lemma request_shape st kvs ss n tail :
  NoDup (map fst st) -> Forall (fun kv => kv.1 ∈ map fst st) kvs -> (length tail <= n)%nat ->
  request st kvs ss n tail
  = encode st (env_of kvs) ++ c_strings ss ++ tail ++ replicate (n - length tail) 0.
Proof.
  intros Hnd Hk Ht. unfold request.
  rewrite <- Nat.add_assoc, replicate_add, <- encode_zero, put_all_encode by done.
  fold (env_of kvs). rewrite <- (length_encode st (env_of kvs)).
  rewrite copy_strs_shape. rewrite app_assoc, <- (length_app (encode st (env_of kvs))).
  unfold memcpy_at. rewrite take_app_length, drop_app_add, drop_replicate.
  by rewrite <- !app_assoc.
Qed.

Lemma recv_strings_shape pre ss rest :
  Forall nul_free ss ->
  recv_strings (pre ++ c_strings ss ++ rest) (length pre) (str_lens ss) = ss.
Proof.
  revert pre; induction ss as [|s ss IH]; intros pre Hf; [done|]. inversion Hf; subst.
  rewrite c_strings_cons. unfold str_lens in *. cbn [map recv_strings]. f_equal.
  - unfold c_str. rewrite drop_app_length, <- !app_assoc.
    rewrite (strnlen_eq _ _ (length s)); [by rewrite take_app_length| | |].
    + rewrite length_app. cbn. lia.
    + rewrite lookup_app_r, Nat.sub_diag by lia. done.
    + intros i b Hi. rewrite lookup_app_l by done. intros Hb.
      by eapply (list.Forall_lookup_1 (fun b => b <> 0)).
  - replace (length pre + Z.to_nat (Z.of_nat (length s)) + 1)%nat
      with (length (pre ++ s ++ [0])) by (rewrite !length_app; cbn; lia).
    specialize (IH (pre ++ s ++ [0]) ltac:(done)). rewrite <- !app_assoc in *. exact IH.
Qed.

Lemma encode_bytes st env : Forall is_byte (encode st env).
Proof.
  induction st as [|[f w] st IH]; [constructor|].
  rewrite encode_cons. apply list.Forall_app. split; [apply le_enc_bytes|exact IH].
Qed.

Lemma c_strings_bytes ss : Forall (Forall is_byte) ss -> Forall is_byte (c_strings ss).
Proof.
  induction 1; [constructor|]. rewrite c_strings_cons. apply list.Forall_app.
  split; [done|]. constructor; [unfold is_byte; lia|done].
Qed.

Lemma mapM_fld_encode st env rest names ss :
  Forall2 (fun f s => (exists off, field_at st f = Some (off, 4%nat)) /\ env f = zlen s) names ss ->
  Forall (fun l => l < PATH_MAX) (str_lens ss) ->
  mapM (fld st (encode st env ++ rest)) names = Some (str_lens ss).
Proof.
  induction 1 as [|f s names ss [[off Hf] He] H2 IH]; intros Hl; [done|].
  inversion Hl; subst. cbn [mapM].
  rewrite (fld_encode _ _ _ _ _ _ Hf), He. unfold zlen, PATH_MAX in *.
  rewrite Z.mod_small by lia. cbn. rewrite IH by done. done.
Qed.

(** * Operations *)

Inductive client_op :=
| OpOpen (path : bytes) (file_type : Z)
| OpReaddir (path : bytes) (header : option (Z * Z * Z * Z * Z))
| OpMkdir (path name : bytes) (mode : Z)
| OpCreate (path name : bytes) (mode : Z) (want_excl : bool)
| OpRmdir (path name : bytes)
| OpUnlink (path name : bytes)
| OpRename (old_path old_name new_path new_name : bytes) (flags : Z)
| OpSetattr (path : bytes) (attr : setattr_info)
| OpGetattr (path : bytes) (lookup_flags : Z)
| OpStatfs (path : bytes)
| OpGetxattr (path name : bytes) (size : Z)
| OpSetxattr (path name : bytes) (value : option bytes) (size flags : Z)
| OpListxattr (path : bytes) (size : Z)
| OpDropPush (path : bytes).

(** Command, layout, length fields, message and strings of an operation. *)
Definition op_cmd (op : client_op) : Z :=
  match op with
  | OpOpen _ _ => F_OPEN | OpReaddir _ _ => F_ITERATE | OpMkdir _ _ _ => F_MKDIR
  | OpCreate _ _ _ _ => F_CREATE | OpRmdir _ _ => F_RMDIR | OpUnlink _ _ => F_UNLINK
  | OpRename _ _ _ _ _ => F_RENAME | OpSetattr _ _ => F_SETATTR | OpGetattr _ _ => F_GETATTR
  | OpStatfs _ => F_STATFS | OpGetxattr _ _ _ => F_GETXATTR | OpSetxattr _ _ _ _ _ => F_SETXATTR
  | OpListxattr _ _ => F_LISTXATTR | OpDropPush _ => F_DROP_PUSH
  end.

Definition op_layout (op : client_op) : layout * list string :=
  match op with
  | OpOpen _ _ => (open_request, ["path_len"])
  | OpReaddir _ _ => (readdir_request, ["path_len"])
  | OpMkdir _ _ _ => (mkdir_request, ["path_len"; "name_len"])
  | OpCreate _ _ _ _ => (create_request, ["path_len"; "name_len"])
  | OpRmdir _ _ => (rmdir_request, ["path_len"; "name_len"])
  | OpUnlink _ _ => (unlink_request, ["path_len"; "name_len"])
  | OpRename _ _ _ _ _ =>
      (rename_request, ["old_path_len"; "new_path_len"; "old_name_len"; "new_name_len"])
  | OpSetattr _ _ => (setattr_request, ["path_len"])
  | OpGetattr _ _ => (getattr_request, ["path_len"])
  | OpStatfs _ => (statfs_request, ["path_len"])
  | OpGetxattr _ _ _ => (getxattr_request, ["path_len"; "name_len"])
  | OpSetxattr _ _ _ _ _ => (setxattr_request, ["path_len"; "name_len"])
  | OpListxattr _ _ => (listxattr_request, ["path_len"])
  | OpDropPush _ => (drop_push_request, ["path_len"])
  end.

Definition op_msg (op : client_op) : bytes :=
  match op with
  | OpOpen path t => open_msg path t
  | OpReaddir path header => readdir_msg path header
  | OpMkdir path name mode => mkdir_msg path name mode
  | OpCreate path name mode excl => create_msg path name mode excl
  | OpRmdir path name => rmdir_msg path name
  | OpUnlink path name => unlink_msg path name
  | OpRename p n p' n' flags => rename_msg p n p' n' flags
  | OpSetattr path attr => setattr_msg path attr
  | OpGetattr path flags => getattr_msg path flags
  | OpStatfs path => statfs_msg path
  | OpGetxattr path name size => getxattr_msg path name size
  | OpSetxattr path name value size flags => setxattr_msg path name value size flags
  | OpListxattr path size => listxattr_msg path size
  | OpDropPush path => drop_push_msg path
  end.

(** In the order the server finds them. *)
Definition op_strings (op : client_op) : list bytes :=
  match op with
  | OpOpen path _ | OpReaddir path _ | OpSetattr path _ | OpGetattr path _ | OpStatfs path
  | OpListxattr path _ | OpDropPush path => [path]
  | OpMkdir path name _ | OpCreate path name _ _ | OpRmdir path name | OpUnlink path name
  | OpGetxattr path name _ | OpSetxattr path name _ _ _ => [path; name]
  | OpRename p n p' n' _ => [p; p'; n; n']
  end.

(** Strings are NUL-free and below PATH_MAX, a name that is not renamed fits
    NAME_MAX, and extended-attribute sizes are within the limits of the protocol. *)
Definition op_ok (op : client_op) : Prop :=
  Forall (fun s => nul_free s /\ Forall is_byte s /\ zlen s < PATH_MAX) (op_strings op) /\
  match op with
  | OpMkdir _ name _ | OpCreate _ name _ _ | OpRmdir _ name | OpUnlink _ name =>
      zlen name <= NAME_MAX
  | OpGetxattr _ name size => zlen name <= XATTR_NAME_MAX /\ 0 <= size <= XATTR_SIZE_MAX
  | OpSetxattr _ name value size _ =>
      zlen name <= XATTR_NAME_MAX /\ 0 <= size <= HMDFS_XATTR_SIZE_MAX /\
      Forall is_byte (default [] value) /\ zlen (default [] value) <= size
  | OpListxattr _ size => 0 <= size <= XATTR_LIST_MAX
  | _ => True
  end.

(** * Every request passes the server's verification *)

(** The assignments and the bytes behind the strings, to treat all builders at once. *)
Definition op_kvs (op : client_op) : list (string * Z) :=
  match op with
  | OpOpen path t => [("file_type", u8 t); ("path_len", zlen path)]
  | OpReaddir path header =>
      ("path_len", zlen path) ::
      match header with
      | Some (crtime, crtime_nsec, ctime, ctime_nsec, num) =>
          [("dcache_crtime", crtime); ("dcache_crtime_nsec", crtime_nsec);
           ("dentry_ctime", ctime); ("dentry_ctime_nsec", ctime_nsec); ("num", num);
           ("verify_cache", 1)]
      | None => []
      end
  | OpMkdir path name mode =>
      [("path_len", zlen path); ("name_len", zlen name); ("mode", mode)]
  | OpCreate path name mode excl =>
      [("path_len", zlen path); ("name_len", zlen name); ("mode", mode);
       ("want_excl", if excl then 1 else 0)]
  | OpRmdir path name | OpUnlink path name =>
      [("path_len", zlen path); ("name_len", zlen name)]
  | OpRename p n p' n' flags =>
      [("old_path_len", zlen p); ("new_path_len", zlen p'); ("old_name_len", zlen n);
       ("new_name_len", zlen n'); ("flags", flags)]
  | OpSetattr path attr =>
      [("path_len", zlen path); ("valid", sa_valid attr); ("size", sa_size attr);
       ("mtime", sa_mtime attr); ("mtime_nsec", sa_mtime_nsec attr)]
  | OpGetattr path flags => [("path_len", zlen path); ("lookup_flags", flags)]
  | OpStatfs path | OpDropPush path => [("path_len", zlen path)]
  | OpGetxattr path name size =>
      [("path_len", zlen path); ("name_len", zlen name); ("size", size)]
  | OpSetxattr path name value size flags =>
      [("path_len", zlen path); ("name_len", zlen name); ("size", size); ("flags", flags)] ++
      match value with None => [("del", 1)] | Some _ => [] end
  | OpListxattr path size => [("path_len", zlen path); ("size", size)]
  end.

Definition op_tail (op : client_op) : nat * bytes :=
  match op with
  | OpSetxattr _ _ value size _ => (Z.to_nat size, default [] value)
  | _ => (O, [])
  end.

Abbreviation op_st op := (op_layout op).1.
Abbreviation op_names op := (op_layout op).2.

Lemma op_msg_request op :
  op_msg op = request (op_st op) (op_kvs op) (op_strings op) (op_tail op).1 (op_tail op).2.
Proof. by destruct op. Qed.

Lemma op_static op :
  (op_cmd op, (op_st op, op_names op)) ∈ request_table /\
  bool_decide (NoDup (map fst (op_st op))) = true /\
  forallb (fun kv => bool_decide (kv.1 ∈ map fst (op_st op))) (op_kvs op) = true /\
  Forall2 (fun f s => (exists off, field_at (op_st op) f = Some (off, 4%nat)) /\
                      env_of (op_kvs op) f = zlen s) (op_names op) (op_strings op).
Proof.
  split; [|split; [by destruct op|split]].
  - unfold request_table. destruct op; cbn [op_cmd op_layout fst snd];
      repeat (apply elem_of_cons; (by left) || right).
  - destruct op as [| ? [[[[[??]?]?]?]|] | | | | | | | | | | ?? [] | |]; reflexivity.
  - destruct op as [| ? [[[[[??]?]?]?]|] | | | | | | | | | | ?? [] | |];
      cbn [op_layout fst snd op_strings];
      repeat (constructor; [split; [eexists|]; reflexivity|]); constructor.
Qed.

Lemma op_tail_ok op :
  op_ok op -> (length (op_tail op).2 <= (op_tail op).1)%nat /\ Forall is_byte (op_tail op).2.
Proof.
  intros [_ Hop]. destruct op; cbn in *; try (split; [lia|constructor]).
  destruct Hop as (_&_&?&?). unfold zlen in *. split; [lia|done].
Qed.

Lemma op_msg_shape op :
  op_ok op ->
  exists tl, op_msg op = encode (op_st op) (env_of (op_kvs op)) ++ c_strings (op_strings op) ++ tl /\
    Forall is_byte tl /\ length tl = (op_tail op).1.
Proof.
  intros Hok. destruct (op_tail_ok op Hok) as [Ht Hb]. destruct (op_static op) as (_&Hnd&Hk&_).
  exists ((op_tail op).2 ++ replicate ((op_tail op).1 - length (op_tail op).2) 0).
  split; [|split].
  - rewrite op_msg_request. apply request_shape; [by apply bool_decide_eq_true in Hnd| |done].
    rewrite list.Forall_forall. intros kv Hkv. rewrite forallb_forall in Hk.
    apply list_elem_of_In, Hk in Hkv. by apply bool_decide_eq_true in Hkv.
  - apply list.Forall_app. split; [done|]. apply Forall_replicate. unfold is_byte. lia.
  - rewrite length_app, length_replicate. lia.
Qed.

Lemma op_limits op :
  op_ok op ->
  trailing (op_cmd op) (op_msg op) = Z.of_nat (op_tail op).1 /\
  over_limit (op_cmd op) (op_msg op) = false.
Proof.
  intros Hok. destruct (op_msg_shape op Hok) as (tl&E&_&_).
  destruct Hok as [Hs Hop]. rewrite E. clear E.
  destruct op; try (split; reflexivity); cbn [op_st op_layout op_cmd fst snd op_strings op_kvs op_tail].
  - destruct Hop as [Hx Hz]. split; [reflexivity|]. unfold over_limit. cbn [Z.eqb F_GETXATTR].
    erewrite !fld_encode by reflexivity.
    change (env_of _ "name_len") with (zlen name). change (env_of _ "size") with size.
    unfold zlen, XATTR_NAME_MAX, XATTR_SIZE_MAX in *. cbn [default from_option id].
    change (256 ^ Z.of_nat 4) with 4294967296. rewrite !Z.mod_small by lia.
    rewrite !(proj2 (Z.ltb_ge _ _)) by lia. done.
  - destruct Hop as (Hx&Hz&_). unfold over_limit, trailing. cbn [Z.eqb Pos.eqb F_GETXATTR F_SETXATTR].
    erewrite !fld_encode by reflexivity.
    assert (env_of (op_kvs (OpSetxattr path name value size flags)) "size" = size) as Es
      by (by destruct value).
    cbn [op_kvs] in Es. rewrite Es.
    assert (env_of (op_kvs (OpSetxattr path name value size flags)) "name_len" = zlen name) as En
      by (by destruct value).
    cbn [op_kvs] in En. rewrite En.
    unfold zlen, XATTR_NAME_MAX, XATTR_SIZE_MAX, HMDFS_XATTR_SIZE_MAX in *. cbn [default from_option id].
    change (256 ^ Z.of_nat 4) with 4294967296. rewrite !Z.mod_small by lia.
    rewrite !(proj2 (Z.ltb_ge _ _)) by lia. split; [lia|done].
  - split; [reflexivity|]. unfold over_limit. cbn [Z.eqb Pos.eqb F_GETXATTR F_SETXATTR F_LISTXATTR].
    erewrite !fld_encode by reflexivity. change (env_of _ "size") with size.
    unfold XATTR_LIST_MAX in *. cbn [default from_option id].
    change (256 ^ Z.of_nat 4) with 4294967296. rewrite !Z.mod_small by lia.
    rewrite !(proj2 (Z.ltb_ge _ _)) by lia. done.
Qed.

Lemma op_length op :
  op_ok op ->
  sizeof (op_st op) <= Z.of_nat (length (op_msg op))
    <= lr_max (message_length C_REQUEST (op_cmd op)) /\
  Z.of_nat (length (op_msg op)) < 2 ^ 31.
Proof.
  intros Hok. destruct (op_msg_shape op Hok) as (tl&E&_&Htl). rewrite E. clear E.
  rewrite !length_app, length_encode, Htl. clear Htl tl.
  assert (0 <= str_total (str_lens (op_strings op))) as Hpos.
  { rewrite <- length_c_strings. lia. }
  pose proof (length_c_strings (op_strings op)) as El. destruct Hok as [Hs Hop].
  unfold sizeof, zlen, PATH_MAX, NAME_MAX, XATTR_NAME_MAX, HMDFS_XATTR_SIZE_MAX in *.
  destruct op; cbn [op_strings op_cmd op_layout fst snd op_tail] in *;
    repeat match goal with
    | H : Forall _ (_ :: _) |- _ => inversion_clear H as [|? ? (_&_&?) ?]
    | H : Forall _ [] |- _ => clear H
    end;
    unfold str_lens in *; cbn [map foldr] in El;
    match goal with |- context [lr_max ?r] =>
      let m := eval vm_compute in (lr_max r) in change (lr_max r) with m end;
    match goal with |- context [size_of ?r] =>
      let m := eval vm_compute in (size_of r) in change (size_of r) with m end; lia.
Qed.

(** * Properties *)

(** C35: Every request a client builds for valid strings and sizes passes the server's
    verification unchanged, and the server takes out of it exactly the strings the
    client put in: path, name, and the four strings of a rename in wire order. *)
Theorem client_request_roundtrip op :
  op_ok op ->
  let h := mk_head C_REQUEST (op_cmd op)
             (sizeof hmdfs_head_cmd + Z.of_nat (length (op_msg op))) 0 in
  hmdfs_message_verify (Some h) (Some (op_msg op)) = Some (inr (mk_verified 0 h None)) /\
  server_strings (op_layout op).1 (op_layout op).2 (op_msg op) = Some (op_strings op).
Proof.
  intros Hok h. destruct (op_msg_shape op Hok) as (tl&E&Hb&Htl).
  destruct (op_static op) as (Hin&_&_&Hf2). destruct (op_limits op Hok) as [Htr Hov].
  destruct (op_length op Hok) as [Hlen Hlen31].
  pose proof Hok as [Hs _].
  assert (Forall nul_free (op_strings op)) as Hnf
    by (eapply list.Forall_impl; [exact Hs|naive_solver]).
  assert (Forall (fun l => l < PATH_MAX) (str_lens (op_strings op))) as Hlt.
  { unfold str_lens. apply Forall_map. eapply list.Forall_impl; [exact Hs|naive_solver]. }
  pose proof (mapM_fld_encode (op_st op) _ (c_strings (op_strings op) ++ tl) _ _ Hf2 Hlt) as Hm.
  rewrite <- E in Hm. split.
  - destruct (verify_request h (op_msg op) _ _ _ Hin) as (v&Ev&Hv&Hiff); try reflexivity.
    + rewrite E. repeat (apply list.Forall_app; split); [apply encode_bytes| |done].
      apply c_strings_bytes. eapply list.Forall_impl; [exact Hs|naive_solver].
    + cbn. unfold sizeof. cbn. lia.
    + rewrite Ev. assert (v_err v = 0) as H0.
      { apply Hiff. split; [done|]. split; [done|]. rewrite Htr, <- Htl.
        exists (op_strings op), tl. rewrite Hm. split; [|done].
        rewrite E at 2. rewrite take_app_length' by (by rewrite length_encode). exact E. }
      destruct Hv as [[_ ->]| ->]; [done|]. exfalso.
      unfold handle_bad_message in H0.
      change (h_cmd_flag h =? C_RESPONSE) with false in H0. by destruct (F_SIZE <=? h_command h).
  - unfold server_strings. rewrite Hm. cbn. f_equal. rewrite E.
    rewrite <- (length_encode (op_st op) (env_of (op_kvs op))). by apply recv_strings_shape.
Qed.

Lemma client_request_roundtrip_witness :
  let op := OpMkdir [47; 97] [98] 511 in
  op_ok op /\
  let h := mk_head C_REQUEST (op_cmd op)
             (sizeof hmdfs_head_cmd + Z.of_nat (length (op_msg op))) 0 in
  hmdfs_message_verify (Some h) (Some (op_msg op)) = Some (inr (mk_verified 0 h None)) /\
  server_strings (op_layout op).1 (op_layout op).2 (op_msg op) = Some [[47; 97]; [98]].
Proof.
  assert (op_ok (OpMkdir [47; 97] [98] 511)) as Hok.
  { split; [|done]. cbn. unfold nul_free, is_byte, zlen, PATH_MAX. cbn.
    repeat (constructor || lia). }
  split; [exact Hok|]. exact (client_request_roundtrip _ Hok).
Defined.
