(* ===== verification/ClientReply.v ===== *)
(** The client operations as a whole (hmdfs_client.c): send the request built in
    ClientMsg.v and interpret the result code and the response buffer. *)
From S2P Require Import Prelude Protocol MessageVerify ClientMsg.

Open Scope string_scope.
Open Scope list_scope.
Open Scope Z_scope.

Definition ERANGE := 34.

(** What the operations hand to their callers. *)
Record hmdfs_lookup_ret := mk_lookup_ret {
  lr_i_mode : Z;
  lr_i_size : Z;
  lr_i_mtime : Z;
  lr_i_mtime_nsec : Z;
  lr_i_ino : Z
}.

Record hmdfs_open_ret := mk_open_ret {
  or_ino : Z;
  or_ver : Z;
  or_id : Z;
  or_file_size : Z;
  or_ctime : Z * Z;
  or_stable_ctime : Z * Z
}.

Record hmdfs_getattr_ret := mk_getattr_ret {
  ga_ino : Z; ga_mode : Z; ga_nlink : Z; ga_uid : Z; ga_gid : Z; ga_size : Z;
  ga_blocks : Z; ga_blksize : Z; ga_atime : Z * Z; ga_mtime : Z * Z; ga_ctime : Z * Z;
  ga_btime : Z * Z; ga_fsid : Z
}.

(** The outcome of an operation: it returns a code and perhaps a value, or it reads
    the response buffer outside of its bounds. *)
Inductive outcome (A : Type) :=
| Ret (ret : Z) (value : option A)
| OutOfBounds.
Arguments Ret {A}.
Arguments OutOfBounds {A}.

Definition decoded {A} (ret : Z) (o : option A) : outcome A :=
  match o with Some v => Ret ret (Some v) | None => OutOfBounds end.

(** * Decoding responses *)

Definition lookup_of (resp : bytes) : option hmdfs_lookup_ret :=
  let get := fld hmdfs_inodeinfo_response resp in
  mode ← get "i_mode"; size ← get "i_size"; mtime ← get "i_mtime";
  nsec ← get "i_mtime_nsec"; ino ← get "i_ino";
  Some (mk_lookup_ret mode size mtime nsec ino).

Definition open_of (resp : bytes) : option hmdfs_open_ret :=
  let get := fld open_response resp in
  ino ← get "ino"; ver ← get "file_ver"; id ← get "file_id"; size ← get "file_size";
  ctime ← get "ctime"; ctime_nsec ← get "ctime_nsec";
  stable ← get "stable_ctime"; stable_nsec ← get "stable_ctime_nsec";
  Some (mk_open_ret ino ver id size (ctime, ctime_nsec) (stable, stable_nsec)).

(** [Some None]: the result mask is 0 and nothing else is looked at. *)
Definition hmdfs_update_getattr_ret (resp : bytes) : option (option hmdfs_getattr_ret) :=
  let get := fld getattr_response resp in
  mask ← get "result_mask";
  if mask =? 0 then Some None
  else
    ino ← get "ino"; mode ← get "mode"; nlink ← get "nlink"; uid ← get "uid";
    gid ← get "gid"; size ← get "size"; blocks ← get "blocks"; blksize ← get "blksize";
    atime ← get "atime"; atime_nsec ← get "atime_nsec";
    mtime ← get "mtime"; mtime_nsec ← get "mtime_nsec";
    ctime ← get "ctime"; ctime_nsec ← get "ctime_nsec";
    crtime ← get "crtime"; crtime_nsec ← get "crtime_nsec"; fsid ← get "fsid";
    Some (Some (mk_getattr_ret ino mode nlink uid gid size blocks blksize (atime, atime_nsec)
                  (mtime, mtime_nsec) (ctime, ctime_nsec) (crtime, crtime_nsec) fsid)).

Definition hmdfs_update_statfs_ret (resp : bytes) : option (list Z) :=
  mapM (fld statfs_response resp)
    ["f_type"; "f_bsize"; "f_blocks"; "f_bfree"; "f_bavail"; "f_files"; "f_ffree"; "f_fsid_0";
     "f_fsid_1"; "f_namelen"; "f_frsize"; "f_flags"; "f_spare_0"; "f_spare_1"; "f_spare_2";
     "f_spare_3"].

(** Return value and bytes copied to the caller's buffer of [o_size] bytes; reading
    the value past the response is out of bounds. *)
Definition update_xattr_ret (st : layout) (resp : bytes) (o_size : Z) : outcome bytes :=
  match fld st resp "size" with
  | None => OutOfBounds
  | Some size =>
      if negb (o_size =? 0) && (o_size <? size) then Ret (- ERANGE) None
      else if o_size =? 0 then Ret size None
      else if decide (size_of st + Z.to_nat size <= length resp)%nat
           then Ret size (Some (sub (size_of st) (Z.to_nat size) resp))
           else OutOfBounds
  end.

Definition hmdfs_update_getxattr_ret := update_xattr_ret getxattr_response.
Definition hmdfs_update_listxattr_ret := update_xattr_ret listxattr_response.

(** * The operations *)

Section sending.
Context (send : Z -> bytes -> Z * option bytes).

(** [sm.out_len == 0 || !sm.out_buf] after a successful send. *)
Definition no_response (out : option bytes) : bool :=
  match out with Some resp => Nat.eqb (length resp) 0 | None => true end.

Definition need_data {A} (r : Z * option bytes) (k : bytes -> outcome A) : outcome A :=
  let '(ret, out) := r in
  let ret := if (ret =? 0) && no_response out then - ENOENT else ret in
  if negb (ret =? 0) then Ret ret None
  else match out with Some resp => k resp | None => Ret ret None end.

Definition hmdfs_send_open (path : bytes) (file_type : Z) : outcome hmdfs_open_ret :=
  need_data (send F_OPEN (open_msg path file_type)) (fun resp => decoded 0 (open_of resp)).

Definition inode_reply (r : Z * option bytes) : outcome hmdfs_lookup_ret :=
  let '(ret, out) := r in
  if (ret =? - ENOENT) || (ret =? - ETIME) || (ret =? - EOPNOTSUPP) then Ret ret None
  else match out with
  | None => Ret (- ENOENT) None
  | Some resp => decoded ret (lookup_of resp)
  end.

Definition hmdfs_client_start_mkdir (path name : bytes) (mode : Z) : outcome hmdfs_lookup_ret :=
  inode_reply (send F_MKDIR (mkdir_msg path name mode)).

Definition hmdfs_client_start_create (path name : bytes) (mode : Z) (want_excl : bool)
    : outcome hmdfs_lookup_ret :=
  inode_reply (send F_CREATE (create_msg path name mode want_excl)).

Definition hmdfs_client_start_readdir (path : bytes) (header : option (Z * Z * Z * Z * Z)) : Z :=
  (send F_ITERATE (readdir_msg path header)).1.

Definition hmdfs_client_start_rmdir (path name : bytes) : Z :=
  (send F_RMDIR (rmdir_msg path name)).1.

Definition hmdfs_client_start_unlink (path name : bytes) : Z :=
  (send F_UNLINK (unlink_msg path name)).1.

Definition hmdfs_client_start_rename (old_path old_name new_path new_name : bytes) (flags : Z)
    : Z :=
  (send F_RENAME (rename_msg old_path old_name new_path new_name flags)).1.

Definition hmdfs_send_setattr (path : bytes) (attr : setattr_info) : Z :=
  (send F_SETATTR (setattr_msg path attr)).1.

Definition hmdfs_send_getattr (path : bytes) (lookup_flags : Z)
    : outcome (option hmdfs_getattr_ret) :=
  need_data (send F_GETATTR (getattr_msg path lookup_flags))
    (fun resp => decoded 0 (hmdfs_update_getattr_ret resp)).

Definition hmdfs_send_statfs (path : bytes) : outcome (list Z) :=
  let '(ret, out) := send F_STATFS (statfs_msg path) in
  need_data (if ret =? - ETIME then - EIO else ret, out)
    (fun resp => decoded 0 (hmdfs_update_statfs_ret resp)).

Definition hmdfs_send_getxattr (path name : bytes) (size : Z) : outcome bytes :=
  need_data (send F_GETXATTR (getxattr_msg path name size))
    (fun resp => hmdfs_update_getxattr_ret resp size).

Definition hmdfs_send_setxattr (path name : bytes) (value : option bytes) (size flags : Z) : Z :=
  (send F_SETXATTR (setxattr_msg path name value size flags)).1.

Definition hmdfs_send_listxattr (path : bytes) (size : Z) : outcome bytes :=
  need_data (send F_LISTXATTR (listxattr_msg path size))
    (fun resp => hmdfs_update_listxattr_ret resp size).

(** Nothing is returned: a failed send is not noticed. *)
Definition hmdfs_send_drop_push (path : bytes) : unit :=
  let _ := send F_DROP_PUSH (drop_push_msg path) in tt.
End sending.

(** * Properties *)

(** The inode returned by a remote mkdir or create: success means that a response was
    decoded; without one every code but -ETIME and -EOPNOTSUPP, and success too,
    becomes -ENOENT, so for instance a remote -EEXIST is reported as -ENOENT; a
    response of the size the verification enforces is decoded inside its bounds. *)
Theorem mkdir_reply send path name mode ret out :
  send F_MKDIR (mkdir_msg path name mode) = (ret, out) ->
  let r := hmdfs_client_start_mkdir send path name mode in
  (forall v, r = Ret 0 v -> ret = 0 /\ exists resp, out = Some resp /\ v = lookup_of resp) /\
  (out = None -> exists e, r = Ret e None /\
     e = if (ret =? - ETIME) || (ret =? - EOPNOTSUPP) then ret else - ENOENT) /\
  (forall resp, out = Some resp -> length resp = size_of hmdfs_inodeinfo_response ->
     r <> OutOfBounds).
Proof.
  intros Hs r. unfold r, hmdfs_client_start_mkdir, inode_reply. rewrite Hs. split; [|split].
  - intros v. unfold ENOENT, ETIME, EOPNOTSUPP.
    destruct (_ || _ || _) eqn:E.
    { intros [= -> _]. done. }
    clear E. destruct out as [resp|]; [|done]. unfold decoded. destruct (lookup_of resp) eqn:E; [|done].
    intros [= -> <-]. split; [done|]. by exists resp.
  - intros ->. destruct (ret =? - ENOENT) eqn:E1; zb; [subst ret; by eexists|].
    cbn. destruct (_ || _); by eexists.
  - intros resp -> Hl. destruct (_ || _ || _); [done|]. unfold decoded, lookup_of.
    destruct (fld_some hmdfs_inodeinfo_response resp "i_mode") as [a Ea]; [by eexists|lia|].
    destruct (fld_some hmdfs_inodeinfo_response resp "i_size") as [b Eb]; [by eexists|lia|].
    destruct (fld_some hmdfs_inodeinfo_response resp "i_mtime") as [c Ec]; [by eexists|lia|].
    destruct (fld_some hmdfs_inodeinfo_response resp "i_mtime_nsec") as [e Ee]; [by eexists|lia|].
    destruct (fld_some hmdfs_inodeinfo_response resp "i_ino") as [g Eg]; [by eexists|lia|].
    by rewrite Ea, Eb, Ec, Ee, Eg.
Qed.

Lemma mkdir_reply_witness :
  let send := fun (_ : Z) (_ : bytes) => (- EEXIST, @None bytes) in
  send F_MKDIR (mkdir_msg [47] [97] 511) = (- EEXIST, None) /\
  let r := hmdfs_client_start_mkdir send [47] [97] 511 in
  (forall v, r = Ret 0 v ->
     - EEXIST = 0 /\ exists resp, @None bytes = Some resp /\ v = lookup_of resp) /\
  (@None bytes = None -> exists e, r = Ret e None /\
     e = if (- EEXIST =? - ETIME) || (- EEXIST =? - EOPNOTSUPP) then - EEXIST else - ENOENT) /\
  (forall resp, @None bytes = Some resp -> length resp = size_of hmdfs_inodeinfo_response ->
     r <> OutOfBounds).
Proof.
  split; [reflexivity|].
  exact (mkdir_reply (fun _ _ => (- EEXIST, None)) [47] [97] 511 (- EEXIST) None eq_refl).
Defined.

(** A getxattr response never overfills the caller's buffer: what is copied is exactly
    the returned number of bytes and at most the buffer size.  Reading it stays inside
    a response that passed verification, except for one of four bytes, that is a size
    field (of value 1) with no value behind it. *)
Theorem getxattr_reply_bounds resp o_size :
  Forall is_byte resp -> 0 <= o_size ->
  (forall ret val, hmdfs_update_getxattr_ret resp o_size = Ret ret (Some val) ->
     zlen val = ret /\ ret <= o_size) /\
  (verify_getxattr_resp (zlen resp) resp = Some 0 ->
     hmdfs_update_getxattr_ret resp o_size = OutOfBounds <->
     length resp = 4%nat /\ 1 <= o_size).
Proof.
  intros Hb Ho. unfold hmdfs_update_getxattr_ret, update_xattr_ret. split.
  - intros ret val. destruct (fld getxattr_response resp "size") as [size|] eqn:Es; [|done].
    pose proof (fld_range _ _ _ _ Hb Es) as Hs.
    destruct (o_size =? 0) eqn:E2; cbn [negb andb]; [done|].
    destruct (o_size <? size) eqn:E1; [done|].
    case_decide as Hd; [|done]. intros [= <- <-]. zb.
    unfold zlen, sub. rewrite length_take, length_drop. split; [|exact E1].
    cbn in Hd |- *. lia.
  - unfold verify_getxattr_resp.
    destruct (fld getxattr_response resp "size") as [size|] eqn:Es; [|done]. cbn [mbind option_bind].
    destruct (size =? 1) eqn:E1; zb; cbn [negb]; [subst size|done].
    destruct (_ <? _) eqn:E2; [done|]. intros _. zb. unfold zlen, sizeof in E2. cbn in E2.
    assert (4 <= length resp)%nat as Hl by lia.
    change (size_of getxattr_response + Z.to_nat 1)%nat with 5%nat.
    destruct (o_size =? 0) eqn:E3; zb; cbn [negb andb]; [split; [done|]; intros [_ ?]; lia|].
    destruct (o_size <? 1) eqn:E4; zb; cbn [negb andb]; [lia|]. case_decide.
    + split; [done|]. intros [? _]. lia.
    + split; [intros _|done]. lia.
Qed.

Lemma getxattr_reply_bounds_witness :
  Forall is_byte (le_enc 4 1 ++ [7]) /\ 0 <= 16 /\
  (forall ret val, hmdfs_update_getxattr_ret (le_enc 4 1 ++ [7]) 16 = Ret ret (Some val) ->
     zlen val = ret /\ ret <= 16) /\
  (verify_getxattr_resp (zlen (le_enc 4 1 ++ [7])) (le_enc 4 1 ++ [7]) = Some 0 ->
     hmdfs_update_getxattr_ret (le_enc 4 1 ++ [7]) 16 = OutOfBounds <->
     length (le_enc 4 1 ++ [7]) = 4%nat /\ 1 <= 16).
Proof.
  assert (Forall is_byte (le_enc 4 1 ++ [7])) as Hb.
  { apply list.Forall_app. split; [apply le_enc_bytes|].
    repeat constructor; unfold is_byte; lia. }
  split; [exact Hb|]. split; [lia|]. apply (getxattr_reply_bounds _ 16 Hb). lia.
Defined.
