(* ===== verification/ServerPath.v ===== *)
(** The server's defence against paths that leave the exported tree
    (path_contain_dotdot of hmdfs_server.c), checked on every path and name a
    request carries before it is looked up. *)
From S2P Require Import Prelude.

Definition SLASH := 47.
Definition DOT := 46.

(** [name, len] is the list of the [len] bytes left. *)
Fixpoint find_first_no_slash (name : bytes) : bytes :=
  match name with
  | c :: name' => if c =? SLASH then find_first_no_slash name' else name
  | [] => []
  end.

Fixpoint find_first_slash (name : bytes) : bytes :=
  match name with
  | c :: name' => if negb (c =? SLASH) then find_first_slash name' else name
  | [] => []
  end.

(** The [while (true)] loop; [None] only when the fuel runs out. *)
Fixpoint dotdot_loop (fuel : nat) (name : bytes) : option bool :=
  match fuel with
  | O => None
  | S fuel =>
      match find_first_no_slash name with
      | [] => Some false
      | name =>
          let found :=
            match name with
            | [a; b] => (a =? DOT) && (b =? DOT)
            | a :: b :: c :: _ => (a =? DOT) && (b =? DOT) && (c =? SLASH)
            | _ => false
            end in
          if found then Some true else dotdot_loop fuel (find_first_slash name)
      end
  end.

Definition path_contain_dotdot (name : bytes) : bool :=
  default false (dotdot_loop (S (length name)) name).

(** The refusal at the start of the handlers: any of the request's strings. *)
Definition refuse_dotdot (strings : list bytes) : Z :=
  if existsb path_contain_dotdot strings then - EINVAL else 0.

(** * Specification *)

(** ".." between two ends of a path component. *)
Definition has_dotdot (name : bytes) : Prop :=
  exists pre post, name = pre ++ DOT :: DOT :: post /\
    (pre = [] \/ exists p, pre = p ++ [SLASH]) /\ (post = [] \/ exists q, post = SLASH :: q).

(** The same, but not at the very start. *)
Definition dotdot_later (name : bytes) : Prop :=
  exists pre post, name = (pre ++ [SLASH]) ++ DOT :: DOT :: post /\
    (post = [] \/ exists q, post = SLASH :: q).

Lemma length_no_slash name : (length (find_first_no_slash name) <= length name)%nat.
Proof. induction name as [|c name IH]; [done|]. cbn. split_if; cbn; lia. Qed.

Lemma length_slash name : (length (find_first_slash name) <= length name)%nat.
Proof. induction name as [|c name IH]; [done|]. cbn. split_if; cbn; lia. Qed.

Lemma no_slash_head name c rest : find_first_no_slash name = c :: rest -> c <> SLASH.
Proof.
  induction name as [|d name IH]; [done|]. cbn. destruct (d =? SLASH) eqn:E; zb; [done|].
  by intros [= -> ->].
Qed.

Lemma has_dotdot_slash name : has_dotdot (SLASH :: name) <-> has_dotdot name.
Proof.
  split.
  - intros (pre&post&E&Hpre&Hpost). destruct pre as [|c pre]; [done|]. simplify_eq/=.
    exists pre, post. split; [done|]. split; [|done].
    destruct Hpre as [?|[p Hp]]; [done|]. destruct p as [|d p]; simplify_eq/=; [by left|].
    right. by exists p.
  - intros (pre&post&->&Hpre&Hpost). exists (SLASH :: pre), post. split; [done|]. split; [|done].
    right. destruct Hpre as [-> |[p ->]]; [by exists []|]. by exists (SLASH :: p).
Qed.

Lemma has_dotdot_no_slash name : has_dotdot (find_first_no_slash name) <-> has_dotdot name.
Proof.
  induction name as [|c name IH]; [done|]. cbn. destruct (c =? SLASH) eqn:E; zb; [|done].
  subst c. by rewrite has_dotdot_slash.
Qed.

(** Skipping the rest of a component loses only a ".." at its start. *)
Lemma dotdot_later_slash name : dotdot_later name <-> has_dotdot (find_first_slash name).
Proof.
  induction name as [|c name IH].
  - split; [intros ([|? ?]&?&?&_); done|]. intros ([|? ?]&?&?&_); done.
  - cbn. destruct (c =? SLASH) eqn:E; zb; cbn [negb].
    + subst c. split.
      * intros (pre&post&E&Hp). exists (pre ++ [SLASH]), post. split; [done|]. split; [|done].
        right. by exists pre.
      * intros (pre&post&E&[-> |[p ->]]&Hp); [done|]. by exists p, post.
    + rewrite <- IH. split.
      * intros (pre&post&Ep&Hp). destruct pre as [|d pre]; simplify_eq/=. by exists pre, post.
      * intros (pre&post&->&Hp). by exists (c :: pre), post.
Qed.

Lemma has_dotdot_split name :
  has_dotdot name <->
  (exists post, name = DOT :: DOT :: post /\ (post = [] \/ exists q, post = SLASH :: q)) \/
  dotdot_later name.
Proof.
  split.
  - intros (pre&post&E&[-> |[p ->]]&Hp); [left; by exists post|right; by exists p, post].
  - intros [(post&->&Hp)|(pre&post&->&Hp)]; [exists [], post|exists (pre ++ [SLASH]), post].
    + split; [done|]. split; [by left|done].
    + split; [done|]. split; [right; by exists pre|done].
Qed.

Lemma dotdot_loop_spec fuel name :
  (length name < fuel)%nat ->
  exists b, dotdot_loop fuel name = Some b /\ (b = true <-> has_dotdot name).
Proof.
  revert name; induction fuel as [|fuel IH]; intros name Hf; [lia|].
  cbn [dotdot_loop]. pose proof (has_dotdot_no_slash name) as Hno.
  pose proof (length_no_slash name) as Hl. pose proof (no_slash_head name) as Hc.
  destruct (find_first_no_slash name) as [|a rest].
  { exists false. split; [done|]. rewrite <- Hno. split; [done|]. by intros ([|? ?]&?&?&_). }
  specialize (Hc a rest eq_refl). rewrite has_dotdot_split in Hno.
  destruct (IH (find_first_slash (a :: rest))) as (b&Eb&Hb).
  { cbn. rewrite (proj2 (Z.eqb_neq a SLASH)) by done. cbn [negb].
    pose proof (length_slash rest). cbn in Hl. lia. }
  rewrite <- dotdot_later_slash in Hb.
  set (found := match rest with [] => false | _ => _ end).
  assert (found = true <-> exists post, a :: rest = DOT :: DOT :: post /\
            (post = [] \/ exists q, post = SLASH :: q)) as Hfound.
  { unfold found. destruct rest as [|x [|y rest]].
    - split; [done|]. intros (?&?&_). done.
    - rewrite andb_true_iff, !Z.eqb_eq. split; [intros [-> ->]; exists []; auto|].
      intros (post&[= -> -> <-]&_). done.
    - rewrite !andb_true_iff, !Z.eqb_eq.
      split; [intros [[-> ->] ->]; exists (SLASH :: rest); eauto|].
      intros (post&[= -> -> <-]&[?|[q [= -> ->]]]); done. }
  destruct found.
  - exists true. split; [done|]. rewrite <- Hno. split; [|done]. intros _. left. by apply Hfound.
  - exists b. split; [done|]. rewrite <- Hno, Hb. split; [by right|]. intros [H|H]; [|done].
    by apply Hfound in H.
Qed.

(** * Properties *)

(** path_contain_dotdot ends on every string, and finds exactly the paths with a ".."
    component, wherever it stands and however many slashes surround it; a component
    that merely contains or starts with two dots is let through. *)
Theorem path_contain_dotdot_correct name :
  is_Some (dotdot_loop (S (length name)) name) /\
  (path_contain_dotdot name = true <-> has_dotdot name) /\
  (forall strings, name ∈ strings -> has_dotdot name -> refuse_dotdot strings = - EINVAL).
Proof.
  destruct (dotdot_loop_spec (S (length name)) name) as (b&E&Hb); [lia|].
  assert (path_contain_dotdot name = true <-> has_dotdot name) as H.
  { unfold path_contain_dotdot. by rewrite E. }
  split; [by rewrite E|]. split; [exact H|]. intros strings Hin Hd. unfold refuse_dotdot.
  replace (existsb path_contain_dotdot strings) with true; [done|]. symmetry.
  apply existsb_exists. exists name. rewrite <- list_elem_of_In. split; [done|by apply H].
Qed.
