(* ===== verification/DentryPath.v ===== *)
(** Paths of dentries (hmdfs_dentryfile.c): the path of a dentry below its view's
    root, built from the end of a buffer while walking up, and the two functions
    that join strings.  A walk that races with a rename is started again under
    rename_lock, so the model sees one consistent chain of parents.  Buffers are
    allocated successfully. *)
From S2P Require Import Prelude ServerPath.


(** enum HMDFS_LAYER_TYPE. *)
Definition HMDFS_LAYER_SECOND_LOCAL := 2.
Definition HMDFS_LAYER_SECOND_REMOTE := 3.
Definition HMDFS_LAYER_SECOND_CLOUD := 4.
Definition HMDFS_LAYER_OTHER_LOCAL := 5.
Definition HMDFS_LAYER_OTHER_REMOTE := 6.
Definition HMDFS_LAYER_OTHER_CLOUD := 7.
Definition HMDFS_LAYER_FIRST_MERGE := 8.
Definition HMDFS_LAYER_FIRST_MERGE_CLOUD := 10.

(** A dentry's type in hmdfs and its name; its parents come in a list, the last of
    which is its own parent. *)
Record dent := mk_dent { d_type : Z; d_name : bytes }.

(** The type of the view's root and whether the dentry is that root. *)
Definition hmdfs_get_root_dentry_type (d : dent) : Z * bool :=
  let t := d_type d in
  if t =? HMDFS_LAYER_OTHER_LOCAL then (HMDFS_LAYER_SECOND_LOCAL, false)
  else if t =? HMDFS_LAYER_SECOND_LOCAL then (HMDFS_LAYER_SECOND_LOCAL, true)
  else if t =? HMDFS_LAYER_OTHER_CLOUD then (HMDFS_LAYER_SECOND_CLOUD, false)
  else if t =? HMDFS_LAYER_SECOND_CLOUD then (HMDFS_LAYER_SECOND_CLOUD, true)
  else if t =? HMDFS_LAYER_OTHER_REMOTE then (HMDFS_LAYER_SECOND_REMOTE, false)
  else if t =? HMDFS_LAYER_SECOND_REMOTE then (HMDFS_LAYER_SECOND_REMOTE, true)
  else (- EINVAL, true).

(** The buffer, the offset of [end] in it, and the room left. *)
Record pbuf := mk_pbuf { pb_buf : bytes; pb_end : Z; pb_len : Z }.

(** [None] is -ENAMETOOLONG. *)
Definition prepend (p : pbuf) (str : bytes) (namelen : Z) : option pbuf :=
  let len := swrap 32 (pb_len p - namelen) in
  if len <? 0 then None
  else
    let e := pb_end p - namelen in
    Some (mk_pbuf (memcpy_at (Z.to_nat e) (take (Z.to_nat namelen) str) (pb_buf p)) e len).

Definition prepend_name (p : pbuf) (name : bytes) : option pbuf :=
  let dlen := Z.of_nat (length name) in
  let len := swrap 32 (pb_len p - (dlen + 1)) in
  if len <? 0 then None
  else
    let e := pb_end p - (dlen + 1) in
    Some (mk_pbuf (memcpy_at (Z.to_nat e) (SLASH :: take (strnlen name (length name)) name)
                     (pb_buf p)) e len).

(** The [while] loop up to a dentry whose type satisfies [stop]: the buffer and
    [retval], or the error; the outer [None] only when the fuel runs out. *)
Fixpoint path_walk (fuel : nat) (stop : Z -> bool) (d : dent) (parents : list dent) (p : pbuf)
    (retval : Z) : option (option (bytes * Z)) :=
  match fuel with
  | O => None
  | S fuel =>
      if stop (d_type d) then Some (Some (pb_buf p, retval))
      else
        match prepend_name p (d_name d) with
        | None => Some None
        | Some p =>
            let '(d, parents) := match parents with [] => (d, []) | d :: ds => (d, ds) end in
            path_walk fuel stop d parents p (pb_end p)
        end
  end.

(** NULL, ERR_PTR(-ENAMETOOLONG), or a pointer into the buffer. *)
Inductive path_ret := PathNull | PathErr | PathAt (buf : bytes) (off : Z).

Definition walk_from (stop : Z -> bool) (d : dent) (parents : list dent) (buf : bytes) : path_ret :=
  let buflen := Z.of_nat (length buf) in
  match prepend (mk_pbuf buf buflen buflen) [0] 1 with
  | None => PathErr
  | Some p =>
      let retval := pb_end p - 1 in
      let p := mk_pbuf (<[Z.to_nat retval := SLASH]> (pb_buf p)) (pb_end p) (pb_len p) in
      match path_walk (S (length buf)) stop d parents p retval with
      | Some (Some (buf, off)) => PathAt buf off
      | _ => PathErr
      end
  end.

Definition hmdfs_dentry_path_raw (d : dent) (parents : list dent) (buf : bytes) : path_ret :=
  let '(root_type, root_flag) := hmdfs_get_root_dentry_type d in
  if root_type <? 0 then PathNull
  else if root_flag then PathAt (memcpy_at 0 [SLASH; 0] buf) 0
  else walk_from (fun t => t =? root_type) d parents buf.

Definition hmdfs_merge_dentry_path_raw (d : dent) (parents : list dent) (buf : bytes) : path_ret :=
  walk_from (fun t => (t =? HMDFS_LAYER_FIRST_MERGE) || (t =? HMDFS_LAYER_FIRST_MERGE_CLOUD))
    d parents buf.

(** The C string at an offset of the buffer. *)
Definition str_at (buf : bytes) (off : Z) : bytes :=
  let s := drop (Z.to_nat off) buf in take (strnlen s (length s)) s.

Definition zero_buf : bytes := replicate (Z.to_nat PATH_MAX) 0.

(** What both relative-path functions do with the walk. *)
Definition relative_path (r : path_ret) : option bytes :=
  match r with
  | PathAt buf off =>
      let s := str_at buf off in
      if PATH_MAX <=? Z.of_nat (length s) then None else Some s
  | _ => None
  end.

Definition hmdfs_get_dentry_relative_path (d : option (dent * list dent)) : option bytes :=
  match d with
  | None => Some [SLASH]
  | Some (d, parents) => relative_path (hmdfs_dentry_path_raw d parents zero_buf)
  end.

Definition hmdfs_merge_get_dentry_relative_path (d : option (dent * list dent)) : option bytes :=
  match d with
  | None => Some [SLASH]
  | Some (d, parents) => relative_path (hmdfs_merge_dentry_path_raw d parents zero_buf)
  end.

(** NULL arguments are [None]; strings are NUL-free. *)
Definition hmdfs_get_dentry_absolute_path (rootdir relative_path : option bytes) : option bytes :=
  match rootdir, relative_path with
  | Some r, Some p =>
      if PATH_MAX <=? Z.of_nat (length r) + Z.of_nat (length p) then None else Some (r ++ p)
  | _, _ => None
  end.

Definition hmdfs_connect_path (path name : option bytes) : option bytes :=
  match path, name with
  | Some path, Some name =>
      let path_len := strnlen path (Z.to_nat PATH_MAX) in
      let name_len := strnlen name (Z.to_nat PATH_MAX) in
      if PATH_MAX <=? Z.of_nat path_len + Z.of_nat name_len + 1 then None
      else Some (take path_len path ++ [SLASH] ++ take name_len name)
  | _, _ => None
  end.

(** * Specification *)

(** The path of the names met on the way up. *)
Definition path_of (names : list bytes) : bytes :=
  match names with
  | [] => [SLASH]
  | _ => mjoin (map (cons SLASH) (rev names))
  end.

Definition no_nul (s : bytes) : Prop := Forall (fun c => c <> 0) s.

Definition names_len (ds : list dent) : Z :=
  foldr (fun d n => Z.of_nat (length (d_name d)) + 1 + n) 0 ds.

Definition joined (names : list bytes) : bytes := mjoin (map (cons SLASH) (rev names)).

(** What the string at [retval] is once [s] has been written: "/" at first. *)
Definition shown (s : bytes) : bytes := match s with [] => [SLASH] | _ => s end.

(** The buffer ends with [s] and a NUL, behind the free room. *)
Record pbuf_ok (p : pbuf) (s : bytes) : Prop := {
  pb_same : pb_end p = pb_len p;
  pb_room : 0 <= pb_len p < 2 ^ 31;
  pb_inside : (Z.to_nat (pb_len p) <= length (pb_buf p))%nat;
  pb_tail : drop (Z.to_nat (pb_end p)) (pb_buf p) = s ++ [0]
}.

Lemma strnlen_no_nul s rest m :
  no_nul s -> (length s <= m)%nat -> (rest = [] \/ exists r, rest = 0 :: r) ->
  strnlen (s ++ rest) m = length s.
Proof.
  intros Hs. revert m; induction Hs as [|c s Hc Hs IH]; intros m Hm Hr; simpl.
  - destruct Hr as [-> | [r ->]]; by destruct m.
  - simpl in Hm. destruct m as [|m]; [lia|]. simpl. rewrite (proj2 (Z.eqb_neq c 0)) by done.
    f_equal. apply IH; [lia|done].
Qed.

Lemma joined_cons n ns : joined (n :: ns) = joined ns ++ SLASH :: n.
Proof.
  unfold joined. cbn [rev]. rewrite map_app, join_app. cbn. by rewrite app_nil_r.
Qed.

Lemma path_of_joined ns : path_of ns = shown (joined ns).
Proof.
  destruct ns as [|n ns]; [done|]. rewrite joined_cons. unfold path_of.
  change (mjoin (map (cons SLASH) (rev (n :: ns)))) with (joined (n :: ns)).
  rewrite joined_cons. by destruct (joined ns).
Qed.

Lemma prepend_name_spec p s name :
  pbuf_ok p s -> no_nul name -> Z.of_nat (length name) < 2 ^ 30 ->
  match prepend_name p name with
  | None => pb_len p < Z.of_nat (length name) + 1
  | Some p' =>
      pb_len p' = pb_len p - (Z.of_nat (length name) + 1) /\
      pbuf_ok p' (SLASH :: name ++ s)
  end.
Proof.
  intros [He Hr Hi Ht] Hn Hl. unfold prepend_name. rewrite swrap_id by lia.
  split_if; cbn; [lia|]. split; [done|].
  pose proof (strnlen_no_nul name [] (length name) Hn (le_n _) (or_introl eq_refl)) as Hs.
  rewrite app_nil_r in Hs. rewrite Hs, firstn_all.
  rewrite He in *. set (e := pb_len p - (Z.of_nat (length name) + 1)) in *.
  split; cbn [pb_end pb_len pb_buf]; [done|lia| |].
  - rewrite length_memcpy_at; cbn [length]; lia.
  - unfold memcpy_at. rewrite drop_app_length' by (rewrite length_take; lia).
    cbn [length].
    replace (Z.to_nat e + S (length name))%nat with (Z.to_nat (pb_len p)) by lia.
    rewrite Ht. cbn. by rewrite <- app_assoc.
Qed.

Lemma names_len_nonneg ds : 0 <= names_len ds.
Proof. unfold names_len. induction ds as [|d ds IH]; cbn; lia. Qed.

Section walk.
Context (stop : Z -> bool).

Lemma path_walk_stop pre : forall fuel d parents p s retval stopd rest,
  d :: parents = pre ++ stopd :: rest ->
  Forall (fun x => stop (d_type x) = false) pre -> stop (d_type stopd) = true ->
  Forall (fun x => no_nul (d_name x) /\ Z.of_nat (length (d_name x)) < 2 ^ 30) pre ->
  pbuf_ok p s -> drop (Z.to_nat retval) (pb_buf p) = shown s ++ [0] ->
  (Z.to_nat (pb_len p) < fuel)%nat ->
  match path_walk fuel stop d parents p retval with
  | Some (Some (buf, off)) =>
      names_len pre <= pb_len p /\
      drop (Z.to_nat off) buf = shown (joined (map d_name pre) ++ s) ++ [0]
  | Some None => pb_len p < names_len pre
  | None => False
  end.
Proof.
  induction pre as [|x pre IH]; intros fuel d parents p s retval stopd rest Hc Hp Hs Hn Hok Hret Hf;
    (destruct fuel as [|fuel]; [lia|]); cbn [path_walk];
    injection Hc as -> ->.
  - rewrite Hs. cbn. split; [apply Hok|done].
  - apply list.Forall_cons in Hp as [Hx Hp]. apply list.Forall_cons in Hn as [[Hnx Hlx] Hn].
    rewrite Hx. pose proof (prepend_name_spec p s (d_name x) Hok Hnx Hlx) as Hpn.
    destruct (prepend_name p (d_name x)) as [p'|]; cbn [names_len foldr].
    2:{ fold (names_len pre). pose proof (names_len_nonneg pre). lia. }
    destruct Hpn as [Hlen Hok'].
    destruct (pre ++ stopd :: rest) as [|d' ps'] eqn:E; [by destruct pre|].
    pose proof (pb_room _ _ Hok').
    specialize (IH fuel d' ps' p' (SLASH :: d_name x ++ s) (pb_end p') stopd rest (eq_sym E)
                  Hp Hs Hn Hok' (pb_tail _ _ Hok') ltac:(lia)).
    destruct (path_walk _ _ _ _ _ _) as [[[buf off]|]|]; [|fold (names_len pre); lia|done].
    fold (names_len pre). destruct IH as [? ->]. split; [lia|].
    cbn [map]. rewrite joined_cons, <- app_assoc. done.
Qed.

Lemma path_walk_never : forall fuel d parents p s retval,
  Forall (fun x => stop (d_type x) = false) (d :: parents) ->
  Forall (fun x => no_nul (d_name x) /\ Z.of_nat (length (d_name x)) < 2 ^ 30) (d :: parents) ->
  pbuf_ok p s -> (Z.to_nat (pb_len p) < fuel)%nat ->
  path_walk fuel stop d parents p retval = Some None.
Proof.
  induction fuel as [|fuel IH]; intros d parents p s retval Hs Hn Hok Hf; [lia|]. cbn [path_walk].
  pose proof Hs as [-> Hs']%list.Forall_cons. pose proof Hn as [[Hnx Hlx] Hn']%list.Forall_cons.
  pose proof (prepend_name_spec p s (d_name d) Hok Hnx Hlx) as Hpn.
  destruct (prepend_name p (d_name d)) as [p'|]; [|done]. destruct Hpn as [Hlen Hok'].
  pose proof (pb_room _ _ Hok'). destruct parents as [|d' ps']; eapply IH; try done; lia.
Qed.
End walk.

(** * The relative path *)

(** A dentry below PATH_MAX, as the VFS guarantees for names. *)
Definition name_ok (d : dent) : Prop := no_nul (d_name d) /\ Z.of_nat (length (d_name d)) < 2 ^ 30.

(** The dentries [pre] are below the first one whose type satisfies [stop]. *)
Definition below (stop : Z -> bool) (chain pre : list dent) : Prop :=
  exists root rest, chain = pre ++ root :: rest /\ stop (d_type root) = true /\
                    Forall (fun x => stop (d_type x) = false) pre.

Definition first_buf : pbuf :=
  mk_pbuf (<[4094%nat := SLASH]> (memcpy_at 4095 [0] zero_buf)) 4095 4095.

Lemma first_buf_ok : pbuf_ok first_buf [].
Proof. split; [reflexivity|cbn; lia| |]; vm_compute; [lia|reflexivity]. Qed.

Lemma walk_from_zero stop d parents :
  walk_from stop d parents zero_buf
  = match path_walk 4097 stop d parents first_buf 4094 with
    | Some (Some (buf, off)) => PathAt buf off
    | _ => PathErr
    end.
Proof. reflexivity. Qed.

Lemma str_at_tail buf off s : no_nul s -> drop (Z.to_nat off) buf = s ++ [0] -> str_at buf off = s.
Proof.
  intros Hn E. unfold str_at. rewrite E. rewrite (strnlen_no_nul s [0]); [|done| |right; by exists []].
  - by rewrite take_app_length.
  - rewrite length_app. lia.
Qed.

Lemma joined_no_nul ds : Forall name_ok ds -> no_nul (joined (map d_name ds)).
Proof.
  induction 1 as [|d ds [Hd _] Hds IH]; [constructor|]. cbn [map]. rewrite joined_cons.
  apply list.Forall_app. split; [done|]. by constructor.
Qed.

Lemma length_joined ds : Z.of_nat (length (joined (map d_name ds))) = names_len ds.
Proof.
  induction ds as [|d ds IH]; [done|]. cbn [map names_len foldr]. rewrite joined_cons, length_app.
  fold (names_len ds). cbn [length]. lia.
Qed.

Lemma path_of_no_nul ds : Forall name_ok ds -> no_nul (path_of (map d_name ds)).
Proof.
  intros Hd. rewrite path_of_joined. pose proof (joined_no_nul ds Hd).
  destruct (joined _); [by repeat constructor|done].
Qed.

Lemma length_path_of ds :
  Z.of_nat (length (path_of (map d_name ds))) = Z.max 1 (names_len ds).
Proof.
  rewrite path_of_joined. rewrite <- length_joined. destruct (joined _); [done|]. cbn [shown length]. lia.
Qed.

Lemma relative_path_walk stop d parents pre :
  Forall name_ok (d :: parents) -> below stop (d :: parents) pre ->
  relative_path (walk_from stop d parents zero_buf)
  = if names_len pre <? PATH_MAX then Some (path_of (map d_name pre)) else None.
Proof.
  intros Hn (root&rest&Hc&Hs&Hp).
  assert (Forall name_ok pre) as Hpre by (rewrite Hc in Hn; by apply list.Forall_app in Hn as [? _]).
  rewrite walk_from_zero.
  pose proof (path_walk_stop stop pre 4097 d parents first_buf [] 4094 root rest Hc Hp
                Hs Hpre first_buf_ok eq_refl ltac:(cbn; lia)) as Hw.
  change (pb_len first_buf) with 4095 in Hw. unfold PATH_MAX.
  destruct (path_walk _ _ _ _ _ _) as [[[buf off]|]|]; [| |done].
  2:{ rewrite (proj2 (Z.ltb_ge _ _)) by lia. done. }
  destruct Hw as [Hl Ht]. rewrite app_nil_r, <- path_of_joined in Ht.
  cbn [relative_path]. rewrite (str_at_tail buf off _) by (apply Ht || by apply path_of_no_nul).
  pose proof (length_path_of pre). unfold PATH_MAX. split_ifs.
Qed.

Lemma relative_path_never stop d parents :
  Forall name_ok (d :: parents) -> Forall (fun x => stop (d_type x) = false) (d :: parents) ->
  relative_path (walk_from stop d parents zero_buf) = None.
Proof.
  intros Hn Hs. rewrite walk_from_zero.
  by rewrite (path_walk_never stop 4097 d parents first_buf [] 4094 Hs Hn first_buf_ok ltac:(cbn; lia)).
Qed.

(** The relative path of a dentry is "/" followed by the names from below its view's
    root down to it, joined by "/", and "/" for the root itself; it is refused exactly
    when it does not fit PATH_MAX with its NUL, when the dentry belongs to no view, or
    when no ancestor is the view's root.  The walk always ends, also on a chain without
    a root, and the merge view's path is the same up to its own root. *)
Theorem relative_path_correct d parents pre :
  Forall name_ok (d :: parents) ->
  let path r := hmdfs_get_dentry_relative_path (Some (d, parents)) = r in
  let fitting := if names_len pre <? PATH_MAX then Some (path_of (map d_name pre)) else None in
  let merge_root t := (t =? HMDFS_LAYER_FIRST_MERGE) || (t =? HMDFS_LAYER_FIRST_MERGE_CLOUD) in
  (forall t b, hmdfs_get_root_dentry_type d = (t, b) ->
     (t = - EINVAL -> path None) /\
     (0 <= t -> below (Z.eqb t) (d :: parents) pre -> path fitting) /\
     (0 <= t -> Forall (fun x => (t =? d_type x) = false) (d :: parents) -> path None)) /\
  (below merge_root (d :: parents) pre ->
     hmdfs_merge_get_dentry_relative_path (Some (d, parents)) = fitting) /\
  hmdfs_get_dentry_relative_path None = Some [SLASH].
Proof.
  intros Hn path fitting merge_root. split; [|split; [|done]].
  2:{ intros Hb. unfold hmdfs_merge_get_dentry_relative_path, hmdfs_merge_dentry_path_raw.
      by apply (relative_path_walk merge_root). }
  intros t b Ht. unfold path, hmdfs_get_dentry_relative_path, hmdfs_dentry_path_raw. rewrite Ht.
  assert (b = true -> 0 <= t -> t = d_type d) as Hroot.
  { unfold hmdfs_get_root_dentry_type in Ht. intros ->. repeat (split_if_in Ht; [by simplify_eq|]).
    injection Ht as <-. unfold EINVAL. lia. }
  assert (forall x, (t =? x) = (x =? t)) as Hsym by (intros; apply Z.eqb_sym).
  split; [intros ->; reflexivity|]. split; intros Ht0 Hb; rewrite (proj2 (Z.ltb_ge t 0)) by done.
  - destruct b.
    + specialize (Hroot eq_refl Ht0). destruct Hb as (root&rest&Hc&_&Hp).
      destruct pre as [|x pre]; [reflexivity|]. injection Hc as <- _.
      apply list.Forall_cons in Hp as [Hp _]. zb. congruence.
    + apply relative_path_walk; [done|]. destruct Hb as (root&rest&Hc&Hs&Hp).
      exists root, rest. split; [done|]. split; [by rewrite <- Hsym|].
      eapply list.Forall_impl; [exact Hp|]. cbn. intros x. by rewrite Hsym.
  - destruct b.
    + apply list.Forall_cons in Hb as [Hb _]. zb. by rewrite (Hroot eq_refl Ht0) in Hb.
    + apply relative_path_never; [done|].
      eapply list.Forall_impl; [exact Hb|]. cbn. intros x. by rewrite Hsym.
Qed.

(** "/x/yz" below the root of the remote view. *)
Lemma relative_path_correct_witness :
  let yz := mk_dent HMDFS_LAYER_OTHER_REMOTE [121; 122] in
  let x := mk_dent HMDFS_LAYER_OTHER_REMOTE [120] in
  let root := mk_dent HMDFS_LAYER_SECOND_REMOTE [114] in
  path_of [[121; 122]; [120]] = [47; 120; 47; 121; 122] /\
  hmdfs_get_dentry_relative_path (Some (yz, [x; root])) = Some (path_of [[121; 122]; [120]]).
Proof.
  intros yz x root. split; [reflexivity|].
  destruct (relative_path_correct yz [x; root] [yz; x]) as [H _]; [repeat constructor; cbn; lia|].
  destruct (H HMDFS_LAYER_SECOND_REMOTE false eq_refl) as (_&H2&_). apply H2.
  - unfold HMDFS_LAYER_SECOND_REMOTE. lia.
  - exists root, []. split; [reflexivity|]. split; [reflexivity|]. repeat constructor.
Defined.

(** Joining: the absolute path and the path of a name in a directory are the plain
    concatenations, refused exactly when they do not fit PATH_MAX with their NUL. *)
Theorem connected_paths_correct a b :
  no_nul a -> no_nul b ->
  hmdfs_get_dentry_absolute_path (Some a) (Some b)
    = (if Z.of_nat (length (a ++ b)) <? PATH_MAX then Some (a ++ b) else None) /\
  hmdfs_connect_path (Some a) (Some b)
    = (if Z.of_nat (length (a ++ [SLASH] ++ b)) <? PATH_MAX then Some (a ++ [SLASH] ++ b) else None).
Proof.
  intros Ha Hb. unfold hmdfs_get_dentry_absolute_path, hmdfs_connect_path. split.
  - rewrite length_app, Nat2Z.inj_add. split_if; split_ifs; done.
  - assert (forall s, no_nul s -> strnlen s 4096 = Nat.min (length s) 4096) as Hlen.
    { intros s Hs. generalize 4096%nat. induction Hs as [|c s Hc Hs IH]; intros [|m]; try done.
      cbn. rewrite (proj2 (Z.eqb_neq c 0)) by done. by rewrite IH. }
    change (Z.to_nat PATH_MAX) with 4096%nat. rewrite !Hlen by done.
    rewrite !length_app. cbn [length]. unfold PATH_MAX. split_if; split_if; try done; try lia.
    by rewrite !firstn_all2 by lia.
Qed.

Lemma connected_paths_correct_witness :
  hmdfs_connect_path (Some [47; 97]) (Some [98]) = Some [47; 97; 47; 98].
Proof.
  destruct (connected_paths_correct [47; 97] [98]) as [_ H]; [repeat constructor; lia..|].
  rewrite H. reflexivity.
Defined.
