(* ===== verification/ShareTable.v ===== *)
(** The table of shared files (hmdfs_share.c, the ioctl of file_local.c): its items,
    their expiry timers, and the operations on it.  Every operation runs under
    item_list_lock and is one step; the expiry work of an item runs on its own.
    Released items are gone, so the table remembers whether one was released while
    its work was still queued (the work would then run on freed memory), and counts
    the file references it holds. *)
From S2P Require Import Prelude RefCount.

Definition HMDFS_SHARE_ITEMS_MAX := 128.
Definition SHARE_RESERVED_DIR : bytes := [46; 115; 104; 97; 114; 101].
Definition SHARE_ALL_DEVICE : bytes := [48].

(** * State *)

(** A struct file: its identity and the path (dentry and mount) it was opened on. *)
Record sfile := mk_sfile { sf_id : Z; sf_path : Z }.

(** [si_pending] says that d_work is queued. *)
Record hmdfs_share_item := mk_item {
  si_file : sfile;
  si_relative_path : bytes;
  si_cid : bytes;
  si_opened : bool;
  si_timeout : bool;
  si_pending : bool
}.

Record hmdfs_share_table := mk_table {
  st_items : list hmdfs_share_item;
  st_item_cnt : Z;
  st_max_cnt : Z;
  st_refs : Z -> Z;
  st_dangling : bool
}.

Definition set_items (st : hmdfs_share_table) (items : list hmdfs_share_item) :=
  mk_table items (st_item_cnt st) (st_max_cnt st) (st_refs st) (st_dangling st).

(** get_file and fput by the table. *)
Definition get_file (st : hmdfs_share_table) (f : sfile) :=
  mk_table (st_items st) (st_item_cnt st) (st_max_cnt st) (add_ref (st_refs st) (sf_id f) 1)
    (st_dangling st).
Definition fput (st : hmdfs_share_table) (f : sfile) :=
  mk_table (st_items st) (st_item_cnt st) (st_max_cnt st) (add_ref (st_refs st) (sf_id f) (-1))
    (st_dangling st).

(** * Helpers of the code *)

Definition hmdfs_is_dst_path (src dst : sfile) : bool := sf_path src =? sf_path dst.

(** Both are NUL-terminated strings. *)
Definition is_dst_device (src_cid dst_cid : bytes) : bool := beqb src_cid dst_cid.

(** The part of remove_and_release_share_item behind list_del. *)
Definition release_share_item (st : hmdfs_share_table) (item : hmdfs_share_item) :=
  let st := fput st (si_file item) in
  mk_table (st_items st) (st_item_cnt st - 1) (st_max_cnt st) (st_refs st)
    (st_dangling st || si_pending item).

(** remove_and_release_share_item of the items [removed], [kept] being the rest. *)
Definition remove_items (st : hmdfs_share_table) (kept removed : list hmdfs_share_item) :=
  foldl release_share_item (set_items st kept) removed.

Definition is_share_item_timeout (item : hmdfs_share_item) : bool :=
  negb (si_opened item) && si_timeout item.

(** The scan of hmdfs_lookup_share_item: the items kept, those released on the way,
    and the position of the match among the kept ones. *)
Fixpoint lookup_scan (items : list hmdfs_share_item) (path : bytes)
    : list hmdfs_share_item * list hmdfs_share_item * option nat :=
  match items with
  | [] => ([], [], None)
  | item :: items =>
      if is_share_item_timeout item then
        let '(kept, removed, pos) := lookup_scan items path in (kept, item :: removed, pos)
      else if beqb (si_relative_path item) path then (item :: items, [], Some O)
      else
        let '(kept, removed, pos) := lookup_scan items path in (item :: kept, removed, S <$> pos)
  end.

Definition hmdfs_lookup_share_item (st : hmdfs_share_table) (path : bytes)
    : option nat * hmdfs_share_table :=
  let '(kept, removed, pos) := lookup_scan (st_items st) path in
  (pos, remove_items st kept removed).

(** queue_delayed_work does nothing when the work is queued already. *)
Definition queue_work (item : hmdfs_share_item) : hmdfs_share_item :=
  mk_item (si_file item) (si_relative_path item) (si_cid item) (si_opened item)
    (si_timeout item) true.

(** [if (!cancel_delayed_work_sync(..)) item->timeout = false]. *)
Definition cancel_work (item : hmdfs_share_item) : hmdfs_share_item :=
  mk_item (si_file item) (si_relative_path item) (si_cid item) (si_opened item)
    (if si_pending item then si_timeout item else false) false.

Definition set_opened (item : hmdfs_share_item) (opened : bool) : hmdfs_share_item :=
  mk_item (si_file item) (si_relative_path item) (si_cid item) opened (si_timeout item)
    (si_pending item).

Definition share_item_timeout_work (item : hmdfs_share_item) : hmdfs_share_item :=
  mk_item (si_file item) (si_relative_path item) (si_cid item) (si_opened item) true false.

(** * Operations *)

Definition hmdfs_clear_first_item (st : hmdfs_share_table) : Z * hmdfs_share_table :=
  match st_items st with
  | [] => (- EMFILE, st)
  | item :: items =>
      let item := if negb (si_timeout item)
                  then mk_item (si_file item) (si_relative_path item) (si_cid item)
                         (si_opened item) (si_timeout item) false
                  else item in
      (0, remove_items st items [item])
  end.

(** [alloc_name] and [alloc_item] say whether the two allocations succeed. *)
Definition insert_share_item (alloc_name alloc_item : bool) (st : hmdfs_share_table)
    (path : bytes) (file : sfile) (cid : bytes) : Z * hmdfs_share_table :=
  let '(ret, st) := if st_max_cnt st <=? st_item_cnt st
                    then hmdfs_clear_first_item st else (0, st) in
  if negb (ret =? 0) then (- EMFILE, st)
  else if negb alloc_name then (- EMFILE, st)
  else if negb alloc_item then (- ENOMEM, st)
  else
    let st := get_file st file in
    let item := queue_work (mk_item file path cid false false false) in
    (0, mk_table (st_items st ++ [item]) (st_item_cnt st + 1) (st_max_cnt st) (st_refs st)
          (st_dangling st)).

(** On the item at [pos]. *)
Definition update_share_item (st : hmdfs_share_table) (pos : nat) (file : sfile) (cid : bytes)
    : hmdfs_share_table :=
  match st_items st !! pos with
  | None => st
  | Some item =>
      let '(st, file) := if negb (hmdfs_is_dst_path file (si_file item))
                         then (get_file (fput st (si_file item)) file, file)
                         else (st, si_file item) in
      let item := mk_item file (si_relative_path item) cid (si_opened item) (si_timeout item)
                    (si_pending item) in
      set_items st (<[pos := queue_work (cancel_work item)]> (st_items st))
  end.

(** The locked part of __hmdfs_ioc_set_share_path. *)
Definition set_share_path (alloc_name alloc_item : bool) (st : hmdfs_share_table)
    (path : bytes) (file : sfile) (cid : bytes) : Z * hmdfs_share_table :=
  let '(pos, st) := hmdfs_lookup_share_item st path in
  match pos with
  | None => insert_share_item alloc_name alloc_item st path file cid
  | Some pos =>
      match st_items st !! pos with
      | Some item => if si_opened item then (- EEXIST, st)
                     else (0, update_share_item st pos file cid)
      | None => (0, st)
      end
  end.

Definition get_path_from_share_table (st : hmdfs_share_table) (path : bytes)
    : (Z * option Z) * hmdfs_share_table :=
  let '(pos, st) := hmdfs_lookup_share_item st path in
  match pos with
  | None => ((- ENOENT, None), st)
  | Some pos => ((0, (fun item => sf_path (si_file item)) <$> st_items st !! pos), st)
  end.

Definition hmdfs_clear_share_item_offline (st : hmdfs_share_table) (cid : bytes)
    : hmdfs_share_table :=
  let drop item := is_dst_device (si_cid item) cid && si_opened item in
  remove_items st (filter (fun item => drop item = false) (st_items st))
    (filter (fun item => drop item = true) (st_items st)).

(** [item->opened = false] and a fresh timer. *)
Definition restart_item (st : hmdfs_share_table) (pos : nat) : hmdfs_share_table :=
  set_items st (alter (fun item => queue_work (set_opened item false)) pos (st_items st)).

Definition reset_item_opened_status (st : hmdfs_share_table) (filename : bytes)
    : hmdfs_share_table :=
  let '(pos, st) := hmdfs_lookup_share_item st filename in
  match pos with None => st | Some pos => restart_item st pos end.

Definition hmdfs_close_share_item (st : hmdfs_share_table) (path cid : bytes)
    : hmdfs_share_table :=
  let '(pos, st) := hmdfs_lookup_share_item st path in
  match pos with
  | None => st
  | Some pos =>
      match st_items st !! pos with
      | None => st
      | Some item =>
          if beqb (si_cid item) SHARE_ALL_DEVICE then restart_item st pos
          else if negb (is_dst_device (si_cid item) cid) then st
          else restart_item st pos
      end
  end.

Definition hmdfs_check_share_access_permission (st : hmdfs_share_table) (filename cid : bytes)
    : Z * hmdfs_share_table :=
  let '(pos, st) := hmdfs_lookup_share_item st filename in
  match pos with
  | None => (- ENOENT, st)
  | Some pos =>
      match st_items st !! pos with
      | None => (- ENOENT, st)
      | Some item =>
          if is_dst_device (si_cid item) cid || beqb (si_cid item) SHARE_ALL_DEVICE then
            (0, set_items st
                  (alter (fun item => cancel_work (set_opened item true)) pos (st_items st)))
          else (- ENOENT, st)
      end
  end.

Definition hmdfs_init_share_table : hmdfs_share_table :=
  mk_table [] 0 HMDFS_SHARE_ITEMS_MAX (fun _ => 0) false.

(** flush_delayed_work runs a queued work at once. *)
Definition hmdfs_clear_share_table (st : hmdfs_share_table) : hmdfs_share_table :=
  remove_items st []
    (map (fun item => if si_pending item then share_item_timeout_work item else item)
       (st_items st)).

(** The expiry work of the item at [pos], when queued. *)
Definition timer_fires (st : hmdfs_share_table) (pos : nat) : hmdfs_share_table :=
  set_items st
    (alter (fun item => if si_pending item then share_item_timeout_work item else item) pos
       (st_items st)).

(** * The share directory *)

Fixpoint is_prefix (p s : bytes) : bool :=
  match p, s with
  | [], _ => true
  | a :: p, b :: s => (a =? b) && is_prefix p s
  | _ :: _, [] => false
  end.

Definition in_share_dir (parent_name : bytes) : bool := is_prefix SHARE_RESERVED_DIR parent_name.

Definition is_share_dir (is_dir : bool) (name : bytes) : bool :=
  is_dir && beqb name SHARE_RESERVED_DIR.

(** * Steps *)

Inductive share_step : hmdfs_share_table -> hmdfs_share_table -> Prop :=
| step_set an ai st path file cid :
    share_step st (set_share_path an ai st path file cid).2
| step_get st path : share_step st (get_path_from_share_table st path).2
| step_offline st cid : share_step st (hmdfs_clear_share_item_offline st cid)
| step_reset st name : share_step st (reset_item_opened_status st name)
| step_close st path cid : share_step st (hmdfs_close_share_item st path cid)
| step_check st name cid : share_step st (hmdfs_check_share_access_permission st name cid).2
| step_clear st : share_step st (hmdfs_clear_share_table st)
| step_timer st pos : share_step st (timer_fires st pos).

(** The tables the operations and the timers can produce, in any order. *)
Inductive reachable : hmdfs_share_table -> Prop :=
| reach_init : reachable hmdfs_init_share_table
| reach_step st st' : reachable st -> share_step st st' -> reachable st'.

(** * The invariant *)

(** An item is open with no timer, waiting with its timer queued, or expired. *)
Definition item_ok (item : hmdfs_share_item) : Prop :=
  (si_opened item, si_pending item, si_timeout item)
  ∈ [(true, false, false); (false, true, false); (false, false, true)].

(** References the items hold on file [f]. *)
Fixpoint count_file (items : list hmdfs_share_item) (f : Z) : Z :=
  match items with
  | [] => 0
  | item :: items => (if f =? sf_id (si_file item) then 1 else 0) + count_file items f
  end.

Record share_inv (st : hmdfs_share_table) : Prop := {
  inv_items : Forall item_ok (st_items st);
  inv_cnt : st_item_cnt st = Z.of_nat (length (st_items st));
  inv_max : st_max_cnt st = HMDFS_SHARE_ITEMS_MAX;
  inv_le : st_item_cnt st <= HMDFS_SHARE_ITEMS_MAX;
  inv_paths : NoDup (map si_relative_path (st_items st));
  inv_refs f : st_refs st f = count_file (st_items st) f;
  inv_dangling : st_dangling st = false
}.

Section invariant.
Implicit Types (st : hmdfs_share_table) (items kept removed : list hmdfs_share_item).

Lemma count_file_app l1 l2 f : count_file (l1 ++ l2) f = count_file l1 f + count_file l2 f.
Proof. induction l1 as [|i l1 IH]; [done|]. cbn. rewrite IH. lia. Qed.

Lemma count_file_perm l1 l2 f : l1 ≡ₚ l2 -> count_file l1 f = count_file l2 f.
Proof. induction 1; cbn; lia. Qed.

(** What releasing a list of items changes. *)
Lemma release_fold removed st :
  let st' := foldl release_share_item st removed in
  st_items st' = st_items st /\ st_max_cnt st' = st_max_cnt st /\
  st_item_cnt st' = st_item_cnt st - Z.of_nat (length removed) /\
  (forall f, st_refs st' f = st_refs st f - count_file removed f) /\
  st_dangling st' = st_dangling st || existsb si_pending removed.
Proof.
  revert st; induction removed as [|i l IH]; intros st; cbn.
  - rewrite orb_false_r. repeat split; intros; lia.
  - destruct (IH (release_share_item st i)) as (->&->&->&Hr&->). cbn.
    split; [done|]. split; [done|]. split; [lia|]. split; [|by rewrite orb_assoc].
    intros f. rewrite Hr. cbn. unfold add_ref. destruct (f =? _); lia.
Qed.

Lemma remove_items_items st kept removed : st_items (remove_items st kept removed) = kept.
Proof. unfold remove_items. by destruct (release_fold removed (set_items st kept)) as (->&_). Qed.

(** Releasing items whose work is not queued keeps the invariant. *)
Lemma remove_items_inv st kept removed :
  share_inv st -> Forall item_ok kept -> Forall (fun i => si_pending i = false) removed ->
  NoDup (map si_relative_path kept) ->
  length (st_items st) = (length kept + length removed)%nat ->
  (forall f, count_file (st_items st) f = count_file kept f + count_file removed f) ->
  share_inv (remove_items st kept removed).
Proof.
  intros [Hi Hc Hm Hle Hp Hr Hd] Hk Hrm Hnd Hlen Hcnt. unfold remove_items.
  destruct (release_fold removed (set_items st kept)) as (E1&E2&E3&E4&E5).
  split; rewrite ?E1, ?E2, ?E3, ?E5; cbn; try done; try lia.
  - intros f. rewrite E4. cbn. rewrite Hr, Hcnt. lia.
  - rewrite Hd. cbn. apply not_true_iff_false. intros (i&Hin&Hpd)%existsb_exists.
    rewrite list.Forall_forall in Hrm. rewrite Hrm in Hpd; [done|]. by apply list_elem_of_In.
Qed.

Lemma remove_items_perm st kept removed :
  share_inv st -> kept ++ removed ≡ₚ st_items st ->
  Forall (fun i => si_pending i = false) removed ->
  share_inv (remove_items st kept removed).
Proof.
  intros Hinv Hperm Hrm. pose proof Hinv as [Hi _ _ _ Hp _ _]. apply remove_items_inv; try done.
  - apply (Forall_app item_ok kept removed). by rewrite Hperm.
  - rewrite <- Hperm, map_app in Hp. by apply list.NoDup_app in Hp as [Hp _].
  - by rewrite <- Hperm, length_app.
  - intros f. by rewrite <- count_file_app, (count_file_perm _ _ _ Hperm).
Qed.

Lemma expired_not_pending i : item_ok i -> is_share_item_timeout i = true -> si_pending i = false.
Proof.
  unfold item_ok, is_share_item_timeout. destruct (si_opened i), (si_pending i), (si_timeout i);
    cbn; set_solver.
Qed.

Lemma lookup_scan_spec items path kept removed pos :
  lookup_scan items path = (kept, removed, pos) ->
  kept ++ removed ≡ₚ items /\ kept `sublist_of` items /\
  Forall (fun i => is_share_item_timeout i = true) removed /\
  match pos with
  | Some p => exists item, kept !! p = Some item /\ si_relative_path item = path /\
                           is_share_item_timeout item = false
  | None => Forall (fun i => is_share_item_timeout i = false /\ si_relative_path i <> path) kept
  end.
Proof.
  revert kept removed pos; induction items as [|i items IH]; intros kept removed pos; cbn.
  { intros [= <- <- <-]. repeat split; constructor. }
  destruct (lookup_scan items path) as [[k r] p]. destruct (IH k r p eq_refl) as (H1&H2&H3&H4).
  destruct (is_share_item_timeout i) eqn:Et.
  - intros [= <- <- <-]. split; [by rewrite <- Permutation_middle, H1|].
    split; [by constructor|]. split; [by constructor|done].
  - destruct (beqb (si_relative_path i) path) eqn:Eb.
    + intros [= <- <- <-]. apply beqb_eq in Eb. rewrite app_nil_r.
      split; [done|]. split; [done|]. split; [constructor|]. by exists i.
    + intros [= <- <- <-]. split; [by cbn; rewrite H1|]. split; [by constructor|].
      split; [done|]. destruct p as [p|]; cbn; [done|]. constructor; [|done].
      split; [done|]. intros Ep. by rewrite Ep, beqb_refl in Eb.
Qed.

Lemma lookup_inv st path pos st' :
  share_inv st -> hmdfs_lookup_share_item st path = (pos, st') ->
  share_inv st' /\
  match pos with
  | Some p => exists item, st_items st' !! p = Some item /\ si_relative_path item = path /\
                           is_share_item_timeout item = false
  | None => Forall (fun i => is_share_item_timeout i = false /\ si_relative_path i <> path)
              (st_items st')
  end.
Proof.
  intros Hinv. unfold hmdfs_lookup_share_item.
  destruct (lookup_scan (st_items st) path) as [[k r] p] eqn:E.
  apply lookup_scan_spec in E as (H1&H2&H3&H4). intros [= -> <-].
  rewrite remove_items_items. split; [|done]. apply remove_items_perm; [done|done|].
  rewrite list.Forall_forall in *. intros i Hi. apply expired_not_pending; [|by apply H3].
  destruct Hinv as [Hi' _ _ _ _ _ _]. rewrite list.Forall_forall in Hi'. apply Hi'.
  rewrite <- H1. set_solver.
Qed.

(** The scan keeps every item that has not expired. *)
Lemma lookup_kept st path pos st' :
  hmdfs_lookup_share_item st path = (pos, st') ->
  st_items st' `sublist_of` st_items st /\
  forall i, i ∈ st_items st -> is_share_item_timeout i = false -> i ∈ st_items st'.
Proof.
  unfold hmdfs_lookup_share_item.
  destruct (lookup_scan (st_items st) path) as [[k r] p] eqn:E.
  apply lookup_scan_spec in E as (H1&H2&H3&_). intros [= -> <-].
  rewrite remove_items_items. split; [done|]. intros i Hi Ht. rewrite <- H1 in Hi.
  apply elem_of_app in Hi as [Hi|Hi]; [done|]. rewrite list.Forall_forall in H3.
  specialize (H3 i Hi). congruence.
Qed.

Lemma path_unique st i j :
  NoDup (map si_relative_path (st_items st)) -> i ∈ st_items st -> j ∈ st_items st ->
  si_relative_path i = si_relative_path j -> i = j.
Proof.
  intros Hp [a Ha]%list_elem_of_lookup_1 [b Hb]%list_elem_of_lookup_1 E.
  assert (a = b) as ->; [|congruence].
  apply (NoDup_lookup (map si_relative_path (st_items st)) a b (si_relative_path i)); [done| |].
  - by rewrite list_lookup_fmap, Ha.
  - by rewrite list_lookup_fmap, Hb, E.
Qed.

(** Changing one item's timer and open state. *)
Lemma alter_item_inv st pos g :
  share_inv st ->
  (forall i, si_relative_path (g i) = si_relative_path i /\ si_file (g i) = si_file i) ->
  (forall i, st_items st !! pos = Some i -> item_ok i -> item_ok (g i)) ->
  share_inv (set_items st (alter g pos (st_items st))).
Proof.
  intros [Hi Hc Hm Hle Hp Hr Hd] Hg Hok.
  assert (map si_relative_path (alter g pos (st_items st)) = map si_relative_path (st_items st)) as Hpath.
  { apply list_eq. intros k. rewrite !list_lookup_fmap.
    destruct (decide (k = pos)) as [->|]; [|by rewrite list_lookup_alter_ne].
    rewrite list_lookup_alter_eq. destruct (st_items st !! pos); [|done]. cbn. f_equal. apply Hg. }
  split; cbn; rewrite ?length_alter, ?Hpath; try done.
  - rewrite list.Forall_lookup in *. intros k x. destruct (decide (k = pos)) as [->|].
    + rewrite list_lookup_alter_eq. destruct (st_items st !! pos) as [i|] eqn:E; [|done].
      intros [= <-]. apply Hok; [done|]. by apply (Hi pos).
    + rewrite list_lookup_alter_ne by done. apply Hi.
  - intros f. rewrite Hr. clear -Hg. generalize (st_items st) as items.
    induction pos as [|pos IH]; intros [|i items]; cbn; try done.
    + by rewrite (proj2 (Hg i)).
    + by rewrite <- IH.
Qed.

Lemma clear_first_inv st ret st' :
  share_inv st -> hmdfs_clear_first_item st = (ret, st') ->
  share_inv st' /\
  match st_items st with
  | [] => ret = - EMFILE /\ st' = st
  | _ :: items => ret = 0 /\ st_items st' = items
  end.
Proof.
  intros Hinv. unfold hmdfs_clear_first_item.
  destruct (st_items st) as [|i items] eqn:E; [by intros [= <- <-]|].
  pose proof Hinv as [Hi Hc _ _ Hp _ _]. rewrite E in Hi, Hp.
  inversion Hi; subst. inversion Hp; subst.
  destruct (si_timeout i) eqn:Et; cbn [negb]; intros [= <- <-]; rewrite remove_items_items;
    (split; [|done]); (apply remove_items_inv; [done|done| |done| |]); rewrite ?E; try done.
  - constructor; [|constructor].
    unfold item_ok in *. rewrite Et in *. destruct (si_opened i), (si_pending i); set_solver.
  - cbn. lia.
  - intros f. cbn. lia.
  - by constructor; [|constructor].
  - cbn. lia.
  - intros f. cbn. lia.
Qed.

Lemma insert_inv an ai st path file cid ret st' :
  share_inv st -> path ∉ map si_relative_path (st_items st) ->
  insert_share_item an ai st path file cid = (ret, st') -> share_inv st'.
Proof.
  intros Hinv Hnew. unfold insert_share_item.
  destruct (if st_max_cnt st <=? st_item_cnt st then _ else _) as [r st0] eqn:E.
  assert (share_inv st0 /\ path ∉ map si_relative_path (st_items st0) /\
          (r = 0 -> st_item_cnt st0 < HMDFS_SHARE_ITEMS_MAX)) as (Hinv0&Hnew0&Hlt).
  { pose proof Hinv as [_ Hc Hm Hle _ _ _]. destruct (_ <=? _) eqn:Ef; zb.
    - apply (clear_first_inv st) in E as [Hinv0 Hs]; [|done].
      destruct (st_items st) as [|i items] eqn:Ei.
      + destruct Hs as [-> ->]. by rewrite Ei.
      + destruct Hs as [-> Hs]. rewrite Hs. split; [done|]. split; [set_solver|]. intros _.
        pose proof Hinv0 as [_ Hc0 _ _ _ _ _]. rewrite Hs in Hc0. cbn in Hc. lia.
    - simplify_eq. split; [done|]. split; [done|]. intros _. lia. }
  destruct (r =? 0) eqn:Er; zb; cbn [negb]; [|by intros [= <- <-]].
  destruct an; cbn [negb]; [|by intros [= <- <-]]. destruct ai; cbn [negb]; [|by intros [= <- <-]].
  intros [= <- <-]. specialize (Hlt Er). destruct Hinv0 as [Hi Hc Hm Hle Hp Hr Hd].
  split; cbn; try done; try lia.
  - apply Forall_app_2; [done|]. constructor; [|constructor]. unfold item_ok. cbn. set_solver.
  - rewrite length_app. cbn. lia.
  - rewrite map_app. apply list.NoDup_app. split; [done|]. cbn. split; [set_solver|].
    apply NoDup_singleton.
  - intros f. rewrite count_file_app. cbn. unfold add_ref. rewrite Hr. destruct (f =? _); lia.
Qed.

Lemma count_file_insert items pos i i' f :
  items !! pos = Some i ->
  count_file (<[pos := i']> items) f
  = count_file items f - (if f =? sf_id (si_file i) then 1 else 0)
                       + (if f =? sf_id (si_file i') then 1 else 0).
Proof.
  intros E. apply list_elem_of_split_length in E as (l1&l2&->&->).
  rewrite insert_app_r_alt, Nat.sub_diag by done. cbn [insert list_insert].
  rewrite !count_file_app. cbn [count_file]. lia.
Qed.

Lemma update_inv st pos file cid item :
  share_inv st -> st_items st !! pos = Some item -> si_opened item = false ->
  is_share_item_timeout item = false -> share_inv (update_share_item st pos file cid).
Proof.
  intros [Hi Hc Hm Hle Hp Hr Hd] E Ho Ht. unfold update_share_item. rewrite E.
  pose proof (list.Forall_lookup_1 _ _ _ _ Hi E) as Hok.
  assert (si_pending item = true /\ si_timeout item = false) as [Hpd Htm].
  { unfold item_ok, is_share_item_timeout in *. rewrite Ho in *.
    destruct (si_pending item), (si_timeout item); set_solver. }
  assert (forall x, item_ok x -> si_relative_path x = si_relative_path item ->
    forall st', st_items st' = st_items st -> st_item_cnt st' = st_item_cnt st ->
      st_max_cnt st' = st_max_cnt st -> st_dangling st' = st_dangling st ->
      (forall f, st_refs st' f = count_file (<[pos := x]> (st_items st)) f) ->
      share_inv (set_items st' (<[pos := x]> (st_items st')))) as Hmk.
  { intros x Hx Hpx st' E1 E2 E3 E4 E5. split; cbn; rewrite ?E1, ?E2, ?E3, ?E4; try done.
    - by apply Forall_insert.
    - by rewrite length_insert.
    - rewrite list_fmap_insert, Hpx. rewrite list_insert_id; [done|].
      by rewrite list_lookup_fmap, E. }
  assert (item_ok (queue_work (cancel_work (mk_item file (si_relative_path item) cid
    (si_opened item) (si_timeout item) (si_pending item))))) as Hnew.
  { unfold item_ok. cbn. rewrite Hpd, Ho, Htm. set_solver. }
  destruct (negb _) eqn:Ep; cbn zeta.
  - apply Hmk; try done. intros f. cbn. rewrite (count_file_insert _ _ _ _ _ E). cbn.
    unfold add_ref. rewrite Hr. destruct (f =? sf_id (si_file item)), (f =? sf_id file); lia.
  - apply Hmk; try done. intros f. rewrite (count_file_insert _ _ _ _ _ E). cbn.
    rewrite Hr. lia.
Qed.

Lemma restart_inv st pos item :
  share_inv st -> st_items st !! pos = Some item -> is_share_item_timeout item = false ->
  share_inv (restart_item st pos).
Proof.
  intros Hinv E Ht. unfold restart_item. apply alter_item_inv; [done|done|].
  intros i Ei Hok. assert (i = item) as -> by congruence.
  unfold item_ok, is_share_item_timeout in *. cbn.
  destruct (si_opened item), (si_pending item), (si_timeout item); set_solver.
Qed.
End invariant.

Lemma step_inv st st' : share_inv st -> share_step st st' -> share_inv st'.
Proof.
  intros Hinv Hs. destruct Hs as [an ai st path file cid|st path|st cid|st name|st path cid
    |st name cid|st|st pos].
  - unfold set_share_path. destruct (hmdfs_lookup_share_item st path) as [pos st1] eqn:E.
    destruct (lookup_inv _ _ _ _ Hinv E) as [Hinv1 Hp]. destruct pos as [pos|].
    + destruct Hp as (item&Ei&_&Ht). rewrite Ei. destruct (si_opened item) eqn:Eo; [done|].
      by apply (update_inv st1 pos file cid item).
    + destruct (insert_share_item an ai st1 path file cid) as [ret st2] eqn:Ei.
      apply (insert_inv _ _ _ _ _ _ _ _ Hinv1) in Ei; [done|].
      intros (i&->&Hi)%list_elem_of_fmap. rewrite list.Forall_forall in Hp.
      by destruct (Hp i Hi).
  - unfold get_path_from_share_table.
    destruct (hmdfs_lookup_share_item st path) as [pos st1] eqn:E.
    destruct (lookup_inv _ _ _ _ Hinv E) as [Hinv1 _]. by destruct pos.
  - unfold hmdfs_clear_share_item_offline. apply remove_items_perm; [done| |].
    + clear. induction (st_items st) as [|i items IH]; [done|].
      rewrite !filter_cons. destruct (is_dst_device _ _ && _); cbn.
      * rewrite decide_False, decide_True by done. by rewrite <- Permutation_middle, IH.
      * rewrite decide_True, decide_False by done. cbn. by rewrite IH.
    + rewrite list.Forall_forall. intros i [Hd Hi]%list_elem_of_filter.
      destruct Hinv as [Hok _ _ _ _ _ _]. rewrite list.Forall_forall in Hok.
      specialize (Hok i Hi). apply andb_true_iff in Hd as [_ Ho]. unfold item_ok in Hok.
      rewrite Ho in Hok. destruct (si_pending i), (si_timeout i); set_solver.
  - unfold reset_item_opened_status. destruct (hmdfs_lookup_share_item st name) as [pos st1] eqn:E.
    destruct (lookup_inv _ _ _ _ Hinv E) as [Hinv1 Hp]. destruct pos as [pos|]; [|done].
    destruct Hp as (item&Ei&_&Ht). by eapply restart_inv.
  - unfold hmdfs_close_share_item. destruct (hmdfs_lookup_share_item st path) as [pos st1] eqn:E.
    destruct (lookup_inv _ _ _ _ Hinv E) as [Hinv1 Hp]. destruct pos as [pos|]; [|done].
    destruct Hp as (item&Ei&_&Ht). rewrite Ei.
    destruct (beqb _ _); [by eapply restart_inv|]. destruct (negb _); [done|by eapply restart_inv].
  - unfold hmdfs_check_share_access_permission.
    destruct (hmdfs_lookup_share_item st name) as [pos st1] eqn:E.
    destruct (lookup_inv _ _ _ _ Hinv E) as [Hinv1 Hp]. destruct pos as [pos|]; [|done].
    destruct Hp as (item&Ei&_&Ht). rewrite Ei. destruct (_ || _); [|done]. cbn.
    apply alter_item_inv; [done|done|]. intros i Hi Hok.
    assert (i = item) as -> by congruence. unfold item_ok, is_share_item_timeout in *. cbn.
    destruct (si_opened item), (si_pending item), (si_timeout item); set_solver.
  - unfold hmdfs_clear_share_table. pose proof Hinv as [Hok _ _ _ _ _ _].
    apply remove_items_inv; [done|constructor| |constructor|by rewrite length_map|].
    + apply Forall_map. eapply list.Forall_impl; [exact Hok|]. intros i Hi.
      unfold compose. unfold item_ok in Hi. destruct (si_pending i) eqn:Ep; [done|by rewrite Ep].
    + intros f. cbn [count_file]. clear Hinv. rewrite Z.add_0_l.
      induction (st_items st) as [|i items IH]; [done|]. inversion Hok; subst.
      cbn [map count_file]. rewrite <- IH by done. by destruct (si_pending i).
  - unfold timer_fires. apply alter_item_inv; [done|by intros i; destruct (si_pending i)|].
    intros i _ Hok. destruct (si_pending i) eqn:Ep; [|done]. unfold item_ok in *. cbn.
    rewrite Ep in Hok. destruct (si_opened i), (si_timeout i); set_solver.
Qed.

Lemma reachable_inv st : reachable st -> share_inv st.
Proof.
  induction 1 as [|st st' _ IH Hs]; [|by eapply step_inv].
  split; cbn; try done. constructor.
Qed.

(** * Properties *)

(** C37: Whatever order the operations and the expiry timers run in, the share table is
    consistent: its count is the number of its items and at most 128, no path is
    shared twice, every item is open without a timer, waiting with one, or expired,
    the table holds exactly one reference per item on its file, and no item was
    freed while its timer was still queued. *)
Theorem share_table_invariant st : reachable st -> share_inv st.
Proof. apply reachable_inv. Qed.

(** The one-step tables used by the witnesses. *)
Definition ex_table : hmdfs_share_table :=
  (set_share_path true true hmdfs_init_share_table [97] (mk_sfile 1 2) [120]).2.

Lemma ex_table_reachable : reachable ex_table.
Proof. eapply reach_step; [apply reach_init|apply step_set]. Qed.

Lemma share_table_invariant_witness : reachable ex_table /\ share_inv ex_table.
Proof.
  split; [apply ex_table_reachable|]. exact (share_table_invariant ex_table ex_table_reachable).
Defined.

(** Access to a shared file is granted exactly when an unexpired item for its path is
    shared with the asking device or with all devices; granting opens the item and
    stops its timer, so that it cannot expire while open; refusing changes no item
    beyond dropping expired ones. *)
Theorem share_access st name cid :
  reachable st ->
  let '(ret, st') := hmdfs_check_share_access_permission st name cid in
  (ret = 0 <-> exists item, item ∈ st_items st /\ si_relative_path item = name /\
     is_share_item_timeout item = false /\
     (si_cid item = cid \/ si_cid item = SHARE_ALL_DEVICE)) /\
  (ret = 0 \/ ret = - ENOENT) /\
  (ret = 0 -> exists item, item ∈ st_items st' /\ si_relative_path item = name /\
     si_opened item = true /\ si_pending item = false /\ si_timeout item = false) /\
  (ret <> 0 -> st_items st' `sublist_of` st_items st).
Proof.
  intros Hinv%reachable_inv. unfold hmdfs_check_share_access_permission.
  destruct (hmdfs_lookup_share_item st name) as [pos st1] eqn:E.
  destruct (lookup_inv _ _ _ _ Hinv E) as [Hinv1 Hp].
  destruct (lookup_kept _ _ _ _ E) as [Hsub Hkept].
  destruct pos as [pos|].
  - destruct Hp as (item&Ei&Hpath&Ht). rewrite Ei.
    assert (item ∈ st_items st) as Hin
      by (eapply elem_of_submseteq; [by eapply list_elem_of_lookup_2|by apply sublist_submseteq]).
    destruct (_ || _) eqn:Ec.
    + apply orb_true_iff in Ec as Hc. unfold is_dst_device in Hc. rewrite !beqb_eq in Hc.
      split; [split; [by exists item|done]|]. split; [by left|]. split; [|done]. intros _.
      exists (cancel_work (set_opened item true)). cbn. split; [|split; [done|split; [done|]]].
      * apply (list_elem_of_lookup_2 _ pos). by rewrite list_lookup_alter_eq, Ei.
      * split; [done|]. destruct Hinv1 as [Hok _ _ _ _ _ _].
        pose proof (list.Forall_lookup_1 _ _ _ _ Hok Ei) as Ho. unfold item_ok in Ho.
        unfold is_share_item_timeout in Ht.
        destruct (si_opened item), (si_pending item), (si_timeout item); set_solver.
    + split; [|split; [by right|]; split; [done|by intros _]]. split; [done|].
      intros (i&Hi&Hn&Hti&Hc). exfalso. assert (i = item) as ->.
      { apply (path_unique st); [by destruct Hinv|done|done|congruence]. }
      apply orb_false_iff in Ec as [Ec1 Ec2]. unfold is_dst_device in *.
      destruct Hc as [Hc|Hc]; rewrite Hc, beqb_refl in *; done.
  - split; [|split; [by right|]; split; [done|by intros _]]. split; [done|].
    intros (i&Hi&Hn&Hti&_). exfalso. rewrite list.Forall_forall in Hp.
    by destruct (Hp i (Hkept i Hi Hti)).
Qed.

Lemma share_access_witness :
  reachable ex_table /\
  let '(ret, st') := hmdfs_check_share_access_permission ex_table [97] [120] in
  (ret = 0 <-> exists item, item ∈ st_items ex_table /\ si_relative_path item = [97] /\
     is_share_item_timeout item = false /\
     (si_cid item = [120] \/ si_cid item = SHARE_ALL_DEVICE)) /\
  (ret = 0 \/ ret = - ENOENT) /\
  (ret = 0 -> exists item, item ∈ st_items st' /\ si_relative_path item = [97] /\
     si_opened item = true /\ si_pending item = false /\ si_timeout item = false) /\
  (ret <> 0 -> st_items st' `sublist_of` st_items ex_table).
Proof.
  split; [apply ex_table_reachable|]. exact (share_access ex_table [97] [120] ex_table_reachable).
Defined.

Lemma lookup_scan_none items path kept removed :
  lookup_scan items path = (kept, removed, None) ->
  kept = filter (fun i => is_share_item_timeout i = false) items.
Proof.
  revert kept removed; induction items as [|i items IH]; intros kept removed; cbn [lookup_scan].
  { by intros [= <- _]. }
  rewrite filter_cons. destruct (lookup_scan items path) as [[k r] p].
  destruct (is_share_item_timeout i).
  - rewrite decide_False by done. intros [= <- _ ->]. by eapply IH.
  - rewrite decide_True by done. destruct (beqb _ _); [done|].
    destruct p; [done|]. intros [= <- _]. f_equal. by eapply IH.
Qed.

(** Sharing a path that no unexpired item holds always succeeds when memory is
    available: expired items are dropped, the oldest of the others is evicted when
    128 are left, and the new item comes last, closed and with its timer queued; a
    path whose item is open is refused with -EEXIST. *)
Theorem share_insert st path file cid :
  reachable st ->
  let kept := filter (fun i => is_share_item_timeout i = false) (st_items st) in
  let '(ret, st') := set_share_path true true st path file cid in
  ((forall i, i ∈ kept -> si_relative_path i <> path) ->
     ret = 0 /\
     st_items st' = (if decide (length kept = 128%nat) then tail kept else kept)
                    ++ [mk_item file path cid false false true]) /\
  ((exists i, i ∈ kept /\ si_relative_path i = path /\ si_opened i = true) -> ret = - EEXIST).
Proof.
  intros Hinv%reachable_inv kept. unfold set_share_path.
  destruct (hmdfs_lookup_share_item st path) as [pos st1] eqn:E.
  destruct (lookup_inv _ _ _ _ Hinv E) as [Hinv1 Hp].
  destruct (lookup_kept _ _ _ _ E) as [Hsub Hkept].
  destruct pos as [pos|].
  - destruct Hp as (item&Ei&Hpath&Ht). rewrite Ei.
    assert (item ∈ st_items st) as Hin
      by (eapply elem_of_submseteq; [by eapply list_elem_of_lookup_2|by apply sublist_submseteq]).
    assert (item ∈ kept) as Hink by (by apply list_elem_of_filter).
    destruct (si_opened item) eqn:Eo; (split; [intros Hno; by destruct (Hno item Hink)|]); [done|].
    intros (i&[Hti Hi]%list_elem_of_filter&Hpi&Ho). exfalso.
    assert (i = item) as ->; [|congruence].
    apply (path_unique st); [by destruct Hinv|done|done|congruence].
  - assert (st_items st1 = kept) as Ek.
    { unfold hmdfs_lookup_share_item in E.
      destruct (lookup_scan (st_items st) path) as [[k r] p] eqn:Es. injection E as -> <-.
      rewrite remove_items_items. by eapply lookup_scan_none. }
    destruct (insert_share_item true true st1 path file cid) as [ret st2] eqn:Ei. split.
    + intros _. unfold insert_share_item in Ei. pose proof Hinv1 as [_ Hc Hm Hle _ _ _].
      rewrite Hm, Hc, Ek in Ei. rewrite Hc, Ek in Hle. unfold HMDFS_SHARE_ITEMS_MAX in *.
      destruct (128 <=? Z.of_nat (length kept)) eqn:Ef; zb.
      * rewrite decide_True by lia.
        destruct (hmdfs_clear_first_item st1) as [r st0] eqn:E0.
        apply (clear_first_inv st1) in E0 as [_ Hs]; [|done]. rewrite Ek in Hs.
        destruct kept as [|i kept']; [cbn in Ef; lia|]. destruct Hs as [-> Hs].
        cbn in Ei. injection Ei as <- <-. cbn. by rewrite Hs.
      * rewrite decide_False by lia. cbn in Ei. simplify_eq. cbn. by rewrite Ek.
    + intros (i&[Hti Hi]%list_elem_of_filter&Hpi&_). exfalso.
      rewrite list.Forall_forall in Hp. by destruct (Hp i (Hkept i Hi Hti)).
Qed.

Lemma share_insert_witness :
  reachable ex_table /\
  let kept := filter (fun i => is_share_item_timeout i = false) (st_items ex_table) in
  let '(ret, st') := set_share_path true true ex_table [98] (mk_sfile 3 4) [121] in
  ((forall i, i ∈ kept -> si_relative_path i <> [98]) ->
     ret = 0 /\
     st_items st' = (if decide (length kept = 128%nat) then tail kept else kept)
                    ++ [mk_item (mk_sfile 3 4) [98] [121] false false true]) /\
  ((exists i, i ∈ kept /\ si_relative_path i = [98] /\ si_opened i = true) -> ret = - EEXIST).
Proof.
  split; [apply ex_table_reachable|].
  exact (share_insert ex_table [98] (mk_sfile 3 4) [121] ex_table_reachable).
Defined.

(** The two tests for the share directory differ: is_share_dir wants the name ".share"
    exactly, in_share_dir takes every parent whose name starts with it. *)
Theorem share_dir_tests name :
  (in_share_dir name = true <-> exists rest, name = SHARE_RESERVED_DIR ++ rest) /\
  (is_share_dir true name = true <-> name = SHARE_RESERVED_DIR).
Proof.
  split.
  - unfold in_share_dir. generalize SHARE_RESERVED_DIR as p. intros p. revert name.
    induction p as [|a p IH]; intros name; cbn.
    + split; [by exists name|done].
    + destruct name as [|b name].
      * split; [done|]. by intros [? ?].
      * rewrite andb_true_iff, Z.eqb_eq, IH. split.
        -- intros [-> [r ->]]. by exists r.
        -- intros [r [= -> ->]]. split; [done|]. by exists r.
  - unfold is_share_dir. rewrite andb_true_iff, beqb_eq. naive_solver.
Qed.
