(* ===== verification/Writeback.v ===== *)
(** Client writeback control (client_writeback.c/.h): dirty thresholds and their
    ratios, adaptation to the bandwidth, rate limits, pauses, the throttling loop of
    hmdfs_balance_dirty_pages, the sysfs settings (comm/device_node.c), and the queue of
    inodes to write back.  Page counts,
    bandwidth and time come from the kernel: every turn of the loop reads one
    [observation]. *)
From S2P Require Import Prelude.

Definition HMDFS_LIMIT_SHIFT := 10.
Definition WB_PAGE_SIZE := 4096.
Definition HM_DEFAULT_WRITEBACK_INTERVAL := 500.
Definition HMDFS_FILE_BG_WB_BYTES := 10 * 1024 * 1024.
Definition HMDFS_FS_BG_WB_BYTES := 50 * 1024 * 1024.
Definition HMDFS_FILE_WB_BYTES := Z.shiftl HMDFS_FILE_BG_WB_BYTES 1.
Definition HMDFS_FS_WB_BYTES := Z.shiftl HMDFS_FS_BG_WB_BYTES 1.
Definition HMDFS_BW_THRESH_MIN_LIMIT := Z.shiftl 1 (20 - 12).
Definition HMDFS_BW_THRESH_DEF_LIMIT := HMDFS_BW_THRESH_MIN_LIMIT.
Definition HMDFS_BW_THRESH_MAX_LIMIT := Z.shiftl 100 (20 - 12).
Definition HMDFS_DIRTY_EXCEED_RATELIMIT := Z.shiftr 32 (12 - 10).
Definition HMDFS_RATELIMIT_PAGES_GAP := 16.
Definition HMDFS_DEF_RATELIMIT_PAGES := 32.
Definition HMDFS_MIN_RATELIMIT_PAGES := 1.
Definition ULONG_MAX := 2 ^ 64 - 1.

(** * State *)

Record hmdfs_writeback := mk_wb {
  dirty_writeback_control : bool;
  dirty_writeback_interval : Z;
  dirty_file_bg_bytes : Z;
  dirty_file_bg_thresh : Z;
  dirty_fs_bg_bytes : Z;
  dirty_fs_bg_thresh : Z;
  dirty_file_bytes : Z;
  dirty_file_thresh : Z;
  dirty_fs_bytes : Z;
  dirty_fs_thresh : Z;
  fs_bg_ratio : Z;
  file_bg_ratio : Z;
  fs_file_ratio : Z;
  dirty_auto_threshold : bool;
  writeback_timelimit : Z;
  bw_fs_thresh : Z;
  bw_file_thresh : Z;
  bw_thresh_lowerlimit : Z;
  dirty_exceeded : bool;
  ratelimit_pages : Z;
  max_write_bandwidth : Z;
  min_write_bandwidth : Z;
  avg_write_bandwidth : Z
}.

(** The thresholds of hmdfs_dirty_throttle_control. *)
Record hmdfs_dirty_throttle_control := mk_dtc {
  thresh_time_stamp : Z;
  file_bg_thresh : Z;
  fs_bg_thresh : Z;
  file_thresh : Z;
  fs_thresh : Z
}.

Definition DIV_ROUND_UP (n d : Z) : Z := u64 (n + d - 1) / d.

(** * Thresholds *)

Definition hmdfs_ratio_thresh (ratio thresh : Z) : Z :=
  let ret := Z.shiftr (u64 (ratio * thresh)) HMDFS_LIMIT_SHIFT in
  if ret =? 0 then 1 else ret.

(** [None] is the divide error of a zero threshold. *)
Definition hmdfs_thresh_ratio (base thresh : Z) : option Z :=
  if thresh =? 0 then None
  else
    let ratio := u64 (Z.shiftl base HMDFS_LIMIT_SHIFT) / thresh in
    Some (if ratio =? 0 then 1 else ratio).

Definition set_thresh (w : hmdfs_writeback) (file_bg fs_bg file fs r_fs_bg r_file_bg r_fs_file : Z)
    : hmdfs_writeback :=
  mk_wb (dirty_writeback_control w) (dirty_writeback_interval w)
    (dirty_file_bg_bytes w) file_bg (dirty_fs_bg_bytes w) fs_bg
    (dirty_file_bytes w) file (dirty_fs_bytes w) fs r_fs_bg r_file_bg r_fs_file
    (dirty_auto_threshold w) (writeback_timelimit w) (bw_fs_thresh w) (bw_file_thresh w)
    (bw_thresh_lowerlimit w) (dirty_exceeded w) (ratelimit_pages w)
    (max_write_bandwidth w) (min_write_bandwidth w) (avg_write_bandwidth w).

Definition hmdfs_calculate_dirty_thresh (w : hmdfs_writeback) : option hmdfs_writeback :=
  let fs := DIV_ROUND_UP (dirty_fs_bytes w) WB_PAGE_SIZE in
  let file := DIV_ROUND_UP (dirty_file_bytes w) WB_PAGE_SIZE in
  let fs_bg := DIV_ROUND_UP (dirty_fs_bg_bytes w) WB_PAGE_SIZE in
  let file_bg := DIV_ROUND_UP (dirty_file_bg_bytes w) WB_PAGE_SIZE in
  match hmdfs_thresh_ratio fs_bg fs, hmdfs_thresh_ratio file_bg file,
        hmdfs_thresh_ratio file fs with
  | Some r_fs_bg, Some r_file_bg, Some r_fs_file =>
      Some (set_thresh w file_bg fs_bg file fs r_fs_bg r_file_bg r_fs_file)
  | _, _, _ => None
  end.

Section hz.
(** The timer frequency and the number of online CPUs of the kernel. *)
Context (HZ : Z) (num_online_cpus : Z).
(** The kernel's conversion of milliseconds to timer ticks. *)
Context (msecs_to_jiffies : Z -> Z).

Definition HMDFS_MAX_PAUSE := Z.max (HZ / 5) 1.
Definition HMDFS_BANDWIDTH_INTERVAL := Z.max (HZ / 5) 1.
Definition HMDFS_DEF_WB_TIMELIMIT := 5 * HZ.
Definition HMDFS_MAX_WB_TIMELIMIT := 30 * HZ.

Definition roundup_pow_of_two (n : Z) : Z := if n <=? 1 then 1 else 2 ^ (Z.log2 (n - 1) + 1).

(** The stamp starts as 0 when the automatic thresholds are off. *)
Definition hmdfs_init_dirty_limit (w : hmdfs_writeback) (jiffies : Z)
    : hmdfs_dirty_throttle_control :=
  let fs := dirty_fs_thresh w in
  let file := dirty_file_thresh w in
  let fs_bg := dirty_fs_bg_thresh w in
  let file_bg := dirty_file_bg_thresh w in
  if negb (dirty_auto_threshold w) then mk_dtc 0 file_bg fs_bg file fs
  else
    let '(fs, fs_bg) := if bw_fs_thresh w <? fs
                        then (bw_fs_thresh w, hmdfs_ratio_thresh (fs_bg_ratio w) (bw_fs_thresh w))
                        else (fs, fs_bg) in
    let '(file, file_bg) :=
      if bw_file_thresh w <? file
      then (bw_file_thresh w, hmdfs_ratio_thresh (file_bg_ratio w) (bw_file_thresh w))
      else (file, file_bg) in
    mk_dtc (u64 (jiffies - HMDFS_BANDWIDTH_INTERVAL - 1)) file_bg fs_bg file fs.

(** [bw] is wb->avg_write_bandwidth. *)
Definition hmdfs_update_dirty_limit (w : hmdfs_writeback) (d : hmdfs_dirty_throttle_control)
    (bw jiffies : Z) : hmdfs_writeback * hmdfs_dirty_throttle_control :=
  if negb (dirty_auto_threshold w) then (w, d)
  else
    let maxb := if max_write_bandwidth w <? bw then bw else max_write_bandwidth w in
    let minb := if bw <? min_write_bandwidth w then bw else min_write_bandwidth w in
    let bw' := Z.max bw (bw_thresh_lowerlimit w) in
    let thresh := u64 (bw' * writeback_timelimit w) / roundup_pow_of_two HZ in
    let '(file_bg, fs_bg, file, fs) :=
      if dirty_fs_thresh w <=? thresh then
        (dirty_file_bg_thresh w, dirty_fs_bg_thresh w, dirty_file_thresh w, dirty_fs_thresh w)
      else
        let fs := thresh in
        let file := hmdfs_ratio_thresh (fs_file_ratio w) fs in
        (hmdfs_ratio_thresh (file_bg_ratio w) file, hmdfs_ratio_thresh (fs_bg_ratio w) fs, file, fs) in
    (mk_wb (dirty_writeback_control w) (dirty_writeback_interval w)
       (dirty_file_bg_bytes w) (dirty_file_bg_thresh w) (dirty_fs_bg_bytes w)
       (dirty_fs_bg_thresh w) (dirty_file_bytes w) (dirty_file_thresh w) (dirty_fs_bytes w)
       (dirty_fs_thresh w) (fs_bg_ratio w) (file_bg_ratio w) (fs_file_ratio w)
       (dirty_auto_threshold w) (writeback_timelimit w) fs file (bw_thresh_lowerlimit w)
       (dirty_exceeded w) (ratelimit_pages w) maxb minb bw,
     mk_dtc jiffies file_bg fs_bg file fs).

Definition set_ratelimit (w : hmdfs_writeback) (r : Z) : hmdfs_writeback :=
  mk_wb (dirty_writeback_control w) (dirty_writeback_interval w)
    (dirty_file_bg_bytes w) (dirty_file_bg_thresh w) (dirty_fs_bg_bytes w)
    (dirty_fs_bg_thresh w) (dirty_file_bytes w) (dirty_file_thresh w) (dirty_fs_bytes w)
    (dirty_fs_thresh w) (fs_bg_ratio w) (file_bg_ratio w) (fs_file_ratio w)
    (dirty_auto_threshold w) (writeback_timelimit w) (bw_fs_thresh w) (bw_file_thresh w)
    (bw_thresh_lowerlimit w) (dirty_exceeded w) r
    (max_write_bandwidth w) (min_write_bandwidth w) (avg_write_bandwidth w).

Definition set_exceeded (w : hmdfs_writeback) (b : bool) : hmdfs_writeback :=
  mk_wb (dirty_writeback_control w) (dirty_writeback_interval w)
    (dirty_file_bg_bytes w) (dirty_file_bg_thresh w) (dirty_fs_bg_bytes w)
    (dirty_fs_bg_thresh w) (dirty_file_bytes w) (dirty_file_thresh w) (dirty_fs_bytes w)
    (dirty_fs_thresh w) (fs_bg_ratio w) (file_bg_ratio w) (fs_file_ratio w)
    (dirty_auto_threshold w) (writeback_timelimit w) (bw_fs_thresh w) (bw_file_thresh w)
    (bw_thresh_lowerlimit w) b (ratelimit_pages w)
    (max_write_bandwidth w) (min_write_bandwidth w) (avg_write_bandwidth w).

Definition hmdfs_update_ratelimit (w : hmdfs_writeback) (jiffies : Z) : hmdfs_writeback :=
  let d := hmdfs_init_dirty_limit w jiffies in
  let r := file_bg_thresh d / (num_online_cpus * HMDFS_RATELIMIT_PAGES_GAP) in
  set_ratelimit w (if r <? HMDFS_MIN_RATELIMIT_PAGES then HMDFS_MIN_RATELIMIT_PAGES else r).

Definition hmdfs_wb_pause (bw wb_dirty : Z) : Z :=
  let t := wb_dirty / (1 + bw / roundup_pow_of_two (1 + HZ / 8)) in
  Z.min (u64 (t + 1)) HMDFS_MAX_PAUSE.

Definition fs_freerun_ceiling (d : hmdfs_dirty_throttle_control) : Z :=
  u64 (fs_thresh d + fs_bg_thresh d) / 2.
Definition file_freerun_ceiling (d : hmdfs_dirty_throttle_control) : Z :=
  u64 (file_thresh d + file_bg_thresh d) / 2.

Definition hmdfs_dirty_intv (dirty thresh : Z) : Z :=
  if dirty <? thresh then Z.shiftl 1 (Z.shiftr (Z.log2 (thresh - dirty)) 1) else 1.

(** * hmdfs_balance_dirty_pages *)

(** What one turn of the loop reads: dirty and writeback pages of the file system and
    of the file, the bandwidth, whether writeback is running (in the loop and, when
    this turn is the last, after it), the time, and whether a fatal signal is pending
    after the pause. *)
Record observation := mk_obs {
  o_fs_dirty : Z;
  o_fs_writeback : Z;
  o_file_dirty : Z;
  o_file_writeback : Z;
  o_bandwidth : Z;
  o_in_progress : bool;
  o_in_progress_end : bool;
  o_jiffies : Z;
  o_fatal_signal : bool
}.

(** Work the loop starts: the whole super block after a timeout, or the inode. *)
Inductive wb_action := StartSb (timeout : Z) | StartInode.

(** [busy] is work_busy of the super block's delayed work. *)
Definition hmdfs_writeback_inodes_sb_delayed (busy : bool) (delay : Z) : list wb_action :=
  let timeout := msecs_to_jiffies delay in
  if (timeout =? 0) || negb busy then [StartSb timeout] else [].

Definition hmdfs_writeback_inodes_sb (busy : bool) : list wb_action :=
  hmdfs_writeback_inodes_sb_delayed busy 0.

(** The delayed work both entry points arm for the timeout writeback. *)
Definition arm_timeout (w : hmdfs_writeback) (busy : bool) : list wb_action :=
  if negb (dirty_writeback_interval w =? 0)
  then hmdfs_writeback_inodes_sb_delayed busy (u32 (dirty_writeback_interval w * 10)) else [].

(** [time_is_before_jiffies(a)]: a signed comparison that survives the wrap of jiffies. *)
Definition time_is_before_jiffies (a jiffies : Z) : bool := swrap 64 (a - jiffies) <? 0.

(** How the loop ended, what it started and how long it slept. *)
Record balance_result := mk_result {
  br_wb : hmdfs_writeback;
  br_nr_dirtied_pause : option Z;
  br_nr_dirtied_reset : bool;
  br_actions : list wb_action;
  br_pauses : list Z
}.

Definition start_sb (busy in_progress : bool) : list wb_action :=
  if negb in_progress then hmdfs_writeback_inodes_sb busy else [].

(** The end of the function; [exc] is dirty_exceeded, [fs] and [file] the last page
    counts, [ip] whether writeback is in progress. *)
Definition balance_end (w : hmdfs_writeback) (d : hmdfs_dirty_throttle_control) (exc : bool)
    (fs file : Z) (busy ip : bool) (pause : option Z) (reset : bool) (acts : list wb_action)
    (pauses : list Z) : balance_result :=
  let w := if negb exc && dirty_exceeded w then set_exceeded w false else w in
  let acts := acts ++ (if fs_bg_thresh d <=? fs then start_sb busy ip
                       else if file_bg_thresh d <=? file then [StartInode] else []) in
  mk_result w pause reset acts pauses.

(** The [while (1)] loop over the observations; [None] when they run out. *)
Fixpoint balance_loop (busy : bool) (obs : list observation) (w : hmdfs_writeback)
    (d : hmdfs_dirty_throttle_control) (exc : bool) (file : Z) (acts : list wb_action)
    (pauses : list Z) : option balance_result :=
  match obs with
  | [] => None
  | o :: obs =>
      let fs := u64 (o_fs_dirty o + o_fs_writeback o) in
      if fs <? file_bg_thresh d then
        Some (balance_end w d exc fs file busy (o_in_progress_end o)
                (Some (hmdfs_dirty_intv fs (file_thresh d))) true acts pauses)
      else
        let file := u64 (o_file_writeback o + o_file_dirty o) in
        if (fs <? fs_freerun_ceiling d) && (file <? file_freerun_ceiling d) then
          let diff := Z.min (hmdfs_dirty_intv fs (fs_thresh d))
                            (hmdfs_dirty_intv file (file_thresh d)) in
          Some (balance_end w d exc fs file busy (o_in_progress_end o) (Some diff) true acts pauses)
        else
          let acts := acts ++ (if fs_freerun_ceiling d <=? fs then start_sb busy (o_in_progress o)
                               else [StartInode]) in
          let '(w, d) :=
            if dirty_auto_threshold w &&
               time_is_before_jiffies (u64 (thresh_time_stamp d + HMDFS_BANDWIDTH_INTERVAL))
                 (o_jiffies o)
            then hmdfs_update_dirty_limit w d (o_bandwidth o) (o_jiffies o) else (w, d) in
          let exceed := (fs_thresh d <=? fs) || (file_thresh d <=? file) in
          if negb exceed then
            Some (balance_end w d exc fs file busy (o_in_progress_end o) None true acts pauses)
          else
            let w := if negb (dirty_exceeded w) then set_exceeded w true else w in
            let pauses := pauses ++ [hmdfs_wb_pause (o_bandwidth o) fs] in
            if o_fatal_signal o then
              Some (balance_end w d true fs file busy (o_in_progress_end o) None false acts pauses)
            else balance_loop busy obs w d true file acts pauses
  end.

Definition hmdfs_balance_dirty_pages (busy : bool) (obs : list observation)
    (w : hmdfs_writeback) (jiffies : Z) : option balance_result :=
  balance_loop busy obs w (hmdfs_init_dirty_limit w jiffies) false 0 (arm_timeout w busy) [].

(** The rate limiter in front of it: whether the loop is called, the per-cpu count
    afterwards, and the work armed. *)
Definition hmdfs_balance_dirty_pages_ratelimited (w : hmdfs_writeback)
    (nr_dirtied nr_dirtied_pause bdp_ratelimits : Z) (busy : bool)
    : bool * Z * list wb_action :=
  if negb (dirty_writeback_control w) then (false, bdp_ratelimits, [])
  else
    let ratelimit := if dirty_exceeded w
                     then Z.min nr_dirtied_pause HMDFS_DIRTY_EXCEED_RATELIMIT
                     else nr_dirtied_pause in
    let '(ratelimit, bdp) :=
      if ratelimit <=? nr_dirtied then (ratelimit, 0)
      else if ratelimit_pages w <=? bdp_ratelimits then (0, 0)
      else (ratelimit, bdp_ratelimits) in
    (ratelimit <=? nr_dirtied, bdp, arm_timeout w busy).

Definition set_bw (w : hmdfs_writeback) (fs file : Z) : hmdfs_writeback :=
  mk_wb (dirty_writeback_control w) (dirty_writeback_interval w)
    (dirty_file_bg_bytes w) (dirty_file_bg_thresh w) (dirty_fs_bg_bytes w)
    (dirty_fs_bg_thresh w) (dirty_file_bytes w) (dirty_file_thresh w) (dirty_fs_bytes w)
    (dirty_fs_thresh w) (fs_bg_ratio w) (file_bg_ratio w) (fs_file_ratio w)
    (dirty_auto_threshold w) (writeback_timelimit w) fs file
    (bw_thresh_lowerlimit w) (dirty_exceeded w) (ratelimit_pages w)
    (max_write_bandwidth w) (min_write_bandwidth w) (avg_write_bandwidth w).

(** The values of hmdfs_init_writeback. *)
Definition hmdfs_init_writeback : option hmdfs_writeback :=
  match hmdfs_calculate_dirty_thresh
    (mk_wb true HM_DEFAULT_WRITEBACK_INTERVAL HMDFS_FILE_BG_WB_BYTES 0 HMDFS_FS_BG_WB_BYTES 0
       HMDFS_FILE_WB_BYTES 0 HMDFS_FS_WB_BYTES 0 0 0 0 true HMDFS_DEF_WB_TIMELIMIT 0 0
       HMDFS_BW_THRESH_DEF_LIMIT false HMDFS_DEF_RATELIMIT_PAGES 0 ULONG_MAX 0) with
  | Some w => Some (set_bw w (dirty_fs_thresh w) (dirty_file_thresh w))
  | None => None
  end.

(** * The sysfs settings *)

(** The parsed value written to each attribute. *)
Inductive wb_setting :=
| SetInterval (n : Z) | SetFileBgBytes (n : Z) | SetFsBgBytes (n : Z) | SetFileBytes (n : Z)
| SetFsBytes (n : Z) | SetTimelimit (n : Z) | SetLowerlimit (bytes : Z) | SetAutothresh (b : bool)
| SetControl (n : Z).

Definition set_bytes (w : hmdfs_writeback) (file_bg fs_bg file fs : Z) : hmdfs_writeback :=
  mk_wb (dirty_writeback_control w) (dirty_writeback_interval w)
    file_bg (dirty_file_bg_thresh w) fs_bg (dirty_fs_bg_thresh w) file (dirty_file_thresh w) fs
    (dirty_fs_thresh w) (fs_bg_ratio w) (file_bg_ratio w) (fs_file_ratio w)
    (dirty_auto_threshold w) (writeback_timelimit w) (bw_fs_thresh w) (bw_file_thresh w)
    (bw_thresh_lowerlimit w) (dirty_exceeded w) (ratelimit_pages w)
    (max_write_bandwidth w) (min_write_bandwidth w) (avg_write_bandwidth w).

Definition set_modes (w : hmdfs_writeback) (control auto : bool) (interval timelimit lower : Z)
    : hmdfs_writeback :=
  mk_wb control interval
    (dirty_file_bg_bytes w) (dirty_file_bg_thresh w) (dirty_fs_bg_bytes w)
    (dirty_fs_bg_thresh w) (dirty_file_bytes w) (dirty_file_thresh w) (dirty_fs_bytes w)
    (dirty_fs_thresh w) (fs_bg_ratio w) (file_bg_ratio w) (fs_file_ratio w)
    auto timelimit (bw_fs_thresh w) (bw_file_thresh w) lower
    (dirty_exceeded w) (ratelimit_pages w)
    (max_write_bandwidth w) (min_write_bandwidth w) (avg_write_bandwidth w).

(** The new byte settings, then the thresholds and the rate limit. *)
Definition store_bytes (w : hmdfs_writeback) (len jiffies : Z) : option (Z * hmdfs_writeback) :=
  match hmdfs_calculate_dirty_thresh w with
  | Some w => Some (len, hmdfs_update_ratelimit w jiffies)
  | None => None
  end.

Definition sbi_dirty_file_background_bytes_store (w : hmdfs_writeback) (n len jiffies : Z) :=
  if n =? 0 then Some (- EINVAL, w)
  else store_bytes (set_bytes w n (Z.max (dirty_fs_bg_bytes w) n) (Z.max (dirty_file_bytes w) n)
                      (Z.max (dirty_fs_bytes w) n)) len jiffies.

Definition sbi_dirty_fs_background_bytes_store (w : hmdfs_writeback) (n len jiffies : Z) :=
  if n =? 0 then Some (- EINVAL, w)
  else store_bytes (set_bytes w (Z.min (dirty_file_bg_bytes w) n) n (dirty_file_bytes w)
                      (Z.max (dirty_fs_bytes w) n)) len jiffies.

Definition sbi_dirty_file_bytes_store (w : hmdfs_writeback) (n len jiffies : Z) :=
  if n =? 0 then Some (- EINVAL, w)
  else store_bytes (set_bytes w (Z.min (dirty_file_bg_bytes w) n) (dirty_fs_bg_bytes w) n
                      (Z.max (dirty_fs_bytes w) n)) len jiffies.

Definition sbi_dirty_fs_bytes_store (w : hmdfs_writeback) (n len jiffies : Z) :=
  if n =? 0 then Some (- EINVAL, w)
  else store_bytes (set_bytes w (Z.min (dirty_file_bg_bytes w) n) (Z.min (dirty_fs_bg_bytes w) n)
                      (Z.min (dirty_file_bytes w) n) n) len jiffies.

Definition sbi_dirty_writeback_timelimit_store (w : hmdfs_writeback) (n len : Z) :=
  if (n =? 0) || (HMDFS_MAX_WB_TIMELIMIT / HZ <? n) then (- EINVAL, w)
  else (len, set_modes w (dirty_writeback_control w) (dirty_auto_threshold w)
               (dirty_writeback_interval w) (u32 (n * HZ)) (bw_thresh_lowerlimit w)).

Definition sbi_dirty_thresh_lowerlimit_store (w : hmdfs_writeback) (bytes len : Z) :=
  let n := DIV_ROUND_UP bytes WB_PAGE_SIZE in
  if (n <? HMDFS_BW_THRESH_MIN_LIMIT) || (HMDFS_BW_THRESH_MAX_LIMIT <? n) then (- EINVAL, w)
  else (len, set_modes w (dirty_writeback_control w) (dirty_auto_threshold w)
               (dirty_writeback_interval w) (writeback_timelimit w) n).

(** A write of [len] bytes to an attribute; [None] is the divide error. *)
Definition sbi_store (s : wb_setting) (w : hmdfs_writeback) (len jiffies : Z)
    : option (Z * hmdfs_writeback) :=
  match s with
  | SetFileBgBytes n => sbi_dirty_file_background_bytes_store w n len jiffies
  | SetFsBgBytes n => sbi_dirty_fs_background_bytes_store w n len jiffies
  | SetFileBytes n => sbi_dirty_file_bytes_store w n len jiffies
  | SetFsBytes n => sbi_dirty_fs_bytes_store w n len jiffies
  | SetTimelimit n => Some (sbi_dirty_writeback_timelimit_store w n len)
  | SetLowerlimit n => Some (sbi_dirty_thresh_lowerlimit_store w n len)
  | SetInterval n =>
      Some (len, set_modes w (dirty_writeback_control w) (dirty_auto_threshold w) n
                   (writeback_timelimit w) (bw_thresh_lowerlimit w))
  | SetAutothresh b =>
      Some (len, set_modes w (dirty_writeback_control w) b (dirty_writeback_interval w)
                   (writeback_timelimit w) (bw_thresh_lowerlimit w))
  | SetControl n =>
      Some (len, set_modes w (negb (n =? 0)) (dirty_auto_threshold w) (dirty_writeback_interval w)
                   (writeback_timelimit w) (bw_thresh_lowerlimit w))
  end.
End hz.

(** * The queue of inodes *)

(** The queued inodes in order, the inode the handler is writing (unlinked from the
    list, its reference not yet dropped) and the references held on each inode. *)
Record wb_queue := mk_queue {
  wq_inodes : list Z;
  wq_writing : option Z;
  wq_held : Z -> Z
}.

Definition empty_queue : wb_queue := mk_queue [] None (fun _ => 0).

Definition hold (h : Z -> Z) (i n : Z) : Z -> Z := fun j => if j =? i then h j + n else h j.

(** [list_empty(&info->wb_list)]: the inode is not queued. *)
Definition hmdfs_writeback_inode (q : wb_queue) (i : Z) : wb_queue :=
  if decide (i ∈ wq_inodes q) then q
  else mk_queue (wq_inodes q ++ [i]) (wq_writing q) (hold (wq_held q) i 1).

(** The handler takes the first inode off the list under the lock ... *)
Definition handler_pop (q : wb_queue) : option wb_queue :=
  match wq_inodes q, wq_writing q with
  | i :: l, None => Some (mk_queue l (Some i) (wq_held q))
  | _, _ => None
  end.

(** ... and writes it and drops its reference without the lock. *)
Definition handler_write (q : wb_queue) : option (Z * wb_queue) :=
  match wq_writing q with
  | Some i => Some (i, mk_queue (wq_inodes q) None (hold (wq_held q) i (-1)))
  | None => None
  end.

(** Writers and the handler interleave freely between these steps. *)
Inductive queue_step : wb_queue -> wb_queue -> Prop :=
| step_queue q i : queue_step q (hmdfs_writeback_inode q i)
| step_pop q q' : handler_pop q = Some q' -> queue_step q q'
| step_write q i q' : handler_write q = Some (i, q') -> queue_step q q'.

(** hmdfs_writeback_inode_handler running alone, with fuel: the inodes written. *)
Fixpoint hmdfs_writeback_inode_handler (fuel : nat) (q : wb_queue) : option (list Z * wb_queue) :=
  match wq_inodes q with
  | [] => Some ([], q)
  | _ =>
      match fuel with
      | O => None
      | S fuel =>
          match handler_pop q with
          | None => None
          | Some q1 =>
              match handler_write q1 with
              | None => None
              | Some (i, q2) =>
                  match hmdfs_writeback_inode_handler fuel q2 with
                  | Some (l, q3) => Some (i :: l, q3)
                  | None => None
                  end
              end
          end
      end
  end.

(** * Thresholds stay ordered *)

Definition limits_ok (d : hmdfs_dirty_throttle_control) : Prop :=
  1 <= fs_bg_thresh d <= fs_thresh d /\ 1 <= file_bg_thresh d <= file_thresh d.

(** The largest setting DIV_ROUND_UP can round up without wrapping to 0. *)
Definition MAX_BYTES := 2 ^ 64 - 4096.

Definition bytes_ok (w : hmdfs_writeback) : Prop :=
  1 <= dirty_file_bg_bytes w /\ dirty_file_bg_bytes w <= dirty_fs_bg_bytes w /\
  dirty_file_bg_bytes w <= dirty_file_bytes w /\ dirty_fs_bg_bytes w <= dirty_fs_bytes w /\
  dirty_file_bytes w <= dirty_fs_bytes w /\ dirty_fs_bytes w <= MAX_BYTES.

Definition thresh_ok (w : hmdfs_writeback) : Prop :=
  1 <= dirty_fs_bg_thresh w <= dirty_fs_thresh w /\
  1 <= dirty_file_bg_thresh w <= dirty_file_thresh w /\
  dirty_file_thresh w <= dirty_fs_thresh w < 2 ^ 53 /\
  1 <= fs_bg_ratio w <= 1024 /\ 1 <= file_bg_ratio w <= 1024 /\ 1 <= fs_file_ratio w <= 1024.

Definition limits_setting_ok (HZ : Z) (w : hmdfs_writeback) : Prop :=
  HZ <= writeback_timelimit w <= 30 * HZ /\
  HMDFS_BW_THRESH_MIN_LIMIT <= bw_thresh_lowerlimit w <= HMDFS_BW_THRESH_MAX_LIMIT /\
  1 <= bw_fs_thresh w < 2 ^ 53 /\ 1 <= bw_file_thresh w < 2 ^ 53 /\ 1 <= ratelimit_pages w.

(** The state invariant of a writeback control. *)
Definition wb_ok (HZ : Z) (w : hmdfs_writeback) : Prop :=
  bytes_ok w /\ thresh_ok w /\ limits_setting_ok HZ w.

Definition hz_ok (HZ num_online_cpus : Z) : Prop := 1 <= HZ <= 1024 /\ 1 <= num_online_cpus.

Lemma hmdfs_ratio_thresh_bounds r t :
  1 <= r <= 1024 -> 1 <= t < 2 ^ 53 -> 1 <= hmdfs_ratio_thresh r t <= t.
Proof.
  intros Hr Ht. unfold hmdfs_ratio_thresh, HMDFS_LIMIT_SHIFT.
  rewrite wrap_small by nia. rewrite Z.shiftr_div_pow2 by lia. change (2 ^ 10) with 1024.
  pose proof (Z.div_pos (r * t) 1024 ltac:(nia) ltac:(lia)).
  pose proof (Z.div_le_upper_bound (r * t) 1024 t ltac:(lia) ltac:(nia)).
  split_ifs.
Qed.

Lemma hmdfs_thresh_ratio_bounds b t :
  1 <= b <= t -> t < 2 ^ 53 -> exists r, hmdfs_thresh_ratio b t = Some r /\ 1 <= r <= 1024.
Proof.
  intros Hb Ht. unfold hmdfs_thresh_ratio, HMDFS_LIMIT_SHIFT. split_if; [lia|].
  rewrite Z.shiftl_mul_pow2 by lia. change (2 ^ 10) with 1024.
  rewrite wrap_small by nia. eexists; split; [reflexivity|].
  pose proof (Z.div_pos (b * 1024) t ltac:(nia) ltac:(lia)).
  pose proof (Z.div_le_upper_bound (b * 1024) t 1024 ltac:(lia) ltac:(nia)).
  split_ifs.
Qed.

Lemma roundup_pow_of_two_bounds n : 1 <= n -> n <= roundup_pow_of_two n <= 2 * n.
Proof.
  intros Hn. unfold roundup_pow_of_two. split_if; [lia|].
  pose proof (Z.log2_spec (n - 1) ltac:(lia)). rewrite Z.pow_add_r by (pose proof (Z.log2_nonneg (n - 1)); lia).
  unfold Z.succ in *. rewrite Z.pow_add_r in * by (pose proof (Z.log2_nonneg (n - 1)); lia). lia.
Qed.

Lemma DIV_ROUND_UP_bounds n :
  1 <= n <= MAX_BYTES -> 1 <= DIV_ROUND_UP n WB_PAGE_SIZE < 2 ^ 53.
Proof.
  unfold MAX_BYTES, DIV_ROUND_UP, WB_PAGE_SIZE. intros. rewrite wrap_small by lia.
  split; [apply Z.div_le_lower_bound|apply Z.div_lt_upper_bound]; lia.
Qed.

Lemma DIV_ROUND_UP_mono a b :
  1 <= a <= b -> b <= MAX_BYTES -> DIV_ROUND_UP a WB_PAGE_SIZE <= DIV_ROUND_UP b WB_PAGE_SIZE.
Proof.
  unfold MAX_BYTES, DIV_ROUND_UP, WB_PAGE_SIZE. intros. rewrite !wrap_small by lia.
  apply Z.div_le_mono; lia.
Qed.

Lemma DIV_ROUND_UP_wraps n :
  MAX_BYTES < n < 2 ^ 64 -> DIV_ROUND_UP n WB_PAGE_SIZE = 0.
Proof.
  unfold MAX_BYTES, DIV_ROUND_UP, WB_PAGE_SIZE, wrap. intros.
  replace (n + 4096 - 1) with ((n + 4095 - 2 ^ 64) + 1 * 2 ^ 64) by lia.
  rewrite Z.mod_add, Z.mod_small by lia. apply Z.div_small. lia.
Qed.

Lemma hmdfs_calculate_dirty_thresh_ok w :
  bytes_ok w ->
  exists fb fsb f fs r1 r2 r3,
    hmdfs_calculate_dirty_thresh w = Some (set_thresh w fb fsb f fs r1 r2 r3) /\
    thresh_ok (set_thresh w fb fsb f fs r1 r2 r3).
Proof.
  intros (H1 & H2 & H3 & H4 & H5 & H6). unfold hmdfs_calculate_dirty_thresh.
  pose proof (DIV_ROUND_UP_bounds (dirty_file_bg_bytes w) ltac:(lia)).
  pose proof (DIV_ROUND_UP_bounds (dirty_fs_bg_bytes w) ltac:(lia)).
  pose proof (DIV_ROUND_UP_bounds (dirty_file_bytes w) ltac:(lia)).
  pose proof (DIV_ROUND_UP_bounds (dirty_fs_bytes w) ltac:(lia)).
  pose proof (DIV_ROUND_UP_mono (dirty_fs_bg_bytes w) (dirty_fs_bytes w) ltac:(lia) H6).
  pose proof (DIV_ROUND_UP_mono (dirty_file_bg_bytes w) (dirty_file_bytes w) ltac:(lia) ltac:(lia)).
  pose proof (DIV_ROUND_UP_mono (dirty_file_bytes w) (dirty_fs_bytes w) ltac:(lia) H6).
  set (fsb := DIV_ROUND_UP (dirty_fs_bg_bytes w) WB_PAGE_SIZE) in *.
  set (fs := DIV_ROUND_UP (dirty_fs_bytes w) WB_PAGE_SIZE) in *.
  set (fb := DIV_ROUND_UP (dirty_file_bg_bytes w) WB_PAGE_SIZE) in *.
  set (f := DIV_ROUND_UP (dirty_file_bytes w) WB_PAGE_SIZE) in *.
  destruct (hmdfs_thresh_ratio_bounds fsb fs) as (r1 & -> & Hr1); [lia..|].
  destruct (hmdfs_thresh_ratio_bounds fb f) as (r2 & -> & Hr2); [lia..|].
  destruct (hmdfs_thresh_ratio_bounds f fs) as (r3 & -> & Hr3); [lia..|].
  exists fb, fsb, f, fs, r1, r2, r3. split; [done|]. unfold thresh_ok; simpl. lia.
Qed.

Lemma hmdfs_init_dirty_limit_ok HZ w j :
  thresh_ok w -> limits_setting_ok HZ w -> limits_ok (hmdfs_init_dirty_limit HZ w j).
Proof.
  intros (H1 & H2 & H3 & H4 & H5 & H6) (_ & _ & H7 & H8 & _).
  unfold hmdfs_init_dirty_limit, limits_ok.
  pose proof (hmdfs_ratio_thresh_bounds (fs_bg_ratio w) (bw_fs_thresh w) ltac:(lia) ltac:(lia)).
  pose proof (hmdfs_ratio_thresh_bounds (file_bg_ratio w) (bw_file_thresh w) ltac:(lia) ltac:(lia)).
  repeat (split_if; simpl); lia.
Qed.

Lemma hmdfs_update_dirty_limit_ok HZ w d bw j w' d' :
  1 <= HZ <= 1024 -> wb_ok HZ w -> limits_ok d -> 0 <= bw < 2 ^ 48 ->
  hmdfs_update_dirty_limit HZ w d bw j = (w', d') -> wb_ok HZ w' /\ limits_ok d'.
Proof.
  intros HH (Hb & Ht & Hs) Hd Hbw. pose proof Ht as (H1 & H2 & H3 & H4 & H5 & H6).
  pose proof Hs as (H7 & H8 & H9 & H10 & H11).
  change (256 <= bw_thresh_lowerlimit w <= 25600) in H8.
  unfold hmdfs_update_dirty_limit. destruct (dirty_auto_threshold w); simpl; [|by intros [= <- <-]].
  set (b := Z.max bw (bw_thresh_lowerlimit w)).
  assert (Hbb : 256 <= b < 2 ^ 48) by lia.
  assert (Hbt : 0 <= b * writeback_timelimit w < 2 ^ 48 * 2 ^ 15).
  { split; [apply Z.mul_nonneg_nonneg; lia|]. apply Z.mul_lt_mono_nonneg; lia. }
  rewrite (wrap_small 64 (b * writeback_timelimit w)) by lia.
  set (t := b * writeback_timelimit w / roundup_pow_of_two HZ).
  pose proof (roundup_pow_of_two_bounds HZ ltac:(lia)).
  pose proof (Z.mul_le_mono_nonneg 256 b HZ (writeback_timelimit w) ltac:(lia) ltac:(lia) ltac:(lia) ltac:(lia)).
  assert (1 <= t) by (unfold t; apply Z.div_le_lower_bound; [lia|]; rewrite Z.mul_1_r; lia).
  split_if; intros [= <- <-];
    unfold wb_ok, limits_ok, limits_setting_ok;
    change HMDFS_BW_THRESH_MIN_LIMIT with 256; change HMDFS_BW_THRESH_MAX_LIMIT with 25600;
    simpl.
  - split; [split; [exact Hb|split; [exact Ht|]]|]; lia.
  - pose proof (hmdfs_ratio_thresh_bounds (fs_bg_ratio w) t ltac:(lia) ltac:(lia)).
    pose proof (hmdfs_ratio_thresh_bounds (fs_file_ratio w) t ltac:(lia) ltac:(lia)).
    pose proof (hmdfs_ratio_thresh_bounds (file_bg_ratio w)
                  (hmdfs_ratio_thresh (fs_file_ratio w) t) ltac:(lia) ltac:(lia)).
    split; [split; [exact Hb|split; [exact Ht|]]|]; lia.
Qed.

Lemma hmdfs_update_ratelimit_ok HZ ncpu w j : wb_ok HZ w -> wb_ok HZ (hmdfs_update_ratelimit HZ ncpu w j).
Proof.
  intros (Hb & Ht & Hs). split; [exact Hb|split; [exact Ht|]].
  unfold hmdfs_update_ratelimit, HMDFS_MIN_RATELIMIT_PAGES, limits_setting_ok in *. simpl.
  split_if; lia.
Qed.

Lemma store_bytes_ok HZ ncpu w len j :
  bytes_ok w -> limits_setting_ok HZ w ->
  exists w', store_bytes HZ ncpu w len j = Some (len, w') /\ wb_ok HZ w'.
Proof.
  intros Hb Hs. unfold store_bytes.
  destruct (hmdfs_calculate_dirty_thresh_ok w Hb) as (? & ? & ? & ? & ? & ? & ? & -> & Ht).
  eexists; split; [reflexivity|]. apply hmdfs_update_ratelimit_ok. split; [exact Hb|split; [exact Ht|exact Hs]].
Qed.

(** The setting's value is one of the attribute's type; byte counts leave DIV_ROUND_UP
    room to round up. *)
Definition setting_ok (s : wb_setting) : Prop :=
  match s with
  | SetFileBgBytes n | SetFsBgBytes n | SetFileBytes n | SetFsBytes n => 0 <= n <= MAX_BYTES
  | SetTimelimit n | SetInterval n | SetControl n => 0 <= n < 2 ^ 32
  | SetLowerlimit n => 0 <= n < 2 ^ 64
  | SetAutothresh _ => True
  end.

(** C39: Writing any setting keeps the invariant, whatever was configured before and
    however the bandwidth has moved the thresholds: the four byte limits stay ordered,
    no threshold is zero, and the limits the throttling loop starts from have the
    background limit below the foreground one.  Only a byte count within a page of
    2^64 escapes: its page count wraps to 0 and the ratios divide by it. *)
Theorem settings_invariant HZ ncpu s w len j :
  1 <= HZ <= 1024 -> wb_ok HZ w -> setting_ok s ->
  (exists r w', sbi_store HZ ncpu s w len j = Some (r, w') /\ wb_ok HZ w' /\
     (r = len \/ r = - EINVAL /\ w' = w) /\ limits_ok (hmdfs_init_dirty_limit HZ w' j)) /\
  (forall n, MAX_BYTES < n < 2 ^ 64 -> sbi_store HZ ncpu (SetFsBytes n) w len j = None).
Proof.
  intros HH Hw Hs. split.
  - enough (exists r w', sbi_store HZ ncpu s w len j = Some (r, w') /\ wb_ok HZ w' /\
              (r = len \/ r = - EINVAL /\ w' = w)) as (r & w' & ? & Hok & ?).
    { exists r, w'. repeat split; try done; try apply Hok.
      all: apply (hmdfs_init_dirty_limit_ok HZ w' j); apply Hok. }
    pose proof Hw as (Hb & Ht & Hl).
    assert (Hbytes : forall fb fsb f fs, bytes_ok (set_bytes w fb fsb f fs) ->
      exists r w', store_bytes HZ ncpu (set_bytes w fb fsb f fs) len j = Some (r, w') /\
        wb_ok HZ w' /\ (r = len \/ r = - EINVAL /\ w' = w)).
    { intros fb fsb f fs Hb'. destruct (store_bytes_ok HZ ncpu _ len j Hb' Hl) as (w' & -> & ?).
      exists len, w'. eauto. }
    assert (Hsame : wb_ok HZ w /\ (- EINVAL = len \/ - EINVAL = - EINVAL /\ w = w)) by auto.
    destruct s as [n|n|n|n|n|n|n|b|n]; simpl in Hs |- *;
      unfold sbi_dirty_file_background_bytes_store, sbi_dirty_fs_background_bytes_store,
        sbi_dirty_file_bytes_store, sbi_dirty_fs_bytes_store,
        sbi_dirty_writeback_timelimit_store, sbi_dirty_thresh_lowerlimit_store;
      try split_if; try (by do 2 eexists; eauto).
    all: try (apply Hbytes; unfold bytes_ok in *; simpl; lia).
    all: do 2 eexists; split; [reflexivity|]; split; [|by left].
    all: split; [exact Hb|split; [exact Ht|]]; unfold limits_setting_ok, HMDFS_MAX_WB_TIMELIMIT in *; simpl in *.
    all: zb; try lia.
    rewrite Z.div_mul in * by lia. rewrite wrap_small by nia. nia.
  - intros n Hn. simpl. unfold sbi_dirty_fs_bytes_store. unfold MAX_BYTES in Hn. split_if; [lia|].
    unfold store_bytes, hmdfs_calculate_dirty_thresh. simpl.
    rewrite (DIV_ROUND_UP_wraps n) by (unfold MAX_BYTES; lia). done.
Qed.

(** A checked instance of the invariant: what hmdfs_init_writeback sets up. *)
Definition wb_ok_b (HZ : Z) (w : hmdfs_writeback) : bool :=
  let le a b := a <=? b in
  le 1 (dirty_file_bg_bytes w) && le (dirty_file_bg_bytes w) (dirty_fs_bg_bytes w) &&
  le (dirty_file_bg_bytes w) (dirty_file_bytes w) && le (dirty_fs_bg_bytes w) (dirty_fs_bytes w) &&
  le (dirty_file_bytes w) (dirty_fs_bytes w) && le (dirty_fs_bytes w) MAX_BYTES &&
  le 1 (dirty_fs_bg_thresh w) && le (dirty_fs_bg_thresh w) (dirty_fs_thresh w) &&
  le 1 (dirty_file_bg_thresh w) && le (dirty_file_bg_thresh w) (dirty_file_thresh w) &&
  le (dirty_file_thresh w) (dirty_fs_thresh w) && (dirty_fs_thresh w <? 2 ^ 53) &&
  le 1 (fs_bg_ratio w) && le (fs_bg_ratio w) 1024 && le 1 (file_bg_ratio w) &&
  le (file_bg_ratio w) 1024 && le 1 (fs_file_ratio w) && le (fs_file_ratio w) 1024 &&
  le HZ (writeback_timelimit w) && le (writeback_timelimit w) (30 * HZ) &&
  le HMDFS_BW_THRESH_MIN_LIMIT (bw_thresh_lowerlimit w) &&
  le (bw_thresh_lowerlimit w) HMDFS_BW_THRESH_MAX_LIMIT &&
  le 1 (bw_fs_thresh w) && (bw_fs_thresh w <? 2 ^ 53) && le 1 (bw_file_thresh w) &&
  (bw_file_thresh w <? 2 ^ 53) && le 1 (ratelimit_pages w).

Lemma wb_ok_b_ok HZ w : wb_ok_b HZ w = true -> wb_ok HZ w.
Proof.
  unfold wb_ok_b, wb_ok, bytes_ok, thresh_ok, limits_setting_ok. intros H. zb. lia.
Qed.

Definition default_wb (HZ : Z) : hmdfs_writeback :=
  match hmdfs_init_writeback HZ with
  | Some w => w
  | None => mk_wb false 0 0 0 0 0 0 0 0 0 0 0 0 false 0 0 0 0 false 0 0 0 0
  end.

Lemma settings_invariant_witness :
  wb_ok 250 (default_wb 250) /\
  exists r w', sbi_store 250 8 (SetFsBytes 5000000) (default_wb 250) 8 1000 = Some (r, w') /\
    wb_ok 250 w' /\ (r = 8 \/ r = - EINVAL /\ w' = default_wb 250) /\
    limits_ok (hmdfs_init_dirty_limit 250 w' 1000).
Proof.
  assert (wb_ok 250 (default_wb 250)) by (apply wb_ok_b_ok; vm_compute; reflexivity).
  split; [assumption|].
  apply (settings_invariant 250 8 (SetFsBytes 5000000) (default_wb 250) 8 1000); [lia|assumption|].
  unfold setting_ok, MAX_BYTES; lia.
Defined.

(** * Pauses and polling intervals *)

Lemma hmdfs_wb_pause_bounds HZ bw d :
  0 <= bw -> 0 <= d < 2 ^ 64 - 1 -> 1 <= hmdfs_wb_pause HZ bw d <= HMDFS_MAX_PAUSE HZ.
Proof.
  intros Hb Hd. unfold hmdfs_wb_pause, HMDFS_MAX_PAUSE.
  set (k := 1 + bw / roundup_pow_of_two (1 + HZ / 8)).
  assert (1 <= k).
  { unfold k. assert (0 < roundup_pow_of_two (1 + HZ / 8)).
    { unfold roundup_pow_of_two. split_if; [lia|].
      pose proof (Z.log2_nonneg (1 + HZ / 8 - 1)). apply Z.pow_pos_nonneg; lia. }
    pose proof (Z.div_pos bw _ Hb H). lia. }
  pose proof (Z.div_pos d k ltac:(lia) ltac:(lia)).
  pose proof (Z.div_le_upper_bound d k d ltac:(lia) ltac:(nia)).
  rewrite wrap_small by lia. lia.
Qed.

(** A throttled writer sleeps at least one tick and at most HMDFS_MAX_PAUSE, and the
    polling interval is the power of two whose square approximates the distance to the
    limit: 1 at or above it, otherwise at most the square root and more than half. *)
Theorem pause_and_interval_bounds HZ bw dirty thresh :
  0 <= bw -> 0 <= dirty < 2 ^ 64 - 1 -> 0 <= thresh < 2 ^ 64 ->
  (1 <= hmdfs_wb_pause HZ bw dirty <= HMDFS_MAX_PAUSE HZ) /\
  (thresh <= dirty -> hmdfs_dirty_intv dirty thresh = 1) /\
  (dirty < thresh ->
   let i := hmdfs_dirty_intv dirty thresh in
   1 <= i /\ i * i <= thresh - dirty < 4 * (i * i)).
Proof.
  intros Hb Hd Ht. split; [|split].
  - by apply hmdfs_wb_pause_bounds.
  - intros. unfold hmdfs_dirty_intv. split_if; lia.
  - intros Hlt. unfold hmdfs_dirty_intv. split_if; [|lia].
    set (n := thresh - dirty). assert (Hn : 0 < n) by lia.
    pose proof (Z.log2_spec n Hn) as Hl. pose proof (Z.log2_nonneg n).
    rewrite Z.shiftr_div_pow2 by lia. rewrite Z.shiftl_mul_pow2 by (apply Z.div_pos; lia).
    change (2 ^ 1) with 2. pose proof (Z.div_mod (Z.log2 n) 2 ltac:(lia)).
    pose proof (Z.mod_pos_bound (Z.log2 n) 2 ltac:(lia)).
    set (h := Z.log2 n / 2) in *. assert (0 <= h) by (apply Z.div_pos; lia).
    rewrite Z.mul_1_l. assert (1 <= 2 ^ h) by (pose proof (Z.pow_pos_nonneg 2 h); lia).
    assert (Hsq : 2 ^ h * 2 ^ h = 2 ^ (2 * h)) by (rewrite <- Z.pow_add_r by lia; f_equal; lia).
    split; [lia|]. rewrite Hsq. split.
    + transitivity (2 ^ Z.log2 n); [apply Z.pow_le_mono_r|]; lia.
    + apply Z.lt_le_trans with (2 ^ Z.succ (Z.log2 n)); [lia|].
      change 4 with (2 ^ 2). rewrite <- Z.pow_add_r by lia. apply Z.pow_le_mono_r; lia.
Qed.

Lemma pause_and_interval_bounds_witness :
  hmdfs_dirty_intv 100 1000 = 16 /\ (1 <= hmdfs_wb_pause 250 1000 900 <= HMDFS_MAX_PAUSE 250).
Proof.
  split; [reflexivity|]. apply (pause_and_interval_bounds 250 1000 900 1000); lia.
Defined.

(** * The throttling loop *)

(** What a turn reads is a possible state of the kernel's counters. *)
Definition obs_ok (o : observation) : Prop :=
  0 <= o_bandwidth o < 2 ^ 48 /\ 0 <= o_fs_dirty o + o_fs_writeback o < 2 ^ 64 - 1 /\
  0 <= o_file_writeback o + o_file_dirty o < 2 ^ 64 - 1.

(** A turn after which the loop cannot go on: no dirty page is left, or the task is
    being killed. *)
Definition last_turn (o : observation) : Prop :=
  o_fs_dirty o + o_fs_writeback o = 0 \/ o_fatal_signal o = true.

(** What the loop promises when it starts with [pauses] behind it. *)
Record balance_post (HZ : Z) (pauses : list Z) (r : balance_result) : Prop := {
  post_ok : wb_ok HZ (br_wb r);
  post_flag : dirty_exceeded (br_wb r) = negb (bool_decide (br_pauses r = []));
  post_pauses : exists l, br_pauses r = pauses ++ l /\
                  Forall (fun p => 1 <= p <= HMDFS_MAX_PAUSE HZ) l;
  post_interval : forall n, br_nr_dirtied_pause r = Some n -> 1 <= n;
  post_reset : br_nr_dirtied_reset r = false -> br_pauses r <> []
}.

Lemma hmdfs_dirty_intv_pos d t : 1 <= hmdfs_dirty_intv d t.
Proof.
  unfold hmdfs_dirty_intv. split_if; [|lia].
  assert (0 <= Z.shiftr (Z.log2 (t - d)) 1) by (apply Z.shiftr_nonneg, Z.log2_nonneg).
  rewrite Z.shiftl_mul_pow2 by done. pose proof (Z.pow_pos_nonneg 2 (Z.shiftr (Z.log2 (t - d)) 1)). lia.
Qed.

Lemma set_exceeded_ok HZ w b : wb_ok HZ w -> wb_ok HZ (set_exceeded w b).
Proof. intros (H1 & H2 & H3). split; [exact H1|split; [exact H2|exact H3]]. Qed.

Lemma dirty_exceeded_update HZ w d bw j w' d' :
  hmdfs_update_dirty_limit HZ w d bw j = (w', d') -> dirty_exceeded w' = dirty_exceeded w.
Proof.
  unfold hmdfs_update_dirty_limit. destruct (dirty_auto_threshold w); simpl; [|by intros [= <- <-]].
  split_if; by intros [= <- <-].
Qed.

(** The flag of the writeback control while the loop runs: set once it has slept. *)
Definition loop_flag (exc : bool) (w : hmdfs_writeback) (pauses : list Z) : Prop :=
  exc = negb (bool_decide (pauses = [])) /\ (exc = true -> dirty_exceeded w = true).

Lemma balance_end_post HZ m2j w d exc fs file busy ip pause reset acts pauses :
  wb_ok HZ w -> loop_flag exc w pauses ->
  (forall n, pause = Some n -> 1 <= n) -> (reset = false -> exc = true) ->
  balance_post HZ pauses (balance_end m2j w d exc fs file busy ip pause reset acts pauses).
Proof.
  intros Hw [He Hx] Hp Hr. unfold balance_end. split; simpl; try done.
  - destruct exc; simpl; [done|]. destruct (dirty_exceeded w); simpl; [by apply set_exceeded_ok|done].
  - destruct exc; simpl; [by rewrite Hx, <- He|].
    destruct (dirty_exceeded w) eqn:E; simpl; [|rewrite E]; exact He.
  - exists []. by rewrite app_nil_r.
  - intros Hf ->. rewrite (Hr Hf) in He. done.
Qed.

Lemma balance_post_weaken HZ pauses p r :
  1 <= p <= HMDFS_MAX_PAUSE HZ -> balance_post HZ (pauses ++ [p]) r -> balance_post HZ pauses r.
Proof.
  intros Hp []. split; try done. destruct post_pauses0 as (l & -> & Hl).
  exists (p :: l). rewrite <- app_assoc. split; [done|]. by constructor.
Qed.

(** One turn that does not end the loop: the next turn starts in order. *)
Definition turn_limits (HZ : Z) (w : hmdfs_writeback) (d : hmdfs_dirty_throttle_control)
    (o : observation) : hmdfs_writeback * hmdfs_dirty_throttle_control :=
  if dirty_auto_threshold w &&
     time_is_before_jiffies (u64 (thresh_time_stamp d + HMDFS_BANDWIDTH_INTERVAL HZ)) (o_jiffies o)
  then hmdfs_update_dirty_limit HZ w d (o_bandwidth o) (o_jiffies o) else (w, d).

Lemma turn_limits_ok HZ w d o w' d' exc pauses :
  1 <= HZ <= 1024 -> wb_ok HZ w -> limits_ok d -> obs_ok o -> loop_flag exc w pauses ->
  turn_limits HZ w d o = (w', d') -> wb_ok HZ w' /\ limits_ok d' /\ loop_flag exc w' pauses.
Proof.
  intros HH Hw Hd (Hb & _) [Hf Hx]. unfold turn_limits, loop_flag.
  destruct (_ && _); [|by intros [= <- <-]].
  intros Hu. pose proof (dirty_exceeded_update _ _ _ _ _ _ _ Hu) as ->.
  pose proof (hmdfs_update_dirty_limit_ok _ _ _ _ _ _ _ HH Hw Hd Hb Hu) as [? ?]. auto.
Qed.

Lemma balance_loop_post HZ m2j busy obs : forall w d exc file acts pauses r,
  1 <= HZ <= 1024 -> wb_ok HZ w -> limits_ok d -> Forall obs_ok obs -> loop_flag exc w pauses ->
  balance_loop HZ m2j busy obs w d exc file acts pauses = Some r -> balance_post HZ pauses r.
Proof.
  induction obs as [|o obs IH]; intros w d exc file acts pauses r HH Hw Hd Ho Hf; [done|].
  apply list.Forall_cons in Ho as [Ho Hos]. cbn [balance_loop].
  split_if; [intros [= <-]; apply balance_end_post; try done|].
  { intros n [= <-]. apply hmdfs_dirty_intv_pos. }
  split_if; [intros [= <-]; apply balance_end_post; try done|].
  { intros n [= <-]. pose proof hmdfs_dirty_intv_pos. by apply Z.min_glb. }
  fold (turn_limits HZ w d o). destruct (turn_limits HZ w d o) as [w' d'] eqn:Hu.
  pose proof (turn_limits_ok HZ w d o w' d' exc pauses HH Hw Hd Ho Hf Hu) as (Hw' & Hd' & Hf').
  split_if; [intros [= <-]; by apply balance_end_post|].
  destruct Ho as (Hb & Hn & _). rewrite (wrap_small 64 (o_fs_dirty o + _)) by lia.
  pose proof (hmdfs_wb_pause_bounds HZ (o_bandwidth o) _ (proj1 Hb) Hn) as Hp.
  set (w2 := if negb (dirty_exceeded w') then set_exceeded w' true else w').
  assert (Hw2 : wb_ok HZ w2 /\ dirty_exceeded w2 = true).
  { unfold w2. destruct (dirty_exceeded w') eqn:E'; simpl; [done|]. split; [by apply set_exceeded_ok|done]. }
  assert (Hf2 : forall p, loop_flag true w2 (pauses ++ [p])).
  { intros p. split; [|by intros _; apply Hw2]. rewrite bool_decide_eq_false_2; [done|].
    by destruct pauses. }
  split_if.
  - intros [= <-]. apply (balance_post_weaken _ _ _ _ Hp). apply balance_end_post; try done; apply Hw2.
  - intros Hr. apply (balance_post_weaken _ _ _ _ Hp). eapply IH; [done|apply Hw2|done|done|apply Hf2|exact Hr].
Qed.

Lemma balance_loop_returns HZ m2j busy obs : forall w d exc file acts pauses,
  1 <= HZ <= 1024 -> wb_ok HZ w -> limits_ok d -> Forall obs_ok obs ->
  Exists last_turn obs -> is_Some (balance_loop HZ m2j busy obs w d exc file acts pauses).
Proof.
  induction obs as [|o obs IH]; intros w d exc file acts pauses HH Hw Hd Ho He; [by inversion He|].
  apply list.Forall_cons in Ho as [Ho Hos]. cbn [balance_loop].
  split_if; [by eexists|]. split_if; [by eexists|].
  fold (turn_limits HZ w d o). destruct (turn_limits HZ w d o) as [w' d'] eqn:Hu.
  assert (wb_ok HZ w' /\ limits_ok d') as [Hw' Hd'].
  { revert Hu. unfold turn_limits.
    match goal with |- context [if ?b then _ else _] => destruct b end; [|by intros [= <- <-]].
    apply hmdfs_update_dirty_limit_ok; try done. apply Ho. }
  split_if; [by eexists|]. destruct (o_fatal_signal o) eqn:Hsig; [by eexists|].
  apply IH; try done; [destruct (dirty_exceeded w'); simpl; [done|by apply set_exceeded_ok]|].
  inversion He as [? ? [Hz|?]|]; subst; [|congruence|done].
  exfalso. rewrite Hz in *. change (u64 0) with 0 in *. destruct Hd as (_ & ? & _). lia.
Qed.

(** C38: The throttling loop of hmdfs_balance_dirty_pages: it returns as soon as a turn sees
    no dirty page or a fatal signal; every sleep is at least one tick and at most
    HMDFS_MAX_PAUSE; the dirty_exceeded flag afterwards says exactly whether the writer
    slept; the count of dirtied pages is left unreset only by a writer that slept; the
    next polling interval is positive; and the thresholds stay in order. *)
Theorem balance_dirty_pages_correct HZ m2j busy obs w j :
  1 <= HZ <= 1024 -> wb_ok HZ w -> Forall obs_ok obs ->
  (Exists last_turn obs -> is_Some (hmdfs_balance_dirty_pages HZ m2j busy obs w j)) /\
  (forall r, hmdfs_balance_dirty_pages HZ m2j busy obs w j = Some r ->
     wb_ok HZ (br_wb r) /\
     dirty_exceeded (br_wb r) = negb (bool_decide (br_pauses r = [])) /\
     Forall (fun p => 1 <= p <= HMDFS_MAX_PAUSE HZ) (br_pauses r) /\
     (forall n, br_nr_dirtied_pause r = Some n -> 1 <= n) /\
     (br_nr_dirtied_reset r = false -> br_pauses r <> [])).
Proof.
  intros HH Hw Ho. unfold hmdfs_balance_dirty_pages.
  assert (Hd : limits_ok (hmdfs_init_dirty_limit HZ w j)) by (apply hmdfs_init_dirty_limit_ok; apply Hw).
  split; [intros; by apply balance_loop_returns|].
  intros r Hr. apply balance_loop_post in Hr; try done.
  destruct Hr as [? ? (l & Hl & ?) ? ?]. rewrite Hl in *. done.
Qed.

Definition busy_turn (fatal : bool) : observation := mk_obs 30000 2000 100 0 5000 false true 5000 fatal.
Definition idle_turn : observation := mk_obs 0 0 0 0 5000 false false 5001 false.

Lemma balance_dirty_pages_correct_witness :
  exists r, hmdfs_balance_dirty_pages 250 (fun n => n / 4) false
              [busy_turn false; busy_turn false; idle_turn] (default_wb 250) 4000 = Some r /\
    length (br_pauses r) = 2%nat /\
    dirty_exceeded (br_wb r) = negb (bool_decide (br_pauses r = [])).
Proof.
  eexists. split; [vm_compute; reflexivity|]. split; [vm_compute; reflexivity|].
  apply (balance_dirty_pages_correct 250 (fun n => n / 4) false
           [busy_turn false; busy_turn false; idle_turn] (default_wb 250) 4000).
  - lia.
  - apply wb_ok_b_ok. vm_compute. reflexivity.
  - unfold busy_turn, idle_turn. repeat constructor; simpl; lia.
  - vm_compute. reflexivity.
Defined.

(** * The queue of inodes *)

Definition count (b : bool) : Z := if b then 1 else 0.

(** Each inode is queued at most once and holds one reference for its place in the
    queue and one while it is being written. *)
Definition queue_ok (q : wb_queue) : Prop :=
  NoDup (wq_inodes q) /\
  forall i, wq_held q i = count (bool_decide (i ∈ wq_inodes q)) +
                          count (bool_decide (wq_writing q = Some i)).

Lemma queue_step_ok q q' : queue_step q q' -> queue_ok q -> queue_ok q'.
Proof.
  intros Hs [Hn Hh]. destruct Hs as [q i|q q' Hp|q i q' Hw].
  - unfold hmdfs_writeback_inode. case_decide as E; [done|]. split; simpl.
    + apply list.NoDup_app. repeat split; [done| |apply NoDup_singleton].
      intros x Hx ->%list_elem_of_singleton. done.
    + intros j. unfold hold. rewrite Hh. destruct (Z.eqb_spec j i) as [->|Hne].
      * rewrite (bool_decide_eq_false_2 (i ∈ wq_inodes q)) by done.
        rewrite (bool_decide_eq_true_2 (i ∈ wq_inodes q ++ [i])) by set_solver. unfold count. lia.
      * f_equal. f_equal. apply bool_decide_ext. set_solver.
  - unfold handler_pop in Hp. destruct (wq_inodes q) as [|i l] eqn:El; [done|].
    destruct (wq_writing q) eqn:Ew; [done|]. injection Hp as <-. simpl.
    apply list.NoDup_cons in Hn as [Hi Hl]. split; simpl; [done|]. intros j. rewrite Hh.
    destruct (decide (j = i)) as [->|Hne].
    + rewrite (bool_decide_eq_true_2 (i ∈ i :: l)), (bool_decide_eq_false_2 (i ∈ l)) by set_solver.
      rewrite (bool_decide_eq_true_2 (Some i = Some i)) by done. done.
    + rewrite (bool_decide_eq_false_2 (Some i = Some j)) by congruence.
      do 2 f_equal. apply bool_decide_ext. set_solver.
  - unfold handler_write in Hw. destruct (wq_writing q) as [k|] eqn:Ew; [|done].
    injection Hw as -> <-. split; cbn [wq_held wq_inodes wq_writing]; [done|].
    intros j. unfold hold. rewrite Hh.
    rewrite (bool_decide_eq_false_2 (None = Some j)) by done.
    destruct (Z.eqb_spec j i) as [->|Hne].
    + rewrite (bool_decide_eq_true_2 (Some i = Some i)) by done. unfold count. lia.
    + rewrite (bool_decide_eq_false_2 (Some i = Some j)) by congruence. done.
Qed.

Lemma hmdfs_writeback_inode_handler_drains fuel : forall q,
  queue_ok q -> wq_writing q = None -> (length (wq_inodes q) <= fuel)%nat ->
  exists h, hmdfs_writeback_inode_handler fuel q = Some (wq_inodes q, mk_queue [] None h) /\
            forall i, h i = 0.
Proof.
  induction fuel as [|n IH]; intros [l wr h] Hq Hw Hl; simpl in Hw; subst wr.
  - destruct l; simpl in *; [|lia]. exists h. split; [done|]. intros i. exact (proj2 Hq i).
  - destruct l as [|i l]; simpl in *.
    { exists h. split; [done|]. intros j. exact (proj2 Hq j). }
    assert (Hq2 : queue_ok (mk_queue l None (hold h i (-1)))).
    { eapply queue_step_ok; [apply (step_write (mk_queue l (Some i) h) i); reflexivity|].
      eapply queue_step_ok; [apply (step_pop (mk_queue (i :: l) None h)); reflexivity|done]. }
    destruct (IH _ Hq2 eq_refl) as (h' & Hr & Hz); [simpl; lia|].
    exists h'. simpl in Hr. by rewrite Hr.
Qed.

(** However writers queueing inodes and the handler interleave, no inode is queued
    twice and the references held are one per place in the queue plus one for the inode
    being written; the handler left alone writes the queued inodes once each, oldest
    first, and leaves an empty queue that holds no reference. *)
Theorem writeback_queue_correct q :
  rtc queue_step empty_queue q ->
  NoDup (wq_inodes q) /\
  (forall i, wq_held q i = count (bool_decide (i ∈ wq_inodes q)) +
                           count (bool_decide (wq_writing q = Some i))) /\
  (wq_writing q = None -> exists h,
     hmdfs_writeback_inode_handler (length (wq_inodes q)) q
       = Some (wq_inodes q, mk_queue [] None h) /\ forall i, h i = 0).
Proof.
  intros Hr. assert (Hq : queue_ok q).
  { assert (H0 : queue_ok empty_queue) by (split; [constructor|reflexivity]).
    revert H0. clear -Hr. induction Hr; eauto using queue_step_ok. }
  split; [apply Hq|]. split; [apply Hq|]. intros Hw.
  by apply hmdfs_writeback_inode_handler_drains.
Qed.

Lemma writeback_queue_correct_witness :
  let q := hmdfs_writeback_inode (hmdfs_writeback_inode (hmdfs_writeback_inode empty_queue 7) 9) 7 in
  wq_inodes q = [7; 9] /\ NoDup (wq_inodes q).
Proof.
  intros q. split; [vm_compute; reflexivity|].
  apply (writeback_queue_correct q).
  eapply rtc_l; [apply (step_queue empty_queue 7)|].
  eapply rtc_l; [apply (step_queue _ 9)|].
  eapply rtc_l; [apply (step_queue _ 7)|]. apply rtc_refl.
Defined.
