(* ===== verification/NodeEvents.v ===== *)
(** Online and offline events of a peer (comm/connection.c): raw events are queued
    under evt_lock, their synchronous callbacks run in that order under seq_lock, and
    a delayed work runs the asynchronous callbacks, merging an offline, online,
    offline run that is still waiting into one offline. *)
From S2P Require Import Prelude.

(** The last element of a list, if any. *)
Abbreviation lastof := list.last.

(** RAW_NODE_EVT_OFF and RAW_NODE_EVT_ON; [None] is RAW_NODE_EVT_NR. *)
Inductive raw_node_evt := OFF | ON.
#[export] Instance raw_node_evt_dec : EqDecision raw_node_evt.
Proof. solve_decision. Defined.

Definition flip_evt (e : raw_node_evt) : raw_node_evt := match e with OFF => ON | ON => OFF end.

Definition RAW_NODE_EVT_MAX_NR := 4.

(** evt_dwork: not queued, queued, or between its two critical sections. *)
Inductive work_state := WorkIdle | WorkScheduled | WorkRan.

(** The event part of struct hmdfs_peer, and the callbacks run so far, each with its
    event and sequence number. *)
Record peer_evt := mk_peer {
  evt_seq : Z;
  pending_evt : option raw_node_evt;
  last_evt : option raw_node_evt;
  waiting_off : Z;
  waiting_on : Z;
  seq_rd_idx : Z;
  seq_wr_idx : Z;
  seq_tbl : list Z;
  pending_evt_seq : Z;
  merged_evt : Z;
  dup_off : Z;
  dup_on : Z;
  evt_dwork : work_state;
  sync_log : list (raw_node_evt * Z);
  async_log : list (raw_node_evt * Z)
}.

(** alloc_peer. *)
Definition alloc_peer : peer_evt :=
  mk_peer 0 None None 0 0 255 255 [0; 0; 0; 0] 0 0 0 0 WorkIdle [] [].

Definition hmdfs_node_waiting_evt_sum (n : peer_evt) : Z := waiting_off n + waiting_on n.

(** [node->dup_evt[evt]++]. *)
Definition count_dup (n : peer_evt) (evt : raw_node_evt) : peer_evt :=
  mk_peer (evt_seq n) (pending_evt n) (last_evt n) (waiting_off n) (waiting_on n)
    (seq_rd_idx n) (seq_wr_idx n) (seq_tbl n) (pending_evt_seq n) (merged_evt n)
    (match evt with OFF => u32 (dup_off n + 1) | ON => dup_off n end)
    (match evt with OFF => dup_on n | ON => u32 (dup_on n + 1) end)
    (evt_dwork n) (sync_log n) (async_log n).

(** A new sequence number, stored in the table. *)
Definition push_seq (n : peer_evt) : Z * peer_evt :=
  let next := u32 (evt_seq n + 1) in
  (next,
   mk_peer next (pending_evt n) (last_evt n) (waiting_off n) (waiting_on n)
     (seq_rd_idx n) (u8 (seq_wr_idx n + 1))
     (<[Z.to_nat (seq_wr_idx n mod RAW_NODE_EVT_MAX_NR) := next]> (seq_tbl n))
     (pending_evt_seq n) (merged_evt n) (dup_off n) (dup_on n) (evt_dwork n)
     (sync_log n) (async_log n)).

(** hmdfs_node_call_evt_cb, recorded. *)
Definition run_sync_cb (n : peer_evt) (evt : raw_node_evt) (seq : Z) : peer_evt :=
  mk_peer (evt_seq n) (pending_evt n) (last_evt n) (waiting_off n) (waiting_on n)
    (seq_rd_idx n) (seq_wr_idx n) (seq_tbl n) (pending_evt_seq n) (merged_evt n)
    (dup_off n) (dup_on n) (evt_dwork n) (sync_log n ++ [(evt, seq)]) (async_log n).

(** The sequence number of the queued event, or [None] for a duplicate.  The parity of
    the waiting events says which event came last. *)
Definition hmdfs_update_node_waiting_evt (n : peer_evt) (pending evt : raw_node_evt)
    : option Z * peer_evt :=
  let last := if hmdfs_node_waiting_evt_sum n mod 2 =? 0 then pending else flip_evt pending in
  if decide (evt = last) then (None, count_dup n evt)
  else
    let off := match evt with OFF => u8 (waiting_off n + 1) | ON => waiting_off n end in
    let on := match evt with OFF => waiting_on n | ON => u8 (waiting_on n + 1) end in
    let merge := (2 <=? off) && (1 <=? on) in
    let n := mk_peer (evt_seq n) (pending_evt n) (last_evt n)
               (if merge then u8 (off - 1) else off) (if merge then u8 (on - 1) else on)
               (seq_rd_idx n) (if merge then u8 (seq_wr_idx n - 2) else seq_wr_idx n) (seq_tbl n)
               (pending_evt_seq n) (if merge then u32 (merged_evt n + 2) else merged_evt n)
               (dup_off n) (dup_on n) (evt_dwork n) (sync_log n) (async_log n) in
    let '(seq, n) := push_seq n in (Some seq, n).

Definition hmdfs_queue_raw_node_evt (n : peer_evt) (evt : raw_node_evt) : peer_evt :=
  match pending_evt n with
  | None =>
      if decide (Some evt = last_evt n) then count_dup n evt
      else
        let '(seq, n) := push_seq n in
        let n := mk_peer (evt_seq n) (Some evt) (last_evt n) (waiting_off n) (waiting_on n)
                   (seq_rd_idx n) (seq_wr_idx n) (seq_tbl n) seq (merged_evt n)
                   (dup_off n) (dup_on n) WorkScheduled (sync_log n) (async_log n) in
        run_sync_cb n evt seq
  | Some pending =>
      match hmdfs_update_node_waiting_evt n pending evt with
      | (Some seq, n) => run_sync_cb n evt seq
      | (None, n) => n
      end
  end.

(** hmdfs_node_evt_work up to the release of seq_lock. *)
Definition evt_work_run (n : peer_evt) : option peer_evt :=
  match evt_dwork n, pending_evt n, seq_tbl n !! Z.to_nat (seq_rd_idx n mod RAW_NODE_EVT_MAX_NR) with
  | WorkScheduled, Some pending, Some seq =>
      Some (mk_peer (evt_seq n) (pending_evt n) (last_evt n) (waiting_off n) (waiting_on n)
              (u8 (seq_rd_idx n + 1)) (seq_wr_idx n) (seq_tbl n) (pending_evt_seq n) (merged_evt n)
              (dup_off n) (dup_on n) WorkRan (sync_log n) (async_log n ++ [(pending, seq)]))
  | _, _, _ => None
  end.

(** The rest of it, under evt_lock. *)
Definition evt_work_next (n : peer_evt) : option peer_evt :=
  match evt_dwork n, pending_evt n with
  | WorkRan, Some pending =>
      Some (if negb (hmdfs_node_waiting_evt_sum n =? 0) then
        let pending := flip_evt pending in
        mk_peer (evt_seq n) (Some pending) (last_evt n)
          (match pending with OFF => u8 (waiting_off n - 1) | ON => waiting_off n end)
          (match pending with OFF => waiting_on n | ON => u8 (waiting_on n - 1) end)
          (seq_rd_idx n) (seq_wr_idx n) (seq_tbl n)
          (nth (Z.to_nat (seq_rd_idx n mod RAW_NODE_EVT_MAX_NR)) (seq_tbl n) 0)
          (merged_evt n) (dup_off n) (dup_on n) WorkScheduled (sync_log n) (async_log n)
      else
        mk_peer (evt_seq n) None (Some pending) (waiting_off n) (waiting_on n)
          (seq_rd_idx n) (seq_wr_idx n) (seq_tbl n) (pending_evt_seq n) (merged_evt n)
          (dup_off n) (dup_on n) WorkIdle (sync_log n) (async_log n))
  | _, _ => None
  end.

(** Events come at any time, also between the two parts of the work. *)
Inductive evt_step : peer_evt -> peer_evt -> Prop :=
| step_evt n evt : evt_step n (hmdfs_queue_raw_node_evt n evt)
| step_run n n' : evt_work_run n = Some n' -> evt_step n n'
| step_next n n' : evt_work_next n = Some n' -> evt_step n n'.

(** The work alone, until it is no longer scheduled. *)
Fixpoint drain (fuel : nat) (n : peer_evt) : option peer_evt :=
  match evt_dwork n with
  | WorkIdle => Some n
  | WorkScheduled =>
      match fuel with O => None | S fuel => n ← evt_work_run n; drain fuel n end
  | WorkRan =>
      match fuel with O => None | S fuel => n ← evt_work_next n; drain fuel n end
  end.

(** * The sequence table *)

(** The entries [l] start at the read index. *)
Definition ring_ok (tbl : list Z) (rd : Z) (l : list Z) : Prop :=
  length tbl = 4%nat /\ 0 <= rd < 256 /\ (length l <= 4)%nat /\
  forall k s, l !! k = Some s -> tbl !! Z.to_nat ((rd + Z.of_nat k) mod 4) = Some s.

Lemma u8_mod4 z : u8 z mod 4 = z mod 4.
Proof. unfold wrap. change (2 ^ 8) with (4 * 64). rewrite Z.rem_mul_r by lia.
  rewrite Z.mul_comm, Z.mod_add by lia. apply Z.mod_mod. lia. Qed.

Lemma u8_range z : 0 <= u8 z < 256.
Proof. apply (wrap_range 8); lia. Qed.

Lemma ring_push tbl rd l s wr :
  ring_ok tbl rd l -> (length l < 4)%nat -> wr mod 4 = (rd + Z.of_nat (length l)) mod 4 ->
  ring_ok (<[Z.to_nat (wr mod 4) := s]> tbl) rd (l ++ [s]).
Proof.
  intros (Ht&Hrd&Hl&Hk) Hlt Hw. split; [by rewrite length_insert|]. split; [done|].
  split; [rewrite length_app; simpl; lia|]. intros k x Hx. rewrite Hw.
  pose proof (Z.mod_pos_bound (rd + Z.of_nat (length l)) 4 ltac:(lia)).
  pose proof (lookup_lt_Some _ _ _ Hx) as Hkl. rewrite length_app in Hkl. simpl in Hkl.
  destruct (decide (k = length l)) as [->|Hne].
  - rewrite lookup_app_r, Nat.sub_diag in Hx by done. injection Hx as ->.
    apply list_lookup_insert_eq. lia.
  - rewrite lookup_app_l in Hx by lia. rewrite list_lookup_insert_ne; [by apply Hk|].
    pose proof (Z.mod_pos_bound (rd + Z.of_nat k) 4 ltac:(lia)).
    pose proof (Z.div_mod (rd + Z.of_nat (length l)) 4 ltac:(lia)).
    pose proof (Z.div_mod (rd + Z.of_nat k) 4 ltac:(lia)). lia.
Qed.

Lemma ring_pop tbl rd s l :
  ring_ok tbl rd (s :: l) ->
  tbl !! Z.to_nat (rd mod 4) = Some s /\ ring_ok tbl (u8 (rd + 1)) l.
Proof.
  intros (Ht&Hrd&Hl&Hk). split.
  - rewrite <- (Hk 0%nat s eq_refl). by rewrite Z.add_0_r.
  - split; [done|]. split; [apply u8_range|]. split; [simpl in Hl; lia|]. intros k x Hx.
    rewrite <- (Hk (S k) x Hx). do 2 f_equal.
    rewrite Z.add_mod, u8_mod4, <- Z.add_mod by lia. f_equal. lia.
Qed.

Lemma ring_prefix tbl rd l1 l2 : ring_ok tbl rd (l1 ++ l2) -> ring_ok tbl rd l1.
Proof.
  intros (Ht&Hrd&Hl&Hk). rewrite length_app in Hl. split; [done|]. split; [done|].
  split; [lia|]. intros k s Hs. apply Hk. by apply lookup_app_l_Some.
Qed.

(** * The invariant *)

(** No event follows itself. *)
Fixpoint alternating (l : list raw_node_evt) : Prop :=
  match l with
  | a :: (b :: _) as l => a <> b /\ alternating l
  | _ => True
  end.

(** The waiting events behind a pending one: alternating, and merged as soon as an
    offline, online, offline run could be formed. *)
Definition waiting_shapes (pending : raw_node_evt) : list (list raw_node_evt) :=
  match pending with
  | OFF => [[]; [ON]; [ON; OFF]; [ON; OFF; ON]]
  | ON => [[]; [OFF]; [OFF; ON]]
  end.

Definition count_evt (e : raw_node_evt) (ws : list (raw_node_evt * Z)) : Z :=
  Z.of_nat (length (filter (fun w => w.1 = e) ws)).

(** The events whose asynchronous callbacks are still to run: [cur], of which [ws] wait
    behind the pending one. *)
Inductive phase (n : peer_evt) : list (raw_node_evt * Z) -> list (raw_node_evt * Z) -> Prop :=
| phase_idle : pending_evt n = None -> evt_dwork n = WorkIdle ->
    last_evt n = lastof (map fst (async_log n)) -> phase n [] []
| phase_scheduled p s ws : pending_evt n = Some p -> evt_dwork n = WorkScheduled ->
    pending_evt_seq n = s -> map fst ws ∈ waiting_shapes p -> phase n ((p, s) :: ws) ws
| phase_ran p ws : pending_evt n = Some p -> evt_dwork n = WorkRan ->
    lastof (map fst (async_log n)) = Some p -> map fst ws ∈ waiting_shapes p -> phase n ws ws.

Record node_inv_at (n : peer_evt) (cur ws : list (raw_node_evt * Z)) : Prop := {
  inv_phase : phase n cur ws;
  inv_off : waiting_off n = count_evt OFF ws;
  inv_on : waiting_on n = count_evt ON ws;
  inv_ring : ring_ok (seq_tbl n) (seq_rd_idx n) (map snd cur);
  inv_wr : seq_wr_idx n mod 4 = (seq_rd_idx n + Z.of_nat (length cur)) mod 4;
  inv_sub : sublist (async_log n ++ cur) (sync_log n);
  inv_async : alternating (map fst (async_log n ++ cur));
  inv_sync : alternating (map fst (sync_log n));
  inv_last : lastof (map fst (async_log n ++ cur)) = lastof (map fst (sync_log n))
}.

Definition node_inv (n : peer_evt) : Prop := exists cur ws, node_inv_at n cur ws.

Lemma alternating_snoc l x : alternating (l ++ [x]) <-> alternating l /\ lastof l <> Some x.
Proof.
  induction l as [|a l IH]; [split; [done|done]|].
  destruct l as [|b l]; cbn [app alternating list.last].
  - split; [intros [? _]; split; [done|congruence]|]. intros [_ ?]; split; [congruence|done].
  - cbn [app] in IH. rewrite IH. cbn [list.last]. tauto.
Qed.

Lemma alternating_app_l l1 l2 : alternating (l1 ++ l2) -> alternating l1.
Proof.
  revert l1; induction l2 as [|x l2 IH]; intros l1; [by rewrite app_nil_r|].
  change (x :: l2) with ([x] ++ l2). rewrite app_assoc. intros H%IH. by apply alternating_snoc in H as [? _].
Qed.

Lemma flip_neq e x : x <> e -> x = flip_evt e.
Proof. by destruct e, x. Qed.

Lemma last_snoc_map {A B} (f : A -> B) l x : lastof (map f (l ++ [x])) = Some (f x).
Proof. rewrite map_app. apply last_snoc. Qed.

(** Appending the newly queued event to both logs. *)
Lemma logs_snoc (al sl : list (raw_node_evt * Z)) x :
  sublist al sl -> alternating (map fst al) -> alternating (map fst sl) ->
  lastof (map fst al) = lastof (map fst sl) -> lastof (map fst al) <> Some x.1 ->
  sublist (al ++ [x]) (sl ++ [x]) /\ alternating (map fst (al ++ [x])) /\
  alternating (map fst (sl ++ [x])) /\
  lastof (map fst (al ++ [x])) = lastof (map fst (sl ++ [x])).
Proof.
  intros Hs Ha Hb Hl Hx. split; [by apply sublist_app|].
  rewrite !last_snoc_map, !map_app. cbn [map]. rewrite !alternating_snoc, <- Hl. done.
Qed.

(** The same when the last two events not yet announced are merged away. *)
Lemma logs_merge (al sl : list (raw_node_evt * Z)) y z x :
  sublist (al ++ [y; z]) sl -> alternating (map fst (al ++ [y; z])) -> alternating (map fst sl) ->
  lastof (map fst (al ++ [y; z])) = lastof (map fst sl) -> y.1 = x.1 -> z.1 <> x.1 ->
  sublist (al ++ [x]) (sl ++ [x]) /\ alternating (map fst (al ++ [x])) /\
  alternating (map fst (sl ++ [x])) /\
  lastof (map fst (al ++ [x])) = lastof (map fst (sl ++ [x])).
Proof.
  intros Hs Ha Hb Hl Hy Hz. split.
  { apply sublist_app; [|done]. etransitivity; [|exact Hs]. apply sublist_inserts_r. reflexivity. }
  rewrite !last_snoc_map, !map_app. cbn [map]. rewrite !alternating_snoc, <- Hl.
  split; [|split; [|done]].
  - rewrite map_app in Ha. cbn [map] in Ha. change [y.1; z.1] with ([y.1] ++ [z.1]) in Ha.
    rewrite app_assoc, !alternating_snoc in Ha. rewrite <- Hy. tauto.
  - split; [done|]. change [y; z] with ([y] ++ [z]). rewrite app_assoc, last_snoc_map. congruence.
Qed.

(** What queueing [evt] behind a pending [p] and waiting [ws] does to the events still
    to be announced: nothing for a duplicate, otherwise [evt] comes last, and a merge
    first drops the two events before it. *)
Definition merges (ws : list (raw_node_evt * Z)) (evt : raw_node_evt) : bool :=
  match evt with OFF => (1 <=? count_evt OFF ws) && (1 <=? count_evt ON ws) | ON => false end.

Definition kept (ws : list (raw_node_evt * Z)) (evt : raw_node_evt) : list (raw_node_evt * Z) :=
  if merges ws evt then take (length ws - 2) ws else ws.

Ltac shape_cases p ws H :=
  destruct p; cbn [waiting_shapes] in H;
  repeat (apply elem_of_cons in H as [H|H]; [|]); try (by apply elem_of_nil in H);
  (destruct ws as [|[? ?] [|[? ?] [|[? ?] [|? ?]]]]; try discriminate H);
  cbn [map fst] in H; simplify_eq.

Lemma update_waiting_spec n p ws evt :
  map fst ws ∈ waiting_shapes p -> waiting_off n = count_evt OFF ws -> waiting_on n = count_evt ON ws ->
  hmdfs_update_node_waiting_evt n p evt
  = if decide (lastof (p :: map fst ws) = Some evt) then (None, count_dup n evt)
    else
      let n' := (push_seq (mk_peer (evt_seq n) (pending_evt n) (last_evt n)
                  (count_evt OFF (kept ws evt ++ [(evt, 0)])) (count_evt ON (kept ws evt ++ [(evt, 0)]))
                  (seq_rd_idx n)
                  (if merges ws evt then u8 (seq_wr_idx n - 2) else seq_wr_idx n) (seq_tbl n)
                  (pending_evt_seq n)
                  (if merges ws evt then u32 (merged_evt n + 2) else merged_evt n)
                  (dup_off n) (dup_on n) (evt_dwork n) (sync_log n) (async_log n))) in
      (Some n'.1, n'.2).
Proof.
  intros Hs Ho Hn. unfold hmdfs_update_node_waiting_evt, hmdfs_node_waiting_evt_sum.
  rewrite Ho, Hn. clear Ho Hn. shape_cases p ws Hs; destruct evt; reflexivity.
Qed.

Lemma kept_shape p ws evt seq :
  map fst ws ∈ waiting_shapes p -> lastof (p :: map fst ws) <> Some evt ->
  map fst (kept ws evt ++ [(evt, seq)]) ∈ waiting_shapes p.
Proof. intros Hs Hl. shape_cases p ws Hs; destruct evt; cbn in *; try done; set_solver. Qed.

(** A merge drops an offline and the online behind it. *)
Lemma kept_split p ws evt :
  map fst ws ∈ waiting_shapes p -> lastof (p :: map fst ws) <> Some evt ->
  if merges ws evt then exists y z, ws = kept ws evt ++ [y; z] /\ y.1 = evt /\ z.1 <> evt
  else kept ws evt = ws.
Proof.
  intros Hs Hl. shape_cases p ws Hs; destruct evt; cbn in *; try done;
    (do 2 eexists; split; [reflexivity|done]).
Qed.

Lemma kept_length p ws evt :
  map fst ws ∈ waiting_shapes p -> lastof (p :: map fst ws) <> Some evt ->
  (length (kept ws evt) <= 2)%nat.
Proof. intros Hs Hl. shape_cases p ws Hs; destruct evt; vm_compute in Hl |- *; congruence || lia. Qed.

Lemma count_evt_seq e ws x s s' : count_evt e (ws ++ [(x, s)]) = count_evt e (ws ++ [(x, s')]).
Proof. unfold count_evt. rewrite !list.filter_app, !length_app. cbn. by case_decide. Qed.

Lemma count_evt_cons e x s ws :
  count_evt e ((x, s) :: ws) = (if decide (x = e) then 1 else 0) + count_evt e ws.
Proof. unfold count_evt. rewrite filter_cons. cbn [fst]. case_decide; cbn [length]; lia. Qed.

Lemma count_evt_nonneg e ws : 0 <= count_evt e ws.
Proof. unfold count_evt. lia. Qed.

Lemma wr_back rd wr n :
  wr mod 4 = (rd + Z.of_nat (n + 2)) mod 4 -> u8 (wr - 2) mod 4 = (rd + Z.of_nat n) mod 4.
Proof.
  intros H. rewrite u8_mod4, Zminus_mod, H, <- Zminus_mod. f_equal. lia.
Qed.

Lemma wr_forth rd wr n :
  wr mod 4 = (rd + Z.of_nat n) mod 4 -> u8 (wr + 1) mod 4 = (rd + Z.of_nat (n + 1)) mod 4.
Proof. intros H. rewrite u8_mod4, Z.add_mod, H, <- Z.add_mod by lia. f_equal. lia. Qed.

(** The events to announce are [pre] (the pending one while it is scheduled) and then
    the waiting ones. *)
Lemma phase_waiting n cur ws p :
  phase n cur ws -> pending_evt n = Some p ->
  exists pre, cur = pre ++ ws /\ (length pre <= 1)%nat /\ map fst ws ∈ waiting_shapes p /\
    lastof (map fst (async_log n ++ pre)) = Some p /\
    (forall n' ws', pending_evt n' = Some p -> evt_dwork n' = evt_dwork n ->
       pending_evt_seq n' = pending_evt_seq n -> async_log n' = async_log n ->
       map fst ws' ∈ waiting_shapes p -> phase n' (pre ++ ws') ws').
Proof.
  intros Hp E. destruct Hp as [Hn|p' s ws Hp Hw Hs Hsh|p' ws Hp Hw Hl Hsh]; [congruence|..];
    rewrite E in Hp; injection Hp as <-.
  - exists [(p, s)]. split; [done|]. split; [simpl; lia|]. split; [done|].
    split; [by rewrite last_snoc_map|]. intros. apply (phase_scheduled _ p); congruence.
  - exists []. split; [done|]. split; [simpl; lia|]. split; [done|].
    rewrite app_nil_r. split; [done|]. intros. apply (phase_ran _ p); congruence.
Qed.

Lemma last_app_waiting (al pre ws : list (raw_node_evt * Z)) p :
  lastof (map fst (al ++ pre)) = Some p ->
  lastof (map fst (al ++ pre ++ ws)) = lastof (p :: map fst ws).
Proof.
  intros Hl. rewrite app_assoc, map_app. destruct ws as [|w ws] using rev_ind.
  - cbn. by rewrite app_nil_r.
  - rewrite (map_app fst ws [w]). cbn [map]. rewrite app_assoc, app_comm_cons. by rewrite !last_snoc.
Qed.

Lemma queue_waiting_inv n p evt :
  node_inv n -> pending_evt n = Some p -> node_inv (hmdfs_queue_raw_node_evt n evt).
Proof.
  intros (cur&ws&[Hph Hoff Hon Hring Hwr Hsub Ha Hs Hl]) E. unfold hmdfs_queue_raw_node_evt.
  rewrite E. destruct (phase_waiting _ _ _ _ Hph E) as (pre&->&Hpre&Hsh&Hlp&Hnew).
  rewrite (update_waiting_spec n p ws evt) by done.
  assert (lastof (map fst (async_log n ++ pre ++ ws)) = lastof (p :: map fst ws)) as Hlast
    by (by apply last_app_waiting).
  destruct (decide _) as [Hd|Hd].
  { exists (pre ++ ws), ws. split; try done. by apply Hnew. }
  set (seq := u32 (evt_seq n + 1)). exists (pre ++ kept ws evt ++ [(evt, seq)]), (kept ws evt ++ [(evt, seq)]).
  assert (Hlogs : let al := async_log n ++ pre ++ kept ws evt ++ [(evt, seq)] in
    let sl := sync_log n ++ [(evt, seq)] in
    sublist al sl /\ alternating (map fst al) /\ alternating (map fst sl) /\
    lastof (map fst al) = lastof (map fst sl)).
  { cbn zeta. rewrite !app_assoc. pose proof (kept_split p ws evt Hsh Hd) as Hk.
    destruct (merges ws evt).
    - destruct Hk as (y&z&Hws&Hy&Hz). rewrite Hws, !app_assoc in Hsub, Ha, Hl.
      by apply (logs_merge _ _ y z).
    - rewrite Hk in *. rewrite app_assoc in Hsub, Ha, Hl, Hlast.
      apply logs_snoc; try done. cbn [fst]. by rewrite Hlast. }
  pose proof (kept_length p ws evt Hsh Hd) as Hkl.
  pose proof (kept_split p ws evt Hsh Hd) as Hk.
  assert (Hring' : ring_ok (seq_tbl n) (seq_rd_idx n) (map snd (pre ++ kept ws evt)) /\
    (if merges ws evt then u8 (seq_wr_idx n - 2) else seq_wr_idx n) mod 4
    = (seq_rd_idx n + Z.of_nat (length (pre ++ kept ws evt))) mod 4).
  { destruct (merges ws evt); [|by rewrite Hk].
    destruct Hk as (y&z&Hws&_). rewrite Hws, app_assoc in Hring, Hwr. split.
    - rewrite map_app in Hring. by apply ring_prefix in Hring.
    - apply wr_back. by rewrite length_app in Hwr. }
  destruct Hring' as [Hr' Hw'].
  split; cbn [run_sync_cb push_seq fst snd waiting_off waiting_on seq_tbl seq_rd_idx seq_wr_idx
              async_log sync_log]; try apply Hlogs.
  - apply Hnew; try done. by eapply kept_shape.
  - apply count_evt_seq.
  - apply count_evt_seq.
  - rewrite app_assoc, map_app. cbn [map snd]. unfold RAW_NODE_EVT_MAX_NR. apply ring_push.
    + done.
    + rewrite length_map, length_app. lia.
    + by rewrite length_map.
  - rewrite app_assoc, length_app. by apply wr_forth.
Qed.

Lemma queue_idle_inv n evt :
  node_inv n -> pending_evt n = None -> node_inv (hmdfs_queue_raw_node_evt n evt).
Proof.
  intros (cur&ws&[Hph Hoff Hon Hring Hwr Hsub Ha Hs Hl]) E. unfold hmdfs_queue_raw_node_evt.
  rewrite E. inversion Hph as [_ Hi Hlast| |]; subst; try congruence. clear Hph.
  destruct (decide (Some evt = last_evt n)) as [Hd|Hd].
  { exists [], []. split; try done. by apply phase_idle. }
  set (seq := u32 (evt_seq n + 1)). exists [(evt, seq)], [].
  rewrite app_nil_r in *.
  destruct (logs_snoc (async_log n) (sync_log n) (evt, seq)) as (?&?&?&?); [done..|cbn [fst]; congruence|].
  split; cbn [run_sync_cb push_seq fst snd waiting_off waiting_on seq_tbl seq_rd_idx seq_wr_idx
              async_log sync_log]; try done.
  - by apply phase_scheduled; [..|destruct evt; cbn; left].
  - cbn [map]. apply (ring_push _ _ [] seq (seq_wr_idx n)); [done|simpl; lia|done].
  - by apply (wr_forth _ _ 0).
Qed.

Lemma work_run_inv n n' : node_inv n -> evt_work_run n = Some n' -> node_inv n'.
Proof.
  intros (cur&ws&[Hph Hoff Hon Hring Hwr Hsub Ha Hs Hl]) Hr. unfold evt_work_run in Hr.
  destruct Hph as [? Hi ?|p s ws Hp Hw Hseq Hsh|p ws Hp Hw ? ?]; rewrite ?Hi, ?Hw, ?Hp in Hr; try done.
  apply ring_pop in Hring as [Hrd Hring]. unfold RAW_NODE_EVT_MAX_NR in Hr. rewrite Hrd in Hr.
  injection Hr as <-. exists ws, ws.
  split; cbn; rewrite ?app_assoc_reverse; try done.
  - apply (phase_ran _ p); try done. cbn. by rewrite last_snoc_map.
  - rewrite Hwr, Z.add_mod, (Z.add_mod (u8 _)), u8_mod4, <- !Z.add_mod by lia.
    f_equal. cbn [length]. lia.
Qed.

Lemma work_next_inv n n' : node_inv n -> evt_work_next n = Some n' -> node_inv n'.
Proof.
  intros (cur&ws&[Hph Hoff Hon Hring Hwr Hsub Ha Hs Hl]) Hr. unfold evt_work_next in Hr.
  destruct Hph as [? Hi ?|p s ws Hp Hw Hseq Hsh|p ws Hp Hw Hla Hsh]; rewrite ?Hi, ?Hw, ?Hp in Hr; try done.
  injection Hr as <-. unfold hmdfs_node_waiting_evt_sum. rewrite Hoff, Hon.
  destruct ws as [|[e s] ws].
  - exists [], []. rewrite app_nil_r in *. split; cbn; rewrite ?app_nil_r; try done.
    by apply phase_idle.
  - assert (e = flip_evt p /\ map fst ws ∈ waiting_shapes e) as [-> Hsh'].
    { clear -Hsh. shape_cases p ws Hsh; set_solver. }
    assert (count_evt OFF ((flip_evt p, s) :: ws) + count_evt ON ((flip_evt p, s) :: ws) <> 0) as Hne
      by (rewrite !count_evt_cons; pose proof (count_evt_nonneg OFF ws);
          pose proof (count_evt_nonneg ON ws); destruct p; cbn [flip_evt];
          repeat case_decide; congruence || lia).
    rewrite (proj2 (Z.eqb_neq _ 0) Hne). cbn [negb].
    exists ((flip_evt p, s) :: ws), ws. pose proof (ring_pop _ _ _ _ Hring) as [Hrd _].
    split; cbn [waiting_off waiting_on seq_tbl seq_rd_idx seq_wr_idx async_log sync_log]; try done.
    + apply phase_scheduled; try done. cbn. by rewrite (nth_lookup_Some _ _ _ _ Hrd).
    + clear -Hsh'. shape_cases p ws Hsh'; reflexivity.
    + clear -Hsh'. shape_cases p ws Hsh'; reflexivity.
Qed.

Lemma evt_step_inv n n' : node_inv n -> evt_step n n' -> node_inv n'.
Proof.
  intros Hn Hs. destruct Hs as [n evt|n n' Hr|n n' Hr].
  - destruct (pending_evt n) eqn:E; [by eapply queue_waiting_inv|by apply queue_idle_inv].
  - by eapply work_run_inv.
  - by eapply work_next_inv.
Qed.

Lemma alloc_peer_inv : node_inv alloc_peer.
Proof.
  exists [], []. split; try done; [by apply phase_idle|].
  split; [done|]. split; [cbn; lia|]. split; [cbn; lia|]. intros k s Hk. by destruct k.
Qed.

Lemma reachable_node_inv n : rtc evt_step alloc_peer n -> node_inv n.
Proof.
  pose proof alloc_peer_inv as H0. intros Hr. revert H0. induction Hr; eauto using evt_step_inv.
Qed.

(** Turns of the work still to go. *)
Definition work_left (n : peer_evt) : nat :=
  match evt_dwork n with
  | WorkIdle => 0
  | WorkScheduled => 2 + 2 * Z.to_nat (hmdfs_node_waiting_evt_sum n)
  | WorkRan => 1 + 2 * Z.to_nat (hmdfs_node_waiting_evt_sum n)
  end.

Lemma work_step n :
  node_inv n -> evt_dwork n <> WorkIdle ->
  exists n', (evt_work_run n = Some n' \/ evt_work_next n = Some n') /\
    node_inv n' /\ sync_log n' = sync_log n /\ (work_left n' < work_left n)%nat /\
    (forall k, drain (S k) n = drain k n').
Proof.
  intros Hn Hw. pose proof Hn as (cur&ws&[Hph Hoff Hon Hring _ _ _ _ _]).
  destruct Hph as [? Hi ?|p s ws Hp Hd Hseq Hsh|p ws Hp Hd Hla Hsh]; [done|..].
  - assert (exists n', evt_work_run n = Some n') as [n' Hr].
    { apply ring_pop in Hring as [Hrd _]. unfold evt_work_run, RAW_NODE_EVT_MAX_NR.
      rewrite Hd, Hp, Hrd. by eexists. }
    exists n'. split; [by left|]. split; [by eapply work_run_inv|].
    pose proof Hr as Hr'. unfold evt_work_run in Hr'. rewrite Hd, Hp in Hr'.
    destruct (seq_tbl n !! _); [|done]. injection Hr' as <-. split; [done|]. split.
    + unfold work_left. rewrite Hd. cbn. unfold hmdfs_node_waiting_evt_sum. cbn. lia.
    + intros k. cbn [drain]. rewrite Hd, Hr. done.
  - assert (exists n', evt_work_next n = Some n') as [n' Hr].
    { unfold evt_work_next. rewrite Hd, Hp. by eexists. }
    exists n'. split; [by right|]. split; [by eapply work_next_inv|].
    pose proof Hr as Hr'. unfold evt_work_next in Hr'. rewrite Hd, Hp in Hr'.
    injection Hr' as <-. split; [by split_if|]. split.
    + unfold work_left. rewrite Hd. unfold hmdfs_node_waiting_evt_sum. rewrite Hoff, Hon.
      clear -Hsh Hoff Hon. shape_cases p ws Hsh; vm_compute; lia.
    + intros k. cbn [drain]. rewrite Hd, Hr. done.
Qed.

Lemma drain_ends k : forall n,
  node_inv n -> (work_left n <= k)%nat ->
  exists n', drain k n = Some n' /\ node_inv n' /\ evt_dwork n' = WorkIdle /\ sync_log n' = sync_log n.
Proof.
  induction k as [|k IH]; intros n Hn Hk.
  - exists n. unfold work_left in Hk. cbn [drain]. destruct (evt_dwork n) eqn:E; [done|lia|lia].
  - destruct (evt_dwork n) eqn:E; [exists n; cbn [drain]; by rewrite E|..].
    all: destruct (work_step n Hn ltac:(congruence)) as (n1&_&Hn1&Hs1&Hlt&Hdr);
      rewrite Hdr; destruct (IH n1 Hn1 ltac:(lia)) as (n'&?&?&?&?); exists n';
      (split; [done|]); (split; [done|]); (split; [done|]); congruence.
Qed.

(** C36: However raw events and the work interleave: neither kind of callback ever sees the
    same event twice in a row; the asynchronous callbacks run for events whose
    synchronous callback has run, in that order and with the same sequence numbers;
    at most three events wait and the four-entry sequence table is never overrun; and the
    work left alone ends within eight turns with the asynchronous side at the state the
    synchronous side announced last, ready to drop a repeated event. *)
Theorem node_events_correct n :
  rtc evt_step alloc_peer n ->
  alternating (map fst (sync_log n)) /\ alternating (map fst (async_log n)) /\
  sublist (async_log n) (sync_log n) /\
  0 <= hmdfs_node_waiting_evt_sum n <= 3 /\
  (exists n', drain 8 n = Some n' /\ evt_dwork n' = WorkIdle /\ sync_log n' = sync_log n /\
     lastof (map fst (async_log n')) = lastof (map fst (sync_log n)) /\
     last_evt n' = lastof (map fst (sync_log n))).
Proof.
  intros Hr. apply reachable_node_inv in Hr as Hn.
  assert (Hsum : 0 <= hmdfs_node_waiting_evt_sum n <= 3).
  { destruct Hn as (cur&ws&[Hph Hoff Hon _ _ _ _ _ _]). unfold hmdfs_node_waiting_evt_sum.
    rewrite Hoff, Hon. destruct Hph as [| p s ws _ _ _ Hsh|p ws _ _ _ Hsh]; [vm_compute; split; congruence|..];
      clear -Hsh; shape_cases p ws Hsh; vm_compute; split; congruence. }
  destruct (drain_ends 8 n Hn) as (n'&Hd&Hn'&Hi&Hs').
  { unfold work_left. destruct (evt_dwork n); lia. }
  destruct Hn as (cur&ws&[_ _ _ _ _ Hsub Ha Hs _]).
  split; [done|]. split; [rewrite map_app in Ha; by eapply alternating_app_l|].
  split; [etransitivity; [|exact Hsub]; by apply sublist_inserts_r|]. split; [done|].
  exists n'. split; [done|]. split; [done|]. split; [done|].
  destruct Hn' as (cur'&ws'&[Hph' _ _ _ _ _ _ _ Hl']).
  inversion Hph' as [? ? Hle| |]; subst; try congruence.
  rewrite app_nil_r, Hs' in Hl'. rewrite Hle. done.
Qed.

Lemma queue_steps l : forall n, rtc evt_step n (foldl hmdfs_queue_raw_node_evt n l).
Proof. induction l as [|e l IH]; intros n; [apply rtc_refl|]. eapply rtc_l; [apply step_evt|apply IH]. Qed.

(** Offline, online, offline while the work for the first online waits: the merged pair is
    not announced asynchronously. *)
Lemma node_events_correct_witness :
  let n := foldl hmdfs_queue_raw_node_evt alloc_peer [ON; OFF; ON; OFF] in
  rtc evt_step alloc_peer n /\ merged_evt n = 2 /\
  (async_log <$> drain 8 n) = Some [(ON, 1); (OFF, 4)] /\
  alternating (map fst (sync_log n)).
Proof.
  split; [apply queue_steps|]. split; [vm_compute; reflexivity|]. split; [vm_compute; reflexivity|].
  apply (node_events_correct _ (queue_steps [ON; OFF; ON; OFF] alloc_peer)).
Defined.
