(* ===== verification/Handshake.v ===== *)
(** The handshake of a connection (comm/connection.c): the extension fields both sides
    append to their handshake messages, parsing them out of a received message, and the
    state machine of the handshake messages. *)
From S2P Require Import Prelude Protocol.

Open Scope string_scope.
Open Scope list_scope.
Open Scope Z_scope.

(** * Layouts *)

Definition connection_msg_head : layout :=
  [("magic", 1%nat); ("version", 1%nat); ("operations", 1%nat); ("flags", 1%nat);
   ("datasize", 4%nat); ("source", 8%nat); ("msg_id", 2%nat); ("request_id", 2%nat);
   ("reserved1", 4%nat)].
Definition connection_handshake_req : layout := [("len", 4%nat)].
Definition conn_hs_extend_head : layout := [("field_cn", 4%nat)].
Definition extend_field_head : layout := [("code", 2%nat); ("len", 2%nat)].
Definition crypto_body : layout := [("crypto", 4%nat)].
Definition case_sense_body : layout := [("case_sensitive", 1%nat)].
Definition feature_body : layout := [("features", 8%nat); ("reserved", 8%nat)].

Definition HS_EXTEND_CODE_CRYPTO := 0.
Definition HS_EXTEND_CODE_CASE_SENSE := 1.
Definition HS_EXTEND_CODE_FEATURE_SUPPORT := 2.
Definition HS_EXTEND_CODE_COUNT := 3.
Definition HMDFS_HS_CRYPTO_KTLS_AES128 := 1.
Definition CONNECT_MESG_HANDSHAKE_REQUEST := 1.
Definition CONNECT_MESG_HANDSHAKE_RESPONSE := 2.
Definition CONNECT_MESG_HANDSHAKE_ACK := 3.
Definition CONNECT_STAT_WORKING := 2.
Definition CONNECT_STAT_WAIT_ACK := 4.
Definition CONNECT_STAT_NEGO_FAIL := 5.

(** What the two sides of a connection remember: the negotiated crypto, the peer's
    features and version, the local settings, the connection's status, and whether the peer is
    shaking hands (as opposed to its other states). *)
Record hs_conn := mk_conn {
  hc_crypto : Z;
  hc_features : Z;
  hc_version : Z;
  hc_status : Z;
  hc_shaking : bool;
  s_case_sensitive : bool;
  s_features : Z
}.

Definition set_crypto (c : hs_conn) (v : Z) : hs_conn :=
  mk_conn v (hc_features c) (hc_version c) (hc_status c) (hc_shaking c) (s_case_sensitive c)
    (s_features c).
Definition set_features (c : hs_conn) (v : Z) : hs_conn :=
  mk_conn (hc_crypto c) v (hc_version c) (hc_status c) (hc_shaking c) (s_case_sensitive c)
    (s_features c).
Definition set_status (c : hs_conn) (v : Z) : hs_conn :=
  mk_conn (hc_crypto c) (hc_features c) (hc_version c) v (hc_shaking c) (s_case_sensitive c)
    (s_features c).

(** * Filling *)

(** A write to field [f] of the struct at offset [off]. *)
Definition put_at (off : nat) (st : layout) (f : string) (v : Z) (msg : bytes) : bytes :=
  take off msg ++ put st f v (drop off msg).

Definition hs_fill_crypto_data (c : hs_conn) (off : nat) (len : Z) (msg : bytes) : bytes :=
  if len <? sizeof crypto_body then msg
  else
    let old := default 0 (fld crypto_body (drop off msg) "crypto") in
    put_at off crypto_body "crypto" (Z.lor old HMDFS_HS_CRYPTO_KTLS_AES128) msg.

Definition hs_fill_case_sense_data (c : hs_conn) (off : nat) (len : Z) (msg : bytes) : bytes :=
  if len <? sizeof case_sense_body then msg
  else put_at off case_sense_body "case_sensitive" (if s_case_sensitive c then 1 else 0) msg.

Definition hs_fill_feature_data (c : hs_conn) (off : nat) (len : Z) (msg : bytes) : bytes :=
  if len <? sizeof feature_body then msg
  else put_at off feature_body "reserved" 0
         (put_at off feature_body "features" (s_features c) msg).

(** * Parsing *)

(** A parser's answer: its return value and the connection, or a read outside the data. *)
Inductive hs_result := HsDone (ret : Z) (c : hs_conn) | HsOutside | HsNoFuel.

Definition hs_parse_crypto_data (c : hs_conn) (body : bytes) (len : Z) : hs_result :=
  if len <? sizeof crypto_body then HsDone (-1) c
  else match fld crypto_body body "crypto" with
       | Some v => HsDone 0 (set_crypto c (u16 v))
       | None => HsOutside
       end.

Definition hs_parse_case_sense_data (c : hs_conn) (body : bytes) (len : Z) : hs_result :=
  let sensitive := if s_case_sensitive c then 1 else 0 in
  if len <? sizeof case_sense_body then HsDone (-1) c
  else match fld case_sense_body body "case_sensitive" with
       | Some v => if negb (v =? sensitive) then HsDone (-1) c else HsDone 0 c
       | None => HsOutside
       end.

Definition hs_parse_feature_data (c : hs_conn) (body : bytes) (len : Z) : hs_result :=
  if len <? sizeof feature_body then HsDone (-1) c
  else match fld feature_body body "features" with
       | Some v => HsDone 0 (set_features c v)
       | None => HsOutside
       end.

(** The table of extension fields: length, filler, parser. *)
Record conn_hs_extend_reg := mk_reg {
  reg_len : Z;
  reg_filler : hs_conn -> nat -> Z -> bytes -> bytes;
  reg_parser : hs_conn -> bytes -> Z -> hs_result
}.

Definition s_hs_extend_reg (code : Z) : option conn_hs_extend_reg :=
  if code =? HS_EXTEND_CODE_CRYPTO then
    Some (mk_reg (sizeof crypto_body) hs_fill_crypto_data hs_parse_crypto_data)
  else if code =? HS_EXTEND_CODE_CASE_SENSE then
    Some (mk_reg (sizeof case_sense_body) hs_fill_case_sense_data hs_parse_case_sense_data)
  else if code =? HS_EXTEND_CODE_FEATURE_SUPPORT then
    Some (mk_reg (sizeof feature_body) hs_fill_feature_data hs_parse_feature_data)
  else None.

Definition hs_get_extend_data_len : Z :=
  foldl (fun len code =>
           len + sizeof extend_field_head + from_option reg_len 0 (s_hs_extend_reg code))
    (sizeof conn_hs_extend_head) [0; 1; 2].

(** The loop of hs_fill_extend_data from field [i]; [off] is the offset within the
    extension data, which starts at [base] of the message. *)
Fixpoint fill_fields (n : nat) (i : Z) (c : hs_conn) (base : nat) (len off : Z) (cn : Z) (msg : bytes)
    : Z * bytes :=
  match n with
  | O => (cn, msg)
  | S n =>
      if u32 (len - off) <? sizeof extend_field_head then (cn, msg)
      else
        let field := (base + Z.to_nat off)%nat in
        let off := off + sizeof extend_field_head in
        match s_hs_extend_reg i with
        | None => (cn, msg)
        | Some reg =>
            if u32 (len - off) <? reg_len reg then (cn, msg)
            else
              let body := (base + Z.to_nat off)%nat in
              let off := off + reg_len reg in
              let msg := put_at field extend_field_head "code" i msg in
              let msg := put_at field extend_field_head "len" (reg_len reg) msg in
              let msg := reg_filler reg c body (reg_len reg) msg in
              fill_fields n (i + 1) c base len off (cn + 1) msg
        end
  end.

Definition hs_fill_extend_data (c : hs_conn) (base : nat) (len : Z) (msg : bytes) : bytes :=
  if len <? sizeof conn_hs_extend_head then msg
  else
    let '(cn, msg) := fill_fields 3 0 c base len (sizeof conn_hs_extend_head) 0
                        (put_at base conn_hs_extend_head "field_cn" 0 msg) in
    put_at base conn_hs_extend_head "field_cn" cn msg.

(** The message of do_send_handshake behind its head: the id "0", and the extension for a
    response or an acknowledgement. *)
Definition handshake_data (c : hs_conn) (ops : Z) : bytes :=
  let id := [48] in
  let req := put connection_handshake_req "len" 1 (replicate (size_of connection_handshake_req) 0) ++ id in
  if (ops =? CONNECT_MESG_HANDSHAKE_RESPONSE) || (ops =? CONNECT_MESG_HANDSHAKE_ACK) then
    hs_fill_extend_data c (length req) hs_get_extend_data_len
      (req ++ replicate (Z.to_nat hs_get_extend_data_len) 0)
  else req.

(** The loop of hs_parse_extend_data; every turn consumes a field head. *)
Fixpoint parse_fields (fuel : nat) (i field_cnt : Z) (c : hs_conn) (data : bytes) (extend_len off : Z)
    : hs_result :=
  if negb (i <? field_cnt) then HsDone 0 c
  else
    match fuel with
    | O => HsNoFuel
    | S fuel =>
        if u32 (extend_len - off) <? sizeof extend_field_head then HsDone (-1) c
        else
          let field := drop (Z.to_nat off) data in
          let off := u32 (off + sizeof extend_field_head) in
          match fld extend_field_head field "code", fld extend_field_head field "len" with
          | Some code, Some len =>
              if u32 (extend_len - off) <? len then HsDone (-1) c
              else
                let body := drop (Z.to_nat off) data in
                let off := u32 (off + len) in
                match s_hs_extend_reg code with
                | Some reg =>
                    match reg_parser reg c body len with
                    | HsDone 0 c => parse_fields fuel (i + 1) field_cnt c data extend_len off
                    | r => r
                    end
                | None => parse_fields fuel (i + 1) field_cnt c data extend_len off
                end
          | _, _ => HsOutside
          end
    end.

Definition hs_parse_extend_data (c : hs_conn) (data : bytes) (extend_len : Z) : hs_result :=
  if extend_len <? sizeof conn_hs_extend_head then HsDone (-1) c
  else
    match fld conn_hs_extend_head data "field_cn" with
    | Some field_cnt =>
        parse_fields (S (length data)) 0 field_cnt c data extend_len (sizeof conn_hs_extend_head)
    | None => HsOutside
    end.

(** [data] is [None] for a NULL pointer. *)
Definition hs_proc_msg_data (c : hs_conn) (data : option bytes) (data_len : Z) : hs_result :=
  match data with
  | None => HsDone (-1) c
  | Some data =>
      if data_len <? sizeof connection_handshake_req then HsDone (-1) c
      else
        match fld connection_handshake_req data "len" with
        | Some req_len =>
            if u32 (data_len - sizeof connection_handshake_req) <? req_len then HsDone (-1) c
            else
              let extend_len := u32 (data_len - sizeof connection_handshake_req - req_len) in
              hs_parse_extend_data c
                (drop (Z.to_nat (sizeof connection_handshake_req + req_len)) data) extend_len
        | None => HsOutside
        end
  end.

(** * The messages *)

(** What handling a handshake message does besides changing the state. *)
Inductive hs_action := SendHandshake (ops request_id : Z) | PeerOnline | NotifyOffline.

(** [data] is the message behind its head, [tls_ok] the outcome of setting up the keys; the outer
    [None] is a read outside the data. *)
Definition connection_handshake_recv_handler (c : hs_conn) (version ops msg_id : Z)
    (data : option bytes) (data_len : Z) (tls_ok : bool) : option (hs_conn * list hs_action) :=
  if negb (version =? HMDFS_VERSION) then Some (c, [])
  else
    let c := mk_conn (hc_crypto c) (hc_features c) version (hc_status c) (hc_shaking c)
               (s_case_sensitive c) (s_features c) in
    let negotiate (send : list hs_action) :=
      match hs_proc_msg_data c data data_len with
      | HsDone ret c =>
          if negb (ret =? 0) then Some (set_status c CONNECT_STAT_NEGO_FAIL, [NotifyOffline])
          else if negb tls_ok then Some (c, send)
          else Some (set_status c CONNECT_STAT_WORKING, send ++ [PeerOnline])
      | _ => None
      end in
    if ops =? CONNECT_MESG_HANDSHAKE_REQUEST then
      Some (mk_conn (hc_crypto c) (hc_features c) (hc_version c) CONNECT_STAT_WAIT_ACK true
              (s_case_sensitive c) (s_features c),
            [SendHandshake CONNECT_MESG_HANDSHAKE_RESPONSE msg_id])
    else if ops =? CONNECT_MESG_HANDSHAKE_RESPONSE then
      negotiate [SendHandshake CONNECT_MESG_HANDSHAKE_ACK msg_id]
    else if ops =? CONNECT_MESG_HANDSHAKE_ACK then negotiate []
    else Some (c, []).

(** * Safety of the parser *)

Lemma reg_parser_done code reg c body len :
  s_hs_extend_reg code = Some reg -> len <= Z.of_nat (length body) ->
  exists ret c', reg_parser reg c body len = HsDone ret c'.
Proof.
  intros Hr Hl.
  assert (Hfld : forall st f, is_Some (field_at st f) -> sizeof st <= len ->
            is_Some (fld st body f)).
  { intros st f Hf Hs. apply fld_some; [done|]. unfold sizeof in Hs. lia. }
  unfold s_hs_extend_reg in Hr.
  repeat (split_if_in Hr; [injection Hr as <-; cbn [reg_parser]|]); [..|done].
  all: unfold hs_parse_crypto_data, hs_parse_case_sense_data, hs_parse_feature_data;
    split_if; [by do 2 eexists|].
  - destruct (Hfld crypto_body "crypto") as [v ->]; [by eexists|done|]. by do 2 eexists.
  - destruct (Hfld case_sense_body "case_sensitive") as [v ->]; [by eexists|done|].
    split_if; by do 2 eexists.
  - destruct (Hfld feature_body "features") as [v ->]; [by eexists|done|]. by do 2 eexists.
Qed.

Lemma parse_fields_done fuel : forall i cnt c data extend_len off,
  Forall is_byte data -> extend_len = Z.of_nat (length data) -> extend_len < 2 ^ 32 ->
  0 <= off <= extend_len -> extend_len - off < Z.of_nat fuel ->
  exists ret c', parse_fields fuel i cnt c data extend_len off = HsDone ret c'.
Proof.
  induction fuel as [|fuel IH]; intros i cnt c data el off Hb Hel H32 Hoff Hf; [lia|].
  cbn [parse_fields]. change (sizeof extend_field_head) with 4.
  split_if; [by do 2 eexists|]. rewrite (wrap_small 32 (el - off)) by lia.
  split_if; [by do 2 eexists|]. rewrite (wrap_small 32 (off + 4)) by lia.
  assert (Hl : (size_of extend_field_head <= length (drop (Z.to_nat off) data))%nat)
    by (rewrite length_drop; cbn; lia).
  destruct (fld_some extend_field_head _ "code" ltac:(by eexists) Hl) as [code ->].
  destruct (fld_some extend_field_head _ "len" ltac:(by eexists) Hl) as [len Hlen]. rewrite Hlen.
  apply fld_range in Hlen; [|by apply Forall_drop].
  rewrite (wrap_small 32 (el - (off + 4))) by lia. split_if; [by do 2 eexists|].
  rewrite (wrap_small 32 (off + 4 + len)) by lia.
  destruct (s_hs_extend_reg code) as [reg|] eqn:Hr; [|apply IH; try done; lia].
  destruct (reg_parser_done code reg c (drop (Z.to_nat (off + 4)) data) len Hr) as (ret&c'&->).
  { rewrite length_drop. lia. }
  destruct ret; [apply IH; try done; lia|by do 2 eexists..].
Qed.

Lemma hs_parse_extend_data_done c data :
  Forall is_byte data -> Z.of_nat (length data) < 2 ^ 32 ->
  exists ret c', hs_parse_extend_data c data (Z.of_nat (length data)) = HsDone ret c'.
Proof.
  intros Hb Hl. unfold hs_parse_extend_data. change (sizeof conn_hs_extend_head) with 4.
  split_if; [by do 2 eexists|].
  destruct (fld_some conn_hs_extend_head data "field_cn" ltac:(by eexists)) as [cnt ->];
    [cbn; lia|]. apply parse_fields_done; try done; lia.
Qed.

Lemma hs_proc_msg_data_done c data :
  Forall is_byte data -> Z.of_nat (length data) < 2 ^ 32 ->
  exists ret c', hs_proc_msg_data c (Some data) (Z.of_nat (length data)) = HsDone ret c'.
Proof.
  intros Hb Hl. unfold hs_proc_msg_data. change (sizeof connection_handshake_req) with 4.
  split_if; [by do 2 eexists|].
  destruct (fld_some connection_handshake_req data "len" ltac:(by eexists)) as [len Hlen];
    [cbn; lia|]. rewrite Hlen. apply fld_range in Hlen; [|done].
  rewrite (wrap_small 32 (_ - 4)) by lia. split_if; [by do 2 eexists|].
  rewrite (wrap_small 32) by lia.
  replace (Z.of_nat (length data) - 4 - len) with (Z.of_nat (length (drop (Z.to_nat (4 + len)) data)))
    by (rewrite length_drop; lia).
  apply hs_parse_extend_data_done; [by apply Forall_drop|]. rewrite length_drop. lia.
Qed.

(** * What the other side sends *)

Lemma handshake_data_shape c ops :
  ops = CONNECT_MESG_HANDSHAKE_RESPONSE \/ ops = CONNECT_MESG_HANDSHAKE_ACK ->
  handshake_data c ops
  = [1; 0; 0; 0; 48] ++ [3; 0; 0; 0] ++ [0; 0; 4; 0; 1; 0; 0; 0] ++
    [1; 0; 1; 0; if s_case_sensitive c then 1 else 0] ++
    [2; 0; 16; 0] ++ le_enc 8 (s_features c) ++ [0; 0; 0; 0; 0; 0; 0; 0].
Proof. destruct c as [? ? ? ? ? [] f]; intros [-> | ->]; vm_compute; reflexivity. Qed.

Lemma hs_proc_peer_data r s ops :
  ops = CONNECT_MESG_HANDSHAKE_RESPONSE \/ ops = CONNECT_MESG_HANDSHAKE_ACK ->
  0 <= s_features s < 2 ^ 64 ->
  let data := handshake_data s ops in
  hs_proc_msg_data r (Some data) (Z.of_nat (length data))
  = if Bool.eqb (s_case_sensitive s) (s_case_sensitive r)
    then HsDone 0 (set_features (set_crypto r 1) (s_features s))
    else HsDone (-1) (set_crypto r 1).
Proof.
  intros Ho Hs. cbn zeta. rewrite handshake_data_shape by done.
  pose proof (le_dec_enc 8 (s_features s) Hs) as Hd. pose proof (length_le_enc 8 (s_features s)) as Hl.
  destruct (le_enc 8 (s_features s)) as [|b0 [|b1 [|b2 [|b3 [|b4 [|b5 [|b6 [|b7 [|]]]]]]]]]; try done.
  rewrite <- Hd. clear. destruct r as [? ? ? ? ? [] ?], (s_case_sensitive s); vm_compute; reflexivity.
Qed.

(** * Properties *)

(** A handshake message of any content is handled without reading outside of it, and the
    parser's loop ends.  The message the other side builds is accepted exactly when both
    sides agree on case sensitivity: the connection then works with the announced crypto
    and the sender's features and the peer comes online; otherwise negotiation fails and
    the peer is notified offline. *)
Theorem handshake_negotiation r ops msg_id version tls_ok data :
  Forall is_byte data -> Z.of_nat (length data) < 2 ^ 32 ->
  let handle d ops := connection_handshake_recv_handler r version ops msg_id (Some d)
                        (Z.of_nat (length d)) tls_ok in
  (exists c acts, handle data ops = Some (c, acts) /\
     (PeerOnline ∈ acts -> hc_status c = CONNECT_STAT_WORKING /\ tls_ok = true /\
        version = HMDFS_VERSION /\
        (ops = CONNECT_MESG_HANDSHAKE_RESPONSE \/ ops = CONNECT_MESG_HANDSHAKE_ACK))) /\
  (forall s, version = HMDFS_VERSION -> tls_ok = true -> 0 <= s_features s < 2 ^ 64 ->
     (ops = CONNECT_MESG_HANDSHAKE_RESPONSE \/ ops = CONNECT_MESG_HANDSHAKE_ACK) ->
     exists c acts, handle (handshake_data s ops) ops = Some (c, acts) /\
       if Bool.eqb (s_case_sensitive s) (s_case_sensitive r)
       then hc_status c = CONNECT_STAT_WORKING /\ hc_crypto c = HMDFS_HS_CRYPTO_KTLS_AES128 /\
            hc_features c = s_features s /\ PeerOnline ∈ acts
       else hc_status c = CONNECT_STAT_NEGO_FAIL /\ hc_features c = hc_features r /\
            acts = [NotifyOffline]).
Proof.
  intros Hb Hl handle. unfold handle, connection_handshake_recv_handler. split.
  - split_if; [exists r, []; split; [done|]; set_solver|].
    match goal with |- context [hs_proc_msg_data ?c _ _] => set (c1 := c) end.
    destruct (hs_proc_msg_data_done c1 data Hb Hl) as (ret&c'&->).
    split_if; [do 2 eexists; split; [reflexivity|]; set_solver|].
    split_if; [|split_if; [|do 2 eexists; split; [reflexivity|]; set_solver]].
    all: split_if; [do 2 eexists; split; [reflexivity|]; set_solver|].
    all: destruct tls_ok; cbn [negb]; do 2 eexists; (split; [reflexivity|]); [|set_solver].
    all: intros _; cbn [hc_status set_status]; auto.
  - intros s -> -> Hs Ho. cbn [negb]. rewrite Z.eqb_refl. cbn [negb].
    rewrite hs_proc_peer_data by done. cbn [s_case_sensitive].
    assert (ops =? CONNECT_MESG_HANDSHAKE_REQUEST = false) as ->
      by (destruct Ho as [-> | ->]; reflexivity).
    destruct (Bool.eqb _ _); cbn [negb Z.eqb];
      destruct Ho as [-> | ->]; cbn; do 2 eexists; (split; [reflexivity|]); set_solver.
Qed.

Definition ex_conn : hs_conn := mk_conn 0 0 0 0 false true 0x11223344.

Lemma handshake_negotiation_witness :
  exists c acts,
    connection_handshake_recv_handler ex_conn HMDFS_VERSION CONNECT_MESG_HANDSHAKE_ACK 7
      (Some (handshake_data ex_conn CONNECT_MESG_HANDSHAKE_ACK)) 42 true = Some (c, acts) /\
    hc_status c = CONNECT_STAT_WORKING /\ hc_crypto c = HMDFS_HS_CRYPTO_KTLS_AES128 /\
    hc_features c = 0x11223344 /\ PeerOnline ∈ acts.
Proof.
  destruct (handshake_negotiation ex_conn CONNECT_MESG_HANDSHAKE_ACK 7 HMDFS_VERSION true []) as [_ H].
  - constructor.
  - simpl; lia.
  - apply (H ex_conn); [reflexivity|reflexivity|simpl; lia|by right].
Defined.
