(* ===== verification/CacheName.v ===== *)
(** Names of persistent dentry files (hmdfs_dentryfile.c, path_hash of main.c): a cache
    file is named after the peer's cid and the hash of its directory's path, is linked
    under the first free of several names, and its cid is read back from the name when the
    cache is loaded. *)
From S2P Require Import Prelude ServerPath DentryPath.

Definition HMDFS_CFN_CID_SIZE := 65.
Definition DENTRY_FILE_NAME_RETRY := 10.
Definition UNDERSCORE := 95.

(** ** Text *)

Definition hex_digit (d : Z) : Z := if d <? 10 then 48 + d else 87 + d.

(** "%016llx": the [n] lowest hexadecimal digits, the highest first. *)
Fixpoint hex_text (n : nat) (v : Z) : bytes :=
  match n with
  | O => []
  | S n => hex_text n (v / 16) ++ [hex_digit (v mod 16)]
  end.

Definition digit_value (c : Z) : option Z :=
  if (48 <=? c) && (c <=? 57) then Some (c - 48)
  else if (97 <=? c) && (c <=? 102) then Some (c - 87)
  else if (65 <=? c) && (c <=? 70) then Some (c - 55)
  else None.

(** The kernel's isspace for the characters before a number. *)
Fixpoint skip_spaces (s : bytes) : bytes :=
  match s with
  | c :: s' => if ((9 <=? c) && (c <=? 13)) || (c =? 32) || (c =? 160) then skip_spaces s' else s
  | [] => []
  end.

(** The value of the leading hexadecimal digits. *)
Fixpoint read_hex (s : bytes) (acc : Z) : Z :=
  match s with
  | c :: s => match digit_value c with Some d => read_hex s (u64 (acc * 16 + d)) | None => acc end
  | [] => acc
  end.

(** sscanf(s, "%llx", &v) == 1: the value; an optional 0x is skipped. *)
Definition sscanf_llx (s : bytes) : option Z :=
  match skip_spaces s with
  | c :: s' =>
      match digit_value c with
      | None => None
      | Some _ =>
          match s' with
          | x :: s'' => if (c =? 48) && ((x =? 120) || (x =? 88)) then Some (read_hex s'' 0)
                        else Some (read_hex (c :: s') 0)
          | [] => Some (read_hex [c] 0)
          end
      end
  | [] => None
  end.

(** ** The code *)

Fixpoint path_hash_loop (kp : bytes) (case_sense : bool) (res : Z) : Z :=
  match kp with
  | [] => res
  | c :: kp =>
      let c := if case_sense then c else tolower c in
      path_hash_loop kp case_sense (u64 (u64 (Z.shiftl res 5) - res + c))
  end.

(** [path] is a C string, read up to its NUL. *)
Definition path_hash (path : bytes) (case_sense : bool) : Z := path_hash_loop path case_sense 0.

(** "/dentry_cache/server/" and "/dentry_cache/client/". *)
Definition SERVER_DIR : bytes :=
  [47; 100; 101; 110; 116; 114; 121; 95; 99; 97; 99; 104; 101; 47; 115; 101; 114; 118; 101; 114; 47].
Definition CLIENT_DIR : bytes :=
  [47; 100; 101; 110; 116; 114; 121; 95; 99; 97; 99; 104; 101; 47; 99; 108; 105; 101; 110; 116; 47].

Definition hmdfs_cache_path_create (dir : bytes) (server : bool) : bytes :=
  snprintf PATH_MAX (dir ++ if server then SERVER_DIR else CLIENT_DIR).

Definition concat_cachefile_name (s : bytes) (hash : Z) (id : bytes) (server : bool) : bytes :=
  s ++ snprintf (PATH_MAX - Z.of_nat (length s))
         (if server then hex_text 16 hash else id ++ [UNDERSCORE] ++ hex_text 16 hash).

(** [mkdir_err] is the result of creating the directories. *)
Definition cache_file_name_generate (cache_dir con_cid relative_path : bytes) (case_sense server : bool)
    (mkdir_err : Z) : Z * bytes :=
  let fullname := hmdfs_cache_path_create cache_dir server in
  if negb (mkdir_err =? 0) && negb (mkdir_err =? - EEXIST) then (mkdir_err, fullname)
  else
    let cid := take (Z.to_nat (HMDFS_CFN_CID_SIZE - 1)) con_cid in
    (0, concat_cachefile_name fullname (path_hash relative_path case_sense) cid server).

(** The candidate of the [i]-th retry; its number has one digit, or is 10. *)
Definition retry_name (fullname : bytes) (i : Z) : bytes :=
  fullname ++ snprintf (PATH_MAX - Z.of_nat (length fullname))
                (UNDERSCORE :: if i <? 10 then [48 + i] else [49; 48]).

(** The do-while loop of cache_file_persistent: the name linked, or the last error.
    [linkat] is hmdfs_linkat, the loop has at most 11 turns. *)
Fixpoint link_loop (n : nat) (linkat : bytes -> Z) (fullname name : bytes) (i : Z) : Z + bytes :=
  let err := linkat name in
  if err =? 0 then inr name
  else
    match n with
    | O => inl err
    | S n => link_loop n linkat fullname (retry_name fullname i) (i + 1)
    end.

Definition link_cache_file (linkat : bytes -> Z) (fullname : bytes) : Z + bytes :=
  link_loop (Z.to_nat DENTRY_FILE_NAME_RETRY) linkat fullname fullname 0.

(** strstr(name, "_"): the text before and after it. *)
Fixpoint split_underscore (name : bytes) : option (bytes * bytes) :=
  match name with
  | [] => None
  | c :: name =>
      if c =? UNDERSCORE then Some ([], name)
      else match split_underscore name with Some (a, b) => Some (c :: a, b) | None => None end
  end.

(** The cid and the hash, or -EINVAL. *)
Definition get_cid_and_hash (name : bytes) : Z + (bytes * Z) :=
  match split_underscore name with
  | None => inl (- EINVAL)
  | Some (cid, rest) =>
      if HMDFS_CFN_CID_SIZE <=? Z.of_nat (length cid) then inl (- EINVAL)
      else match sscanf_llx rest with
           | Some hash => inr (cid, hash)
           | None => inl (- EINVAL)
           end
  end.

(** * Reading the digits back *)

Lemma digit_value_hex d : 0 <= d < 16 -> digit_value (hex_digit d) = Some d.
Proof.
  intros Hd. unfold digit_value, hex_digit. destruct (d <? 10) eqn:E; zb; repeat (split_if; zb; try lia); f_equal; lia.
Qed.

Lemma read_hex_app n : forall v rest acc,
  0 <= v < 16 ^ Z.of_nat n -> 0 <= acc -> acc * 16 ^ Z.of_nat n + v < 2 ^ 64 ->
  read_hex (hex_text n v ++ rest) acc = read_hex rest (acc * 16 ^ Z.of_nat n + v).
Proof.
  induction n as [|n IH]; intros v rest acc Hv Ha Hb.
  - cbn. f_equal. simpl in Hv. lia.
  - rewrite Nat2Z.inj_succ, Z.pow_succ_r in * by lia. cbn [hex_text].
    assert (Hp := Z.pow_pos_nonneg 16 (Z.of_nat n) ltac:(lia) ltac:(lia)).
    set (P := 16 ^ Z.of_nat n) in *. clearbody P.
    assert (0 <= acc * P) by nia.
    pose proof (Z.div_mod v 16 ltac:(lia)). pose proof (Z.mod_pos_bound v 16 ltac:(lia)).
    assert (0 <= v / 16 < P) by lia.
    rewrite <- app_assoc, IH by lia. cbn [app read_hex].
    rewrite digit_value_hex by lia. rewrite wrap_small by lia. f_equal. lia.
Qed.

Lemma length_hex_text n v : length (hex_text n v) = n.
Proof. revert v; induction n as [|n IH]; intros v; [done|]. cbn. rewrite length_app, IH. cbn. lia. Qed.

Lemma hex_digit_facts d :
  0 <= d < 16 ->
  skip_spaces [hex_digit d] = [hex_digit d] /\ hex_digit d <> 120 /\ hex_digit d <> 88 /\
  hex_digit d <> UNDERSCORE /\ hex_digit d <> 0 /\ hex_digit d <> SLASH.
Proof.
  intros Hd. unfold hex_digit, UNDERSCORE, SLASH. cbn [skip_spaces].
  repeat (split_if; try lia); repeat split; try done; lia.
Qed.

Lemma hex_text_digits n v c : c ∈ hex_text n v -> exists d, 0 <= d < 16 /\ c = hex_digit d.
Proof.
  revert v; induction n as [|n IH]; intros v; [by intros ?%elem_of_nil|]. cbn [hex_text].
  intros [H|H%list_elem_of_singleton]%elem_of_app; [by eapply IH|].
  exists (v mod 16). split; [apply Z.mod_pos_bound; lia|done].
Qed.

Lemma sscanf_hex_text v rest :
  0 <= v < 2 ^ 64 -> (forall c r, rest = c :: r -> digit_value c = None) ->
  sscanf_llx (hex_text 16 v ++ rest) = Some v.
Proof.
  intros Hv Hr.
  assert (Hread : read_hex (hex_text 16 v ++ rest) 0 = v).
  { rewrite read_hex_app by (cbn; lia). cbn [Z.mul Z.add].
    destruct rest as [|c r]; cbn [read_hex]; [done|]. by rewrite (Hr c r eq_refl). }
  pose proof (length_hex_text 16 v) as Hl.
  destruct (hex_text 16 v) as [|c [|x l]] eqn:E; [done|done|].
  destruct (hex_text_digits 16 v c ltac:(rewrite E; set_solver)) as (d&Hd&->).
  destruct (hex_text_digits 16 v x ltac:(rewrite E; set_solver)) as (e&He&->).
  destruct (hex_digit_facts d Hd) as (Hsp&_). destruct (hex_digit_facts e He) as (_&H1&H2&_).
  unfold sscanf_llx. cbn [app] in *. cbn [skip_spaces] in *.
  destruct (_ || _ || _); [done|]. rewrite digit_value_hex by done.
  rewrite (proj2 (Z.eqb_neq _ 120)), (proj2 (Z.eqb_neq _ 88)) by done.
  rewrite andb_false_r. by rewrite Hread.
Qed.

Lemma split_underscore_app cid rest :
  Forall (fun c => c <> UNDERSCORE) cid -> split_underscore (cid ++ UNDERSCORE :: rest) = Some (cid, rest).
Proof.
  induction 1 as [|c cid Hc Hf IH]; cbn; [done|]. rewrite (proj2 (Z.eqb_neq _ _)) by done. by rewrite IH.
Qed.

Lemma path_hash_loop_range p cs : forall r, 0 <= r < 2 ^ 64 -> 0 <= path_hash_loop p cs r < 2 ^ 64.
Proof.
  induction p as [|c p IH]; intros r Hr; [done|]. cbn [path_hash_loop]. apply IH.
  apply (wrap_range 64); lia.
Qed.

Lemma path_hash_loop_ci p : forall p' r,
  map tolower p = map tolower p' -> path_hash_loop p false r = path_hash_loop p' false r.
Proof.
  induction p as [|c p IH]; intros [|c' p'] r H; try done. cbn [map] in H. injection H as Hc Hp.
  cbn [path_hash_loop]. rewrite Hc. by apply IH.
Qed.

(** * The names tried and the name linked *)

(** The names linkat is tried with, in order: the file's name, then "_0" to "_9". *)
Definition candidates (fullname : bytes) : list bytes :=
  fullname :: map (fun i => retry_name fullname (Z.of_nat i)) (seq 0 10).

Lemma link_loop_spec linkat full n : forall i name,
  let names := name :: map (fun i => retry_name full (Z.of_nat i)) (seq i n) in
  match link_loop n linkat full name (Z.of_nat i) with
  | inr nm => nm ∈ names /\ linkat nm = 0
  | inl e => e <> 0 /\ forall nm, nm ∈ names -> linkat nm <> 0
  end.
Proof.
  induction n as [|n IH]; intros i name; cbn [link_loop]; destruct (linkat name =? 0) eqn:E; zb.
  - split; [set_solver|done].
  - split; [done|]. by intros nm ->%list_elem_of_singleton.
  - split; [set_solver|done].
  - specialize (IH (S i) (retry_name full (Z.of_nat i))). cbn [seq map].
    replace (Z.of_nat i + 1) with (Z.of_nat (S i)) by lia.
    destruct (link_loop _ _ _ _ _) as [e|nm].
    + destruct IH as [He Hall]. split; [done|]. intros nm [->|H]%elem_of_cons; auto.
    + destruct IH as [Hin H0]. split; [by right|done].
Qed.

Lemma link_cache_file_spec linkat full :
  match link_cache_file linkat full with
  | inr nm => nm ∈ candidates full /\ linkat nm = 0
  | inl e => e <> 0 /\ forall nm, nm ∈ candidates full -> linkat nm <> 0
  end.
Proof. apply (link_loop_spec linkat full 10 0 full). Qed.

(** The last component of the names of a client cache file. *)
Definition client_entry (cid : bytes) (hash : Z) (suffix : bytes) : bytes :=
  cid ++ UNDERSCORE :: hex_text 16 hash ++ suffix.

Definition retry_suffix (nm : bytes) : Prop := nm = [] \/ exists r, nm = UNDERSCORE :: r /\ SLASH ∉ r.

Lemma client_entry_parses cid hash sfx :
  Forall (fun c => c <> UNDERSCORE) cid -> (length cid < 65)%nat -> 0 <= hash < 2 ^ 64 ->
  retry_suffix sfx -> get_cid_and_hash (client_entry cid hash sfx) = inr (cid, hash).
Proof.
  intros Hc Hl Hh Hs. unfold get_cid_and_hash, client_entry. rewrite split_underscore_app by done.
  unfold HMDFS_CFN_CID_SIZE. rewrite (proj2 (Z.leb_gt _ _)) by lia.
  rewrite sscanf_hex_text; [done|done|].
  intros c r ->. destruct Hs as [?|(r'&[= -> ->]&_)]; [done|]. done.
Qed.

Lemma client_entry_no_slash cid hash sfx :
  SLASH ∉ cid -> retry_suffix sfx -> SLASH ∉ client_entry cid hash sfx.
Proof.
  intros Hc Hs. unfold client_entry.
  intros [?|[?|[(d&Hd&He)%hex_text_digits|H]%elem_of_app]%elem_of_cons]%elem_of_app; [done|done|..].
  - destruct (hex_digit_facts d Hd) as (_&_&_&_&_&H). by symmetry in He.
  - destruct Hs as [->|(r&->&Hr)]; [by apply elem_of_nil in H|].
    apply elem_of_cons in H as [?|?]; done.
Qed.

(** The room the longest name needs. *)
Definition name_fits (dir : bytes) : Prop := Z.of_nat (length dir) + 21 + 64 + 17 + 3 < PATH_MAX.

Lemma client_name dir con_cid path cs :
  name_fits dir ->
  cache_file_name_generate dir con_cid path cs false 0 =
    (0, (dir ++ CLIENT_DIR) ++ client_entry (take 64 con_cid) (path_hash path cs) []).
Proof.
  intros Hf. unfold name_fits in Hf. unfold cache_file_name_generate, hmdfs_cache_path_create, concat_cachefile_name.
  assert (length CLIENT_DIR = 21)%nat by done.
  rewrite (snprintf_fits PATH_MAX) by (rewrite length_app; lia).
  cbn [Z.eqb negb andb]. f_equal. f_equal. unfold client_entry. rewrite app_nil_r.
  change (Z.to_nat (HMDFS_CFN_CID_SIZE - 1)) with 64%nat.
  apply snprintf_fits. repeat rewrite length_app. cbn [length app].
  rewrite length_hex_text, length_take. lia.
Qed.

Lemma retry_client_name dir cid hash i :
  name_fits dir -> (length cid <= 64)%nat -> 0 <= i < 10 ->
  retry_name ((dir ++ CLIENT_DIR) ++ client_entry cid hash []) i =
    (dir ++ CLIENT_DIR) ++ client_entry cid hash [UNDERSCORE; 48 + i].
Proof.
  intros Hf Hl Hi. unfold name_fits in Hf. unfold retry_name. rewrite (proj2 (Z.ltb_lt _ _)) by lia.
  assert (length CLIENT_DIR = 21)%nat by done.
  rewrite snprintf_fits.
  - unfold client_entry. rewrite app_nil_r. by rewrite <- !app_assoc.
  - unfold client_entry. repeat (rewrite length_app || cbn [length app]).
    rewrite length_hex_text. lia.
Qed.

Lemma client_candidates dir cid hash nm :
  name_fits dir -> (length cid <= 64)%nat ->
  nm ∈ candidates ((dir ++ CLIENT_DIR) ++ client_entry cid hash []) ->
  exists sfx, retry_suffix sfx /\ nm = (dir ++ CLIENT_DIR) ++ client_entry cid hash sfx.
Proof.
  intros Hf Hl [->|H]%elem_of_cons; [by exists []; split; [left|]|].
  apply list_elem_of_In, in_map_iff in H as (i&<-&Hi%in_seq).
  exists [UNDERSCORE; 48 + Z.of_nat i]. split; [right; eexists; split; [done|]|].
  - intros ?%list_elem_of_singleton. unfold SLASH in *. lia.
  - apply retry_client_name; [done|done|lia].
Qed.

(** A client cache file of a peer whose cid has no underscore and no slash gets a name from
    which loading the cache reads back the peer's cid and the hash of the directory's path,
    whichever of the eleven names cache_file_persistent manages to link; it gives up only when
    linking failed under every one of them. On a case-insensitive mount the name does not
    depend on the case of the path. *)
Theorem cache_name_roundtrip dir con_cid path cs :
  name_fits dir -> Forall (fun c => c <> UNDERSCORE) con_cid -> SLASH ∉ con_cid ->
  exists full,
    cache_file_name_generate dir con_cid path cs false 0 = (0, full) /\
    (forall linkat nm, link_cache_file linkat full = inr nm ->
       linkat nm = 0 /\
       exists entry, nm = dir ++ CLIENT_DIR ++ entry /\ SLASH ∉ entry /\
         get_cid_and_hash entry = inr (take 64 con_cid, path_hash path cs)) /\
    (forall linkat, (exists e, link_cache_file linkat full = inl e) <->
       forall nm, nm ∈ candidates full -> linkat nm <> 0) /\
    (forall path', cs = false -> map tolower path = map tolower path' ->
       cache_file_name_generate dir con_cid path' cs false 0 = (0, full)).
Proof.
  intros Hf Hu Hs. eexists; split; [by apply client_name|].
  assert (Hh : 0 <= path_hash path cs < 2 ^ 64) by (apply path_hash_loop_range; lia).
  assert (Hl : (length (take 64 con_cid) <= 64)%nat) by (rewrite length_take; lia).
  split; [|split].
  - intros linkat nm H. eassert (Hspec := link_cache_file_spec linkat _). rewrite H in Hspec.
    destruct Hspec as [Hin H0]. split; [done|].
    apply client_candidates in Hin as (sfx&Hsfx&->); [|done|done].
    eexists; split; [by rewrite <- app_assoc|]. split.
    + apply client_entry_no_slash; [|done]. intros Hin. eapply Hs, subseteq_take; exact Hin.
    + apply client_entry_parses; [by apply list.Forall_take|lia|done|done].
  - intros linkat. pose proof (link_cache_file_spec linkat
      ((dir ++ CLIENT_DIR) ++ client_entry (take 64 con_cid) (path_hash path cs) [])) as Hspec.
    destruct (link_cache_file _ _) as [e|nm].
    + split; [by intros _; apply Hspec|by eauto].
    + destruct Hspec. split; [by intros [? [=]]|]. intros H'. by destruct (H' nm).
  - intros path' -> Hp. rewrite client_name by done. do 3 f_equal. symmetry. by apply path_hash_loop_ci.
Qed.

(** "ab", "Docs": the second name is linked, and reads back. *)
Lemma cache_name_roundtrip_witness :
  let linkat nm := if (length nm <? 43)%nat then - EEXIST else 0 in
  let full := snd (cache_file_name_generate [47; 99] [97; 98] [68; 111; 99; 115] false false 0) in
  exists nm entry, link_cache_file linkat full = inr nm /\ nm <> full /\
    nm = [47; 99] ++ CLIENT_DIR ++ entry /\
    get_cid_and_hash entry = inr ([97; 98], path_hash [100; 79; 99; 115] false).
Proof.
  intros linkat full.
  assert (Hf : name_fits [47; 99]) by done.
  assert (Hu : Forall (fun c => c <> UNDERSCORE) [97; 98]) by (repeat constructor; done).
  assert (Hs : SLASH ∉ [97; 98]) by (vm_compute; set_solver).
  destruct (cache_name_roundtrip [47; 99] [97; 98] [68; 111; 99; 115] false Hf Hu Hs)
    as (full'&E&Hlink&_&_).
  subst full. rewrite E. cbn [snd].
  destruct (link_cache_file linkat full') as [e|nm] eqn:El;
    vm_compute in E; injection E as <-; [by vm_compute in El|].
  destruct (Hlink linkat nm El) as (_&entry&Hnm&_&Hget). exists nm, entry.
  split; [done|]. split; [|by split].
  vm_compute in El. injection El as <-. done.
Defined.
