(* ===== verification/CacheNode.v ===== *)
(** The lists of cached dentry files (struct cache_file_node, hmdfs_dentryfile.c): nodes on
    the heap with a reference count, kept on the client, server or to_delete list under
    cache_list_lock. Every access goes through the heap, so that an operation on a freed
    node has no result. *)
From S2P Require Import Prelude DentryLayout CacheName.

(** "cloud". *)
Definition CLOUD_CID : bytes := [99; 108; 111; 117; 100].
(** The empty string. *)
Definition HMDFS_SERVER_CID : bytes := [].

(** struct cache_file_node; [cn_filp] is [None] when it is NULL or an error. A file is
    named by the number of its struct file. *)
Record cache_file_node := Cfn {
  cn_relative_path : bytes;
  cn_cid : bytes;
  cn_filp : option Z;
  cn_ref : Z;
  cn_server : bool
}.

(** The list heads of hmdfs_sb_info that hold nodes. *)
Inductive list_head := CLIENT_CACHE | SERVER_CACHE | TO_DELETE.
#[export] Instance list_head_dec : EqDecision list_head.
Proof. solve_decision. Defined.

(** The allocated nodes, the lists, and the files closed (filp_close) and deleted
    (delete_dentry_file) so far. *)
Record caches := Caches {
  heap : gmap Z cache_file_node;
  client_cache : list Z;
  server_cache : list Z;
  to_delete : list Z;
  closed : list Z;
  deleted : list Z
}.

Definition no_caches : caches := Caches ∅ [] [] [] [] [].

(** ** State access *)

Definition on_head (s : caches) (h : list_head) : list Z :=
  match h with CLIENT_CACHE => client_cache s | SERVER_CACHE => server_cache s | TO_DELETE => to_delete s end.

Definition get_list_head (server : bool) : list_head := if server then SERVER_CACHE else CLIENT_CACHE.

Definition set_heap (s : caches) (m : gmap Z cache_file_node) : caches :=
  Caches m (client_cache s) (server_cache s) (to_delete s) (closed s) (deleted s).

Definition list_add_tail (s : caches) (a : Z) (h : list_head) : caches :=
  match h with
  | CLIENT_CACHE => Caches (heap s) (client_cache s ++ [a]) (server_cache s) (to_delete s) (closed s) (deleted s)
  | SERVER_CACHE => Caches (heap s) (client_cache s) (server_cache s ++ [a]) (to_delete s) (closed s) (deleted s)
  | TO_DELETE => Caches (heap s) (client_cache s) (server_cache s) (to_delete s ++ [a]) (closed s) (deleted s)
  end.

(** list_del_init: off the list the node is on. *)
Definition list_del_init (s : caches) (a : Z) : caches :=
  Caches (heap s) (filter (fun x => x <> a) (client_cache s)) (filter (fun x => x <> a) (server_cache s))
    (filter (fun x => x <> a) (to_delete s)) (closed s) (deleted s).

Definition all_lists (s : caches) : list Z := client_cache s ++ server_cache s ++ to_delete s.

(** !list_empty(&cfn->list). *)
Definition on_list (s : caches) (a : Z) : bool := bool_decide (a ∈ all_lists s).

Definition filp_close (s : caches) (f : Z) : caches :=
  Caches (heap s) (client_cache s) (server_cache s) (to_delete s) (f :: closed s) (deleted s).

Definition delete_dentry_file (s : caches) (f : Z) : caches :=
  Caches (heap s) (client_cache s) (server_cache s) (to_delete s) (closed s) (f :: deleted s).

Definition with_ref (n : cache_file_node) (r : Z) : cache_file_node :=
  Cfn (cn_relative_path n) (cn_cid n) (cn_filp n) r (cn_server n).

Definition with_filp (n : cache_file_node) (f : option Z) : cache_file_node :=
  Cfn (cn_relative_path n) (cn_cid n) f (cn_ref n) (cn_server n).

(** ** Operations. [None] is an access to memory that is not a live node. *)

Definition free_cfn (s : caches) (a : Z) : option caches :=
  n ← heap s !! a;
  let s := match cn_filp n with Some f => filp_close s f | None => s end in
  Some (set_heap s (delete a (heap s))).

(** refcount_dec_and_test, and free_cfn at zero. *)
Definition release_cfn (s : caches) (a : Z) : option caches :=
  n ← heap s !! a;
  let s := set_heap s (<[a := with_ref n (cn_ref n - 1)]> (heap s)) in
  if cn_ref n - 1 =? 0 then free_cfn s a else Some s.

Definition refcount_inc (s : caches) (a : Z) : option caches :=
  n ← heap s !! a; Some (set_heap s (<[a := with_ref n (cn_ref n + 1)]> (heap s))).

Section Sbi.
Context (s_case_sensitive : bool).
Context (dcache_threshold : Z).

Definition path_cmp (path1 path2 : bytes) (case_sensitive : bool) : bool :=
  if case_sensitive then beqb path1 path2 else case_eqb path1 path2.

(** strncmp of the cids as C strings. *)
Definition dentry_file_match (n : cache_file_node) (id path : bytes) : bool :=
  path_cmp (cn_relative_path n) path s_case_sensitive &&
  beqb (take (Z.to_nat (HMDFS_CFN_CID_SIZE - 1)) (cn_cid n)) (take (Z.to_nat (HMDFS_CFN_CID_SIZE - 1)) id).

(** The loop of __find_cfn. *)
Fixpoint scan_list (m : gmap Z cache_file_node) (l : list Z) (cid path : bytes) : option (option Z) :=
  match l with
  | [] => Some None
  | a :: l =>
      n ← m !! a;
      if dentry_file_match n cid path then Some (Some a) else scan_list m l cid path
  end.

Definition __find_cfn (s : caches) (cid path : bytes) (server : bool) : option (option Z * caches) :=
  r ← scan_list (heap s) (on_head s (get_list_head server)) cid path;
  match r with
  | Some a => s ← refcount_inc s a; Some (Some a, s)
  | None => Some (None, s)
  end.

(** Under cache_list_lock. *)
Definition find_cfn := __find_cfn.

(** [alloc] is the result of kzalloc, an address not in use; [dup] whether kstrdup succeeds. *)
Definition create_cfn (s : caches) (alloc : option Z) (dup : bool) (path cid : bytes) (server : bool) :
    option (option Z * caches) :=
  match alloc with
  | None => Some (None, s)
  | Some a =>
      if dup then
        let n := Cfn path (take (Z.to_nat (HMDFS_CFN_CID_SIZE - 1)) cid) None 1 server in
        Some (Some a, set_heap s (<[a := n]> (heap s)))
      else
        s ← free_cfn (set_heap s (<[a := Cfn [] [] None 0 false]> (heap s))) a;
        Some (None, s)
  end.

(** [opened] is the result of filp_open: a negative error or a new file. The result is an
    error or the file. *)
Definition insert_cfn (s : caches) (alloc : option Z) (dup : bool) (opened : Z + Z)
    (path cid : bytes) (server : bool) : option ((Z + Z) * caches) :=
  '(r, s) ← create_cfn s alloc dup path cid server;
  match r with
  | None => Some (inl (- ENOMEM), s)
  | Some a =>
      match opened with
      | inl e => s ← free_cfn s a; Some (inl e, s)
      | inr f =>
          '(found, s) ← __find_cfn s cid path server;
          match found with
          | None =>
              n ← heap s !! a;
              let s := set_heap s (<[a := with_filp n (Some f)]> (heap s)) in
              Some (inr f, list_add_tail s a (get_list_head server))
          | Some b =>
              s ← release_cfn s b;
              s ← free_cfn (filp_close s f) a;
              Some (inl (- EEXIST), s)
          end
      end
  end.

Definition remove_cfn (s : caches) (a : Z) : option caches :=
  n ← heap s !! a;
  if on_list s a then
    let s := list_del_init s a in
    f ← cn_filp n;
    release_cfn (delete_dentry_file s f) a
  else Some s.

(** The header fields read_header yields, [None] for -EIO, and the size of a file. *)
Context (read_header : Z -> option (Z * Z)) (i_size : Z -> Z).

Definition cache_get_dentry_count (f : Z) : Z :=
  if get_dentry_group_cnt (i_size f) =? 0 then 0
  else match read_header f with Some (num, _) => num | None => 0 end.

Definition cache_check_case_sensitive (f : Z) : bool :=
  match read_header f with
  | None => false
  | Some (_, case_sensitive) => Bool.eqb s_case_sensitive (negb (case_sensitive =? 0))
  end.

Definition add_to_delete_list (s : caches) (a : Z) : caches := list_add_tail s a TO_DELETE.

Definition load_cfn (s : caches) (alloc : option Z) (dup : bool) (opened : Z + Z)
    (path cid : bytes) (server : bool) : option caches :=
  '(r, s) ← create_cfn s alloc dup path cid server;
  match r with
  | None => Some s
  | Some a =>
      n ← heap s !! a;
      match opened with
      | inl _ => free_cfn s a
      | inr f =>
          let s := set_heap s (<[a := with_filp n (Some f)]> (heap s)) in
          if (cache_get_dentry_count f <? dcache_threshold) && negb (beqb cid CLOUD_CID) then
            Some (add_to_delete_list s a)
          else if negb (cache_check_case_sensitive f) && negb (beqb cid CLOUD_CID) then
            Some (add_to_delete_list s a)
          else
            '(cfn1, s) ← __find_cfn s cid path server;
            match cfn1 with
            | None => Some (list_add_tail s a (get_list_head server))
            | Some b => s ← release_cfn s b; Some (add_to_delete_list s a)
            end
      end
  end.

End Sbi.

(** The loop of __destroy_cfn over the nodes of a list. *)
Fixpoint destroy_loop (s : caches) (l : list Z) : option caches :=
  match l with
  | [] => Some s
  | a :: l => s ← release_cfn (list_del_init s a) a; destroy_loop s l
  end.

Definition __destroy_cfn (s : caches) (h : list_head) : option caches := destroy_loop s (on_head s h).

Definition hmdfs_cfn_destroy (s : caches) : option caches :=
  s ← __destroy_cfn s CLIENT_CACHE; __destroy_cfn s SERVER_CACHE.

Fixpoint delete_loop (s : caches) (l : list Z) : option caches :=
  match l with
  | [] => Some s
  | a :: l =>
      n ← heap s !! a;
      f ← cn_filp n;
      s ← release_cfn (list_del_init (delete_dentry_file s f) a) a;
      delete_loop s l
  end.

Definition hmdfs_delete_useless_cfn (s : caches) : option caches := delete_loop s (to_delete s).

Fixpoint by_path_loop (s : caches) (l : list Z) (path : bytes) : option caches :=
  match l with
  | [] => Some s
  | a :: l =>
      n ← heap s !! a;
      if beqb path (cn_relative_path n) then
        f ← cn_filp n;
        s ← release_cfn (delete_dentry_file (list_del_init s a) f) a;
        by_path_loop s l path
      else by_path_loop s l path
  end.

Definition __cache_file_destroy_by_path (s : caches) (h : list_head) (path : bytes) : option caches :=
  by_path_loop s (on_head s h) path.

Definition cache_file_destroy_by_path (s : caches) (path : bytes) : option caches :=
  s ← __cache_file_destroy_by_path s SERVER_CACHE path; __cache_file_destroy_by_path s CLIENT_CACHE path.

Definition cache_file_find_and_delete (cs : bool) (s : caches) (cid path : bytes) : option caches :=
  '(r, s) ← find_cfn cs s cid path false;
  match r with
  | None => Some s
  | Some a => s ← remove_cfn s a; release_cfn s a
  end.

(** * The invariant *)

Definition listed (s : caches) (a : Z) : Z := if on_list s a then 1 else 0.

(** The references threads hold, and one thread's taking or dropping some. *)
Definition upd (held : Z -> Z) (a d : Z) : Z -> Z := fun x => if x =? a then held x + d else held x.

(** What a lookup compares: the path up to case, when the mount folds it, and the cid. *)
Definition node_key (cs : bool) (path cid : bytes) : bytes * bytes :=
  (if cs then path else map tolower path, take 64 cid).

(** What a listed node says: its path, cid and file. *)
Definition entry (s : caches) (a : Z) : option (bytes * bytes * Z) :=
  n ← heap s !! a; f ← cn_filp n; Some (cn_relative_path n, cn_cid n, f).

Definition fresh_file (s : caches) (f : Z) : Prop :=
  f ∉ closed s /\ forall a n, heap s !! a = Some n -> cn_filp n <> Some f.

(** Every listed node is live and has an open file; a node's count is one for its list plus
    the references held; no two nodes of a list answer the same lookup; a file belongs to
    one node and is closed at most once, never while its node is live. *)
Record cache_inv (cs : bool) (s : caches) (held : Z -> Z) : Prop := {
  inv_nodup : NoDup (all_lists s);
  inv_ref : forall a, match heap s !! a with
                      | Some n => cn_ref n = listed s a + held a /\ 0 < cn_ref n
                      | None => a ∉ all_lists s /\ held a = 0
                      end;
  inv_held : forall a, 0 <= held a;
  inv_filp : forall a n, a ∈ all_lists s -> heap s !! a = Some n -> is_Some (cn_filp n);
  inv_files : forall a b n m f, heap s !! a = Some n -> heap s !! b = Some m ->
    cn_filp n = Some f -> cn_filp m = Some f -> a = b;
  inv_closed : NoDup (closed s);
  inv_open : forall a n f, heap s !! a = Some n -> cn_filp n = Some f -> f ∉ closed s;
  inv_keys : forall b a a' n n',
    a ∈ on_head s (get_list_head b) -> a' ∈ on_head s (get_list_head b) ->
    heap s !! a = Some n -> heap s !! a' = Some n' ->
    node_key cs (cn_relative_path n) (cn_cid n) = node_key cs (cn_relative_path n') (cn_cid n') ->
    a = a'
}.

(** Lists alike, and the entries of the listed nodes. *)
Definition same_entries (s s' : caches) : Prop :=
  (forall h, on_head s' h = on_head s h) /\ (forall a, a ∈ all_lists s -> entry s' a = entry s a).

Lemma upd_same h a d : upd h a d a = h a + d.
Proof. unfold upd. by rewrite Z.eqb_refl. Qed.
Lemma upd_other h a d x : x <> a -> upd h a d x = h x.
Proof. intros H. unfold upd. by rewrite (proj2 (Z.eqb_neq _ _)). Qed.

Lemma upd_cancel h a d x : upd (upd h a d) a (- d) x = h x.
Proof. unfold upd. destruct (x =? a); lia. Qed.

Lemma on_head_lists s s' : (forall h, on_head s' h = on_head s h) -> all_lists s' = all_lists s.
Proof.
  intros H. unfold all_lists.
  pose proof (H CLIENT_CACHE); pose proof (H SERVER_CACHE); pose proof (H TO_DELETE). simpl in *. congruence.
Qed.

Lemma elem_on_head s h a : a ∈ on_head s h -> a ∈ all_lists s.
Proof. unfold all_lists. destruct h; simpl; rewrite !elem_of_app; tauto. Qed.

Lemma elem_all_lists s a : a ∈ all_lists s <-> exists h, a ∈ on_head s h.
Proof.
  split; [|intros [h H]; by eapply elem_on_head].
  unfold all_lists. intros [H|[H|H]%elem_of_app]%elem_of_app;
    [by exists CLIENT_CACHE|by exists SERVER_CACHE|by exists TO_DELETE].
Qed.

Lemma listed_lists s s' a : all_lists s' = all_lists s -> listed s' a = listed s a.
Proof. intros H. unfold listed, on_list. by rewrite H. Qed.

Lemma listed_in s a : a ∈ all_lists s -> listed s a = 1.
Proof. intros H. unfold listed, on_list. by rewrite bool_decide_true. Qed.
Lemma listed_out s a : a ∉ all_lists s -> listed s a = 0.
Proof. intros H. unfold listed, on_list. by rewrite bool_decide_false. Qed.

Lemma same_entries_refl s : same_entries s s.
Proof. by split. Qed.
Lemma same_entries_trans s1 s2 s3 : same_entries s1 s2 -> same_entries s2 s3 -> same_entries s1 s3.
Proof.
  intros [H1 E1] [H2 E2]. split; intros x.
  - by rewrite H2.
  - intros Hx. rewrite E2; [by apply E1|]. by rewrite (on_head_lists s1 s2).
Qed.
#[export] Hint Resolve same_entries_refl : hmdfs.

Lemma all_lists_add s a h : all_lists (list_add_tail s a h) ≡ₚ a :: all_lists s.
Proof. unfold all_lists. destruct h; simpl; solve_Permutation. Qed.

Lemma all_lists_del s a : all_lists (list_del_init s a) = filter (fun x => x <> a) (all_lists s).
Proof. unfold all_lists. simpl. by rewrite !list.filter_app. Qed.

Lemma on_head_del s a h : on_head (list_del_init s a) h = filter (fun x => x <> a) (on_head s h).
Proof. by destruct h. Qed.

Lemma on_head_add s a h h' :
  on_head (list_add_tail s a h) h' = if decide (h' = h) then on_head s h' ++ [a] else on_head s h'.
Proof. by destruct h, h'. Qed.

Section Inv.
Context (cs : bool).

Lemma inv_ext s h h' : (forall a, h a = h' a) -> cache_inv cs s h -> cache_inv cs s h'.
Proof.
  intros Hh [? Hr Hd ?????]. split; try done.
  - intros a. specialize (Hr a). by rewrite <- Hh.
  - intros a. rewrite <- Hh. apply Hd.
Qed.

Lemma match_key n id path :
  dentry_file_match cs n id path = true <->
  node_key cs (cn_relative_path n) (cn_cid n) = node_key cs path id.
Proof.
  unfold dentry_file_match, path_cmp, node_key. rewrite andb_true_iff, beqb_eq.
  change (Z.to_nat _) with 64%nat. destruct cs.
  - rewrite beqb_eq. split; [by intros [-> ->]|by intros [= -> ->]].
  - rewrite case_eqb_iff. split; [by intros [-> ->]|by intros [= -> ->]].
Qed.

(** Changing the count of a node and the references held on it together. *)
Lemma inv_set_ref s h a n r d :
  cache_inv cs s h -> heap s !! a = Some n -> 0 <= h a + d -> r = cn_ref n + d -> 0 < r ->
  cache_inv cs (set_heap s (<[a := with_ref n r]> (heap s))) (upd h a d).
Proof.
  intros [Hn Hr Hh Hf Hfs Hc Ho Hk] Ha Hd -> Hpos.
  set (s' := set_heap _ _).
  assert (Hl : forall x n', heap s' !! x = Some n' -> exists m, heap s !! x = Some m /\
    cn_relative_path n' = cn_relative_path m /\ cn_cid n' = cn_cid m /\ cn_filp n' = cn_filp m).
  { intros x n'. simpl. rewrite lookup_insert_Some. intros [[<- <-]|[? ?]]; eauto 10. }
  split; try done.
  - intros x. simpl. specialize (Hr x). destruct (decide (x = a)) as [->|Hx].
    + rewrite lookup_insert_eq, upd_same. rewrite Ha in Hr.
      change (listed s' a) with (listed s a). simpl. lia.
    + rewrite lookup_insert_ne, upd_other by done. exact Hr.
  - intros x. unfold upd. destruct (x =? a) eqn:E; zb; [subst; lia|apply Hh].
  - intros x n' Hx (m&Hm&_&_&->)%Hl. by eapply Hf.
  - intros x y n1 n2 f (m1&H1&_&_&->)%Hl (m2&H2&_&_&->)%Hl. by eapply Hfs.
  - intros x n' f (m&Hm&_&_&->)%Hl. by eapply Ho.
  - intros b x y n1 n2 Hx Hy (m1&H1&->&->&_)%Hl (m2&H2&->&->&_)%Hl. by eapply Hk.
Qed.

Lemma set_ref_entries s a n r :
  heap s !! a = Some n -> same_entries s (set_heap s (<[a := with_ref n r]> (heap s))).
Proof.
  intros Ha. split; [by intros []|]. intros x _. unfold entry. simpl.
  destruct (decide (x = a)) as [->|Hx]; [by rewrite lookup_insert_eq, Ha|by rewrite lookup_insert_ne].
Qed.

(** The last reference of an unlisted node frees it. *)
Lemma free_ok s h a n :
  cache_inv cs s h -> heap s !! a = Some n -> a ∉ all_lists s -> h a = 1 ->
  exists s', free_cfn s a = Some s' /\ cache_inv cs s' (upd h a (-1)) /\ same_entries s s' /\
             heap s' = delete a (heap s).
Proof.
  intros [Hn Hr Hh Hf Hfs Hc Ho Hk] Ha Hl H1. unfold free_cfn. rewrite Ha. cbn [mbind option_bind].
  eexists; split; [done|]. set (s' := set_heap _ _).
  assert (Hheap : heap s' = delete a (heap s)) by (by subst s'; destruct (cn_filp n)).
  assert (Hheads : forall hd, on_head s' hd = on_head s hd) by (by subst s'; destruct (cn_filp n); intros []).
  assert (Hlists := on_head_lists _ _ Hheads).
  assert (Hcl : closed s' = match cn_filp n with Some f => f :: closed s | None => closed s end)
    by (by subst s'; destruct (cn_filp n)).
  assert (Hlk : forall x m, heap s' !! x = Some m -> x <> a /\ heap s !! x = Some m)
    by (intros x m; rewrite Hheap, lookup_delete_Some; intros [? ?]; auto).
  clearbody s'. split; [|split; [split; [done|]|done]].
  - split.
    + by rewrite Hlists.
    + intros x. specialize (Hr x). rewrite Hheap, (listed_lists s s'), Hlists by done.
      destruct (decide (x = a)) as [->|Hx].
      * rewrite lookup_delete_eq, upd_same. split; [done|lia].
      * rewrite lookup_delete_ne, upd_other by done. exact Hr.
    + intros x. unfold upd. destruct (x =? a) eqn:E; zb; [subst; lia|apply Hh].
    + intros x m. rewrite Hlists. intros Hx [_ Hm]%Hlk. by eapply Hf.
    + intros x y m1 m2 f [_ ?]%Hlk [_ ?]%Hlk. by eapply Hfs.
    + rewrite Hcl. destruct (cn_filp n) as [f|] eqn:Ef; [|done].
      apply list.NoDup_cons; split; [by eapply Ho|done].
    + intros x m f [Hx Hm]%Hlk Hmf. rewrite Hcl. destruct (cn_filp n) as [g|] eqn:Eg; [|by eapply Ho].
      intros [->|?]%elem_of_cons; [|by eapply Ho]. by apply Hx; eapply Hfs.
    + intros b x y m1 m2. rewrite !Hheads. intros ?? [_ ?]%Hlk [_ ?]%Hlk. by eapply Hk.
  - intros x Hx. unfold entry. rewrite Hheap, lookup_delete_ne; [done|]. by intros ->.
Qed.

Lemma held_live s h a : cache_inv cs s h -> 0 < h a -> exists n, heap s !! a = Some n.
Proof.
  intros Hi Ha. pose proof (inv_ref _ _ _ Hi a) as Hr. destruct (heap s !! a); [by eauto|]. lia.
Qed.

Lemma listed_live s h a : cache_inv cs s h -> a ∈ all_lists s ->
  exists n f, heap s !! a = Some n /\ cn_filp n = Some f.
Proof.
  intros Hi Ha. pose proof (inv_ref _ _ _ Hi a) as Hr. pose proof (inv_filp _ _ _ Hi a) as Hf.
  destruct (heap s !! a) as [n|]; [|tauto]. destruct (Hf n) as [f Hfn]; eauto.
Qed.

Lemma inc_ok s h a n :
  cache_inv cs s h -> heap s !! a = Some n ->
  exists s', refcount_inc s a = Some s' /\ cache_inv cs s' (upd h a 1) /\ same_entries s s' /\
             dom (heap s') = dom (heap s).
Proof.
  intros Hi Ha. unfold refcount_inc. rewrite Ha. eexists; split; [done|].
  pose proof (inv_held _ _ _ Hi a). pose proof (inv_ref _ _ _ Hi a) as Hr. rewrite Ha in Hr.
  split; [apply inv_set_ref; [done|done|lia|lia|lia]|]. split; [by apply set_ref_entries|].
  apply dom_insert_lookup_L. by rewrite Ha.
Qed.

(** Dropping a held reference never touches a freed node. *)
Lemma release_ok s h a :
  cache_inv cs s h -> 0 < h a ->
  exists s', release_cfn s a = Some s' /\ cache_inv cs s' (upd h a (-1)) /\ same_entries s s' /\
             (heap s' !! a = None <-> a ∉ all_lists s /\ h a = 1) /\
             (forall x, x <> a -> heap s' !! x = heap s !! x).
Proof.
  intros Hi Ha. destruct (held_live s h a Hi Ha) as [n Hn].
  pose proof (inv_ref _ _ _ Hi a) as Hr. rewrite Hn in Hr.
  unfold release_cfn. rewrite Hn. cbn [mbind option_bind].
  destruct (cn_ref n - 1 =? 0) eqn:E; zb.
  - assert (Hout : a ∉ all_lists s) by (intros Hin; rewrite (listed_in s a Hin) in Hr; lia).
    rewrite (listed_out s a Hout) in Hr.
    destruct (free_ok s h a n Hi Hn Hout ltac:(lia)) as (s'&Hfree&Hinv&Hsame&Hheap).
    exists s'. split; [|split; [done|split; [done|split; [split|]]]].
    + revert Hfree. unfold free_cfn. rewrite Hn. cbn [mbind option_bind]. simpl.
      rewrite lookup_insert_eq. simpl. intros <-. destruct (cn_filp n); cbn; by rewrite delete_insert_eq.
    + split; [done|lia].
    + intros _. by rewrite Hheap, lookup_delete_eq.
    + intros x Hx. by rewrite Hheap, lookup_delete_ne.
  - eexists; split; [done|]. split; [apply inv_set_ref; [done|done|lia|lia|lia]|].
    split; [by apply set_ref_entries|]. split.
    + simpl. rewrite lookup_insert_eq. split; [done|]. intros [Hout ?].
      rewrite (listed_out s a Hout) in Hr. lia.
    + intros x Hx. simpl. by rewrite lookup_insert_ne.
Qed.

(** Taking a node off its list turns the list's reference into a held one. *)
Lemma unlink_ok s h a :
  cache_inv cs s h -> a ∈ all_lists s -> cache_inv cs (list_del_init s a) (upd h a 1).
Proof.
  intros Hi Hin. destruct Hi as [Hn Hr Hh Hf Hfs Hc Ho Hk]. split; try done.
  - rewrite all_lists_del. by apply list.NoDup_filter.
  - intros x. specialize (Hr x). simpl. rewrite all_lists_del.
    assert (Hlx : listed (list_del_init s a) x = if x =? a then 0 else listed s x).
    { destruct (x =? a) eqn:E; zb.
      - apply listed_out. rewrite all_lists_del, list_elem_of_filter. tauto.
      - unfold listed, on_list. rewrite all_lists_del.
        rewrite (bool_decide_ext _ (x ∈ all_lists s)); [done|]. rewrite list_elem_of_filter. tauto. }
    rewrite Hlx. unfold upd. destruct (x =? a) eqn:E; zb.
    + subst x. rewrite (listed_in s a Hin) in Hr. destruct (heap s !! a); [lia|tauto].
    + destruct (heap s !! x); [done|]. rewrite list_elem_of_filter. tauto.
  - intros x. unfold upd. specialize (Hh x). destruct (x =? a); lia.
  - intros x n. rewrite all_lists_del, list_elem_of_filter. intros [_ Hx]. by apply Hf.
  - intros b x y n1 n2. rewrite !on_head_del, !list_elem_of_filter. intros [_ ?] [_ ?]. by eapply Hk.
Qed.

(** Putting a held node with a file on a list hands the reference over. *)
Lemma link_ok s h a n f hd :
  cache_inv cs s h -> 0 < h a -> a ∉ all_lists s -> heap s !! a = Some n -> cn_filp n = Some f ->
  (forall x m, hd <> TO_DELETE -> x ∈ on_head s hd -> heap s !! x = Some m ->
     node_key cs (cn_relative_path m) (cn_cid m) <> node_key cs (cn_relative_path n) (cn_cid n)) ->
  cache_inv cs (list_add_tail s a hd) (upd h a (-1)).
Proof.
  intros Hi Ha Hout Hna Hfn Hkey. destruct Hi as [Hn Hr Hh Hf Hfs Hc Ho Hk].
  assert (Hheap : heap (list_add_tail s a hd) = heap s) by by destruct hd.
  assert (Hcl : closed (list_add_tail s a hd) = closed s) by by destruct hd.
  split; rewrite ?Hheap, ?Hcl; try done.
  - rewrite all_lists_add. by apply list.NoDup_cons.
  - intros x. specialize (Hr x).
    assert (Hlx : listed (list_add_tail s a hd) x = if x =? a then 1 else listed s x).
    { destruct (x =? a) eqn:E; zb.
      - apply listed_in. rewrite all_lists_add. set_solver.
      - unfold listed, on_list. rewrite (bool_decide_ext _ (x ∈ all_lists s)); [done|].
        rewrite all_lists_add, elem_of_cons. tauto. }
    rewrite Hlx. unfold upd. destruct (x =? a) eqn:E; zb.
    + subst x. rewrite Hna in *. rewrite (listed_out s a Hout) in Hr. lia.
    + destruct (heap s !! x); [done|]. rewrite all_lists_add, elem_of_cons. tauto.
  - intros x. unfold upd. specialize (Hh x). destruct (x =? a) eqn:E; zb; [subst x|]; lia.
  - intros x m. rewrite all_lists_add. intros [->|Hx]%elem_of_cons Hm; [|by eapply Hf].
    rewrite Hna in Hm. injection Hm as <-. eauto.
  - assert (Hnew : forall b x m, hd = get_list_head b -> x ∈ on_head s hd -> heap s !! x = Some m ->
              node_key cs (cn_relative_path m) (cn_cid m) <> node_key cs (cn_relative_path n) (cn_cid n))
      by (intros b x m ->; apply Hkey; by destruct b).
    intros b x y n1 n2. rewrite !on_head_add. destruct (decide (get_list_head b = hd)) as [E|]; [|apply Hk].
    rewrite !elem_of_app, !list_elem_of_singleton. intros [Hx| ->] [Hy| ->] H1 H2 Hkk.
    + by eapply Hk.
    + rewrite E in *. rewrite Hna in H2. injection H2 as <-. by destruct (Hnew b x n1).
    + rewrite E in *. rewrite Hna in H1. injection H1 as <-. by destruct (Hnew b y n2).
    + done.
Qed.

(** A new node, not yet on a list. *)
Lemma alloc_ok s h a n :
  cache_inv cs s h -> heap s !! a = None -> cn_ref n = 1 ->
  (forall f, cn_filp n = Some f -> fresh_file s f) ->
  cache_inv cs (set_heap s (<[a := n]> (heap s))) (upd h a 1) /\
  same_entries s (set_heap s (<[a := n]> (heap s))) /\ a ∉ all_lists s.
Proof.
  intros [Hn Hr Hh Hf Hfs Hc Ho Hk] Ha H1 Hfresh.
  assert (Hout : a ∉ all_lists s /\ h a = 0) by (specialize (Hr a); by rewrite Ha in Hr).
  destruct Hout as [Hout H0]. set (s' := set_heap _ _).
  assert (Hlk : forall x m, heap s' !! x = Some m -> (x = a /\ m = n) \/ (x <> a /\ heap s !! x = Some m))
    by (intros x m; simpl; rewrite lookup_insert_Some; naive_solver).
  split; [|split; [split; [by intros []|]|done]].
  - split; try done.
    + intros x. specialize (Hr x). simpl. change (listed s' x) with (listed s x).
      destruct (decide (x = a)) as [->|Hx].
      * rewrite lookup_insert_eq, upd_same, (listed_out s a Hout). lia.
      * rewrite lookup_insert_ne, upd_other by done. exact Hr.
    + intros x. unfold upd. specialize (Hh x). destruct (x =? a); lia.
    + intros x m Hx [[-> _]|[_ Hm]]%Hlk; [done|by eapply Hf].
    + intros x y m1 m2 f [[-> ->]|[_ A]]%Hlk [[-> ->]|[_ B]]%Hlk F1 F2; [done|..|by eapply Hfs].
      * by destruct (Hfresh f F1) as [_ Hno]; destruct (Hno y m2).
      * by destruct (Hfresh f F2) as [_ Hno]; destruct (Hno x m1).
    + intros x m f [[-> ->]|[_ A]]%Hlk F; [by apply Hfresh|by eapply Ho].
    + intros b x y m1 m2 Hx Hy [[-> _]|[_ A]]%Hlk [[-> _]|[_ B]]%Hlk;
        [done|by apply elem_on_head in Hx|by apply elem_on_head in Hy|by eapply Hk].
  - intros x Hx. unfold entry. simpl. rewrite lookup_insert_ne; [done|]. by intros <-.
Qed.

(** A file opened and closed without a node. *)
Lemma close_ok s h f :
  cache_inv cs s h -> fresh_file s f ->
  cache_inv cs (filp_close s f) h /\ same_entries s (filp_close s f).
Proof.
  intros [Hn Hr Hh Hf Hfs Hc Ho Hk] [Hf1 Hf2]. split; [|split; [by intros []|done]].
  split; try done; simpl.
  - by apply list.NoDup_cons.
  - intros x n g Hx Hg [->|Hin]%elem_of_cons; [by eapply Hf2|by eapply Ho].
Qed.

Lemma fresh_same s s' f :
  closed s' = closed s -> (forall x n, heap s' !! x = Some n -> exists m, heap s !! x = Some m /\ cn_filp n = cn_filp m) ->
  fresh_file s f -> fresh_file s' f.
Proof.
  intros Hc Hh [H1 H2]. split; [by rewrite Hc|]. intros a n (m&Hm&->)%Hh. by eapply H2.
Qed.

(** ** Lookup *)

Lemma scan_spec s h l cid path :
  cache_inv cs s h -> (forall a, a ∈ l -> a ∈ all_lists s) ->
  exists r, scan_list cs (heap s) l cid path = Some r /\
    match r with
    | Some a => a ∈ l /\ exists n, heap s !! a = Some n /\
        node_key cs (cn_relative_path n) (cn_cid n) = node_key cs path cid
    | None => forall a n, a ∈ l -> heap s !! a = Some n ->
        node_key cs (cn_relative_path n) (cn_cid n) <> node_key cs path cid
    end.
Proof.
  intros Hi. induction l as [|a l IH]; intros Hl; cbn [scan_list].
  { exists None. split; [done|]. by intros a n ?%elem_of_nil. }
  destruct (listed_live s h a Hi (Hl a ltac:(set_solver))) as (n&f&Hn&_).
  rewrite Hn. cbn [mbind option_bind].
  destruct (dentry_file_match cs n cid path) eqn:E.
  - exists (Some a). split; [done|]. split; [set_solver|]. exists n. split; [done|]. by apply match_key.
  - destruct IH as (r&->&Hr); [intros x Hx; apply Hl; set_solver|]. exists r. split; [done|].
    destruct r as [b|]; [destruct Hr; split; [set_solver|done]|].
    intros x m [->|Hx]%elem_of_cons Hm; [|by eapply Hr].
    rewrite Hn in Hm. injection Hm as <-. intros Hkey. apply match_key in Hkey. congruence.
Qed.

End Inv.
(** ** Dropping listed nodes *)

(** The nodes [l] are off the lists; the entries of the others are kept. *)
Definition dropped (s s' : caches) (l : list Z) : Prop :=
  (forall hd, on_head s' hd = filter (fun x => x ∉ l) (on_head s hd)) /\
  (forall x, x ∉ l -> x ∈ all_lists s -> entry s' x = entry s x).

Lemma same_dropped s s' : same_entries s s' <-> dropped s s' [].
Proof.
  unfold same_entries, dropped. split; intros [H1 H2]; (split; [intros hd; rewrite H1|]).
  - symmetry. apply filter_all. intros x _ ?%elem_of_nil; done.
  - intros x _. apply H2.
  - apply filter_all. intros x _ ?%elem_of_nil; done.
  - intros x. apply H2. by intros ?%elem_of_nil.
Qed.

Lemma dropped_app s1 s2 s3 l1 l2 : dropped s1 s2 l1 -> dropped s2 s3 l2 -> dropped s1 s3 (l1 ++ l2).
Proof.
  intros [H1 E1] [H2 E2]. split.
  - intros hd. rewrite H2, H1, list_filter_filter. apply list_filter_iff. intros x. rewrite elem_of_app. tauto.
  - intros x [Ho1 Ho2]%not_elem_of_app Hx. rewrite E2; [by apply E1|done|].
    apply elem_all_lists in Hx as [hd Hx]. apply elem_all_lists. exists hd.
    rewrite H1, list_elem_of_filter. done.
Qed.

Lemma dropped_elem s s' l a : dropped s s' l -> a ∈ all_lists s' <-> a ∈ all_lists s /\ a ∉ l.
Proof.
  intros [H _]. rewrite !elem_all_lists. setoid_rewrite H. setoid_rewrite list_elem_of_filter. naive_solver.
Qed.

Section Drop.
Context (cs : bool).

Lemma inv_deleted s h f : cache_inv cs s h -> cache_inv cs (delete_dentry_file s f) h.
Proof. by intros []. Qed.

Lemma del_dropped s a : dropped s (list_del_init s a) [a].
Proof.
  split; [|done]. intros hd. rewrite on_head_del. apply list_filter_iff.
  intros x. rewrite list_elem_of_singleton. done.
Qed.

(** Unlinking a node and dropping its list's reference, [del] files being deleted between. *)
Lemma drop_ok s h a s1 :
  cache_inv cs s h -> a ∈ all_lists s ->
  (s1 = list_del_init s a \/ exists f, s1 = delete_dentry_file (list_del_init s a) f) ->
  exists s', release_cfn s1 a = Some s' /\ cache_inv cs s' h /\ dropped s s' [a] /\
             (forall x, x <> a -> heap s' !! x = heap s !! x) /\ (heap s' !! a = None <-> h a = 0).
Proof.
  intros Hi Ha Hs1. pose proof (unlink_ok cs s h a Hi Ha) as Hi1.
  assert (H1 : cache_inv cs s1 (upd h a 1)) by (destruct Hs1 as [->|[f ->]]; [|apply inv_deleted]; done).
  assert (Hd1 : dropped s s1 [a]) by (destruct Hs1 as [->|[f ->]]; [apply del_dropped|]; apply (del_dropped s a)).
  assert (Hheap : heap s1 = heap s) by (by destruct Hs1 as [->|[f ->]]).
  pose proof (inv_held _ _ _ Hi a) as Hp.
  destruct (release_ok cs s1 _ a H1) as (s'&Hr&Hi'&Hs&Hfree&Hother); [rewrite upd_same; lia|].
  exists s'. split; [done|]. split; [by eapply inv_ext; [|done]; intros x; apply (upd_cancel h a 1)|].
  split; [|split].
  - apply same_dropped in Hs. rewrite <- (app_nil_r [a]). by eapply dropped_app.
  - intros x Hx. by rewrite Hother, Hheap.
  - rewrite Hfree, upd_same, (dropped_elem s s1 [a]) by done. rewrite list_elem_of_singleton. intuition lia.
Qed.

Lemma remove_ok s h a :
  cache_inv cs s h -> 0 < h a ->
  exists s', remove_cfn s a = Some s' /\ cache_inv cs s' h /\ dropped s s' [a].
Proof.
  intros Hi Ha. destruct (held_live cs s h a Hi Ha) as [n Hn]. unfold remove_cfn. rewrite Hn. cbn [mbind option_bind].
  unfold on_list. destruct (bool_decide _) eqn:E; zb.
  - destruct (listed_live cs s h a Hi E) as (n'&f&Hn'&Hf). rewrite Hn in Hn'. injection Hn' as <-. rewrite Hf. cbn.
    destruct (drop_ok s h a _ Hi E (or_intror (ex_intro _ f eq_refl))) as (s'&?&?&?&_). eauto.
  - exists s. split; [done|]. split; [done|]. split; [|done]. intros hd. symmetry. apply filter_all.
    intros x Hx ->%list_elem_of_singleton. by apply elem_on_head in Hx.
Qed.

Lemma destroy_loop_ok h l : forall s,
  cache_inv cs s h -> NoDup l -> (forall a, a ∈ l -> a ∈ all_lists s) ->
  exists s', destroy_loop s l = Some s' /\ cache_inv cs s' h /\ dropped s s' l.
Proof.
  induction l as [|a l IH]; intros s Hi Hnd Hl; cbn [destroy_loop].
  { exists s. split; [done|]. split; [done|]. by apply same_dropped. }
  apply list.NoDup_cons in Hnd as [Ha Hnd].
  destruct (drop_ok s h a _ Hi (Hl a ltac:(set_solver)) (or_introl eq_refl)) as (s1&->&Hi1&Hd1&_).
  cbn [mbind option_bind].
  destruct (IH s1 Hi1 Hnd) as (s'&->&Hi'&Hd'); [|exists s'; split; [done|split; [done|]]].
  - intros x Hx. apply (dropped_elem s s1 [a]); [done|]. split; [apply Hl; set_solver|set_solver].
  - by apply (dropped_app s s1 s' [a] l).
Qed.

Lemma delete_loop_ok h l : forall s,
  cache_inv cs s h -> NoDup l -> (forall a, a ∈ l -> a ∈ all_lists s) ->
  exists s', delete_loop s l = Some s' /\ cache_inv cs s' h /\ dropped s s' l.
Proof.
  induction l as [|a l IH]; intros s Hi Hnd Hl; cbn [delete_loop].
  { exists s. split; [done|]. split; [done|]. by apply same_dropped. }
  apply list.NoDup_cons in Hnd as [Ha Hnd].
  destruct (listed_live cs s h a Hi (Hl a ltac:(set_solver))) as (n&f&->&Hf). cbn [mbind option_bind].
  rewrite Hf. cbn [mbind option_bind].
  destruct (drop_ok s h a _ Hi (Hl a ltac:(set_solver)) (or_intror (ex_intro _ f eq_refl))) as (s1&Hs1&Hi1&Hd1&_).
  change (list_del_init (delete_dentry_file s f) a) with (delete_dentry_file (list_del_init s a) f).
  rewrite Hs1. cbn [mbind option_bind].
  destruct (IH s1 Hi1 Hnd) as (s'&->&Hi'&Hd'); [|exists s'; split; [done|split; [done|]]].
  - intros x Hx. apply (dropped_elem s s1 [a]); [done|]. split; [apply Hl; set_solver|set_solver].
  - by apply (dropped_app s s1 s' [a] l).
Qed.

(** The nodes dropped are those of the list with exactly this path. *)
Lemma by_path_loop_ok h path l : forall s,
  cache_inv cs s h -> NoDup l -> (forall a, a ∈ l -> a ∈ all_lists s) ->
  exists s' d, by_path_loop s l path = Some s' /\ cache_inv cs s' h /\ dropped s s' d /\
    (forall a, a ∈ d <-> a ∈ l /\ exists n, heap s !! a = Some n /\ cn_relative_path n = path).
Proof.
  induction l as [|a l IH]; intros s Hi Hnd Hl; cbn [by_path_loop].
  { exists s, []. split; [done|]. split; [done|]. split; [by apply same_dropped|]. set_solver. }
  apply list.NoDup_cons in Hnd as [Ha Hnd].
  destruct (listed_live cs s h a Hi (Hl a ltac:(set_solver))) as (n&f&Hn&Hf). rewrite Hn. cbn [mbind option_bind].
  destruct (beqb path (cn_relative_path n)) eqn:E.
  - apply beqb_eq in E. rewrite Hf. cbn [mbind option_bind].
    destruct (drop_ok s h a _ Hi (Hl a ltac:(set_solver)) (or_intror (ex_intro _ f eq_refl)))
      as (s1&->&Hi1&Hd1&Hoth&_). cbn [mbind option_bind].
    destruct (IH s1 Hi1 Hnd) as (s'&d&->&Hi'&Hd'&Hd).
    { intros x Hx. apply (dropped_elem s s1 [a]); [done|]. split; [apply Hl; set_solver|set_solver]. }
    exists s', ([a] ++ d). split; [done|]. split; [done|]. split; [by eapply dropped_app|].
    intros x. rewrite elem_of_app, list_elem_of_singleton, Hd, elem_of_cons. split.
    + intros [->|[Hx (m&Hm&?)]]; [by eauto 10|]. rewrite Hoth in Hm by set_solver. eauto 10.
    + intros [[->|Hx] (m&Hm&?)]; [by left|]. right. split; [done|]. exists m. by rewrite Hoth by set_solver.
  - destruct (IH s Hi Hnd) as (s'&d&->&Hi'&Hd'&Hd); [set_solver|].
    exists s', d. split; [done|]. split; [done|]. split; [done|].
    intros x. rewrite Hd, elem_of_cons. split; [tauto|].
    intros [[->|Hx] (m&Hm&Hp)]; [|by eauto]. rewrite Hn in Hm. injection Hm as <-.
    rewrite <- Hp, beqb_refl in E. done.
Qed.

Lemma heads_nodup s h hd : cache_inv cs s h -> NoDup (on_head s hd).
Proof.
  intros Hi. pose proof (inv_nodup _ _ _ Hi) as Hn. unfold all_lists in Hn.
  apply list.NoDup_app in Hn as (?&_&(?&_&?)%list.NoDup_app). by destruct hd.
Qed.

Lemma lists_disjoint s h a hd hd' :
  cache_inv cs s h -> a ∈ on_head s hd -> a ∈ on_head s hd' -> hd = hd'.
Proof.
  intros Hi. pose proof (inv_nodup _ _ _ Hi) as Hn. unfold all_lists in Hn.
  apply list.NoDup_app in Hn as (_&H1&(_&H2&_)%list.NoDup_app).
  destruct hd, hd'; simpl; intros A B; try done; exfalso.
  all: try (eapply (H1 a); [done|apply elem_of_app; tauto]); by eapply (H2 a).
Qed.

End Drop.
(** * The abstract cache: an association list per side *)

Definition cache_map (s : caches) (server : bool) : list (bytes * bytes * Z) :=
  omap (entry s) (on_head s (get_list_head server)).

Definition key_of (cs : bool) (e : bytes * bytes * Z) : bytes * bytes := node_key cs e.1.1 e.1.2.

(** The entry a lookup of [path] and [cid] answers. *)
Definition assoc (cs : bool) (path cid : bytes) (m : list (bytes * bytes * Z)) : option (bytes * bytes * Z) :=
  List.find (fun e => bool_decide (key_of cs e = node_key cs path cid)) m.

Lemma omap_ext_in {A B} (f g : A -> option B) (l : list A) : (forall x, x ∈ l -> f x = g x) -> omap f l = omap g l.
Proof.
  induction l as [|x l IH]; intros H; [done|]. cbn. rewrite H by set_solver.
  change (list_omap A B f l) with (omap f l). change (list_omap A B g l) with (omap g l).
  rewrite IH by set_solver. done.
Qed.

Lemma omap_app_one {A B} (f : A -> option B) (l : list A) x y : f x = Some y -> omap f (l ++ [x]) = omap f l ++ [y].
Proof. intros H. rewrite omap_app. f_equal. cbn. by rewrite H. Qed.

Section Spec.
Context (cs : bool).

Lemma map_same s s' b : same_entries s s' -> cache_map s' b = cache_map s b.
Proof.
  intros [Hh He]. unfold cache_map. rewrite Hh. apply omap_ext_in. intros a Ha. apply He. by eapply elem_on_head.
Qed.

Lemma listed_entry s h a : cache_inv cs s h -> a ∈ all_lists s ->
  exists n f, heap s !! a = Some n /\ cn_filp n = Some f /\
    entry s a = Some (cn_relative_path n, cn_cid n, f).
Proof.
  intros Hi Ha. destruct (listed_live cs s h a Hi Ha) as (n&f&Hn&Hf). exists n, f.
  split; [done|]. split; [done|]. unfold entry. rewrite Hn. cbn. by rewrite Hf.
Qed.

(** Dropping the nodes whose entries satisfy [P] filters the map. *)
Lemma map_dropped s s' h d b (P : bytes * bytes * Z -> Prop) `{forall e, Decision (P e)} :
  cache_inv cs s h -> dropped s s' d ->
  (forall a e, a ∈ on_head s (get_list_head b) -> entry s a = Some e -> a ∉ d <-> P e) ->
  cache_map s' b = filter P (cache_map s b).
Proof.
  intros Hi [Hh He] Hd. unfold cache_map. rewrite Hh.
  assert (Hall : forall a, a ∈ on_head s (get_list_head b) -> a ∈ all_lists s) by (intros; by eapply elem_on_head).
  revert Hd Hall. generalize (on_head s (get_list_head b)). intros l.
  induction l as [|a l IH]; intros Hd Hall; [done|].
  destruct (listed_entry s h a Hi (Hall a ltac:(set_solver))) as (n&f&_&_&Ee).
  assert (IH' : omap (entry s') (filter (fun x => x ∉ d) l) = filter P (omap (entry s) l))
    by (apply IH; [intros x e ?; apply Hd|intros x ?; apply Hall]; set_solver).
  assert (Hcons : omap (entry s) (a :: l) = (cn_relative_path n, cn_cid n, f) :: omap (entry s) l)
    by (cbn; by rewrite Ee).
  rewrite Hcons. pose proof (Hd a _ ltac:(set_solver) Ee) as Ha.
  destruct (decide (a ∈ d)) as [Hin|Hout].
  - rewrite filter_cons_False by tauto. rewrite filter_cons_False by tauto. done.
  - rewrite filter_cons_True by done. rewrite filter_cons_True by tauto. cbn.
    rewrite He by (try done; apply Hall; set_solver). rewrite Ee. f_equal. apply IH'.
Qed.

(** The entry found among the nodes of a list. *)
Lemma assoc_map s h b cid path r :
  cache_inv cs s h ->
  match r with
  | Some a => a ∈ on_head s (get_list_head b) /\ exists n, heap s !! a = Some n /\
      node_key cs (cn_relative_path n) (cn_cid n) = node_key cs path cid
  | None => forall a n, a ∈ on_head s (get_list_head b) -> heap s !! a = Some n ->
      node_key cs (cn_relative_path n) (cn_cid n) <> node_key cs path cid
  end ->
  assoc cs path cid (cache_map s b) = (a ← r; entry s a).
Proof.
  intros Hi Hr. unfold assoc, cache_map.
  assert (Hall : forall a, a ∈ on_head s (get_list_head b) -> a ∈ all_lists s) by (intros; by eapply elem_on_head).
  pose proof (inv_keys _ _ _ Hi b) as Hk.
  revert Hr Hall Hk. generalize (on_head s (get_list_head b)). intros l.
  induction l as [|a l IH]; intros Hr Hall Hk.
  { destruct r as [a|]; [destruct Hr as [?%elem_of_nil _]|]; done. }
  destruct (listed_entry s h a Hi (Hall a ltac:(set_solver))) as (n&f&Hn&_&Ee).
  assert (Hcons : omap (entry s) (a :: l) = (cn_relative_path n, cn_cid n, f) :: omap (entry s) l)
    by (cbn; by rewrite Ee).
  rewrite Hcons. cbn [List.find]. unfold key_of at 1. cbn [fst snd]. case_bool_decide as Hdec.
  - destruct r as [a'|]; [|by destruct (Hr a n ltac:(set_solver) Hn)].
    destruct Hr as (Hin&n'&Hn'&Hkey'). cbn. rewrite <- Ee. f_equal.
    apply (Hk a a' n n'); [set_solver|done|done|done|congruence].
  - apply IH; [|set_solver|intros x y n1 n2 ??; apply Hk; set_solver].
    destruct r as [a'|]; [|intros x m ?; apply Hr; set_solver].
    destruct Hr as ([->|Hin]%elem_of_cons&n'&Hn'&Hkey'); [|by eauto].
    rewrite Hn in Hn'. injection Hn' as <-. done.
Qed.

Lemma find_ok s h cid path b :
  cache_inv cs s h ->
  exists r s', find_cfn cs s cid path b = Some (r, s') /\ same_entries s s' /\ closed s' = closed s /\
    dom (heap s') = dom (heap s) /\
    (forall x n, heap s' !! x = Some n -> exists m, heap s !! x = Some m /\ cn_filp n = cn_filp m) /\
    assoc cs path cid (cache_map s b) = (a ← r; entry s a) /\
    match r with
    | Some a => cache_inv cs s' (upd h a 1) /\ a ∈ on_head s (get_list_head b)
    | None => s' = s
    end.
Proof.
  intros Hi. unfold find_cfn, __find_cfn.
  destruct (scan_spec cs s h (on_head s (get_list_head b)) cid path Hi) as (r&->&Hr);
    [intros; by eapply elem_on_head|]. cbn [mbind option_bind].
  pose proof (assoc_map s h b cid path r Hi Hr) as Ha.
  destruct r as [a|].
  - destruct Hr as (Hin&n&Hn&_). destruct (inc_ok cs s h a n Hi Hn) as (s'&Hinc&Hi'&Hs&Hdom).
    rewrite Hinc. cbn [mbind option_bind]. unfold refcount_inc in Hinc. rewrite Hn in Hinc.
    cbn in Hinc. injection Hinc as <-. do 2 eexists; split; [done|]. do 3 (split; [done|]).
    split; [|by auto]. intros x m. simpl. rewrite lookup_insert_Some. intros [[<- <-]|[_ ?]]; eauto.
  - do 2 eexists; split; [done|]. eauto 10 with hmdfs.
Qed.

End Spec.
Section Operations.
Context (cs : bool).

Lemma set_heap_id s : set_heap s (heap s) = s.
Proof. by destruct s. Qed.

(** Giving back the reference a lookup took restores the state. *)
Lemma find_release s h cid path b a s' :
  cache_inv cs s h -> find_cfn cs s cid path b = Some (Some a, s') -> release_cfn s' a = Some s.
Proof.
  intros Hi. unfold find_cfn, __find_cfn.
  destruct (scan_list _ _ _ _ _) as [[a'|]|]; cbn [mbind option_bind]; try done.
  unfold refcount_inc. destruct (heap s !! a') as [n|] eqn:Hn; cbn; [|done]. intros [= <- <-].
  pose proof (inv_ref _ _ _ Hi a') as Hr. rewrite Hn in Hr.
  unfold release_cfn. simpl. rewrite lookup_insert_eq. cbn [mbind option_bind cn_ref with_ref].
  destruct (_ =? 0) eqn:E; zb; [lia|]. f_equal. unfold set_heap. simpl.
  rewrite insert_insert_eq. unfold with_ref. simpl. replace (cn_ref n + 1 - 1) with (cn_ref n) by lia.
  rewrite insert_id; [by destruct s|]. rewrite Hn. by destruct n.
Qed.

Lemma assoc_none s h b cid path x m :
  cache_inv cs s h -> assoc cs path cid (cache_map s b) = None ->
  x ∈ on_head s (get_list_head b) -> heap s !! x = Some m ->
  node_key cs (cn_relative_path m) (cn_cid m) <> node_key cs path cid.
Proof.
  intros Hi Ha Hx Hm Hk. destruct (listed_entry cs s h x Hi (elem_on_head _ _ _ Hx)) as (n&f&Hn&_&Ee).
  rewrite Hm in Hn. injection Hn as <-.
  assert (Hin : (cn_relative_path m, cn_cid m, f) ∈ cache_map s b) by (apply list_elem_of_omap; eauto).
  apply list_elem_of_In in Hin. pose proof (List.find_none _ _ Ha _ Hin) as Hf. cbn in Hf.
  apply bool_decide_eq_false in Hf. by apply Hf.
Qed.

Lemma map_add s h a n f hd b :
  cache_inv cs s h -> heap s !! a = Some n -> cn_filp n = Some f ->
  cache_map (list_add_tail s a hd) b =
  if decide (get_list_head b = hd) then cache_map s b ++ [(cn_relative_path n, cn_cid n, f)] else cache_map s b.
Proof.
  intros Hi Hn Hf. unfold cache_map. rewrite on_head_add.
  assert (He : forall l : list Z, omap (entry (list_add_tail s a hd)) l = omap (entry s) l)
    by (intros l; apply omap_ext_in; intros x _; by destruct hd).
  rewrite He. destruct (decide _); [|done]. apply omap_app_one. unfold entry. rewrite Hn. cbn. by rewrite Hf.
Qed.

(** The node create_cfn yields. *)
Definition new_node (path cid : bytes) (server : bool) (f : option Z) : cache_file_node :=
  Cfn path (take 64 cid) f 1 server.

Lemma create_spec s alloc dup path cid b :
  (forall a, alloc = Some a -> heap s !! a = None) ->
  create_cfn s alloc dup path cid b = Some
    match alloc with
    | Some a => if dup then (Some a, set_heap s (<[a := new_node path cid b None]> (heap s))) else (None, s)
    | None => (None, s)
    end.
Proof.
  intros Hn. unfold create_cfn. destruct alloc as [a|]; [|done]. destruct dup; [done|].
  unfold free_cfn. simpl. rewrite lookup_insert_eq. cbn [mbind option_bind]. simpl.
  rewrite delete_insert_id by auto. by destruct s.
Qed.

Lemma unheld s h a : cache_inv cs s h -> heap s !! a = None -> h a = 0.
Proof. intros Hi Ha. pose proof (inv_ref _ _ _ Hi a) as Hr. rewrite Ha in Hr. tauto. Qed.

(** Freeing the node just made restores the invariant and the lists. *)
Lemma free_new s h a n :
  cache_inv cs s (upd h a 1) -> heap s !! a = Some n -> a ∉ all_lists s -> h a = 0 ->
  exists s', free_cfn s a = Some s' /\ cache_inv cs s' h /\ same_entries s s'.
Proof.
  intros Hi Hn Ho H0. destruct (free_ok cs s _ a n Hi Hn Ho) as (s'&?&Hi'&?&_).
  { rewrite upd_same. lia. }
  exists s'. split; [done|]. split; [|done]. eapply inv_ext; [|done]. intros x. apply (upd_cancel h a 1).
Qed.

(** Linking the node just made. *)
Lemma link_new s h a path cid b f hd :
  cache_inv cs s h -> heap s !! a = None -> fresh_file s f ->
  (hd <> TO_DELETE -> hd = get_list_head b /\ assoc cs path cid (cache_map s b) = None) ->
  let s' := list_add_tail (set_heap s (<[a := new_node path cid b (Some f)]> (heap s))) a hd in
  cache_inv cs s' h /\
  forall b', cache_map s' b' =
    if decide (get_list_head b' = hd) then cache_map s b' ++ [(path, take 64 cid, f)] else cache_map s b'.
Proof.
  intros Hi Ha Hf Hk. set (n := new_node _ _ _ _). set (s1 := set_heap _ _).
  destruct (alloc_ok cs s h a n Hi Ha eq_refl) as (Hi1&Hs&Hout); [by intros g [= <-]|].
  assert (Hn : heap s1 !! a = Some n) by (simpl; by rewrite lookup_insert_eq).
  intros s'. split.
  - eapply inv_ext; [intros x; apply (upd_cancel h a 1)|].
    apply (link_ok cs s1 _ a n f hd); [done|rewrite upd_same; pose proof (inv_held _ _ _ Hi a); lia|done|done|done|].
    intros x m Hhd Hx Hm. destruct (Hk Hhd) as [-> Hnone].
    rewrite <- (map_same s s1) in Hnone by done. pose proof (assoc_none s1 _ b cid path x m Hi1 Hnone Hx Hm) as Hne.
    intros Heq. apply Hne. rewrite Heq. unfold node_key. simpl. by rewrite take_take.
  - intros b'. subst s'. rewrite (map_add s1 _ a n f hd b' Hi1 Hn eq_refl).
    by rewrite (map_same s s1) by done.
Qed.

Lemma insert_ok s h alloc dup opened path cid b :
  cache_inv cs s h -> (forall a, alloc = Some a -> heap s !! a = None) ->
  (forall f, opened = inr f -> fresh_file s f) ->
  exists r s', insert_cfn cs s alloc dup opened path cid b = Some (r, s') /\ cache_inv cs s' h /\
    r = match alloc, opened with
        | Some _, inl e => if dup then inl e else inl (- ENOMEM)
        | Some _, inr f =>
            if dup then match assoc cs path cid (cache_map s b) with Some _ => inl (- EEXIST) | None => inr f end
            else inl (- ENOMEM)
        | None, _ => inl (- ENOMEM)
        end /\
    forall b', cache_map s' b' =
      match r with
      | inr f => if decide (b' = b) then cache_map s b' ++ [(path, take 64 cid, f)] else cache_map s b'
      | inl _ => cache_map s b'
      end.
Proof.
  intros Hi Ha Hf. unfold insert_cfn. rewrite create_spec by done. cbn [mbind option_bind].
  destruct alloc as [a|]; [destruct dup|];
    [|do 2 eexists; (split; [done|]); (split; [done|]); split; [by destruct opened|done]..].
  specialize (Ha a eq_refl).
  set (n := new_node path cid b None). set (s1 := set_heap s _).
  destruct (alloc_ok cs s h a n Hi Ha eq_refl) as (Hi1&Hs&Hout); [done|].
  assert (Hn : heap s1 !! a = Some n) by (simpl; by rewrite lookup_insert_eq).
  assert (H0 := unheld s h a Hi Ha).
  destruct opened as [e|f].
  { destruct (free_new s1 h a n Hi1 Hn Hout H0) as (s'&->&Hi'&Hs'). cbn [mbind option_bind].
    do 2 eexists; split; [done|]. split; [done|]. split; [done|]. intros b'.
    rewrite (map_same s1 s'), (map_same s s1); done. }
  specialize (Hf f eq_refl).
  destruct (find_ok cs s1 _ cid path b Hi1) as (r&s2&Hfind&_&_&_&_&Hassoc&Hr).
  pose proof Hfind as Hfind'. unfold find_cfn in Hfind'. rewrite Hfind'. cbn [mbind option_bind].
  rewrite (map_same s s1) in Hassoc by done. rewrite Hassoc.
  destruct r as [a'|].
  - destruct Hr as [_ Hin]. destruct (listed_entry cs s1 _ a' Hi1 (elem_on_head _ _ _ Hin)) as (?&?&_&_&Ee).
    cbn [mbind option_bind]. rewrite Ee.
    rewrite (find_release s1 _ cid path b a' s2 Hi1 Hfind). cbn [mbind option_bind].
    destruct (close_ok cs s1 _ f Hi1) as [Hi3 Hs3].
    { destruct Hf as [Hf1 Hf2]. split; [done|]. intros y m. simpl. rewrite lookup_insert_Some.
      intros [[_ <-]|[_ ?]]; [done|by eapply Hf2]. }
    destruct (free_new (filp_close s1 f) h a n Hi3 Hn Hout H0) as (s'&->&Hi'&Hs'). cbn [mbind option_bind].
    do 2 eexists; split; [done|]. split; [done|]. split; [done|]. intros b'.
    rewrite (map_same (filp_close s1 f) s'), (map_same s1 (filp_close s1 f)), (map_same s s1); done.
  - subst s2. rewrite Hn. cbn [mbind option_bind].
    destruct (link_new s h a path cid b f (get_list_head b) Hi Ha Hf) as [Hi' Hmap]; [by intros _; split|].
    assert (Heq : set_heap s1 (<[a := with_filp n (Some f)]> (heap s1)) =
                  set_heap s (<[a := new_node path cid b (Some f)]> (heap s)))
      by (unfold set_heap; simpl; by rewrite insert_insert_eq).
    rewrite Heq. do 2 eexists; split; [done|]. split; [done|]. split; [done|]. intros b'. rewrite Hmap.
    by repeat destruct (decide _); subst; try done; destruct b, b'.
Qed.

End Operations.
(** ** Loading, destroying and deleting *)

Section Whole.
Context (cs : bool) (dcache_threshold : Z) (read_header : Z -> option (Z * Z)) (i_size : Z -> Z).

(** A file a load keeps: a cloud one, or one with enough entries and the mount's case. *)
Definition load_admits (f : Z) (cid : bytes) : bool :=
  beqb cid CLOUD_CID ||
  ((dcache_threshold <=? cache_get_dentry_count read_header i_size f) &&
   cache_check_case_sensitive cs read_header f).

Definition load_links (s : caches) (alloc : option Z) (dup : bool) (opened : Z + Z) (path cid : bytes) (b : bool) : bool :=
  match alloc, opened with
  | Some _, inr f => dup && load_admits f cid &&
                     match assoc cs path cid (cache_map s b) with Some _ => false | None => true end
  | _, _ => false
  end.

Lemma load_guard {A} f cid (drop keep : A) :
  (if (cache_get_dentry_count read_header i_size f <? dcache_threshold) && negb (beqb cid CLOUD_CID) then drop
   else if negb (cache_check_case_sensitive cs read_header f) && negb (beqb cid CLOUD_CID) then drop
   else keep) = if load_admits f cid then keep else drop.
Proof.
  unfold load_admits. rewrite (Z.leb_antisym _ dcache_threshold).
  by destruct (_ <? _), (beqb _ _), (cache_check_case_sensitive _ _ _).
Qed.

Lemma load_ok s h alloc dup opened path cid b :
  cache_inv cs s h -> (forall a, alloc = Some a -> heap s !! a = None) ->
  (forall f, opened = inr f -> fresh_file s f) ->
  exists s', load_cfn cs dcache_threshold read_header i_size s alloc dup opened path cid b = Some s' /\
    cache_inv cs s' h /\
    forall b', cache_map s' b' =
      match opened with
      | inr f => if load_links s alloc dup opened path cid b && bool_decide (b' = b)
                 then cache_map s b' ++ [(path, take 64 cid, f)] else cache_map s b'
      | inl _ => cache_map s b'
      end.
Proof.
  intros Hi Ha Hf. unfold load_cfn. rewrite create_spec by done. cbn [mbind option_bind].
  destruct alloc as [a|]; [destruct dup|];
    [|eexists; (split; [done|]); (split; [done|]); by destruct opened..].
  specialize (Ha a eq_refl).
  set (n := new_node path cid b None). set (s1 := set_heap s _).
  destruct (alloc_ok cs s h a n Hi Ha eq_refl) as (Hi1&Hs&Hout); [done|].
  assert (Hn : heap s1 !! a = Some n) by (simpl; by rewrite lookup_insert_eq).
  assert (H0 := unheld cs s h a Hi Ha). rewrite Hn. cbn [mbind option_bind].
  destruct opened as [e|f].
  { destruct (free_new cs s1 h a n Hi1 Hn Hout H0) as (s'&->&Hi'&Hs').
    eexists; split; [done|]. split; [done|]. intros b'. rewrite (map_same s1 s'), (map_same s s1); done. }
  specialize (Hf f eq_refl). set (s2 := set_heap s1 _). set (n2 := new_node path cid b (Some f)).
  assert (Heq : s2 = set_heap s (<[a := n2]> (heap s)))
    by (subst s2; unfold set_heap; simpl; by rewrite insert_insert_eq).
  destruct (link_new cs s h a path cid b f TO_DELETE Hi Ha Hf) as [Hdel Hdmap]; [done|].
  destruct (alloc_ok cs s h a n2 Hi Ha eq_refl) as (Hi2&Hs2&_); [by intros g [= <-]|].
  cbn zeta in Hdel, Hdmap. fold n2 in Hdel, Hdmap. rewrite <- Heq in Hdel, Hdmap, Hi2, Hs2.
  assert (Hmap0 : cache_map s2 b = cache_map s b) by (by apply (map_same s s2)).
  assert (Hnolink : load_links s (Some a) true (inr f) path cid b = false ->
    exists s', Some (add_to_delete_list s2 a) = Some s' /\ cache_inv cs s' h /\ (forall b', cache_map s' b' =
      if load_links s (Some a) true (inr f) path cid b && bool_decide (b' = b)
      then cache_map s b' ++ [(path, take 64 cid, f)] else cache_map s b')).
  { intros ->. eexists; split; [done|]. split; [done|]. intros b'. unfold add_to_delete_list.
    rewrite Hdmap. by destruct b'. }
  rewrite load_guard. destruct (load_admits f cid) eqn:Eadm;
    [|apply Hnolink; unfold load_links; by rewrite Eadm].
  destruct (find_ok cs s2 _ cid path b Hi2) as (r&s3&Hfind&_&_&_&_&Hassoc&Hr).
  pose proof Hfind as Hfind'. unfold find_cfn in Hfind'. rewrite Hfind'. cbn [mbind option_bind].
  rewrite Hmap0 in Hassoc. destruct r as [a'|].
  - destruct Hr as [_ Hin]. destruct (listed_entry cs s2 _ a' Hi2 (elem_on_head _ _ _ Hin)) as (?&?&_&_&Ee).
    rewrite (find_release cs s2 _ cid path b a' s3 Hi2 Hfind). cbn [mbind option_bind].
    apply Hnolink. unfold load_links. rewrite Eadm, Hassoc. cbn [mbind option_bind]. by rewrite Ee.
  - subst s3. destruct (link_new cs s h a path cid b f (get_list_head b) Hi Ha Hf) as [Hi' Hmap]; [by intros _; split|].
    cbn zeta in Hi', Hmap. fold n2 in Hi', Hmap. rewrite <- Heq in Hi', Hmap.
    eexists; split; [done|]. split; [done|]. intros b'. rewrite Hmap. unfold load_links. rewrite Eadm, Hassoc.
    by destruct b, b'.
Qed.

End Whole.

Section Deletions.
Context (cs : bool).

Lemma destroy_ok s h :
  cache_inv cs s h ->
  exists s', hmdfs_cfn_destroy s = Some s' /\ cache_inv cs s' h /\
    dropped s s' (client_cache s ++ server_cache s).
Proof.
  intros Hi. unfold hmdfs_cfn_destroy, __destroy_cfn.
  destruct (destroy_loop_ok cs h (client_cache s) s Hi) as (s1&Hd1&Hi1&Hdr1);
    [by apply (heads_nodup cs s h CLIENT_CACHE)|intros a; apply (elem_on_head s CLIENT_CACHE)|].
  simpl on_head. rewrite Hd1. cbn [mbind option_bind].
  assert (Hsrv : server_cache s1 = server_cache s).
  { change (on_head s1 SERVER_CACHE = on_head s SERVER_CACHE). rewrite (proj1 Hdr1). apply filter_all.
    intros x Hx Hc. by pose proof (lists_disjoint cs s h x SERVER_CACHE CLIENT_CACHE Hi Hx Hc). }
  rewrite Hsrv.
  destruct (destroy_loop_ok cs h (server_cache s) s1 Hi1) as (s2&Hd2&Hi2&Hdr2).
  - by apply (heads_nodup cs s h SERVER_CACHE).
  - intros a Ha. apply (elem_on_head s1 SERVER_CACHE). simpl. by rewrite Hsrv.
  - exists s2. split; [done|]. split; [done|]. by eapply dropped_app.
Qed.

Lemma useless_ok s h :
  cache_inv cs s h ->
  exists s', hmdfs_delete_useless_cfn s = Some s' /\ cache_inv cs s' h /\ dropped s s' (to_delete s).
Proof.
  intros Hi. apply delete_loop_ok; [done|by apply (heads_nodup cs s h TO_DELETE)|].
  intros a. apply (elem_on_head s TO_DELETE).
Qed.

Lemma by_path_head s h hd path :
  cache_inv cs s h ->
  exists s' d, __cache_file_destroy_by_path s hd path = Some s' /\ cache_inv cs s' h /\ dropped s s' d /\
    (forall a, a ∈ d <-> a ∈ on_head s hd /\ exists n, heap s !! a = Some n /\ cn_relative_path n = path).
Proof.
  intros Hi. apply by_path_loop_ok; [done|by eapply heads_nodup|]. intros a. apply elem_on_head.
Qed.

Definition other_path (path : bytes) (e : bytes * bytes * Z) : Prop := e.1.1 <> path.
#[export] Instance other_path_dec path e : Decision (other_path path e).
Proof. unfold other_path. apply _. Defined.

Lemma by_path_map s s' h d hd path b :
  cache_inv cs s h -> dropped s s' d ->
  (forall a, a ∈ d <-> a ∈ on_head s hd /\ exists n, heap s !! a = Some n /\ cn_relative_path n = path) ->
  cache_map s' b = if decide (hd = get_list_head b) then filter (other_path path) (cache_map s b) else cache_map s b.
Proof.
  intros Hi Hd Hiff. destruct (decide _) as [->|Hne].
  - eapply map_dropped; [done|done|]. intros a e Ha He.
    destruct (listed_entry cs s h a Hi (elem_on_head _ _ _ Ha)) as (n&f&Hn&_&Ee).
    rewrite Ee in He. injection He as <-. unfold other_path. simpl. rewrite Hiff. split; [|naive_solver].
    intros Hno Hp. apply Hno. eauto.
  - rewrite (map_dropped cs s s' h d b (fun _ => True) Hi Hd); [by apply filter_all|].
    intros a e Ha _. rewrite Hiff. split; [done|]. intros _ [Hc _]. by apply Hne; eapply lists_disjoint.
Qed.

Lemma by_path_ok s h path :
  cache_inv cs s h ->
  exists s', cache_file_destroy_by_path s path = Some s' /\ cache_inv cs s' h /\
    forall b, cache_map s' b = filter (other_path path) (cache_map s b).
Proof.
  intros Hi. unfold cache_file_destroy_by_path.
  destruct (by_path_head s h SERVER_CACHE path Hi) as (s1&d1&->&Hi1&Hd1&Hiff1). cbn [mbind option_bind].
  destruct (by_path_head s1 h CLIENT_CACHE path Hi1) as (s2&d2&->&Hi2&Hd2&Hiff2).
  exists s2. split; [done|]. split; [done|]. intros b.
  rewrite (by_path_map s1 s2 h d2 CLIENT_CACHE path b Hi1 Hd2 Hiff2).
  rewrite (by_path_map s s1 h d1 SERVER_CACHE path b Hi Hd1 Hiff1). by destruct b.
Qed.

Definition other_key (path cid : bytes) (e : bytes * bytes * Z) : Prop := key_of cs e <> node_key cs path cid.
#[export] Instance other_key_dec path cid e : Decision (other_key path cid e).
Proof. unfold other_key. apply _. Defined.

(** Taking a node off its list leaves no node that answers the same lookup. *)
Lemma remove_map s s' h a n b b' :
  cache_inv cs s h -> dropped s s' [a] -> a ∈ on_head s (get_list_head b) -> heap s !! a = Some n ->
  cache_map s' b' = if decide (b' = b) then filter (other_key (cn_relative_path n) (cn_cid n)) (cache_map s b')
                    else cache_map s b'.
Proof.
  intros Hi Hd Ha Hn. destruct (decide _) as [->|Hne].
  - eapply map_dropped; [done|done|]. intros x e Hx He.
    destruct (listed_entry cs s h x Hi (elem_on_head _ _ _ Hx)) as (m&f&Hm&_&Ee).
    rewrite Ee in He. injection He as <-. rewrite list_elem_of_singleton. unfold other_key, key_of. simpl. split.
    + intros Hxa Hk. apply Hxa. by eapply (inv_keys _ _ _ Hi b).
    + intros Hk ->. apply Hk. congruence.
  - rewrite (map_dropped cs s s' h [a] b' (fun _ => True) Hi Hd); [by apply filter_all|].
    intros x e Hx _. rewrite list_elem_of_singleton. split; [done|]. intros _ ->.
    pose proof (lists_disjoint cs s h a _ _ Hi Hx Ha). by destruct b, b'.
Qed.

(** What is known of the node a lookup returns. *)
Lemma find_found s h cid path b a s1 :
  cache_inv cs s h -> find_cfn cs s cid path b = Some (Some a, s1) ->
  same_entries s s1 /\ cache_inv cs s1 (upd h a 1) /\ a ∈ on_head s1 (get_list_head b) /\
  exists n f, heap s1 !! a = Some n /\ cn_filp n = Some f /\
    node_key cs (cn_relative_path n) (cn_cid n) = node_key cs path cid /\
    assoc cs path cid (cache_map s b) = Some (cn_relative_path n, cn_cid n, f).
Proof.
  intros Hi E. destruct (find_ok cs s h cid path b Hi) as (r&s'&E'&Hs&_&_&_&Hassoc&Hr).
  rewrite E in E'. injection E' as <- <-. destruct Hr as [Hi1 Hin]. split; [done|]. split; [done|].
  rewrite (proj1 Hs). split; [done|].
  rewrite <- (proj1 Hs) in Hin. destruct (listed_entry cs s1 _ a Hi1 (elem_on_head _ _ _ Hin)) as (n&f&Hn&Hf&Ee).
  cbn [mbind option_bind] in Hassoc. rewrite <- (proj2 Hs), Ee in Hassoc
    by (rewrite <- (on_head_lists _ _ (proj1 Hs)); by eapply elem_on_head).
  exists n, f. repeat split; try done. apply List.find_some in Hassoc as [_ Hb]. by apply bool_decide_eq_true in Hb.
Qed.

Lemma filter_absent path cid m : assoc cs path cid m = None -> filter (other_key path cid) m = m.
Proof.
  intros Hassoc. apply filter_all. intros e He. apply list_elem_of_In in He.
  pose proof (List.find_none _ _ Hassoc _ He) as Hb. cbn in Hb. by apply bool_decide_eq_false in Hb.
Qed.

Lemma held_after_find s h a : cache_inv cs s h -> 0 < upd h a 1 a.
Proof. intros Hi. rewrite upd_same. pose proof (inv_held _ _ _ Hi a). lia. Qed.

(** Looking a node up, taking it off its list and giving the reference back. *)
Lemma find_remove_release s h cid path b a s1 :
  cache_inv cs s h -> find_cfn cs s cid path b = Some (Some a, s1) ->
  exists s2 s3, remove_cfn s1 a = Some s2 /\ release_cfn s2 a = Some s3 /\ cache_inv cs s3 h /\
    forall b', cache_map s3 b' = if decide (b' = b) then filter (other_key path cid) (cache_map s b') else cache_map s b'.
Proof.
  intros Hi E. destruct (find_found s h cid path b a s1 Hi E) as (Hs&Hi1&Hin&n&f&Hn&_&Hkey&_).
  pose proof (held_after_find s h a Hi) as Hpos.
  destruct (remove_ok cs s1 _ a Hi1 Hpos) as (s2&E2&Hi2&Hd2).
  destruct (release_ok cs s2 _ a Hi2 Hpos) as (s3&E3&Hi3&Hs3&_).
  exists s2, s3. split; [done|]. split; [done|].
  split; [by eapply inv_ext; [|done]; intros x; apply (upd_cancel h a 1)|].
  intros b'. rewrite (map_same s2 s3) by done. rewrite (remove_map s1 s2 _ a n b b' Hi1 Hd2 Hin Hn).
  rewrite (map_same s s1) by done. destruct (decide _); [|done].
  apply list_filter_iff. intros ?. unfold other_key. by rewrite Hkey.
Qed.

Lemma find_and_delete_ok s h cid path :
  cache_inv cs s h ->
  exists s', cache_file_find_and_delete cs s cid path = Some s' /\ cache_inv cs s' h /\
    forall b, cache_map s' b = if b then cache_map s b else filter (other_key path cid) (cache_map s b).
Proof.
  intros Hi. unfold cache_file_find_and_delete.
  destruct (find_ok cs s h cid path false Hi) as (r&s1&E&_&_&_&_&Hassoc&Hr). rewrite E. cbn [mbind option_bind].
  destruct r as [a|].
  - destruct (find_remove_release s h cid path false a s1 Hi E) as (s2&s3&->&E3&Hi3&Hm).
    exists s3. split; [done|]. split; [done|]. intros b. rewrite Hm. by destruct b.
  - subst s1. exists s. split; [done|]. split; [done|]. intros [|]; [done|]. symmetry. by apply filter_absent.
Qed.

End Deletions.

(** * Runs of the threads that use the lists *)

(** One critical section of a thread; [Find] keeps the reference it is given. *)
Inductive cache_op :=
| Find (cid path : bytes) (server : bool)
| Release (a : Z)
| Remove (a : Z)
| Insert (alloc : option Z) (dup : bool) (opened : Z + Z) (path cid : bytes) (server : bool)
| LoadCfn (alloc : option Z) (dup : bool) (opened : Z + Z) (path cid : bytes) (server : bool)
| DeleteUseless
| DestroyAll
| DestroyByPath (path : bytes)
| FindAndDelete (cid path : bytes).

Section Runs.
Context (cs : bool) (dcache_threshold : Z) (read_header : Z -> option (Z * Z)) (i_size : Z -> Z).

Definition run_op (op : cache_op) (st : caches * (Z -> Z)) : option (caches * (Z -> Z)) :=
  let '(s, held) := st in
  match op with
  | Find cid path server =>
      '(r, s) ← find_cfn cs s cid path server;
      Some (s, match r with Some a => upd held a 1 | None => held end)
  | Release a => s ← release_cfn s a; Some (s, upd held a (-1))
  | Remove a => s ← remove_cfn s a; Some (s, held)
  | Insert alloc dup opened path cid server =>
      '(_, s) ← insert_cfn cs s alloc dup opened path cid server; Some (s, held)
  | LoadCfn alloc dup opened path cid server =>
      s ← load_cfn cs dcache_threshold read_header i_size s alloc dup opened path cid server; Some (s, held)
  | DeleteUseless => s ← hmdfs_delete_useless_cfn s; Some (s, held)
  | DestroyAll => s ← hmdfs_cfn_destroy s; Some (s, held)
  | DestroyByPath path => s ← cache_file_destroy_by_path s path; Some (s, held)
  | FindAndDelete cid path => s ← cache_file_find_and_delete cs s cid path; Some (s, held)
  end.

(** Threads release and remove only what they hold; kzalloc and filp_open return new objects. *)
Definition allowed (op : cache_op) (st : caches * (Z -> Z)) : Prop :=
  match op with
  | Release a | Remove a => 0 < st.2 a
  | Insert alloc _ opened _ _ _ | LoadCfn alloc _ opened _ _ _ =>
      (forall a, alloc = Some a -> heap st.1 !! a = None) /\ (forall f, opened = inr f -> fresh_file st.1 f)
  | _ => True
  end.

Fixpoint run_ops (ops : list cache_op) (st : caches * (Z -> Z)) : option (caches * (Z -> Z)) :=
  match ops with
  | [] => Some st
  | op :: ops => st ← run_op op st; run_ops ops st
  end.

(** Every operation is allowed where the run reaches it. *)
Fixpoint run_allowed (ops : list cache_op) (st : caches * (Z -> Z)) : Prop :=
  match ops with
  | [] => True
  | op :: ops => allowed op st /\ match run_op op st with Some st => run_allowed ops st | None => True end
  end.

Lemma run_op_ok op s held :
  cache_inv cs s held -> allowed op (s, held) ->
  exists s' held', run_op op (s, held) = Some (s', held') /\ cache_inv cs s' held'.
Proof.
  intros Hi Hal. destruct op; cbn [run_op allowed fst snd] in *.
  - destruct (find_ok cs s held cid path server Hi) as (r&s'&->&_&_&_&_&_&Hr). cbn.
    destruct r; [destruct Hr|subst]; eauto.
  - destruct (release_ok cs s held a Hi Hal) as (s'&->&?&_). cbn. eauto.
  - destruct (remove_ok cs s held a Hi Hal) as (s'&->&?&_). cbn. eauto.
  - destruct Hal as [Ha Hf].
    destruct (insert_ok cs s held alloc dup opened path cid server Hi Ha Hf) as (r&s'&->&?&_). cbn. eauto.
  - destruct Hal as [Ha Hf].
    destruct (load_ok cs dcache_threshold read_header i_size s held alloc dup opened path cid server Hi Ha Hf)
      as (s'&->&?&_). cbn. eauto.
  - destruct (useless_ok cs s held Hi) as (s'&->&?&_). cbn. eauto.
  - destruct (destroy_ok cs s held Hi) as (s'&->&?&_). cbn. eauto.
  - destruct (by_path_ok cs s held path Hi) as (s'&->&?&_). cbn. eauto.
  - destruct (find_and_delete_ok cs s held cid path Hi) as (s'&->&?&_). cbn. eauto.
Qed.

Lemma run_ops_ok ops : forall s held,
  cache_inv cs s held -> run_allowed ops (s, held) ->
  exists s' held', run_ops ops (s, held) = Some (s', held') /\ cache_inv cs s' held'.
Proof.
  induction ops as [|op ops IH]; intros s held Hi Hal; [by exists s, held|].
  destruct Hal as [Hop Hal]. destruct (run_op_ok op s held Hi Hop) as (s1&held1&E&Hi1).
  cbn [run_ops]. rewrite E in *. by apply IH.
Qed.

End Runs.

Definition none_held : Z -> Z := fun _ => 0.

Lemma inv_start cs : cache_inv cs no_caches none_held.
Proof.
  split.
  - apply NoDup_nil_2.
  - intros a. simpl. rewrite lookup_empty. split; [by intros ?%elem_of_nil|done].
  - done.
  - by intros a n ?%elem_of_nil.
  - intros a b n m f. simpl. by rewrite lookup_empty.
  - apply NoDup_nil_2.
  - intros a n f _ _. apply not_elem_of_nil.
  - intros b a a' n n'. simpl. by destruct b; intros ?%elem_of_nil.
Qed.

(** C6: However the threads interleave their operations on the lists of cached dentry files, as
    long as each releases and removes only nodes it holds, no operation touches a freed node,
    a listed node is live with an open file, no two nodes of a side answer the same lookup,
    and no file is closed twice or while its node lives; once no thread holds a reference and
    both lists and to_delete are emptied, no node is left. *)
Theorem cache_files_safe cs threshold read_header i_size ops :
  run_allowed cs threshold read_header i_size ops (no_caches, none_held) ->
  exists s held,
    run_ops cs threshold read_header i_size ops (no_caches, none_held) = Some (s, held) /\
    cache_inv cs s held /\
    ((forall a, held a = 0) -> exists s1 s2,
       hmdfs_cfn_destroy s = Some s1 /\ hmdfs_delete_useless_cfn s1 = Some s2 /\ heap s2 = ∅).
Proof.
  intros Hal. destruct (run_ops_ok _ _ _ _ _ _ _ (inv_start cs) Hal) as (s&held&Hrun&Hi).
  exists s, held. split; [done|]. split; [done|]. intros Hz.
  destruct (destroy_ok cs s held Hi) as (s1&Hd&Hi1&Hdr1).
  destruct (useless_ok cs s1 held Hi1) as (s2&Hu&Hi2&Hdr2).
  exists s1, s2. split; [done|]. split; [done|]. apply map_empty. intros a.
  pose proof (inv_ref _ _ _ Hi2 a) as Hr. destruct (heap s2 !! a) as [n|]; [|done]. exfalso.
  rewrite listed_out, Hz in Hr; [lia|].
  rewrite (dropped_elem _ _ _ _ Hdr2), (dropped_elem _ _ _ _ Hdr1).
  rewrite not_elem_of_app. intros [[Hin [Hc Hs]] Hnd].
  apply elem_all_lists in Hin as [[| |] Hin]; [done|done|]. apply Hnd.
  change (a ∈ on_head s1 TO_DELETE). rewrite (proj1 Hdr1). apply list_elem_of_filter.
  split; [|done]. by rewrite not_elem_of_app.
Qed.

(** C7: The lists implement one association list per side, keyed by path (up to case when the
    mount folds it) and cid: find answers the entry of the key; insert adds an entry only for
    a new key and otherwise fails with -EEXIST; loading adds one only for a file it admits and
    a new key; remove and find-and-delete remove the key's entry, so that the next find of it
    answers nothing; deleting by path removes the entries of exactly that path from both
    sides; destroying empties both. *)
Theorem cache_map_refined cs threshold read_header i_size s held :
  cache_inv cs s held ->
  (forall cid path b, exists r s', find_cfn cs s cid path b = Some (r, s') /\
     (forall b', cache_map s' b' = cache_map s b') /\
     (a ← r; entry s a) = assoc cs path cid (cache_map s b)) /\
  (forall a dup opened path cid b, allowed (Insert (Some a) dup opened path cid b) (s, held) ->
     exists r s', insert_cfn cs s (Some a) dup opened path cid b = Some (r, s') /\
     r = (if dup then match opened with
                      | inl e => inl e
                      | inr f => match assoc cs path cid (cache_map s b) with
                                 | Some _ => inl (- EEXIST) | None => inr f end
                      end else inl (- ENOMEM)) /\
     forall b', cache_map s' b' =
       match r with
       | inr f => if decide (b' = b) then cache_map s b' ++ [(path, take 64 cid, f)] else cache_map s b'
       | inl _ => cache_map s b'
       end) /\
  (forall a f path cid b, allowed (LoadCfn (Some a) true (inr f) path cid b) (s, held) ->
     exists s', load_cfn cs threshold read_header i_size s (Some a) true (inr f) path cid b = Some s' /\
     forall b', cache_map s' b' =
       if load_admits cs threshold read_header i_size f cid &&
          match assoc cs path cid (cache_map s b) with Some _ => false | None => true end &&
          bool_decide (b' = b)
       then cache_map s b' ++ [(path, take 64 cid, f)] else cache_map s b') /\
  (forall a n b, 0 < held a -> a ∈ on_head s (get_list_head b) -> heap s !! a = Some n ->
     exists s', remove_cfn s a = Some s' /\
     forall b', cache_map s' b' =
       if decide (b' = b) then filter (other_key cs (cn_relative_path n) (cn_cid n)) (cache_map s b')
       else cache_map s b') /\
  (forall cid path, exists s', cache_file_find_and_delete cs s cid path = Some s' /\
     (forall b, cache_map s' b = if b then cache_map s b else filter (other_key cs path cid) (cache_map s b)) /\
     exists s'', find_cfn cs s' cid path false = Some (None, s'')) /\
  (forall path, exists s', cache_file_destroy_by_path s path = Some s' /\
     forall b, cache_map s' b = filter (other_path path) (cache_map s b)) /\
  (exists s', hmdfs_cfn_destroy s = Some s' /\ forall b, cache_map s' b = []).
Proof.
  intros Hi. repeat apply conj.
  - intros cid path b. destruct (find_ok cs s held cid path b Hi) as (r&s'&?&Hs&_&_&_&Ha&_).
    exists r, s'. split; [done|]. split; [intros; by apply map_same|done].
  - intros a dup opened path cid b [Ha Hf].
    destruct (insert_ok cs s held (Some a) dup opened path cid b Hi Ha Hf) as (r&s'&?&_&Hr&?).
    exists r, s'. split; [done|]. split; [|done]. rewrite Hr. by destruct opened, dup.
  - intros a f path cid b [Ha Hf].
    destruct (load_ok cs threshold read_header i_size s held _ true _ path cid b Hi Ha Hf) as (s'&?&_&Hm). eauto.
  - intros a n b Hh Ha Hn. destruct (remove_ok cs s held a Hi Hh) as (s'&?&_&Hd). exists s'. split; [done|].
    intros b'. by eapply remove_map.
  - intros cid path. destruct (find_and_delete_ok cs s held cid path Hi) as (s'&?&Hi'&Hm).
    exists s'. split; [done|]. split; [done|].
    destruct (find_ok cs s' held cid path false Hi') as (r&s''&Hf&_&_&_&_&Ha&Hr). exists s''.
    destruct r as [a|]; [exfalso|done]. destruct Hr as [_ Hin].
    destruct (listed_entry cs s' _ a Hi' (elem_on_head _ _ _ Hin)) as (n&f&_&_&Ee).
    cbn [mbind option_bind] in Ha. rewrite Ee, Hm in Ha. apply List.find_some in Ha as [Hx Hb].
    apply list_elem_of_In, list_elem_of_filter in Hx as [Hx _]. apply bool_decide_eq_true in Hb. done.
  - intros path. destruct (by_path_ok cs s held path Hi) as (s'&?&_&?). eauto.
  - destruct (destroy_ok cs s held Hi) as (s'&?&_&Hh&_). exists s'. split; [done|]. intros b.
    unfold cache_map. rewrite Hh.
    enough (filter (fun x => x ∉ client_cache s ++ server_cache s) (on_head s (get_list_head b)) = []) as -> by done.
    apply elem_of_nil_inv. intros x [Hx Hin]%list_elem_of_filter. apply Hx. destruct b; simpl in Hin; set_solver.
Qed.

(** ** Concrete runs *)

#[export] Instance fresh_file_dec s f : Decision (fresh_file s f).
Proof.
  refine (cast_if (decide (f ∉ closed s /\ map_Forall (fun _ n => cn_filp n <> Some f) (heap s)))); done.
Defined.

#[export] Instance fresh_alloc_dec s alloc : Decision (forall a, alloc = Some a -> heap s !! a = None).
Proof.
  refine (match alloc with
          | Some a => cast_if (decide (heap s !! a = None))
          | None => left _
          end); naive_solver.
Defined.

#[export] Instance fresh_opened_dec s (opened : Z + Z) : Decision (forall f, opened = inr f -> fresh_file s f).
Proof.
  refine (match opened with
          | inr f => cast_if (decide (fresh_file s f))
          | inl _ => left _
          end); naive_solver.
Defined.

#[export] Instance allowed_dec op st : Decision (allowed op st).
Proof. destruct op; cbn [allowed]; apply _. Defined.

#[export] Instance run_allowed_dec cs t rh sz ops st : Decision (run_allowed cs t rh sz ops st).
Proof.
  revert st; induction ops as [|op ops IH]; intros st; cbn [run_allowed]; [apply _|].
  destruct (run_op cs t rh sz op st); apply _.
Defined.

(** A directory is cached, looked up, cached again under the other case, which fails, and
    removed while the reader holds it; the reader then lets go. *)
Definition sample_ops : list cache_op :=
  [Insert (Some 1) true (inr 70) [47; 97] [99] false; Find [99] [47; 65] false;
   Insert (Some 2) true (inr 71) [47; 65] [99] false; Remove 1; Release 1].

Lemma cache_files_safe_witness :
  run_allowed false 0 (fun _ => None) (fun _ => 0) sample_ops (no_caches, none_held) /\
  exists s held, run_ops false 0 (fun _ => None) (fun _ => 0) sample_ops (no_caches, none_held) = Some (s, held) /\
    cache_inv false s held /\ closed s = [70; 71] /\ deleted s = [70].
Proof.
  assert (Hal : run_allowed false 0 (fun _ => None) (fun _ => 0) sample_ops (no_caches, none_held))
    by (apply (bool_decide_unpack _); vm_compute; exact I).
  split; [exact Hal|].
  destruct (cache_files_safe false 0 (fun _ => None) (fun _ => 0) sample_ops Hal) as (s&held&Hrun&Hi&_).
  exists s, held. split; [done|]. split; [done|].
  assert (Hs : option_map (fun st => (closed st.1, deleted st.1))
            (run_ops false 0 (fun _ => None) (fun _ => 0) sample_ops (no_caches, none_held)) = Some ([70; 71], [70]))
    by (vm_compute; reflexivity).
  rewrite Hrun in Hs. cbn in Hs. injection Hs as -> ->. done.
Defined.

(** The cache of an empty mount: find finds nothing, and a first insert is found. *)
Lemma cache_map_refined_witness :
  exists r s', insert_cfn false no_caches (Some 1) true (inr 70) [47; 97] [99] false = Some (r, s') /\
    r = inr 70 /\ cache_map s' false = [([47; 97], [99], 70)].
Proof.
  destruct (cache_map_refined false 0 (fun _ => None) (fun _ => 0) no_caches none_held (inv_start false))
    as (_&Hins&_).
  destruct (Hins 1 true (inr 70) [47; 97] [99] false) as (r&s'&E&Hr&Hm).
  { apply (bool_decide_unpack _); vm_compute; exact I. }
  exists r, s'. split; [done|]. subst r. split; [done|]. apply (Hm false).
Defined.

(** insert_cfn hands out the node's file without a reference of its own: destroying the
    lists, as an unmount does, closes a file its caller still uses. *)
Lemma inserted_file_closed :
  exists s held, run_ops false 0 (fun _ => None) (fun _ => 0)
    [Insert (Some 1) true (inr 70) [47; 97] [99] false; DestroyAll] (no_caches, none_held) = Some (s, held) /\
  closed s = [70].
Proof. vm_compute. eauto. Qed.
