(* ===== verification/Timespec.v ===== *)
(** Times: timespec64 with the operations the kernel gives it, and comparisons of jiffies.
    A component that compares times is proved against the interface [TimeOps]. *)
From S2P Require Import Prelude.

Definition NSEC_PER_SEC := 1000000000.
Definition MSEC_PER_SEC := 1000.
Definition NSEC_PER_MSEC := 1000000.

(** hmdfs_time_t (timespec64): tv_sec and tv_nsec. *)
Definition hmdfs_time_t : Type := Z * Z.

Definition nanos (t : hmdfs_time_t) : Z := t.1 * NSEC_PER_SEC + t.2.

(** A normalised time whose seconds are far from overflow. *)
Definition time_ok (t : hmdfs_time_t) : Prop := 0 <= t.2 < NSEC_PER_SEC /\ - 2 ^ 62 <= t.1 < 2 ^ 62.

(** hmdfs_time_add and hmdfs_time_compare are timespec64_add and timespec64_compare: the sum,
    normalised, and a negative, zero or positive number. *)
Class TimeOps := {
  hmdfs_time_add : hmdfs_time_t -> hmdfs_time_t -> hmdfs_time_t;
  hmdfs_time_compare : hmdfs_time_t -> hmdfs_time_t -> Z;
  time_add_spec : forall a b, time_ok a -> time_ok b ->
    nanos (hmdfs_time_add a b) = nanos a + nanos b /\ 0 <= (hmdfs_time_add a b).2 < NSEC_PER_SEC;
  time_compare_spec : forall a b, 0 <= a.2 < NSEC_PER_SEC -> 0 <= b.2 < NSEC_PER_SEC ->
    Z.sgn (hmdfs_time_compare a b) = Z.sgn (nanos a - nanos b)
}.

(** The interface has an implementation. *)
Program Definition plain_time : TimeOps := {|
  hmdfs_time_add a b := (a.1 + b.1 + (a.2 + b.2) / NSEC_PER_SEC, (a.2 + b.2) mod NSEC_PER_SEC);
  hmdfs_time_compare a b := if a.1 =? b.1 then a.2 - b.2 else a.1 - b.1
|}.
Next Obligation.
  intros [a an] [b bn] _ _. unfold nanos. cbn [fst snd].
  pose proof (Z.div_mod (an + bn) NSEC_PER_SEC ltac:(done)).
  pose proof (Z.mod_pos_bound (an + bn) NSEC_PER_SEC ltac:(done)). lia.
Qed.
Next Obligation.
  intros [a an] [b bn]. unfold nanos, NSEC_PER_SEC. cbn [fst snd]. intros Ha Hb.
  destruct (a =? b) eqn:E; zb; [f_equal; lia|].
  destruct (Z.lt_ge_cases a b).
  - rewrite !(proj2 (Z.sgn_neg_iff _)); lia.
  - rewrite !(proj2 (Z.sgn_pos_iff _)); lia.
Qed.

Section Compare.
Context `{TimeOps}.

Lemma compare_lt a b : 0 <= a.2 < NSEC_PER_SEC -> 0 <= b.2 < NSEC_PER_SEC ->
  (hmdfs_time_compare a b <? 0) = (nanos a <? nanos b).
Proof.
  intros Ha Hb. pose proof (time_compare_spec a b Ha Hb).
  destruct (_ <? 0) eqn:E1, (nanos a <? nanos b) eqn:E2; zb; try done; lia.
Qed.

Lemma compare_eq a b : 0 <= a.2 < NSEC_PER_SEC -> 0 <= b.2 < NSEC_PER_SEC ->
  (hmdfs_time_compare a b =? 0) = (nanos a =? nanos b).
Proof.
  intros Ha Hb. pose proof (time_compare_spec a b Ha Hb).
  destruct (_ =? 0) eqn:E1, (nanos a =? nanos b) eqn:E2; zb; try done; lia.
Qed.
End Compare.

Lemma nanos_inj a b : 0 <= a.2 < NSEC_PER_SEC -> 0 <= b.2 < NSEC_PER_SEC -> nanos a = nanos b -> a = b.
Proof. destruct a, b. unfold nanos, NSEC_PER_SEC. cbn [fst snd]. intros. f_equal; lia. Qed.

(** [msec] is an unsigned int. *)
Definition msec_to_timespec (msec : Z) : hmdfs_time_t :=
  (msec / MSEC_PER_SEC, (msec mod MSEC_PER_SEC) * NSEC_PER_MSEC).

Lemma msec_nanos msec : 0 <= msec < 2 ^ 32 ->
  nanos (msec_to_timespec msec) = msec * NSEC_PER_MSEC /\ time_ok (msec_to_timespec msec).
Proof.
  intros Hm. unfold nanos, time_ok, msec_to_timespec, MSEC_PER_SEC, NSEC_PER_MSEC, NSEC_PER_SEC. cbn [fst snd].
  pose proof (Z.div_mod msec 1000 ltac:(done)). pose proof (Z.mod_pos_bound msec 1000 ltac:(done)).
  split; [lia|]. split; [lia|]. split; [lia|].
  apply (Z.lt_le_trans _ (2 ^ 32)); [apply Z.div_lt_upper_bound; lia|done].
Qed.

(** ** Jiffies: an unsigned 64-bit counter, compared by a signed difference *)

Definition time_after (a b : Z) : bool := swrap 64 (b - a) <? 0.
Definition time_before_eq (a b : Z) : bool := negb (time_after a b).

(** The comparison survives the wrap as long as the times are less than 2^63 apart. *)
Lemma time_after_spec a b : - 2 ^ 63 <= b - a < 2 ^ 63 -> time_after (u64 a) (u64 b) = (b <? a).
Proof.
  intros Hd. unfold time_after.
  assert (swrap 64 (u64 b - u64 a) = b - a) as ->; [|destruct (b <? a) eqn:E; zb; [apply Z.ltb_lt|apply Z.ltb_ge]; lia].
  rewrite <- (swrap_id 64 (b - a)) by (done || exact Hd). unfold swrap, wrap.
  replace ((b mod 2 ^ 64 - a mod 2 ^ 64) mod 2 ^ 64) with ((b - a) mod 2 ^ 64); [done|].
  by rewrite Zminus_mod.
Qed.
