(* ===== verification/DcacheValid.v ===== *)
(** Validity of a cached dentry file (hmdfs_server.c 904-997 and 1472-1540, read_header and
    write_header of hmdfs_dentryfile.c): the header records when the file was made and the
    directory's ctime then; the server uses it for its own cache and for a client's. *)
From S2P Require Import Prelude Protocol DentryLayout CacheName CacheNode ClientMsg Timespec.

Definition hmdfs_dcache_header : layout :=
  [("dcache_crtime", 8%nat); ("dcache_crtime_nsec", 8%nat); ("dentry_ctime", 8%nat);
   ("dentry_ctime_nsec", 8%nat); ("num", 8%nat); ("case_sensitive", 1%nat)].

(** The time in two le64 fields; [None] is a read outside of the message. *)
Definition time_field (st : layout) (msg : bytes) (sec nsec : string) : option hmdfs_time_t :=
  s ← fld st msg sec; n ← fld st msg nsec; Some (s64 s, s64 n).

(** read_header: kernel_read's error, or the bytes it read. *)
Definition read_header (file_read : Z + bytes) : Z + bytes :=
  match file_read with
  | inr header => if Z.of_nat (length header) =? sizeof hmdfs_dcache_header then inr header else inl (- EIO)
  | inl _ => inl (- EIO)
  end.

(** write_header: [written] is the result of kernel_write. *)
Definition write_header (written : Z) : Z := if written =? sizeof hmdfs_dcache_header then 0 else - EIO.

Definition hmdfs_server_set_header (header : bytes) (cur_time i_ctime : hmdfs_time_t) : bytes :=
  put_all hmdfs_dcache_header
    [("dcache_crtime", cur_time.1); ("dcache_crtime_nsec", cur_time.2);
     ("dentry_ctime", i_ctime.1); ("dentry_ctime_nsec", i_ctime.2)] header.

(** What hmdfs_server_rebuild_dents stores at the front of the file it makes: the times from
    before the directory is read, the number of entries and the mount's case. [stack] is what
    the header's memory held. *)
Definition rebuilt_header (stack : bytes) (cur_time i_ctime : hmdfs_time_t) (s_case_sensitive : bool)
    (num : Z) : bytes :=
  put_all hmdfs_dcache_header [("case_sensitive", if s_case_sensitive then 1 else 0); ("num", num)]
    (hmdfs_server_set_header stack cur_time i_ctime).

(** The request a client makes of the header it read (hmdfs_client_start_readdir). *)
Definition header_fields (header : bytes) : option (Z * Z * Z * Z * Z) :=
  c ← fld hmdfs_dcache_header header "dcache_crtime"; cn ← fld hmdfs_dcache_header header "dcache_crtime_nsec";
  t ← fld hmdfs_dcache_header header "dentry_ctime"; tn ← fld hmdfs_dcache_header header "dentry_ctime_nsec";
  n ← fld hmdfs_dcache_header header "num"; Some (c, cn, t, tn, n).

Section Valid.
Context `{TimeOps}.

Definition need_rebuild_dcache (h : bytes) (time : hmdfs_time_t) (precision : Z) : option bool :=
  crtime ← time_field hmdfs_dcache_header h "dcache_crtime" "dcache_crtime_nsec";
  ctime ← time_field hmdfs_dcache_header h "dentry_ctime" "dentry_ctime_nsec";
  if negb (hmdfs_time_compare time ctime =? 0) then Some true
  else
    let pre_time := hmdfs_time_add time (msec_to_timespec precision) in
    if hmdfs_time_compare crtime pre_time <? 0 then Some true else Some false.

Definition hmdfs_server_cache_validate (i_size : Z) (file_read : Z + bytes) (i_ctime : hmdfs_time_t)
    (precision : Z) : option bool :=
  if get_dentry_group_cnt i_size =? 0 then Some false
  else match file_read with
       | inl _ => Some false
       | inr header =>
           if negb (Z.of_nat (length header) =? sizeof hmdfs_dcache_header) then Some false
           else negb <$> need_rebuild_dcache header i_ctime (u32 precision)
       end.

Definition hmdfs_client_cache_validate (dcache_threshold : Z) (readdir_recv stack : bytes)
    (i_ctime : hmdfs_time_t) (precision : Z) : option bool :=
  let get := fld readdir_request readdir_recv in
  num ← get "num";
  if num <? dcache_threshold then Some false
  else
    crtime ← get "dcache_crtime"; crtime_nsec ← get "dcache_crtime_nsec";
    ctime ← get "dentry_ctime"; ctime_nsec ← get "dentry_ctime_nsec";
    let header := put_all hmdfs_dcache_header
      [("dcache_crtime", crtime); ("dcache_crtime_nsec", crtime_nsec);
       ("dentry_ctime", ctime); ("dentry_ctime_nsec", ctime_nsec)] stack in
    negb <$> need_rebuild_dcache header i_ctime precision.

(** The cached file to answer with, if it is still valid; otherwise it is removed.
    [file_read] and [i_size] give the header bytes and the size of a file. *)
Definition hmdfs_server_cache_revalidate (cs : bool) (i_size : Z -> Z) (file_read : Z -> Z + bytes)
    (s : caches) (recvpath : bytes) (i_ctime : hmdfs_time_t) (precision : Z) :
    option (option Z * caches) :=
  '(cfn, s) ← find_cfn cs s HMDFS_SERVER_CID recvpath true;
  match cfn with
  | None => Some (None, s)
  | Some a =>
      n ← heap s !! a;
      f ← cn_filp n;
      valid ← hmdfs_server_cache_validate (i_size f) (file_read f) i_ctime precision;
      if negb valid then
        s ← remove_cfn s a; s ← release_cfn s a; Some (None, s)
      else
        s ← release_cfn s a; Some (Some f, s)
  end.

End Valid.

(** * Headers as values *)

(** Any buffer of the struct's size is the encoding of some values. *)
Lemma encode_any st : forall l : bytes,
  NoDup (map fst st) -> Forall is_byte l -> length l = size_of st -> exists env, l = encode st env.
Proof.
  induction st as [|[f w] st IH]; intros l Hnd Hb Hl; cbn [size_of map fst] in *.
  { exists (fun _ => 0). by destruct l. }
  apply list.NoDup_cons in Hnd as [Hf Hnd].
  destruct (IH (drop w l) Hnd) as [env Henv]; [by apply list.Forall_drop|rewrite length_drop; lia|].
  exists (Protocol.upd env f (le_dec (take w l))). rewrite encode_cons.
  unfold Protocol.upd at 1. rewrite String.eqb_refl. rewrite <- (take_drop w l) at 1. f_equal.
  - assert (Hw : length (take w l) = w) by (rewrite length_take; lia).
    rewrite <- Hw at 2. symmetry. apply le_enc_dec. by apply list.Forall_take.
  - rewrite Henv. apply encode_ext. intros g Hg. unfold Protocol.upd.
    destruct (String.eqb g f) eqn:E; [|done]. apply String.eqb_eq in E as ->. done.
Qed.

Lemma header_nodup : NoDup (map fst hmdfs_dcache_header).
Proof. apply (bool_decide_unpack _). by vm_compute. Qed.

Lemma s64_mod z : - 2 ^ 63 <= z < 2 ^ 63 -> s64 (z mod 2 ^ 64) = z.
Proof.
  intros Hz. rewrite <- (swrap_id 64 z) at 2 by (done || exact Hz). unfold swrap.
  by rewrite Z.mod_mod by done.
Qed.

Lemma header_fld env f off :
  field_at hmdfs_dcache_header f = Some (off, 8%nat) ->
  fld hmdfs_dcache_header (encode hmdfs_dcache_header env) f = Some (env f mod 2 ^ 64).
Proof. intros E. rewrite <- (app_nil_r (encode _ _)). by rewrite (fld_encode _ _ _ _ off 8). Qed.

(** The four times of a header. *)
Definition has_times (h : bytes) (cr ct : hmdfs_time_t) : Prop :=
  time_field hmdfs_dcache_header h "dcache_crtime" "dcache_crtime_nsec" = Some cr /\
  time_field hmdfs_dcache_header h "dentry_ctime" "dentry_ctime_nsec" = Some ct.

Lemma encode_times env cr ct :
  time_ok cr -> time_ok ct ->
  env "dcache_crtime" mod 2 ^ 64 = cr.1 mod 2 ^ 64 -> env "dcache_crtime_nsec" mod 2 ^ 64 = cr.2 mod 2 ^ 64 ->
  env "dentry_ctime" mod 2 ^ 64 = ct.1 mod 2 ^ 64 -> env "dentry_ctime_nsec" mod 2 ^ 64 = ct.2 mod 2 ^ 64 ->
  has_times (encode hmdfs_dcache_header env) cr ct.
Proof.
  intros [Ha Hb] [Hc Hd] E1 E2 E3 E4. unfold NSEC_PER_SEC in *.
  unfold has_times, time_field.
  rewrite (header_fld env "dcache_crtime" 0), (header_fld env "dcache_crtime_nsec" 8),
    (header_fld env "dentry_ctime" 16), (header_fld env "dentry_ctime_nsec" 24) by done.
  cbn [mbind option_bind]. rewrite E1, E2, E3, E4. rewrite !s64_mod by lia. by destruct cr, ct.
Qed.

Lemma put_all_any kvs stack :
  Forall is_byte stack -> length stack = size_of hmdfs_dcache_header ->
  Forall (fun kv => kv.1 ∈ map fst hmdfs_dcache_header) kvs ->
  exists env, put_all hmdfs_dcache_header kvs stack =
    encode hmdfs_dcache_header (foldl (fun env kv => Protocol.upd env kv.1 kv.2) env kvs).
Proof.
  intros Hb Hl Hk. destruct (encode_any hmdfs_dcache_header stack header_nodup Hb Hl) as [env ->].
  exists env. rewrite <- (app_nil_r (encode _ env)), put_all_encode by (done || apply header_nodup).
  by rewrite app_nil_r.
Qed.

(** The fields of a rebuilt header. *)
Lemma rebuilt_shape stack cr ct cs num :
  Forall is_byte stack -> length stack = size_of hmdfs_dcache_header ->
  exists env, rebuilt_header stack cr ct cs num = encode hmdfs_dcache_header env /\
    env "dcache_crtime" = cr.1 /\ env "dcache_crtime_nsec" = cr.2 /\ env "dentry_ctime" = ct.1 /\
    env "dentry_ctime_nsec" = ct.2 /\ env "num" = num /\ env "case_sensitive" = if cs then 1 else 0.
Proof.
  intros Hb Hl. unfold rebuilt_header, hmdfs_server_set_header.
  destruct (put_all_any [("dcache_crtime", cr.1); ("dcache_crtime_nsec", cr.2);
     ("dentry_ctime", ct.1); ("dentry_ctime_nsec", ct.2)] stack Hb Hl) as [env ->].
  { repeat constructor; cbn; set_solver. }
  rewrite <- (app_nil_r (encode _ _)), put_all_encode, app_nil_r;
    [|apply header_nodup|repeat constructor; cbn; set_solver].
  eexists; split; [done|]. by repeat split.
Qed.

(** * When a header is accepted *)

Section Fresh.
Context `{TimeOps}.

Lemma need_rebuild_spec h cr ct time precision :
  has_times h cr ct -> time_ok cr -> time_ok ct -> time_ok time -> 0 <= precision < 2 ^ 32 ->
  need_rebuild_dcache h time precision =
    Some (negb ((nanos time =? nanos ct) && (nanos time + precision * NSEC_PER_MSEC <=? nanos cr))).
Proof.
  intros [E1 E2] Hcr Hct Ht Hp. unfold need_rebuild_dcache. rewrite E1, E2. cbn [mbind option_bind].
  destruct (msec_nanos precision Hp) as [Hpn Hpok].
  destruct (time_add_spec time _ Ht Hpok) as [Hadd Hn]. destruct Hcr, Hct, Ht.
  rewrite compare_eq, compare_lt by done. rewrite Hadd, Hpn, Z.leb_antisym.
  by destruct (_ =? _), (_ <? _).
Qed.

Lemma rebuilt_times stack cr ct cs num :
  Forall is_byte stack -> length stack = size_of hmdfs_dcache_header -> time_ok cr -> time_ok ct ->
  has_times (rebuilt_header stack cr ct cs num) cr ct.
Proof.
  intros Hb Hl Hcr Hct. destruct (rebuilt_shape stack cr ct cs num Hb Hl) as (env&->&E1&E2&E3&E4&_).
  apply encode_times; congruence.
Qed.

Lemma need_rebuild_ext h h' time precision :
  time_field hmdfs_dcache_header h "dcache_crtime" "dcache_crtime_nsec" =
    time_field hmdfs_dcache_header h' "dcache_crtime" "dcache_crtime_nsec" ->
  time_field hmdfs_dcache_header h "dentry_ctime" "dentry_ctime_nsec" =
    time_field hmdfs_dcache_header h' "dentry_ctime" "dentry_ctime_nsec" ->
  need_rebuild_dcache h time precision = need_rebuild_dcache h' time precision.
Proof. unfold need_rebuild_dcache. by intros -> ->. Qed.

(** The client's header, sent and rebuilt by the server, decides as the header itself. *)
Lemma client_validate_spec env path stack thr i_ctime precision :
  let h := encode hmdfs_dcache_header env in
  Forall is_byte stack -> length stack = size_of hmdfs_dcache_header ->
  exists fields, header_fields h = Some fields /\ fields.2 = env "num" mod 2 ^ 64 /\
  hmdfs_client_cache_validate thr (readdir_msg path (Some fields)) stack i_ctime precision =
    if fields.2 <? thr then Some false else negb <$> need_rebuild_dcache h i_ctime precision.
Proof.
  intros h Hb Hl. subst h. unfold header_fields.
  rewrite (header_fld env "dcache_crtime" 0), (header_fld env "dcache_crtime_nsec" 8),
    (header_fld env "dentry_ctime" 16), (header_fld env "dentry_ctime_nsec" 24),
    (header_fld env "num" 32) by done. cbn [mbind option_bind].
  eexists; split; [done|]. split; [done|]. cbn [snd].
  set (c := env "dcache_crtime" mod 2 ^ 64). set (cn := env "dcache_crtime_nsec" mod 2 ^ 64).
  set (t := env "dentry_ctime" mod 2 ^ 64). set (tn := env "dentry_ctime_nsec" mod 2 ^ 64).
  set (n := env "num" mod 2 ^ 64).
  assert (Hmsg : readdir_msg path (Some (c, cn, t, tn, n)) = encode readdir_request
    (env_of (op_kvs (OpReaddir path (Some (c, cn, t, tn, n))))) ++ c_strings [path] ++ []).
  { unfold readdir_msg. rewrite request_shape; [done|..|done].
    - apply (bool_decide_unpack _). by vm_compute.
    - repeat constructor; cbn; set_solver. }
  rewrite Hmsg. unfold hmdfs_client_cache_validate.
  rewrite (fld_encode readdir_request _ _ "num" 32 8) by done. cbn [mbind option_bind].
  rewrite (fld_encode readdir_request _ _ "dcache_crtime" 0 8), (fld_encode readdir_request _ _ "dcache_crtime_nsec" 8 8),
    (fld_encode readdir_request _ _ "dentry_ctime" 16 8), (fld_encode readdir_request _ _ "dentry_ctime_nsec" 24 8) by done.
  cbn [mbind option_bind]. change (256 ^ Z.of_nat 8) with (2 ^ 64).
  change (env_of _ "num") with n. change (env_of _ "dcache_crtime") with c.
  change (env_of _ "dcache_crtime_nsec") with cn. change (env_of _ "dentry_ctime") with t.
  change (env_of _ "dentry_ctime_nsec") with tn.
  assert (Hmod : forall z, (z mod 2 ^ 64) mod 2 ^ 64 = z mod 2 ^ 64) by (intros; by apply Z.mod_mod).
  unfold n at 1, c, cn, t, tn. rewrite !Hmod. fold n c cn t tn.
  destruct (n <? thr); [done|]. f_equal.
  destruct (put_all_any [("dcache_crtime", c); ("dcache_crtime_nsec", cn); ("dentry_ctime", t);
     ("dentry_ctime_nsec", tn)] stack Hb Hl) as [env' ->]; [repeat constructor; cbn; set_solver|].
  apply need_rebuild_ext; unfold time_field.
  - rewrite !(header_fld _ "dcache_crtime" 0), !(header_fld _ "dcache_crtime_nsec" 8) by done.
    cbn. unfold c, cn. by rewrite !Hmod.
  - rewrite !(header_fld _ "dentry_ctime" 16), !(header_fld _ "dentry_ctime_nsec" 24) by done.
    cbn. unfold t, tn. by rewrite !Hmod.
Qed.

(** C31: A cached dentry file is never reused after its directory changed. The header made with
    the file records the time [cr] before the directory was read and the directory's ctime
    [c0]; if the directory changes at any moment [w] from then on, and the clock its ctime is
    taken from lags by less than the configured precision, the header is rejected; an
    unchanged directory's header is accepted once [cr] is past [c0] by the precision. The
    client's copy of the header, sent in a readdir request, is judged the same way, except
    that one of a small directory is always rejected. *)
Theorem stale_dcache_rebuilt stack cr c0 cs num precision :
  Forall is_byte stack -> length stack = size_of hmdfs_dcache_header ->
  time_ok cr -> time_ok c0 -> 0 <= precision < 2 ^ 32 -> 0 <= num < 2 ^ 64 ->
  let h := rebuilt_header stack cr c0 cs num in
  exists fields, header_fields h = Some fields /\
  forall c1, time_ok c1 ->
    ((exists w, nanos cr <= w /\ w - precision * NSEC_PER_MSEC < nanos c1) ->
     need_rebuild_dcache h c1 precision = Some true) /\
    (c1 = c0 -> nanos c0 + precision * NSEC_PER_MSEC <= nanos cr ->
     need_rebuild_dcache h c1 precision = Some false) /\
    (forall thr path stack', Forall is_byte stack' -> length stack' = size_of hmdfs_dcache_header ->
     hmdfs_client_cache_validate thr (readdir_msg path (Some fields)) stack' c1 precision =
       if num <? thr then Some false else negb <$> need_rebuild_dcache h c1 precision).
Proof.
  intros Hb Hl Hcr Hc0 Hp Hn h.
  pose proof (rebuilt_times stack cr c0 cs num Hb Hl Hcr Hc0) as Ht. fold h in Ht.
  destruct (rebuilt_shape stack cr c0 cs num Hb Hl) as (env&Eh&_&_&_&_&En&_). fold h in Eh.
  destruct (client_validate_spec env [] stack 0 c0 0 Hb Hl) as (fields&Hf&Hnum&_).
  rewrite <- Eh in Hf. rewrite En, Z.mod_small in Hnum by lia.
  exists fields. split; [done|]. intros c1 Hc1.
  rewrite (need_rebuild_spec h cr c0 c1 precision Ht Hcr Hc0 Hc1 Hp). split; [|split].
  - intros (w&Hw1&Hw2). f_equal. apply negb_true_iff, andb_false_iff. right. apply Z.leb_gt. lia.
  - intros -> Hle. f_equal. apply negb_false_iff, andb_true_iff. split; [apply Z.eqb_refl|by apply Z.leb_le].
  - intros thr path stack' Hb' Hl'.
    destruct (client_validate_spec env path stack' thr c1 precision Hb' Hl') as (fields'&Hf'&_&Hv).
    rewrite <- Eh in Hf', Hv. rewrite Hf in Hf'. injection Hf' as <-. rewrite Hv, Hnum.
    by rewrite (need_rebuild_spec h cr c0 c1 precision Ht Hcr Hc0 Hc1 Hp).
Qed.

Lemma fld_header_some h f off :
  length h = size_of hmdfs_dcache_header -> field_at hmdfs_dcache_header f = Some (off, 8%nat) ->
  (off + 8 <= 41)%nat -> exists v, fld hmdfs_dcache_header h f = Some v.
Proof.
  intros Hl E Ho. unfold fld, read_le. rewrite E, Hl. cbn [size_of hmdfs_dcache_header].
  rewrite decide_True by (cbn; lia). eauto.
Qed.

Lemma validate_total i_size file_read i_ctime precision :
  exists v, hmdfs_server_cache_validate i_size file_read i_ctime precision = Some v.
Proof.
  unfold hmdfs_server_cache_validate. destruct (_ =? 0); [by eauto|].
  destruct file_read as [e|h]; [by eauto|]. destruct (_ =? sizeof _) eqn:E; [|by eauto]. cbn [negb].
  apply Z.eqb_eq in E. apply Nat2Z.inj in E. unfold need_rebuild_dcache, time_field.
  destruct (fld_header_some h "dcache_crtime" 0 E eq_refl) as [? ->]; [lia|].
  destruct (fld_header_some h "dcache_crtime_nsec" 8 E eq_refl) as [? ->]; [lia|].
  destruct (fld_header_some h "dentry_ctime" 16 E eq_refl) as [? ->]; [lia|].
  destruct (fld_header_some h "dentry_ctime_nsec" 24 E eq_refl) as [? ->]; [lia|].
  cbn. repeat (destruct (_ =? 0) || destruct (_ <? 0)); cbn; eauto.
Qed.

(** hmdfs_server_cache_revalidate answers only with the cached file of this path, and only if
    its header is valid for the directory's ctime, leaving the cache as it was; otherwise it
    answers nothing and the path is no longer cached on the server side. *)
Theorem server_cache_revalidated cs i_size file_read s held recvpath i_ctime precision :
  cache_inv cs s held ->
  exists r s', hmdfs_server_cache_revalidate cs i_size file_read s recvpath i_ctime precision = Some (r, s') /\
    cache_inv cs s' held /\ cache_map s' false = cache_map s false /\
    match r with
    | Some f => cache_map s' true = cache_map s true /\
        (exists p c, assoc cs recvpath HMDFS_SERVER_CID (cache_map s true) = Some (p, c, f)) /\
        hmdfs_server_cache_validate (i_size f) (file_read f) i_ctime precision = Some true
    | None => cache_map s' true = filter (other_key cs recvpath HMDFS_SERVER_CID) (cache_map s true)
    end.
Proof.
  intros Hi. unfold hmdfs_server_cache_revalidate.
  destruct (find_ok cs s held HMDFS_SERVER_CID recvpath true Hi) as (r&s1&E&_&_&_&_&Hassoc&Hr).
  rewrite E. cbn [mbind option_bind]. destruct r as [a|].
  - destruct (find_found cs s held _ _ _ a s1 Hi E) as (_&_&_&n&f&->&Hf&_&Has). cbn [mbind option_bind].
    rewrite Hf. cbn [mbind option_bind].
    destruct (validate_total (i_size f) (file_read f) i_ctime precision) as [v Hv]. rewrite Hv. cbn [mbind option_bind].
    destruct v; cbn [negb].
    + rewrite (find_release cs s held _ _ _ a s1 Hi E). cbn [mbind option_bind].
      do 2 eexists; split; [done|]. split; [done|]. split; [done|]. split; [done|]. split; [by eauto|done].
    + destruct (find_remove_release cs s held _ _ _ a s1 Hi E) as (s2&s3&->&E3&Hi3&Hm). cbn [mbind option_bind].
      rewrite E3. cbn [mbind option_bind]. do 2 eexists; split; [done|]. split; [done|].
      split; [apply (Hm false)|apply (Hm true)].
  - subst s1. do 2 eexists; split; [done|]. split; [done|]. split; [done|]. symmetry.
    by apply filter_absent.
Qed.
End Fresh.

(** A file made at second 100 of a directory last changed at second 90 is rejected after a
    change at second 100. *)
Lemma stale_dcache_rebuilt_witness :
  @need_rebuild_dcache plain_time (rebuilt_header (replicate 41 7) (100, 5) (90, 0) true 12) (100, 0) 1000
    = Some true.
Proof.
  destruct (@stale_dcache_rebuilt plain_time (replicate 41 7) (100, 5) (90, 0) true 12 1000)
    as (fields&_&H); [apply Forall_replicate|..|apply (H (100, 0)); [|exists (nanos (100, 5))]].
  all: by vm_compute.
Defined.

Lemma server_cache_revalidated_witness :
  exists r s', @hmdfs_server_cache_revalidate plain_time true (fun _ => 0) (fun _ => inl (-5)) no_caches
                 [47] (1, 0) 0 = Some (r, s') /\ cache_inv true s' none_held.
Proof.
  destruct (@server_cache_revalidated plain_time true (fun _ => 0) (fun _ => inl (-5)) no_caches none_held [47]
    (1, 0) 0 (inv_start true)) as (r&s'&E&Hi&_).
  exists r, s'. split; [exact E|exact Hi].
Defined.
