(* ===== verification/OpenCache.v ===== *)
(** Keeping cached pages across opens of a remote file: the server's answer to an open
    (hmdfs_server.c 391-490) and the client's decision whether its pages may be stale
    (file_remote.c 26-161 and 354-419). *)
From S2P Require Import Prelude Protocol ClientMsg ClientReply Timespec.

Definition HMDFS_FID_VER_BOOT_COOKIE_SHIFT := 15.
Definition EBADF := 9.
Definition ESTALE := 116.
Definition STATX_CTIME := 0x80.
Definition HMDFS_STALE_REMOTE_ISIZE := 2 ^ 64 - 1.

(** * The server *)

(** struct hmdfs_open_info: the attributes come from the stat when it is valid, and from the
    inode otherwise. *)
Record hmdfs_open_info := mk_open_info {
  oi_stat_valid : bool;
  oi_stat_ctime : hmdfs_time_t;
  oi_stat_size : Z;
  oi_inode_ctime : hmdfs_time_t;
  oi_inode_size : Z;
  oi_real_ino : Z;
  oi_file_id : Z
}.

Definition oi_ctime (i : hmdfs_open_info) : hmdfs_time_t :=
  if oi_stat_valid i then oi_stat_ctime i else oi_inode_ctime i.
Definition oi_size (i : hmdfs_open_info) : Z :=
  if oi_stat_valid i then oi_stat_size i else oi_inode_size i.

(** con->fid_cookie is a 16-bit number; its low 15 bits are used. *)
Definition hmdfs_server_pack_fid_ver (boot_cookie fid_cookie : Z) : Z :=
  Z.lor boot_cookie (Z.land (u16 fid_cookie) (Z.shiftl 1 HMDFS_FID_VER_BOOT_COOKIE_SHIFT - 1)).

(** -EBADF for a file id of an earlier boot or connection, or one that is not open. *)
Definition get_file_by_fid_and_ver (boot_cookie fid_cookie : Z) (get_file_from_conn : Z -> option Z)
    (file_id file_ver : Z) : Z + Z :=
  let cur_file_ver := hmdfs_server_pack_fid_ver boot_cookie fid_cookie in
  if negb (file_ver =? cur_file_ver) then inl (- EBADF)
  else match get_file_from_conn file_id with Some f => inr f | None => inl (- EBADF) end.

(** * The client *)

Inductive expire_reason :=
| ALL_GOOD | INO_DISMATCH | SIZE_OR_CTIME_DISMATCH | TIMER_EXPIRE | TIMER_WORKING
| STABLE_CTIME_DISMATCH | KEEP_CACHE.

(** The part of struct hmdfs_inode_info and its inode an open uses; [ri_pages] are the
    indexes of the cached pages. *)
Record remote_inode := mk_ri {
  ri_remote_ino : Z;
  ri_i_size : Z;
  ri_i_ctime : hmdfs_time_t;
  ri_remote_ctime : hmdfs_time_t;
  ri_stable_ctime : hmdfs_time_t;
  ri_writecache_expire : Z;
  ri_write_counter : Z;
  ri_getattr_isize : Z;
  ri_fid : Z * Z;
  ri_pages : list Z
}.

(** The times of an open_ret as hmdfs_send_open stores them. *)
Definition ret_time (t : Z * Z) : hmdfs_time_t := (s64 t.1, t.2).

Definition ret_fid (r : hmdfs_open_ret) : Z * Z := (or_ver r, or_id r).

Section Open.
Context `{TimeOps}.

Definition stable_of (current_time ctime : hmdfs_time_t) (dcache_precision : Z) : Z * Z :=
  let precision := hmdfs_time_add ctime (msec_to_timespec dcache_precision) in
  if hmdfs_time_compare current_time ctime <? 0 then (0, 0)
  else if (0 <=? hmdfs_time_compare current_time ctime) && (hmdfs_time_compare current_time precision <? 0)
  then ctime
  else precision.

Definition hmdfs_update_open_response (boot_cookie fid_cookie dcache_precision : Z)
    (current_time : hmdfs_time_t) (info : hmdfs_open_info) (resp : bytes) : bytes :=
  let ctime := oi_ctime info in
  let stable := stable_of current_time ctime dcache_precision in
  put_all open_response
    [("ino", oi_real_ino info); ("file_ver", hmdfs_server_pack_fid_ver boot_cookie fid_cookie);
     ("file_id", oi_file_id info); ("file_size", oi_size info);
     ("ctime", ctime.1); ("ctime_nsec", ctime.2);
     ("stable_ctime", stable.1); ("stable_ctime_nsec", stable.2)] resp.

Definition hmdfs_remote_write_cache_expired (jiffies : Z) (info : remote_inode) : bool :=
  time_after jiffies (ri_writecache_expire info).

(** The checks in order: whether to truncate, and why. *)
Definition open_decision (info : remote_inode) (r : hmdfs_open_ret) (jiffies : Z) : bool * expire_reason :=
  if negb (u64 (ri_i_size info) =? or_file_size r) ||
     negb (hmdfs_time_compare (ri_remote_ctime info) (ret_time (or_ctime r)) =? 0)
  then (true, SIZE_OR_CTIME_DISMATCH)
  else if negb (ri_writecache_expire info =? 0) then
    if hmdfs_remote_write_cache_expired jiffies info then (true, TIMER_EXPIRE) else (false, TIMER_WORKING)
  else if ((ri_stable_ctime info).1 =? 0) && ((ri_stable_ctime info).2 =? 0) then
    (true, STABLE_CTIME_DISMATCH)
  else if negb (hmdfs_time_compare (ri_stable_ctime info) (ret_time (or_stable_ctime r)) =? 0) then
    (true, STABLE_CTIME_DISMATCH)
  else (false, ALL_GOOD).

(** The result, the fid closed if any, and the inode. *)
Definition hmdfs_open_final_remote (info : remote_inode) (r : hmdfs_open_ret) (jiffies : Z)
    (keep_cache : bool) : Z * option (Z * Z) * remote_inode :=
  if negb (ri_remote_ino info =? or_ino r) then (- ESTALE, Some (ret_fid r), info)
  else if keep_cache then
    (0, None, mk_ri (ri_remote_ino info) (ri_i_size info) (ri_i_ctime info) (ri_remote_ctime info)
                (ri_stable_ctime info) (ri_writecache_expire info) (ri_write_counter info)
                (ri_getattr_isize info) (ret_fid r) (ri_pages info))
  else
    let '(truncate, reason) := open_decision info r jiffies in
    let '(i_ctime, remote_ctime) :=
      match reason with
      | SIZE_OR_CTIME_DISMATCH => (ret_time (or_ctime r), ret_time (or_ctime r))
      | _ => (ri_i_ctime info, ri_remote_ctime info)
      end in
    (0, None, mk_ri (ri_remote_ino info) (s64 (or_file_size r)) i_ctime remote_ctime
                (ret_time (or_stable_ctime r))
                (if truncate then 0 else ri_writecache_expire info) 0
                HMDFS_STALE_REMOTE_ISIZE (ret_fid r) (if truncate then [] else ri_pages info)).

End Open.

Section Close.
Context (HZ : Z).

Definition set_expire (info : remote_inode) (v : Z) : remote_inode :=
  mk_ri (ri_remote_ino info) (ri_i_size info) (ri_i_ctime info) (ri_remote_ctime info)
    (ri_stable_ctime info) v (ri_write_counter info) (ri_getattr_isize info) (ri_fid info) (ri_pages info).

Definition set_ctimes (info : remote_inode) (t : hmdfs_time_t) : remote_inode :=
  mk_ri (ri_remote_ino info) (ri_i_size info) t t (ri_stable_ctime info) (ri_writecache_expire info)
    (ri_write_counter info) (ri_getattr_isize info) (ri_fid info) (ri_pages info).

Definition hmdfs_set_writecache_expire (jiffies : Z) (info : remote_inode) (seconds : Z) : remote_inode :=
  let new_expire := u64 (jiffies + u64 (seconds * HZ)) in
  if negb (ri_writecache_expire info =? 0) && time_after new_expire (ri_writecache_expire info) then info
  else set_expire info new_expire.

(** [users] is kref_read(&info->ref); [getattr] the result of hmdfs_remote_getattr: an error,
    or the result mask and the ctime. *)
Definition hmdfs_remote_keep_writecache (jiffies : Z) (info : remote_inode) (users write_cache_timeout : Z)
    (getattr : Z + (Z * hmdfs_time_t)) : remote_inode :=
  if write_cache_timeout =? 0 then info
  else if (0 <? users) || (ri_write_counter info =? 0) then info
  else match getattr with
       | inl _ => info
       | inr (result_mask, ctime) =>
           if negb (Z.land result_mask STATX_CTIME =? 0)
           then hmdfs_set_writecache_expire jiffies (set_ctimes info ctime) write_cache_timeout
           else info
       end.
End Close.

(** * The answer as the client reads it *)

Section Proofs.
Context `{TimeOps}.

(** The response buffer is zeroed (kzalloc). *)
Definition zero_response : bytes := replicate (size_of open_response) 0.

Definition open_answer (boot_cookie fid_cookie precision : Z) (now : hmdfs_time_t) (i : hmdfs_open_info) : bytes :=
  hmdfs_update_open_response boot_cookie fid_cookie precision now i zero_response.

Lemma stable_spec now ct precision :
  time_ok now -> time_ok ct -> 0 <= precision < 2 ^ 32 ->
  let s := stable_of now ct precision in
  0 <= s.2 < NSEC_PER_SEC /\ - 2 ^ 63 <= s.1 < 2 ^ 63 /\
  nanos s = if nanos now <? nanos ct then 0
            else if nanos now <? nanos ct + precision * NSEC_PER_MSEC then nanos ct
            else nanos ct + precision * NSEC_PER_MSEC.
Proof.
  intros Hn Hc Hp. unfold stable_of. cbn zeta. destruct (msec_nanos precision Hp) as [Hpn Hpok].
  destruct (time_add_spec ct _ Hc Hpok) as [Hadd Han]. rewrite Hpn in Hadd.
  destruct Hn as [Hn1 Hn2], Hc as [Hc1 Hc2]. rewrite (Z.leb_antisym _ 0).
  rewrite !compare_lt by done. rewrite Hadd.
  destruct (nanos now <? nanos ct) eqn:E; cbn [negb andb]; [by vm_compute|].
  destruct (nanos now <? nanos ct + _); [split; [done|]; split; [lia|done]|].
  split; [done|]. split; [|done].
  set (t := hmdfs_time_add _ _) in *. unfold nanos, NSEC_PER_SEC, NSEC_PER_MSEC in *. lia.
Qed.

Lemma open_answer_read b fc precision now i :
  time_ok now -> time_ok (oi_ctime i) -> 0 <= precision < 2 ^ 32 ->
  exists r, open_of (open_answer b fc precision now i) = Some r /\
    or_ino r = u64 (oi_real_ino i) /\ or_file_size r = u64 (oi_size i) /\
    ret_time (or_ctime r) = oi_ctime i /\
    ret_time (or_stable_ctime r) = stable_of now (oi_ctime i) precision.
Proof.
  intros Hn Hc Hp. destruct (stable_spec now (oi_ctime i) precision Hn Hc Hp) as (Hs2&Hs1&_).
  unfold open_answer, hmdfs_update_open_response, zero_response.
  set (st := stable_of _ _ _) in *. set (kvs := (_ :: _)).
  rewrite <- encode_zero, <- (app_nil_r (encode _ _)), put_all_encode.
  2: { apply (bool_decide_unpack _). by vm_compute. }
  2: { subst kvs. repeat constructor; cbn; set_solver. }
  set (env := foldl _ _ _). unfold open_of.
  rewrite (fld_encode open_response env [] "ino" 24 8), (fld_encode open_response env [] "file_ver" 4 8),
    (fld_encode open_response env [] "file_id" 12 4), (fld_encode open_response env [] "file_size" 16 8),
    (fld_encode open_response env [] "ctime" 32 8), (fld_encode open_response env [] "ctime_nsec" 40 4),
    (fld_encode open_response env [] "stable_ctime" 56 8), (fld_encode open_response env [] "stable_ctime_nsec" 64 4)
    by done.
  cbn [mbind option_bind]. eexists; split; [done|]. cbn [or_ino or_file_size or_ctime or_stable_ctime].
  change (env "ino") with (oi_real_ino i). change (env "file_size") with (oi_size i).
  change (env "ctime") with (oi_ctime i).1. change (env "ctime_nsec") with (oi_ctime i).2.
  change (env "stable_ctime") with st.1. change (env "stable_ctime_nsec") with st.2.
  destruct Hc as [Hc2 Hc1]. unfold NSEC_PER_SEC in *.
  assert (Hs : forall z, - 2 ^ 63 <= z < 2 ^ 63 -> s64 (z mod 256 ^ Z.of_nat 8) = z).
  { intros z Hz. rewrite <- (swrap_id 64 z) at 2 by (done || exact Hz). unfold swrap.
    change (256 ^ Z.of_nat 8) with (2 ^ 64). by rewrite Z.mod_mod by done. }
  split; [done|]. split; [done|]. unfold ret_time. cbn [fst snd]. rewrite !Hs by lia.
  change (256 ^ Z.of_nat 4) with (2 ^ 32). rewrite !Z.mod_small by lia. by destruct (oi_ctime i), st.
Qed.

(** After a full open the inode holds the attributes of the answer. *)
Lemma opened_attrs info r jiffies :
  ri_remote_ino info = or_ino r -> 0 <= (ri_remote_ctime info).2 < NSEC_PER_SEC ->
  0 <= (ret_time (or_ctime r)).2 < NSEC_PER_SEC ->
  exists info', hmdfs_open_final_remote info r jiffies false = (0, None, info') /\
    ri_remote_ino info' = or_ino r /\ ri_remote_ctime info' = ret_time (or_ctime r) /\
    ri_stable_ctime info' = ret_time (or_stable_ctime r) /\ ri_fid info' = ret_fid r /\
    u64 (ri_i_size info') = u64 (or_file_size r) /\
    ri_pages info' = if (open_decision info r jiffies).1 then [] else ri_pages info.
Proof.
  intros Hino Hc1 Hc2. unfold hmdfs_open_final_remote. rewrite Hino, Z.eqb_refl. cbn [negb].
  assert (Hdec : (open_decision info r jiffies).2 <> SIZE_OR_CTIME_DISMATCH ->
                 ri_remote_ctime info = ret_time (or_ctime r)).
  { unfold open_decision. rewrite compare_eq by done.
    destruct (_ || _) eqn:E; [done|]. apply orb_false_iff in E as [_ E%negb_false_iff]. zb.
    intros _. by apply nanos_inj. }
  assert (Hsz : u64 (s64 (or_file_size r)) = u64 (or_file_size r)).
  { unfold swrap, wrap. cbn zeta. destruct (_ <? _).
    - by rewrite Z.mod_mod.
    - rewrite Zminus_mod, Z_mod_same_full, Z.sub_0_r, Z.mod_mod by done. by rewrite Z.mod_mod. }
  destruct (open_decision info r jiffies) as [tr reason]; cbn [fst snd] in *.
  destruct reason; (eexists; split; [done|]); cbn; repeat split; try done;
    (by apply Hdec) || (by destruct tr).
Qed.

(** When the pages are kept by the stable ctime, both answers carried the same attributes. *)
Lemma kept_attrs info r jiffies :
  0 <= (ri_remote_ctime info).2 < NSEC_PER_SEC -> 0 <= (ret_time (or_ctime r)).2 < NSEC_PER_SEC ->
  0 <= (ri_stable_ctime info).2 < NSEC_PER_SEC -> 0 <= (ret_time (or_stable_ctime r)).2 < NSEC_PER_SEC ->
  ri_writecache_expire info = 0 ->
  (open_decision info r jiffies).1 = false <->
    u64 (ri_i_size info) = or_file_size r /\ ri_remote_ctime info = ret_time (or_ctime r) /\
    ri_stable_ctime info = ret_time (or_stable_ctime r) /\ nanos (ri_stable_ctime info) <> 0.
Proof.
  intros H1 H2 H3 H4 He. unfold open_decision. rewrite !compare_eq by done. rewrite He. cbn [Z.eqb negb].
  assert (Hz : (((ri_stable_ctime info).1 =? 0) && ((ri_stable_ctime info).2 =? 0)) = (nanos (ri_stable_ctime info) =? 0)).
  { unfold nanos, NSEC_PER_SEC in *.
    destruct ((ri_stable_ctime info).1 =? 0) eqn:E1, ((ri_stable_ctime info).2 =? 0) eqn:E2; cbn; zb;
      symmetry; (apply Z.eqb_eq || apply Z.eqb_neq); lia. }
  rewrite Hz; clear Hz. split.
  - destruct (_ || _) eqn:E; [done|]. apply orb_false_iff in E as [E1 E2]. zb.
    destruct (nanos _ =? 0) eqn:E3; [done|]. destruct (_ =? nanos (ret_time (or_stable_ctime r))) eqn:E4; [|done]. zb.
    intros _. split; [done|]. split; [by apply nanos_inj|]. split; [by apply nanos_inj|done].
  - intros (Hs&Hc&Hst&Hnz). rewrite Hs, Hc, Hst, !Z.eqb_refl in *. cbn.
    by rewrite (proj2 (Z.eqb_neq _ 0)).
Qed.

(** Pages read after an open are not served after a later open when the file changed since,
    once the change is older than the clock's precision. First open at server time [t1], with
    attributes [i1]; second at [t2] with [i2]; in between the inode keeps the times the first
    one stored, and no write-cache timer is set. If the file changed at [w >= t1], and the
    clock of its ctime lags by less than the precision, the second open drops the pages as soon
    as [t2] is past the ctime by the precision; it also drops pages read while the first
    open's ctime was that recent. Pages of a file whose size and ctime have not changed are
    kept if the first open was late enough. *)
Theorem stale_pages_dropped b fc precision i1 t1 i2 t2 info0 j1 info1' j2 r1 r2 :
  0 < precision < 2 ^ 32 -> time_ok t1 -> time_ok t2 -> time_ok (oi_ctime i1) -> time_ok (oi_ctime i2) ->
  0 <= (ri_remote_ctime info0).2 < NSEC_PER_SEC ->
  open_of (open_answer b fc precision t1 i1) = Some r1 -> open_of (open_answer b fc precision t2 i2) = Some r2 ->
  ri_remote_ino info0 = u64 (oi_real_ino i1) -> oi_real_ino i2 = oi_real_ino i1 ->
  exists info1, hmdfs_open_final_remote info0 r1 j1 false = (0, None, info1) /\
  (ri_remote_ino info1' = ri_remote_ino info1 -> ri_remote_ctime info1' = ri_remote_ctime info1 ->
   ri_stable_ctime info1' = ri_stable_ctime info1 -> ri_writecache_expire info1' = 0 ->
   exists info2, hmdfs_open_final_remote info1' r2 j2 false = (0, None, info2) /\
   let c1 := nanos (oi_ctime i1) in let c2 := nanos (oi_ctime i2) in let p := precision * NSEC_PER_MSEC in
   ((exists w, nanos t1 <= w /\ w - p < c2) -> c2 + p <= nanos t2 -> ri_pages info2 = []) /\
   (nanos t1 < c1 + p -> c2 + p <= nanos t2 -> ri_pages info2 = []) /\
   (oi_ctime i2 = oi_ctime i1 -> u64 (ri_i_size info1') = u64 (oi_size i2) -> c1 + p <> 0 ->
    c1 + p <= nanos t1 -> nanos t1 <= nanos t2 -> ri_pages info2 = ri_pages info1')).
Proof.
  intros Hp Ht1 Ht2 Hc1 Hc2 H0 Hr1 Hr2 Hino Hino2. assert (Hp' : 0 <= precision < 2 ^ 32) by lia.
  destruct (open_answer_read b fc precision t1 i1 Ht1 Hc1 Hp') as (r1'&E1&Ei1&_&Ec1&Es1).
  rewrite Hr1 in E1. injection E1 as <-.
  destruct (open_answer_read b fc precision t2 i2 Ht2 Hc2 Hp') as (r2'&E2&Ei2&Ez2&Ec2&Es2).
  rewrite Hr2 in E2. injection E2 as <-.
  destruct (stable_spec t1 _ precision Ht1 Hc1 Hp') as (Hs1&_&Hn1).
  destruct (stable_spec t2 _ precision Ht2 Hc2 Hp') as (Hs2&_&Hn2).
  destruct (opened_attrs info0 r1 j1) as (info1&Hopen1&Ho1&Hrc1&Hst1&_); [congruence|done|by rewrite Ec1; apply Hc1|].
  exists info1. split; [done|]. intros Ho Hrc Hst He. rewrite Hrc1, Ec1 in Hrc. rewrite Hst1, Es1 in Hst.
  destruct (opened_attrs info1' r2 j2) as (info2&Hopen2&_&_&_&_&_&Hpages);
    [congruence|rewrite Hrc; apply Hc1|rewrite Ec2; apply Hc2|].
  exists info2. split; [done|]. intros c1 c2 p.
  assert (Hpp : 0 < p) by (unfold p, NSEC_PER_MSEC; lia).
  assert (Hkept : (open_decision info1' r2 j2).1 = false <->
     u64 (ri_i_size info1') = or_file_size r2 /\ ri_remote_ctime info1' = ret_time (or_ctime r2) /\
     ri_stable_ctime info1' = ret_time (or_stable_ctime r2) /\ nanos (ri_stable_ctime info1') <> 0).
  { apply kept_attrs; [rewrite Hrc; apply Hc1|rewrite Ec2; apply Hc2|by rewrite Hst|by rewrite Es2|done]. }
  rewrite Hrc, Hst, Ec2, Es2 in Hkept. fold p in Hn1, Hn2. fold c1 in Hn1. fold c2 in Hn2.
  assert (Hno : (nanos t1 < c1 + p \/ exists w, nanos t1 <= w /\ w - p < c2) -> c2 + p <= nanos t2 -> ri_pages info2 = []).
  { intros Hw Hlate. rewrite Hpages. destruct (open_decision info1' r2 j2).1 eqn:Ed; [done|]. exfalso.
    destruct (proj1 Hkept eq_refl) as (_&Hcc&Hss&Hnz). assert (c1 = c2) by (unfold c1, c2; congruence).
    rewrite Hss in Hn1, Hnz. rewrite Hn2 in Hn1, Hnz.
    destruct (nanos t2 <? c2) eqn:A; zb; [lia|]. destruct (nanos t2 <? c2 + p) eqn:B; zb; [lia|].
    destruct (nanos t1 <? c1) eqn:C; zb; [lia|]. destruct (nanos t1 <? c1 + p) eqn:D; zb; [lia|].
    destruct Hw as [?|(w&?&?)]; lia. }
  split; [intros ?; apply Hno; by right|]. split; [intros ?; apply Hno; by left|].
  intros Hcc Hsz Hnz Hl1 Hl2. rewrite Hpages. assert (Hc12 : c2 = c1) by (unfold c1, c2; by rewrite Hcc).
  rewrite Hc12 in Hn2.
  rewrite (proj2 Hkept); [done|]. rewrite Ez2. split; [done|]. split; [done|].
  rewrite !(proj2 (Z.ltb_ge _ _)) in Hn1 by lia. rewrite !(proj2 (Z.ltb_ge _ _)) in Hn2 by lia.
  split; [|lia]. apply nanos_inj; [done|done|]. congruence.
Qed.

End Proofs.

(** A file changed at second 12 and opened again at second 20 with the same size and ctime 12
    loses its pages. *)
Lemma stale_pages_dropped_witness :
  let i1 := mk_open_info false (0, 0) 0 (5, 0) 100 7 1 in
  let i2 := mk_open_info false (0, 0) 0 (12, 0) 100 7 1 in
  exists r1 r2 info1 info2,
    open_of (@open_answer plain_time 0 1 1000 (10, 0) i1) = Some r1 /\
    open_of (@open_answer plain_time 0 1 1000 (20, 0) i2) = Some r2 /\
    @hmdfs_open_final_remote plain_time (mk_ri 7 0 (0, 0) (0, 0) (0, 0) 0 0 0 (0, 0) [3]) r1 0 false
      = (0, None, info1) /\
    @hmdfs_open_final_remote plain_time
      (mk_ri 7 100 (5, 0) (ri_remote_ctime info1) (ri_stable_ctime info1) 0 0 0 (0, 0) [3; 4]) r2 0 false
      = (0, None, info2) /\
    ri_pages info2 = [].
Proof.
  intros i1 i2.
  destruct (open_of (@open_answer plain_time 0 1 1000 (10, 0) i1)) as [r1|] eqn:E1; [|by vm_compute in E1].
  destruct (open_of (@open_answer plain_time 0 1 1000 (20, 0) i2)) as [r2|] eqn:E2; [|by vm_compute in E2].
  destruct (@stale_pages_dropped plain_time 0 1 1000 i1 (10, 0) i2 (20, 0)
    (mk_ri 7 0 (0, 0) (0, 0) (0, 0) 0 0 0 (0, 0) [3]) 0
    (mk_ri 7 100 (5, 0) (5, 0) (6, 0) 0 0 0 (0, 0) [3; 4]) 0 r1 r2) as (info1&Ho&H);
    [by vm_compute..|exact E1|exact E2|done|done|].
  vm_compute in E1. injection E1 as <-. vm_compute in Ho. injection Ho as <-.
  destruct H as (info2&Ho2&Hw&_); [done..|].
  do 4 eexists; split; [done|]. split; [done|]. split; [done|]. split; [exact Ho2|].
  apply Hw; [exists (nanos (12, 0))|]; by vm_compute.
Defined.
