(* ===== verification/DropPush.v ===== *)
(** Who is told that a directory changed (hmdfs_dentryfile.c 2325-2515, inode_local.c and the
    remote operations of hmdfs_dentryfile.c 2579-2880): every directory keeps the devices that
    cached its entries; a change sends each of them a drop push and forgets it, except the
    device the change came from, which is marked by its drop flag. *)
From S2P Require Import Prelude ServerPath DentryPath.

Definition EOWNERDEAD := 130.
Definition RENAME_NOREPLACE := 1.

(** struct remotecache_item: the peer, by its device id, and the flag. *)
Record remotecache_item := mk_item { it_dev : Z; it_drop_flag : bool }.

(** The remote_cache_list of each directory's dentry, and the pushes sent: device and directory. *)
Definition dirs : Type := gmap Z (list remotecache_item).
Definition remote_cache_list (w : dirs) (d : Z) : list remotecache_item := default [] (w !! d).
Definition set_list (w : dirs) (d : Z) (l : list remotecache_item) : dirs := <[d := l]> w.

(** [found] is whether the path was looked up and the item allocated. *)
Definition hmdfs_add_remote_cache_list (w : dirs) (d dev : Z) (found : bool) : dirs :=
  if negb found then w
  else if existsb (fun it => it_dev it =? dev) (remote_cache_list w d) then w
  else set_list w d (mk_item dev false :: remote_cache_list w d).

(** The pushes of the loop, and the items it keeps. *)
Fixpoint drop_loop (l : list remotecache_item) : list Z * list remotecache_item :=
  match l with
  | [] => ([], [])
  | it :: l =>
      let '(pushes, kept) := drop_loop l in
      if it_drop_flag it then (pushes, mk_item (it_dev it) false :: kept)
      else (it_dev it :: pushes, kept)
  end.

(** [ready]: the dentry has its info, a lower inode that is a directory, and its relative path
    could be built. *)
Definition hmdfs_drop_remote_cache_dents (ready : Z -> bool) (w : dirs) (d : Z) : list (Z * Z) * dirs :=
  if ready d then
    let '(pushes, kept) := drop_loop (remote_cache_list w d) in
    (map (fun dev => (dev, d)) pushes, set_list w d kept)
  else ([], w).

Fixpoint mark_first (dev : Z) (l : list remotecache_item) : list remotecache_item :=
  match l with
  | [] => []
  | it :: l => if it_dev it =? dev then mk_item (it_dev it) true :: l else it :: mark_first dev l
  end.

Definition hmdfs_mark_drop_flag (dev : Z) (w : dirs) (d : Z) : dirs :=
  set_list w d (mark_first dev (remote_cache_list w d)).

Definition hmdfs_clear_drop_flag (w : dirs) (d : Z) : dirs :=
  set_list w d (map (fun it => mk_item (it_dev it) false) (remote_cache_list w d)).

Section Changes.
Context (ready : Z -> bool).

Abbreviation drop := (hmdfs_drop_remote_cache_dents ready).
Abbreviation clear := hmdfs_clear_drop_flag.

(** ** The local operations. [setup] is the error of overriding the credentials, [vfs] the
    result on the lower file system and [fill] what may still fail after it: hmdfs_persist_perm
    and fill_inode_local. *)

Definition hmdfs_mkdir_local_dentry (w : dirs) (dir setup vfs fill : Z) : Z * list (Z * Z) * dirs :=
  if negb (setup =? 0) then (setup, [], w)
  else
  let error := if vfs =? 0 then fill else vfs in
  let '(pushes, w) := if vfs =? 0 then drop w dir else ([], w) in
  (error, pushes, if negb (error =? 0) then clear w dir else w).

Definition hmdfs_create_local_dentry (w : dirs) (dir setup vfs fill : Z) : Z * list (Z * Z) * dirs :=
  if negb (setup =? 0) then (setup, [], w)
  else if negb (vfs =? 0) then (vfs, [], clear w dir)
  else
    let '(pushes, w) := drop w dir in
    (fill, pushes, if negb (fill =? 0) then clear w dir else w).

(** The removed directory's own cache is dropped first (hmdfs_clear_cache_dents). *)
Definition hmdfs_rmdir_local_dentry (w : dirs) (dir error : Z) : Z * list (Z * Z) * dirs :=
  let '(pushes, w) := if error =? 0 then drop w dir else ([], w) in
  (error, pushes, if negb (error =? 0) then clear w dir else w).

Definition hmdfs_unlink_local_dentry (w : dirs) (dir error : Z) : Z * list (Z * Z) * dirs :=
  let '(pushes, w) := if error =? 0 then drop w dir else ([], w) in
  (error, pushes, if negb (error =? 0) then clear w dir else w).

(** [rc] is -EINVAL or -ENOTEMPTY for a rename into its own tree, or vfs_rename's result. *)
Definition hmdfs_rename_local_dentry (w : dirs) (old_dir new_dir flags : Z) (lower_old lower_new : bool)
    (rc : Z) : Z * list (Z * Z) * dirs :=
  if negb (flags =? 0) then (- EINVAL, [], w)
  else if negb lower_old || negb lower_new then (- EACCES, [], w)
  else if rc =? 0 then
    let '(p1, w) := drop w old_dir in
    let '(p2, w) := if negb (old_dir =? new_dir) then drop w new_dir else ([], w) in
    (rc, p1 ++ p2, w)
  else
    let w := clear w old_dir in
    (rc, [], if negb (old_dir =? new_dir) then clear w old_dir else w).

(** The checks of hmdfs_rename_local, and the rename of a regular file or a directory. *)
Definition hmdfs_rename_local (w : dirs) (old_dir new_dir flags : Z)
    (common_names same_view same_device reg_or_dir lower_old lower_new : bool) (rc : Z) : Z * list (Z * Z) * dirs :=
  if negb common_names then (- EACCES, [], w)
  else if negb same_view then (- EPERM, [], w)
  else if negb same_device then (- EXDEV, [], w)
  else if reg_or_dir then hmdfs_rename_local_dentry w old_dir new_dir flags lower_old lower_new rc
  else (0, [], w).

(** ** The operations asked for by a device. [fs] is what the hmdfs method does, and [refused]
    the error of a check made before it, by the VFS or on the name, 0 if there is none. *)

Definition vfs_call (refused : Z) (fs : dirs -> Z * list (Z * Z) * dirs) (w : dirs) : Z * list (Z * Z) * dirs :=
  if negb (refused =? 0) then (refused, [], w) else fs w.

(** [path] is the error of building or looking up the path, 0 if there is none. *)
Definition hmdfs_root_mkdir (dev : Z) (w : dirs) (dir path refused setup vfs fill : Z) : Z * list (Z * Z) * dirs :=
  if negb (path =? 0) then (path, [], w)
  else vfs_call refused (fun w => hmdfs_mkdir_local_dentry w dir setup vfs fill) (hmdfs_mark_drop_flag dev w dir).

Definition hmdfs_root_create (dev : Z) (w : dirs) (dir path refused setup vfs fill : Z) : Z * list (Z * Z) * dirs :=
  if negb (path =? 0) then (path, [], w)
  else vfs_call refused (fun w => hmdfs_create_local_dentry w dir setup vfs fill) (hmdfs_mark_drop_flag dev w dir).

Definition hmdfs_root_rmdir (dev : Z) (w : dirs) (dir path refused : Z) (negative : bool) (error : Z) :
    Z * list (Z * Z) * dirs :=
  if negb (path =? 0) then (path, [], w)
  else if negative then (- ENOENT, [], w)
  else vfs_call refused (fun w => hmdfs_rmdir_local_dentry w dir error) (hmdfs_mark_drop_flag dev w dir).

(** DUSTBIN_SUFFIX. *)
Definition DUSTBIN_SUFFIX : bytes := [46; 104; 119; 98; 107].

(** hmdfs_rename_bak: the new name of the lower file, or the error, from the allocation and the
    results of mnt_want_write, lookup_one_len and vfs_rename. *)
Definition hmdfs_rename_bak (name : bytes) (alloc : bool) (write lookup rename : Z) : Z + bytes :=
  let len := Z.of_nat (length name + length DUSTBIN_SUFFIX) + 2 in
  if NAME_MAX <=? len then inl (- ENAMETOOLONG)
  else if negb alloc then inl (- ENOMEM)
  else if negb (write =? 0) then inl write
  else if negb (lookup =? 0) then inl lookup
  else if negb (rename =? 0) then inl rename
  else inr (snprintf len (46 :: name ++ DUSTBIN_SUFFIX)).

(** The name under which the lower directory has the file after vfs_unlink returned [error], if
    it still has it. *)
Definition name_after_unlink (error : Z) (name : bytes) (bak : Z + bytes) : option bytes :=
  if error =? 0 then None
  else if error =? - EOWNERDEAD then Some (match bak with inr new => new | inl _ => name end)
  else Some name.

(** -EOWNERDEAD asks to keep the file under a backup name, which is done below hmdfs; whether
    that worked is not returned. *)
Definition hmdfs_root_unlink (dev : Z) (w : dirs) (dir path refused : Z) (negative : bool) (error : Z) :
    Z * list (Z * Z) * dirs :=
  if negb (path =? 0) then (path, [], w)
  else if negative then (- ENOENT, [], w)
  else
    let '(err, pushes, w) :=
      vfs_call refused (fun w => hmdfs_unlink_local_dentry w dir error) (hmdfs_mark_drop_flag dev w dir) in
    (if err =? - EOWNERDEAD then 0 else err, pushes, w).

(** [old_is_trap] and [new_is_trap]: lock_rename's ancestor; [positive]: the target exists. *)
Definition hmdfs_root_rename (dev : Z) (w : dirs) (old_dir new_dir path flags refused : Z)
    (old_is_trap new_is_trap positive common_names same_view same_device reg_or_dir lower_old lower_new : bool)
    (rc : Z) : Z * list (Z * Z) * dirs :=
  if negb (path =? 0) then (path, [], w)
  else if old_is_trap then (- EINVAL, [], w)
  else if new_is_trap then (- ENOTEMPTY, [], w)
  else if positive && negb (Z.land flags RENAME_NOREPLACE =? 0) then (- EEXIST, [], w)
  else
    let w := hmdfs_mark_drop_flag dev w old_dir in
    let w := if negb (old_dir =? new_dir) then hmdfs_mark_drop_flag dev w new_dir else w in
    vfs_call refused
      (fun w => hmdfs_rename_local w old_dir new_dir flags common_names same_view same_device reg_or_dir
                  lower_old lower_new rc) w.

End Changes.

(** * What a change tells whom *)

(** Between changes no flag is set and no device is listed twice. *)
Definition quiet (w : dirs) : Prop :=
  forall d, NoDup (map it_dev (remote_cache_list w d)) /\
            Forall (fun it => it_drop_flag it = false) (remote_cache_list w d).

(** Every device that cached [dir] is told, but for [except], which alone stays listed. *)
Definition told (except : option Z) (w : dirs) (dir : Z) (pushes : list (Z * Z)) (w' : dirs) : Prop :=
  pushes = map (fun dev => (dev, dir)) (filter (fun dev => Some dev <> except) (map it_dev (remote_cache_list w dir))) /\
  remote_cache_list w' dir = filter (fun it => Some (it_dev it) = except) (remote_cache_list w dir) /\
  (forall d, d <> dir -> remote_cache_list w' d = remote_cache_list w d).

(** No list changed. *)
Definition untouched (w w' : dirs) : Prop := forall d, remote_cache_list w' d = remote_cache_list w d.

Lemma rcl_set w d l d' : remote_cache_list (set_list w d l) d' = if decide (d' = d) then l else remote_cache_list w d'.
Proof.
  unfold remote_cache_list, set_list, dirs in *. destruct (decide _) as [->|].
  - by rewrite lookup_insert_eq.
  - by rewrite lookup_insert_ne by done.
Qed.

Lemma Forall_filter_sub (P Q : remotecache_item -> Prop) `{forall it, Decision (Q it)} (l : list remotecache_item) :
  Forall P l -> Forall P (filter Q l).
Proof.
  rewrite !list.Forall_forall. intros Hl it [_ Hin]%list_elem_of_filter. by apply Hl.
Qed.

(** The flags, as a function of the device. *)
Definition flags_of (f : Z -> bool) (l : list remotecache_item) : list remotecache_item :=
  map (fun it => mk_item (it_dev it) (f (it_dev it))) l.

Lemma flags_of_clear l : Forall (fun it => it_drop_flag it = false) l -> flags_of (fun _ => false) l = l.
Proof.
  unfold flags_of. induction 1 as [|[d f] l Hf Hl IH]; [done|]. cbn in *. subst f. by f_equal.
Qed.

Lemma mark_first_absent dev l : dev ∉ map it_dev l -> mark_first dev l = l.
Proof.
  induction l as [|it l IH]; cbn; [done|]. intros [Hd Hl]%not_elem_of_cons.
  rewrite (proj2 (Z.eqb_neq _ _)) by congruence. by rewrite IH.
Qed.

Lemma flags_of_absent dev l :
  dev ∉ map it_dev l -> Forall (fun it => it_drop_flag it = false) l ->
  flags_of (fun x => x =? dev) l = l.
Proof.
  intros Hd Hl. rewrite <- (flags_of_clear l Hl) at 2. unfold flags_of. apply map_ext_in. intros it Hin.
  f_equal. apply Z.eqb_neq. intros <-. apply Hd. apply list_elem_of_In. by apply in_map.
Qed.

Lemma mark_first_spec dev l :
  NoDup (map it_dev l) -> Forall (fun it => it_drop_flag it = false) l ->
  mark_first dev l = flags_of (fun x => x =? dev) l.
Proof.
  induction l as [|it l IH]; cbn; [done|]. intros [Hd Hn]%list.NoDup_cons [Hf Hl]%list.Forall_cons.
  destruct (it_dev it =? dev) eqn:E; zb.
  - f_equal. subst dev. symmetry. by apply flags_of_absent.
  - rewrite IH by done. f_equal. destruct it; cbn in *. congruence.
Qed.

Lemma drop_loop_flags f l :
  drop_loop (flags_of f l) =
    (filter (fun dev => f dev = false) (map it_dev l),
     flags_of (fun _ => false) (filter (fun it => f (it_dev it) = true) l)).
Proof.
  induction l as [|it l IH]; [done|]. cbn [flags_of map drop_loop]. fold (flags_of f l). rewrite IH. cbn [it_drop_flag].
  destruct (f (it_dev it)) eqn:E.
  - rewrite filter_cons_False by congruence. rewrite filter_cons_True by done. done.
  - rewrite filter_cons_True by done. rewrite filter_cons_False by congruence. done.
Qed.

Lemma clear_flags f l : map (fun it => mk_item (it_dev it) false) (flags_of f l) = flags_of (fun _ => false) l.
Proof. unfold flags_of. by rewrite map_map. Qed.

Section Told.
Context (ready : Z -> bool).
Abbreviation drop := (hmdfs_drop_remote_cache_dents ready).

(** A drop after the flags [f] were set in [dir], which was quiet. *)
Lemma drop_told w w0 dir f except :
  quiet w0 -> ready dir = true -> remote_cache_list w dir = flags_of f (remote_cache_list w0 dir) ->
  (forall x, f x = true <-> Some x = except) -> (forall d, d <> dir -> remote_cache_list w d = remote_cache_list w0 d) ->
  told except w0 dir (drop w dir).1 (drop w dir).2.
Proof.
  intros Hq Hr Hl Hf Hother. unfold told, hmdfs_drop_remote_cache_dents. rewrite Hr, Hl, drop_loop_flags. cbn [fst snd].
  split; [|split].
  - f_equal. apply list_filter_iff. intros x. rewrite <- Hf. by destruct (f x).
  - rewrite rcl_set, decide_True by done. rewrite flags_of_clear.
    + apply list_filter_iff. intros it. by rewrite Hf.
    + apply Forall_filter_sub, Hq.
  - intros d Hd. rewrite rcl_set, decide_False by done. auto.
Qed.

Lemma mark_flags dev w dir :
  quiet w -> remote_cache_list (hmdfs_mark_drop_flag dev w dir) dir = flags_of (fun x => x =? dev) (remote_cache_list w dir).
Proof.
  intros Hq. unfold hmdfs_mark_drop_flag. rewrite rcl_set, decide_True by done. apply mark_first_spec; apply Hq.
Qed.

Lemma mark_other dev w dir d : d <> dir -> remote_cache_list (hmdfs_mark_drop_flag dev w dir) d = remote_cache_list w d.
Proof. intros. unfold hmdfs_mark_drop_flag. by rewrite rcl_set, decide_False. Qed.

(** The quiet lists [w], with the flag of [except] set in the directories [ds]. *)
Definition marked (except : option Z) (w : dirs) (ds : list Z) (w1 : dirs) : Prop :=
  exists f : Z -> bool, (forall x, f x = true <-> Some x = except) /\
    forall d, remote_cache_list w1 d = if decide (d ∈ ds) then flags_of f (remote_cache_list w d) else remote_cache_list w d.

Lemma mark_marked dev w dir : quiet w -> marked (Some dev) w [dir] (hmdfs_mark_drop_flag dev w dir).
Proof.
  intros Hq. exists (fun x => x =? dev). split; [intros x; rewrite Z.eqb_eq; split; congruence|]. intros d. destruct (decide _) as [Hd|Hd].
  - apply list_elem_of_singleton in Hd as ->. by apply mark_flags.
  - apply mark_other. intros ->. apply Hd. by left.
Qed.

Lemma mark_two dev w old new : quiet w -> old <> new ->
  marked (Some dev) w [old; new] (hmdfs_mark_drop_flag dev (hmdfs_mark_drop_flag dev w old) new).
Proof.
  intros Hq Hne. exists (fun x => x =? dev). split; [intros x; rewrite Z.eqb_eq; split; congruence|]. intros d. destruct (decide (d = new)) as [->|Hn].
  - rewrite decide_True by (right; left). unfold hmdfs_mark_drop_flag at 1. rewrite rcl_set, decide_True by done.
    rewrite mark_other by done. apply mark_first_spec; apply Hq.
  - rewrite mark_other by done. destruct (decide (d = old)) as [->|Ho]; [rewrite decide_True by left; by apply mark_flags|].
    rewrite mark_other by done. rewrite decide_False; [done|]. by intros [->| ->%list_elem_of_singleton]%elem_of_cons.
Qed.

(** A local change marks nobody. *)
Lemma none_marked w ds : quiet w -> marked None w ds w.
Proof.
  intros Hq. exists (fun _ => false). split; [done|]. intros d. destruct (decide _); [|done]. symmetry. apply flags_of_clear, Hq.
Qed.

Lemma marked_drop except w dir w1 : quiet w -> ready dir = true -> marked except w [dir] w1 ->
  told except w dir (drop w1 dir).1 (drop w1 dir).2.
Proof.
  intros Hq Hr (f&Hf&Hl). apply (drop_told w1 w dir f); [done|done| |done|].
  - rewrite Hl. by rewrite decide_True by left.
  - intros d Hd. rewrite Hl. rewrite decide_False; [done|]. by intros ->%list_elem_of_singleton.
Qed.

(** Clearing what was marked gives the quiet lists back. *)
Lemma marked_clear except w dir w1 : quiet w -> marked except w [dir] w1 -> untouched w (hmdfs_clear_drop_flag w1 dir).
Proof.
  intros Hq (f&_&Hl) d. unfold hmdfs_clear_drop_flag. rewrite rcl_set, !Hl. destruct (decide (d = dir)) as [->|Hd].
  - rewrite decide_True by left. rewrite clear_flags. apply flags_of_clear, Hq.
  - rewrite decide_False; [done|]. by intros ->%list_elem_of_singleton.
Qed.

Lemma clear_quiet w dir : quiet w -> untouched w (hmdfs_clear_drop_flag w dir).
Proof.
  intros Hq d. unfold hmdfs_clear_drop_flag. rewrite rcl_set. destruct (decide _) as [->|]; [|done].
  apply (flags_of_clear (remote_cache_list w dir)), Hq.
Qed.

Lemma quiet_told except w dir p w' : quiet w -> told except w dir p w' -> quiet w'.
Proof.
  intros Hq (_&Hl&Ho) d. destruct (decide (d = dir)) as [->|Hd]; [|by rewrite Ho].
  rewrite Hl. destruct (Hq dir) as [Hn Hf]. split; [|by apply Forall_filter_sub].
  clear - Hn. induction (remote_cache_list w dir) as [|it l IH]; [done|].
  cbn in Hn. apply list.NoDup_cons in Hn as [Hd Hn]. rewrite filter_cons. destruct (decide _); [|by apply IH].
  cbn. apply list.NoDup_cons. split; [|by apply IH]. intros Hc. apply Hd.
  apply list_elem_of_In, in_map_iff in Hc as (it'&E&Hin). apply list_elem_of_In, list_elem_of_filter in Hin as [_ Hin].
  apply list_elem_of_In, in_map_iff. exists it'. split; [done|]. by apply list_elem_of_In.
Qed.

Lemma quiet_untouched w w' : quiet w -> untouched w w' -> quiet w'.
Proof. intros Hq Hu d. rewrite Hu. apply Hq. Qed.

Lemma quiet_clear_told w dir w' except p : quiet w -> told except w dir p w' -> told except w dir p (hmdfs_clear_drop_flag w' dir).
Proof.
  intros Hq Ht. pose proof (quiet_told _ _ _ _ _ Hq Ht) as Hq'. pose proof (clear_quiet w' dir Hq') as Hu.
  destruct Ht as (?&Hl&Ho). split; [done|]. split; [by rewrite Hu|]. intros d Hd. rewrite Hu. by apply Ho.
Qed.

(** ** The operations *)

(** What an operation on one directory does: everybody but [except] is told when the lower file
    system changed, nothing happens to the lists otherwise. *)
Definition one_dir_ok (except : option Z) (w : dirs) (dir : Z) (changed : bool) (r : Z * list (Z * Z) * dirs) : Prop :=
  quiet r.2 /\
  if changed then told except w dir r.1.2 r.2 else r.1.2 = [] /\ untouched w r.2.

Lemma told_ok except w dir r : quiet w -> told except w dir r.1.2 r.2 -> one_dir_ok except w dir true r.
Proof. intros Hq Ht. split; [by eapply quiet_told|done]. Qed.

Lemma untouched_ok except w dir r : quiet w -> r.1.2 = [] -> untouched w r.2 -> one_dir_ok except w dir false r.
Proof. intros Hq Hp Hu. split; [by eapply quiet_untouched|done]. Qed.

Lemma mkdir_told except w dir w1 vfs fill : quiet w -> ready dir = true -> marked except w [dir] w1 ->
  one_dir_ok except w dir (vfs =? 0) (hmdfs_mkdir_local_dentry ready w1 dir 0 vfs fill).
Proof.
  intros Hq Hr Hm. pose proof (marked_drop except w dir w1 Hq Hr Hm) as Ht. unfold hmdfs_mkdir_local_dentry.
  cbn [Z.eqb negb]. destruct (vfs =? 0) eqn:E.
  - destruct (drop _ dir) as [p w']. cbn [fst snd] in Ht. apply told_ok; [done|]. cbn [fst snd].
    destruct (negb _); [by apply quiet_clear_told|done].
  - rewrite E. cbn [negb]. apply untouched_ok; [done|done|]. by eapply marked_clear.
Qed.

Lemma create_told except w dir w1 vfs fill : quiet w -> ready dir = true -> marked except w [dir] w1 ->
  one_dir_ok except w dir (vfs =? 0) (hmdfs_create_local_dentry ready w1 dir 0 vfs fill).
Proof.
  intros Hq Hr Hm. pose proof (marked_drop except w dir w1 Hq Hr Hm) as Ht. unfold hmdfs_create_local_dentry.
  cbn [Z.eqb]. destruct (vfs =? 0) eqn:E; cbn [negb].
  - destruct (drop _ dir) as [p w']. cbn [fst snd] in Ht. apply told_ok; [done|]. cbn [fst snd].
    destruct (negb _); [by apply quiet_clear_told|done].
  - apply untouched_ok; [done|done|]. by eapply marked_clear.
Qed.

(** hmdfs_unlink_local_dentry does the same to the lists. *)
Lemma rmdir_told except w dir w1 error : quiet w -> ready dir = true -> marked except w [dir] w1 ->
  one_dir_ok except w dir (error =? 0) (hmdfs_rmdir_local_dentry ready w1 dir error).
Proof.
  intros Hq Hr Hm. pose proof (marked_drop except w dir w1 Hq Hr Hm) as Ht. unfold hmdfs_rmdir_local_dentry.
  destruct (error =? 0) eqn:E; cbn [negb].
  - destruct (drop _ dir) as [p w']. by apply told_ok.
  - apply untouched_ok; [done|done|]. by eapply marked_clear.
Qed.

(** The checks of a rename are passed; the two directories are the same. *)
Definition rename_reached (w1 : dirs) (old new rc : Z) : Z * list (Z * Z) * dirs :=
  hmdfs_rename_local ready w1 old new 0 true true true true true true rc.

Lemma rename_one_told except w dir w1 rc : quiet w -> ready dir = true -> marked except w [dir] w1 ->
  one_dir_ok except w dir (rc =? 0) (rename_reached w1 dir dir rc).
Proof.
  intros Hq Hr Hm. pose proof (marked_drop except w dir w1 Hq Hr Hm) as Ht. unfold rename_reached, hmdfs_rename_local, hmdfs_rename_local_dentry.
  cbn [Z.eqb negb orb]. rewrite (Z.eqb_refl dir). cbn [negb]. destruct (rc =? 0) eqn:E.
  - destruct (hmdfs_drop_remote_cache_dents _ _ _) as [p w'] eqn:Ed. apply told_ok; [done|]. cbn [fst snd]. rewrite app_nil_r. exact Ht.
  - apply untouched_ok; [done|done|by eapply marked_clear].
Qed.

(** Of two directories the second is told with the first's lists done. *)
Lemma rename_two_told except w old new w1 : quiet w -> ready old = true -> ready new = true -> old <> new -> marked except w [old; new] w1 ->
  exists w' p1 p2, (rename_reached w1 old new 0).1 = (0, p1 ++ p2) /\ told except w old p1 w' /\
    told except w' new p2 (rename_reached w1 old new 0).2 /\ quiet (rename_reached w1 old new 0).2.
Proof.
  intros Hq Ho Hn Hne (f&Hiff&Hl). set (r1 := drop w1 old). set (r2 := drop r1.2 new).
  assert (E : rename_reached w1 old new 0 = (0, r1.1 ++ r2.1, r2.2)).
  { unfold rename_reached, hmdfs_rename_local, hmdfs_rename_local_dentry. cbn [Z.eqb negb orb]. rewrite (proj2 (Z.eqb_neq _ _)) by done. cbn [negb].
    unfold r2, r1. destruct (drop w1 old) as [p1 w2]. cbn [fst snd]. by destruct (drop w2 new). }
  rewrite E. cbn [fst snd]. assert (Hoflags : remote_cache_list w1 old = flags_of f (remote_cache_list w old)) by (rewrite Hl; by rewrite decide_True by left).
  assert (Hnflags : remote_cache_list w1 new = flags_of f (remote_cache_list w new)) by (rewrite Hl; by rewrite decide_True by (right; left)).
  set (w' := set_list r1.2 new (remote_cache_list w new)).
  assert (Hfirst : told except w old r1.1 w').
  { unfold w', r1, hmdfs_drop_remote_cache_dents. rewrite Ho, Hoflags, drop_loop_flags. cbn [fst snd].
    split; [|split].
    - f_equal. apply list_filter_iff. intros x. rewrite <- Hiff. by destruct (f x).
    - rewrite rcl_set, decide_False by done. rewrite rcl_set, decide_True by done.
      rewrite flags_of_clear by apply Forall_filter_sub, Hq. apply list_filter_iff. intros it. apply Hiff.
    - intros d Hd. rewrite rcl_set. destruct (decide _) as [->|Hdn]; [done|]. rewrite rcl_set, decide_False, Hl by done.
      rewrite decide_False; [done|]. by intros [->| ->%list_elem_of_singleton]%elem_of_cons. }
  assert (Hq' : quiet w') by (by eapply quiet_told).
  assert (Hsecond : told except w' new r2.1 r2.2).
  { apply (drop_told r1.2 w' new f); [done|done| |done|].
    - unfold w'. rewrite rcl_set, decide_True by done.
      unfold r1, hmdfs_drop_remote_cache_dents. rewrite Ho. destruct (drop_loop _) as [p k]. cbn [snd].
      by rewrite rcl_set, decide_False by done.
    - intros d Hd. unfold w'. by rewrite rcl_set, decide_False by done. }
  exists w', r1.1, r2.1. split_and!; [done|done|done|]. by eapply quiet_told.
Qed.

(** ** Asked for by a device *)

Lemma root_unlink_told dev w dir error : quiet w -> ready dir = true ->
  one_dir_ok (Some dev) w dir (error =? 0) (hmdfs_root_unlink ready dev w dir 0 0 false error) /\
  (hmdfs_root_unlink ready dev w dir 0 0 false error).1.1 = if error =? - EOWNERDEAD then 0 else error.
Proof.
  intros Hq Hr. pose proof (rmdir_told (Some dev) w dir _ error Hq Hr (mark_marked dev w dir Hq)) as Ht.
  unfold hmdfs_root_unlink, vfs_call. cbn [Z.eqb negb]. change (hmdfs_unlink_local_dentry ready) with (hmdfs_rmdir_local_dentry ready).
  assert (E : (hmdfs_rmdir_local_dentry ready (hmdfs_mark_drop_flag dev w dir) dir error).1.1 = error).
  { unfold hmdfs_rmdir_local_dentry. by destruct (if error =? 0 then _ else _). }
  destruct (hmdfs_rmdir_local_dentry ready _ dir error) as [[e p] w']. cbn in E. subst e. by split.
Qed.

Lemma root_rename_one dev w dir rc : hmdfs_root_rename ready dev w dir dir 0 0 0 false false false true true true true true true rc =
  rename_reached (hmdfs_mark_drop_flag dev w dir) dir dir rc.
Proof. unfold hmdfs_root_rename. rewrite (Z.eqb_refl dir). done. Qed.

Lemma root_rename_two dev w old new rc : old <> new ->
  hmdfs_root_rename ready dev w old new 0 0 0 false false false true true true true true true rc =
  rename_reached (hmdfs_mark_drop_flag dev (hmdfs_mark_drop_flag dev w old) new) old new rc.
Proof. intros Hne. unfold hmdfs_root_rename. by rewrite (proj2 (Z.eqb_neq old new)) by done. Qed.

(** ** Made locally *)

(** What a local change that ends as [vfs] (behind [setup]) tells the devices: all of them. *)
Lemma local_told w dir setup vfs fill : quiet w -> ready dir = true ->
  let changed := (setup =? 0) && (vfs =? 0) in
  one_dir_ok None w dir changed (hmdfs_mkdir_local_dentry ready w dir setup vfs fill) /\
  one_dir_ok None w dir changed (hmdfs_create_local_dentry ready w dir setup vfs fill).
Proof.
  intros Hq Hr changed. subst changed. destruct (setup =? 0) eqn:E; zb.
  - subst setup. cbn [andb]. split; [apply mkdir_told|apply create_told]; try done; by apply none_marked.
  - apply Z.eqb_neq in E. unfold hmdfs_mkdir_local_dentry, hmdfs_create_local_dentry. rewrite E. split; (apply untouched_ok; [done|done|by intros d]).
Qed.

Lemma local_rename_fails w old new rc : quiet w -> old <> new -> rc <> 0 ->
  (rename_reached w old new rc).1 = (rc, []) /\ untouched w (rename_reached w old new rc).2.
Proof.
  intros Hq Hne Hrc. unfold rename_reached, hmdfs_rename_local, hmdfs_rename_local_dentry. cbn [Z.eqb negb orb].
  rewrite (proj2 (Z.eqb_neq rc 0)), (proj2 (Z.eqb_neq old new)) by done. cbn [negb fst snd]. split; [done|].
  assert (Hq1 : quiet (hmdfs_clear_drop_flag w old)) by (eapply quiet_untouched; [exact Hq|by apply clear_quiet]).
  intros d. rewrite (clear_quiet _ old Hq1 d). by apply clear_quiet.
Qed.

End Told.

(** C32: When a device changes a directory of this one, every other device that cached the
    directory's entries is sent one drop push and is forgotten, the device itself stays
    listed, and no flag is left set; when the change fails, nobody is told and the lists stay
    as they were. This holds for mkdir, create, rmdir and unlink that reach the file system,
    and for renames that succeed or stay in one directory. One change is not told to anybody: an
    unlink that the lower file system answers with -EOWNERDEAD, after which the file is kept under
    ".name.hwbk": it returns 0, and the lists stay as they were, so that every device keeps its
    cached entry of the old name. A change made locally (mkdir, create, rmdir, unlink, rename)
    tells every device when it succeeds, and nobody when it fails. *)
Theorem drop_push_correct ready dev w :
  quiet w -> (forall d, ready d = true) ->
  (forall dir vfs fill,
     one_dir_ok (Some dev) w dir (vfs =? 0) (hmdfs_root_mkdir ready dev w dir 0 0 0 vfs fill) /\
     one_dir_ok (Some dev) w dir (vfs =? 0) (hmdfs_root_create ready dev w dir 0 0 0 vfs fill)) /\
  (forall dir error, one_dir_ok (Some dev) w dir (error =? 0) (hmdfs_root_rmdir ready dev w dir 0 0 false error)) /\
  (forall dir error, error <> - EOWNERDEAD ->
     let r := hmdfs_root_unlink ready dev w dir 0 0 false error in r.1.1 = error /\ one_dir_ok (Some dev) w dir (error =? 0) r) /\
  (forall dir name alloc new, let r := hmdfs_root_unlink ready dev w dir 0 0 false (- EOWNERDEAD) in
     r.1 = (0, []) /\ untouched w r.2 /\
     (hmdfs_rename_bak name alloc 0 0 0 = inr new ->
      name_after_unlink (- EOWNERDEAD) name (inr new) = Some (46 :: name ++ DUSTBIN_SUFFIX))) /\
  (forall dir rc, one_dir_ok (Some dev) w dir (rc =? 0)
     (hmdfs_root_rename ready dev w dir dir 0 0 0 false false false true true true true true true rc)) /\
  (forall old new, old <> new ->
     let r := hmdfs_root_rename ready dev w old new 0 0 0 false false false true true true true true true 0 in
     exists w' p1 p2, r.1 = (0, p1 ++ p2) /\ told (Some dev) w old p1 w' /\ told (Some dev) w' new p2 r.2 /\
       quiet r.2) /\
  (forall dir setup vfs fill, let changed := (setup =? 0) && (vfs =? 0) in
     one_dir_ok None w dir changed (hmdfs_mkdir_local_dentry ready w dir setup vfs fill) /\
     one_dir_ok None w dir changed (hmdfs_create_local_dentry ready w dir setup vfs fill)) /\
  (forall dir error,
     one_dir_ok None w dir (error =? 0) (hmdfs_rmdir_local_dentry ready w dir error) /\
     one_dir_ok None w dir (error =? 0) (hmdfs_unlink_local_dentry ready w dir error) /\
     one_dir_ok None w dir (error =? 0) (hmdfs_rename_local ready w dir dir 0 true true true true true true error)) /\
  (forall old new rc, old <> new -> let r := hmdfs_rename_local ready w old new 0 true true true true true true rc in
     if rc =? 0 then exists w' p1 p2, r.1 = (0, p1 ++ p2) /\ told None w old p1 w' /\ told None w' new p2 r.2 /\ quiet r.2
     else r.1 = (rc, []) /\ untouched w r.2).
Proof.
  intros Hq Hr. pose proof (fun dir => mark_marked dev w dir Hq) as Hm. pose proof (fun ds => none_marked w ds Hq) as Hn. split_and!.
  - intros dir vfs fill. split; [by apply mkdir_told|by apply create_told].
  - intros dir error. by apply rmdir_told.
  - intros dir error He r. destruct (root_unlink_told ready dev w dir error Hq (Hr dir)) as [Ht E].
    rewrite (proj2 (Z.eqb_neq _ _) He) in E. by split.
  - intros dir name alloc new r. destruct (root_unlink_told ready dev w dir (- EOWNERDEAD) Hq (Hr dir)) as [[_ [Hp Hu]] E]. fold r in Hp, Hu, E.
    split_and!; [rewrite (surjective_pairing r.1), E, Hp; done|done|]. unfold hmdfs_rename_bak. split_if; [done|]. destruct alloc; [|done].
    cbn [negb Z.eqb]. intros [= <-]. unfold name_after_unlink. cbn [Z.eqb EOWNERDEAD Z.opp]. f_equal.
    apply snprintf_fits. change (46 :: name ++ DUSTBIN_SUFFIX) with ([46] ++ name ++ DUSTBIN_SUFFIX). rewrite !length_app.
    cbn [length DUSTBIN_SUFFIX]. lia.
  - intros dir rc. rewrite root_rename_one. by apply rename_one_told.
  - intros old new Hne. cbv zeta. rewrite root_rename_two by done. apply rename_two_told; try done. by apply mark_two.
  - intros dir setup vfs fill. by apply local_told.
  - intros dir error. split_and!; [by apply rmdir_told|by apply rmdir_told|by apply rename_one_told].
  - intros old new rc Hne r. destruct (rc =? 0) eqn:E; zb; [subst rc; by apply rename_two_told|by apply local_rename_fails].
Qed.

(** A rename between two directories that a device asks for and that fails leaves the device
    marked in the target directory, whose flags the failure path does not clear (it clears
    the source's twice): after the next local change there, every other device that cached
    the directory is told but not this one. *)
Theorem failed_rename_loses_push ready dev w old new rc :
  quiet w -> (forall d, ready d = true) -> old <> new -> rc <> 0 ->
  let r := hmdfs_root_rename ready dev w old new 0 0 0 false false false true true true true true true rc in
  r.1 = (rc, []) /\ remote_cache_list r.2 old = remote_cache_list w old /\
  remote_cache_list r.2 new = flags_of (fun x => x =? dev) (remote_cache_list w new) /\
  told (Some dev) w new (hmdfs_mkdir_local_dentry ready r.2 new 0 0 0).1.2
    (hmdfs_mkdir_local_dentry ready r.2 new 0 0 0).2.
Proof.
  intros Hq Hr Hne Hrc r.
  set (w1 := hmdfs_mark_drop_flag dev (hmdfs_mark_drop_flag dev w old) new).
  assert (Er : r = (rc, [], hmdfs_clear_drop_flag (hmdfs_clear_drop_flag w1 old) old)).
  { subst r. unfold hmdfs_root_rename, vfs_call, hmdfs_rename_local, hmdfs_rename_local_dentry.
    cbn [Z.eqb negb andb orb]. rewrite (proj2 (Z.eqb_neq old new)), (proj2 (Z.eqb_neq rc 0)) by done. done. }
  rewrite Er. cbn [fst snd]. split; [done|].
  assert (Hold : remote_cache_list w1 old = flags_of (fun x => x =? dev) (remote_cache_list w old)).
  { unfold w1. rewrite mark_other by done. by apply mark_flags. }
  assert (Hnew : remote_cache_list w1 new = flags_of (fun x => x =? dev) (remote_cache_list w new)).
  { unfold w1, hmdfs_mark_drop_flag at 1. rewrite rcl_set, decide_True by done.
    rewrite mark_other by done. apply mark_first_spec; apply Hq. }
  set (w2 := hmdfs_clear_drop_flag (hmdfs_clear_drop_flag w1 old) old).
  assert (H2old : remote_cache_list w2 old = remote_cache_list w old).
  { unfold w2, hmdfs_clear_drop_flag. rewrite rcl_set, decide_True by done. rewrite rcl_set, decide_True by done.
    rewrite Hold, !clear_flags. fold (flags_of (fun _ => false) (flags_of (fun _ => false) (remote_cache_list w old))).
    rewrite !flags_of_clear; [done|apply Hq..]. }
  assert (H2 : forall d, d <> old -> remote_cache_list w2 d = remote_cache_list w1 d).
  { intros d Hd. unfold w2, hmdfs_clear_drop_flag. by rewrite rcl_set, decide_False, rcl_set, decide_False by done. }
  split; [done|]. split; [by rewrite H2|].
  assert (Ht : told (Some dev) w new (hmdfs_drop_remote_cache_dents ready w2 new).1 (hmdfs_drop_remote_cache_dents ready w2 new).2).
  { apply (drop_told ready w2 w new (fun x => x =? dev)); [done|done|by rewrite H2| |].
    - intros x. rewrite Z.eqb_eq. split; congruence.
    - intros d Hd. destruct (decide (d = old)) as [->|]; [done|]. rewrite H2 by done. unfold w1. by rewrite !mark_other. }
  unfold hmdfs_mkdir_local_dentry. cbn [Z.eqb negb].
  destruct (hmdfs_drop_remote_cache_dents ready w2 new) as [p w'] eqn:E. cbn [fst snd] in *.
  exact Ht.
Qed.

(** Devices 7 and 9 cached directory 1; 9 makes a directory there. *)
Lemma drop_push_correct_witness :
  let w : dirs := {[1 := [mk_item 9 false; mk_item 7 false]]} in
  let r := hmdfs_root_mkdir (fun _ => true) 9 w 1 0 0 0 0 0 in
  r.1 = (0, [(7, 1)]) /\ remote_cache_list r.2 1 = [mk_item 9 false] /\ quiet r.2.
Proof.
  intros w r.
  assert (Hq : quiet w).
  { intros d. unfold w, remote_cache_list, dirs. destruct (decide (d = 1)) as [->|Hd].
    - rewrite lookup_singleton_eq. split; [apply (bool_decide_unpack _); by vm_compute|by repeat constructor].
    - rewrite lookup_singleton_ne by done. split; [apply NoDup_nil_2|constructor]. }
  destruct (drop_push_correct (fun _ => true) 9 w Hq (fun _ => eq_refl)) as (Hone&_).
  destruct (Hone 1 0 0) as [[Hquiet (Hp&Hl&_)] _].
  split; [|split; [exact Hl|exact Hquiet]].
  assert (Hr1 : r.1.1 = 0) by (vm_compute; reflexivity).
  assert (Hr2 : r.1.2 = [(7, 1)]) by (etransitivity; [exact Hp|by vm_compute]).
  transitivity (r.1.1, r.1.2); [by destruct r.1|]. by rewrite Hr1, Hr2.
Defined.

(** Device 9 moves something from directory 2 to directory 1, in vain; then a local mkdir in
    directory 1 is announced to 7 only. *)
Lemma failed_rename_loses_push_witness :
  let w : dirs := {[1 := [mk_item 9 false; mk_item 7 false]]} in
  let r := hmdfs_root_rename (fun _ => true) 9 w 2 1 0 0 0 false false false true true true true true true (-13) in
  r.1 = (-13, []) /\ (hmdfs_mkdir_local_dentry (fun _ => true) r.2 1 0 0 0).1.2 = [(7, 1)].
Proof.
  intros w r.
  assert (Hq : quiet w).
  { intros d. unfold w, remote_cache_list, dirs. destruct (decide (d = 1)) as [->|Hd].
    - rewrite lookup_singleton_eq. split; [apply (bool_decide_unpack _); by vm_compute|by repeat constructor].
    - rewrite lookup_singleton_ne by done. split; [apply NoDup_nil_2|constructor]. }
  assert (Hne : 2 <> 1) by done. assert (Hrc : -13 <> 0) by done.
  destruct (failed_rename_loses_push (fun _ => true) 9 w 2 1 (-13) Hq (fun _ => eq_refl) Hne Hrc) as (H1&_&_&Hp&_).
  split; [exact H1|]. etransitivity; [exact Hp|]. by vm_compute.
Defined.
