(* ===== verification/CachePull.v ===== *)
(** Pulling a remote directory (hmdfs_dentryfile.c 1995-2323 and 2435-2470): a dentry keeps one
    cached dentry file per device with the time it was checked; a lookup or a readdir checks
    it again with the peer when it is too old, or fetches a new one.  The dentry has its
    hmdfs_dentry_info. *)
From S2P Require Import Prelude DentryLayout ServerPath DentryPath Timespec CacheName CacheNode.

(** struct clearcache_item. *)
Record clearcache_item := mk_cc { cc_dev_id : Z; cc_filp : Z; cc_time : Z }.

(** The cache_list of a dentry, the lists of cached files, and the get_file and fput calls so
    far, each with its file. *)
Record pull_state := mk_pull {
  ps_items : list clearcache_item;
  ps_caches : caches;
  ps_get : list Z;
  ps_put : list Z
}.

Definition with_items (s : pull_state) (l : list clearcache_item) : pull_state :=
  mk_pull l (ps_caches s) (ps_get s) (ps_put s).
Definition with_caches (s : pull_state) (c : caches) : pull_state :=
  mk_pull (ps_items s) c (ps_get s) (ps_put s).
(** fput. *)
Definition put_file (s : pull_state) (f : Z) : pull_state :=
  mk_pull (ps_items s) (ps_caches s) (ps_get s) (f :: ps_put s).

Definition hmdfs_find_cache_item (dev_id : Z) (l : list clearcache_item) : option clearcache_item :=
  List.find (fun it => dev_id =? cc_dev_id it) l.

(** list_del_init of the item [hmdfs_find_cache_item] yields. *)
Fixpoint del_item (dev_id : Z) (l : list clearcache_item) : list clearcache_item :=
  match l with
  | [] => []
  | it :: l => if dev_id =? cc_dev_id it then l else it :: del_item dev_id l
  end.

(** [item->time = time] for that item. *)
Fixpoint touch_item (dev_id time : Z) (l : list clearcache_item) : list clearcache_item :=
  match l with
  | [] => []
  | it :: l => if dev_id =? cc_dev_id it then mk_cc (cc_dev_id it) (cc_filp it) time :: l
               else it :: touch_item dev_id time l
  end.

(** [alloc]: whether kzalloc succeeds. *)
Definition hmdfs_add_cache_list (jiffies : Z) (alloc : bool) (s : pull_state) (dev_id filp : Z) : Z * pull_state :=
  if negb alloc then (- ENOMEM, s)
  else (0, mk_pull (ps_items s ++ [mk_cc dev_id filp jiffies]) (ps_caches s) (filp :: ps_get s) (ps_put s)).

Section Pull.
(** The mount: HZ, its timeout, threshold, case and whether it keeps dentry files. *)
Context (HZ dcache_timeout dcache_threshold : Z) (s_case_sensitive s_dentry_cache : bool).
(** The peer and the directory: the device id and cid, and the path. *)
Context (device_id : Z) (cid relative_path : bytes).
(** Files: their headers and sizes. *)
Context (read_header : Z -> option (Z * Z)) (i_size : Z -> Z).

(** [timeout * HZ] is a product of unsigned ints. *)
Definition cache_item_revalidate (jiffies conn_time item_time timeout : Z) : bool :=
  time_before_eq jiffies (u64 (item_time + u32 (timeout * HZ))) && time_before_eq conn_time item_time.

Definition hmdfs_cache_revalidate (jiffies conn_time dev_id : Z) (l : list clearcache_item) : bool :=
  match hmdfs_find_cache_item dev_id l with
  | Some it => cache_item_revalidate jiffies conn_time (cc_time it) dcache_timeout
  | None => false
  end.

(** The item's list reference and the caller's go, and with them its file's. *)
Definition remove_cache_item (s : pull_state) (it : clearcache_item) : pull_state :=
  put_file (with_items s (del_item (cc_dev_id it) (ps_items s))) (cc_filp it).

(** ** Fetching. [created] is the new file of create_local_dentry_file_cache, and [readdir]
    the result of hmdfs_client_start_readdir for the file whose header is sent. *)
Context (jiffies conn_time : Z) (alloc_item : bool) (created : Z + Z) (readdir : option Z -> Z -> Z).

Definition hmdfs_get_new_dentry_file (s : pull_state) (header : option Z) : (Z + Z) * pull_state :=
  match created with
  | inl e => (inl e, s)
  | inr filp =>
      let err := readdir header filp in
      if negb (err =? 0) then (inl err, put_file s filp) else (inr filp, s)
  end.

Definition read_header_and_revalidate (s : pull_state) (filp : Z) : (Z + Z) * pull_state :=
  hmdfs_get_new_dentry_file s (match read_header filp with Some _ => Some filp | None => None end).

(** ** Keeping a large directory on disk: the steps of cache_file_persistent that can fail. *)
Context (kzalloc_name : bool) (cache_dir : bytes) (mkdir_err setxattr : Z) (linkat : bytes -> Z).
Context (alloc : option Z) (dup : bool) (filp_open : bytes -> Z + Z).

(** The file to use: the one given unless it was stored. *)
Definition cache_file_persistent (c : caches) (filp : Z) (server : bool) : option (Z * caches) :=
  let id := if server then HMDFS_SERVER_CID else cid in
  if negb s_dentry_cache then Some (filp, c)
  else
    '(cfn, c) ← find_cfn s_case_sensitive c id relative_path server;
    match cfn with
    | Some a => c ← release_cfn c a; Some (filp, c)
    | None =>
        if negb kzalloc_name then Some (filp, c)
        else
          let '(err, fullname) := cache_file_name_generate cache_dir cid relative_path s_case_sensitive server mkdir_err in
          if negb (err =? 0) then Some (filp, c)
          else if negb (setxattr =? 0) then Some (filp, c)
          else
            match link_cache_file linkat fullname with
            | inl _ => Some (filp, c)
            | inr name =>
                '(newf, c) ← insert_cfn s_case_sensitive c alloc dup (filp_open name) relative_path id server;
                Some (match newf with inr f => f | inl _ => filp end, c)
            end
    end.

Definition hmdfs_add_file_to_cache (s : pull_state) (file : Z) : option (Z * pull_state) :=
  '(newf, c) ←
    (if dcache_threshold <=? cache_get_dentry_count read_header i_size file
     then cache_file_persistent (ps_caches s) file false
     else c ← cache_file_find_and_delete s_case_sensitive (ps_caches s) cid relative_path; Some (file, c));
  Some (hmdfs_add_cache_list jiffies alloc_item (with_caches s c) device_id newf).

Definition add_cfn_to_item (s : pull_state) (filp : Z) : pull_state :=
  (hmdfs_add_cache_list jiffies alloc_item s device_id filp).2.

Definition remote_file_revalidate_cfn (s : pull_state) (cfn : Z) : option pull_state :=
  n ← heap (ps_caches s) !! cfn;
  g ← cn_filp n;
  match read_header_and_revalidate s g with
  | (inl _, s) => Some s
  | (inr file, s) =>
      if i_size file =? 0 then Some (add_cfn_to_item (put_file s file) g)
      else
        c ← remove_cfn (ps_caches s) cfn;
        '(_, s) ← hmdfs_add_file_to_cache (with_caches s c) file;
        Some (put_file s file)
  end.

Definition remote_file_revalidate_item (s : pull_state) (it : clearcache_item) : option pull_state :=
  match read_header_and_revalidate s (cc_filp it) with
  | (inl _, s) => Some s
  | (inr file, s) =>
      if i_size file =? 0 then
        Some (put_file (with_items s (touch_item (cc_dev_id it) jiffies (ps_items s))) file)
      else
        let s := remove_cache_item s it in
        c ← cache_file_find_and_delete s_case_sensitive (ps_caches s) cid relative_path;
        '(_, s) ← hmdfs_add_file_to_cache (with_caches s c) file;
        Some (put_file s file)
  end.

(** [items0] is what the first check sees; the second is made under cache_pull_lock. [path_ok]:
    hmdfs_get_dentry_relative_path succeeded. *)
Definition get_remote_dentry_file (items0 : list clearcache_item) (path_ok : bool) (s : pull_state) :
    option (bool * pull_state) :=
  if hmdfs_cache_revalidate jiffies conn_time device_id items0 then Some (false, s)
  else if negb path_ok then Some (false, s)
  else if hmdfs_cache_revalidate jiffies conn_time device_id (ps_items s) then Some (true, s)
  else
    match hmdfs_find_cache_item device_id (ps_items s) with
    | Some it => s ← remote_file_revalidate_item s it; Some (true, s)
    | None =>
        '(cfn, c) ← find_cfn s_case_sensitive (ps_caches s) cid relative_path false;
        let s := with_caches s c in
        match cfn with
        | Some a =>
            s ← remote_file_revalidate_cfn s a;
            c ← release_cfn (ps_caches s) a;
            Some (true, with_caches s c)
        | None =>
            match hmdfs_get_new_dentry_file s None with
            | (inl _, s) => Some (true, s)
            | (inr filp, s) =>
                '(_, s) ← hmdfs_add_file_to_cache s filp;
                Some (true, put_file s filp)
            end
        end
    end.

(** ** Dropping *)

Definition hmdfs_remove_cache_filp (path_ok : bool) (s : pull_state) : option pull_state :=
  match hmdfs_find_cache_item device_id (ps_items s) with
  | None => Some s
  | Some it =>
      let s := with_items s (del_item device_id (ps_items s)) in
      c ← (if path_ok then cache_file_find_and_delete s_case_sensitive (ps_caches s) cid relative_path
           else Some (ps_caches s));
      Some (put_file (with_caches s c) (cc_filp it))
  end.

Definition hmdfs_clear_cache_dents (remove_cache path_ok : bool) (s : pull_state) : option pull_state :=
  let s := mk_pull [] (ps_caches s) (ps_get s) (rev (map cc_filp (ps_items s)) ++ ps_put s) in
  if negb remove_cache then Some s
  else if negb path_ok then Some s
  else c ← cache_file_destroy_by_path (ps_caches s) relative_path; Some (with_caches s c).

End Pull.

(** * Objects stay fresh *)

(** Operations that add no node: nodes keep their files, and only files of nodes are closed. *)
Definition shrinks (c c' : caches) : Prop :=
  (forall x n, heap c' !! x = Some n -> exists m, heap c !! x = Some m /\ cn_filp n = cn_filp m) /\
  (forall f, f ∈ closed c' -> f ∈ closed c \/ exists x m, heap c !! x = Some m /\ cn_filp m = Some f).

Lemma shrinks_refl c : shrinks c c.
Proof. split; eauto. Qed.

Lemma shrinks_trans c1 c2 c3 : shrinks c1 c2 -> shrinks c2 c3 -> shrinks c1 c3.
Proof.
  intros [H1 C1] [H2 C2]. split.
  - intros x n (m&Hm&E)%H2. destruct (H1 x m Hm) as (k&Hk&E'). exists k. split; [done|congruence].
  - intros f [[?|?]%C1|(x&m&Hm&E)]%C2; [by left|by right|].
    destruct (H1 x m Hm) as (k&Hk&E'). right. exists x, k. split; [done|congruence].
Qed.

Lemma shrinks_fresh c c' f : shrinks c c' -> fresh_file c f -> fresh_file c' f.
Proof.
  intros [Hh Hc] [H1 H2]. split.
  - intros [?|(x&m&Hm&E)]%Hc; [done|by eapply H2].
  - intros x n (m&Hm&->)%Hh. by eapply H2.
Qed.

Lemma shrinks_unused c c' a : shrinks c c' -> heap c !! a = None -> heap c' !! a = None.
Proof.
  intros [Hh _] Ha. destruct (heap c' !! a) as [n|] eqn:E; [|done]. destruct (Hh a n E) as (m&Hm&_). congruence.
Qed.

Lemma set_ref_shrinks c a n r : heap c !! a = Some n -> shrinks c (set_heap c (<[a := with_ref n r]> (heap c))).
Proof.
  intros Ha. split; [|simpl; eauto]. intros x m. simpl. rewrite lookup_insert_Some.
  intros [[<- <-]|[_ ?]]; eauto.
Qed.

Lemma release_shrinks c a c' : release_cfn c a = Some c' -> shrinks c c'.
Proof.
  unfold release_cfn. destruct (heap c !! a) as [n|] eqn:Ha; cbn [mbind option_bind]; [|done].
  pose proof (set_ref_shrinks c a n (cn_ref n - 1) Ha) as Hs. set (c1 := set_heap _ _) in *.
  destruct (_ =? 0); [|by intros [= <-]]. intros Hf. eapply shrinks_trans; [exact Hs|].
  assert (Hn : heap c1 !! a = Some (with_ref n (cn_ref n - 1))) by (simpl; by rewrite lookup_insert_eq).
  unfold free_cfn in Hf. rewrite Hn in Hf. cbn in Hf. injection Hf as <-.
  split.
  - intros x m. destruct (cn_filp n); simpl; rewrite lookup_delete_Some; intros [_ ?]; eauto.
  - intros f. destruct (cn_filp n) as [g|] eqn:Eg; simpl; [|by left].
    intros [->|?]%elem_of_cons; [|by left]. right. by exists a, (with_ref n (cn_ref n - 1)).
Qed.

Lemma del_shrinks c a : shrinks c (list_del_init c a).
Proof. split; simpl; eauto. Qed.

Lemma remove_shrinks c a c' : remove_cfn c a = Some c' -> shrinks c c'.
Proof.
  unfold remove_cfn. destruct (heap c !! a) as [n|]; cbn [mbind option_bind]; [|done].
  destruct (on_list c a); [|intros [= <-]; apply shrinks_refl].
  destruct (cn_filp n) as [f|]; cbn [mbind option_bind]; [|done]. intros Hr.
  eapply shrinks_trans; [apply (del_shrinks c a)|]. eapply shrinks_trans; [|by eapply release_shrinks].
  split; simpl; eauto.
Qed.

Lemma find_shrinks cs c cid path b r c' : find_cfn cs c cid path b = Some (r, c') -> shrinks c c'.
Proof.
  unfold find_cfn, __find_cfn. destruct (scan_list _ _ _ _ _) as [[a|]|]; cbn [mbind option_bind]; [|by intros [= <- <-]; apply shrinks_refl|done].
  unfold refcount_inc. destruct (heap c !! a) as [n|] eqn:Ha; cbn; [|done]. intros [= <- <-]. by apply set_ref_shrinks.
Qed.

Lemma find_and_delete_shrinks cs c cid path c' : cache_file_find_and_delete cs c cid path = Some c' -> shrinks c c'.
Proof.
  unfold cache_file_find_and_delete. destruct (find_cfn cs c cid path false) as [[r c1]|] eqn:E; cbn [mbind option_bind]; [|done].
  apply find_shrinks in E. destruct r as [a|]; [|by intros [= <-]].
  destruct (remove_cfn c1 a) as [c2|] eqn:E2; cbn [mbind option_bind]; [|done]. intros E3.
  eapply shrinks_trans; [exact E|]. eapply shrinks_trans; [by eapply remove_shrinks|by eapply release_shrinks].
Qed.

(** * The items of a dentry *)


(** File references taken by get_file, less those dropped by fput and those items hold. *)
Definition balance (s : pull_state) (f : Z) : Z :=
  cnt f (ps_get s) - cnt f (ps_put s) - cnt f (map cc_filp (ps_items s)).


Definition others (dev : Z) (l : list clearcache_item) : list clearcache_item :=
  filter (fun it => cc_dev_id it <> dev) l.

Lemma find_item_absent dev l : hmdfs_find_cache_item dev l = None <-> dev ∉ map cc_dev_id l.
Proof.
  unfold hmdfs_find_cache_item. induction l as [|it l IH]; cbn; [split; [by intros _ ?%elem_of_nil|done]|].
  rewrite not_elem_of_cons. destruct (dev =? cc_dev_id it) eqn:E; zb; [split; [done|tauto]|]. rewrite IH. tauto.
Qed.

Lemma del_found dev l it :
  hmdfs_find_cache_item dev l = Some it -> NoDup (map cc_dev_id l) ->
  cc_dev_id it = dev /\ others dev (del_item dev l) = others dev l /\
  dev ∉ map cc_dev_id (del_item dev l) /\ NoDup (map cc_dev_id (del_item dev l)) /\
  (forall f, cnt f (map cc_filp l) = (if decide (cc_filp it = f) then 1 else 0) + cnt f (map cc_filp (del_item dev l))).
Proof.
  unfold hmdfs_find_cache_item, others. induction l as [|x l IH]; [done|]. cbn [List.find map del_item].
  intros Hf [Hx Hn]%list.NoDup_cons. destruct (dev =? cc_dev_id x) eqn:E; zb.
  - injection Hf as <-. subst dev. split; [done|]. split; [by rewrite filter_cons_False by tauto|].
    split; [done|]. split; [done|]. intros f. by rewrite cnt_cons.
  - destruct (IH Hf Hn) as (H1&H2&H3&H4&H5). split; [done|].
    split; [by rewrite !filter_cons_True, H2 by congruence|]. cbn [map]. split; [by rewrite not_elem_of_cons|].
    split; [|intros f; rewrite !cnt_cons, H5; lia].
    apply list.NoDup_cons. split; [|done]. intros Hc. apply Hx.
    clear - Hc. induction l as [|y l IH]; [done|]. cbn in Hc |- *. destruct (dev =? cc_dev_id y); [by right|].
    apply elem_of_cons in Hc as [->|?]; [by left|right; auto].
Qed.

Lemma touch_found dev t l it :
  hmdfs_find_cache_item dev l = Some it ->
  others dev (touch_item dev t l) = others dev l /\
  map cc_dev_id (touch_item dev t l) = map cc_dev_id l /\ map cc_filp (touch_item dev t l) = map cc_filp l /\
  hmdfs_find_cache_item dev (touch_item dev t l) = Some (mk_cc dev (cc_filp it) t).
Proof.
  unfold hmdfs_find_cache_item, others. induction l as [|x l IH]; [done|]. cbn [List.find map touch_item].
  destruct (dev =? cc_dev_id x) eqn:E; zb.
  - intros [= <-]. subst dev. cbn [List.find map cc_dev_id]. rewrite Z.eqb_refl.
    by rewrite !filter_cons_False by (cbn; tauto).
  - intros Hf. destruct (IH Hf) as (H1&H2&H3&H4). cbn [List.find map]. rewrite (proj2 (Z.eqb_neq _ _)) by done.
    rewrite !filter_cons_True, H1, H2, H3 by congruence. done.
Qed.

Lemma find_last dev l it : dev ∉ map cc_dev_id l -> cc_dev_id it = dev -> hmdfs_find_cache_item dev (l ++ [it]) = Some it.
Proof.
  intros Hl <-. unfold hmdfs_find_cache_item. induction l as [|x l IH]; cbn; [by rewrite Z.eqb_refl|].
  cbn in Hl. apply not_elem_of_cons in Hl as [Hx Hl]. rewrite (proj2 (Z.eqb_neq _ _)) by done. by apply IH.
Qed.

(** * The pull *)

Section PullProofs.
Context (HZ dcache_timeout dcache_threshold : Z) (s_case_sensitive s_dentry_cache : bool).
Context (device_id : Z) (cid relative_path : bytes).
Context (read_header : Z -> option (Z * Z)) (i_size : Z -> Z).
Context (jiffies conn_time : Z) (alloc_item : bool) (created : Z + Z) (readdir : option Z -> Z -> Z).
Context (kzalloc_name : bool) (cache_dir : bytes) (mkdir_err setxattr : Z) (linkat : bytes -> Z).
Context (alloc : option Z) (dup : bool) (filp_open : bytes -> Z + Z).

Abbreviation persistent := (cache_file_persistent s_case_sensitive s_dentry_cache cid relative_path kzalloc_name
  cache_dir mkdir_err setxattr linkat alloc dup filp_open).
Abbreviation add_file := (hmdfs_add_file_to_cache dcache_threshold s_case_sensitive s_dentry_cache device_id cid
  relative_path read_header i_size jiffies alloc_item kzalloc_name cache_dir mkdir_err setxattr linkat alloc dup filp_open).
Abbreviation pull := (get_remote_dentry_file HZ dcache_timeout dcache_threshold s_case_sensitive s_dentry_cache device_id
  cid relative_path read_header i_size jiffies conn_time alloc_item created readdir kzalloc_name cache_dir mkdir_err
  setxattr linkat alloc dup filp_open).
Abbreviation new_file := (hmdfs_get_new_dentry_file created readdir).

(** kzalloc and filp_open return new objects. *)
Definition new_objects (c : caches) : Prop :=
  (forall a, alloc = Some a -> heap c !! a = None) /\ (forall name f, filp_open name = inr f -> fresh_file c f).

Lemma shrinks_new c c' : shrinks c c' -> new_objects c -> new_objects c'.
Proof.
  intros Hs [Ha Hf]. split; [intros; eapply shrinks_unused; eauto|intros; eapply shrinks_fresh; eauto].
Qed.

Lemma persistent_ok c h filp b :
  cache_inv s_case_sensitive c h -> new_objects c ->
  exists f c', persistent c filp b = Some (f, c') /\ cache_inv s_case_sensitive c' h.
Proof.
  intros Hi [Ha Hf]. unfold cache_file_persistent. destruct s_dentry_cache; cbn [negb]; [|by eauto].
  set (id := if b then _ else _).
  destruct (find_ok s_case_sensitive c h id relative_path b Hi) as (r&c1&E&_&_&_&_&_&Hr). rewrite E.
  cbn [mbind option_bind]. destruct r as [a|].
  { rewrite (find_release _ _ _ _ _ _ _ _ Hi E). cbn. eauto. }
  subst c1. destruct kzalloc_name; cbn [negb]; [|by eauto].
  destruct (cache_file_name_generate _ _ _ _ _ _) as [err full].
  destruct (err =? 0); cbn [negb]; [|by eauto]. destruct (setxattr =? 0); cbn [negb]; [|by eauto].
  destruct (link_cache_file linkat full) as [e|name]; [by eauto|].
  destruct (insert_ok s_case_sensitive c h alloc dup (filp_open name) relative_path id b Hi Ha (Hf name))
    as (r&c'&->&Hi'&_). cbn. eauto.
Qed.

Lemma add_file_ok s h file :
  cache_inv s_case_sensitive (ps_caches s) h -> new_objects (ps_caches s) ->
  exists err s', add_file s file = Some (err, s') /\ cache_inv s_case_sensitive (ps_caches s') h /\
    ps_put s' = ps_put s /\
    (exists newf, if alloc_item then ps_items s' = ps_items s ++ [mk_cc device_id newf jiffies] /\ ps_get s' = newf :: ps_get s
                  else ps_items s' = ps_items s /\ ps_get s' = ps_get s).
Proof.
  intros Hi Hn. unfold hmdfs_add_file_to_cache.
  assert (Hc : exists newf c, (if dcache_threshold <=? cache_get_dentry_count read_header i_size file
     then persistent (ps_caches s) file false
     else c ← cache_file_find_and_delete s_case_sensitive (ps_caches s) cid relative_path; Some (file, c)) = Some (newf, c) /\
     cache_inv s_case_sensitive c h).
  { destruct (dcache_threshold <=? _); [by apply persistent_ok|].
    destruct (find_and_delete_ok s_case_sensitive (ps_caches s) h cid relative_path Hi) as (c&->&Hi'&_). cbn. eauto. }
  destruct Hc as (newf&c&->&Hi'). cbn [mbind option_bind]. unfold hmdfs_add_cache_list.
  destruct alloc_item; cbn [negb]; do 2 eexists; (split; [done|]); cbn; (split; [done|]); (split; [done|]); by exists newf.
Qed.

(** What a pull that got past the checks establishes. *)
Definition pulled (h : Z -> Z) (s s' : pull_state) : Prop :=
  cache_inv s_case_sensitive (ps_caches s') h /\ NoDup (map cc_dev_id (ps_items s')) /\
  others device_id (ps_items s') = others device_id (ps_items s) /\
  (forall f, balance s' f = balance s f - match created with inr g => if decide (g = f) then 1 else 0 | inl _ => 0 end) /\
  (forall g, created = inr g -> (forall header, readdir header g = 0) -> alloc_item = true ->
     exists it, hmdfs_find_cache_item device_id (ps_items s') = Some it /\ cc_time it = jiffies) /\
  ((exists e, created = inl e) \/ (exists g, created = inr g /\ forall header, readdir header g <> 0) ->
     ps_items s' = ps_items s).

Lemma nodup_snoc (l : list clearcache_item) it :
  NoDup (map cc_dev_id l) -> cc_dev_id it ∉ map cc_dev_id l -> NoDup (map cc_dev_id (l ++ [it])).
Proof.
  intros Hn Hi. rewrite List.map_app. apply list.NoDup_app. split; [done|]. split; [|apply NoDup_singleton].
  intros x Hx ->%list_elem_of_singleton. done.
Qed.

Lemma others_snoc l it : cc_dev_id it = device_id -> others device_id (l ++ [it]) = others device_id l.
Proof.
  intros H. unfold others. rewrite list.filter_app. rewrite filter_cons_False by tauto. apply app_nil_r.
Qed.

(** Adding the new file for a device that has no item, and dropping the caller's reference. *)
Lemma finish_new s0 s h file :
  cache_inv s_case_sensitive (ps_caches s) h -> new_objects (ps_caches s) -> created = inr file -> 
  (exists header, readdir header file = 0) ->
  NoDup (map cc_dev_id (ps_items s)) -> device_id ∉ map cc_dev_id (ps_items s) ->
  others device_id (ps_items s) = others device_id (ps_items s0) -> (forall f, balance s f = balance s0 f) ->
  exists err s', add_file s file = Some (err, s') /\ pulled h s0 (put_file s' file).
Proof.
  intros Hi Hn Hc Hrd Hnd Hdev Hoth Hbal.
  destruct (add_file_ok s h file Hi Hn) as (err&s'&E&Hi'&Hput&newf&Hadd). exists err, s'. split; [done|].
  unfold pulled. rewrite Hc. cbn [ps_caches ps_items put_file]. split; [done|].
  assert (Hb : forall f, balance (put_file s' file) f = balance s f - if decide (file = f) then 1 else 0).
  { intros f. unfold balance. cbn [put_file ps_get ps_put ps_items]. rewrite cnt_cons, Hput.
    destruct alloc_item, Hadd as [-> ->]; [|lia]. rewrite List.map_app, cnt_app, cnt_cons. cbn [map]. rewrite cnt_cons.
    change (cnt f []) with 0. cbn [cc_filp]. lia. }
  destruct alloc_item, Hadd as [Hit Hget]; rewrite Hit.
  - split; [by apply nodup_snoc|]. split; [by rewrite others_snoc|]. split; [intros f; by rewrite Hb, Hbal|].
    split; [|intros [[e ?]|(g&[= ->]&Hr)]; [done|destruct Hrd as [hd ?]; by destruct (Hr hd)]].
    intros g _ _ _. eexists; split; [by apply find_last|done].
  - split; [done|]. split; [done|]. split; [intros f; by rewrite Hb, Hbal|].
    split; [done|]. intros [[e ?]|(g&[= ->]&Hr)]; [done|destruct Hrd as [hd ?]; by destruct (Hr hd)].
Qed.

(** A request that fails leaves everything but the new file's reference. *)
Lemma failed_new h s header e s' :
  cache_inv s_case_sensitive (ps_caches s) h -> NoDup (map cc_dev_id (ps_items s)) ->
  new_file s header = (inl e, s') -> pulled h s s'.
Proof.
  intros Hi Hnd. unfold hmdfs_get_new_dentry_file, pulled. destruct created as [e'|g] eqn:Ec.
  - intros [= <- <-]. repeat (split; [done|]). split; [intros; lia|]. split; [done|done].
  - destruct (readdir header g =? 0) eqn:E; cbn [negb]; [done|]. zb. intros [= <- <-].
    split; [done|]. split; [done|]. split; [done|]. split; [|split; [|done]].
    + intros f. unfold balance. cbn [put_file ps_get ps_put ps_items]. rewrite cnt_cons. lia.
    + intros g' [= <-] Hr. by destruct E.
Qed.

Lemma got_new s header f s' : new_file s header = (inr f, s') -> s' = s /\ created = inr f /\ readdir header f = 0.
Proof.
  unfold hmdfs_get_new_dentry_file. destruct created as [e'|g]; [done|].
  destruct (readdir header g =? 0) eqn:E; cbn [negb]; [|done]. zb. by intros [= <- <-].
Qed.

Abbreviation revalidate_item := (remote_file_revalidate_item dcache_threshold s_case_sensitive s_dentry_cache device_id
  cid relative_path read_header i_size jiffies alloc_item created readdir kzalloc_name cache_dir mkdir_err setxattr
  linkat alloc dup filp_open).
Abbreviation revalidate_cfn := (remote_file_revalidate_cfn dcache_threshold s_case_sensitive s_dentry_cache device_id
  cid relative_path read_header i_size jiffies alloc_item created readdir kzalloc_name cache_dir mkdir_err setxattr
  linkat alloc dup filp_open).

Lemma item_pulled s h it :
  cache_inv s_case_sensitive (ps_caches s) h -> new_objects (ps_caches s) -> NoDup (map cc_dev_id (ps_items s)) ->
  hmdfs_find_cache_item device_id (ps_items s) = Some it ->
  exists s', revalidate_item s it = Some s' /\ pulled h s s'.
Proof.
  intros Hi Hn Hnd Hf. unfold remote_file_revalidate_item, read_header_and_revalidate.
  destruct (new_file s _) as [[e|file] s1] eqn:Enew; [eexists; split; [done|]; by eapply failed_new|].
  apply got_new in Enew as (->&Hc&Hrd).
  destruct (del_found device_id (ps_items s) it Hf Hnd) as (Hdev&Hoth&Habs&Hnd'&Hcnt).
  destruct (i_size file =? 0) eqn:Ez.
  - eexists; split; [done|]. rewrite Hdev.
    destruct (touch_found device_id jiffies (ps_items s) it Hf) as (H1&H2&H3&H4).
    unfold pulled. rewrite Hc. cbn [ps_caches ps_items put_file with_items].
    split; [done|]. split; [by rewrite H2|]. split; [done|]. split; [|split].
    + intros f. unfold balance. cbn [ps_get ps_put ps_items put_file with_items]. rewrite cnt_cons, H3. lia.
    + intros g _ _ _. by eexists.
    + intros [[e ?]|(g&[= <-]&Hr)]; [done|by destruct (Hr _ Hrd)].
  - unfold remove_cache_item. rewrite Hdev. cbn [ps_caches put_file with_items].
    destruct (find_and_delete_ok s_case_sensitive (ps_caches s) h cid relative_path Hi) as (c&E&Hi'&_).
    rewrite E. cbn [mbind option_bind].
    destruct (finish_new s (with_caches (put_file (with_items s (del_item device_id (ps_items s))) (cc_filp it)) c) h file)
      as (err&s'&->&Hp); cbn [ps_caches ps_items with_caches put_file with_items]; try done.
    + eapply shrinks_new; [by eapply find_and_delete_shrinks|done].
    + by eexists.
    + intros f. unfold balance. cbn [ps_get ps_put ps_items with_caches put_file with_items]. rewrite cnt_cons, Hcnt. lia.
    + cbn [mbind option_bind]. by eexists.
Qed.

Lemma cfn_pulled s h a :
  cache_inv s_case_sensitive (ps_caches s) h -> new_objects (ps_caches s) -> NoDup (map cc_dev_id (ps_items s)) ->
  hmdfs_find_cache_item device_id (ps_items s) = None -> 0 < h a ->
  (exists n g, heap (ps_caches s) !! a = Some n /\ cn_filp n = Some g) ->
  exists s', revalidate_cfn s a = Some s' /\ pulled h s s'.
Proof.
  intros Hi Hn Hnd Hf Hpos (n&g&Ha&Hg). unfold remote_file_revalidate_cfn, read_header_and_revalidate.
  rewrite Ha. cbn [mbind option_bind]. rewrite Hg. cbn [mbind option_bind].
  destruct (new_file s _) as [[e|file] s1] eqn:Enew; [eexists; split; [done|]; by eapply failed_new|].
  apply got_new in Enew as (->&Hc&Hrd). apply find_item_absent in Hf.
  destruct (i_size file =? 0) eqn:Ez.
  - eexists; split; [done|]. unfold pulled, add_cfn_to_item, hmdfs_add_cache_list. rewrite Hc.
    destruct alloc_item; cbn [negb snd ps_caches ps_items put_file].
    + split; [done|]. split; [by apply nodup_snoc|]. split; [by apply others_snoc|]. split; [|split].
      * intros f. unfold balance. cbn [ps_get ps_put ps_items put_file].
        rewrite List.map_app, cnt_app. cbn [map cc_filp]. rewrite !cnt_cons. change (cnt f []) with 0. lia.
      * intros g' _ _ _. eexists; split; [by apply find_last|done].
      * intros [[e ?]|(g'&[= <-]&Hr)]; [done|by destruct (Hr _ Hrd)].
    + split; [done|]. split; [done|]. split; [done|]. split; [|split; [done|done]].
      intros f. unfold balance. cbn [ps_get ps_put ps_items put_file]. rewrite cnt_cons. lia.
  - destruct (remove_ok s_case_sensitive (ps_caches s) h a Hi Hpos) as (c&E&Hi'&_). rewrite E. cbn [mbind option_bind].
    destruct (finish_new s (with_caches s c) h file) as (err&s'&->&Hp); cbn [ps_caches ps_items with_caches]; try done.
    + eapply shrinks_new; [by eapply remove_shrinks|done].
    + by eexists.
    + cbn [mbind option_bind]. by eexists.
Qed.

Lemma pull_ok items0 s h :
  cache_inv s_case_sensitive (ps_caches s) h -> new_objects (ps_caches s) -> NoDup (map cc_dev_id (ps_items s)) ->
  hmdfs_cache_revalidate HZ dcache_timeout jiffies conn_time device_id items0 = false ->
  hmdfs_cache_revalidate HZ dcache_timeout jiffies conn_time device_id (ps_items s) = false ->
  exists s', pull items0 true s = Some (true, s') /\ pulled h s s'.
Proof.
  intros Hi Hn Hnd H0 Hs. unfold get_remote_dentry_file. rewrite H0, Hs. cbn [negb].
  destruct (hmdfs_find_cache_item device_id (ps_items s)) as [it|] eqn:Ef.
  { destruct (item_pulled s h it Hi Hn Hnd Ef) as (s'&->&Hp). cbn. eauto. }
  destruct (find_ok s_case_sensitive (ps_caches s) h cid relative_path false Hi) as (r&c&E&_&_&_&_&_&Hr).
  rewrite E. cbn [mbind option_bind]. destruct r as [a|].
  - destruct (find_found _ _ _ _ _ _ _ _ Hi E) as (_&Hi1&_&n&g&Ha&Hg&_).
    destruct (cfn_pulled (with_caches s c) (CacheNode.upd h a 1) a) as (s1&->&Hp); cbn [ps_caches ps_items with_caches]; try done.
    + eapply shrinks_new; [by eapply find_shrinks|done].
    + by eapply held_after_find.
    + by exists n, g.
    + cbn [mbind option_bind]. destruct Hp as (Hpi&Hp1&Hp2&Hp3&Hp4&Hp5).
      destruct (release_ok s_case_sensitive (ps_caches s1) _ a Hpi) as (c2&->&Hi2&_); [by eapply held_after_find|].
      cbn [mbind option_bind]. eexists; split; [done|].
      split; [eapply inv_ext; [|exact Hi2]; intros x; apply (upd_cancel h a 1)|]. done.
  - subst c. assert (Hws : with_caches s (ps_caches s) = s) by (by destruct s). rewrite Hws.
    destruct (new_file s None) as [[e|file] s1] eqn:Enew; [eexists; split; [done|]; by eapply failed_new|].
    apply got_new in Enew as (->&Hc&Hrd). apply find_item_absent in Ef.
    destruct (finish_new s s h file) as (err&s'&->&Hp); try done; [by eexists|]. cbn. by eexists.
Qed.

End PullProofs.

(** C33: A pull of a directory that is not cached freshly: unless the request fails, the device's
    item is checked now, so that the next lookup finds the cache valid (as long as the
    connection is not younger than now); when it fails the items stay. Other devices' items are
    kept, no device gets two, the lists of cached files keep their invariant without touching a
    freed node, and references to files balance: what get_file took and fput gave back,
    together with the new file's own reference, is what the items hold. *)
Theorem pulled_directory_is_fresh HZ timeout threshold cs dcache dev cid path read_header i_size jiffies conn_time
    alloc_item created readdir kz dir mkdir_err setxattr linkat alloc dup filp_open items0 s held :
  cache_inv cs (ps_caches s) held -> new_objects alloc filp_open (ps_caches s) ->
  NoDup (map cc_dev_id (ps_items s)) ->
  hmdfs_cache_revalidate HZ timeout jiffies conn_time dev items0 = false ->
  hmdfs_cache_revalidate HZ timeout jiffies conn_time dev (ps_items s) = false ->
  exists s', get_remote_dentry_file HZ timeout threshold cs dcache dev cid path read_header i_size jiffies conn_time
      alloc_item created readdir kz dir mkdir_err setxattr linkat alloc dup filp_open items0 true s = Some (true, s') /\
    cache_inv cs (ps_caches s') held /\ NoDup (map cc_dev_id (ps_items s')) /\
    others dev (ps_items s') = others dev (ps_items s) /\
    (forall f, balance s' f = balance s f - match created with inr g => if decide (g = f) then 1 else 0 | inl _ => 0 end) /\
    (forall g, created = inr g -> (forall header, readdir header g = 0) -> alloc_item = true ->
       0 <= jiffies < 2 ^ 64 -> time_before_eq conn_time jiffies = true ->
       hmdfs_cache_revalidate HZ timeout jiffies conn_time dev (ps_items s') = true) /\
    ((exists e, created = inl e) \/ (exists g, created = inr g /\ forall header, readdir header g <> 0) ->
       ps_items s' = ps_items s).
Proof.
  intros Hi Hn Hnd H0 Hs.
  destruct (pull_ok HZ timeout threshold cs dcache dev cid path read_header i_size jiffies conn_time alloc_item created
    readdir kz dir mkdir_err setxattr linkat alloc dup filp_open items0 s held Hi Hn Hnd H0 Hs)
    as (s'&Hpull&Hinv&Hnd'&Hoth&Hbal&Hfresh&Hfail).
  exists s'. do 5 (split; [done|]). split; [|done].
  intros g Hc Hr Ha Hj Hct. destruct (Hfresh g Hc Hr Ha) as (it&Hf&Ht).
  unfold hmdfs_cache_revalidate. rewrite Hf. unfold cache_item_revalidate. rewrite Ht, Hct, andb_true_r.
  unfold time_before_eq. pose proof (wrap_range 32 (timeout * HZ) ltac:(lia)).
  rewrite <- (wrap_small 64 jiffies) at 1 by lia. rewrite time_after_spec by lia.
  rewrite (proj2 (Z.ltb_ge _ _)) by lia. done.
Qed.

(** The first pull of a directory: its file becomes the item of device 4. *)
Lemma pulled_directory_is_fresh_witness :
  exists s', get_remote_dentry_file 100 30 1 true true 4 [99] [47; 97] (fun _ => None) (fun _ => 4096) 1000 900 true
      (inr 50) (fun _ _ => 0) true [] 0 0 (fun _ => 0) (Some 1) true (fun _ => inr 51) [] true
      (mk_pull [] no_caches [] []) = Some (true, s') /\
    hmdfs_cache_revalidate 100 30 1000 900 4 (ps_items s') = true /\ balance s' 50 = -1.
Proof.
  assert (Hn : new_objects (Some 1) (fun _ => inr 51) no_caches).
  { split; [done|]. intros _ f [= <-]. split; [apply not_elem_of_nil|done]. }
  destruct (pulled_directory_is_fresh 100 30 1 true true 4 [99] [47; 97] (fun _ => None) (fun _ => 4096) 1000 900 true
      (inr 50) (fun _ _ => 0) true [] 0 0 (fun _ => 0) (Some 1) true (fun _ => inr 51) []
      (mk_pull [] no_caches [] []) none_held (inv_start true) Hn (NoDup_nil_2) eq_refl eq_refl)
    as (s'&E&_&_&_&Hbal&Hfresh&_).
  exists s'. split; [exact E|]. split; [|rewrite Hbal; by vm_compute].
  apply (Hfresh 50); (done || by vm_compute).
Defined.
