(* ===== verification/StashFile.v ===== *)
(** Stash files (stash.c): the local copies of pages written to a remote file while its device
    is away. A stash file has a head, the remote path and the pages at their offsets, as a
    sparse file; restoring verifies the head and copies the data, hole by hole. *)
From S2P Require Import Prelude Protocol ClientMsg ClientReply CacheName.

Definition ENXIO := 6.
Definition EFAULT := 14.
Definition ENODATA := 61.
Definition EUCLEAN := 117.
Definition PAGE_SIZE := 4096.

Definition HMDFS_STASH_FILE_HEAD_MAGIC := 0xF7AB06C3.
Definition HMDFS_STASH_BLK_SIZE := 4096.
Definition HMDFS_STASH_BLK_SHIFT := 12.
Definition HMDFS_STASH_PAGE_TO_SECTOR_SHIFT := 3.
Definition HMDFS_STASH_FILE_NAME_LEN := 20.

Definition hmdfs_cache_file_head : layout :=
  [("magic", 4%nat); ("crc_offset", 4%nat); ("ino", 8%nat); ("size", 8%nat); ("blocks", 8%nat);
   ("last_write_pos", 8%nat); ("ctime", 8%nat); ("ctime_nsec", 4%nat); ("change_detect_cap", 4%nat);
   ("ichange_count", 8%nat); ("path_offs", 4%nat); ("path_len", 4%nat); ("path_cnt", 4%nat);
   ("data_offs", 4%nat); ("crc32", 4%nat)].

(** offsetof(struct hmdfs_cache_file_head, crc32). *)
Definition CRC_OFFSET := 80.

(** A file of the lower file system: its size, kernel_read (an error or the bytes read),
    kernel_write (the result and the file after it) and vfs_llseek with SEEK_DATA. *)
Class SparseFile (F : Type) := {
  f_size : F -> Z;
  f_read : F -> Z -> Z -> Z + bytes;
  f_write : F -> Z -> bytes -> Z * F;
  f_seek_data : F -> Z -> Z
}.

(** * File names *)

(** "%llx": no leading zeros. *)
Fixpoint hex_min (n : nat) (v : Z) : bytes :=
  match n with
  | O => [hex_digit (v mod 16)]
  | S n => if v <? 16 then [hex_digit v] else hex_min n (v / 16) ++ [hex_digit (v mod 16)]
  end.

(** The name of an inode's stash file. *)
Definition stash_file_name (ino : Z) : bytes :=
  snprintf HMDFS_STASH_FILE_NAME_LEN (48 :: 120 :: hex_min 15 ino).

(** The digits kstrtoull reads and what is left; [None] when the value leaves 64 bits. *)
Fixpoint parse_digits (s : bytes) (acc : Z) : option (Z * bytes) :=
  match s with
  | [] => Some (acc, [])
  | c :: s' =>
      match digit_value c with
      | Some d => if acc * 16 + d <? 2 ^ 64 then parse_digits s' (acc * 16 + d) else None
      | None => Some (acc, s)
      end
  end.

(** kstrtoull(s, 16, &v): [None] is an error. *)
Definition kstrtoull_16 (s : bytes) : option Z :=
  let s := match s with 43 :: s => s | _ => s end in
  let s := match s with 48 :: x :: s' => if tolower x =? 120 then s' else s | _ => s end in
  match parse_digits s 0 with
  | None => None
  | Some (v, rest) =>
      if (length rest =? length s)%nat then None
      else match rest with [] | [10] => Some v | _ => None end
  end.

(** The inode of a directory entry that is a stash file. *)
Definition hmdfs_parse_stash_file_name (name : bytes) (d_type : Z) : option Z :=
  if negb (d_type =? DT_UNKNOWN) && negb (d_type =? DT_REG) then None
  else if NAME_MAX <? Z.of_nat (length name) then None
  else kstrtoull_16 name.

(** * Stashing *)

Section File.
Context {F : Type} `{SparseFile F}.
(** crc32(0, ...) of the kernel. *)
Context (crc32 : bytes -> Z).

Record hmdfs_cache_info := mk_cache {
  ci_path_offs : Z;
  ci_path_len : Z;
  ci_path_cnt : Z;
  ci_path : bytes;
  ci_data_offs : Z;
  ci_to_write_pgs : Z;
  ci_written_pgs : Z;
  ci_cache_file : F
}.

Definition DIV_ROUND_UP (n d : Z) : Z := (n + d - 1) / d.

(** [alloc] and [alloc_path]: whether the allocations succeed; [alias] is the path of the
    inode's dentry, if it has one, or the error of building it; [created] the new file. *)
Definition hmdfs_new_file_cache (alloc alloc_path : bool) (alias : option (Z + bytes)) (created : Z + F) :
    Z + hmdfs_cache_info :=
  if negb (alloc && alloc_path) then inl (- ENOMEM)
  else
    match match alias with Some r => r | None => inr [] end with
    | inl err => inl err
    | inr path =>
        let path_len := Z.of_nat (length path) + 1 in
        let path_offs := DIV_ROUND_UP (sizeof hmdfs_cache_file_head) HMDFS_STASH_BLK_SIZE in
        match created with
        | inl err => inl err
        | inr f =>
            inr (mk_cache path_offs path_len 1 path
                   (path_offs + DIV_ROUND_UP path_len HMDFS_STASH_BLK_SIZE) 0 0 f)
        end
    end.

Definition hmdfs_set_stash_file_head (cache : hmdfs_cache_info) (ino : Z) : bytes :=
  let head := put_all hmdfs_cache_file_head
    [("magic", HMDFS_STASH_FILE_HEAD_MAGIC); ("ino", ino); ("size", f_size (ci_cache_file cache));
     ("blocks", Z.shiftl (ci_written_pgs cache) HMDFS_STASH_PAGE_TO_SECTOR_SHIFT);
     ("path_offs", ci_path_offs cache); ("path_len", ci_path_len cache);
     ("path_cnt", ci_path_cnt cache); ("data_offs", ci_data_offs cache); ("crc_offset", CRC_OFFSET)]
    (replicate (size_of hmdfs_cache_file_head) 0) in
  put_all hmdfs_cache_file_head [("crc32", crc32 (take (Z.to_nat CRC_OFFSET) head))] head.

Definition with_file (c : hmdfs_cache_info) (f : F) : hmdfs_cache_info :=
  mk_cache (ci_path_offs c) (ci_path_len c) (ci_path_cnt c) (ci_path c) (ci_data_offs c)
    (ci_to_write_pgs c) (ci_written_pgs c) f.

(** [cache] is info->cache; -EINVAL without one. *)
Definition hmdfs_flush_stash_file_metadata (cache : option hmdfs_cache_info) (ino : Z) :
    Z * option hmdfs_cache_info :=
  match cache with
  | None => (- EINVAL, None)
  | Some c =>
      if (length (ci_path c) =? 0)%nat then
        ((if ci_to_write_pgs c =? 0 then 0 else - EINVAL), cache)
      else
        let head := hmdfs_set_stash_file_head c ino in
        let '(written, f) := f_write (ci_cache_file c) 0 head in
        if negb (written =? sizeof hmdfs_cache_file_head) then (- EIO, Some (with_file c f))
        else
          let path := take (Z.to_nat (ci_path_len c)) (ci_path c ++ [0]) in
          let '(written, f) := f_write f (Z.shiftl (ci_path_offs c) HMDFS_STASH_BLK_SHIFT) path in
          ((if written =? ci_path_len c then 0 else - EIO), Some (with_file c f))
  end.

(** How many bytes of a page lie inside of the file (file_remote.c). *)
Definition hmdfs_get_writecount (index size : Z) : Z :=
  let pos := Z.shiftl index 12 in
  if size <=? pos then 0
  else if size <? pos + PAGE_SIZE then size - pos
  else PAGE_SIZE.

Definition hmdfs_stash_write_local_file (cache : hmdfs_cache_info) (index count : Z) (buf : bytes) :
    Z * hmdfs_cache_info :=
  let pos := Z.shiftl index 12 + u32 (Z.shiftl (ci_data_offs cache) HMDFS_STASH_BLK_SHIFT) in
  let '(written, f) := f_write (ci_cache_file cache) pos (take (Z.to_nat count) buf) in
  ((if written =? count then 0 else - EIO), with_file cache f).

(** The page at [index] holds [buf]. *)
Definition hmdfs_stash_writepage (cache : option hmdfs_cache_info) (index count : Z) (buf : bytes) :
    Z * option hmdfs_cache_info :=
  match cache with
  | None => (- EIO, None)
  | Some c =>
      let '(err, c) := hmdfs_stash_write_local_file c index count buf in
      (err, Some (mk_cache (ci_path_offs c) (ci_path_len c) (ci_path_cnt c) (ci_path c) (ci_data_offs c)
                    (ci_to_write_pgs c + 1) (if err =? 0 then ci_written_pgs c + 1 else ci_written_pgs c)
                    (ci_cache_file c)))
  end.

(** * Verifying *)

(** [None] is a read outside of [head]. *)
Definition hmdfs_verify_restore_file_head (i_size inum : Z) (head : bytes) : option Z :=
  let get := fld hmdfs_cache_file_head head in
  magic ← get "magic";
  if negb (magic =? HMDFS_STASH_FILE_HEAD_MAGIC) then Some (- EUCLEAN)
  else
  crc_offset ← get "crc_offset";
  read_crc ← read_le head (Z.to_nat crc_offset) 4;
  if negb (read_crc =? crc32 (take (Z.to_nat crc_offset) head)) then Some (- EUCLEAN)
  else
  ino ← get "ino";
  if negb (ino =? inum) then Some (- EUCLEAN)
  else
  p ← get "path_offs";
  let path_offs := Z.shiftl p HMDFS_STASH_BLK_SHIFT in
  if (path_offs <=? 0) || (i_size <=? path_offs) then Some (- EUCLEAN)
  else
  d ← get "data_offs";
  let data_offs := Z.shiftl d HMDFS_STASH_BLK_SHIFT in
  if data_offs <=? path_offs then Some (- EUCLEAN)
  else if (data_offs <=? 0) || (i_size <=? data_offs) then Some (- EUCLEAN)
  else
  size ← get "size";
  if negb (s64 size =? i_size) then Some (- EUCLEAN)
  else
  cnt ← get "path_cnt";
  Some (if cnt <? 1 then - EUCLEAN else 0).

(** The output fields of the context: ctx->pages, ctx->data_offs and the path in ctx->dst. *)
Record restore_meta := mk_meta { rm_pages : Z; rm_data_offs : Z; rm_dst : bytes }.
Definition no_meta : restore_meta := mk_meta 0 0 [].

(** kernel_read of exactly [n] bytes, or the error. *)
Definition read_exact (f : F) (pos n : Z) : Z + bytes :=
  match f_read f pos n with
  | inl rd => inl rd
  | inr data => if Z.of_nat (length data) =? n then inr data else inl (- ENODATA)
  end.

Definition hmdfs_get_restore_file_metadata (f : F) (inum : Z) : option (Z * restore_meta) :=
  let head_size := sizeof hmdfs_cache_file_head in
  let head := replicate (size_of hmdfs_cache_file_head) 0 in
  match read_exact f 0 8 with
  | inl err => Some (err, no_meta)
  | inr data =>
      let head := memcpy_at 0 data head in
      head_crc_offset ← fld hmdfs_cache_file_head head "crc_offset";
      if head_size <? head_crc_offset + 4 then Some (- EUCLEAN, no_meta)
      else
        match read_exact f 0 (u32 (head_crc_offset + 4)) with
        | inl err => Some (err, no_meta)
        | inr data =>
            let head := memcpy_at 0 data head in
            err ← hmdfs_verify_restore_file_head (f_size f) inum head;
            if negb (err =? 0) then Some (err, no_meta)
            else
              blocks ← fld hmdfs_cache_file_head head "blocks";
              data_offs ← fld hmdfs_cache_file_head head "data_offs";
              path_len ← fld hmdfs_cache_file_head head "path_len";
              path_offs ← fld hmdfs_cache_file_head head "path_offs";
              let pages := Z.shiftr blocks HMDFS_STASH_PAGE_TO_SECTOR_SHIFT in
              let read_size := Z.min path_len PATH_MAX in
              match read_exact f (Z.shiftl path_offs HMDFS_STASH_BLK_SHIFT) read_size with
              | inl err => Some (err, mk_meta pages data_offs [])
              | inr dst =>
                  let n := strnlen dst (Z.to_nat read_size) in
                  if read_size <=? Z.of_nat n then Some (- EUCLEAN, mk_meta pages data_offs [])
                  else Some (0, mk_meta pages data_offs (take n dst))
              end
        end
  end.

(** * Restoring *)

Section Copy.
(** The remote file and its device: hmdfs_file_write_iter_remote_nocheck (its result),
    vfs_fsync, truncate_inode_pages, and whether the device went offline meanwhile. *)
Context {D : Type} (write_iter : D -> Z -> bytes -> Z * D) (fsync : D -> Z * D) (truncate : D -> D)
  (offlined : D -> bool).

Definition hmdfs_write_dst (d : D) (buf : bytes) (pos : Z) : Z * D :=
  let '(wr, d) := write_iter d pos buf in
  ((if wr =? Z.of_nat (length buf) then 0 else if wr <? 0 then wr else - EFAULT), d).

(** The error, the bytes copied and whether the end was met. *)
Definition hmdfs_rd_src_wr_dst (src : F) (src_pos dst_pos : Z) (d : D) : Z * Z * bool * D :=
  match f_read src src_pos PAGE_SIZE with
  | inl err => (err, 0, false, d)
  | inr [] => (0, 0, true, d)
  | inr buf =>
      let '(err, d) := hmdfs_write_dst d buf dst_pos in
      if err =? 0 then (0, Z.of_nat (length buf), false, d)
      else ((if offlined d then - ESHUTDOWN else err), 0, false, d)
  end.

(** The loop of hmdfs_copy_src_to_dst; [None] only when the fuel runs out. *)
Fixpoint copy_loop (fuel : nat) (src : F) (data_init_pos seek_pos : Z) (d : D) : option (Z * D) :=
  match fuel with
  | O => None
  | S fuel =>
      let data_pos := f_seek_data src seek_pos in
      if seek_pos <? data_pos then copy_loop fuel src data_init_pos data_pos d
      else if data_pos <? 0 then Some (if data_pos =? - ENXIO then 0 else data_pos, d)
      else
        let '(err, copied, eof, d) := hmdfs_rd_src_wr_dst src data_pos (data_pos - data_init_pos) d in
        if negb (err =? 0) || eof then Some (err, d)
        else if f_size src <=? seek_pos + copied then Some (err, d)
        else copy_loop fuel src data_init_pos (seek_pos + copied) d
  end.

(** Every second turn copies a byte, or the loop ends. *)
Definition copy_fuel (src : F) : nat := S (Z.to_nat (2 * f_size src)).

Definition hmdfs_copy_src_to_dst (src : F) (data_offs : Z) (d : D) : option (Z * D) :=
  let data_init_pos := Z.shiftl data_offs HMDFS_STASH_BLK_SHIFT in
  copy_loop (copy_fuel src) src data_init_pos data_init_pos d.

Definition hmdfs_restore_src_to_dst (src : F) (data_offs : Z) (d : D) : option (Z * D) :=
  '(err, d) ← hmdfs_copy_src_to_dst src data_offs d;
  let '(err, d) :=
    if negb (err =? 0) then (err, d)
    else
      let '(err, d) := fsync d in
      ((if negb (err =? 0) && offlined d then - ESHUTDOWN else err), d) in
  Some (err, if negb (err =? 0) then truncate d else d).

End Copy.
End File.

(** * A lower file system without errors *)

(** [g] with [d] written at [p]. *)
Definition over (g : Z -> Z) (p : Z) (d : bytes) : Z -> Z :=
  fun x => if p <=? x then default (g x) (d !! Z.to_nat (x - p)) else g x.

(** Whether writing [n] bytes at [p] touches block [b]. *)
Definition touches (p n b : Z) : bool :=
  (b * HMDFS_STASH_BLK_SIZE <? p + n) && (p <? (b + 1) * HMDFS_STASH_BLK_SIZE).

(** Reads and writes succeed and are complete, and SEEK_DATA reports as data exactly the
    4 KiB blocks that were written. *)
Class SparseFileLaws (F : Type) `{SparseFile F} := {
  f_byte : F -> Z -> Z;
  f_data : F -> Z -> bool;
  size_nonneg f : 0 <= f_size f;
  byte_range f x : is_byte (f_byte f x);
  read_spec f p n : 0 <= p -> 0 <= n ->
    f_read f p n = inr (map (f_byte f) (seqZ p (Z.min n (f_size f - p))));
  write_spec f p d : 0 <= p -> d <> [] -> Forall is_byte d -> exists f', f_write f p d = (Z.of_nat (length d), f') /\
    f_size f' = Z.max (f_size f) (p + Z.of_nat (length d)) /\
    (forall x, f_byte f' x = over (f_byte f) p d x) /\
    (forall b, f_data f' b = f_data f b || touches p (Z.of_nat (length d)) b);
  seek_spec f s : 0 <= s ->
    (exists q, f_seek_data f s = q /\ s <= q < f_size f /\ f_data f (q / HMDFS_STASH_BLK_SIZE) = true /\
       forall x, s <= x < q -> f_data f (x / HMDFS_STASH_BLK_SIZE) = false) \/
    (f_seek_data f s = - ENXIO /\
       forall x, s <= x < f_size f -> f_data f (x / HMDFS_STASH_BLK_SIZE) = false)
}.

(** A file in memory. *)
Record memsparse := mk_sparse { ms_size : Z; ms_byte : Z -> Z; ms_data : Z -> bool }.

Definition empty_sparse : memsparse := mk_sparse 0 (fun _ => 0) (fun _ => false).

Fixpoint find_block (n : nat) (data : Z -> bool) (b : Z) : option Z :=
  match n with
  | O => None
  | S n => if data b then Some b else find_block n data (b + 1)
  end.

Definition ms_seek (f : memsparse) (s : Z) : Z :=
  match find_block (Z.to_nat (ms_size f / HMDFS_STASH_BLK_SIZE + 1)) (ms_data f) (s / HMDFS_STASH_BLK_SIZE) with
  | Some b =>
      let q := Z.max s (b * HMDFS_STASH_BLK_SIZE) in if q <? ms_size f then q else - ENXIO
  | None => - ENXIO
  end.

#[export] Instance memsparse_file : SparseFile memsparse := {
  f_size f := Z.max 0 (ms_size f);
  f_read f p n := inr (map (fun x => u8 (ms_byte f x)) (seqZ p (Z.min n (Z.max 0 (ms_size f) - p))));
  f_write f p d := (Z.of_nat (length d),
    mk_sparse (Z.max (Z.max 0 (ms_size f)) (p + Z.of_nat (length d))) (over (ms_byte f) p d)
      (fun b => ms_data f b || touches p (Z.of_nat (length d)) b));
  f_seek_data f s := ms_seek f s
}.

Lemma find_block_spec n data : forall b,
  match find_block n data b with
  | Some b' => b <= b' < b + Z.of_nat n /\ data b' = true /\ forall x, b <= x < b' -> data x = false
  | None => forall x, b <= x < b + Z.of_nat n -> data x = false
  end.
Proof.
  induction n as [|n IH]; intros b; cbn [find_block]; [intros; lia|].
  destruct (data b) eqn:E; [split; [lia|split; [done|intros; lia]]|].
  specialize (IH (b + 1)). destruct (find_block n data (b + 1)) as [b'|].
  - destruct IH as (?&?&Hx). split; [lia|]. split; [done|]. intros x Hb.
    destruct (Z.eq_dec x b) as [->|]; [done|]. apply Hx. lia.
  - intros x Hb. destruct (Z.eq_dec x b) as [->|]; [done|]. apply IH. lia.
Qed.

Lemma ms_seek_spec f s : 0 <= s ->
  (exists q, ms_seek f s = q /\ s <= q < Z.max 0 (ms_size f) /\ ms_data f (q / HMDFS_STASH_BLK_SIZE) = true /\
     forall x, s <= x < q -> ms_data f (x / HMDFS_STASH_BLK_SIZE) = false) \/
  (ms_seek f s = - ENXIO /\ forall x, s <= x < Z.max 0 (ms_size f) -> ms_data f (x / HMDFS_STASH_BLK_SIZE) = false).
Proof.
  intros Hs. unfold ms_seek, HMDFS_STASH_BLK_SIZE. set (n := Z.to_nat (ms_size f / 4096 + 1)).
  pose proof (find_block_spec n (ms_data f) (s / 4096)) as Hf.
  pose proof (Z.div_mod s 4096 ltac:(lia)). pose proof (Z.mod_pos_bound s 4096 ltac:(lia)).
  destruct (find_block _ _ _) as [b|].
  - destruct Hf as (Hb&Hd&Hx). cbv zeta. destruct (_ <? _) eqn:E; zb.
    + left. eexists; split; [reflexivity|]. split; [lia|]. split.
      * replace (Z.max s (b * 4096) / 4096) with b; [done|].
        destruct (Z.max_spec s (b * 4096)) as [[? ->]|[? ->]]; [by rewrite Z.div_mul|].
        apply Z.le_antisymm; [apply Z.div_le_lower_bound; lia|lia].
      * intros x Hxr. apply Hx. split; [apply Z.div_le_mono; lia|]. apply Z.div_lt_upper_bound; lia.
    + right. split; [done|]. intros x Hxr. apply Hx.
      split; [apply Z.div_le_mono; lia|]. apply Z.div_lt_upper_bound; lia.
  - right. split; [done|]. intros x Hxr. apply Hf. split; [apply Z.div_le_mono; lia|].
    assert (x / 4096 <= ms_size f / 4096) by (apply Z.div_le_mono; lia).
    assert (0 <= s / 4096) by (apply Z.div_pos; lia). assert (0 <= ms_size f / 4096) by (apply Z.div_pos; lia). lia.
Qed.

Lemma ms_byte_range f x : is_byte (u8 (ms_byte f x)).
Proof. unfold is_byte. apply (wrap_range 8). lia. Qed.

Lemma ms_write_spec f p d : 0 <= p -> d <> [] -> Forall is_byte d ->
  exists f', f_write f p d = (Z.of_nat (length d), f') /\
    f_size f' = Z.max (f_size f) (p + Z.of_nat (length d)) /\
    (forall x, u8 (ms_byte f' x) = over (fun x => u8 (ms_byte f x)) p d x) /\
    (forall b, ms_data f' b = ms_data f b || touches p (Z.of_nat (length d)) b).
Proof.
  intros Hp Hd Hb. eexists. split; [done|]. cbn. split; [lia|]. split; [|done].
  intros x. unfold over. destruct (p <=? x); [|done]. destruct (d !! _) as [b|] eqn:E; [|done]. cbn.
  apply wrap_small. exact (Forall_lookup_1 _ _ _ _ Hb E).
Qed.

#[export] Instance memsparse_laws : SparseFileLaws memsparse.
Proof.
  refine {| f_byte := fun f x => u8 (ms_byte f x); f_data := ms_data |}.
  - intros f. cbn. lia.
  - apply ms_byte_range.
  - done.
  - apply ms_write_spec.
  - apply ms_seek_spec.
Defined.

(** * Names *)

Lemma parse_digits_hex n : forall v rest,
  0 <= v < 16 ^ Z.of_nat (S n) -> v < 2 ^ 64 ->
  parse_digits (hex_min n v ++ rest) 0 = parse_digits rest v.
Proof.
  induction n as [|n IH]; intros v rest Hv Hb.
  - cbn [hex_min app parse_digits]. simpl in Hv. rewrite digit_value_hex by (apply Z.mod_pos_bound; lia).
    rewrite Z.mod_small by lia. rewrite Z.mul_0_l, Z.add_0_l, (proj2 (Z.ltb_lt _ _)) by lia. done.
  - cbn [hex_min]. destruct (v <? 16) eqn:E; zb.
    { cbn [app parse_digits]. rewrite digit_value_hex by lia.
      rewrite Z.mul_0_l, Z.add_0_l, (proj2 (Z.ltb_lt _ _)) by lia. done. }
    pose proof (Z.div_mod v 16 ltac:(lia)). pose proof (Z.mod_pos_bound v 16 ltac:(lia)).
    rewrite Nat2Z.inj_succ, Z.pow_succ_r in Hv by lia. set (P := 16 ^ _) in *. clearbody P.
    rewrite <- app_assoc, IH by lia. cbn [app parse_digits].
    rewrite digit_value_hex by lia. replace (v / 16 * 16 + v mod 16) with v by lia.
    by rewrite (proj2 (Z.ltb_lt _ _)).
Qed.

Lemma length_hex_min n v : (0 < length (hex_min n v) <= S n)%nat.
Proof.
  revert v; induction n as [|n IH]; intros v; cbn [hex_min]; [simpl; lia|].
  destruct (v <? 16); [simpl; lia|]. rewrite length_app. specialize (IH (v / 16)). simpl. lia.
Qed.

Lemma stash_file_name_fits ino : stash_file_name ino = 48 :: 120 :: hex_min 15 ino.
Proof.
  unfold stash_file_name. apply snprintf_fits. pose proof (length_hex_min 15 ino).
  unfold HMDFS_STASH_FILE_NAME_LEN. cbn [length]. lia.
Qed.

(** The directory entry of a stash file names its inode. *)
Lemma stash_name_roundtrip ino d_type :
  0 <= ino < 2 ^ 64 -> d_type = DT_UNKNOWN \/ d_type = DT_REG ->
  hmdfs_parse_stash_file_name (stash_file_name ino) d_type = Some ino.
Proof.
  intros Hi Ht. rewrite stash_file_name_fits. unfold hmdfs_parse_stash_file_name.
  replace (negb (d_type =? DT_UNKNOWN) && negb (d_type =? DT_REG)) with false
    by (destruct Ht as [->| ->]; done).
  pose proof (length_hex_min 15 ino) as Hl. unfold NAME_MAX. rewrite (proj2 (Z.ltb_ge _ _)) by (cbn [length]; lia).
  unfold kstrtoull_16. change (tolower 120 =? 120) with true. cbv iota.
  pose proof (parse_digits_hex 15 ino [] Hi ltac:(lia)) as Hp. rewrite app_nil_r in Hp.
  rewrite Hp. cbn [parse_digits]. rewrite (proj2 (Nat.eqb_neq _ _)); [done|]. cbn [length]. lia.
Qed.

(** * Reading back what was written *)

Section Laws.
Context {F : Type} `{SparseFileLaws F}.

(** The bytes of a range. *)
Definition range (f : F) (p n : Z) : bytes := map (f_byte f) (seqZ p n).

Lemma length_range f p n : length (range f p n) = Z.to_nat n.
Proof. unfold range. rewrite length_map. apply length_seqZ. Qed.

Lemma range_over f f' p d :
  (forall x, f_byte f' x = over (f_byte f) p d x) -> range f' p (Z.of_nat (length d)) = d.
Proof.
  intros Hb. apply list_eq. intros i. unfold range. rewrite list_lookup_fmap.
  destruct (d !! i) as [b|] eqn:E.
  - pose proof (lookup_lt_Some _ _ _ E). rewrite (lookup_seqZ_lt) by lia. cbn. rewrite Hb. unfold over.
    rewrite (proj2 (Z.leb_le _ _)) by lia. replace (Z.to_nat (p + Z.of_nat i - p)) with i by lia. by rewrite E.
  - apply lookup_ge_None in E. rewrite lookup_seqZ_ge by lia. done.
Qed.

Lemma over_out (g : Z -> Z) p d x : x < p \/ p + Z.of_nat (length d) <= x -> over g p d x = g x.
Proof.
  intros Hx. unfold over. destruct (p <=? x) eqn:E; zb; [|done].
  by rewrite lookup_ge_None_2 by lia.
Qed.

Lemma range_ext f f' p n : (forall x, p <= x < p + n -> f_byte f' x = f_byte f x) -> range f' p n = range f p n.
Proof.
  intros Hb. unfold range. apply list_eq. intros i. rewrite !list_lookup_fmap.
  destruct (decide (Z.of_nat i < n)).
  - rewrite !lookup_seqZ_lt by lia. cbn. f_equal. apply Hb. lia.
  - by rewrite !lookup_seqZ_ge by lia.
Qed.

Lemma read_exact_range f p n : 0 <= p -> 0 <= n -> p + n <= f_size f -> read_exact f p n = inr (range f p n).
Proof.
  intros Hp Hn Hs. unfold read_exact. rewrite read_spec by done. rewrite Z.min_l by lia.
  fold (range f p n). rewrite length_range. rewrite (proj2 (Z.eqb_eq _ _)) by lia. done.
Qed.

Lemma take_range f p n m : 0 <= m <= n -> take (Z.to_nat m) (range f p n) = range f p m.
Proof.
  intros Hm. unfold range. rewrite <- (Z.sub_add m n), Z.add_comm. rewrite seqZ_app by lia.
  rewrite map_app, take_app_length'; [done|]. rewrite length_map, length_seqZ. done.
Qed.


Lemma over_range (g : Z -> Z) f p a n x :
  0 <= n -> over g p (range f a n) x = if (p <=? x) && (x <? p + n) then f_byte f (a + (x - p)) else g x.
Proof.
  intros Hn. destruct ((p <=? x) && (x <? p + n)) eqn:E; zb.
  - unfold over. rewrite (proj2 (Z.leb_le _ _)) by lia. unfold range. rewrite list_lookup_fmap, lookup_seqZ_lt by lia.
    cbn. f_equal. lia.
  - apply over_out. rewrite length_range. apply andb_false_iff in E as [E|E]; zb; lia.
Qed.

Lemma range_bytes f p n : Forall is_byte (range f p n).
Proof. apply list.Forall_forall. unfold range. intros b (x&->&_)%list_elem_of_fmap. apply byte_range. Qed.

(** * The copy *)

(** A remote file, by its bytes, that takes every write. *)
Definition accept_write (d : Z -> Z) (p : Z) (buf : bytes) : Z * (Z -> Z) := (Z.of_nat (length buf), over d p buf).

Lemma write_dst_accept d buf pos : hmdfs_write_dst accept_write d buf pos = (0, over d pos buf).
Proof. unfold hmdfs_write_dst, accept_write. by rewrite Z.eqb_refl. Qed.

(** Byte [y] of the remote file is restored from position [s] of the stash file on. *)
Definition restored (src : F) (B s y : Z) : bool :=
  (s <=? B + y) && (B + y <? f_size src) && f_data src ((B + y) / HMDFS_STASH_BLK_SIZE).

Lemma seek_aligned f s q :
  0 <= s -> s mod HMDFS_STASH_BLK_SIZE = 0 -> s <= q -> f_data f (q / HMDFS_STASH_BLK_SIZE) = true ->
  (forall x, s <= x < q -> f_data f (x / HMDFS_STASH_BLK_SIZE) = false) -> q mod HMDFS_STASH_BLK_SIZE = 0.
Proof.
  unfold HMDFS_STASH_BLK_SIZE. intros Hs Ha Hq Hd Hx.
  pose proof (Z.div_mod q 4096 ltac:(lia)). pose proof (Z.mod_pos_bound q 4096 ltac:(lia)).
  pose proof (Z.div_mod s 4096 ltac:(lia)). assert (s / 4096 <= q / 4096) by (apply Z.div_le_mono; lia).
  destruct (Z.eq_dec (q mod 4096) 0) as [|Hne]; [done|].
  specialize (Hx (q / 4096 * 4096) ltac:(lia)). rewrite Z.div_mul in Hx by lia. congruence.
Qed.

Lemma copy_loop_spec offlined src B : 0 <= B -> forall fuel s d,
  B <= s -> s mod HMDFS_STASH_BLK_SIZE = 0 -> 1 <= Z.of_nat fuel -> 2 * (f_size src - s) + 1 <= Z.of_nat fuel ->
  exists d', copy_loop accept_write offlined fuel src B s d = Some (0, d') /\
    forall y, d' y = if restored src B s y then f_byte src (B + y) else d y.
Proof.
  intros HB. induction fuel as [|fuel IH]; intros s d Hs Ha Hf1 Hf; [lia|]. cbn [copy_loop].
  destruct (seek_spec src s ltac:(lia)) as [(q&->&Hq&Hd&Hx)|[-> Hx]].
  2: { destruct (s <? - ENXIO) eqn:E; unfold ENXIO in *; zb; [lia|]. cbn. eexists; split; [done|].
    intros y. unfold restored. destruct ((s <=? _) && _) eqn:E'; [|done]. zb. rewrite Hx by lia. done. }
  destruct (s <? q) eqn:E; zb.
  { pose proof (seek_aligned src s q ltac:(lia) Ha (proj1 Hq) Hd Hx) as Hqa.
    destruct (IH q d ltac:(lia) Hqa ltac:(lia) ltac:(lia)) as (d'&->&Hd'). eexists; split; [done|].
    intros y. rewrite Hd'. unfold restored.
    destruct (q <=? B + y) eqn:E1; zb; [rewrite (proj2 (Z.leb_le s _)) by lia; done|].
    cbn. destruct (s <=? B + y) eqn:E2; zb; [|done]. rewrite Hx, andb_false_r by lia. done. }
  assert (q = s) as -> by lia. rewrite (proj2 (Z.ltb_ge s 0)) by lia.
  unfold hmdfs_rd_src_wr_dst, PAGE_SIZE. rewrite read_spec by lia.
  remember (Z.min 4096 (f_size src - s)) as n eqn:Hmin. assert (Hn : 0 < n <= 4096) by lia.
  fold (range src s n). pose proof (length_range src s n) as Hl.
  destruct (range src s n) as [|b0 buf0] eqn:Er; [simpl in Hl; lia|]. rewrite <- Er in *. clear Er b0 buf0.
  rewrite write_dst_accept. cbn [Z.eqb negb orb]. rewrite Hl, Z2Nat.id by lia.
  assert (Hblk : forall x, s <= x < s + 4096 -> x / HMDFS_STASH_BLK_SIZE = s / HMDFS_STASH_BLK_SIZE).
  { unfold HMDFS_STASH_BLK_SIZE in *. intros x Hxr. pose proof (Z.div_mod s 4096 ltac:(lia)).
    symmetry. apply (Z.div_unique _ _ _ (x - s)); lia. }
  destruct (f_size src <=? s + n) eqn:Ee; zb.
  - eexists; split; [done|]. intros y. rewrite over_range by lia. unfold restored.
    destruct ((s <=? B + y) && (B + y <? f_size src)) eqn:E1.
    + zb. rewrite Hblk, Hd by lia. rewrite (proj2 (Z.leb_le _ _)), (proj2 (Z.ltb_lt _ _)) by lia.
      cbn. f_equal. lia.
    + cbn [andb]. destruct (_ && _) eqn:E2 at 1; [|done]. zb. apply andb_false_iff in E1 as [E1|E1]; zb; lia.
  - assert (n = 4096) as -> by lia.
    destruct (IH (s + 4096) (over d (s - B) (range src s 4096))) as (d'&->&Hd'); [lia| |lia|lia|].
    { unfold HMDFS_STASH_BLK_SIZE in *. rewrite Z.add_mod, Ha by lia. done. }
    eexists; split; [done|]. intros y. rewrite Hd', over_range by lia. unfold restored.
    destruct (s + 4096 <=? B + y) eqn:E1; zb.
    + rewrite (proj2 (Z.leb_le s _)) by lia. rewrite (proj2 (Z.ltb_ge y _)), andb_false_r by lia. done.
    + cbn [andb]. destruct (s <=? B + y) eqn:E2; zb.
      * rewrite (proj2 (Z.leb_le (s - B) _)), (proj2 (Z.ltb_lt y _)), (proj2 (Z.ltb_lt (B + y) _)), Hblk, Hd by lia.
        cbn. f_equal. lia.
      * rewrite (proj2 (Z.leb_gt (s - B) _)) by lia. done.
Qed.

Lemma copy_spec offlined src data_offs d :
  0 <= data_offs ->
  exists d', hmdfs_copy_src_to_dst accept_write offlined src data_offs d = Some (0, d') /\
    let B := data_offs * HMDFS_STASH_BLK_SIZE in
    forall y, d' y = if restored src B B y then f_byte src (B + y) else d y.
Proof.
  intros Hd. unfold hmdfs_copy_src_to_dst, HMDFS_STASH_BLK_SHIFT. rewrite Z.shiftl_mul_pow2 by lia.
  change (2 ^ 12) with HMDFS_STASH_BLK_SIZE. pose proof (size_nonneg src).
  apply copy_loop_spec; unfold HMDFS_STASH_BLK_SIZE, copy_fuel in *; [lia|lia| |lia|lia].
  by rewrite Z.mod_mul.
Qed.

(** The loop ends, whatever the writes answer. *)
Lemma copy_loop_total {D : Type} (write_iter : D -> Z -> bytes -> Z * D) offlined src B : forall fuel s d,
  0 <= s -> 1 <= Z.of_nat fuel -> 2 * (f_size src - s) + 1 <= Z.of_nat fuel ->
  exists r, copy_loop write_iter offlined fuel src B s d = Some r.
Proof.
  induction fuel as [|fuel IH]; intros s d Hs Hf1 Hf; [lia|]. cbn [copy_loop].
  destruct (seek_spec src s Hs) as [(q&->&Hq&_&_)|[-> _]].
  2: { destruct (s <? - ENXIO) eqn:E; unfold ENXIO in *; zb; [lia|]. by eauto. }
  destruct (s <? q) eqn:E; zb; [apply IH; lia|]. rewrite (proj2 (Z.ltb_ge q 0)) by lia.
  destruct (hmdfs_rd_src_wr_dst _ _ _ _ _ _) as [[[err copied] eof] d1] eqn:Er.
  destruct (_ || _) eqn:E1; [by eauto|]. destruct (f_size src <=? s + copied) eqn:E2; [by eauto|]. zb.
  unfold hmdfs_rd_src_wr_dst, PAGE_SIZE in Er. rewrite read_spec in Er by lia.
  destruct (map _ _) as [|b buf]; [by injection Er as <- <- <- <-|].
  destruct (hmdfs_write_dst _ _ _ _) as [e d2]. destruct (e =? 0) eqn:E3.
  - injection Er as <- <- <- <-. cbn [length] in *. apply IH; lia.
  - injection Er as <- <- <- <-. zb. destruct (offlined d2); zb; done.
Qed.

Lemma restore_src_total {D : Type} (write_iter : D -> Z -> bytes -> Z * D) fsync truncate offlined src data_offs d :
  0 <= data_offs -> exists err d', hmdfs_restore_src_to_dst write_iter fsync truncate offlined src data_offs d = Some (err, d').
Proof.
  intros Hd. unfold hmdfs_restore_src_to_dst, hmdfs_copy_src_to_dst, HMDFS_STASH_BLK_SHIFT.
  rewrite Z.shiftl_mul_pow2 by lia. pose proof (size_nonneg src).
  destruct (copy_loop_total write_iter offlined src (data_offs * 2 ^ 12) (copy_fuel src) (data_offs * 2 ^ 12) d) as ([err d1]&->);
    unfold copy_fuel; [lia..|]. cbn [mbind option_bind].
  destruct (negb (err =? 0)); [by eauto|]. destruct (fsync d1) as [e d2]. by eauto.
Qed.

(** * What is verified *)

Context (crc32 : bytes -> Z).

Lemma head_field_some head f off w :
  length head = size_of hmdfs_cache_file_head -> field_at hmdfs_cache_file_head f = Some (off, w) ->
  (off + w <= size_of hmdfs_cache_file_head)%nat -> fld hmdfs_cache_file_head head f = Some (le_dec (sub off w head)).
Proof. intros Hl Hf Ho. unfold fld, read_le. rewrite Hf, decide_True by lia. done. Qed.

(** What a verified head promises. *)
Definition head_good (i_size : Z) (head : bytes) (crc_offset : Z) : Prop :=
  exists path_offs data_offs,
    fld hmdfs_cache_file_head head "path_offs" = Some path_offs /\
    fld hmdfs_cache_file_head head "data_offs" = Some data_offs /\
    0 < path_offs < data_offs /\ data_offs * HMDFS_STASH_BLK_SIZE < i_size /\
    read_le head (Z.to_nat crc_offset) 4 = Some (crc32 (take (Z.to_nat crc_offset) head)).

Local Ltac bad_head := eexists; split; [done|]; split; [by right|done].

Lemma verify_head_spec i_size inum head co :
  length head = size_of hmdfs_cache_file_head -> Forall is_byte head ->
  fld hmdfs_cache_file_head head "crc_offset" = Some co -> 0 <= co <= CRC_OFFSET ->
  exists err, hmdfs_verify_restore_file_head crc32 i_size inum head = Some err /\
    (err = 0 \/ err = - EUCLEAN) /\ (err = 0 -> head_good i_size head co).
Proof.
  intros Hl Hb Hco Hr. unfold hmdfs_verify_restore_file_head.
  rewrite (head_field_some head "magic" 0 4) by (done || (cbn; lia)). cbn [mbind option_bind].
  destruct (negb _); [bad_head|]. rewrite Hco. cbn [mbind option_bind].
  assert (Hcrc : exists v, read_le head (Z.to_nat co) 4 = Some v).
  { unfold read_le. rewrite decide_True; [by eauto|]. rewrite Hl. unfold CRC_OFFSET in Hr. cbn. lia. }
  destruct Hcrc as [v Hv]. rewrite Hv. cbn [mbind option_bind].
  destruct (negb (v =? _)) eqn:Ec; [bad_head|]. zb.
  rewrite (head_field_some head "ino" 8 8) by (done || (cbn; lia)). cbn [mbind option_bind].
  destruct (negb _); [bad_head|].
  rewrite (head_field_some head "path_offs" 64 4) by (done || (cbn; lia)). cbn [mbind option_bind].
  set (p := le_dec (sub 64 4 head)). unfold HMDFS_STASH_BLK_SHIFT. rewrite !Z.shiftl_mul_pow2 by lia.
  destruct (_ || _) eqn:E1; [bad_head|]. zb.
  rewrite (head_field_some head "data_offs" 76 4) by (done || (cbn; lia)). cbn [mbind option_bind].
  set (d := le_dec (sub 76 4 head)). rewrite !Z.shiftl_mul_pow2 by lia.
  destruct (d * 2 ^ 12 <=? p * 2 ^ 12) eqn:E2; [bad_head|]. destruct (_ || _) eqn:E3; [bad_head|]. zb.
  rewrite (head_field_some head "size" 16 8) by (done || (cbn; lia)). cbn [mbind option_bind].
  destruct (negb _) eqn:E4; [bad_head|].
  rewrite (head_field_some head "path_cnt" 72 4) by (done || (cbn; lia)). cbn [mbind option_bind].
  eexists; split; [done|]. split; [destruct (_ <? 1); auto|]. intros _.
  exists p, d. rewrite (head_field_some head "path_offs" 64 4), (head_field_some head "data_offs" 76 4)
    by (done || (cbn; lia)). unfold HMDFS_STASH_BLK_SIZE. split; [done|]. split; [done|].
  split; [lia|]. split; [lia|]. congruence.
Qed.

Lemma lookup_range f p n i : (Z.of_nat i < n) -> range f p n !! i = Some (f_byte f (p + Z.of_nat i)).
Proof. intros Hi. unfold range. rewrite list_lookup_fmap, lookup_seqZ_lt by done. done. Qed.

Lemma memcpy_at_0 (r l : bytes) : memcpy_at 0 r l = r ++ drop (length r) l.
Proof. done. Qed.

Lemma sub_range f p n off len :
  Z.of_nat (off + len) <= n -> sub off len (range f p n) = range f (p + Z.of_nat off) (Z.of_nat len).
Proof.
  intros Hn. apply list_eq. intros i. destruct (decide (i < len)%nat).
  - rewrite lookup_sub, !lookup_range by lia. do 2 f_equal. lia.
  - rewrite lookup_sub_ge by lia. symmetry. apply lookup_ge_None_2. rewrite length_range. lia.
Qed.

Lemma read_exact_cases f p n :
  0 <= p -> 0 <= n ->
  (read_exact f p n = inr (range f p n) /\ p + n <= Z.max p (f_size f)) \/ read_exact f p n = inl (- ENODATA).
Proof.
  intros Hp Hn. unfold read_exact. rewrite read_spec by done. fold (range f p (Z.min n (f_size f - p))).
  rewrite length_range. destruct (_ =? n) eqn:E; zb; [left|by right].
  rewrite <- E at 1. split; [|lia]. f_equal. unfold range. f_equal.
  destruct (Z.le_gt_cases n (f_size f - p)).
  - f_equal. lia.
  - rewrite Z.min_r in * by lia. assert (n = 0) as -> by lia. destruct (f_size f - p); [done|lia|done].
Qed.

(** The head buffer after reading its first part, and then all of it. *)
Definition head_1 (f : F) : bytes := memcpy_at 0 (range f 0 8) (replicate (size_of hmdfs_cache_file_head) 0).
Definition head_2 (f : F) (co : Z) : bytes := memcpy_at 0 (range f 0 (co + 4)) (head_1 f).

Lemma head_1_ok f : length (head_1 f) = size_of hmdfs_cache_file_head /\ Forall is_byte (head_1 f).
Proof.
  unfold head_1. rewrite memcpy_at_0, length_app, length_drop, length_replicate, length_range. split; [done|].
  apply Forall_app. split; [apply range_bytes|]. apply Forall_drop, Forall_replicate. by unfold is_byte.
Qed.

Lemma head_2_ok f co : 0 <= co <= CRC_OFFSET ->
  length (head_2 f co) = size_of hmdfs_cache_file_head /\ Forall is_byte (head_2 f co).
Proof.
  intros Hc. destruct (head_1_ok f) as [Hl Hb]. unfold head_2.
  rewrite memcpy_at_0, length_app, length_drop, length_range, Hl. unfold CRC_OFFSET in Hc. split; [cbn; lia|].
  apply Forall_app. split; [apply range_bytes|by apply Forall_drop].
Qed.

Lemma head_crc_offset f co (h : bytes) :
  h = head_1 f \/ (0 <= co <= CRC_OFFSET /\ h = head_2 f co) ->
  fld hmdfs_cache_file_head h "crc_offset" = Some (le_dec (range f 4 4)).
Proof.
  intros Hh. assert (Hl : length h = size_of hmdfs_cache_file_head).
  { destruct Hh as [->|[Hc ->]]; [apply head_1_ok|by apply head_2_ok]. }
  rewrite (head_field_some h "crc_offset" 4 4) by (done || (cbn; lia)). do 2 f_equal.
  assert (Hone : forall i, (i < 8)%nat -> head_1 f !! i = Some (f_byte f (Z.of_nat i))).
  { intros i Hi. unfold head_1. rewrite memcpy_at_0, lookup_app_l, lookup_range by (rewrite ?length_range; lia). done. }
  apply list_eq. intros i. destruct (decide (i < 4)%nat).
  - rewrite lookup_sub, (lookup_range f 4 4) by lia. replace (4 + Z.of_nat i) with (Z.of_nat (4 + i)) by lia.
    destruct Hh as [->|[Hc ->]]; [apply Hone; lia|]. unfold head_2. rewrite memcpy_at_0.
    destruct (decide (Z.of_nat (4 + i) < co + 4)).
    + by rewrite lookup_app_l, lookup_range by (rewrite ?length_range; lia).
    + rewrite lookup_app_r by (rewrite length_range; lia). rewrite length_range, lookup_drop.
      rewrite <- (Hone (4 + i)%nat) by lia. f_equal. lia.
  - rewrite lookup_sub_ge by lia. symmetry. apply lookup_ge_None_2. rewrite length_range. lia.
Qed.

Lemma strnlen_found l m : (strnlen l m < m)%nat -> (strnlen l m < length l)%nat -> l !! strnlen l m = Some 0.
Proof.
  revert l; induction m as [|m IH]; intros [|b l]; cbn [strnlen length]; try lia.
  destruct (b =? 0) eqn:E; zb; [by intros; subst|]. intros H1 H2. apply IH; lia.
Qed.

Lemma dst_path_spec f p n (k := strnlen (range f p n) (Z.to_nat n)) :
  Z.of_nat k < n ->
  nul_free (take k (range f p n)) /\ Z.of_nat (length (take k (range f p n))) < n /\
  range f p (Z.of_nat (length (take k (range f p n))) + 1) = take k (range f p n) ++ [0].
Proof.
  intros Hk. assert (Hl : length (take k (range f p n)) = k) by (rewrite length_take, length_range; lia).
  rewrite Hl. split; [|split; [done|]].
  - apply Forall_lookup_2. intros i b Hi. pose proof (lookup_lt_Some _ _ _ Hi) as Hlt. rewrite Hl in Hlt.
    rewrite lookup_take_lt in Hi by done. by eapply strnlen_prefix.
  - replace (Z.of_nat k + 1) with (Z.of_nat (S k)) by lia. rewrite <- (take_range f p n) by lia.
    rewrite Nat2Z.id. rewrite (take_S_r _ _ 0); [done|]. subst k. apply strnlen_found; rewrite ?length_range; lia.
Qed.

(** What a successful verification promises: the checksum is right, the data begins inside of
    the file behind the path, and the path is a C string stored in front of the data. *)
Definition verified (f : F) (m : restore_meta) : Prop :=
  let co := le_dec (range f 4 4) in
  0 <= co <= CRC_OFFSET /\ le_dec (range f co 4) = crc32 (range f 0 co) /\
  rm_data_offs m * HMDFS_STASH_BLK_SIZE < f_size f /\
  nul_free (rm_dst m) /\ Z.of_nat (length (rm_dst m)) < PATH_MAX /\
  exists p, 0 < p < rm_data_offs m /\
    range f (p * HMDFS_STASH_BLK_SIZE) (Z.of_nat (length (rm_dst m)) + 1) = rm_dst m ++ [0].

Local Ltac bad_meta := eexists _, _; split; [done|]; split; [auto|done].

Lemma metadata_spec f inum :
  exists err m, hmdfs_get_restore_file_metadata crc32 f inum = Some (err, m) /\
    (err = 0 \/ err = - EUCLEAN \/ err = - ENODATA) /\ (err = 0 -> verified f m).
Proof.
  unfold hmdfs_get_restore_file_metadata.
  destruct (read_exact_cases f 0 8 ltac:(lia) ltac:(lia)) as [[-> Hs]| ->]; [|bad_meta]. cbv zeta.
  fold (head_1 f). rewrite (head_crc_offset f 0 (head_1 f)) by auto. cbn [mbind option_bind].
  set (co := le_dec (range f 4 4)).
  assert (Hco : 0 <= co < 2 ^ 32).
  { pose proof (le_dec_range (range f 4 4) (range_bytes f 4 4)) as Hr. by rewrite length_range in Hr. }
  change (sizeof hmdfs_cache_file_head) with 84. destruct (84 <? co + 4) eqn:E; [bad_meta|]. zb.
  rewrite (wrap_small 32) by lia.
  destruct (read_exact_cases f 0 (co + 4) ltac:(lia) ltac:(lia)) as [[-> Hs']| ->]; [|bad_meta].
  fold (head_2 f co). assert (Hcr : 0 <= co <= CRC_OFFSET) by (unfold CRC_OFFSET; lia).
  destruct (head_2_ok f co Hcr) as [Hl Hb].
  destruct (verify_head_spec (f_size f) inum (head_2 f co) co Hl Hb) as (err&->&Herr&Hgood);
    [apply (head_crc_offset f co); auto|done|].
  cbn [mbind option_bind]. destruct (err =? 0) eqn:E0; cbn [negb]; [|destruct Herr as [->| ->]; [done|bad_meta]].
  zb. subst err. destruct (Hgood eq_refl) as (p&d&Hp&Hd&Hpd&Hds&Hcrc).
  rewrite (head_field_some _ "blocks" 24 8), Hd, (head_field_some _ "path_len" 68 4), Hp by (done || (cbn; lia)).
  cbn [mbind option_bind]. set (pl := le_dec (sub 68 4 (head_2 f co))).
  assert (Hpl : 0 <= pl) by (apply (le_dec_range (sub 68 4 (head_2 f co))), Forall_take, Forall_drop, Hb).
  unfold HMDFS_STASH_BLK_SHIFT. rewrite Z.shiftl_mul_pow2 by lia. change (2 ^ 12) with HMDFS_STASH_BLK_SIZE.
  unfold HMDFS_STASH_BLK_SIZE in *.
  destruct (read_exact_cases f (p * 4096) (Z.min pl PATH_MAX)) as [[-> Hs'']| ->];
    [lia|unfold PATH_MAX; lia| |bad_meta].
  destruct (_ <=? _) eqn:E1; [bad_meta|]. zb.
  destruct (dst_path_spec f (p * 4096) (Z.min pl PATH_MAX) E1) as (Hnf&Hlen&Hrange).
  eexists _, _; split; [done|]. split; [auto|]. intros _. unfold verified. fold co. cbn [rm_data_offs rm_dst].
  split; [done|]. split.
  { unfold read_le, head_2 in Hcrc. rewrite memcpy_at_0 in Hcrc. case_decide; [|done]. injection Hcrc as Hcrc.
    rewrite take_app_le, take_range in Hcrc by (rewrite ?length_range; lia). rewrite <- Hcrc. f_equal.
    unfold sub. rewrite drop_app_le, take_app_le by (rewrite ?length_drop, length_range; lia).
    fold (sub (Z.to_nat co) 4 (range f 0 (co + 4))). rewrite sub_range by lia. f_equal. lia. }
  split; [done|]. split; [done|]. split; [unfold PATH_MAX in *; lia|]. by exists p.
Qed.

(** * Stashing pages *)

(** The writeback of the pages [l], by index and content, of a file of [isize] bytes, until one
    fails. *)
Definition stash_step (isize : Z) (r : Z * option hmdfs_cache_info) (p : Z * bytes) :
    Z * option hmdfs_cache_info :=
  if r.1 =? 0 then hmdfs_stash_writepage r.2 p.1 (hmdfs_get_writecount p.1 isize) p.2 else r.

Definition stash_pages (isize : Z) (c : hmdfs_cache_info) (l : list (Z * bytes)) :
    Z * option hmdfs_cache_info := foldl (stash_step isize) (0, Some c) l.

Definition page_ok (isize : Z) (p : Z * bytes) : Prop :=
  0 <= p.1 /\ p.1 * PAGE_SIZE < isize /\ Z.of_nat (length p.2) = PAGE_SIZE /\ Forall is_byte p.2.

(** What page [i] held when it was last written back. *)
Definition last_page (l : list (Z * bytes)) (i : Z) : option bytes :=
  list.last (map snd (filter (fun p => p.1 = i) l)).

Lemma last_page_snoc l j b i : last_page (l ++ [(j, b)]) i = if decide (j = i) then Some b else last_page l i.
Proof.
  unfold last_page. rewrite list.filter_app, map_app, filter_cons. cbn [fst].
  destruct (decide (j = i)); cbn; [apply last_snoc|by rewrite app_nil_r].
Qed.

Lemma last_page_in l i b : last_page l i = Some b -> exists p, p ∈ l /\ p.1 = i.
Proof.
  unfold last_page. intros Hx%last_Some_elem_of. apply list_elem_of_fmap in Hx as (p&_&Hp).
  apply list_elem_of_filter in Hp as [? ?]. eauto.
Qed.

Lemma last_page_none l i : last_page l i = None -> forall p, p ∈ l -> p.1 <> i.
Proof.
  unfold last_page. rewrite last_None. intros Hx p Hp E.
  assert (Hin : p.2 ∈ map snd (filter (fun p => p.1 = i) l)).
  { apply list_elem_of_fmap. exists p. split; [done|]. by apply list_elem_of_filter. }
  rewrite Hx in Hin. by apply elem_of_nil in Hin.
Qed.

Lemma writecount_spec i isize :
  0 <= i -> i * PAGE_SIZE < isize -> hmdfs_get_writecount i isize = Z.min PAGE_SIZE (isize - i * PAGE_SIZE).
Proof.
  intros Hi Hs. unfold hmdfs_get_writecount. rewrite Z.shiftl_mul_pow2 by lia. unfold PAGE_SIZE in *.
  change (2 ^ 12) with 4096. split_ifs.
Qed.

(** The stash of [l] behind the first [B] bytes, which hold no data block of it. *)
Record pages_stored (B isize : Z) (l : list (Z * bytes)) (f : F) : Prop := {
  ps_size : l <> [] -> B < f_size f <= B + isize;
  ps_inside p : p ∈ l -> B + p.1 * PAGE_SIZE + hmdfs_get_writecount p.1 isize <= f_size f;
  ps_data b : B <= b * PAGE_SIZE -> f_data f b = true <-> exists p, p ∈ l /\ B + p.1 * PAGE_SIZE = b * PAGE_SIZE;
  ps_bytes i buf k : last_page l i = Some buf -> 0 <= k < hmdfs_get_writecount i isize ->
    f_byte f (B + i * PAGE_SIZE + k) = default 0 (buf !! Z.to_nat k)
}.

Lemma pages_stored_nil B isize f : (forall b, f_data f b = false) -> pages_stored B isize [] f.
Proof.
  intros Hd. split; [done|by intros p Hp%elem_of_nil| |by intros].
  intros b _. rewrite Hd. split; [done|]. by intros (p&Hp%elem_of_nil&_).
Qed.

Lemma pages_stored_write B isize l f i buf :
  0 <= B -> B mod PAGE_SIZE = 0 -> (l = [] -> f_size f <= B) -> Forall (page_ok isize) (l ++ [(i, buf)]) ->
  pages_stored B isize l f ->
  let n := hmdfs_get_writecount i isize in
  exists f', f_write f (B + i * PAGE_SIZE) (take (Z.to_nat n) buf) = (n, f') /\
    pages_stored B isize (l ++ [(i, buf)]) f'.
Proof.
  intros HB Ha Hnil Hok [Hs Hin Hd Hb] n. apply Forall_app in Hok as [Hl Hi].
  apply list.Forall_singleton in Hi as (Hi0&Hi1&Hlen&Hby). cbn [fst snd] in *.
  pose proof (writecount_spec i isize Hi0 Hi1) as Hn. fold n in Hn.
  assert (Hnr : 0 < n <= PAGE_SIZE) by (unfold PAGE_SIZE in *; lia).
  assert (Hlt : Z.of_nat (length (take (Z.to_nat n) buf)) = n) by (rewrite length_take; lia).
  destruct (write_spec f (B + i * PAGE_SIZE) (take (Z.to_nat n) buf)) as (f'&Hw&Hsz&Hbyte&Hdata).
  { unfold PAGE_SIZE in *. lia. } { intros E. rewrite E in Hlt. cbn in Hlt. lia. } { by apply Forall_take. }
  rewrite Hlt in Hw, Hsz, Hdata. exists f'. split; [done|].
  assert (Hmono : f_size f <= f_size f' /\ B + i * PAGE_SIZE + n <= f_size f') by lia.
  split.
  - intros _. unfold PAGE_SIZE in *. destruct (decide (l = [])) as [E|E]; [specialize (Hnil E); lia|].
    specialize (Hs E). lia.
  - intros p [Hp|Hp%list_elem_of_singleton]%elem_of_app; [specialize (Hin p Hp); lia|subst p; cbn; lia].
  - intros b Hb0. rewrite Hdata, orb_true_iff, (Hd b Hb0).
    assert (Ht : touches (B + i * PAGE_SIZE) n b = true <-> B + i * PAGE_SIZE = b * PAGE_SIZE).
    { unfold touches, HMDFS_STASH_BLK_SIZE, PAGE_SIZE in *. rewrite andb_true_iff, !Z.ltb_lt.
      pose proof (Z.div_mod B 4096 ltac:(lia)). lia. }
    rewrite Ht. split.
    + intros [(p&Hp&E)|E]; [exists p|exists (i, buf)]; rewrite elem_of_app, list_elem_of_singleton; auto.
    + intros (p&[Hp|Hp%list_elem_of_singleton]%elem_of_app&E); [left; by exists p|right; by subst p].
  - intros j b k Hlast Hk. rewrite last_page_snoc in Hlast. rewrite Hbyte.
    destruct (decide (i = j)) as [->|Hne].
    + injection Hlast as <-. fold n in Hk. unfold over. rewrite (proj2 (Z.leb_le _ _)) by lia.
      replace (B + j * PAGE_SIZE + k - (B + j * PAGE_SIZE)) with k by lia.
      rewrite lookup_take_lt by lia. destruct (buf !! Z.to_nat k) eqn:E; [done|].
      apply lookup_ge_None in E. lia.
    + destruct (last_page_in _ _ _ Hlast) as (p&Hp&Ej).
      apply (proj1 (list.Forall_forall _ _) Hl) in Hp as (Hp0&Hp1&_). rewrite Ej in Hp0, Hp1.
      rewrite (writecount_spec j isize Hp0 Hp1) in Hk.
      rewrite over_out by (rewrite Hlt; unfold PAGE_SIZE in *; lia).
      apply Hb; [done|]. by rewrite writecount_spec.
Qed.

Lemma stash_pages_ok isize po pl pc path doffs f0 l :
  0 <= doffs < 2 ^ 20 -> f_size f0 <= doffs * PAGE_SIZE -> (forall b, f_data f0 b = false) ->
  Forall (page_ok isize) l ->
  exists f, stash_pages isize (mk_cache po pl pc path doffs 0 0 f0) l =
      (0, Some (mk_cache po pl pc path doffs (Z.of_nat (length l)) (Z.of_nat (length l)) f)) /\
    pages_stored (doffs * PAGE_SIZE) isize l f /\ (l = [] -> f = f0).
Proof.
  intros Hdo Hs Hd. induction l as [|[i buf] l IH] using rev_ind; intros Hok.
  { exists f0. split; [done|]. split; [by apply pages_stored_nil|done]. }
  destruct IH as (f&Hf&Hps&Hnil); [by apply Forall_app in Hok as [? _]|].
  destruct (pages_stored_write (doffs * PAGE_SIZE) isize l f i buf) as (f'&Hw&Hps'); [unfold PAGE_SIZE; lia| | |done|done|].
  { unfold PAGE_SIZE. by rewrite Z.mod_mul. } { intros ->. by rewrite Hnil. }
  exists f'. split; [|split; [done|]].
  2: { intros E. by apply app_eq_nil in E as [_ ?]. }
  unfold stash_pages in *. rewrite foldl_snoc, Hf. unfold stash_step. cbn [fst snd Z.eqb].
  unfold hmdfs_stash_writepage, hmdfs_stash_write_local_file. cbn [ci_data_offs ci_cache_file].
  unfold HMDFS_STASH_BLK_SHIFT. rewrite !Z.shiftl_mul_pow2 by lia. change (2 ^ 12) with PAGE_SIZE.
  rewrite (wrap_small 32) by (unfold PAGE_SIZE; lia). rewrite (Z.add_comm (i * _)), Hw, Z.eqb_refl.
  unfold with_file. cbn -[Z.of_nat Z.add]. rewrite length_app, Nat2Z.inj_add. done.
Qed.

(** ** The head *)

Lemma encode_app st1 st2 env : encode (st1 ++ st2) env = encode st1 env ++ encode st2 env.
Proof. induction st1 as [|[g w] st1 IH]; [done|]. cbn [app]. rewrite !encode_cons, IH. apply app_assoc. Qed.

Definition head_prefix : layout := take 14 hmdfs_cache_file_head.

Lemma head_take env : take (Z.to_nat CRC_OFFSET) (encode hmdfs_cache_file_head env) = encode head_prefix env.
Proof.
  change hmdfs_cache_file_head with (head_prefix ++ [("crc32", 4%nat)]). rewrite encode_app.
  apply take_app_length'. by rewrite length_encode.
Qed.

Lemma head_shape (c : hmdfs_cache_info) ino :
  exists env, hmdfs_set_stash_file_head crc32 c ino = encode hmdfs_cache_file_head env /\
    env "magic" = HMDFS_STASH_FILE_HEAD_MAGIC /\ env "crc_offset" = CRC_OFFSET /\ env "ino" = ino /\
    env "size" = f_size (ci_cache_file c) /\ env "blocks" = Z.shiftl (ci_written_pgs c) 3 /\
    env "path_offs" = ci_path_offs c /\ env "path_len" = ci_path_len c /\ env "path_cnt" = ci_path_cnt c /\
    env "data_offs" = ci_data_offs c /\
    env "crc32" = crc32 (take (Z.to_nat CRC_OFFSET) (encode hmdfs_cache_file_head env)).
Proof.
  unfold hmdfs_set_stash_file_head. rewrite <- encode_zero.
  assert (Hput : forall kvs env, Forall (fun kv => kv.1 ∈ map fst hmdfs_cache_file_head) kvs ->
    put_all hmdfs_cache_file_head kvs (encode hmdfs_cache_file_head env) =
      encode hmdfs_cache_file_head (foldl (fun env kv => Protocol.upd env kv.1 kv.2) env kvs)).
  { intros kvs env Hk. rewrite <- (app_nil_r (encode _ env)), put_all_encode, app_nil_r; [done| |done].
    apply (bool_decide_unpack _). by vm_compute. }
  cbv zeta. rewrite Hput by (repeat constructor; cbn; set_solver).
  rewrite Hput by (repeat constructor; cbn; set_solver).
  eexists. split; [done|]. repeat (split; [done|]). rewrite !head_take. cbn [foldl fst snd].
  unfold Protocol.upd at 1. rewrite String.eqb_refl. f_equal.
Qed.

(** ** Reading the head back *)

(** The file after its metadata was flushed: head, path and pages. *)
Lemma flush_ok c ino B isize l :
  ci_path c <> [] -> Forall is_byte (ci_path c) -> ci_path_len c = Z.of_nat (length (ci_path c)) + 1 ->
  ci_path_len c <= PAGE_SIZE -> ci_path_offs c = 1 -> B = 2 * PAGE_SIZE -> l <> [] ->
  Forall (page_ok isize) l -> pages_stored B isize l (ci_cache_file c) ->
  let head := hmdfs_set_stash_file_head crc32 c ino in
  exists f, hmdfs_flush_stash_file_metadata crc32 (Some c) ino = (0, Some (with_file c f)) /\
    f_size f = f_size (ci_cache_file c) /\ range f 0 84 = head /\
    range f PAGE_SIZE (ci_path_len c) = ci_path c ++ [0] /\ pages_stored B isize l f.
Proof.
  intros Hp Hpb Hpl Hle Hpo HB Hl Hok Hps head. unfold hmdfs_flush_stash_file_metadata.
  destruct (length (ci_path c) =? 0)%nat eqn:E0; [apply Nat.eqb_eq, nil_length_inv in E0; done|].
  destruct (head_shape c ino) as (env&Eh&_). fold head in Eh. fold head.
  assert (Hlh : length head = 84%nat) by (rewrite Eh, length_encode; done).
  assert (Hhb : Forall is_byte head).
  { rewrite Eh. unfold encode. apply Forall_concat, Forall_fmap, Forall_true. intros q. apply le_enc_bytes. }
  pose proof (ps_size _ _ _ _ Hps Hl) as Hsz.
  destruct (write_spec (ci_cache_file c) 0 head) as (f1&Hw1&Hs1&Hb1&Hd1); [lia|by intros ->|done|].
  rewrite Hw1, Hlh. change (Z.of_nat 84 =? sizeof hmdfs_cache_file_head) with true. cbn [negb].
  rewrite Hpo. change (Z.shiftl 1 HMDFS_STASH_BLK_SHIFT) with PAGE_SIZE.
  assert (Hlp : length (ci_path c ++ [0]) = Z.to_nat (ci_path_len c)) by (rewrite length_app; cbn; lia).
  rewrite take_ge by lia.
  destruct (write_spec f1 PAGE_SIZE (ci_path c ++ [0])) as (f&Hw&Hs2&Hb2&Hd2);
    [done|by destruct (ci_path c)|by apply Forall_app; split; [done|repeat constructor]|].
  rewrite Hw, Hlp, Z2Nat.id, Z.eqb_refl by lia. rewrite Hlp in Hs2, Hd2. rewrite Z2Nat.id in Hs2, Hd2 by lia.
  rewrite Hlh in Hs1, Hd1. exists f. split; [done|].
  unfold PAGE_SIZE in *. assert (Hfs : f_size f = f_size (ci_cache_file c)) by lia.
  assert (Hfb : forall x, 2 * 4096 <= x -> f_byte f x = f_byte (ci_cache_file c) x).
  { intros x Hx. rewrite Hb2, over_out, Hb1, over_out; [done|lia..]. }
  split; [done|]. split; [|split; [|split]].
  - change 84 with (Z.of_nat 84). rewrite <- Hlh. erewrite (range_ext f1 f); [by apply (range_over (ci_cache_file c))|].
    intros x Hx. rewrite Hb2. apply over_out. lia.
  - replace (ci_path_len c) with (Z.of_nat (length (ci_path c ++ [0]))) by lia. by apply (range_over f1).
  - intros _. rewrite Hfs. by apply (ps_size _ _ _ _ Hps).
  - intros p Hin. rewrite Hfs. by apply (ps_inside _ _ _ _ Hps).
  - intros b Hb. rewrite <- (ps_data _ _ _ _ Hps b Hb), Hd2, Hd1.
    assert (Hno : forall q n, q + n <= 2 * 4096 -> touches q n b = false).
    { intros q n Hq. unfold touches, HMDFS_STASH_BLK_SIZE. unfold PAGE_SIZE in Hb. by rewrite (proj2 (Z.ltb_ge _ _)) by lia. }
    by rewrite !Hno, !orb_false_r by lia.
  - intros i buf k Hlast Hk. destruct (last_page_in _ _ _ Hlast) as (p&Hin&<-).
    rewrite <- (ps_bytes _ _ _ _ Hps p.1 buf k Hlast Hk). apply Hfb.
    apply (proj1 (list.Forall_forall _ _) Hok) in Hin as (?&_). unfold PAGE_SIZE. lia.
Qed.

(** What was written verifies, under the inode's number and no other. *)
Lemma metadata_back f c ino inum :
  range f 0 84 = hmdfs_set_stash_file_head crc32 c ino -> f_size f = f_size (ci_cache_file c) ->
  (forall b, 0 <= crc32 b < 2 ^ 32) -> 0 <= ino < 2 ^ 64 ->
  ci_path c <> [] -> Forall is_byte (ci_path c) -> nul_free (ci_path c) ->
  ci_path_len c = Z.of_nat (length (ci_path c)) + 1 -> ci_path_len c <= PAGE_SIZE ->
  ci_path_offs c = 1 -> ci_path_cnt c = 1 -> ci_data_offs c = 2 -> 0 <= ci_written_pgs c < 2 ^ 60 ->
  2 * PAGE_SIZE < f_size f < 2 ^ 63 -> range f PAGE_SIZE (ci_path_len c) = ci_path c ++ [0] ->
  hmdfs_get_restore_file_metadata crc32 f inum =
    Some (if decide (ino = inum) then (0, mk_meta (ci_written_pgs c) 2 (ci_path c)) else (- EUCLEAN, no_meta)).
Proof.
  intros Hh Hsz Hcrc Hino Hp Hpb Hnf Hpl Hle Hpo Hpc Hdo Hw Hs Hpr.
  destruct (head_shape c ino) as (env&Eh&E1&E2&E3&E4&E5&E6&E7&E8&E9&E10). rewrite Eh in Hh.
  assert (Hco : le_dec (range f 4 4) = CRC_OFFSET).
  { pose proof (fld_encode hmdfs_cache_file_head env [] "crc_offset" 4 4 eq_refl) as Hf.
    rewrite app_nil_r, <- Hh, (head_field_some _ "crc_offset" 4 4), E2 in Hf by (done || (rewrite ?length_range; cbn; lia)).
    apply (inj Some) in Hf. by rewrite sub_range in Hf by lia. }
  unfold hmdfs_get_restore_file_metadata. rewrite read_exact_range by (unfold PAGE_SIZE in *; lia).
  cbv zeta. fold (head_1 f). rewrite (head_crc_offset f 0 (head_1 f)), Hco by auto. cbn [mbind option_bind].
  change (sizeof hmdfs_cache_file_head <? CRC_OFFSET + 4) with false. cbv iota.
  change (u32 (CRC_OFFSET + 4)) with 84. rewrite read_exact_range by (unfold PAGE_SIZE in *; lia).
  assert (Hh2 : memcpy_at 0 (range f 0 84) (head_1 f) = encode hmdfs_cache_file_head env ++ []).
  { rewrite memcpy_at_0, Hh. done. }
  rewrite Hh2. unfold hmdfs_verify_restore_file_head.
  rewrite (fld_encode _ env [] "magic" 0 4), E1, (fld_encode _ env [] "crc_offset" 4 4), E2 by done.
  cbn [mbind option_bind]. change (CRC_OFFSET mod _) with 80.
  change (HMDFS_STASH_FILE_HEAD_MAGIC mod _ =? _) with true. cbn [negb].
  change (Z.to_nat 80) with 80%nat. change (read_le (encode hmdfs_cache_file_head env ++ []) 80 4)
    with (fld hmdfs_cache_file_head (encode hmdfs_cache_file_head env ++ []) "crc32").
  rewrite (fld_encode _ env [] "crc32" 80 4), E10 by done. cbn [mbind option_bind].
  rewrite app_nil_r. change (Z.to_nat CRC_OFFSET) with 80%nat.
  rewrite Z.mod_small, Z.eqb_refl by apply Hcrc. cbn [negb]. rewrite <- (app_nil_r (encode _ env)).
  rewrite (fld_encode _ env [] "ino" 8 8), E3 by done. cbn [mbind option_bind].
  rewrite (Z.mod_small ino) by done. case_decide as Hi; [|by rewrite (proj2 (Z.eqb_neq _ _))].
  rewrite (proj2 (Z.eqb_eq _ _)) by done. cbn [negb].
  rewrite (fld_encode _ env [] "path_offs" 64 4), E6, Hpo by done. cbn [mbind option_bind].
  change (Z.shiftl (1 mod _) _) with 4096. unfold PAGE_SIZE in *.
  rewrite (proj2 (Z.leb_gt (f_size f) 4096)) by lia. cbn [Z.leb Z.compare Pos.compare orb].
  rewrite (fld_encode _ env [] "data_offs" 76 4), E9, Hdo by done. cbn [mbind option_bind].
  change (Z.shiftl (2 mod _) _) with 8192. rewrite (proj2 (Z.leb_gt (f_size f) 8192)) by lia.
  cbn [Z.leb Z.compare Pos.compare Pos.compare_cont orb].
  rewrite (fld_encode _ env [] "size" 16 8), E4, <- Hsz by done. cbn [mbind option_bind].
  change (256 ^ Z.of_nat 8) with (2 ^ 64).
  rewrite (Z.mod_small (f_size f)), (swrap_small 64), Z.eqb_refl by lia. cbn [negb].
  rewrite (fld_encode _ env [] "path_cnt" 72 4), E8, Hpc by done. cbn [mbind option_bind].
  change (1 mod _ <? 1) with false. cbn [negb Z.eqb].
  rewrite (fld_encode _ env [] "blocks" 24 8), E5, (fld_encode _ env [] "path_len" 68 4), E7 by done.
  cbn [mbind option_bind]. rewrite Z.shiftl_mul_pow2 by lia.
  change (256 ^ Z.of_nat 8) with (2 ^ 64). change (256 ^ Z.of_nat 4) with (2 ^ 32).
  rewrite (Z.mod_small (ci_written_pgs c * 2 ^ 3)), (Z.mod_small (ci_path_len c)) by lia.
  unfold PATH_MAX. rewrite Z.min_l by lia. rewrite read_exact_range, Hpr by lia.
  rewrite (strnlen_eq _ _ (length (ci_path c))).
  - rewrite (proj2 (Z.leb_gt _ _)) by lia. rewrite take_app_length. do 2 f_equal. f_equal.
    unfold HMDFS_STASH_PAGE_TO_SECTOR_SHIFT. rewrite Z.shiftr_div_pow2 by lia. apply Z.div_mul. lia.
  - lia.
  - by rewrite lookup_app_r, Nat.sub_diag.
  - intros i b Hib. rewrite lookup_app_l by done. by apply (Forall_lookup_1 _ _ _ _ Hnf).
Qed.

(** Byte [y] of a remote file [d] with the pages [l] of a file of [isize] bytes written over it. *)
Definition with_pages (isize : Z) (l : list (Z * bytes)) (d : Z -> Z) (y : Z) : Z :=
  match last_page l (y / PAGE_SIZE) with
  | Some buf => if (0 <=? y) && (y <? isize) then default 0 (buf !! Z.to_nat (y mod PAGE_SIZE)) else d y
  | None => d y
  end.

Lemma restored_pages B isize l f (d : Z -> Z) y :
  0 <= B -> B mod PAGE_SIZE = 0 -> l <> [] -> Forall (page_ok isize) l -> pages_stored B isize l f ->
  (if restored f B B y then f_byte f (B + y) else d y) = with_pages isize l d y.
Proof.
  intros HB Ha Hl Hok Hps. pose proof (ps_size _ _ _ _ Hps Hl) as Hsz. unfold restored, with_pages.
  assert (Hdiv : (B + y) / HMDFS_STASH_BLK_SIZE * PAGE_SIZE = B + y / PAGE_SIZE * PAGE_SIZE).
  { unfold HMDFS_STASH_BLK_SIZE, PAGE_SIZE in *. pose proof (Z.div_mod B 4096 ltac:(lia)).
    replace (B + y) with (y + B / 4096 * 4096) by lia. rewrite Z.div_add by lia. lia. }
  pose proof (Z.div_mod y PAGE_SIZE ltac:(done)) as Hdm. pose proof (Z.mod_pos_bound y PAGE_SIZE ltac:(done)) as Hm.
  destruct (0 <=? y) eqn:Ey; zb.
  2: { rewrite (proj2 (Z.leb_gt B (B + y))) by lia. cbn. by destruct (last_page _ _). }
  rewrite (proj2 (Z.leb_le B (B + y))) by lia. cbn [andb].
  assert (Hy : 0 <= y / PAGE_SIZE) by (apply Z.div_pos; done).
  assert (Hblk : B <= (B + y) / HMDFS_STASH_BLK_SIZE * PAGE_SIZE) by (unfold PAGE_SIZE in *; lia).
  destruct (last_page l (y / PAGE_SIZE)) as [buf|] eqn:Elast.
  - destruct (last_page_in _ _ _ Elast) as (p&Hin&Ep).
    pose proof (proj1 (list.Forall_forall _ _) Hok p Hin) as (Hp0&Hp1&_).
    pose proof (ps_inside _ _ _ _ Hps p Hin) as Hins. rewrite (writecount_spec p.1 isize Hp0 Hp1), Ep in Hins.
    rewrite (proj2 (ps_data _ _ _ _ Hps _ Hblk)), andb_true_r by (exists p; split; [done|]; lia).
    destruct (y <? isize) eqn:Ei; zb.
    + rewrite (proj2 (Z.ltb_lt _ _)) by lia. replace (B + y) with (B + y / PAGE_SIZE * PAGE_SIZE + y mod PAGE_SIZE) by lia.
      apply (ps_bytes _ _ _ _ Hps _ _ _ Elast). rewrite <- Ep in *. rewrite writecount_spec by done. lia.
    + by rewrite (proj2 (Z.ltb_ge _ _)) by lia.
  - destruct (f_data f _) eqn:Ed; [|by rewrite andb_false_r].
    apply (ps_data _ _ _ _ Hps _ Hblk) in Ed as (p&Hin&Ep).
    destruct (last_page_none _ _ Elast p Hin). unfold PAGE_SIZE in *. lia.
Qed.

(** The cache hmdfs_new_file_cache makes of a new file and a path. *)
Definition fresh_cache (path : bytes) (f0 : F) : hmdfs_cache_info :=
  mk_cache 1 (Z.of_nat (length path) + 1) 1 path 2 0 0 f0.

Lemma new_cache_fresh path f0 :
  Z.of_nat (length path) < PATH_MAX -> hmdfs_new_file_cache true true (Some (inr path)) (inr f0) = inr (fresh_cache path f0).
Proof.
  intros Hpl. unfold PATH_MAX in Hpl.
  assert (Hround : DIV_ROUND_UP (Z.of_nat (length path) + 1) HMDFS_STASH_BLK_SIZE = 1).
  { unfold DIV_ROUND_UP, HMDFS_STASH_BLK_SIZE. symmetry.
    apply (Z.div_unique _ _ _ (Z.of_nat (length path))); lia. }
  unfold hmdfs_new_file_cache. cbn [andb negb]. by rewrite Hround.
Qed.

(** A new file, a path, the pages of a file and its number that can be stashed. *)
Record stashable (f0 : F) (path : bytes) (isize : Z) (l : list (Z * bytes)) (ino : Z) : Prop := {
  sb_size : f_size f0 = 0;
  sb_data b : f_data f0 b = false;
  sb_crc b : 0 <= crc32 b < 2 ^ 32;
  sb_path : path <> [] /\ Forall is_byte path /\ nul_free path /\ Z.of_nat (length path) < PATH_MAX;
  sb_pages : l <> [] /\ Forall (page_ok isize) l /\ Z.of_nat (length l) < 2 ^ 60;
  sb_isize : isize < 2 ^ 62;
  sb_ino : 0 <= ino < 2 ^ 64
}.

(** From the pages to the stash file and back. *)
Lemma stash_chain f0 path isize l ino :
  stashable f0 path isize l ino ->
  exists c1 c2, stash_pages isize (fresh_cache path f0) l = (0, Some c1) /\
    hmdfs_flush_stash_file_metadata crc32 (Some c1) ino = (0, Some c2) /\
    ci_to_write_pgs c2 = Z.of_nat (length l) /\ ci_written_pgs c2 = Z.of_nat (length l) /\
    (forall inum, hmdfs_get_restore_file_metadata crc32 (ci_cache_file c2) inum =
       Some (if decide (ino = inum) then (0, mk_meta (Z.of_nat (length l)) 2 path) else (- EUCLEAN, no_meta))) /\
    forall offlined (d : Z -> Z), exists d',
      hmdfs_copy_src_to_dst accept_write offlined (ci_cache_file c2) 2 d = Some (0, d') /\
      forall y, d' y = with_pages isize l d y.
Proof.
  intros [Hs0 Hd0 Hcrc (Hp&Hpb&Hnf&Hpl) (Hl&Hok&Hll) His Hino]. unfold PATH_MAX in Hpl.
  destruct (stash_pages_ok isize 1 (Z.of_nat (length path) + 1) 1 path 2 f0 l) as (f1&Hst&Hps&_);
    [lia|unfold PAGE_SIZE; lia|done|done|].
  set (c1 := mk_cache _ _ _ _ _ _ _ f1) in Hst.
  destruct (flush_ok c1 ino (2 * PAGE_SIZE) isize l) as (f&Hfl&Hsz&Hh&Hpr&Hpsf); try done.
  { cbn. unfold PAGE_SIZE. lia. }
  exists c1, (with_file c1 f). do 4 (split; [done|]). cbn [ci_cache_file with_file].
  pose proof (ps_size _ _ _ _ Hpsf Hl) as Hsize.
  split.
  - intros inum. rewrite (metadata_back f c1 ino inum); try done; cbn; unfold PAGE_SIZE in *; lia.
  - intros offlined d. destruct (copy_spec offlined f 2 d ltac:(lia)) as (d'&Hc&Hd'). exists d'. split; [exact Hc|].
    intros y. cbv zeta in Hd'. rewrite Hd'. change (2 * HMDFS_STASH_BLK_SIZE) with (2 * PAGE_SIZE).
    by apply restored_pages.
Qed.

(** A stash file that the code accepts is well formed. For any file, reading the metadata
    never reads outside of the head's buffer and answers 0, -EUCLEAN or -ENODATA; when it
    answers 0, the checksum over the head is right, the data starts inside of the file, and
    the path is a NUL-terminated string of fewer than PATH_MAX bytes stored in front of it. *)
Theorem restore_metadata_checked f inum :
  exists err m, hmdfs_get_restore_file_metadata crc32 f inum = Some (err, m) /\
    (err = 0 \/ err = - EUCLEAN \/ err = - ENODATA) /\ (err = 0 -> verified f m).
Proof. apply metadata_spec. Qed.

(** Stashing and restoring is a round trip. Pages of a remote file written back into a new
    stash file, whose metadata is then flushed, are all accepted; the metadata reads back as
    the path and the number of pages, under the inode's number only; and copying the file to
    the remote one, whatever it holds now, sets exactly the bytes of the stashed pages below
    the file's size, to what each page held when it was last written back. *)
Theorem stash_restore_roundtrip f0 path isize l ino offlined (d : Z -> Z) :
  stashable f0 path isize l ino ->
  exists c c1 c2,
    hmdfs_new_file_cache true true (Some (inr path)) (inr f0) = inr c /\
    stash_pages isize c l = (0, Some c1) /\
    hmdfs_flush_stash_file_metadata crc32 (Some c1) ino = (0, Some c2) /\
    (forall inum, hmdfs_get_restore_file_metadata crc32 (ci_cache_file c2) inum =
       Some (if decide (ino = inum) then (0, mk_meta (Z.of_nat (length l)) (ci_data_offs c) path)
             else (- EUCLEAN, no_meta))) /\
    exists d', hmdfs_copy_src_to_dst accept_write offlined (ci_cache_file c2) (ci_data_offs c) d = Some (0, d') /\
      forall y, d' y = with_pages isize l d y.
Proof.
  intros Hb. destruct (stash_chain f0 path isize l ino Hb) as (c1&c2&H1&H2&_&_&H3&H4).
  exists (fresh_cache path f0), c1, c2. split; [by apply new_cache_fresh, (sb_path _ _ _ _ _ Hb)|].
  split; [done|]. split; [done|]. split; [done|]. apply H4.
Qed.

End Laws.

(** A file system without errors in memory, and a sum in place of the checksum. *)
Definition sum32 (b : bytes) : Z := u32 (foldr Z.add 0 b).

Lemma restore_metadata_checked_witness :
  exists m, hmdfs_get_restore_file_metadata sum32 empty_sparse 5 = Some (- ENODATA, m).
Proof.
  destruct (restore_metadata_checked sum32 empty_sparse 5) as (err&m&E&_&_). exists m. rewrite E.
  vm_compute in E. injection E as <- <-. done.
Defined.

(** One page, at index 1, of a file of 5,000 bytes. *)
Lemma stash_restore_roundtrip_witness :
  exists c c1 c2, stash_pages 5000 c [(1, replicate 4096 7)] = (0, Some c1) /\
    hmdfs_flush_stash_file_metadata sum32 (Some c1) 66 = (0, Some c2) /\
    exists d', hmdfs_copy_src_to_dst accept_write (fun _ => false) (ci_cache_file (F:=memsparse) c2)
        (ci_data_offs c) (fun _ => 1) = Some (0, d') /\
      d' 4095 = 1 /\ d' 4096 = 7 /\ d' 4999 = 7 /\ d' 5000 = 1.
Proof.
  assert (Hb : stashable sum32 empty_sparse [47; 97] 5000 [(1, replicate 4096 7)] 66).
  { split; [done|done|by intros; apply (wrap_range 32)| | |done|done].
    - split; [done|]. split; [repeat constructor; done|]. split; [repeat constructor; done|done].
    - split; [done|]. split; [|done]. constructor; [|constructor]. split; [done|]. split; [done|]. split; [done|].
      by apply Forall_replicate. }
  destruct (stash_restore_roundtrip sum32 empty_sparse [47; 97] 5000 [(1, replicate 4096 7)] 66 (fun _ => false)
    (fun _ => 1) Hb) as (c&c1&c2&_&H1&H2&_&d'&H3&H4).
  exists c, c1, c2. split; [exact H1|]. split; [exact H2|]. exists d'. split; [exact H3|].
  rewrite !H4. by vm_compute.
Defined.
