(* ===== verification/Stash.v ===== *)
(** Offline stash (stash.c and the tracking of writers in file_remote.c): while a device is
    away, the pages of the files open for writing go to stash files; when it is back, they are
    copied to the remote files. An inode is NONE, STASHING or RESTORING. Inodes are on a heap
    with their reference counts, and an access to a freed one has no result. *)
From S2P Require Import Prelude Protocol CacheName StashFile.

Inductive stash_status := HMDFS_REMOTE_INODE_NONE | HMDFS_REMOTE_INODE_STASHING | HMDFS_REMOTE_INODE_RESTORING.
#[export] Instance stash_status_dec : EqDecision stash_status.
Proof. solve_decision. Defined.

(** ** Statistics (unsigned counters) *)

Record hmdfs_stash_stats := mk_sstats {
  ss_succeed : Z; ss_donothing : Z; ss_fail : Z; ss_ok_pages : Z; ss_fail_pages : Z
}.
Definition no_sstats : hmdfs_stash_stats := mk_sstats 0 0 0 0 0.

Record hmdfs_restore_stats := mk_rstats {
  rs_succeed : Z; rs_fail : Z; rs_keep : Z; rs_ok_pages : Z; rs_fail_pages : Z
}.
Definition no_rstats : hmdfs_restore_stats := mk_rstats 0 0 0 0 0.

Definition hmdfs_update_restore_stats (s : hmdfs_restore_stats) (keep : bool) (pages err : Z) : hmdfs_restore_stats :=
  if err =? 0 then mk_rstats (u32 (rs_succeed s + 1)) (rs_fail s) (rs_keep s) (u64 (rs_ok_pages s + pages)) (rs_fail_pages s)
  else if keep then mk_rstats (rs_succeed s) (rs_fail s) (u32 (rs_keep s + 1)) (rs_ok_pages s) (rs_fail_pages s)
  else mk_rstats (rs_succeed s) (u32 (rs_fail s + 1)) (rs_keep s) (rs_ok_pages s) (u64 (rs_fail_pages s + pages)).

(** The table of inode numbers is a page: a count, a maximum and the numbers. *)
Definition INODE_TBL_MAX := (PAGE_SIZE - 8) / 8.

(** hmdfs_fill_stash_file over the entries of a directory: the inode numbers, at most the
    table's size. *)
Fixpoint fill_table (max : nat) (entries : list (bytes * Z)) : list Z :=
  match entries with
  | [] => []
  | (name, d_type) :: entries =>
      match hmdfs_parse_stash_file_name name d_type with
      | None => fill_table max entries
      | Some inum => match max with O => [] | S max => inum :: fill_table max entries end
      end
  end.

(** hmdfs_has_stash_file stops at the first stash file. *)
Definition has_stash_file (entries : list (bytes * Z)) : bool :=
  existsb (fun e => match hmdfs_parse_stash_file_name e.1 e.2 with Some _ => true | None => false end) entries.

Section Stash.
Context {F : Type} `{SparseFile F} (crc32 : bytes -> Z).
Abbreviation cache_info := (@hmdfs_cache_info F).

Definition hmdfs_update_stash_stats (s : hmdfs_stash_stats) (cache : option cache_info) (err : Z) : hmdfs_stash_stats :=
  let '(ok_pages, fail_pages) :=
    match cache with
    | Some c => let ok := if 0 <? err then ci_written_pgs c else 0 in (ok, ci_to_write_pgs c - ok)
    | None => (0, 0)
    end in
  mk_sstats (if 0 <? err then u32 (ss_succeed s + 1) else ss_succeed s)
    (if err =? 0 then u32 (ss_donothing s + 1) else ss_donothing s)
    (if err <? 0 then u32 (ss_fail s + 1) else ss_fail s)
    (u64 (ss_ok_pages s + ok_pages)) (u64 (ss_fail_pages s + fail_pages)).

(** The part of struct hmdfs_inode_info the stash uses; [si_count] is the inode's reference
    count. *)
Record sinode := mk_si {
  si_remote_ino : Z;
  si_status : stash_status;
  si_cache : option cache_info;
  si_wr_opened_cnt : Z;
  si_need_open : bool;
  si_count : Z
}.

(** The stash part of struct hmdfs_peer, and the stash files of its directory by inode number. *)
Record stash_peer := mk_stash_peer {
  inodes : gmap Z sinode;
  wr_opened_inode_list : list Z;
  stashed_inode_list : list Z;
  stashed_inode_nr : Z;
  need_rebuild_stash_list : bool;
  stash_dir : gmap Z F
}.

Definition new_peer : stash_peer := mk_stash_peer ∅ [] [] 0 false ∅.

Definition set_inodes (p : stash_peer) (m : gmap Z sinode) : stash_peer :=
  mk_stash_peer m (wr_opened_inode_list p) (stashed_inode_list p) (stashed_inode_nr p) (need_rebuild_stash_list p) (stash_dir p).
Definition set_wr_list (p : stash_peer) (l : list Z) : stash_peer :=
  mk_stash_peer (inodes p) l (stashed_inode_list p) (stashed_inode_nr p) (need_rebuild_stash_list p) (stash_dir p).
Definition set_stashed (p : stash_peer) (l : list Z) (nr : Z) : stash_peer :=
  mk_stash_peer (inodes p) (wr_opened_inode_list p) l nr (need_rebuild_stash_list p) (stash_dir p).
Definition set_rebuild (p : stash_peer) (b : bool) : stash_peer :=
  mk_stash_peer (inodes p) (wr_opened_inode_list p) (stashed_inode_list p) (stashed_inode_nr p) b (stash_dir p).
Definition set_dir (p : stash_peer) (d : gmap Z F) : stash_peer :=
  mk_stash_peer (inodes p) (wr_opened_inode_list p) (stashed_inode_list p) (stashed_inode_nr p) (need_rebuild_stash_list p) d.

Definition with_status (i : sinode) (st : stash_status) (c : option cache_info) (need_open : bool) : sinode :=
  mk_si (si_remote_ino i) st c (si_wr_opened_cnt i) need_open (si_count i).
Definition with_wr (i : sinode) (n : Z) : sinode :=
  mk_si (si_remote_ino i) (si_status i) (si_cache i) n (si_need_open i) (si_count i).
Definition with_count (i : sinode) (n : Z) : sinode :=
  mk_si (si_remote_ino i) (si_status i) (si_cache i) (si_wr_opened_cnt i) (si_need_open i) n.

(** Updating a live inode. *)
Definition upd_inode (p : stash_peer) (a : Z) (f : sinode -> sinode) : option stash_peer :=
  i ← inodes p !! a; Some (set_inodes p (<[a := f i]> (inodes p))).

Definition ihold (p : stash_peer) (a : Z) : option stash_peer := upd_inode p a (fun i => with_count i (si_count i + 1)).

(** The last reference frees the inode. *)
Definition iput (p : stash_peer) (a : Z) : option stash_peer :=
  i ← inodes p !! a;
  Some (set_inodes p (if si_count i - 1 =? 0 then delete a (inodes p)
                      else <[a := with_count i (si_count i - 1)]> (inodes p))).

(** ** Tracking the writers (file_remote.c) *)

Definition hmdfs_remote_add_wr_opened_inode_nolock (p : stash_peer) (a : Z) : option stash_peer :=
  if bool_decide (a ∈ wr_opened_inode_list p) then upd_inode p a (fun i => with_wr i (si_wr_opened_cnt i + 1))
  else
    p ← upd_inode p a (fun i => with_wr i 1);
    Some (set_wr_list p (wr_opened_inode_list p ++ [a])).

Definition hmdfs_remote_del_wr_opened_inode (p : stash_peer) (a : Z) : option stash_peer :=
  i ← inodes p !! a;
  p ← upd_inode p a (fun i => with_wr i (si_wr_opened_cnt i - 1));
  Some (if si_wr_opened_cnt i - 1 =? 0
        then set_wr_list p (filter (fun x => x <> a) (wr_opened_inode_list p)) else p).

(** hmdfs_file_open_remote and hmdfs_file_release_remote of a writable file, with the
    reference the open file holds. *)
Definition open_writable (p : stash_peer) (a : Z) : option stash_peer :=
  p ← ihold p a; hmdfs_remote_add_wr_opened_inode_nolock p a.
Definition release_writable (p : stash_peer) (a : Z) : option stash_peer :=
  p ← hmdfs_remote_del_wr_opened_inode p a; iput p a.

(** ** Going offline *)

(** The loop of hmdfs_stash_fetch_ready_files over the list [l]. *)
Fixpoint fetch_loop (p : stash_peer) (l : list Z) : option (list Z * stash_peer) :=
  match l with
  | [] => Some ([], p)
  | a :: l =>
      i ← inodes p !! a;
      if decide (si_status i = HMDFS_REMOTE_INODE_NONE) then
        p ← hmdfs_remote_add_wr_opened_inode_nolock p a;
        p ← ihold p a;
        '(ready, p) ← fetch_loop p l;
        Some (a :: ready, p)
      else fetch_loop p l
  end.

Definition hmdfs_stash_fetch_ready_files (p : stash_peer) : option (list Z * stash_peer) := fetch_loop p (wr_opened_inode_list p).

(** [cache] is the result of hmdfs_new_file_cache. *)
Definition hmdfs_init_stash_file_cache (p : stash_peer) (a : Z) (cache : Z + cache_info) : option stash_peer :=
  upd_inode p a (fun i => with_status i HMDFS_REMOTE_INODE_STASHING
    (match cache with inr c => Some c | inl _ => None end) (si_need_open i)).

(** The loop of hmdfs_init_cache_for_stash_files. *)
Fixpoint init_loop (p : stash_peer) (l : list Z) (cache : Z -> Z + cache_info) : option stash_peer :=
  match l with
  | [] => Some p
  | a :: l => p ← hmdfs_init_stash_file_cache p a (cache a); init_loop p l cache
  end.

Definition hmdfs_stash_offline_prepare (p : stash_peer) (enabled : bool) (cache : Z -> Z + cache_info) : option stash_peer :=
  if negb enabled then Some p
  else '(preparing, p) ← hmdfs_stash_fetch_ready_files p; init_loop p preparing cache.

(** A page of inode [a] that is written back: to the stash file while it is STASHING
    (hmdfs_remote_write_to_remote); [None] as the error sends it to the device. *)
Definition hmdfs_remote_do_writepage (p : stash_peer) (a : Z) (isize index : Z) (buf : bytes) : option (option Z * stash_peer) :=
  i ← inodes p !! a;
  if negb (bool_decide (si_status i = HMDFS_REMOTE_INODE_STASHING)) then Some (None, p)
  else
    let '(err, c) := hmdfs_stash_writepage (si_cache i) index (hmdfs_get_writecount index isize) buf in
    p ← upd_inode p a (fun i => with_status i (si_status i) c (si_need_open i));
    Some (Some err, p).

(** What happens when an inode is stashed: the file's size, the dirty pages the two rounds of
    filemap_write_and_wait write, the results of vfs_fsync and of looking up, unlinking and
    linking in the stash directory. *)
Record stash_env := mk_env {
  se_isize : Z;
  se_dirty1 : list (Z * bytes);
  se_dirty2 : list (Z * bytes);
  se_fsync : Z;
  se_lookup : Z;
  se_unlink : Z;
  se_link : Z
}.

(** filemap_write_and_wait: -EIO when a page could not be written. *)
Fixpoint write_pages (c : option cache_info) (isize : Z) (l : list (Z * bytes)) : Z * option cache_info :=
  match l with
  | [] => (0, c)
  | (index, buf) :: l =>
      let '(err, c) := hmdfs_stash_writepage c index (hmdfs_get_writecount index isize) buf in
      let '(rest, c) := write_pages c isize l in
      ((if err =? 0 then rest else - EIO), c)
  end.

(** The second round runs only when the first succeeded; nothing is written without dirty
    pages. *)
Definition hmdfs_flush_stash_file_data (c : option cache_info) (env : stash_env) : Z * option cache_info :=
  let '(err, c) := write_pages c (se_isize env) (se_dirty1 env) in
  if negb (err =? 0) then (err, c) else write_pages c (se_isize env) (se_dirty2 env).

Definition hmdfs_flush_stash_file (c : option cache_info) (ino : Z) (env : stash_env) : Z * option cache_info :=
  let '(err, c) := hmdfs_flush_stash_file_data c env in
  if err =? 0 then hmdfs_flush_stash_file_metadata crc32 c ino else (err, c).

(** An existing file of that name is unlinked once. *)
Definition hmdfs_enable_stash_file (dir : gmap Z F) (ino : Z) (f : F) (env : stash_env) : Z * gmap Z F :=
  let link dir := if negb (se_link env =? 0) then (se_link env, dir) else (0, <[ino := f]> dir) in
  if negb (se_lookup env =? 0) then (se_lookup env, dir)
  else
    match dir !! ino with
    | None => link dir
    | Some _ =>
        if negb (se_unlink env =? 0) then (se_unlink env, dir)
        else
          let dir := delete ino dir in
          match dir !! ino with None => link dir | Some _ => (- EEXIST, delete ino dir) end
    end.

(** 1 if the stash is done, 0 if nothing is stashed. *)
Definition hmdfs_close_stash_file (dir : gmap Z F) (ino : Z) (c : cache_info) (env : stash_env) : Z * gmap Z F :=
  if ci_to_write_pgs c =? 0 then (0, dir)
  else if negb (se_fsync env =? 0) then ((if se_fsync env <? 0 then se_fsync env else 1), dir)
  else
    let '(err, dir) := hmdfs_enable_stash_file dir ino (ci_cache_file c) env in
    ((if err <? 0 then err else 1), dir).

Definition hmdfs_stash_remote_inode (p : stash_peer) (stats : hmdfs_stash_stats) (a : Z) (env : stash_env) :
    option (Z * hmdfs_stash_stats * stash_peer) :=
  i ← inodes p !! a;
  let '(err, c) := hmdfs_flush_stash_file (si_cache i) (si_remote_ino i) env in
  '(err, dir) ←
    (if err =? 0 then
       match c with
       | Some c => Some (hmdfs_close_stash_file (stash_dir p) (si_remote_ino i) c env)
       | None => None
       end
     else Some (err, stash_dir p));
  let status := if 0 <? err then HMDFS_REMOTE_INODE_RESTORING else HMDFS_REMOTE_INODE_NONE in
  p ← upd_inode (set_dir p dir) a
        (fun i => with_status i status None (if 0 <? err then si_need_open i else true));
  Some (err, hmdfs_update_stash_stats stats c err, p).

Definition hmdfs_track_inode_locked (p : stash_peer) (a : Z) : stash_peer :=
  set_stashed p (stashed_inode_list p ++ [a]) (u32 (stashed_inode_nr p + 1)).

(** The body of the loop of hmdfs_stash_remote_inodes. *)
Definition stash_one (p : stash_peer) (stats : hmdfs_stash_stats) (a : Z) (env : stash_env) :
    option (hmdfs_stash_stats * stash_peer) :=
  '(err, stats, p) ← hmdfs_stash_remote_inode p stats a env;
  let p := if 0 <? err then hmdfs_track_inode_locked p a else p in
  p ← hmdfs_remote_del_wr_opened_inode p a;
  p ← (if 0 <? err then Some p else iput p a);
  Some (stats, p).

Fixpoint hmdfs_stash_remote_inodes (p : stash_peer) (stats : hmdfs_stash_stats) (l : list Z) (env : Z -> stash_env) :
    option (hmdfs_stash_stats * stash_peer) :=
  match l with
  | [] => Some (stats, p)
  | a :: l => '(stats, p) ← stash_one p stats a (env a); hmdfs_stash_remote_inodes p stats l env
  end.

(** The inodes on the list of writers that are STASHING. *)
Definition stashing (p : stash_peer) : list Z :=
  filter (fun a => si_status <$> inodes p !! a = Some HMDFS_REMOTE_INODE_STASHING) (wr_opened_inode_list p).

Definition hmdfs_stash_offline_do_stash (p : stash_peer) (enabled : bool) (cache : Z -> Z + cache_info)
    (env : Z -> stash_env) : option (hmdfs_stash_stats * stash_peer) :=
  if negb enabled then Some (no_sstats, p)
  else
    '(preparing, p) ← hmdfs_stash_fetch_ready_files p;
    p ← init_loop p preparing cache;
    hmdfs_stash_remote_inodes p no_sstats (stashing p) env.

(** ** Coming back online *)

Fixpoint lookup_stash (m : gmap Z sinode) (l : list Z) (inum : Z) : option (option Z) :=
  match l with
  | [] => Some None
  | a :: l => i ← m !! a; if si_remote_ino i =? inum then Some (Some a) else lookup_stash m l inum
  end.

Definition hmdfs_lookup_stash_inode (p : stash_peer) (inum : Z) : option (option Z) :=
  lookup_stash (inodes p) (stashed_inode_list p) inum.

Definition hmdfs_untrack_stashed_inode (p : stash_peer) (a : Z) : option stash_peer :=
  let p := set_stashed p (filter (fun x => x <> a) (stashed_inode_list p)) (stashed_inode_nr p) in
  p ← iput p a;
  Some (set_stashed p (stashed_inode_list p) (u32 (stashed_inode_nr p - 1))).

Definition hmdfs_reset_stashed_inode (p : stash_peer) (a : Z) : option stash_peer :=
  p ← ihold p a;
  p ← hmdfs_untrack_stashed_inode p a;
  p ← upd_inode p a (fun i => with_status i HMDFS_REMOTE_INODE_NONE (si_cache i) (si_need_open i));
  iput p a.

Fixpoint drop_stashed_loop (p : stash_peer) (l : list Z) : option stash_peer :=
  match l with
  | [] => Some p
  | a :: l => p ← hmdfs_reset_stashed_inode p a; drop_stashed_loop p l
  end.

Definition hmdfs_drop_stashed_inodes (p : stash_peer) : option stash_peer := drop_stashed_loop p (stashed_inode_list p).

Section Iter.
Context {D St : Type} (op : stash_peer -> D -> St -> list Z -> option (Z * St * stash_peer * D)).

(** The loop of hmdfs_iter_stash_file with the operation on a table: [batches] is what
    successive calls of iterate_dir yield, an error or the entries that are left. *)
Fixpoint iter_loop (p : stash_peer) (d : D) (stats : St) (batches : list (Z + list (bytes * Z))) :
    option (Z * St * stash_peer * D) :=
  match batches with
  | [] => Some (0, stats, p, d)
  | inl err :: _ => Some (err, stats, p, d)
  | inr entries :: batches =>
      match fill_table (Z.to_nat INODE_TBL_MAX) entries with
      | [] => Some (0, stats, p, d)
      | tbl =>
          '(err, stats, p, d) ← op p d stats tbl;
          if err =? 0 then iter_loop p d stats batches else Some (err, stats, p, d)
      end
  end.

(** [alloc] is whether the table is allocated. *)
Definition hmdfs_iter_stash_file (alloc : bool) (p : stash_peer) (d : D) (stats : St) (batches : list (Z + list (bytes * Z))) :
    option (Z * St * stash_peer * D) :=
  if negb alloc then Some (- ENOMEM, stats, p, d) else iter_loop p d stats batches.

End Iter.

Section Restore.
(** The device as seen through the remote file system: opening a path (an error, or the inode
    and whether it is of the device's view), writing, vfs_fsync, truncate_inode_pages and
    whether it went offline since; and the errors of opening a stash file, of unlinking it
    and of setting the restore up. *)
Context {D : Type} (open_root : D -> bytes -> (Z + Z * bool) * D) (write_iter : Z -> D -> Z -> bytes -> Z * D)
  (fsync : Z -> D -> Z * D) (truncate : Z -> D -> D) (offlined : D -> bool)
  (open_stash unlink_stash : D -> Z -> Z) (init_ctx : D -> Z).

Definition hmdfs_open_restore_dst_file (f : F) (inum : Z) (d : D) : option (Z * restore_meta * option (Z * bool) * D) :=
  '(err, meta) ← hmdfs_get_restore_file_metadata crc32 f inum;
  if negb (err =? 0) then Some (err, meta, None, d)
  else
    match open_root d (rm_dst meta) with
    | (inl err, d) => Some ((if offlined d then - ESHUTDOWN else err), meta, None, d)
    | (inr b, d) => Some (0, meta, Some b, d)
    end.

Definition hmdfs_need_abort_restore (pinned : Z) (opened : Z * bool) : bool :=
  if negb opened.2 then true else negb (opened.1 =? pinned).

(** hmdfs_restore_file of a stash file: the error, whether the file is kept, its pages. The file
    opened at the device counts as a writer of its inode until its last fput, which comes
    later. *)
Definition hmdfs_restore_file (p : stash_peer) (d : D) (inum : Z) (f : F) : option (Z * bool * Z * stash_peer * D) :=
  r ← hmdfs_lookup_stash_inode p inum;
  match r with
  | None => Some (- EINVAL, false, 0, p, d)
  | Some a =>
      i ← inodes p !! a;
      if negb (bool_decide (si_status i = HMDFS_REMOTE_INODE_RESTORING)) then
        p ← hmdfs_reset_stashed_inode p a; Some (- EINVAL, false, 0, p, d)
      else
        p ← upd_inode p a (fun i => with_status i (si_status i) (si_cache i) true);
        '(err, meta, opened, d) ← hmdfs_open_restore_dst_file f inum d;
        match opened with
        | None =>
            if err =? - ESHUTDOWN then Some (err, true, rm_pages meta, p, d)
            else p ← hmdfs_reset_stashed_inode p a; Some (err, false, rm_pages meta, p, d)
        | Some (b, other_remote) =>
            p ← (if other_remote then open_writable p b else Some p);
            if hmdfs_need_abort_restore a (b, other_remote) then
              p ← hmdfs_reset_stashed_inode p a; Some (err, false, rm_pages meta, p, d)
            else
              '(err, d) ← hmdfs_restore_src_to_dst (write_iter b) (fsync b) (truncate b) offlined f (rm_data_offs meta) d;
              if err =? - ESHUTDOWN then Some (err, true, rm_pages meta, p, d)
              else p ← hmdfs_reset_stashed_inode p a; Some (err, false, rm_pages meta, p, d)
        end
  end.

(** The body of the loop of hmdfs_restore_files. The result tells whether the loop goes on. *)
Definition restore_one (p : stash_peer) (d : D) (stats : hmdfs_restore_stats) (inum : Z) :
    option (Z * hmdfs_restore_stats * stash_peer * D) :=
  match stash_dir p !! inum with
  | Some f =>
      if negb (open_stash d inum =? 0) then
        Some (0, mk_rstats (rs_succeed stats) (u32 (rs_fail stats + 1)) (rs_keep stats) (rs_ok_pages stats)
                   (rs_fail_pages stats), p, d)
      else
        '(err, keep, pages, p, d) ← hmdfs_restore_file p d inum f;
        let stats := hmdfs_update_restore_stats stats keep pages err in
        let p := if negb keep && (unlink_stash d inum =? 0) then set_dir p (delete inum (stash_dir p)) else p in
        Some ((if err =? - ESHUTDOWN then err else 0), stats, p, d)
  | None =>
      Some (0, mk_rstats (rs_succeed stats) (u32 (rs_fail stats + 1)) (rs_keep stats) (rs_ok_pages stats)
                 (rs_fail_pages stats), p, d)
  end.

Fixpoint restore_loop (p : stash_peer) (d : D) (stats : hmdfs_restore_stats) (tbl : list Z) :
    option (Z * hmdfs_restore_stats * stash_peer * D) :=
  match tbl with
  | [] => Some (0, stats, p, d)
  | inum :: tbl =>
      '(err, stats, p, d) ← restore_one p d stats inum;
      if negb (err =? 0) then Some (err, stats, p, d) else restore_loop p d stats tbl
  end.

Definition hmdfs_restore_files (p : stash_peer) (d : D) (stats : hmdfs_restore_stats) (tbl : list Z) :
    option (Z * hmdfs_restore_stats * stash_peer * D) :=
  if negb (init_ctx d =? 0) then Some (init_ctx d, stats, p, d) else restore_loop p d stats tbl.

(** Opening the directory and the loop; [dir_err] is the error of opening the directory. *)
Definition restore_run (p : stash_peer) (d : D) (dir_err : Z) (alloc : bool) (batches : list (Z + list (bytes * Z))) :
    option (Z * hmdfs_restore_stats * stash_peer * D) :=
  if negb (dir_err =? 0) then Some (dir_err, no_rstats, p, d)
  else hmdfs_iter_stash_file hmdfs_restore_files alloc p d no_rstats batches.

Definition hmdfs_stash_online_do_restore (p : stash_peer) (d : D) (enabled : bool) (dir_err : Z) (alloc : bool)
    (batches : list (Z + list (bytes * Z))) : option (hmdfs_restore_stats * stash_peer * D) :=
  if negb enabled || need_rebuild_stash_list p then Some (no_rstats, p, d)
  else
    '(err, stats, p, d) ← restore_run p d dir_err alloc batches;
    p ← (if negb (err =? - ESHUTDOWN) then hmdfs_drop_stashed_inodes p else Some p);
    Some (stats, p, d).

End Restore.

(** ** Rebuilding the status after a restart *)

(** hmdfs_remote_init_stash_status of the new inode [a]; [regular] is whether it is a regular
    file or a link. *)
Definition hmdfs_remote_init_stash_status (p : stash_peer) (a : Z) (enabled regular alloc : bool) : option stash_peer :=
  if negb (enabled && need_rebuild_stash_list p && regular && alloc) then Some p
  else
    i ← inodes p !! a;
    match stash_dir p !! si_remote_ino i with
    | None => Some p
    | Some _ =>
        p ← upd_inode p a (fun i => with_status i HMDFS_REMOTE_INODE_RESTORING (si_cache i) (si_need_open i));
        p ← ihold p a;
        Some (hmdfs_track_inode_locked p a)
    end.

(** A new inode with one reference. *)
Definition new_inode (p : stash_peer) (a ino : Z) (enabled regular alloc : bool) : option stash_peer :=
  hmdfs_remote_init_stash_status
    (set_inodes p (<[a := mk_si ino HMDFS_REMOTE_INODE_NONE None 0 false 1]> (inodes p))) a enabled regular alloc.

(** hmdfs_stash_add_do_check: [entries] of the directory, or an error. *)
Definition hmdfs_stash_add_do_check (p : stash_peer) (enabled : bool) (entries : Z + list (bytes * Z)) : stash_peer :=
  match entries with
  | inr l => if enabled && has_stash_file l then set_rebuild p true else p
  | inl _ => p
  end.

(** The end of hmdfs_stash_online_prepare: [err] is the result of opening every stashed file. *)
Definition rebuild_done (p : stash_peer) (err : Z) : stash_peer :=
  if err =? - ESHUTDOWN then p else set_rebuild p false.

(** ** Removing the device *)

Fixpoint cleanup_loop (p : stash_peer) (l : list Z) : option stash_peer :=
  match l with
  | [] => Some p
  | a :: l =>
      i ← inodes p !! a;
      if decide (si_status i = HMDFS_REMOTE_INODE_STASHING) then
        p ← upd_inode p a (fun i => with_status i HMDFS_REMOTE_INODE_NONE None (si_need_open i));
        p ← hmdfs_remote_del_wr_opened_inode p a;
        p ← iput p a;
        cleanup_loop p l
      else cleanup_loop p l
  end.

Fixpoint untrack_loop (p : stash_peer) (l : list Z) : option stash_peer :=
  match l with
  | [] => Some p
  | a :: l => p ← hmdfs_untrack_stashed_inode p a; untrack_loop p l
  end.

Definition hmdfs_stash_del_do_cleanup (p : stash_peer) (enabled : bool) : option stash_peer :=
  if negb enabled then Some p
  else p ← cleanup_loop p (wr_opened_inode_list p); untrack_loop p (stashed_inode_list p).

(** * One inode at a time *)

(** An inode, and whether it is on the list of writers and of stashed inodes. *)
Definition at_ (p : stash_peer) (a : Z) : option sinode * bool * bool :=
  (inodes p !! a, bool_decide (a ∈ wr_opened_inode_list p), bool_decide (a ∈ stashed_inode_list p)).

(** The lists have no duplicates, the counter counts, and inode numbers are unique. *)
Record wf (p : stash_peer) : Prop := {
  wf_wr : NoDup (wr_opened_inode_list p);
  wf_st : NoDup (stashed_inode_list p);
  wf_nr : stashed_inode_nr p = u32 (Z.of_nat (length (stashed_inode_list p)));
  wf_ino a b i j : inodes p !! a = Some i -> inodes p !! b = Some j ->
    si_remote_ino i = si_remote_ino j -> a = b
}.

(** [p'] differs from [p] at inode [a] only, where it is [v]. *)
Record evolves (a : Z) (p p' : stash_peer) (v : option sinode * bool * bool) : Prop := {
  ev_wf : wf p';
  ev_at : at_ p' a = v;
  ev_other x : x <> a -> at_ p' x = at_ p x;
  ev_dir : stash_dir p' = stash_dir p;
  ev_rebuild : need_rebuild_stash_list p' = need_rebuild_stash_list p
}.

Lemma bd_iff (P Q : Prop) `{Decision P, Decision Q} : bool_decide P = bool_decide Q -> P <-> Q.
Proof.
  intros E. split; intros HP; eapply bool_decide_eq_true_1; [rewrite <- E|rewrite E]; by apply bool_decide_eq_true_2.
Qed.

Lemma evolves_refl a p : wf p -> evolves a p p (at_ p a).
Proof. by split. Qed.

Lemma evolves_trans a p1 p2 p3 v w : evolves a p1 p2 v -> evolves a p2 p3 w -> evolves a p1 p3 w.
Proof.
  intros [? ? O1 D1 R1] [? ? O2 D2 R2]. split; [done|done| |congruence|congruence].
  intros x Hx. by rewrite O2, O1.
Qed.

Lemma at_inodes p a i w s : at_ p a = (Some i, w, s) -> inodes p !! a = Some i.
Proof. by intros [=]. Qed.

(** Changing the inode alone. *)
Lemma set_inode_evolves p a i w s i' :
  wf p -> at_ p a = (Some i, w, s) -> si_remote_ino i' = si_remote_ino i ->
  evolves a p (set_inodes p (<[a := i']> (inodes p))) (Some i', w, s).
Proof.
  intros [? ? ? Hino] [= Hi Hw Hs] Hr. split; [|..|done|done].
  - split; [done..|]. intros x y ix iy. cbn. intros [(<-&<-)|(?&?)]%lookup_insert_Some [(<-&<-)|(?&?)]%lookup_insert_Some E;
      [done|..]; eauto; eapply Hino; eauto; congruence.
  - unfold at_. cbn. by rewrite lookup_insert_eq, Hw, Hs.
  - intros x Hx. unfold at_. cbn. by rewrite lookup_insert_ne.
Qed.

Lemma upd_inode_evolves p a i w s f :
  wf p -> at_ p a = (Some i, w, s) -> si_remote_ino (f i) = si_remote_ino i ->
  exists p', upd_inode p a f = Some p' /\ evolves a p p' (Some (f i), w, s).
Proof.
  intros Hwf Ha Hr. unfold upd_inode. rewrite (at_inodes _ _ _ _ _ Ha). cbn. eexists; split; [done|].
  by eapply set_inode_evolves.
Qed.

Lemma ihold_evolves p a i w s :
  wf p -> at_ p a = (Some i, w, s) ->
  exists p', ihold p a = Some p' /\ evolves a p p' (Some (with_count i (si_count i + 1)), w, s).
Proof. intros Hwf Ha. by eapply (upd_inode_evolves p a i). Qed.

Lemma iput_evolves p a i w s :
  wf p -> at_ p a = (Some i, w, s) ->
  exists p', iput p a = Some p' /\
    evolves a p p' (if si_count i - 1 =? 0 then None else Some (with_count i (si_count i - 1)), w, s).
Proof.
  intros Hwf Ha. unfold iput. rewrite (at_inodes _ _ _ _ _ Ha). cbn.
  destruct (si_count i - 1 =? 0); eexists; (split; [done|]).
  - destruct Hwf as [? ? ? Hino]. injection Ha as Hi Hw Hs. split; [|..|done|done].
    + split; [done..|]. intros x y ix iy. cbn. intros [? ?]%lookup_delete_Some [? ?]%lookup_delete_Some. by apply Hino.
    + unfold at_. cbn. by rewrite lookup_delete_eq, Hw, Hs.
    + intros x Hx. unfold at_. cbn. by rewrite lookup_delete_ne.
  - by eapply set_inode_evolves.
Qed.

Lemma add_wr_evolves p a i w s :
  wf p -> at_ p a = (Some i, w, s) ->
  exists p', hmdfs_remote_add_wr_opened_inode_nolock p a = Some p' /\
    evolves a p p' (Some (with_wr i (if w then si_wr_opened_cnt i + 1 else 1)), true, s).
Proof.
  intros Hwf Ha. pose proof Ha as [= Hi Hw Hs]. unfold hmdfs_remote_add_wr_opened_inode_nolock. rewrite Hw.
  destruct w; [by eapply (upd_inode_evolves p a i)|].
  destruct (upd_inode_evolves p a i false s (fun i => with_wr i 1) Hwf Ha eq_refl) as (p1&Hp1&Hev).
  rewrite Hp1. cbn [mbind option_bind]. eexists; split; [done|]. apply bool_decide_eq_false in Hw.
  unfold upd_inode in Hp1. rewrite Hi in Hp1. injection Hp1 as <-. destruct Hev as [[? ? ? ?] Hat Hot ? ?].
  split; [|..|done|done].
  - split; [|done..]. cbn. apply list.NoDup_app. split; [done|]. split; [by intros x Hx ->%list_elem_of_singleton|apply NoDup_singleton].
  - unfold at_ in *. cbn in *. injection Hat as E1 E2 E3. rewrite E1, E3.
    rewrite bool_decide_true by (apply elem_of_app; right; by apply list_elem_of_singleton). done.
  - intros x Hx. specialize (Hot x Hx). unfold at_ in *. cbn in *. injection Hot as ->.
    do 2 f_equal. apply bool_decide_ext. rewrite elem_of_app, list_elem_of_singleton. naive_solver.
Qed.

Lemma del_wr_evolves p a i w s :
  wf p -> at_ p a = (Some i, w, s) ->
  exists p', hmdfs_remote_del_wr_opened_inode p a = Some p' /\
    evolves a p p' (Some (with_wr i (si_wr_opened_cnt i - 1)), if si_wr_opened_cnt i - 1 =? 0 then false else w, s).
Proof.
  intros Hwf Ha. pose proof Ha as [= Hi Hw Hs]. unfold hmdfs_remote_del_wr_opened_inode. rewrite Hi. cbn [mbind option_bind].
  destruct (upd_inode_evolves p a i w s (fun i => with_wr i (si_wr_opened_cnt i - 1)) Hwf Ha eq_refl) as (p1&Hp1&Hev).
  rewrite Hp1. cbn [mbind option_bind]. eexists; split; [done|].
  destruct (si_wr_opened_cnt i - 1 =? 0) eqn:E; [|done].
  unfold upd_inode in Hp1. rewrite Hi in Hp1. injection Hp1 as <-. destruct Hev as [[? ? ? ?] Hat Hot ? ?].
  split; [|..|done|done].
  - split; [|done..]. cbn. by apply list.NoDup_filter.
  - unfold at_ in *. cbn in *. injection Hat as E1 E2 E3. rewrite E1, E3.
    rewrite bool_decide_false by (intros [? ?]%list_elem_of_filter; done). done.
  - intros x Hx. specialize (Hot x Hx). unfold at_ in *. cbn in *. injection Hot as ->.
    do 2 f_equal. apply bool_decide_ext. rewrite list_elem_of_filter. naive_solver.
Qed.

Lemma track_evolves p a i w :
  wf p -> at_ p a = (Some i, w, false) -> evolves a p (hmdfs_track_inode_locked p a) (Some i, w, true).
Proof.
  intros [? ? Hnr ?] Ha. pose proof Ha as [= Hi Hw Hs]. apply bool_decide_eq_false in Hs. split; [|..|done|done].
  - split; [done| | |done]; cbn.
    + apply list.NoDup_app. split; [done|]. split; [by intros x Hx ->%list_elem_of_singleton|apply NoDup_singleton].
    + rewrite Hnr, length_app, Nat2Z.inj_add. unfold wrap. rewrite Zplus_mod_idemp_l. done.
  - unfold at_. cbn. rewrite Hi, Hw. rewrite bool_decide_true by (apply elem_of_app; right; by apply list_elem_of_singleton). done.
  - intros x Hx. unfold at_. cbn. do 2 f_equal. apply bool_decide_ext. rewrite elem_of_app, list_elem_of_singleton. naive_solver.
Qed.

Lemma filter_ne_length (l : list Z) a :
  NoDup l -> a ∈ l -> Z.of_nat (length (filter (fun x => x <> a) l)) = Z.of_nat (length l) - 1.
Proof.
  induction 1 as [|b l Hb Hnd IH]; [by intros ?%elem_of_nil|]. rewrite filter_cons.
  intros [<-|Ha]%elem_of_cons.
  - rewrite decide_False by (intros ?; done). cbn [length].
    enough (filter (fun x => x <> a) l = l) as -> by lia.
    apply filter_all. by intros x Hx ->.
  - rewrite decide_True by (intros ->; done). cbn [length]. rewrite Nat2Z.inj_succ, IH by done. lia.
Qed.

Lemma untrack_evolves p a i w :
  wf p -> at_ p a = (Some i, w, true) ->
  exists p', hmdfs_untrack_stashed_inode p a = Some p' /\
    evolves a p p' (if si_count i - 1 =? 0 then None else Some (with_count i (si_count i - 1)), w, false).
Proof.
  intros [? Hst Hnr Hino] Ha. pose proof Ha as [= Hi Hw Hs]. apply bool_decide_eq_true in Hs.
  unfold hmdfs_untrack_stashed_inode, iput. cbn [inodes set_stashed]. rewrite Hi. cbn [mbind option_bind].
  eexists; split; [done|]. pose proof (filter_ne_length _ _ Hst Hs) as Hlen. split; [|..|done|done].
  - split; [done|by apply list.NoDup_filter| |].
    + cbn [stashed_inode_nr stashed_inode_list set_stashed set_inodes]. rewrite Hlen, Hnr. unfold wrap. by rewrite Zminus_mod_idemp_l.
    + cbn. intros x y ix iy Hx Hy E.
      assert (Hsub : forall z iz, (if si_count i - 1 =? 0 then delete a (inodes p)
          else <[a:=with_count i (si_count i - 1)]> (inodes p)) !! z = Some iz ->
          exists j, inodes p !! z = Some j /\ si_remote_ino j = si_remote_ino iz).
      { intros z iz. destruct (_ =? 0).
        - intros Hz. apply lookup_delete_Some in Hz as [? ?]. by exists iz.
        - intros Hz. apply lookup_insert_Some in Hz as [[<- <-]|[? ?]]; [by exists i|by exists iz]. }
      destruct (Hsub _ _ Hx) as (jx&?&?). destruct (Hsub _ _ Hy) as (jy&?&?). apply (Hino x y jx jy); congruence.
  - unfold at_. cbn. rewrite Hw. rewrite bool_decide_false by (intros [? ?]%list_elem_of_filter; done).
    destruct (_ =? 0); [by rewrite lookup_delete_eq|by rewrite lookup_insert_eq].
  - intros x Hx. unfold at_. cbn. replace (bool_decide (x ∈ filter (fun y => y <> a) (stashed_inode_list p)))
      with (bool_decide (x ∈ stashed_inode_list p)); [|apply bool_decide_ext; rewrite list_elem_of_filter; naive_solver].
    destruct (_ =? 0); [by rewrite lookup_delete_ne|by rewrite lookup_insert_ne].
Qed.

(** * The invariant *)

(** The pins an inode has as a writer, and as a reference, for being stashed: [pe] says that it
    was fetched and its stash file is not made yet. *)
Definition pin (pe : bool) (st : stash_status) : Z :=
  match st with
  | HMDFS_REMOTE_INODE_STASHING => 1
  | HMDFS_REMOTE_INODE_NONE => if pe then 1 else 0
  | HMDFS_REMOTE_INODE_RESTORING => 0
  end.
Definition hold (pe : bool) (st : stash_status) : Z :=
  match st with HMDFS_REMOTE_INODE_NONE => if pe then 1 else 0 | _ => 1 end.

(** An inode with [o] files open for writing and [r] references from outside of the stash. *)
Definition node_ok (pe : bool) (o r : Z) (file : Z -> Prop) (v : option sinode * bool * bool) : Prop :=
  match v with
  | (Some i, w, s) =>
      0 <= o <= r /\ si_wr_opened_cnt i = o + pin pe (si_status i) /\
      si_count i = r + hold pe (si_status i) /\ 0 < si_count i /\ w = (0 <? si_wr_opened_cnt i) /\
      s = bool_decide (si_status i = HMDFS_REMOTE_INODE_RESTORING) /\
      (si_cache i <> None -> si_status i = HMDFS_REMOTE_INODE_STASHING) /\
      (si_status i = HMDFS_REMOTE_INODE_RESTORING -> file (si_remote_ino i)) /\
      (pe = true -> si_status i = HMDFS_REMOTE_INODE_NONE)
  | (None, w, s) => o = 0 /\ r = 0 /\ w = false /\ s = false /\ pe = false
  end.

Definition has_file (p : stash_peer) (ino : Z) : Prop := is_Some (stash_dir p !! ino).

(** [pend] are the fetched inodes, [o] and [r] the writers and references from outside. *)
Record inv (p : stash_peer) (pend : list Z) (o r : Z -> Z) : Prop := {
  inv_wf : wf p;
  inv_node a : node_ok (bool_decide (a ∈ pend)) (o a) (r a) (has_file p) (at_ p a)
}.

Definition bump (f : Z -> Z) (a d : Z) : Z -> Z := fun x => if x =? a then f x + d else f x.
Lemma bump_same f a d : bump f a d a = f a + d.
Proof. unfold bump. by rewrite Z.eqb_refl. Qed.
Lemma bump_other f a d x : x <> a -> bump f a d x = f x.
Proof. intros Hx. unfold bump. by rewrite (proj2 (Z.eqb_neq _ _)). Qed.

Definition live (p : stash_peer) (a : Z) : Prop := is_Some (inodes p !! a).

Lemma live_at p a : live p a -> exists i w s, at_ p a = (Some i, w, s).
Proof. intros [i Hi]. unfold at_. rewrite Hi. by eauto. Qed.

Lemma stash_inv_ext p pend o r o' r' : (forall a, o' a = o a) -> (forall a, r' a = r a) -> inv p pend o r -> inv p pend o' r'.
Proof. intros Ho Hr [? Hn]. split; [done|]. intros a. rewrite Ho, Hr. apply Hn. Qed.

Lemma inv_evolves p p' pend pend' o r o' r' a v :
  inv p pend o r -> evolves a p p' v ->
  node_ok (bool_decide (a ∈ pend')) (o' a) (r' a) (has_file p) v ->
  (forall x, x <> a -> o' x = o x /\ r' x = r x /\ (x ∈ pend' <-> x ∈ pend)) ->
  inv p' pend' o' r'.
Proof.
  intros [Hwf Hn] [Hwf' Ha Hot Hd ?] Hv Hx. split; [done|]. intros x.
  assert (Hf : has_file p' = has_file p) by (unfold has_file; by rewrite Hd). rewrite Hf.
  destruct (Z.eq_dec x a) as [->|Hne]; [by rewrite Ha|]. rewrite Hot by done.
  destruct (Hx x Hne) as (->&->&Hp). rewrite (bool_decide_ext _ _ Hp). apply Hn.
Qed.

(** Replacing the directory keeps the invariant when the files of stashed inodes remain. *)
Lemma inv_set_dir p pend o r dir :
  inv p pend o r ->
  (forall a i, a ∈ stashed_inode_list p -> inodes p !! a = Some i -> is_Some (dir !! si_remote_ino i)) ->
  inv (set_dir p dir) pend o r.
Proof.
  intros [[? ? ? ?] Hn] Hd. split; [by split|]. intros a. specialize (Hn a).
  change (at_ (set_dir p dir) a) with (at_ p a). unfold at_ in *.
  destruct (inodes p !! a) as [i|] eqn:E; [|done].
  destruct Hn as (?&?&?&?&?&Hs&?&?&?). do 7 (split; [done|]). split; [|done].
  intros Hst. unfold has_file. cbn. eapply Hd; [|done].
  rewrite (bool_decide_true _ Hst) in Hs. by apply bool_decide_eq_true in Hs.
Qed.

Lemma writer_live p pend o r a : inv p pend o r -> a ∈ wr_opened_inode_list p -> live p a.
Proof.
  intros [_ Hn] Ha. specialize (Hn a). unfold live, at_ in *. destruct (inodes p !! a); [done|].
  destruct Hn as (_&_&Hw&_). by rewrite bool_decide_true in Hw.
Qed.

Lemma stashed_iff p pend o r a : inv p pend o r ->
  a ∈ stashed_inode_list p <-> exists i, inodes p !! a = Some i /\ si_status i = HMDFS_REMOTE_INODE_RESTORING.
Proof.
  intros [_ Hn]. specialize (Hn a). unfold at_ in Hn. destruct (inodes p !! a) as [i|].
  - destruct Hn as (_&_&_&_&_&Hs&_). split.
    + intros Ha. exists i. split; [done|]. rewrite bool_decide_true in Hs by done. symmetry in Hs.
      by apply bool_decide_eq_true in Hs.
    + intros (j&[= <-]&Hj). rewrite (bool_decide_true _ Hj) in Hs. by apply bool_decide_eq_true in Hs.
  - destruct Hn as (_&_&_&Hs&_). apply bool_decide_eq_false in Hs. split; [done|]. by intros (?&?&_).
Qed.

Definition status_of (p : stash_peer) (a : Z) : option stash_status := si_status <$> inodes p !! a.

Lemma status_at p p' x : at_ p' x = at_ p x -> status_of p' x = status_of p x.
Proof. unfold at_, status_of. by intros [= -> _ _]. Qed.

(** Inodes that are STASHING stay so. *)
Definition keeps (p p' : stash_peer) : Prop :=
  forall x, status_of p x = Some HMDFS_REMOTE_INODE_STASHING -> status_of p' x = Some HMDFS_REMOTE_INODE_STASHING.

Lemma keeps_trans p1 p2 p3 : keeps p1 p2 -> keeps p2 p3 -> keeps p1 p3.
Proof. intros K1 K2 x Hx. by apply K2, K1. Qed.

Lemma evolves_keeps a p p' v :
  evolves a p p' v ->
  (status_of p a = Some HMDFS_REMOTE_INODE_STASHING -> si_status <$> v.1.1 = Some HMDFS_REMOTE_INODE_STASHING) ->
  keeps p p'.
Proof.
  intros Hev Ha x Hx. destruct (Z.eq_dec x a) as [->|Hne].
  - unfold status_of. rewrite <- (Ha Hx), <- (ev_at _ _ _ _ Hev). done.
  - by rewrite (status_at p p') by apply (ev_other _ _ _ _ Hev x Hne).
Qed.

Lemma evolves_keeps_inode a p p' i i' w s w' s' :
  at_ p a = (Some i, w, s) -> evolves a p p' (Some i', w', s') -> si_status i' = si_status i -> keeps p p'.
Proof.
  intros Ha Hev Hs. eapply evolves_keeps; [done|]. unfold status_of. rewrite (at_inodes _ _ _ _ _ Ha). cbn. by rewrite Hs.
Qed.

(** ** Readers and writers *)

Lemma get_ok p pend o r a : inv p pend o r -> live p a ->
  exists p', ihold p a = Some p' /\ inv p' pend o (bump r a 1) /\ keeps p p'.
Proof.
  intros Hi Hl. destruct (live_at _ _ Hl) as (i&w&s&Ha). pose proof (inv_node _ _ _ _ Hi a) as Hn. rewrite Ha in Hn.
  destruct (ihold_evolves p a i w s (inv_wf _ _ _ _ Hi) Ha) as (p'&->&Hev). eexists; split; [done|].
  split; [|by eapply evolves_keeps_inode].
  eapply inv_evolves; [done..| |intros x Hx; by rewrite bump_other].
  rewrite bump_same. destruct Hn as (?&?&?&?&?&?&?&?&?). repeat split; cbn; try done; lia.
Qed.

Lemma put_ok p pend o r a : inv p pend o r -> o a < r a ->
  exists p', iput p a = Some p' /\ inv p' pend o (bump r a (-1)) /\ keeps p p'.
Proof.
  intros Hi Hr. pose proof (inv_node _ _ _ _ Hi a) as Hn.
  destruct (at_ p a) as [[[i|] w] s] eqn:Ha; [|destruct Hn; lia].
  destruct (iput_evolves p a i w s (inv_wf _ _ _ _ Hi) Ha) as (p'&->&Hev). eexists; split; [done|].
  split.
  2: { eapply evolves_keeps; [done|]. unfold status_of. rewrite (at_inodes _ _ _ _ _ Ha). intros [= Hst].
       destruct Hn as (?&_&Hc&_). rewrite Hst in Hc. cbn [hold] in Hc.
       rewrite (proj2 (Z.eqb_neq _ _)) by lia. cbn. by rewrite Hst. }
  eapply inv_evolves; [done..| |intros x Hx; by rewrite bump_other].
  rewrite bump_same. destruct Hn as (?&Hw&Hc&?&Ew&Es&?&?&Hpe). destruct (si_count i - 1 =? 0) eqn:E; zb.
  - assert (Ehold : hold (bool_decide (a ∈ pend)) (si_status i) = 0).
    { unfold hold in *. destruct (si_status i), (bool_decide _); lia. }
    assert (Epin : pin (bool_decide (a ∈ pend)) (si_status i) = 0).
    { unfold hold, pin in *. destruct (si_status i), (bool_decide _); lia. }
    split; [lia|]. split; [lia|]. split; [rewrite Ew; apply Z.ltb_ge; lia|].
    unfold hold in Ehold. destruct (si_status i), (bool_decide (a ∈ pend)); done || lia.
  - repeat split; cbn; try done; lia.
Qed.

Lemma open_ok p pend o r a : inv p pend o r -> live p a ->
  exists p', open_writable p a = Some p' /\ inv p' pend (bump o a 1) (bump r a 1) /\ keeps p p'.
Proof.
  intros Hi Hl. destruct (live_at _ _ Hl) as (i&w&s&Ha). pose proof (inv_node _ _ _ _ Hi a) as Hn. rewrite Ha in Hn.
  unfold open_writable.
  destruct (ihold_evolves p a i w s (inv_wf _ _ _ _ Hi) Ha) as (p1&->&Hev1). cbn [mbind option_bind].
  destruct (add_wr_evolves p1 a _ w s (ev_wf _ _ _ _ Hev1) (ev_at _ _ _ _ Hev1)) as (p2&->&Hev2).
  eexists; split; [done|]. split.
  2: { eapply evolves_keeps_inode; [done|by eapply evolves_trans|done]. }
  eapply inv_evolves; [done|by eapply evolves_trans| |intros x Hx; by rewrite !bump_other].
  rewrite !bump_same. destruct Hn as (?&Hw&?&?&Ew&?&?&?&?).
  assert (0 <= pin (bool_decide (a ∈ pend)) (si_status i)) by (unfold pin; destruct (si_status i), (bool_decide _); lia).
  assert (E : (if w then si_wr_opened_cnt i + 1 else 1) = si_wr_opened_cnt i + 1).
  { rewrite Ew. destruct (0 <? _) eqn:E; zb; lia. }
  cbn [with_wr with_count si_wr_opened_cnt si_count si_status si_cache si_remote_ino] in *. rewrite E.
  repeat split; cbn; try done; lia.
Qed.

Lemma upd_rebuild p a f p' : upd_inode p a f = Some p' -> need_rebuild_stash_list p' = need_rebuild_stash_list p.
Proof. unfold upd_inode. destruct (inodes p !! a); [|done]. by intros [= <-]. Qed.

Lemma iput_rebuild p a p' : iput p a = Some p' -> need_rebuild_stash_list p' = need_rebuild_stash_list p.
Proof. unfold iput. destruct (inodes p !! a); [|done]. by intros [= <-]. Qed.

Lemma open_rebuild p a p' : open_writable p a = Some p' -> need_rebuild_stash_list p' = need_rebuild_stash_list p.
Proof.
  unfold open_writable, ihold. destruct (upd_inode p a _) as [p1|] eqn:E1; [|done]. apply upd_rebuild in E1.
  cbn [mbind option_bind]. unfold hmdfs_remote_add_wr_opened_inode_nolock. case_bool_decide.
  - intros E2%upd_rebuild. congruence.
  - destruct (upd_inode p1 a _) as [p2|] eqn:E2; [|done]. apply upd_rebuild in E2. intros [= <-]. cbn. congruence.
Qed.

Lemma reset_rebuild p a p' : hmdfs_reset_stashed_inode p a = Some p' -> need_rebuild_stash_list p' = need_rebuild_stash_list p.
Proof.
  unfold hmdfs_reset_stashed_inode, ihold, hmdfs_untrack_stashed_inode.
  destruct (upd_inode p a _) as [p1|] eqn:E1; [|done]. apply upd_rebuild in E1. cbn [mbind option_bind].
  destruct (iput _ a) as [p2|] eqn:E2; [|done]. apply iput_rebuild in E2. cbn [mbind option_bind].
  destruct (upd_inode _ a _) as [p3|] eqn:E3; [|done]. apply upd_rebuild in E3. cbn [mbind option_bind].
  intros E4%iput_rebuild. cbn in *. congruence.
Qed.

Lemma open_frame p a p' :
  open_writable p a = Some p' ->
  stash_dir p' = stash_dir p /\ stashed_inode_list p' = stashed_inode_list p /\
  forall x, (fun i => (si_remote_ino i, si_status i)) <$> inodes p' !! x =
            (fun i => (si_remote_ino i, si_status i)) <$> inodes p !! x.
Proof.
  unfold open_writable, ihold, upd_inode. destruct (inodes p !! a) as [i|] eqn:E; [|done]. cbn [mbind option_bind].
  unfold hmdfs_remote_add_wr_opened_inode_nolock, upd_inode. cbn [inodes set_inodes].
  rewrite lookup_insert_eq. cbn [mbind option_bind].
  assert (Hx : forall n x, (fun i => (si_remote_ino i, si_status i)) <$>
    <[a := with_wr (with_count i (si_count i + 1)) n]> (<[a := with_count i (si_count i + 1)]> (inodes p)) !! x =
    (fun i => (si_remote_ino i, si_status i)) <$> inodes p !! x).
  { intros n x. destruct (Z.eq_dec x a) as [->|Hne]; [by rewrite lookup_insert_eq, E|by rewrite !lookup_insert_ne]. }
  destruct (bool_decide _); intros [= <-]; cbn; (split; [done|split; [done|]]); intros x; apply Hx.
Qed.

Lemma release_writable_ok p pend o r a : inv p pend o r -> 0 < o a ->
  exists p', release_writable p a = Some p' /\ inv p' pend (bump o a (-1)) (bump r a (-1)) /\ keeps p p'.
Proof.
  intros Hi Ho. pose proof (inv_node _ _ _ _ Hi a) as Hn.
  destruct (at_ p a) as [[[i|] w] s] eqn:Ha; [|destruct Hn; lia]. unfold release_writable.
  destruct (del_wr_evolves p a i w s (inv_wf _ _ _ _ Hi) Ha) as (p1&->&Hev1). cbn [mbind option_bind].
  assert (Hi1 : inv p1 pend (bump o a (-1)) r).
  { eapply inv_evolves; [done|done| |intros x Hx; by rewrite bump_other]. rewrite bump_same.
    destruct Hn as (?&Hw&?&?&Ew&?&?&?&?). repeat split; cbn; try done; try lia.
    rewrite Ew. destruct (si_wr_opened_cnt i - 1 =? 0) eqn:E; zb.
    - rewrite E. done.
    - assert (0 <= pin (bool_decide (a ∈ pend)) (si_status i)) by (unfold pin; destruct (si_status i), (bool_decide _); lia).
      rewrite !(proj2 (Z.ltb_lt _ _)) by lia. done. }
  destruct (put_ok p1 pend (bump o a (-1)) r a Hi1) as (p2&->&Hi2&Hk2).
  { rewrite bump_same. destruct Hn as ((_&?)&_). lia. }
  exists p2. split; [done|]. split; [done|]. eapply keeps_trans; [|done]. by eapply evolves_keeps_inode.
Qed.

(** ** Fetching and preparing *)

Lemma fetch_one p pend o r a i w s :
  inv p pend o r -> at_ p a = (Some i, w, s) -> si_status i = HMDFS_REMOTE_INODE_NONE -> a ∉ pend ->
  exists p1 p2, hmdfs_remote_add_wr_opened_inode_nolock p a = Some p1 /\ ihold p1 a = Some p2 /\
    inv p2 (a :: pend) o r /\
    evolves a p p2 (Some (with_count (with_wr i (si_wr_opened_cnt i + 1)) (si_count i + 1)), true, s).
Proof.
  intros Hi Ha Hst Hp. pose proof (inv_node _ _ _ _ Hi a) as Hn. rewrite Ha, bool_decide_false in Hn by done.
  destruct Hn as (?&Hw&Hc&?&Ew&Es&?&?&_). rewrite Hst in *. cbn [pin hold] in *.
  destruct (add_wr_evolves p a i w s (inv_wf _ _ _ _ Hi) Ha) as (p1&Hp1&Hev1).
  destruct (ihold_evolves p1 a _ _ _ (ev_wf _ _ _ _ Hev1) (ev_at _ _ _ _ Hev1)) as (p2&Hp2&Hev2).
  assert (E : (if w then si_wr_opened_cnt i + 1 else 1) = si_wr_opened_cnt i + 1).
  { rewrite Ew. destruct (0 <? _) eqn:E; zb; lia. }
  rewrite E in *. exists p1, p2. do 2 (split; [done|]).
  pose proof (evolves_trans _ _ _ _ _ _ Hev1 Hev2) as Hev. split; [|done].
  eapply inv_evolves; [done|exact Hev| |intros x Hx; rewrite elem_of_cons; naive_solver].
  rewrite bool_decide_true by (by left). cbn [node_ok with_count with_wr si_wr_opened_cnt si_count si_status si_cache si_remote_ino].
  rewrite Hst. cbn [pin hold]. repeat split; done || lia.
Qed.

Lemma fetch_loop_ok l : forall p pend o r,
  inv p pend o r -> NoDup l -> (forall a, a ∈ l -> a ∈ wr_opened_inode_list p /\ a ∉ pend) ->
  exists p', let ready := filter (fun a => status_of p a = Some HMDFS_REMOTE_INODE_NONE) l in
    fetch_loop p l = Some (ready, p') /\ inv p' (ready ++ pend) o r /\
    (forall x, x ∈ wr_opened_inode_list p' <-> x ∈ wr_opened_inode_list p) /\
    (forall x, status_of p' x = status_of p x) /\ stash_dir p' = stash_dir p.
Proof.
  induction l as [|a l IH]; intros p pend o r Hi Hnd Hl; [by exists p|].
  apply list.NoDup_cons in Hnd as [Hal Hnd]. cbn [fetch_loop]. destruct (Hl a ltac:(by left)) as [Haw Hap].
  destruct (writer_live _ _ _ _ _ Hi Haw) as [i Hia]. rewrite Hia. cbn [mbind option_bind].
  destruct (live_at p a ltac:(by exists i)) as (i'&w&s&Ha). pose proof Ha as [= E _ _].
  rewrite Hia in E. injection E as <-.
  assert (Hs0 : status_of p a = Some (si_status i)) by (unfold status_of; by rewrite Hia).
  rewrite filter_cons. destruct (decide (si_status i = HMDFS_REMOTE_INODE_NONE)) as [Hst|Hst].
  - destruct (fetch_one p pend o r a i w s Hi Ha Hst Hap) as (p1&p2&->&Hh&Hi2&Hev). cbn [mbind option_bind].
    rewrite Hh. cbn [mbind option_bind]. pose proof (ev_at _ _ _ _ Hev) as Hat.
    assert (Hws : forall x, x ∈ wr_opened_inode_list p2 <-> x ∈ wr_opened_inode_list p).
    { intros x. destruct (Z.eq_dec x a) as [->|Hx].
      - injection Hat as _ Hw _. apply bool_decide_eq_true in Hw. done.
      - pose proof (ev_other _ _ _ _ Hev x Hx) as [= _ Hw _]. exact (bd_iff _ _ Hw). }
    assert (Hss : forall x, status_of p2 x = status_of p x).
    { intros x. destruct (Z.eq_dec x a) as [->|Hx]; [|by apply status_at, (ev_other _ _ _ _ Hev)].
      rewrite Hs0. unfold status_of. by rewrite (at_inodes _ _ _ _ _ Hat). }
    destruct (IH p2 (a :: pend) o r Hi2 Hnd) as (p'&Hf&Hi'&Hw&Hs&Hd).
    { intros b Hb. destruct (Hl b ltac:(by right)) as [? ?]. rewrite Hws. split; [done|].
      rewrite elem_of_cons. by intros [->|?]. }
    exists p'. cbv zeta in *. rewrite Hf. cbn [mbind option_bind].
    assert (Ef : filter (fun a0 => status_of p2 a0 = Some HMDFS_REMOTE_INODE_NONE) l =
      filter (fun a0 => status_of p a0 = Some HMDFS_REMOTE_INODE_NONE) l)
      by (apply list_filter_iff; intros x; by rewrite Hss).
    rewrite Ef in *. rewrite decide_True by (by rewrite Hs0, Hst). split; [done|]. split; [|split; [|split]].
    + destruct Hi' as [? Hn']. split; [done|]. intros x. specialize (Hn' x).
      erewrite bool_decide_ext; [exact Hn'|]. cbn. rewrite !elem_of_app, !elem_of_cons, elem_of_app. tauto.
    + intros x. by rewrite Hw.
    + intros x. by rewrite Hs.
    + rewrite Hd. apply (ev_dir _ _ _ _ Hev).
  - rewrite decide_False by (rewrite Hs0; congruence). apply IH; [done|done|]. intros b Hb. apply Hl. by right.
Qed.

Lemma init_ok p pend o r a cache :
  inv p pend o r -> a ∈ pend ->
  exists p', hmdfs_init_stash_file_cache p a cache = Some p' /\
    inv p' (filter (fun x => x <> a) pend) o r /\
    status_of p' a = Some HMDFS_REMOTE_INODE_STASHING /\ (forall x, x <> a -> at_ p' x = at_ p x) /\
    (forall x, x ∈ wr_opened_inode_list p' <-> x ∈ wr_opened_inode_list p) /\ stash_dir p' = stash_dir p.
Proof.
  intros Hi Hp. pose proof (inv_node _ _ _ _ Hi a) as Hn. rewrite bool_decide_true in Hn by done.
  destruct (at_ p a) as [[[i|] w] s] eqn:Ha; [|by destruct Hn as (_&_&_&_&?)].
  destruct Hn as (?&Hw&Hc&?&Ew&Es&?&?&Hst). specialize (Hst eq_refl). rewrite Hst in *. cbn [pin hold] in *.
  unfold hmdfs_init_stash_file_cache. set (c := match cache with inr c => Some c | inl _ => None end).
  destruct (upd_inode_evolves p a i w s (fun i => with_status i HMDFS_REMOTE_INODE_STASHING c (si_need_open i))
    (inv_wf _ _ _ _ Hi) Ha eq_refl) as (p'&->&Hev).
  exists p'. split; [done|]. pose proof (ev_at _ _ _ _ Hev) as Hat. split; [|split; [|split; [|split]]].
  - eapply inv_evolves; [done..| |].
    + rewrite bool_decide_false by (intros [? ?]%list_elem_of_filter; done).
      cbn. repeat split; done || lia.
    + intros x Hx. split; [done|]. split; [done|]. rewrite list_elem_of_filter. tauto.
  - unfold status_of. by rewrite (at_inodes _ _ _ _ _ Hat).
  - apply (ev_other _ _ _ _ Hev).
  - intros x. destruct (Z.eq_dec x a) as [->|Hx].
    + injection Hat as _ Hw' _. injection Ha as _ Hw'' _. rewrite <- Hw'' in Hw'. exact (bd_iff _ _ Hw').
    + pose proof (ev_other _ _ _ _ Hev x Hx) as [= _ Hw' _]. exact (bd_iff _ _ Hw').
  - apply (ev_dir _ _ _ _ Hev).
Qed.

Lemma init_loop_ok l cache : forall p o r,
  inv p l o r -> NoDup l ->
  exists p', init_loop p l cache = Some p' /\ inv p' [] o r /\
    (forall x, status_of p' x = if decide (x ∈ l) then Some HMDFS_REMOTE_INODE_STASHING else status_of p x) /\
    (forall x, x ∈ wr_opened_inode_list p' <-> x ∈ wr_opened_inode_list p) /\ stash_dir p' = stash_dir p.
Proof.
  induction l as [|a l IH]; intros p o r Hi Hnd.
  { exists p. split; [done|]. split; [done|]. split; [|done]. intros x. by rewrite decide_False by apply not_elem_of_nil. }
  apply list.NoDup_cons in Hnd as [Hal Hnd]. cbn [init_loop].
  destruct (init_ok p (a :: l) o r a (cache a) Hi ltac:(by left)) as (p1&->&Hi1&Hs1&Hot&Hw1&Hd1). cbn [mbind option_bind].
  rewrite filter_cons, decide_False in Hi1 by (intros Hx; by apply Hx).
  rewrite filter_all in Hi1 by (by intros x Hx ->).
  destruct (IH p1 o r Hi1 Hnd) as (p'&->&Hi'&Hs'&Hw'&Hd'). exists p'. split; [done|]. split; [done|]. split; [|split].
  - intros x. rewrite Hs'. destruct (decide (x ∈ l)) as [Hx|Hx].
    + by rewrite decide_True by (by right).
    + destruct (Z.eq_dec x a) as [->|Hxa]; [by rewrite decide_True by (by left)|].
      rewrite decide_False by (rewrite elem_of_cons; by intros [?|?]). by apply status_at, Hot.
  - intros x. by rewrite Hw'.
  - congruence.
Qed.

(** ** Stashing *)

Lemma writepage_ok p pend o r a isize index buf :
  inv p pend o r -> live p a ->
  exists res p', hmdfs_remote_do_writepage p a isize index buf = Some (res, p') /\ inv p' pend o r /\
    (forall x, status_of p' x = status_of p x) /\
    (res = None <-> status_of p a <> Some HMDFS_REMOTE_INODE_STASHING).
Proof.
  intros Hi Hl. destruct (live_at _ _ Hl) as (i&w&s&Ha). pose proof (inv_node _ _ _ _ Hi a) as Hn. rewrite Ha in Hn.
  pose proof (at_inodes _ _ _ _ _ Ha) as Hia. assert (Hs0 : status_of p a = Some (si_status i)) by (unfold status_of; by rewrite Hia).
  unfold hmdfs_remote_do_writepage. rewrite Hia. cbn [mbind option_bind].
  destruct (decide (si_status i = HMDFS_REMOTE_INODE_STASHING)) as [Hst|Hst].
  - rewrite bool_decide_true by done. cbn [negb].
    destruct (hmdfs_stash_writepage _ _ _ _) as [err c].
    destruct (upd_inode_evolves p a i w s (fun i => with_status i (si_status i) c (si_need_open i))
      (inv_wf _ _ _ _ Hi) Ha eq_refl) as (p'&->&Hev). cbn [mbind option_bind].
    eexists _, p'. split; [done|]. split; [|split].
    + eapply inv_evolves; [done..| |done]. destruct Hn as (?&?&?&?&?&?&?&?&?). cbn. repeat split; done || lia.
    + intros x. destruct (Z.eq_dec x a) as [->|Hx]; [|by apply status_at, (ev_other _ _ _ _ Hev)].
      rewrite Hs0. unfold status_of. by rewrite (at_inodes _ _ _ _ _ (ev_at _ _ _ _ Hev)).
    + split; [done|]. rewrite Hs0, Hst. done.
  - rewrite bool_decide_false by done. cbn [negb]. eexists _, p. split; [done|]. split; [done|]. split; [done|].
    rewrite Hs0. split; [congruence|done].
Qed.

(** The results of the file system calls are errors or 0. *)
Definition env_ok (env : stash_env) : Prop :=
  se_fsync env <= 0 /\ se_lookup env <= 0 /\ se_unlink env <= 0 /\ se_link env <= 0.

Lemma flush_some c ino env c' : hmdfs_flush_stash_file c ino env = (0, c') -> exists c0, c' = Some c0.
Proof.
  unfold hmdfs_flush_stash_file. destruct (hmdfs_flush_stash_file_data c env) as [err [c0|]].
  - destruct (err =? 0); [|by intros [= _ <-]; eauto]. unfold hmdfs_flush_stash_file_metadata.
    destruct (_ =? 0)%nat; [destruct (_ =? 0); intros [= <-]; eauto|].
    destruct (f_write _ _ _) as [? ?]. destruct (negb _); [done|]. destruct (f_write _ _ _) as [? ?].
    destruct (_ =? _); intros [= <-]; eauto.
  - destruct (err =? 0) eqn:E; [done|]. zb. by intros [= ?].
Qed.

Lemma close_spec dir ino c env err dir' :
  env_ok env -> hmdfs_close_stash_file dir ino c env = (err, dir') ->
  (forall n, n <> ino -> dir' !! n = dir !! n) /\
  (0 < err -> dir' !! ino = Some (ci_cache_file c) /\ ci_to_write_pgs c <> 0).
Proof.
  intros (Hf&Hl&Hu&Hk). unfold hmdfs_close_stash_file.
  destruct (ci_to_write_pgs c =? 0) eqn:E0; [intros [= <- <-]; split; [done|lia]|]. zb.
  destruct (negb (se_fsync env =? 0)) eqn:E1; zb.
  { rewrite (proj2 (Z.ltb_lt _ _)) by lia. intros [= <- <-]. split; [done|lia]. }
  unfold hmdfs_enable_stash_file. destruct (negb (se_lookup env =? 0)) eqn:E2; zb.
  { rewrite (proj2 (Z.ltb_lt _ _)) by lia. intros [= <- <-]. split; [done|lia]. }
  assert (Hlink : forall d, (forall n, n <> ino -> d !! n = dir !! n) ->
    (let '(err, dir) := (if negb (se_link env =? 0) then (se_link env, d) else (0, <[ino := ci_cache_file c]> d)) in
     ((if err <? 0 then err else 1), dir)) = (err, dir') ->
    (forall n, n <> ino -> dir' !! n = dir !! n) /\
    (0 < err -> dir' !! ino = Some (ci_cache_file c) /\ ci_to_write_pgs c <> 0)).
  { intros d Hd. destruct (negb (se_link env =? 0)) eqn:E3; zb.
    - rewrite (proj2 (Z.ltb_lt _ _)) by lia. intros [= <- <-]. split; [done|lia].
    - intros [= <- <-]. split; [|intros _; split; [by rewrite lookup_insert_eq|done]].
      intros n Hn. rewrite lookup_insert_ne by done. by apply Hd. }
  destruct (dir !! ino) as [f0|] eqn:Ed; [|by apply Hlink].
  destruct (negb (se_unlink env =? 0)) eqn:E3; zb.
  { rewrite (proj2 (Z.ltb_lt _ _)) by lia. intros [= <- <-]. split; [done|lia]. }
  rewrite lookup_delete_eq. apply Hlink. intros n Hn. by rewrite lookup_delete_ne.
Qed.

(** What stashing an inode yields: the result, the cache at the end and the directory. *)
Definition stash_result (dir : gmap Z F) (i : sinode) (env : stash_env) : Z * option cache_info * gmap Z F :=
  let '(err, c) := hmdfs_flush_stash_file (si_cache i) (si_remote_ino i) env in
  match c with
  | Some c0 =>
      if err =? 0 then
        let '(err, dir) := hmdfs_close_stash_file dir (si_remote_ino i) c0 env in (err, c, dir)
      else (err, c, dir)
  | None => (err, c, dir)
  end.

Lemma stash_result_run p stats a env i :
  inodes p !! a = Some i ->
  hmdfs_stash_remote_inode p stats a env =
    let '(err, c, dir) := stash_result (stash_dir p) i env in
    p ← upd_inode (set_dir p dir) a
          (fun i => with_status i (if 0 <? err then HMDFS_REMOTE_INODE_RESTORING else HMDFS_REMOTE_INODE_NONE) None
                      (if 0 <? err then si_need_open i else true));
    Some (err, hmdfs_update_stash_stats stats c err, p).
Proof.
  intros Hi. unfold hmdfs_stash_remote_inode, stash_result. rewrite Hi. cbn [mbind option_bind].
  destruct (hmdfs_flush_stash_file _ _ _) as [err c] eqn:Ef. destruct (err =? 0) eqn:E; zb.
  - subst err. destruct (flush_some _ _ _ _ Ef) as [c0 ->].
    by destruct (hmdfs_close_stash_file _ _ _ _) as [err' dir'].
  - cbn [mbind option_bind]. by destruct c.
Qed.

Lemma flush_err c ino env err c' : hmdfs_flush_stash_file c ino env = (err, c') -> err <= 0.
Proof.
  assert (Hw : forall l (c0 : option cache_info) isize, (write_pages c0 isize l).1 <= 0).
  { induction l as [|[index buf] l IH]; intros c0 isize; cbn [write_pages]; [done|].
    destruct (hmdfs_stash_writepage _ _ _ _) as [e c1]. specialize (IH c1 isize).
    destruct (write_pages _ _ _) as [e' c2]. cbn [fst] in *. by destruct (e =? 0). }
  unfold hmdfs_flush_stash_file, hmdfs_flush_stash_file_data.
  pose proof (Hw (se_dirty1 env) c (se_isize env)). destruct (write_pages c _ _) as [e1 c1]. cbn [fst] in *.
  assert (Hm : forall c2, (hmdfs_flush_stash_file_metadata crc32 c2 ino).1 <= 0).
  { intros [c2|]; [|done]. cbn [hmdfs_flush_stash_file_metadata].
    destruct (_ =? 0)%nat; [by destruct (_ =? 0)|]. destruct (f_write _ _ _) as [? ?]. destruct (negb _); [done|].
    destruct (f_write _ _ _) as [? ?]. by destruct (_ =? _). }
  destruct (negb (e1 =? 0)) eqn:E; zb.
  - rewrite (proj2 (Z.eqb_neq _ _)) by done. intros [= <- <-]. done.
  - pose proof (Hw (se_dirty2 env) c1 (se_isize env)). destruct (write_pages c1 _ _) as [e2 c2]. cbn [fst] in *.
    destruct (e2 =? 0); [|by intros [= <- <-]]. intros Heq. pose proof (Hm c2) as Hm2. by rewrite Heq in Hm2.
Qed.

Lemma stash_result_dir dir i env err c dir' :
  env_ok env -> stash_result dir i env = (err, c, dir') ->
  (forall n, n <> si_remote_ino i -> dir' !! n = dir !! n) /\
  (0 < err -> exists c0, c = Some c0 /\ dir' !! si_remote_ino i = Some (ci_cache_file c0)).
Proof.
  intros He. unfold stash_result. destruct (hmdfs_flush_stash_file _ _ _) as [e [c0|]] eqn:Ef.
  - destruct (e =? 0) eqn:E.
    + destruct (hmdfs_close_stash_file _ _ _ _) as [e' d'] eqn:Ec. intros [= <- <- <-].
      destruct (close_spec _ _ _ _ _ _ He Ec) as [Hn Hp]. split; [done|]. intros Hpos. exists c0.
      split; [done|]. apply Hp, Hpos.
    + intros [= <- <- <-]. split; [done|]. pose proof (flush_err _ _ _ _ _ Ef). lia.
  - intros [= <- <- <-]. split; [done|]. pose proof (flush_err _ _ _ _ _ Ef). lia.
Qed.

(** One inode is stashed: its state afterwards, and everything else as before. *)
Lemma status_pair p a v :
  (fun i => (si_remote_ino i, si_status i)) <$> inodes p !! a = v -> status_of p a = snd <$> v.
Proof. intros <-. unfold status_of. by destruct (inodes p !! a). Qed.

Definition stashed_as (i : sinode) (err : Z) : sinode :=
  with_status i (if 0 <? err then HMDFS_REMOTE_INODE_RESTORING else HMDFS_REMOTE_INODE_NONE) None
    (if 0 <? err then si_need_open i else true).

(** The inode after hmdfs_stash_remote_inode; it still has its pins as a STASHING one. *)
Lemma stash_remote_ok p o r a i env stats err c dir' :
  inv p [] o r -> inodes p !! a = Some i -> si_status i = HMDFS_REMOTE_INODE_STASHING -> env_ok env ->
  stash_result (stash_dir p) i env = (err, c, dir') ->
  exists p1, hmdfs_stash_remote_inode p stats a env = Some (err, hmdfs_update_stash_stats stats c err, p1) /\
    inv (set_dir p dir') [] o r /\ evolves a (set_dir p dir') p1 (Some (stashed_as i err), true, false) /\
    0 <= o a <= r a /\ si_wr_opened_cnt i = o a + 1 /\ si_count i = r a + 1 /\
    (0 < err -> is_Some (dir' !! si_remote_ino i)).
Proof.
  intros Hi Hia Hst He Hres. destruct (stash_result_dir _ _ _ _ _ _ He Hres) as [Hkeep Hlinked].
  destruct (live_at p a ltac:(by exists i)) as (i'&w&s&Ha). pose proof Ha as [= E _ _]. rewrite Hia in E. injection E as <-.
  pose proof (inv_node _ _ _ _ Hi a) as Hn. rewrite Ha in Hn. rewrite bool_decide_false in Hn by apply not_elem_of_nil.
  destruct Hn as (Hor&Hw&Hc&Hc0&Ew&Es&_&_&_). rewrite Hst in *. cbn [pin hold] in *.
  rewrite bool_decide_false in Es by done. subst s. rewrite (proj2 (Z.ltb_lt 0 _)) in Ew by lia. subst w.
  assert (Hi0 : inv (set_dir p dir') [] o r).
  { apply inv_set_dir; [done|]. intros b j Hb Hj. destruct (proj1 (stashed_iff _ _ _ _ b Hi) Hb) as (j'&Hj'&Hsj).
    assert (j' = j) as -> by congruence. rewrite Hkeep.
    - pose proof (inv_node _ _ _ _ Hi b) as Hnb. unfold at_ in Hnb. rewrite Hj in Hnb.
      destruct Hnb as (_&_&_&_&_&_&_&Hfile&_). by apply Hfile.
    - intros Hino. assert (b = a) as -> by (eapply (wf_ino _ (inv_wf _ _ _ _ Hi)); eauto). congruence. }
  rewrite (stash_result_run _ _ _ _ _ Hia), Hres.
  destruct (upd_inode_evolves (set_dir p dir') a i true false (fun i => stashed_as i err) (inv_wf _ _ _ _ Hi0) Ha eq_refl)
    as (p1&Hp1&Hev1).
  unfold stashed_as in Hp1. rewrite Hp1. cbn [mbind option_bind]. exists p1. do 6 (split; [done|]).
  intros Herr. destruct (Hlinked Herr) as (c0&_&->). by eexists.
Qed.

Lemma stash_one_ok p o r a i env stats err c dir' :
  inv p [] o r -> inodes p !! a = Some i -> si_status i = HMDFS_REMOTE_INODE_STASHING -> env_ok env ->
  stash_result (stash_dir p) i env = (err, c, dir') ->
  exists p', stash_one p stats a env = Some (hmdfs_update_stash_stats stats c err, p') /\ inv p' [] o r /\
    (forall x, x <> a -> at_ p' x = at_ p x) /\ stash_dir p' = dir' /\
    (fun i => (si_remote_ino i, si_status i)) <$> inodes p' !! a =
      (if 0 <? err then Some (si_remote_ino i, HMDFS_REMOTE_INODE_RESTORING)
       else if r a =? 0 then None else Some (si_remote_ino i, HMDFS_REMOTE_INODE_NONE)).
Proof.
  intros Hi Hia Hst He Hres. unfold stash_one.
  destruct (stash_remote_ok p o r a i env stats err c dir' Hi Hia Hst He Hres) as (p1&->&Hi0&Hev1&Hor&Hw&Hc&Hlinked).
  cbn [mbind option_bind]. set (i1 := stashed_as i err) in *.
  assert (Ewr : (if si_wr_opened_cnt i - 1 =? 0 then false else true) = (0 <? si_wr_opened_cnt i - 1)).
  { destruct (_ =? 0) eqn:E1; zb; symmetry; [apply Z.ltb_ge|apply Z.ltb_lt]; lia. }
  destruct (0 <? err) eqn:Eerr; zb.
  - pose proof (track_evolves p1 a i1 true (ev_wf _ _ _ _ Hev1) (ev_at _ _ _ _ Hev1)) as Hev2.
    destruct (del_wr_evolves _ a i1 true true (ev_wf _ _ _ _ Hev2) (ev_at _ _ _ _ Hev2)) as (p3&->&Hev3).
    cbn [mbind option_bind]. exists p3. split; [done|].
    pose proof (evolves_trans _ _ _ _ _ _ Hev1 (evolves_trans _ _ _ _ _ _ Hev2 Hev3)) as Hev.
    split; [|split; [apply (ev_other _ _ _ _ Hev)|split; [apply (ev_dir _ _ _ _ Hev)|]]].
    + eapply inv_evolves; [exact Hi0|exact Hev| |done]. rewrite bool_decide_false by apply not_elem_of_nil.
      unfold i1, stashed_as in *. rewrite (proj2 (Z.ltb_lt _ _) Eerr) in *. specialize (Hlinked Eerr). repeat split; cbn; done || lia.
    + rewrite (at_inodes _ _ _ _ _ (ev_at _ _ _ _ Hev)). unfold i1, stashed_as. by rewrite (proj2 (Z.ltb_lt _ _) Eerr).
  - destruct (del_wr_evolves p1 a i1 true false (ev_wf _ _ _ _ Hev1) (ev_at _ _ _ _ Hev1)) as (p2&->&Hev2).
    cbn [mbind option_bind].
    destruct (iput_evolves p2 a _ _ false (ev_wf _ _ _ _ Hev2) (ev_at _ _ _ _ Hev2)) as (p3&->&Hev3).
    cbn [mbind option_bind]. exists p3. split; [done|].
    pose proof (evolves_trans _ _ _ _ _ _ Hev1 (evolves_trans _ _ _ _ _ _ Hev2 Hev3)) as Hev.
    change (si_count (with_wr i1 _)) with (si_count i) in Hev. replace (si_count i - 1) with (r a) in Hev by lia.
    split; [|split; [apply (ev_other _ _ _ _ Hev)|split; [apply (ev_dir _ _ _ _ Hev)|]]].
    + eapply inv_evolves; [exact Hi0|exact Hev| |done]. rewrite bool_decide_false by apply not_elem_of_nil.
      unfold i1, stashed_as in *. rewrite (proj2 (Z.ltb_ge _ _) Eerr) in *.
      destruct (r a =? 0) eqn:E1; zb; repeat split; cbn; try done; try lia. cbn in Ewr. rewrite Ewr. apply Z.ltb_ge. lia.
    + pose proof (ev_at _ _ _ _ Hev) as [= E1 _ _]. rewrite E1. unfold i1, stashed_as.
      rewrite (proj2 (Z.ltb_ge _ _) Eerr). by destruct (r a =? 0).
Qed.

(** The files counted, and the loop over the inodes to stash. *)
Definition stats_total (s : hmdfs_stash_stats) : Z := ss_succeed s + ss_donothing s + ss_fail s.

Lemma update_stats_spec s c err :
  u32 (stats_total (hmdfs_update_stash_stats s c err)) = u32 (stats_total s + 1) /\
  ss_succeed (hmdfs_update_stash_stats s c err) = if 0 <? err then u32 (ss_succeed s + 1) else ss_succeed s.
Proof.
  unfold hmdfs_update_stash_stats. destruct (match c with Some _ => _ | None => _ end) as [ok fail].
  unfold stats_total. cbn. split; [|done].
  assert (E : 0 < err /\ err <> 0 /\ ~ err < 0 \/ err = 0 \/ ~ 0 < err /\ err <> 0 /\ err < 0) by lia.
  destruct (0 <? err) eqn:E1, (err =? 0) eqn:E2, (err <? 0) eqn:E3; zb; try lia.
  - rewrite <- Z.add_assoc, u32_add. f_equal. lia.
  - rewrite (Z.add_comm (ss_succeed s)), <- Z.add_assoc, u32_add. f_equal. lia.
  - rewrite Z.add_comm, u32_add. f_equal. lia.
Qed.

Definition restoring (p : stash_peer) (l : list Z) : list Z :=
  filter (fun a => status_of p a = Some HMDFS_REMOTE_INODE_RESTORING) l.

Lemma stash_inodes_ok l env : forall p o r stats,
  inv p [] o r -> NoDup l -> (forall a, a ∈ l -> status_of p a = Some HMDFS_REMOTE_INODE_STASHING) ->
  (forall a, env_ok (env a)) ->
  exists stats' p', hmdfs_stash_remote_inodes p stats l env = Some (stats', p') /\ inv p' [] o r /\
    (forall x, x ∉ l -> at_ p' x = at_ p x) /\
    (forall x, x ∈ l -> status_of p' x <> Some HMDFS_REMOTE_INODE_STASHING) /\
    u32 (stats_total stats') = u32 (stats_total stats + Z.of_nat (length l)) /\
    (u32 (ss_succeed stats') = u32 (ss_succeed stats + Z.of_nat (length (restoring p' l)))).
Proof.
  induction l as [|a l IH]; intros p o r stats Hi Hnd Hl He.
  { exists stats, p. split; [done|]. split; [done|]. split; [done|]. split; [by intros x ?%elem_of_nil|].
    split; cbn; f_equal; lia. }
  apply list.NoDup_cons in Hnd as [Ha Hnd]. pose proof (Hl a ltac:(by left)) as Hsa.
  unfold status_of in Hsa. destruct (inodes p !! a) as [i|] eqn:Hia; [|done]. injection Hsa as Hsa.
  destruct (stash_result (stash_dir p) i (env a)) as [[err c] dir'] eqn:Er.
  destruct (stash_one_ok p o r a i (env a) stats err c dir' Hi Hia Hsa (He a) Er) as (p1&Hp1&Hi1&Hot&_&Hst%status_pair).
  cbn [hmdfs_stash_remote_inodes]. rewrite Hp1. cbn [mbind option_bind].
  destruct (IH p1 o r (hmdfs_update_stash_stats stats c err) Hi1 Hnd) as (stats'&p'&->&Hi'&Hot'&Hns&Htot&Hsuc).
  { intros b Hb. rewrite (status_at p p1); [apply Hl; by right|]. apply Hot. by intros ->. }
  { done. }
  destruct (update_stats_spec stats c err) as [Ht Hs]. exists stats', p'. split; [done|]. split; [done|].
  assert (Hsta : status_of p' a = status_of p1 a) by (by apply status_at, Hot').
  split; [|split; [|split]].
  - intros x Hx. rewrite elem_of_cons in Hx. rewrite Hot' by tauto. apply Hot. tauto.
  - intros x [->|Hx]%elem_of_cons; [|by apply Hns]. rewrite Hsta, Hst. destruct (0 <? err); [done|]. by destruct (r a =? 0).
  - rewrite Htot, <- u32_add, Ht, u32_add. cbn [length]. f_equal. lia.
  - rewrite Hsuc, Hs. unfold restoring. rewrite filter_cons, Hsta, Hst. destruct (0 <? err).
    + rewrite decide_True by done. rewrite u32_add. cbn [length]. f_equal. lia.
    + by rewrite decide_False by (by destruct (r a =? 0)).
Qed.

(** ** Restoring *)

Lemma reset_ok p pend o r a :
  inv p pend o r -> a ∈ stashed_inode_list p ->
  exists p', hmdfs_reset_stashed_inode p a = Some p' /\ inv p' pend o r /\
    (forall x, x <> a -> at_ p' x = at_ p x) /\ stash_dir p' = stash_dir p /\
    (forall x, x ∈ stashed_inode_list p' <-> x ∈ stashed_inode_list p /\ x <> a) /\
    status_of p' a = (if r a =? 0 then None else Some HMDFS_REMOTE_INODE_NONE).
Proof.
  intros Hi Hs. destruct (proj1 (stashed_iff _ _ _ _ a Hi) Hs) as (i&Hia&Hst).
  destruct (live_at p a ltac:(by exists i)) as (i'&w&s&Ha). pose proof Ha as [= E _ _]. rewrite Hia in E. injection E as <-.
  pose proof (inv_node _ _ _ _ Hi a) as Hn. rewrite Ha in Hn. destruct Hn as (Hor&Hw&Hc&Hc0&Ew&Es&Hcache&_&Hpe).
  destruct (bool_decide (a ∈ pend)) eqn:Ep; [by rewrite Hpe in Hst|]. rewrite Hst in *. cbn [pin hold] in *.
  rewrite bool_decide_true in Es by done. subst s. unfold hmdfs_reset_stashed_inode.
  destruct (ihold_evolves p a i w true (inv_wf _ _ _ _ Hi) Ha) as (p1&->&Hev1). cbn [mbind option_bind].
  destruct (untrack_evolves p1 a _ w (ev_wf _ _ _ _ Hev1) (ev_at _ _ _ _ Hev1)) as (p2&->&Hev2).
  cbn [mbind option_bind]. cbn [si_count with_count] in Hev2. rewrite (proj2 (Z.eqb_neq _ _)) in Hev2 by lia.
  destruct (upd_inode_evolves p2 a _ w false (fun i => with_status i HMDFS_REMOTE_INODE_NONE (si_cache i) (si_need_open i))
    (ev_wf _ _ _ _ Hev2) (ev_at _ _ _ _ Hev2) eq_refl) as (p3&->&Hev3). cbn [mbind option_bind].
  destruct (iput_evolves p3 a _ w false (ev_wf _ _ _ _ Hev3) (ev_at _ _ _ _ Hev3)) as (p4&->&Hev4).
  cbn [si_count with_count with_status] in Hev4.
  pose proof (evolves_trans _ _ _ _ _ _ Hev1 (evolves_trans _ _ _ _ _ _ Hev2 (evolves_trans _ _ _ _ _ _ Hev3 Hev4))) as Hev.
  replace (si_count i + 1 - 1 - 1) with (r a) in Hev by lia.
  exists p4. split; [done|]. split; [|split; [|split; [|split]]].
  - eapply inv_evolves; [done|exact Hev| |done]. rewrite Ep. destruct (r a =? 0) eqn:E; zb.
    + split; [lia|]. split; [done|]. split; [|done]. rewrite Ew. apply Z.ltb_ge. lia.
    + cbn. split; [lia|]. split; [lia|]. split; [lia|]. split; [lia|]. split; [done|]. split; [done|].
      split; [|done]. intros Hne. by apply Hcache in Hne.
  - apply (ev_other _ _ _ _ Hev).
  - apply (ev_dir _ _ _ _ Hev).
  - intros x. destruct (Z.eq_dec x a) as [->|Hx].
    + pose proof (ev_at _ _ _ _ Hev) as [= _ _ E]. apply bool_decide_eq_false in E. tauto.
    + pose proof (ev_other _ _ _ _ Hev x Hx) as [= _ _ E]. rewrite (bd_iff _ _ E). tauto.
  - pose proof (ev_at _ _ _ _ Hev) as [= E1 _ _]. unfold status_of. rewrite E1. by destruct (r a =? 0).
Qed.

Lemma drop_stashed_loop_ok l : forall p pend o r,
  inv p pend o r -> NoDup l -> (forall a, a ∈ l -> a ∈ stashed_inode_list p) ->
  exists p', drop_stashed_loop p l = Some p' /\ inv p' pend o r /\ stash_dir p' = stash_dir p /\
    (forall x, x ∈ stashed_inode_list p' <-> x ∈ stashed_inode_list p /\ x ∉ l) /\
    (forall x, x ∉ l -> at_ p' x = at_ p x).
Proof.
  induction l as [|a l IH]; intros p pend o r Hi Hnd Hl.
  { exists p. split; [done|]. split; [done|]. split; [done|]. split; [|done]. intros x. rewrite elem_of_nil. tauto. }
  apply list.NoDup_cons in Hnd as [Ha Hnd]. cbn [drop_stashed_loop].
  destruct (reset_ok p pend o r a Hi (Hl a ltac:(by left))) as (p1&->&Hi1&Hot&Hd&Hs&_). cbn [mbind option_bind].
  destruct (IH p1 pend o r Hi1 Hnd) as (p'&->&Hi'&Hd'&Hs'&Hot').
  { intros b Hb. apply Hs. split; [apply Hl; by right|]. by intros ->. }
  exists p'. split; [done|]. split; [done|]. split; [congruence|]. split.
  - intros x. rewrite Hs', Hs, elem_of_cons. tauto.
  - intros x Hx. rewrite elem_of_cons in Hx. rewrite Hot' by tauto. apply Hot. tauto.
Qed.

Lemma drop_stashed_ok p pend o r :
  inv p pend o r ->
  exists p', hmdfs_drop_stashed_inodes p = Some p' /\ inv p' pend o r /\ stash_dir p' = stash_dir p /\
    stashed_inode_list p' = [] /\ stashed_inode_nr p' = 0.
Proof.
  intros Hi. destruct (drop_stashed_loop_ok (stashed_inode_list p) p pend o r Hi (wf_st _ (inv_wf _ _ _ _ Hi)) ltac:(done))
    as (p'&Hp&Hi'&Hd&Hs&_). exists p'. split; [done|]. split; [done|]. split; [done|].
  assert (E : stashed_inode_list p' = []).
  { destruct (stashed_inode_list p') as [|x l]; [done|]. by destruct (proj1 (Hs x) ltac:(by left)) as [? ?]. }
  split; [done|]. rewrite (wf_nr _ (inv_wf _ _ _ _ Hi')), E. done.
Qed.

Lemma lookup_stash_ok p l inum :
  (forall a, a ∈ l -> live p a) ->
  exists res, lookup_stash (inodes p) l inum = Some res /\
    match res with
    | Some a => a ∈ l /\ exists i, inodes p !! a = Some i /\ si_remote_ino i = inum
    | None => forall a i, a ∈ l -> inodes p !! a = Some i -> si_remote_ino i <> inum
    end.
Proof.
  induction l as [|a l IH]; intros Hl; cbn [lookup_stash].
  { exists None. split; [done|]. by intros a i ?%elem_of_nil. }
  destruct (Hl a ltac:(by left)) as [i Hi]. rewrite Hi. cbn [mbind option_bind].
  destruct (si_remote_ino i =? inum) eqn:E; zb.
  { exists (Some a). split; [done|]. split; [by left|]. by exists i. }
  destruct (IH (fun b Hb => Hl b ltac:(by right))) as ([b|]&->&Hb).
  - exists (Some b). split; [done|]. destruct Hb as [Hb ?]. split; [by right|done].
  - exists None. split; [done|]. intros b j [->|Hb']%elem_of_cons Hj; [congruence|by eapply Hb].
Qed.

(** ** New inodes *)

(** Whether a new inode is found to be stashed. *)
Definition found_stashed (p : stash_peer) (ino : Z) (enabled regular alloc : bool) : bool :=
  (enabled && need_rebuild_stash_list p && regular && alloc) && bool_decide (is_Some (stash_dir p !! ino)).

Lemma new_inode_evolves p a ino enabled regular alloc :
  wf p -> at_ p a = (None, false, false) -> (forall b i, inodes p !! b = Some i -> si_remote_ino i <> ino) ->
  let found := found_stashed p ino enabled regular alloc in
  exists p', new_inode p a ino enabled regular alloc = Some p' /\
    evolves a p p' (Some (mk_si ino (if found then HMDFS_REMOTE_INODE_RESTORING else HMDFS_REMOTE_INODE_NONE) None 0 false
                           (if found then 2 else 1)), false, found).
Proof.
  intros Hwf [= Ha Hw Hs] Hu. unfold new_inode, found_stashed. set (i0 := mk_si ino HMDFS_REMOTE_INODE_NONE None 0 false 1).
  set (p0 := set_inodes p (<[a := i0]> (inodes p))).
  assert (Hev : evolves a p p0 (Some i0, false, false)).
  { destruct Hwf as [? ? ? Hino]. split; [|..|done|done].
    - split; [done..|]. intros x y ix iy. cbn.
      intros [(<-&<-)|(?&?)]%lookup_insert_Some [(<-&<-)|(?&?)]%lookup_insert_Some E; [done| | |by eapply Hino].
      + by destruct (Hu y iy ltac:(done)).
      + by destruct (Hu x ix ltac:(done)).
    - unfold at_. cbn. by rewrite lookup_insert_eq, Hw, Hs.
    - intros x Hx. unfold at_. cbn. by rewrite lookup_insert_ne. }
  unfold hmdfs_remote_init_stash_status. change (need_rebuild_stash_list p0) with (need_rebuild_stash_list p).
  destruct (_ && alloc); cbn [negb andb]; [|by exists p0].
  rewrite (at_inodes _ _ _ _ _ (ev_at _ _ _ _ Hev)). cbn [mbind option_bind].
  change (stash_dir p0) with (stash_dir p). change (si_remote_ino i0) with ino.
  destruct (stash_dir p !! ino) as [f|] eqn:Ef; [|by exists p0].
  rewrite bool_decide_true by by eexists.
  destruct (upd_inode_evolves p0 a i0 false false (fun i => with_status i HMDFS_REMOTE_INODE_RESTORING (si_cache i) (si_need_open i))
    (ev_wf _ _ _ _ Hev) (ev_at _ _ _ _ Hev) eq_refl) as (p1&->&Hev1). cbn [mbind option_bind].
  destruct (ihold_evolves p1 a _ _ _ (ev_wf _ _ _ _ Hev1) (ev_at _ _ _ _ Hev1)) as (p2&->&Hev2). cbn [mbind option_bind].
  pose proof (track_evolves p2 a _ _ (ev_wf _ _ _ _ Hev2) (ev_at _ _ _ _ Hev2)) as Hev3.
  eexists; split; [done|]. eapply evolves_trans; [exact Hev|]. eapply evolves_trans; [exact Hev1|by eapply evolves_trans].
Qed.

Lemma new_inode_ok p pend o r a ino enabled regular alloc :
  inv p pend o r -> inodes p !! a = None -> (forall b i, inodes p !! b = Some i -> si_remote_ino i <> ino) ->
  exists p', new_inode p a ino enabled regular alloc = Some p' /\ inv p' pend o (bump r a 1) /\ keeps p p' /\
    stash_dir p' = stash_dir p.
Proof.
  intros Hi Ha Hu. pose proof (inv_node _ _ _ _ Hi a) as Hn. unfold at_ in Hn. rewrite Ha in Hn.
  destruct Hn as (Ho&Hr&Hw&Hs&Hp).
  destruct (new_inode_evolves p a ino enabled regular alloc (inv_wf _ _ _ _ Hi)) as (p'&Hp'&Hev);
    [unfold at_; by rewrite Ha, Hw, Hs|done|].
  exists p'. split; [done|]. split; [|split; [|apply (ev_dir _ _ _ _ Hev)]].
  - eapply inv_evolves; [exact Hi|exact Hev| |intros x Hx; by rewrite bump_other]. rewrite bump_same, Hp, Ho, Hr.
    unfold has_file. destruct (found_stashed _ _ _ _ _) eqn:Ef; cbn; repeat split; try done.
    unfold found_stashed in Ef. apply andb_true_iff in Ef as [_ Ef%bool_decide_eq_true]. done.
  - eapply evolves_keeps; [done|]. unfold status_of. by rewrite Ha.
Qed.

(** ** Removing the device *)

Lemma stashing_writer p o r a : inv p [] o r -> status_of p a = Some HMDFS_REMOTE_INODE_STASHING -> a ∈ wr_opened_inode_list p.
Proof.
  intros [_ Hn] Hs. specialize (Hn a). unfold status_of in Hs. unfold at_ in Hn. destruct (inodes p !! a) as [i|]; [|done].
  injection Hs as Hs. rewrite bool_decide_false in Hn by apply not_elem_of_nil. destruct Hn as (Hor&Hw&_&_&Ew&_).
  rewrite Hs in Hw. cbn [pin] in Hw. rewrite (proj2 (Z.ltb_lt _ _)) in Ew by lia. by apply bool_decide_eq_true in Ew.
Qed.

(** What removing the device does to a STASHING inode: its pins are given back. *)
Lemma cleanup_one p o r a i :
  inv p [] o r -> inodes p !! a = Some i -> si_status i = HMDFS_REMOTE_INODE_STASHING ->
  exists p1 p2 p3, upd_inode p a (fun i => with_status i HMDFS_REMOTE_INODE_NONE None (si_need_open i)) = Some p1 /\
    hmdfs_remote_del_wr_opened_inode p1 a = Some p2 /\ iput p2 a = Some p3 /\ inv p3 [] o r /\
    (forall x, x <> a -> at_ p3 x = at_ p x) /\ stash_dir p3 = stash_dir p /\
    status_of p3 a <> Some HMDFS_REMOTE_INODE_STASHING.
Proof.
  intros Hi Hia Hst. destruct (live_at p a ltac:(by exists i)) as (i'&w&s&Ha). pose proof Ha as [= E _ _].
  rewrite Hia in E. injection E as <-. pose proof (inv_node _ _ _ _ Hi a) as Hn. rewrite Ha, bool_decide_false in Hn by apply not_elem_of_nil.
  destruct Hn as (?&Hw&Hc&?&Ew&Es&_). rewrite Hst in *. cbn [pin hold] in *. rewrite bool_decide_false in Es by done.
  destruct (upd_inode_evolves p a i w s (fun i => with_status i HMDFS_REMOTE_INODE_NONE None (si_need_open i))
    (inv_wf _ _ _ _ Hi) Ha eq_refl) as (p1&Hp1&Hev1).
  destruct (del_wr_evolves p1 a _ w s (ev_wf _ _ _ _ Hev1) (ev_at _ _ _ _ Hev1)) as (p2&Hp2&Hev2).
  destruct (iput_evolves p2 a _ _ s (ev_wf _ _ _ _ Hev2) (ev_at _ _ _ _ Hev2)) as (p3&Hp3&Hev3).
  exists p1, p2, p3. do 3 (split; [done|]).
  pose proof (evolves_trans _ _ _ _ _ _ Hev1 (evolves_trans _ _ _ _ _ _ Hev2 Hev3)) as Hev.
  cbn [si_count with_wr with_status si_wr_opened_cnt] in Hev. replace (si_count i - 1) with (r a) in Hev by lia.
  replace (si_wr_opened_cnt i - 1) with (o a) in Hev by lia. subst w s. rewrite Hw in Hev.
  split; [|split; [apply (ev_other _ _ _ _ Hev)|split; [apply (ev_dir _ _ _ _ Hev)|]]].
  - eapply inv_evolves; [exact Hi|exact Hev| |done]. rewrite bool_decide_false by apply not_elem_of_nil.
    destruct (r a =? 0) eqn:E1; zb.
    + rewrite (proj2 (Z.eqb_eq _ _)) by lia. repeat split; lia || done.
    + assert (Eo : (if o a =? 0 then false else 0 <? o a + 1) = (0 <? o a)).
      { destruct (o a =? 0) eqn:E2; zb; [by rewrite E2|]. by rewrite !(proj2 (Z.ltb_lt _ _)) by lia. }
      cbn. rewrite Z.add_0_r. repeat split; cbn; done || lia.
  - pose proof (ev_at _ _ _ _ Hev) as [= E1 _ _]. unfold status_of. rewrite E1. by destruct (r a =? 0).
Qed.

Lemma cleanup_loop_ok l : forall p o r,
  inv p [] o r -> NoDup l -> (forall a, a ∈ l -> live p a) ->
  exists p', cleanup_loop p l = Some p' /\ inv p' [] o r /\ stash_dir p' = stash_dir p /\
    (forall x, x ∉ l -> at_ p' x = at_ p x) /\ (forall x, x ∈ l -> status_of p' x <> Some HMDFS_REMOTE_INODE_STASHING).
Proof. clear crc32.
  induction l as [|a l IH]; intros p o r Hi Hnd Hl.
  { exists p. split; [done|]. split; [done|]. split; [done|]. split; [done|]. by intros x ?%elem_of_nil. }
  apply list.NoDup_cons in Hnd as [Hal Hnd]. cbn [cleanup_loop]. destruct (Hl a ltac:(by left)) as [i Hia].
  rewrite Hia. cbn [mbind option_bind].
  assert (Hnext : exists p1, (if decide (si_status i = HMDFS_REMOTE_INODE_STASHING) then
      p ← upd_inode p a (fun i => with_status i HMDFS_REMOTE_INODE_NONE None (si_need_open i));
      p ← hmdfs_remote_del_wr_opened_inode p a; p ← iput p a; cleanup_loop p l else cleanup_loop p l) = cleanup_loop p1 l /\
    inv p1 [] o r /\ (forall x, x <> a -> at_ p1 x = at_ p x) /\ stash_dir p1 = stash_dir p /\
    status_of p1 a <> Some HMDFS_REMOTE_INODE_STASHING).
  { case_decide as Hst.
    - destruct (cleanup_one p o r a i Hi Hia Hst) as (p1&p2&p3&->&Hd&Hp&?). cbn [mbind option_bind]. rewrite Hd.
      cbn [mbind option_bind]. rewrite Hp. by exists p3.
    - exists p. split; [done|]. split; [done|]. split; [done|]. split; [done|]. unfold status_of. rewrite Hia. cbn. congruence. }
  destruct Hnext as (p1&->&Hi1&Hot&Hd1&Hst1). destruct (IH p1 o r Hi1 Hnd) as (p'&->&Hi'&Hd'&Hot'&Hs').
  { intros b Hb. destruct (Hl b ltac:(by right)) as [ib Hib]. assert (Hne : b <> a) by (by intros ->).
    pose proof (Hot b Hne) as [= E _ _]. exists ib. congruence. }
  exists p'. split; [done|]. split; [done|]. split; [congruence|]. split.
  - intros x Hx. rewrite elem_of_cons in Hx. rewrite Hot' by tauto. apply Hot. tauto.
  - intros x [->|Hx]%elem_of_cons; [|by apply Hs']. by rewrite (status_at p1) by by apply Hot'.
Qed.

Lemma untrack_loop_ok l : forall p (r : Z -> Z),
  wf p -> NoDup l -> (forall a, a ∈ l -> exists i w, at_ p a = (Some i, w, true) /\ si_count i = r a + 1) ->
  exists p', untrack_loop p l = Some p' /\ wf p' /\ stash_dir p' = stash_dir p /\
    (forall x, x ∉ l -> at_ p' x = at_ p x) /\
    (forall x i w, x ∈ l -> at_ p x = (Some i, w, true) ->
       at_ p' x = (if r x =? 0 then None else Some (with_count i (r x)), w, false)).
Proof. clear crc32.
  induction l as [|a l IH]; intros p r Hwf Hnd Hl.
  { exists p. split; [done|]. split; [done|]. split; [done|]. split; [done|]. by intros x i w ?%elem_of_nil. }
  apply list.NoDup_cons in Hnd as [Hal Hnd]. cbn [untrack_loop]. destruct (Hl a ltac:(by left)) as (i&w&Ha&Hc).
  destruct (untrack_evolves p a i w Hwf Ha) as (p1&->&Hev). cbn [mbind option_bind].
  replace (si_count i - 1) with (r a) in Hev by lia.
  destruct (IH p1 r (ev_wf _ _ _ _ Hev) Hnd) as (p'&->&Hwf'&Hd&Hot&Hin).
  { intros b Hb. rewrite (ev_other _ _ _ _ Hev) by (by intros ->). apply Hl. by right. }
  exists p'. split; [done|]. split; [done|]. split; [by rewrite Hd, (ev_dir _ _ _ _ Hev)|]. split.
  - intros x Hx. rewrite elem_of_cons in Hx. rewrite Hot by tauto. apply (ev_other _ _ _ _ Hev). tauto.
  - intros x j w' Hx Hj. apply elem_of_cons in Hx as [->|Hx].
    + rewrite Hot, (ev_at _ _ _ _ Hev) by done. rewrite Ha in Hj. by injection Hj as -> ->.
    + apply Hin; [done|]. by rewrite (ev_other _ _ _ _ Hev) by (by intros ->).
Qed.

(** Removing the device gives back every pin of the stash: whatever is STASHING or waits to
    be restored, afterwards the references of an inode and its writers are those from outside,
    an inode nobody else references is freed, nothing is STASHING, the stashed list is empty,
    and the stash files stay for the next time. *)
Theorem cleanup_releases_pins p o r :
  inv p [] o r ->
  exists p', hmdfs_stash_del_do_cleanup p true = Some p' /\
    stashed_inode_list p' = [] /\ stashed_inode_nr p' = 0 /\ stash_dir p' = stash_dir p /\
    forall a, status_of p' a <> Some HMDFS_REMOTE_INODE_STASHING /\
      match inodes p' !! a with
      | Some i => si_count i = r a /\ si_wr_opened_cnt i = o a /\ 0 < r a
      | None => r a = 0 /\ o a = 0
      end.
Proof. clear crc32.
  intros Hi. unfold hmdfs_stash_del_do_cleanup. cbn [negb].
  destruct (cleanup_loop_ok _ p o r Hi (wf_wr _ (inv_wf _ _ _ _ Hi))) as (p1&->&Hi1&Hd1&Hot1&Hns1).
  { intros a Ha. by eapply writer_live. }
  cbn [mbind option_bind]. assert (Hns : forall a, status_of p1 a <> Some HMDFS_REMOTE_INODE_STASHING).
  { intros a Ha. destruct (decide (a ∈ wr_opened_inode_list p)) as [Hin|Hout]; [by apply (Hns1 a)|].
    apply Hout. eapply stashing_writer; [done|]. by rewrite <- (status_at p p1) by auto. }
  pose proof (inv_node _ _ _ _ Hi1) as Hn.
  assert (Hl : forall a, a ∈ stashed_inode_list p1 -> exists i w, at_ p1 a = (Some i, w, true) /\
    si_count i = r a + 1 /\ si_wr_opened_cnt i = o a /\ 0 <= r a /\ 0 <= o a <= r a).
  { intros a Ha. destruct (proj1 (stashed_iff _ _ _ _ a Hi1) Ha) as (i&Hia&Hst). specialize (Hn a). unfold at_ in *.
    rewrite Hia in *. destruct Hn as (Hor&Hw&Hc&_). rewrite Hst in *. cbn [pin hold] in *.
    eexists i, _. rewrite (bool_decide_true _ Ha). split; [done|]. lia. }
  destruct (untrack_loop_ok (stashed_inode_list p1) p1 r (inv_wf _ _ _ _ Hi1) (wf_st _ (inv_wf _ _ _ _ Hi1)))
    as (p'&Hp'&Hwf'&Hd'&Hot'&Hin').
  { intros a Ha. destruct (Hl a Ha) as (i&w&?&?&_). by exists i, w. }
  exists p'. split; [done|]. assert (E : stashed_inode_list p' = []).
  { destruct (stashed_inode_list p') as [|x l] eqn:E; [done|]. exfalso.
    assert (Hx : bool_decide (x ∈ stashed_inode_list p') = true) by (apply bool_decide_true; rewrite E; by left).
    destruct (decide (x ∈ stashed_inode_list p1)) as [Hx1|Hx1].
    - destruct (Hl x Hx1) as (i&w&Hat&_). specialize (Hin' x i w Hx1 Hat). unfold at_ in Hin'. congruence.
    - specialize (Hot' x Hx1). unfold at_ in Hot'. injection Hot' as _ _ Hb. rewrite (bool_decide_false _ Hx1) in Hb. congruence. }
  split; [done|]. split; [by rewrite (wf_nr _ Hwf'), E|]. split; [congruence|]. intros a.
  destruct (decide (a ∈ stashed_inode_list p1)) as [Ha|Ha].
  - destruct (Hl a Ha) as (i&w&Hat&Hc&Hw&?&?). pose proof (Hin' a i w Ha Hat) as [= E1 _ _].
    destruct (proj1 (stashed_iff _ _ _ _ a Hi1) Ha) as (j&Hj&Hst). rewrite (at_inodes _ _ _ _ _ Hat) in Hj. injection Hj as <-.
    unfold status_of. rewrite E1. destruct (r a =? 0) eqn:Er; zb; cbn; [split; [done|lia]|]. rewrite Hst. split; [done|]. lia.
  - specialize (Hot' a Ha). rewrite (status_at p1) by done. split; [done|]. specialize (Hn a). specialize (Hns a).
    unfold status_of in Hns. unfold at_ in *. injection Hot' as -> _ _. destruct (inodes p1 !! a) as [i|]; [|by destruct Hn as (?&?&_)].
    rewrite (bool_decide_false (a ∈ [])) in Hn by apply not_elem_of_nil. rewrite (bool_decide_false _ Ha) in Hn.
    destruct Hn as (Hor&Hw&Hc&?&_&Hs&_). symmetry in Hs. apply bool_decide_eq_false in Hs. cbn in Hns.
    destruct (si_status i); [|done|done]. cbn [pin hold] in *. lia.
Qed.

(** What every call of the operation keeps, the iteration keeps. *)
Lemma iter_stash_ok {D St} (op : stash_peer -> D -> St -> list Z -> option (Z * St * stash_peer * D))
    (I : stash_peer -> D -> St -> Prop) alloc batches p d s :
  (forall p d s tbl, I p d s -> exists err s' p' d', op p d s tbl = Some (err, s', p', d') /\ I p' d' s') ->
  I p d s -> exists err s' p' d', hmdfs_iter_stash_file op alloc p d s batches = Some (err, s', p', d') /\ I p' d' s'.
Proof.
  intros Hop Hi. unfold hmdfs_iter_stash_file. destruct (negb alloc); [by eexists _, _, _, _|].
  revert p d s Hi. induction batches as [|[e|entries] batches IH]; intros p d s Hi; cbn [iter_loop]; [by eexists _, _, _, _..|].
  destruct (fill_table _ entries) as [|n tbl]; [by eexists _, _, _, _|].
  destruct (Hop p d s (n :: tbl) Hi) as (err&s1&p1&d1&->&Hi1). cbn [mbind option_bind].
  destruct (err =? 0); [by apply IH|by eexists _, _, _, _].
Qed.

Section RestoreLaws.
Context `{!SparseFileLaws F}.
Context {D : Type} (open_root : D -> bytes -> (Z + Z * bool) * D) (write_iter : Z -> D -> Z -> bytes -> Z * D)
  (fsync : Z -> D -> Z * D) (truncate : Z -> D -> D) (offlined : D -> bool)
  (open_stash unlink_stash : D -> Z -> Z) (init_ctx : D -> Z).
Abbreviation restore := (hmdfs_restore_file open_root write_iter fsync truncate offlined).
Abbreviation restore1 := (restore_one open_root write_iter fsync truncate offlined open_stash unlink_stash).

(** The inode of the device's view that restoring a stash file opens, if it gets that far. *)
Definition restore_opens (p : stash_peer) (d : D) (inum : Z) : option Z :=
  f ← stash_dir p !! inum;
  if negb (open_stash d inum =? 0) then None
  else
    a ← hmdfs_lookup_stash_inode p inum;
    '(err, meta) ← hmdfs_get_restore_file_metadata crc32 f inum;
    match a, (open_root d (rm_dst meta)).1 with
    | Some _, inr (b, true) => if err =? 0 then Some b else None
    | _, _ => None
    end.

(** The writers and references after it: the opened file counts until it is released. *)
Definition opened_by (b : option Z) (f : Z -> Z) : Z -> Z := match b with Some b => bump f b 1 | None => f end.

(** An inode is left alone, or is no longer stashed. *)
Definition settled (p p' : stash_peer) (pend : list Z) (o r : Z -> Z) (inum err : Z) (keep : bool) : Prop :=
  inv p' pend o r /\ keeps p p' /\ stash_dir p' = stash_dir p /\ (keep = true <-> err = - ESHUTDOWN) /\
  (keep = false -> forall a i, a ∈ stashed_inode_list p' -> inodes p' !! a = Some i -> si_remote_ino i <> inum) /\
  (keep = true -> forall x, x ∈ stashed_inode_list p' <-> x ∈ stashed_inode_list p) /\
  (forall x, x ∈ stashed_inode_list p' -> x ∈ stashed_inode_list p).

(** Resetting the pinned inode settles its number. *)
Lemma reset_settles p0 p pend o r a i inum err :
  inv p pend o r -> keeps p0 p -> stash_dir p = stash_dir p0 ->
  (forall x, x ∈ stashed_inode_list p <-> x ∈ stashed_inode_list p0) ->
  a ∈ stashed_inode_list p -> inodes p !! a = Some i -> si_remote_ino i = inum -> err <> - ESHUTDOWN ->
  exists p', hmdfs_reset_stashed_inode p a = Some p' /\ settled p0 p' pend o r inum err false.
Proof.
  intros Hi Hk0 Hd Hl Ha Hia Hino Herr. destruct (reset_ok p pend o r a Hi Ha) as (p'&->&Hi'&Hot&Hd'&Hs&Hst').
  exists p'. split; [done|]. split; [done|]. split.
  { eapply keeps_trans; [done|]. intros x Hx. destruct (Z.eq_dec x a) as [->|Hne]; [|by rewrite (status_at p) by auto].
    destruct (proj1 (stashed_iff _ _ _ _ a Hi) Ha) as (j&Hj&Hsj). unfold status_of in Hx. rewrite Hj in Hx. cbn in Hx. congruence. } split; [congruence|]. split; [done|]. split; [|split; [done|]].
  - intros _ b j Hb Hj Hne. apply Hs in Hb as [_ Hba]. pose proof (Hot b Hba) as [= E _ _]. rewrite Hj in E. symmetry in E.
    apply Hba. apply (wf_ino _ (inv_wf _ _ _ _ Hi) b a j i); congruence.
  - intros x Hx. apply Hl. by apply Hs in Hx as [? _].
Qed.

Lemma keep_settled p0 p pend o r inum err :
  inv p pend o r -> keeps p0 p -> stash_dir p = stash_dir p0 ->
  (forall x, x ∈ stashed_inode_list p <-> x ∈ stashed_inode_list p0) -> err = - ESHUTDOWN ->
  settled p0 p pend o r inum err true.
Proof.
  intros Hi Hk Hd Hl He. split; [done|]. split; [done|]. split; [done|]. split; [done|]. split; [done|]. split; [done|]. intros x. apply Hl.
Qed.

(** The pinned inode of a stash file, once its flag is set. *)
Lemma pinned_ready p pend o r a i inum :
  inv p pend o r -> a ∈ stashed_inode_list p -> inodes p !! a = Some i -> si_remote_ino i = inum ->
  hmdfs_lookup_stash_inode p inum = Some (Some a) /\ si_status i = HMDFS_REMOTE_INODE_RESTORING /\
  exists p1, upd_inode p a (fun i => with_status i (si_status i) (si_cache i) true) = Some p1 /\
    inv p1 pend o r /\ keeps p p1 /\ stash_dir p1 = stash_dir p /\
    (forall x, (inodes p1 !! x = None <-> inodes p !! x = None) /\
               (x ∈ stashed_inode_list p1 <-> x ∈ stashed_inode_list p)) /\
    exists i1, inodes p1 !! a = Some i1 /\ si_remote_ino i1 = inum.
Proof.
  intros Hi Ha Hia Hino. split.
  { unfold hmdfs_lookup_stash_inode. destruct (lookup_stash_ok p (stashed_inode_list p) inum) as ([b|]&Hlk&Hres).
    { intros b Hb. destruct (proj1 (stashed_iff _ _ _ _ b Hi) Hb) as (j&?&_). by exists j. }
    - destruct Hres as (Hb&j&Hj&Hjn). rewrite Hlk. do 2 f_equal.
      apply (wf_ino _ (inv_wf _ _ _ _ Hi) b a j i); congruence.
    - by destruct (Hres a i Ha Hia). }
  destruct (proj1 (stashed_iff _ _ _ _ a Hi) Ha) as (i'&Hia'&Hst). rewrite Hia in Hia'. injection Hia' as <-.
  split; [done|].
  destruct (live_at p a ltac:(by exists i)) as (i'&w&s&Hat). pose proof Hat as [= E _ _]. rewrite Hia in E. injection E as <-.
  destruct (upd_inode_evolves p a i w s (fun i => with_status i (si_status i) (si_cache i) true) (inv_wf _ _ _ _ Hi) Hat eq_refl)
    as (p1&Hp1&Hev). exists p1. split; [done|]. split; [|split; [by eapply evolves_keeps_inode|split; [apply (ev_dir _ _ _ _ Hev)|split]]].
  - eapply inv_evolves; [done|exact Hev| |done]. pose proof (inv_node _ _ _ _ Hi a) as Hn. by rewrite Hat in Hn.
  - intros x. destruct (Z.eq_dec x a) as [->|Hx].
    + pose proof (ev_at _ _ _ _ Hev) as Hv. injection Hv as Ei _ Es. injection Hat as Ei' _ Es'. rewrite Ei, Ei'.
      split; [done|]. rewrite <- Es' in Es. exact (bd_iff _ _ Es).
    + pose proof (ev_other _ _ _ _ Hev x Hx) as Hv. injection Hv as Ei _ Es. rewrite Ei. split; [done|]. exact (bd_iff _ _ Es).
  - eexists. split; [by rewrite (at_inodes _ _ _ _ _ (ev_at _ _ _ _ Hev))|]. done.
Qed.

Lemma restore_file_ok p d pend o r inum f :
  inv p pend o r -> stash_dir p !! inum = Some f -> open_stash d inum = 0 ->
  (forall b, restore_opens p d inum = Some b -> live p b) ->
  exists err keep pages p' d', restore p d inum f = Some (err, keep, pages, p', d') /\
    let b := restore_opens p d inum in settled p p' pend (opened_by b o) (opened_by b r) inum err keep.
Proof.
  intros Hi Hf Hos Hb. unfold restore_opens in *. rewrite Hf, Hos in *. cbn [mbind option_bind Z.eqb negb] in *.
  unfold hmdfs_restore_file, hmdfs_lookup_stash_inode in *.
  destruct (lookup_stash_ok p (stashed_inode_list p) inum) as ([a|]&Hlk&Hres).
  { intros a Ha. destruct (proj1 (stashed_iff _ _ _ _ a Hi) Ha) as (i&?&_). by exists i. }
  2: { rewrite Hlk in *. cbn [mbind option_bind]. do 5 eexists. split; [done|].
       destruct (hmdfs_get_restore_file_metadata crc32 f inum) as [[? ?]|]; cbn [mbind option_bind opened_by];
         (split; [done|]; split; [by intros ?|]; split; [done|]; split; [done|]; split; [by intros _|done]). }
  destruct Hres as (Ha&i&Hia&Hino).
  destruct (pinned_ready p pend o r a i inum Hi Ha Hia Hino) as (_&Hst&p1&Hup&Hi1&Hk1&Hd1&Hat1&i1&Hia1&Hino1).
  rewrite Hlk in *. cbn [mbind option_bind] in *. rewrite Hia. cbn [mbind option_bind].
  rewrite bool_decide_true by done. cbn [negb]. rewrite Hup. cbn [mbind option_bind].
  assert (Ha1 : a ∈ stashed_inode_list p1) by (by apply Hat1).
  unfold hmdfs_open_restore_dst_file. destruct (metadata_spec crc32 f inum) as (err&meta&Hm&_&Hgood).
  rewrite Hm in *. cbn [mbind option_bind] in *.
  destruct (err =? 0) eqn:E0; zb; cbn [negb mbind option_bind].
  2: { replace (match (open_root d (rm_dst meta)).1 with inl _ => None | inr (b, true) => None | inr (b, false) => None end)
      with (@None Z) by (by destruct (open_root d (rm_dst meta)).1 as [?|[? []]]). cbn [opened_by].
    destruct (err =? - ESHUTDOWN) eqn:E1; zb.
    - do 5 eexists. split; [done|]. apply keep_settled; [done|done|done|intros x; apply Hat1|done].
    - destruct (reset_settles p p1 pend o r a i1 inum err Hi1 Hk1 Hd1 (fun x => proj2 (Hat1 x)) Ha1 Hia1 Hino1 E1) as (p'&->&Hs).
      cbn [mbind option_bind]. do 5 eexists. split; [done|done]. }
  subst err. destruct (Hgood eq_refl) as (_&_&_&_&_&x0&Hx0&_).
  destruct (open_root d (rm_dst meta)) as [[e|[b other]] d1] eqn:Eo; cbn [fst mbind option_bind] in *.
  { cbn [opened_by]. destruct ((if offlined d1 then - ESHUTDOWN else e) =? - ESHUTDOWN) eqn:E1; zb.
    - do 5 eexists. split; [done|]. apply keep_settled; [done|done|done|intros x; apply Hat1|done].
    - destruct (reset_settles p p1 pend o r a i1 inum _ Hi1 Hk1 Hd1 (fun x => proj2 (Hat1 x)) Ha1 Hia1 Hino1 E1) as (p'&->&Hs).
      cbn [mbind option_bind]. do 5 eexists. split; [done|done]. }
  assert (Hopen : exists p2, (if other then open_writable p1 b else Some p1) = Some p2 /\
    let b' := if other then Some b else None in inv p2 pend (opened_by b' o) (opened_by b' r) /\ keeps p p2 /\
    stash_dir p2 = stash_dir p1 /\ stashed_inode_list p2 = stashed_inode_list p1 /\
    exists i2, inodes p2 !! a = Some i2 /\ si_remote_ino i2 = inum).
  { destruct other; [|exists p1; split; [done|]; split; [done|]; split; [done|]; split; [done|]; split; [done|by exists i1]].
    destruct (open_ok p1 pend o r b Hi1) as (p2&Hp2&Hi2&Hk2).
    { destruct (Hb b eq_refl) as [ib Hib]. unfold live. destruct (inodes p1 !! b) eqn:E; [done|].
      apply Hat1 in E. congruence. }
    exists p2. split; [done|]. destruct (open_frame _ _ _ Hp2) as (?&?&Hf2). split; [done|].
    split; [by eapply keeps_trans|]. split; [done|]. split; [done|].
    specialize (Hf2 a). rewrite Hia1 in Hf2. destruct (inodes p2 !! a) as [i2|]; [|done]. injection Hf2 as E _.
    exists i2. split; [done|congruence]. }
  destruct Hopen as (p2&->&Hi2&Hk2&Hd2&Hl2&i2&Hia2&Hino2). cbn [mbind option_bind] in *.
  replace (if other then Some b else None) with (match inr (b, other) : Z + Z * bool with
    | inr (b, true) => Some b | _ => None end) in Hi2 by (by destruct other).
  assert (Hl2' : forall x, x ∈ stashed_inode_list p2 <-> x ∈ stashed_inode_list p) by (intros x; rewrite Hl2; apply Hat1).
  assert (Hreset : forall err, err <> - ESHUTDOWN -> exists p', hmdfs_reset_stashed_inode p2 a = Some p' /\
    settled p p' pend (opened_by (if other then Some b else None) o) (opened_by (if other then Some b else None) r) inum err false).
  { intros err He. eapply reset_settles; [by destruct other|done|congruence|done|by apply Hl2'|done|done|done]. }
  destruct (hmdfs_need_abort_restore a (b, other)).
  { destruct (Hreset 0 ltac:(done)) as (p'&->&Hs). cbn [mbind option_bind]. do 5 eexists. split; [done|].
    by destruct other. }
  destruct (restore_src_total (write_iter b) (fsync b) (truncate b) offlined f (rm_data_offs meta) d1) as (err&d'&->); [lia|].
  cbn [mbind option_bind]. destruct (err =? - ESHUTDOWN) eqn:E1; zb.
  - do 5 eexists. split; [done|]. destruct other; apply keep_settled; (done || congruence).
  - destruct (Hreset err E1) as (p'&->&Hs). cbn [mbind option_bind]. do 5 eexists. split; [done|]. by destruct other.
Qed.

Lemma restore_one_ok p d stats pend o r inum :
  inv p pend o r -> (forall b, restore_opens p d inum = Some b -> live p b) ->
  exists err stats' p' d', restore1 p d stats inum = Some (err, stats', p', d') /\
    let b := restore_opens p d inum in inv p' pend (opened_by b o) (opened_by b r) /\ keeps p p' /\
    (err = 0 \/ err = - ESHUTDOWN) /\
    (forall x, x ∈ stashed_inode_list p' -> x ∈ stashed_inode_list p) /\
    (forall n, n <> inum -> stash_dir p' !! n = stash_dir p !! n) /\
    (err = - ESHUTDOWN -> stash_dir p' = stash_dir p).
Proof.
  intros Hi Hb. unfold restore_one. destruct (stash_dir p !! inum) as [f|] eqn:Ef.
  2: { unfold restore_opens. rewrite Ef. cbn [mbind option_bind opened_by]. do 4 eexists. split; [done|].
       split; [done|]. split; [by intros ?|]. split; [auto|]. done. }
  destruct (open_stash d inum =? 0) eqn:Eo; zb; cbn [negb].
  2: { unfold restore_opens. rewrite Ef. cbn [mbind option_bind]. rewrite (proj2 (Z.eqb_neq _ _)) by done.
       do 4 eexists. split; [done|]. split; [done|]. split; [by intros ?|]. split; [auto|]. done. }
  destruct (restore_file_ok p d pend o r inum f Hi Ef Eo Hb) as (err&keep&pages&p1&d1&->&Hs). cbn [mbind option_bind].
  cbv zeta in Hs. destruct Hs as (Hi1&Hk1&Hd1&Hk&Hno&Hkeep&Hsub).
  destruct keep; cbn [negb andb].
  - assert (err = - ESHUTDOWN) as -> by (by apply Hk). do 4 eexists. split; [done|]. split; [done|]. split; [done|].
    split; [by right|]. rewrite Hd1. split; [done|]. by split.
  - rewrite (proj2 (Z.eqb_neq err _)) by (intros E; by apply Hk in E).
    destruct (unlink_stash d1 inum =? 0); do 4 eexists; (split; [done|]).
    + split; [|split; [done|split; [by left|split; [done|split; [|done]]]]].
      * apply inv_set_dir; [done|]. intros a i Ha Hia. specialize (Hno eq_refl a i Ha Hia).
        rewrite lookup_delete_ne by congruence.
        pose proof (inv_node _ _ _ _ Hi1 a) as Hn. unfold at_ in Hn. rewrite Hia in Hn.
        destruct Hn as (_&_&_&_&_&_&_&Hfile&_). apply Hfile.
        destruct (proj1 (stashed_iff _ _ _ _ a Hi1) Ha) as (i'&Hi'&Hst). congruence.
      * intros n Hn. cbn. by rewrite lookup_delete_ne, Hd1.
    + split; [done|]. split; [done|]. split; [by left|]. rewrite Hd1. done.
Qed.

(** ** Every interleaving *)

(** The handler that holds offline_cb_lock, if any: it prepares the fetched inodes one by one,
    and then stashes them if it is the asynchronous one. *)
Inductive work := Idle | Preparing (todo : list Z) (stash : bool) | Stashing (todo : list Z).

(** The peer, the work, and the writers and references from outside of the stash. *)
Record mstate := mk_m { m_peer : stash_peer; m_work : work; m_writers : Z -> Z; m_refs : Z -> Z }.

Definition m_start : mstate := mk_m new_peer Idle (fun _ => 0) (fun _ => 0).

(** A new inode, references and writers coming and going, a page written back, a handler
    fetching, preparing an inode, going on and stashing one, the restoring of one stash file,
    the dropping of one inode, and the rebuild flag. *)
Inductive stash_op :=
| OpNew (a ino : Z) (enabled regular alloc : bool)
| OpGet (a : Z)
| OpPut (a : Z)
| OpOpen (a : Z)
| OpRelease (a : Z)
| OpWritepage (a isize index : Z) (buf : bytes)
| OpFetch (stash : bool)
| OpInit (cache : Z + cache_info)
| OpNext
| OpStash (stats : hmdfs_stash_stats) (env : stash_env)
| OpRestore (d : D) (stats : hmdfs_restore_stats) (inum : Z)
| OpDrop
| OpCheck (enabled : bool) (entries : Z + list (bytes * Z))
| OpRebuilt (err : Z).

Definition liveb (p : stash_peer) (a : Z) : bool := match inodes p !! a with Some _ => true | None => false end.

#[local] Instance env_ok_dec env : Decision (env_ok env).
Proof. unfold env_ok. apply _. Defined.

(** An operation that cannot happen in a state leaves it alone; [None] is an access to a freed
    inode. *)
Definition do_op (s : mstate) (op : stash_op) : option mstate :=
  let 'mk_m p w o r := s in
  match op with
  | OpNew a ino enabled regular alloc =>
      if liveb p a || negb (bool_decide (map_Forall (fun _ i => si_remote_ino i <> ino) (inodes p))) then Some s
      else p ← new_inode p a ino enabled regular alloc; Some (mk_m p w o (bump r a 1))
  | OpGet a => if liveb p a then p ← ihold p a; Some (mk_m p w o (bump r a 1)) else Some s
  | OpPut a => if o a <? r a then p ← iput p a; Some (mk_m p w o (bump r a (-1))) else Some s
  | OpOpen a => if liveb p a then p ← open_writable p a; Some (mk_m p w (bump o a 1) (bump r a 1)) else Some s
  | OpRelease a =>
      if 0 <? o a then p ← release_writable p a; Some (mk_m p w (bump o a (-1)) (bump r a (-1))) else Some s
  | OpWritepage a isize index buf =>
      if liveb p a then '(_, p) ← hmdfs_remote_do_writepage p a isize index buf; Some (mk_m p w o r) else Some s
  | OpFetch stash =>
      match w with
      | Idle => '(l, p) ← hmdfs_stash_fetch_ready_files p; Some (mk_m p (Preparing l stash) o r)
      | _ => Some s
      end
  | OpInit cache =>
      match w with
      | Preparing (a :: l) b => p ← hmdfs_init_stash_file_cache p a cache; Some (mk_m p (Preparing l b) o r)
      | _ => Some s
      end
  | OpNext =>
      match w with
      | Preparing [] true => Some (mk_m p (Stashing (stashing p)) o r)
      | Preparing [] false | Stashing [] => Some (mk_m p Idle o r)
      | _ => Some s
      end
  | OpStash stats env =>
      match w with
      | Stashing (a :: l) =>
          if bool_decide (env_ok env) then '(_, p) ← stash_one p stats a env; Some (mk_m p (Stashing l) o r) else Some s
      | _ => Some s
      end
  | OpRestore d stats inum =>
      let b := restore_opens p d inum in
      if match b with Some b => liveb p b | None => true end then
        '(_, _, p, _) ← restore1 p d stats inum; Some (mk_m p w (opened_by b o) (opened_by b r))
      else Some s
  | OpDrop =>
      match stashed_inode_list p with
      | a :: _ => p ← hmdfs_reset_stashed_inode p a; Some (mk_m p w o r)
      | [] => Some s
      end
  | OpCheck enabled entries => Some (mk_m (hmdfs_stash_add_do_check p enabled entries) w o r)
  | OpRebuilt err => Some (mk_m (rebuild_done p err) w o r)
  end.

Fixpoint do_ops (ops : list stash_op) (s : mstate) : option mstate :=
  match ops with
  | [] => Some s
  | op :: ops => s ← do_op s op; do_ops ops s
  end.

Definition pending (w : work) : list Z := match w with Preparing l _ => l | _ => [] end.

(** The inodes a handler has still to stash are STASHING. *)
Definition work_ok (p : stash_peer) (w : work) : Prop :=
  match w with
  | Idle => True
  | Preparing l _ => NoDup l
  | Stashing l => NoDup l /\ forall a, a ∈ l -> status_of p a = Some HMDFS_REMOTE_INODE_STASHING
  end.

Definition m_inv (s : mstate) : Prop :=
  inv (m_peer s) (pending (m_work s)) (m_writers s) (m_refs s) /\ work_ok (m_peer s) (m_work s).

Lemma work_keeps p p' w : keeps p p' -> work_ok p w -> work_ok p' w.
Proof. intros Hk. destruct w as [|l b|l]; [done|done|]. intros [? Hl]. split; [done|]. intros a Ha. by apply Hk, Hl. Qed.

Lemma inv_rebuild p pend o r b : inv p pend o r -> inv (set_rebuild p b) pend o r.
Proof. intros [[? ? ? ?] Hn]. split; [by split|]. apply Hn. Qed.

Lemma liveb_spec p a : liveb p a = true <-> live p a.
Proof. unfold liveb, live. destruct (inodes p !! a); split; done || by intros [? ?]. Qed.

Lemma start_inv : m_inv m_start.
Proof.
  split; [|done]. split.
  - split; [apply NoDup_nil_2|apply NoDup_nil_2|done|]. intros a b i j Ha. cbn in Ha. by rewrite lookup_empty in Ha.
  - intros a. unfold at_. cbn. rewrite lookup_empty. done.
Qed.

(** The steps of the handlers that hold offline_cb_lock. *)
Lemma handler_step p w o r op :
  m_inv (mk_m p w o r) ->
  match op with OpFetch _ | OpInit _ | OpNext | OpStash _ _ => True | _ => False end ->
  exists s', do_op (mk_m p w o r) op = Some s' /\ m_inv s'.
Proof.
  intros Hm Hop. pose proof Hm as [Hi Hw]. cbn [m_peer m_work m_writers m_refs] in *.
  destruct op as [| | | | | |b|cache| |stats env| | | |]; try done; cbn [do_op].
  - destruct w; [|by eexists..]. cbn [pending] in Hi.
    pose proof (wf_wr _ (inv_wf _ _ _ _ Hi)) as Hnd.
    destruct (fetch_loop_ok (wr_opened_inode_list p) p [] o r Hi Hnd) as (p'&Hf&Hi'&_).
    { intros a Ha. split; [done|apply not_elem_of_nil]. }
    unfold hmdfs_stash_fetch_ready_files. rewrite Hf. cbn [mbind option_bind]. eexists; split; [done|].
    rewrite app_nil_r in Hi'. split; [done|]. cbn. by apply list.NoDup_filter.
  - destruct w as [|[|a l] b|]; [by eexists..| |by eexists]. cbn [pending work_ok] in *.
    apply list.NoDup_cons in Hw as [Ha Hnd].
    destruct (init_ok p (a :: l) o r a cache Hi ltac:(by left)) as (p'&->&Hi'&_). cbn [mbind option_bind].
    eexists; split; [done|]. rewrite filter_cons, decide_False in Hi' by (intros Hx; by apply Hx).
    rewrite filter_all in Hi' by (by intros x Hx ->). by split.
  - destruct w as [|[|a l] []|[|a l]]; eexists; (split; [done|]); try (by split).
    split; [done|]. cbn [m_peer m_work work_ok]. unfold stashing. split.
    + apply list.NoDup_filter, (wf_wr _ (inv_wf _ _ _ _ Hi)).
    + by intros a [? _]%list_elem_of_filter.
  - destruct w as [|l b|[|a l]]; [by eexists..|]. cbn [pending work_ok] in *. destruct Hw as [Hnd Hst].
    destruct (bool_decide (env_ok env)) eqn:E; [|by eexists]. apply bool_decide_eq_true in E.
    apply list.NoDup_cons in Hnd as [Ha Hnd]. pose proof (Hst a ltac:(by left)) as Hsa.
    unfold status_of in Hsa. destruct (inodes p !! a) as [i|] eqn:Hia; [|done]. injection Hsa as Hsa.
    destruct (stash_result (stash_dir p) i env) as [[err c] dir'] eqn:Er.
    destruct (stash_one_ok p o r a i env stats err c dir' Hi Hia Hsa E Er) as (p'&->&Hi'&Hot&_).
    cbn [mbind option_bind]. eexists; split; [done|]. split; [done|]. split; [done|].
    intros b Hb. cbn [m_peer]. rewrite (status_at p p'); [by apply Hst; right|]. apply Hot. by intros ->.
Qed.

Lemma do_op_ok s op : m_inv s -> exists s', do_op s op = Some s' /\ m_inv s'.
Proof.
  destruct s as [p w o r]. intros Hm. pose proof Hm as [Hi Hw]. cbn [m_peer m_work m_writers m_refs] in *.
  destruct op as [a ino en reg al|a|a|a|a|a isize index buf| | | | |d stats inum| |en entries|err];
    try (by apply handler_step); cbn [do_op].
  - destruct (_ || _) eqn:E; [by eexists|]. apply orb_false_iff in E as [E1 E2]. apply negb_false_iff, bool_decide_eq_true in E2.
    unfold liveb in E1. destruct (inodes p !! a) eqn:Ea; [done|].
    destruct (new_inode_ok p _ o r a ino en reg al Hi Ea) as (p'&->&Hi'&Hk&_); [by intros b i; apply E2|].
    eexists; split; [done|]. split; [done|by eapply work_keeps].
  - destruct (liveb p a) eqn:E; [|by eexists]. apply liveb_spec in E.
    destruct (get_ok _ _ _ _ _ Hi E) as (p'&->&?&?). eexists; split; [done|]. split; [done|by eapply work_keeps].
  - destruct (o a <? r a) eqn:E; zb; [|by eexists].
    destruct (put_ok _ _ _ _ _ Hi E) as (p'&->&?&?). eexists; split; [done|]. split; [done|by eapply work_keeps].
  - destruct (liveb p a) eqn:E; [|by eexists]. apply liveb_spec in E.
    destruct (open_ok _ _ _ _ _ Hi E) as (p'&->&?&?). eexists; split; [done|]. split; [done|by eapply work_keeps].
  - destruct (0 <? o a) eqn:E; zb; [|by eexists].
    destruct (release_writable_ok _ _ _ _ _ Hi E) as (p'&->&?&?). eexists; split; [done|]. split; [done|by eapply work_keeps].
  - destruct (liveb p a) eqn:E; [|by eexists]. apply liveb_spec in E.
    destruct (writepage_ok _ _ _ _ _ isize index buf Hi E) as (res&p'&->&?&Hs&_). eexists; split; [done|].
    split; [done|]. eapply work_keeps; [|done]. intros x. by rewrite Hs.
  - cbv zeta. destruct (match restore_opens p d inum with Some b => liveb p b | None => true end) eqn:E; [|by eexists].
    destruct (restore_one_ok p d stats _ o r inum Hi) as (err&stats'&p'&d'&->&Hi'&Hk&_).
    { intros b Hb. rewrite Hb in E. by apply liveb_spec. }
    eexists; split; [done|]. split; [done|by eapply work_keeps].
  - destruct (stashed_inode_list p) as [|a l] eqn:El; [by eexists|].
    destruct (reset_settles p p _ o r a (default (mk_si 0 HMDFS_REMOTE_INODE_NONE None 0 false 0) (inodes p !! a))
      (si_remote_ino (default (mk_si 0 HMDFS_REMOTE_INODE_NONE None 0 false 0) (inodes p !! a))) 0 Hi)
      as (p'&->&Hi'&Hk&_); [by intros ?|done|done|rewrite El; by left| |done|done|].
    { destruct (proj1 (stashed_iff _ _ _ _ a Hi)) as (i&->&_); [rewrite El; by left|done]. }
    eexists; split; [done|]. split; [done|by eapply work_keeps].
  - eexists; split; [done|]. unfold hmdfs_stash_add_do_check. destruct entries; [done|]. destruct (_ && _); [|done].
    split; [by apply inv_rebuild|by destruct w].
  - eexists; split; [done|]. unfold rebuild_done. destruct (_ =? _); [done|]. split; [by apply inv_rebuild|by destruct w].
Qed.

Lemma do_ops_ok ops : forall s, m_inv s -> exists s', do_ops ops s = Some s' /\ m_inv s'.
Proof.
  induction ops as [|op ops IH]; intros s Hs; [by exists s|].
  destruct (do_op_ok s op Hs) as (s1&Hr&Hs1). cbn [do_ops]. rewrite Hr. cbn [mbind option_bind]. by apply IH.
Qed.

(** ** Handlers as a whole *)

(** The writers that are not waiting to be restored. *)
Definition to_stash (p : stash_peer) : list Z :=
  filter (fun a => status_of p a <> Some HMDFS_REMOTE_INODE_RESTORING) (wr_opened_inode_list p).

Lemma do_stash_ok p o r cache env :
  inv p [] o r -> (forall a, env_ok (env a)) ->
  exists stats p', hmdfs_stash_offline_do_stash p true cache env = Some (stats, p') /\ inv p' [] o r /\
    (forall a, status_of p' a <> Some HMDFS_REMOTE_INODE_STASHING) /\
    (forall a, a ∉ to_stash p -> status_of p' a = status_of p a) /\
    u32 (stats_total stats) = u32 (Z.of_nat (length (to_stash p))) /\
    u32 (ss_succeed stats) = u32 (Z.of_nat (length (restoring p' (to_stash p)))).
Proof.
  intros Hi He. unfold hmdfs_stash_offline_do_stash, hmdfs_stash_fetch_ready_files. cbn [negb].
  pose proof (wf_wr _ (inv_wf _ _ _ _ Hi)) as Hnd.
  destruct (fetch_loop_ok (wr_opened_inode_list p) p [] o r Hi Hnd) as (p1&Hf&Hi1&Hw1&Hs1&_).
  { intros a Ha. split; [done|apply not_elem_of_nil]. }
  cbv zeta in *. rewrite Hf. cbn [mbind option_bind]. rewrite app_nil_r in Hi1.
  set (l := filter _ _) in *. assert (Hndl : NoDup l) by (by apply list.NoDup_filter).
  destruct (init_loop_ok l cache p1 o r Hi1 Hndl) as (p2&->&Hi2&Hs2&Hw2&_). cbn [mbind option_bind].
  assert (Hst : forall x, x ∈ stashing p2 <-> x ∈ to_stash p).
  { intros x. unfold stashing, to_stash. rewrite !list_elem_of_filter.
    change (si_status <$> inodes p2 !! x) with (status_of p2 x). rewrite Hs2, Hw2, Hw1, Hs1.
    assert (Hlx : x ∈ l <-> status_of p x = Some HMDFS_REMOTE_INODE_NONE /\ x ∈ wr_opened_inode_list p)
      by (unfold l; by rewrite list_elem_of_filter).
    destruct (decide (x ∈ l)) as [Hx|Hx].
    - apply Hlx in Hx as [-> Hx]. split; intros _; by split.
    - split; [intros [-> ?]; by split|]. intros [Hne Hx']. split; [|done].
      destruct (writer_live _ _ _ _ _ Hi Hx') as [i Hix]. unfold status_of in *. rewrite Hix in *. cbn in *.
      destruct (si_status i); [exfalso; by apply Hx, Hlx|done|done]. }
  assert (Hperm : stashing p2 ≡ₚ to_stash p).
  { apply NoDup_Permutation; [apply list.NoDup_filter, (wf_wr _ (inv_wf _ _ _ _ Hi2))|by apply list.NoDup_filter|done]. }
  destruct (stash_inodes_ok (stashing p2) env p2 o r no_sstats Hi2) as (stats&p'&Hr&Hi'&Hot&Hns&Htot&Hsuc);
    [apply list.NoDup_filter, (wf_wr _ (inv_wf _ _ _ _ Hi2))|by intros a [? _]%list_elem_of_filter|done|].
  exists stats, p'. split; [done|]. split; [done|]. split; [|split; [|split]].
  - intros a Ha. destruct (decide (a ∈ stashing p2)) as [Hin|Hout]; [by apply (Hns a)|].
    apply Hout. assert (Hsa : status_of p2 a = Some HMDFS_REMOTE_INODE_STASHING) by (by rewrite <- (status_at p2 p') by auto).
    apply list_elem_of_filter. split; [done|]. by eapply stashing_writer.
  - intros a Ha. rewrite <- Hst in Ha. rewrite (status_at p2 p') by auto. rewrite Hs2, Hs1.
    destruct (decide (a ∈ l)) as [Hl|]; [|done]. exfalso. apply Ha, Hst. unfold to_stash. apply list_elem_of_filter.
    apply list_elem_of_filter in Hl as [-> ?]. done.
  - rewrite Htot. cbn. by rewrite Hperm.
  - rewrite Hsuc. cbn. unfold restoring. by rewrite Hperm.
Qed.

(** ** Restoring everything *)

(** What is opened at the device is referenced from outside of the stash. *)
Definition opened_referenced (r : Z -> Z) : Prop :=
  forall d path b d', open_root d path = (inr (b, true), d') -> 0 < r b.

Lemma referenced_live p pend o r a : inv p pend o r -> 0 < r a -> live p a.
Proof.
  intros [_ Hn] Hr. specialize (Hn a). unfold live, at_ in *. destruct (inodes p !! a); [done|]. destruct Hn as (_&E&_). lia.
Qed.

Lemma opened_live p pend o r d inum b :
  inv p pend o r -> opened_referenced r -> restore_opens p d inum = Some b -> live p b.
Proof.
  intros Hi Hr. unfold restore_opens. destruct (stash_dir p !! inum); [|done]. cbn [mbind option_bind].
  destruct (negb _); [done|]. destruct (hmdfs_lookup_stash_inode p inum) as [[a|]|]; cbn [mbind option_bind]; [| |done].
  - destruct (hmdfs_get_restore_file_metadata _ _ _) as [[err meta]|]; [|done]. cbn [mbind option_bind].
    destruct (open_root d (rm_dst meta)) as [[e|[b' []]] d'] eqn:E; cbn [fst]; [done| |done].
    destruct (err =? 0); [|done]. intros [= <-]. eapply referenced_live; [done|]. by eapply Hr.
  - by destruct (hmdfs_get_restore_file_metadata _ _ _) as [[? ?]|].
Qed.

Lemma opened_by_ge b f x : f x <= opened_by b f x.
Proof. destruct b as [b|]; cbn; [|lia]. unfold bump. destruct (x =? b); lia. Qed.

Lemma restore_loop_ok tbl : forall p d stats o r,
  inv p [] o r -> opened_referenced r ->
  exists err stats' p' d' o' r',
    restore_loop open_root write_iter fsync truncate offlined open_stash unlink_stash p d stats tbl = Some (err, stats', p', d') /\
    inv p' [] o' r' /\ (forall x, o x <= o' x /\ r x <= r' x) /\ (err = 0 \/ err = - ESHUTDOWN) /\
    (forall n, n ∉ tbl -> stash_dir p' !! n = stash_dir p !! n).
Proof.
  induction tbl as [|inum tbl IH]; intros p d stats o r Hi Hr.
  { exists 0, stats, p, d, o, r. split; [done|]. split; [done|]. split; [lia|]. split; [auto|done]. }
  cbn [restore_loop]. destruct (restore_one_ok p d stats [] o r inum Hi) as (err&stats1&p1&d1&->&Hi1&_&He&_&Hd1&_).
  { intros b. by eapply opened_live. }
  cbn [mbind option_bind]. destruct (err =? 0) eqn:E; zb; cbn [negb].
  - destruct (IH p1 d1 stats1 _ _ Hi1) as (err'&stats'&p'&d'&o'&r'&->&Hi'&Hor&He'&Hd').
    { intros d2 path b d3 Ho. specialize (Hr d2 path b d3 Ho). pose proof (opened_by_ge (restore_opens p d inum) r b). lia. }
    exists err', stats', p', d', o', r'. split; [done|]. split; [done|]. split; [|split; [done|]].
    + intros x. specialize (Hor x). pose proof (opened_by_ge (restore_opens p d inum) r x).
      pose proof (opened_by_ge (restore_opens p d inum) o x). lia.
    + intros n Hn. rewrite elem_of_cons in Hn. rewrite Hd' by tauto. apply Hd1. tauto.
  - eexists _, _, _, _, _, _. split; [done|]. split; [exact Hi1|]. split; [|split; [done|]].
    + intros x. split; apply opened_by_ge.
    + intros n Hn. rewrite elem_of_cons in Hn. apply Hd1. tauto.
Qed.

Lemma run_restore_ok dir_err alloc batches p d o r :
  inv p [] o r -> opened_referenced r ->
  exists err stats' p' d' o' r',
    restore_run open_root write_iter fsync truncate offlined open_stash unlink_stash init_ctx p d dir_err alloc batches =
      Some (err, stats', p', d') /\
    inv p' [] o' r' /\ (forall x, o x <= o' x /\ r x <= r' x).
Proof.
  intros Hi Hr. unfold restore_run. destruct (negb (dir_err =? 0)); [by eexists _, _, p, d, o, r|].
  destruct (iter_stash_ok (hmdfs_restore_files open_root write_iter fsync truncate offlined open_stash unlink_stash init_ctx)
    (fun p _ _ => exists o' r', inv p [] o' r' /\ forall x, o x <= o' x /\ r x <= r' x) alloc batches p d no_rstats)
    as (err&stats&p'&d'&->&o'&r'&Hi'&Hor').
  - intros p1 d1 s1 tbl (o1&r1&Hi1&Hor1). unfold hmdfs_restore_files.
    destruct (negb _); [by eexists _, _, _, _; eauto|].
    destruct (restore_loop_ok tbl p1 d1 s1 o1 r1 Hi1) as (err&stats&p'&d'&o'&r'&->&Hi'&Hor&_).
    { intros d2 path b d3 Ho. specialize (Hr d2 path b d3 Ho). destruct (Hor1 b). lia. }
    eexists _, _, _, _. split; [done|]. exists o', r'. split; [done|]. intros x. destruct (Hor x), (Hor1 x). lia.
  - exists o, r. split; [done|]. lia.
  - by exists err, stats, p', d', o', r'.
Qed.

Abbreviation restore_all := (hmdfs_stash_online_do_restore open_root write_iter fsync truncate offlined open_stash unlink_stash init_ctx).
Abbreviation run_all := (restore_run open_root write_iter fsync truncate offlined open_stash unlink_stash init_ctx).

(** C9: No interleaving of inodes coming and going, writers opening and closing, pages being
    written back, the offline handlers, restores and rebuilds accesses a freed inode, and the
    stash's books stay right: every inode has one reference and one writer for being stashed
    on top of those from outside, the stashed list holds exactly the RESTORING inodes, each
    with its stash file, only STASHING inodes have a stash file being written, and an inode
    somebody references is live. *)
Theorem stash_invariant ops :
  exists s, do_ops ops m_start = Some s /\ m_inv s /\
    (forall a, a ∈ stashed_inode_list (m_peer s) <-> status_of (m_peer s) a = Some HMDFS_REMOTE_INODE_RESTORING) /\
    (forall a i, inodes (m_peer s) !! a = Some i -> si_status i = HMDFS_REMOTE_INODE_RESTORING ->
       is_Some (stash_dir (m_peer s) !! si_remote_ino i)) /\
    (forall a, 0 < m_refs s a -> live (m_peer s) a).
Proof.
  destruct (do_ops_ok ops m_start start_inv) as (s&Hs&Hi&Hw). exists s. split; [done|]. split; [by split|].
  split; [|split].
  - intros a. rewrite (stashed_iff _ _ _ _ a Hi). unfold status_of. destruct (inodes (m_peer s) !! a) as [i|]; cbn.
    + split; [by intros (j&[= <-]&->)|]. intros [= <-]. by exists i.
    + split; [by intros (?&?&_)|done].
  - intros a i Hia Hst. pose proof (inv_node _ _ _ _ Hi a) as Hn. unfold at_ in Hn. rewrite Hia in Hn.
    destruct Hn as (_&_&_&_&_&_&_&Hf&_). by apply Hf.
  - intros a. by eapply referenced_live.
Qed.

(** C11: Stashing when a device is gone settles every file open for writing: from any reachable
    state, whatever fails, the handler comes to an end with no inode left STASHING; inodes
    that are not open for writing, or wait to be restored, are left alone; and the counters
    add up to the number of files, of which those that became RESTORING succeeded. *)
Theorem offline_stash_completes p o r cache env :
  inv p [] o r -> (forall a, env_ok (env a)) ->
  exists stats p', hmdfs_stash_offline_do_stash p true cache env = Some (stats, p') /\ inv p' [] o r /\
    (forall a, status_of p' a <> Some HMDFS_REMOTE_INODE_STASHING) /\
    (forall a, a ∉ to_stash p -> status_of p' a = status_of p a) /\
    u32 (stats_total stats) = u32 (Z.of_nat (length (to_stash p))) /\
    u32 (ss_succeed stats) = u32 (Z.of_nat (length (restoring p' (to_stash p)))).
Proof. apply do_stash_ok. Qed.

(** Restoring when a device is back comes to an end, whatever fails: unless the device goes
    away again, no inode is left RESTORING; if it does, every inode still to be restored
    keeps its stash file. *)
Theorem online_restore_settles p d o r dir_err alloc batches :
  inv p [] o r -> opened_referenced r -> need_rebuild_stash_list p = false ->
  exists stats p' d' o' r', restore_all p d true dir_err alloc batches = Some (stats, p', d') /\ inv p' [] o' r' /\
    (forall x, o x <= o' x /\ r x <= r' x) /\
    exists err p1, run_all p d dir_err alloc batches = Some (err, stats, p1, d') /\
      (err <> - ESHUTDOWN -> stashed_inode_list p' = [] /\ forall a, status_of p' a <> Some HMDFS_REMOTE_INODE_RESTORING) /\
      (err = - ESHUTDOWN -> forall a i, a ∈ stashed_inode_list p' -> inodes p' !! a = Some i ->
         is_Some (stash_dir p' !! si_remote_ino i)).
Proof.
  intros Hi Hr Hn.
  pose proof (run_restore_ok dir_err alloc batches p d o r Hi Hr) as Hrun.
  destruct Hrun as (err&stats&p1&d1&o1&r1&Hrun&Hi1&Hor). unfold hmdfs_stash_online_do_restore. rewrite Hn. cbn [negb orb].
  rewrite Hrun. cbn [mbind option_bind]. destruct (err =? - ESHUTDOWN) eqn:E; zb; cbn [negb mbind option_bind].
  - exists stats, p1, d1, o1, r1. split; [done|]. split; [done|]. split; [done|]. exists err, p1. split; [done|].
    split; [done|]. intros _ a i Ha Hia. destruct (proj1 (stashed_iff _ _ _ _ a Hi1) Ha) as (j&Hj&Hst).
    pose proof (inv_node _ _ _ _ Hi1 a) as Hna. unfold at_ in Hna. rewrite Hia in Hna.
    destruct Hna as (_&_&_&_&_&_&_&Hf&_). apply Hf. congruence.
  - destruct (drop_stashed_ok p1 [] o1 r1 Hi1) as (p'&->&Hi'&_&Hl&_). cbn [mbind option_bind].
    exists stats, p', d1, o1, r1. split; [done|]. split; [done|]. split; [done|]. exists err, p1. split; [done|].
    split; [|done]. intros _. split; [done|]. intros a Hst. unfold status_of in Hst.
    destruct (inodes p' !! a) as [i|] eqn:Hia; [|done]. injection Hst as Hst.
    assert (Hin : a ∈ stashed_inode_list p') by (apply (stashed_iff _ _ _ _ a Hi'); by exists i).
    rewrite Hl in Hin. by apply elem_of_nil in Hin.
Qed.

(** A restore that finds another inode at the file's path is aborted, but counted as a
    success: nothing is written to the device, yet the inode is no longer RESTORING, the
    statistics count the file and all its pages as restored, and the stash file with the
    pages is deleted. *)
Theorem aborted_restore_loses_stash p d o r a i f meta b other d1 stats (inum := si_remote_ino i) :
  inv p [] o r -> a ∈ stashed_inode_list p -> inodes p !! a = Some i -> stash_dir p !! inum = Some f ->
  open_stash d inum = 0 -> hmdfs_get_restore_file_metadata crc32 f inum = Some (0, meta) ->
  open_root d (rm_dst meta) = (inr (b, other), d1) -> (if other then b <> a /\ live p b else True) ->
  unlink_stash d1 inum = 0 ->
  exists p', restore1 p d stats inum =
      Some (0, mk_rstats (u32 (rs_succeed stats + 1)) (rs_fail stats) (rs_keep stats)
                 (u64 (rs_ok_pages stats + rm_pages meta)) (rs_fail_pages stats), p', d1) /\
    stash_dir p' !! inum = None /\ a ∉ stashed_inode_list p'.
Proof.
  intros Hi Ha Hia Hf Hos Hm Ho Hb Hu. unfold restore_one. rewrite Hf, Hos. cbn [Z.eqb negb].
  destruct (pinned_ready p [] o r a i inum Hi Ha Hia eq_refl) as (Hlk&Hst&p1&Hup&Hi1&_&Hd1&Hat1&_).
  unfold hmdfs_restore_file. rewrite Hlk. cbn [mbind option_bind]. rewrite Hia. cbn [mbind option_bind].
  rewrite bool_decide_true by done. cbn [negb]. rewrite Hup. cbn [mbind option_bind].
  unfold hmdfs_open_restore_dst_file. rewrite Hm. cbn [mbind option_bind Z.eqb negb]. rewrite Ho. cbn [mbind option_bind].
  assert (Hopen : exists p2 o' r', (if other then open_writable p1 b else Some p1) = Some p2 /\ inv p2 [] o' r' /\
    stashed_inode_list p2 = stashed_inode_list p1 /\ hmdfs_need_abort_restore a (b, other) = true).
  { destruct other; [|by exists p1, o, r]. destruct Hb as [Hne Hl].
    destruct (open_ok p1 [] o r b Hi1) as (p2&Hp2&Hi2&_).
    { destruct Hl as [ib Hib]. unfold live. destruct (inodes p1 !! b) eqn:E; [done|]. apply Hat1 in E. congruence. }
    destruct (open_frame _ _ _ Hp2) as (_&Hl2&_). eexists p2, _, _. split; [done|]. split; [done|]. split; [done|].
    unfold hmdfs_need_abort_restore. cbn. by rewrite (proj2 (Z.eqb_neq _ _)). }
  destruct Hopen as (p2&o'&r'&->&Hi2&Hl2&->). cbn [mbind option_bind].
  destruct (reset_ok p2 [] o' r' a Hi2) as (p3&->&_&_&_&Hs3&_); [rewrite Hl2; by apply Hat1|].
  cbn [mbind option_bind negb andb]. rewrite Hu. cbn [Z.eqb]. eexists. split; [done|]. cbn. split.
  - apply lookup_delete_eq.
  - intros Hin. by apply Hs3 in Hin as [_ ?].
Qed.

End RestoreLaws.

(** * From the writer to the device *)

Section EndToEnd.
Context `{!SparseFileLaws F}.

Lemma stash_step_bad isize l : forall e (c : option cache_info),
  e <> 0 -> foldl (stash_step isize) (e, c) l = (e, c).
Proof.
  induction l as [|x l IH]; intros e c He; [done|]. cbn [foldl]. unfold stash_step at 2. cbn [fst].
  rewrite (proj2 (Z.eqb_neq _ _)) by done. by apply IH.
Qed.

Lemma foldl_stash_app isize l1 l2 (c : option cache_info) c2 :
  foldl (stash_step isize) (0, c) (l1 ++ l2) = (0, c2) ->
  exists c1, foldl (stash_step isize) (0, c) l1 = (0, c1) /\ foldl (stash_step isize) (0, c1) l2 = (0, c2).
Proof.
  rewrite foldl_app. destruct (foldl _ (0, c) l1) as [e c1] eqn:E. destruct (Z.eq_dec e 0) as [->|He]; [by exists c1|].
  rewrite stash_step_bad by done. congruence.
Qed.

Lemma write_pages_stash isize l : forall c c1,
  foldl (stash_step isize) (0, c) l = (0, c1) -> write_pages c isize l = (0, c1).
Proof.
  induction l as [|[index buf] l IH]; intros c c1; [by intros [= <-]|]. cbn [foldl write_pages]. unfold stash_step at 2.
  cbn [fst snd Z.eqb]. destruct (hmdfs_stash_writepage _ _ _ _) as [err c0].
  destruct (Z.eq_dec err 0) as [->|He]; [|rewrite stash_step_bad by done; congruence].
  intros Hf. by rewrite (IH _ _ Hf).
Qed.

Lemma flush_chain c isize l1 l2 ino env c1 c2 :
  se_isize env = isize -> se_dirty1 env = l1 -> se_dirty2 env = l2 ->
  stash_pages isize c (l1 ++ l2) = (0, Some c1) -> hmdfs_flush_stash_file_metadata crc32 (Some c1) ino = (0, Some c2) ->
  hmdfs_flush_stash_file (Some c) ino env = (0, Some c2).
Proof.
  intros <- <- <- Hst Hfl. destruct (foldl_stash_app _ _ _ _ _ Hst) as (c'&H1&H2).
  unfold hmdfs_flush_stash_file, hmdfs_flush_stash_file_data.
  by rewrite (write_pages_stash _ _ _ _ H1), (write_pages_stash _ _ _ _ H2).
Qed.

Definition env_quiet (env : stash_env) : Prop :=
  se_fsync env = 0 /\ se_lookup env = 0 /\ se_unlink env = 0 /\ se_link env = 0.

Lemma close_quiet dir ino (c : cache_info) env :
  env_quiet env -> ci_to_write_pgs c <> 0 -> exists dir', hmdfs_close_stash_file dir ino c env = (1, dir').
Proof.
  intros (Hf&Hl&Hu&Hk) Hc. unfold hmdfs_close_stash_file, hmdfs_enable_stash_file.
  rewrite (proj2 (Z.eqb_neq _ _)) by done. rewrite Hf, Hl, Hu, Hk. cbn [Z.eqb negb].
  destruct (dir !! ino); [rewrite lookup_delete_eq|]; by eexists.
Qed.

(** A stash without errors: what the file holds is what was written back before the handler
    came and in its two rounds. *)
Lemma stash_one_quiet p o r a i path f0 written c env :
  inv p [] o r -> inodes p !! a = Some i -> si_status i = HMDFS_REMOTE_INODE_STASHING ->
  stash_pages (se_isize env) (fresh_cache path f0) written = (0, Some c) -> si_cache i = Some c -> env_quiet env ->
  let l := written ++ se_dirty1 env ++ se_dirty2 env in
  stashable crc32 f0 path (se_isize env) l (si_remote_ino i) ->
  exists p1 f, stash_one p no_sstats a env = Some (mk_sstats 1 0 0 (Z.of_nat (length l)) 0, p1) /\ inv p1 [] o r /\
    (forall x, x <> a -> at_ p1 x = at_ p x) /\ status_of p1 a = Some HMDFS_REMOTE_INODE_RESTORING /\ stash_dir p1 !! si_remote_ino i = Some f /\
    (exists i1, inodes p1 !! a = Some i1 /\ si_remote_ino i1 = si_remote_ino i) /\
    hmdfs_get_restore_file_metadata crc32 f (si_remote_ino i) = Some (0, mk_meta (Z.of_nat (length l)) 2 path) /\
    forall offlined (d : Z -> Z), exists d',
      hmdfs_copy_src_to_dst accept_write offlined f 2 d = Some (0, d') /\ forall y, d' y = with_pages (se_isize env) l d y.
Proof.
  cbv zeta. intros Hi Hia Hst Hw Hc Hq Hsb. set (l := written ++ _) in *.
  destruct (stash_chain crc32 f0 path _ l _ Hsb) as (c1&c2&H1&H2&Htw&Hwr&Hm&Hcp).
  destruct (foldl_stash_app _ _ _ _ _ H1) as (c'&Hw'&Hrest).
  assert (c' = Some c) as -> by (unfold stash_pages in Hw; congruence).
  pose proof (flush_chain c (se_isize env) _ _ _ env c1 c2 eq_refl eq_refl eq_refl Hrest H2) as Hfl.
  assert (Hlen : 0 < Z.of_nat (length l) < 2 ^ 60).
  { destruct (sb_pages _ _ _ _ _ _ Hsb) as (Hne&_&?). destruct l; [done|]. cbn [length] in *. lia. }
  destruct (close_quiet (stash_dir p) (si_remote_ino i) c2 env Hq ltac:(lia)) as (dir'&Hcl).
  assert (Hres : stash_result (stash_dir p) i env = (1, Some c2, dir')).
  { unfold stash_result. rewrite Hc, Hfl. cbn [Z.eqb]. by rewrite Hcl. }
  assert (Hok : env_ok env) by (unfold env_ok; destruct Hq as (->&->&->&->); done).
  destruct (stash_one_ok p o r a i env no_sstats 1 (Some c2) dir' Hi Hia Hst Hok Hres) as (p1&Hs1&Hi1&Hot&Hd1&Hst1).
  cbn [Z.ltb Z.compare] in Hst1. pose proof (status_pair _ _ _ Hst1) as Hsta.
  destruct (close_spec _ _ _ _ _ _ Hok Hcl) as [_ Hin]. destruct (Hin ltac:(done)) as [Hf _].
  exists p1, (ci_cache_file c2). rewrite Hs1. split.
  { do 2 f_equal. unfold hmdfs_update_stash_stats, no_sstats. cbn. rewrite Htw, Hwr, Z.sub_diag.
    f_equal. apply Z.mod_small. lia. }
  split; [done|]. split; [done|]. split; [done|]. split; [by rewrite Hd1|]. split.
  { destruct (inodes p1 !! a) as [i1|]; [|done]. injection Hst1 as ? _. by exists i1. }
  split; [|done]. rewrite Hm. by rewrite decide_True.
Qed.

(** A restore without errors, of a stash file whose pages copy to [d']. *)
Lemma restore_one_quiet p o r a i f pages path open_root fsync truncate offlined open_stash unlink_stash d d' :
  let inum := si_remote_ino i in
  inv p [] o r -> a ∈ stashed_inode_list p -> inodes p !! a = Some i -> stash_dir p !! inum = Some f ->
  hmdfs_get_restore_file_metadata crc32 f inum = Some (0, mk_meta pages 2 path) -> 0 <= pages < 2 ^ 64 ->
  hmdfs_copy_src_to_dst accept_write offlined f 2 d = Some (0, d') ->
  (forall d, open_root d path = (inr (a, true), d) /\ fsync a d = (0, d) /\ open_stash d inum = 0 /\ unlink_stash d inum = 0) ->
  exists p2, restore_one open_root (fun _ => accept_write) fsync truncate offlined open_stash unlink_stash p d no_rstats inum =
      Some (0, mk_rstats 1 0 0 pages 0, p2, d') /\
    stash_dir p2 = delete inum (stash_dir p) /\ need_rebuild_stash_list p2 = need_rebuild_stash_list p /\
    forall x, x ∈ stashed_inode_list p2 <-> x ∈ stashed_inode_list p /\ x <> a.
Proof.
  cbv zeta. set (inum := si_remote_ino i). intros Hi Ha Hia Hf Hm Hpages Hcopy Hdev.
  destruct (pinned_ready p [] o r a i inum Hi Ha Hia eq_refl) as (Hlk&Hs1&p2&Hup&Hi2&_&Hd2&Hat2&i2&Hia2&_).
  destruct (Hdev d) as (Ho&_&Hos&_). destruct (Hdev d') as (_&Hfs&_&Hu).
  unfold restore_one. rewrite Hf, Hos. cbn [Z.eqb negb]. unfold hmdfs_restore_file. rewrite Hlk. cbn [mbind option_bind].
  rewrite Hia. cbn [mbind option_bind]. rewrite bool_decide_true by done. cbn [negb]. rewrite Hup. cbn [mbind option_bind].
  unfold hmdfs_open_restore_dst_file. rewrite Hm. cbn [mbind option_bind Z.eqb negb rm_dst]. rewrite Ho. cbn [mbind option_bind].
  destruct (open_ok p2 [] o r a Hi2) as (p3&Hp3&Hi3&_); [by exists i2|]. rewrite Hp3. cbn [mbind option_bind].
  unfold hmdfs_need_abort_restore. cbn [fst snd negb]. rewrite Z.eqb_refl. cbn [negb].
  unfold hmdfs_restore_src_to_dst. cbn [rm_data_offs]. rewrite Hcopy. cbn [mbind option_bind Z.eqb negb]. rewrite Hfs.
  cbn [mbind option_bind Z.eqb negb andb]. change (0 =? - ESHUTDOWN) with false. cbv iota.
  destruct (open_frame _ _ _ Hp3) as (Hd3&Hl3&_).
  destruct (reset_ok p3 [] _ _ a Hi3) as (p4&Hp4&_&_&Hd4&Hs4&_); [rewrite Hl3; by apply Hat2|]. rewrite Hp4.
  cbv beta iota. change (match - ESHUTDOWN with 0 => true | _ => false end) with false. cbv beta iota.
  cbn [mbind option_bind negb andb]. rewrite Hu. cbn [Z.eqb]. eexists. split; [|split; [|split]].
  - do 3 f_equal. unfold hmdfs_update_restore_stats, no_rstats. cbn. do 2 f_equal. apply Z.mod_small. lia.
  - cbn. congruence.
  - cbn. by rewrite (reset_rebuild _ _ _ Hp4), (open_rebuild _ _ _ Hp3), (upd_rebuild _ _ _ _ Hup).
  - intros x. cbn. rewrite Hs4, Hl3. destruct (Hat2 x) as [_ ->]. done.
Qed.

(** C10: What is written to a file while its device is away arrives once it is back. An inode
    that is STASHING with the pages [written] back so far is stashed by the handler, with the
    pages still dirty, into a file that restores all of them: if nothing fails, restoring sets
    exactly the bytes of these pages below the file's size in the remote file, to what each
    page held last; the stash file is gone, the inode is not stashed, and the statistics of
    both handlers count one file and all pages. *)
Theorem offline_writes_arrive p o r a i path f0 written c env open_root fsync truncate offlined open_stash unlink_stash :
  let l := written ++ se_dirty1 env ++ se_dirty2 env in let inum := si_remote_ino i in
  inv p [] o r -> inodes p !! a = Some i -> si_status i = HMDFS_REMOTE_INODE_STASHING ->
  stash_pages (se_isize env) (fresh_cache path f0) written = (0, Some c) -> si_cache i = Some c -> env_quiet env ->
  stashable crc32 f0 path (se_isize env) l inum ->
  (forall d, open_root d path = (inr (a, true), d) /\ fsync a d = (0, d) /\ open_stash d inum = 0 /\ unlink_stash d inum = 0) ->
  exists p1, stash_one p no_sstats a env = Some (mk_sstats 1 0 0 (Z.of_nat (length l)) 0, p1) /\ inv p1 [] o r /\
    forall d : Z -> Z, exists p2 d',
      restore_one open_root (fun _ => accept_write) fsync truncate offlined open_stash unlink_stash p1 d no_rstats inum =
        Some (0, mk_rstats 1 0 0 (Z.of_nat (length l)) 0, p2, d') /\
      (forall y, d' y = with_pages (se_isize env) l d y) /\
      stash_dir p2 !! inum = None /\ a ∉ stashed_inode_list p2.
Proof.
  cbv zeta. intros Hi Hia Hst Hw Hc Hq Hsb Hdev.
  destruct (stash_one_quiet p o r a i path f0 written c env Hi Hia Hst Hw Hc Hq Hsb)
    as (p1&f&->&Hi1&_&Hst1&Hf&(i1&Hia1&Hino)&Hm&Hcp).
  pose proof (sb_pages _ _ _ _ _ _ Hsb) as (_&_&Hlen). set (l := written ++ _) in *. set (inum := si_remote_ino i) in *.
  exists p1. split; [done|]. split; [done|]. intros d. destruct (Hcp offlined d) as (d'&Hcopy&Hd').
  assert (Ha : a ∈ stashed_inode_list p1).
  { apply (stashed_iff _ _ _ _ a Hi1). exists i1. split; [done|]. unfold status_of in Hst1. rewrite Hia1 in Hst1. by injection Hst1. }
  rewrite <- Hino in *.
  destruct (restore_one_quiet p1 o r a i1 f _ path open_root fsync truncate offlined open_stash unlink_stash d d'
    Hi1 Ha Hia1 Hf Hm ltac:(lia) Hcopy Hdev) as (p2&Hr&Hd2&_&Hl2).
  exists p2, d'. split; [done|]. split; [done|]. rewrite Hd2. split; [apply lookup_delete_eq|].
  intros Hin. by apply Hl2 in Hin as [_ ?].
Qed.

End EndToEnd.
End Stash.

(** * An example: a file with one dirty page, on a file system in memory *)

Definition demo_path : bytes := [47; 97].
Definition demo_page : bytes := replicate 4096 7.

(** The path is inode [a] of the device; a write is accepted. *)
Definition demo_open (a : Z) (other : bool) (d : Z -> Z) (path : bytes) : (Z + Z * bool) * (Z -> Z) :=
  if decide (path = demo_path) then (inr (a, other), d) else (inl (- ENOENT), d).
Definition demo_fsync (a : Z) (d : Z -> Z) : Z * (Z -> Z) := (0, d).
Definition no_err (d : Z -> Z) (inum : Z) : Z := 0.
Definition demo_env : stash_env := mk_env 5000 [(1, demo_page)] [] 0 0 0 0.

Definition demo_run (ops : list (@stash_op memsparse (Z -> Z))) : option (@mstate memsparse) :=
  do_ops sum32 (demo_open 1 true) (fun _ => accept_write) demo_fsync (fun _ d => d) (fun _ => false) no_err no_err ops m_start.

Lemma demo_ok ops : m_inv (default m_start (demo_run ops)).
Proof.
  unfold demo_run. destruct (do_ops_ok sum32 (demo_open 1 true) (fun _ => accept_write) demo_fsync (fun _ d => d)
    (fun _ => false) no_err no_err ops m_start start_inv) as (s&->&Hs). exact Hs.
Qed.

(** Inode 66 is opened for writing, inode 67 is there; the device goes away and the first is
    stashed. *)
Definition demo_opened : list (@stash_op memsparse (Z -> Z)) :=
  [OpNew 1 66 true true true; OpNew 2 67 true true true; OpOpen 1].
Definition demo_stashing : list (@stash_op memsparse (Z -> Z)) :=
  demo_opened ++ [OpFetch true; OpInit (inr (fresh_cache demo_path empty_sparse))].
Definition demo_stashed : list (@stash_op memsparse (Z -> Z)) := demo_stashing ++ [OpNext; OpStash no_sstats demo_env].

Definition demo_state (ops : list (@stash_op memsparse (Z -> Z))) : @mstate memsparse := default m_start (demo_run ops).

Lemma demo_inv ops : pending (m_work (demo_state ops)) = [] ->
  inv (m_peer (demo_state ops)) [] (m_writers (demo_state ops)) (m_refs (demo_state ops)).
Proof. intros E. pose proof (proj1 (demo_ok ops)) as Hi. unfold demo_state in *. by rewrite E in Hi. Qed.

Lemma stash_invariant_witness :
  exists s, demo_run demo_stashed = Some s /\ stashed_inode_list (m_peer s) = [1] /\
    status_of (m_peer s) 1 = Some HMDFS_REMOTE_INODE_RESTORING.
Proof.
  destruct (stash_invariant sum32 (demo_open 1 true) (fun _ => accept_write) demo_fsync (fun _ d => d) (fun _ => false)
    no_err no_err demo_stashed) as (s&Hs&_&Hl&_). exists s. split; [exact Hs|].
  assert (E : stashed_inode_list (m_peer (demo_state demo_stashed)) = [1]) by (vm_compute; reflexivity).
  unfold demo_state, demo_run in E. rewrite Hs in E. cbn [default from_option id] in E.
  split; [exact E|]. apply Hl. rewrite E. by left.
Defined.

Lemma cleanup_releases_pins_witness :
  exists p', hmdfs_stash_del_do_cleanup (m_peer (demo_state demo_stashed)) true = Some p' /\
    stashed_inode_list p' = [] /\ (si_count <$> inodes p' !! 1) = Some 2.
Proof.
  destruct (cleanup_releases_pins (m_peer (demo_state demo_stashed)) _ _ (demo_inv demo_stashed ltac:(vm_compute; reflexivity)))
    as (p'&Hp&Hl&_&_&Ha). exists p'. split; [exact Hp|]. split; [exact Hl|].
  destruct (Ha 1) as [_ H1]. destruct (inodes p' !! 1) as [i|].
  - destruct H1 as (E&_). cbn. rewrite E. vm_compute. reflexivity.
  - destruct H1 as [E _]. vm_compute in E. discriminate E.
Defined.

Lemma offline_stash_completes_witness :
  exists stats p', hmdfs_stash_offline_do_stash sum32 (m_peer (demo_state demo_opened)) true
      (fun _ => inr (fresh_cache demo_path empty_sparse)) (fun _ => demo_env) = Some (stats, p') /\
    status_of p' 1 <> Some HMDFS_REMOTE_INODE_STASHING /\ u32 (stats_total stats) = 1.
Proof.
  destruct (offline_stash_completes sum32 (m_peer (demo_state demo_opened)) _ _
    (fun _ => inr (fresh_cache demo_path empty_sparse)) (fun _ => demo_env)
    (demo_inv demo_opened ltac:(vm_compute; reflexivity))) as (stats&p'&E&_&Hs&_&Ht&_).
  - intros _. repeat split; done.
  - exists stats, p'. split; [exact E|]. split; [apply Hs|]. rewrite Ht. vm_compute. reflexivity.
Defined.

Lemma online_restore_settles_witness :
  exists stats p' d', hmdfs_stash_online_do_restore sum32 (demo_open 1 true) (fun _ => accept_write) demo_fsync
      (fun _ d => d) (fun _ => false) no_err no_err (fun _ => 0) (m_peer (demo_state demo_stashed)) (fun _ => 1) true 0 true
      [inr [(stash_file_name 66, DT_REG)]] = Some (stats, p', d').
Proof.
  destruct (online_restore_settles sum32 (demo_open 1 true) (fun _ => accept_write) demo_fsync (fun _ d => d) (fun _ => false)
    no_err no_err (fun _ => 0) (m_peer (demo_state demo_stashed)) (fun _ => 1) _ _ 0 true
    [inr [(stash_file_name 66, DT_REG)]] (demo_inv demo_stashed ltac:(vm_compute; reflexivity)))
    as (stats&p'&d'&_&_&E&_).
  - intros d path b d'. unfold demo_open. destruct (decide _); [|done]. intros [= <- _]. vm_compute. reflexivity.
  - vm_compute. reflexivity.
  - exists stats, p', d'. exact E.
Defined.

Definition demo_inode : @sinode memsparse :=
  mk_si 66 HMDFS_REMOTE_INODE_STASHING (Some (fresh_cache demo_path empty_sparse)) 2 false 3.

Lemma demo_stashable : stashable sum32 empty_sparse demo_path 5000 ([] ++ se_dirty1 demo_env ++ se_dirty2 demo_env) 66.
Proof.
  split; [done|done|by intros; apply (wrap_range 32)| | |done|done].
  - split; [done|]. split; [repeat constructor; done|]. split; [repeat constructor; done|done].
  - split; [done|]. split; [|done]. constructor; [|constructor]. split; [done|]. split; [done|]. split; [done|].
    by apply Forall_replicate.
Qed.

(** The inode is stashed, but its path is inode 67 when the device is back. *)
Lemma aborted_restore_loses_stash_witness :
  exists p1, stash_one sum32 (m_peer (demo_state demo_stashing)) no_sstats 1 demo_env = Some (mk_sstats 1 0 0 1 0, p1) /\
    stash_dir p1 !! 66 <> None /\
    exists p2, restore_one sum32 (demo_open 2 true) (fun _ => accept_write) demo_fsync (fun _ d => d) (fun _ => false)
      no_err no_err p1 (fun _ => 1) no_rstats 66 = Some (0, mk_rstats 1 0 0 1 0, p2, fun _ => 1) /\ stash_dir p2 !! 66 = None.
Proof.
  destruct (stash_one_quiet sum32 (m_peer (demo_state demo_stashing)) _ _ 1 demo_inode demo_path empty_sparse []
    (fresh_cache demo_path empty_sparse) demo_env (demo_inv demo_stashing ltac:(vm_compute; reflexivity)))
    as (p1&f&Hs&Hi1&Hot&Hst&Hf&(i1&Hia&Hino)&Hm&_); [vm_compute; reflexivity|done|done|done|done|apply demo_stashable|].
  change (si_remote_ino demo_inode) with 66 in *.
  exists p1. split; [exact Hs|]. split; [by rewrite Hf|].
  destruct (aborted_restore_loses_stash sum32 (demo_open 2 true) (fun _ => accept_write) demo_fsync (fun _ d => d)
    (fun _ => false) no_err no_err p1 (fun _ => 1) _ _ 1 i1 f (mk_meta 1 2 demo_path) 2 true (fun _ => 1) no_rstats Hi1)
    as (p2&E&Hd&_); rewrite ?Hino; [|exact Hia|exact Hf|reflexivity|exact Hm|reflexivity| |reflexivity|].
  - apply (stashed_iff _ _ _ _ _ Hi1). exists i1. split; [done|]. unfold status_of in Hst. rewrite Hia in Hst. by injection Hst.
  - split; [done|]. specialize (Hot 2 ltac:(done)). injection Hot as E2 _ _.
    exists (mk_si 67 HMDFS_REMOTE_INODE_NONE None 0 false 1). rewrite E2. vm_compute. reflexivity.
  - rewrite Hino in *. exists p2. split; [exact E|exact Hd].
Defined.

Lemma offline_writes_arrive_witness :
  exists p1, stash_one sum32 (m_peer (demo_state demo_stashing)) no_sstats 1 demo_env = Some (mk_sstats 1 0 0 1 0, p1) /\
    exists p2 d', restore_one sum32 (demo_open 1 true) (fun _ => accept_write) demo_fsync (fun _ d => d) (fun _ => false)
        no_err no_err p1 (fun _ => 1) no_rstats 66 = Some (0, mk_rstats 1 0 0 1 0, p2, d') /\
      d' 4095 = 1 /\ d' 4096 = 7 /\ d' 4999 = 7 /\ d' 5000 = 1.
Proof.
  destruct (offline_writes_arrive sum32 (m_peer (demo_state demo_stashing)) _ _ 1 demo_inode demo_path empty_sparse []
    (fresh_cache demo_path empty_sparse) demo_env (demo_open 1 true) demo_fsync (fun _ d => d) (fun _ => false) no_err no_err
    (demo_inv demo_stashing ltac:(vm_compute; reflexivity))) as (p1&Hs&_&Hr);
    [vm_compute; reflexivity|done|done|done|done|apply demo_stashable|done|].
  exists p1. split; [exact Hs|]. destruct (Hr (fun _ => 1)) as (p2&d'&E&Hd&_). exists p2, d'. split; [exact E|].
  rewrite !Hd. clear. vm_compute. repeat split.
Defined.
