(* ===== verification/StashRebuild.v ===== *)
(** Rebuilding the list of stashed inodes (stash.c): after a restart the stash files are there
    but no inode is pinned for them. Opening every stashed file at its device pins the inodes
    again, before anything is restored. *)
From S2P Require Import Prelude Protocol CacheName StashFile Stash.

Record hmdfs_rebuild_stats := mk_rb { rb_succeed : Z; rb_total : Z; rb_fail : Z; rb_invalid : Z }.
Definition no_rb : hmdfs_rebuild_stats := mk_rb 0 0 0 0.

Definition rb_failed (s : hmdfs_rebuild_stats) : hmdfs_rebuild_stats :=
  mk_rb (rb_succeed s) (rb_total s) (u32 (rb_fail s + 1)) (rb_invalid s).

Section Rebuild.
Context {F : Type} `{SparseFile F} (crc32 : bytes -> Z).
Abbreviation stash_peer := (@Stash.stash_peer F).
Abbreviation sinode := (@Stash.sinode F).
(** The device as in Stash.v; the number of an inode at its device, whether it is a regular
    file or a link, and whether the path of its stash file can be allocated. *)
Context {D : Type} (open_root : D -> bytes -> (Z + Z * bool) * D) (offlined : D -> bool) (open_stash : D -> Z -> Z)
  (init_ctx : D -> Z) (ino_of : Z -> Z) (regular : Z -> bool) (alloc : D -> Z -> bool).

(** The lookup of a path makes the inode when there is none, and the open file holds it. *)
Definition open_readonly (p : stash_peer) (d : D) (b : Z) : option stash_peer :=
  p ← (match inodes p !! b with
       | Some _ => Some p
       | None => new_inode p b (ino_of b) true (regular b) (alloc d b)
       end);
  ihold p b.

Definition hmdfs_is_valid_stash_status (i : sinode) (ino : Z) : bool :=
  bool_decide (si_status i = HMDFS_REMOTE_INODE_RESTORING) && (si_remote_ino i =? ino).

(** What is opened, and its closing. *)
Definition check_opened (p : stash_peer) (d : D) (b : Z) (other_remote : bool) (inum : Z) : option (bool * stash_peer) :=
  if negb other_remote then Some (false, p)
  else
    p ← open_readonly p d b;
    i ← inodes p !! b;
    p ← iput p b;
    Some (hmdfs_is_valid_stash_status i inum, p).

(** The body of the loop of hmdfs_rebuild_stash_list; the error breaks it. *)
Definition rebuild_one (p : stash_peer) (d : D) (stats : hmdfs_rebuild_stats) (inum : Z) :
    option (Z * hmdfs_rebuild_stats * stash_peer * D) :=
  match stash_dir p !! inum with
  | None => Some (0, rb_failed stats, p, d)
  | Some f =>
      if negb (open_stash d inum =? 0) then Some (0, rb_failed stats, p, d)
      else
        '(err, _, opened, d') ← hmdfs_open_restore_dst_file crc32 open_root offlined f inum d;
        match opened with
        | None => if err =? - ESHUTDOWN then Some (err, stats, p, d') else Some (0, rb_failed stats, p, d')
        | Some (b, other_remote) =>
            '(is_valid, p) ← check_opened p d b other_remote inum;
            Some (0, (if is_valid : bool then mk_rb (u32 (rb_succeed stats + 1)) (rb_total stats) (rb_fail stats) (rb_invalid stats)
                      else mk_rb (rb_succeed stats) (rb_total stats) (rb_fail stats) (u32 (rb_invalid stats + 1))), p, d')
        end
  end.

Fixpoint rebuild_loop (p : stash_peer) (d : D) (stats : hmdfs_rebuild_stats) (tbl : list Z) :
    option (Z * hmdfs_rebuild_stats * stash_peer * D) :=
  match tbl with
  | [] => Some (0, stats, p, d)
  | inum :: tbl =>
      '(err, stats, p, d) ← rebuild_one p d stats inum;
      if negb (err =? 0) then Some (err, stats, p, d) else rebuild_loop p d stats tbl
  end.

Definition hmdfs_rebuild_stash_list (p : stash_peer) (d : D) (stats : hmdfs_rebuild_stats) (tbl : list Z) :
    option (Z * hmdfs_rebuild_stats * stash_peer * D) :=
  if negb (init_ctx d =? 0) then Some (init_ctx d, stats, p, d)
  else
    rebuild_loop p d (mk_rb (rb_succeed stats) (u32 (rb_total stats + Z.of_nat (length tbl))) (rb_fail stats) (rb_invalid stats)) tbl.

(** [dir_err] is the error of opening the directory, [tbl_alloc] whether the table is allocated. *)
Definition hmdfs_stash_online_prepare (p : stash_peer) (d : D) (enabled : bool) (dir_err : Z) (tbl_alloc : bool)
    (batches : list (Z + list (bytes * Z))) : option (hmdfs_rebuild_stats * stash_peer * D) :=
  if negb enabled || negb (need_rebuild_stash_list p) then Some (no_rb, p, d)
  else if negb (dir_err =? 0) then Some (no_rb, p, d)
  else
    '(err, stats, p, d) ← hmdfs_iter_stash_file hmdfs_rebuild_stash_list tbl_alloc p d no_rb batches;
    Some (stats, rebuild_done p err, d).

(** * Lemmas *)

(** Inodes have the number their device gave them. *)
Definition numbered (p : stash_peer) : Prop := forall x i, inodes p !! x = Some i -> si_remote_ino i = ino_of x.

Definition rb_sum (s : hmdfs_rebuild_stats) : Z := rb_succeed s + rb_fail s + rb_invalid s.

(** Opening and closing a file leaves its inode as the lookup left it. *)
Lemma hold_and_put (p : stash_peer) b i w s :
  wf p -> at_ p b = (Some i, w, s) -> 0 < si_count i ->
  exists p1 p2 i1, ihold p b = Some p1 /\ inodes p1 !! b = Some i1 /\ si_status i1 = si_status i /\
    si_remote_ino i1 = si_remote_ino i /\ iput p1 b = Some p2 /\ evolves b p p2 (Some i, w, s).
Proof.
  intros Hwf Hb Hc. destruct (ihold_evolves p b i w s Hwf Hb) as (p1&Hp1&Hev1).
  destruct (iput_evolves p1 b _ w s (ev_wf _ _ _ _ Hev1) (ev_at _ _ _ _ Hev1)) as (p2&Hp2&Hev2).
  cbn [si_count with_count] in Hev2. rewrite Z.add_simpl_r, (proj2 (Z.eqb_neq _ _)) in Hev2 by lia.
  eexists p1, p2, _. split; [done|]. split; [apply (at_inodes _ _ _ _ _ (ev_at _ _ _ _ Hev1))|]. split; [done|].
  split; [done|]. split; [done|]. assert (Hi : with_count (with_count i (si_count i + 1)) (si_count i) = i) by by destruct i.
  rewrite Hi in Hev2. by eapply evolves_trans.
Qed.

Context `{!SparseFileLaws F} (ino_inj : forall x y, ino_of x = ino_of y -> x = y).

(** An inode that has a stash file, and gets pinned for it when it is made. *)
Record ready (p : stash_peer) (b : Z) : Prop := {
  rd_need : need_rebuild_stash_list p = true;
  rd_file : is_Some (stash_dir p !! ino_of b);
  rd_regular : regular b = true;
  rd_alloc d : alloc d b = true;
  rd_pinned : inodes p !! b = None \/ b ∈ stashed_inode_list p
}.

(** What a step of the rebuild does: it pins inodes. *)
Record rebuilt (p p' : stash_peer) (o r : Z -> Z) : Prop := {
  rb_inv : exists r', inv p' [] o r' /\ forall x, r x <= r' x;
  rb_num : numbered p';
  rb_dir : stash_dir p' = stash_dir p;
  rb_need : need_rebuild_stash_list p' = need_rebuild_stash_list p;
  rb_pins x : x ∈ stashed_inode_list p -> x ∈ stashed_inode_list p';
  rb_ready x : ready p x -> ready p' x
}.

Lemma rebuilt_refl p o r : inv p [] o r -> numbered p -> rebuilt p p o r.
Proof. intros Hi Hn. split; try done. by exists r. Qed.

Lemma rebuilt_trans p1 p2 p3 o r r2 :
  rebuilt p1 p2 o r -> (forall x, r x <= r2 x) -> rebuilt p2 p3 o r2 -> rebuilt p1 p3 o r.
Proof.
  intros [_ Hn Hd Hnd Hp Hrd] Hle [(r3&Hi3&Hr3) Hn' Hd' Hnd' Hp' Hrd'].
  split; [|done|congruence|congruence|auto|auto]. exists r3. split; [done|]. intros x. specialize (Hle x). specialize (Hr3 x). lia.
Qed.

(** Looking an inode up makes it if it is not there. *)
Lemma lookup_ok p d b o r :
  inv p [] o r -> numbered p ->
  exists p0 i w s, (match inodes p !! b with Some _ => Some p
      | None => new_inode p b (ino_of b) true (regular b) (alloc d b) end) = Some p0 /\
    evolves b p p0 (Some i, w, s) /\ si_remote_ino i = ino_of b /\
    (exists r', inv p0 [] o r' /\ forall x, r x <= r' x) /\
    (b ∈ stashed_inode_list p -> s = true) /\ (ready p b -> s = true).
Proof.
  intros Hi Hn. destruct (inodes p !! b) as [ib|] eqn:Hb.
  - exists p, ib, (bool_decide (b ∈ wr_opened_inode_list p)), (bool_decide (b ∈ stashed_inode_list p)).
    split; [done|]. split; [rewrite <- Hb; apply evolves_refl, Hi|]. split; [by apply Hn|]. split; [by exists r|].
    split; [intros Hx; by apply bool_decide_true|]. intros [_ _ _ _ [?|?]]; [congruence|by apply bool_decide_true].
  - assert (Hfresh : forall x i, inodes p !! x = Some i -> si_remote_ino i <> ino_of b).
    { intros x i Hx E. rewrite (Hn x i Hx) in E. apply ino_inj in E as ->. congruence. }
    destruct (new_inode_ok p [] o r b (ino_of b) true (regular b) (alloc d b) Hi Hb Hfresh) as (p0&Hp0&Hi0&_).
    pose proof (inv_node _ _ _ _ Hi b) as Hnb. unfold at_ in Hnb. rewrite Hb in Hnb. destruct Hnb as (_&_&Hw&Hs&_).
    destruct (new_inode_evolves p b (ino_of b) true (regular b) (alloc d b) (inv_wf _ _ _ _ Hi)) as (p0'&Hp0'&Hev);
      [unfold at_; by rewrite Hb, Hw, Hs|done|]. assert (p0' = p0) as -> by congruence.
    eexists p0, _, _, _. split; [done|]. split; [done|]. split; [done|].
    split; [exists (bump r b 1); split; [done|]; intros x; unfold bump; destruct (x =? b); lia|].
    split; [by apply bool_decide_eq_false in Hs|]. intros [Hnd Hf Hreg Hal _]. unfold found_stashed.
    by rewrite Hnd, Hreg, Hal, bool_decide_true.
Qed.

(** Opening and closing a path. *)
Lemma open_close_ok p d b o r :
  inv p [] o r -> numbered p ->
  exists p1 p2 i, open_readonly p d b = Some p1 /\ inodes p1 !! b = Some i /\ iput p1 b = Some p2 /\
    si_remote_ino i = ino_of b /\ rebuilt p p2 o r /\
    (si_status i = HMDFS_REMOTE_INODE_RESTORING <-> b ∈ stashed_inode_list p2) /\
    (ready p b -> b ∈ stashed_inode_list p2).
Proof.
  intros Hi Hn. unfold open_readonly.
  destruct (lookup_ok p d b o r Hi Hn) as (p0&i&w&s&->&Hev&Hino&(r0&Hi0&Hr0)&Hsb&Hrd). cbn [mbind option_bind].
  pose proof (ev_at _ _ _ _ Hev) as Hat. pose proof (inv_node _ _ _ _ Hi0 b) as Hnb. rewrite Hat in Hnb.
  destruct Hnb as (_&_&_&Hc&_&Hs&_).
  destruct (hold_and_put p0 b i w s (inv_wf _ _ _ _ Hi0) Hat Hc) as (p1&p2&i1&Hp1&Hi1&Hst1&Hino1&Hp2&Hev2).
  pose proof (evolves_trans _ _ _ _ _ _ Hev Hev2) as Hev'. pose proof (ev_at _ _ _ _ Hev') as [= Hb2 _ Hs2].
  assert (Hpin : s = true <-> b ∈ stashed_inode_list p2) by (rewrite <- Hs2; apply bool_decide_eq_true).
  assert (Hready : ready p b -> b ∈ stashed_inode_list p2) by (intros Hx; by apply Hpin, Hrd).
  exists p1, p2, i1. split; [done|]. split; [done|]. split; [done|]. split; [congruence|]. split; [|split; [|done]].
  - split.
    + exists r0. split; [|done]. eapply inv_evolves; [exact Hi0|exact Hev2| |done]. rewrite <- Hat. apply (inv_node _ _ _ _ Hi0).
    + intros x ix Hx. destruct (Z.eq_dec x b) as [->|Hne]; [congruence|].
      pose proof (ev_other _ _ _ _ Hev' x Hne) as [= E _ _]. apply Hn. congruence.
    + apply (ev_dir _ _ _ _ Hev').
    + apply (ev_rebuild _ _ _ _ Hev').
    + intros x Hx. destruct (Z.eq_dec x b) as [->|Hne]; [by apply Hpin, Hsb|].
      pose proof (ev_other _ _ _ _ Hev' x Hne) as [= _ _ E]. by apply (bd_iff _ _ E).
    + intros x Hx. pose proof Hx as [Hnd Hf Hreg Hal Hpn].
      split; [by rewrite (ev_rebuild _ _ _ _ Hev')|by rewrite (ev_dir _ _ _ _ Hev')|done|done|].
      destruct (Z.eq_dec x b) as [->|Hne]; [right; by apply Hready|].
      pose proof (ev_other _ _ _ _ Hev' x Hne) as [= E1 _ E2]. rewrite E1, (bd_iff _ _ E2). done.
  - rewrite Hst1, <- Hpin, Hs. symmetry. apply bool_decide_eq_true.
Qed.

(** The stash file of [inum] opens inode [b] at the device. *)
Definition opens (p : stash_peer) (inum b : Z) : Prop :=
  ino_of b = inum /\ (forall d, open_stash d inum = 0) /\
  exists f m, stash_dir p !! inum = Some f /\ hmdfs_get_restore_file_metadata crc32 f inum = Some (0, m) /\
    forall d, exists d', open_root d (rm_dst m) = (inr (b, true), d').

Lemma opens_dir p p' inum b : stash_dir p' = stash_dir p -> opens p inum b -> opens p' inum b.
Proof. unfold opens. by intros ->. Qed.

Lemma rebuild_one_ok p d stats inum o r :
  inv p [] o r -> numbered p ->
  exists err stats' p' d', rebuild_one p d stats inum = Some (err, stats', p', d') /\ rebuilt p p' o r /\
    rb_total stats' = rb_total stats /\
    (err = 0 /\ u32 (rb_sum stats') = u32 (rb_sum stats + 1) \/ err = - ESHUTDOWN /\ stats' = stats) /\
    (forall b, opens p inum b -> ready p b -> err = 0 /\ b ∈ stashed_inode_list p').
Proof.
  intros Hi Hn. unfold rebuild_one. pose proof (rebuilt_refl p o r Hi Hn) as Hrefl.
  assert (Hfail : rb_total (rb_failed stats) = rb_total stats /\ u32 (rb_sum (rb_failed stats)) = u32 (rb_sum stats + 1)).
  { split; [done|]. unfold rb_sum, rb_failed. cbn.
    rewrite (Z.add_comm (rb_succeed stats)), <- Z.add_assoc, u32_add. f_equal. lia. }
  destruct (stash_dir p !! inum) as [f|] eqn:Ef.
  2: { eexists _, _, _, _. split; [done|]. split; [done|]. split; [tauto|]. split; [tauto|].
       by intros b (_&_&f&_&Hf&_); congruence. }
  destruct (open_stash d inum =? 0) eqn:Eo; zb; cbn [negb].
  2: { eexists _, _, _, _. split; [done|]. split; [done|]. split; [tauto|]. split; [tauto|]. by intros b (_&Hos&_) _; rewrite Hos in Eo. }
  unfold hmdfs_open_restore_dst_file.
  destruct (metadata_spec crc32 f inum) as (err&m&Hm&Herr&_). rewrite Hm. cbn [mbind option_bind].
  destruct (err =? 0) eqn:E0; zb; cbn [negb mbind option_bind].
  2: { rewrite (proj2 (Z.eqb_neq _ _)) by (unfold ESHUTDOWN, EUCLEAN, ENODATA in *; lia).
       eexists _, _, _, _. split; [done|]. split; [done|]. split; [tauto|]. split; [tauto|].
       intros b (_&_&f'&m'&Hf'&Hm'&_). congruence. }
  destruct (open_root d (rm_dst m)) as [[e|[b other]] d'] eqn:Er; cbn [mbind option_bind].
  - assert (Hno : forall b, opens p inum b -> False).
    { intros b (_&_&f'&m'&Hf'&Hm'&Ho). assert (f' = f) as -> by congruence. assert (m' = m) as -> by congruence.
      destruct (Ho d) as [? ?]. congruence. }
    destruct (_ =? - ESHUTDOWN) eqn:E; zb; eexists _, _, _, _; (split; [done|]); (split; [done|]);
      (split; [tauto|]); (split; [tauto|]); intros b Hb; by destruct (Hno b).
  - assert (Hb : forall b', opens p inum b' -> b' = b /\ other = true).
    { intros b' (_&_&f'&m'&Hf'&Hm'&Ho). assert (f' = f) as -> by congruence. assert (m' = m) as -> by congruence.
      destruct (Ho d) as [? ?]. split; congruence. }
    assert (Hvalid : forall valid : bool, let stats' := if valid
        then mk_rb (u32 (rb_succeed stats + 1)) (rb_total stats) (rb_fail stats) (rb_invalid stats)
        else mk_rb (rb_succeed stats) (rb_total stats) (rb_fail stats) (u32 (rb_invalid stats + 1)) in
      rb_total stats' = rb_total stats /\ u32 (rb_sum stats') = u32 (rb_sum stats + 1)).
    { intros []; (split; [done|]); unfold rb_sum; cbn.
      - rewrite <- Z.add_assoc, u32_add. f_equal. lia.
      - rewrite (Z.add_comm (_ + _)), u32_add. f_equal. lia. }
    unfold check_opened. destruct other; cbn [negb mbind option_bind].
    + destruct (open_close_ok p d b o r Hi Hn) as (p1&p2&i&->&Hib&Hput&_&Hreb&_&Hrd). cbn [mbind option_bind].
      rewrite Hib. cbn [mbind option_bind]. rewrite Hput. cbn [mbind option_bind].
      destruct (Hvalid (hmdfs_is_valid_stash_status i inum)) as [Ht Hs].
      eexists _, _, _, _. split; [done|]. split; [done|]. split; [done|]. split; [tauto|].
      intros b' Hop Hready. destruct (Hb b' Hop) as [-> _]. split; [done|]. by apply Hrd.
    + destruct (Hvalid false) as [Ht Hs]. eexists _, _, _, _. split; [done|]. split; [done|]. split; [done|]. split; [tauto|].
      intros b' Hop. by destruct (Hb b' Hop).
Qed.

Lemma rebuild_loop_ok tbl : forall p d stats o r,
  inv p [] o r -> numbered p ->
  exists err stats' p' d', rebuild_loop p d stats tbl = Some (err, stats', p', d') /\ rebuilt p p' o r /\
    rb_total stats' = rb_total stats /\ (err = 0 \/ err = - ESHUTDOWN) /\
    (err = 0 -> u32 (rb_sum stats') = u32 (rb_sum stats + Z.of_nat (length tbl)) /\
       forall inum b, inum ∈ tbl -> opens p inum b -> ready p b -> b ∈ stashed_inode_list p') /\
    ((forall inum, inum ∈ tbl -> exists b, opens p inum b /\ ready p b) -> err = 0).
Proof.
  induction tbl as [|inum tbl IH]; intros p d stats o r Hi Hn.
  { exists 0, stats, p, d. split; [done|]. split; [by apply rebuilt_refl|]. split; [done|]. split; [tauto|].
    split; [|done]. intros _. split; [cbn; f_equal; lia|]. by intros ? ? ?%elem_of_nil. }
  cbn [rebuild_loop]. destruct (rebuild_one_ok p d stats inum o r Hi Hn) as (err&stats1&p1&d1&->&Hr1&Ht1&He&Hpin).
  cbn [mbind option_bind]. destruct He as [[-> Hsum]|[-> ->]].
  - cbn [Z.eqb negb]. destruct (rb_inv _ _ _ _ Hr1) as (r1&Hi1&Hle1).
    destruct (IH p1 d1 stats1 o r1 Hi1 (rb_num _ _ _ _ Hr1)) as (err&stats'&p'&d'&->&Hr'&Ht'&He'&Hz&Hall).
    exists err, stats', p', d'. split; [done|]. split; [by eapply rebuilt_trans|].
    split; [congruence|]. split; [done|]. split.
    + intros E. destruct (Hz E) as [Hs Hb]. split.
      * rewrite Hs, <- u32_add, Hsum, u32_add. cbn [length]. f_equal. lia.
      * intros n b Hin Hop Hrd. apply elem_of_cons in Hin as [->|Hin].
        { apply (rb_pins _ _ _ _ Hr'). by apply Hpin. }
        apply (Hb n); [done|apply (opens_dir _ _ _ _ (rb_dir _ _ _ _ Hr1) Hop)|by apply (rb_ready _ _ _ _ Hr1)].
    + intros Hg. apply Hall. intros n Hin. destruct (Hg n ltac:(by right)) as (b&Hop&Hrd). exists b.
      split; [apply (opens_dir _ _ _ _ (rb_dir _ _ _ _ Hr1) Hop)|by apply (rb_ready _ _ _ _ Hr1)].
  - change (negb (- ESHUTDOWN =? 0)) with true. cbv iota. eexists _, _, _, _. split; [done|]. split; [done|]. split; [done|].
    split; [tauto|]. split; [done|]. intros Hg. destruct (Hg inum ltac:(by left)) as (b&Hop&Hrd). by destruct (Hpin b Hop Hrd).
Qed.

Lemma rebuild_list_ok tbl p d stats o r :
  inv p [] o r -> numbered p ->
  exists err stats' p' d', hmdfs_rebuild_stash_list p d stats tbl = Some (err, stats', p', d') /\ rebuilt p p' o r /\
    ((forall d, init_ctx d = 0) -> (forall inum, inum ∈ tbl -> exists b, opens p inum b /\ ready p b) ->
       err = 0 /\ forall inum b, inum ∈ tbl -> opens p inum b -> b ∈ stashed_inode_list p').
Proof.
  intros Hi Hn. unfold hmdfs_rebuild_stash_list. destruct (init_ctx d =? 0) eqn:E; zb; cbn [negb].
  - destruct (rebuild_loop_ok tbl p d (mk_rb (rb_succeed stats) (u32 (rb_total stats + Z.of_nat (length tbl)))
      (rb_fail stats) (rb_invalid stats)) o r Hi Hn) as (err&stats'&p'&d'&->&Hr&_&_&Hz&Hall).
    eexists _, _, _, _. split; [done|]. split; [done|]. intros _ Hg. pose proof (Hall Hg) as Herr. split; [done|].
    destruct (Hz Herr) as [_ Hb]. intros inum b Hin Hop. destruct (Hg inum Hin) as (b'&Hop'&Hrd).
    assert (b' = b) as -> by (apply ino_inj; destruct Hop as [? _], Hop' as [? _]; congruence). by apply (Hb inum).
  - eexists _, _, _, _. split; [done|]. split; [by apply rebuilt_refl|]. intros H0. by rewrite H0 in E.
Qed.

(** The tables the iteration makes of what the directory yields. *)
Definition tables (l : list (list (bytes * Z))) : list (list Z) := map (fill_table (Z.to_nat INODE_TBL_MAX)) l.

Lemma rebuild_iter_ok l : forall p d stats o r,
  inv p [] o r -> numbered p -> (forall d, init_ctx d = 0) ->
  (forall tbl, tbl ∈ tables l -> tbl <> [] /\ forall inum, inum ∈ tbl -> exists b, opens p inum b /\ ready p b) ->
  exists stats' p' d', iter_loop hmdfs_rebuild_stash_list p d stats (map inr l) = Some (0, stats', p', d') /\
    rebuilt p p' o r /\ forall tbl inum b, tbl ∈ tables l -> inum ∈ tbl -> opens p inum b -> b ∈ stashed_inode_list p'.
Proof.
  induction l as [|entries l IH]; intros p d stats o r Hi Hn H0 Hg.
  { exists stats, p, d. split; [done|]. split; [by apply rebuilt_refl|]. by intros ? ? ? ?%elem_of_nil. }
  cbn [map iter_loop]. destruct (Hg (fill_table (Z.to_nat INODE_TBL_MAX) entries) ltac:(by left)) as [Hne Hgood].
  destruct (fill_table _ entries) as [|n tbl] eqn:Ef; [done|].
  destruct (rebuild_list_ok (n :: tbl) p d stats o r Hi Hn) as (err&stats1&p1&d1&->&Hr1&Hz).
  destruct (Hz H0 Hgood) as [-> Hpin]. cbn [mbind option_bind Z.eqb]. destruct (rb_inv _ _ _ _ Hr1) as (r1&Hi1&Hle1).
  destruct (IH p1 d1 stats1 o r1 Hi1 (rb_num _ _ _ _ Hr1) H0) as (stats'&p'&d'&->&Hr'&Hpin').
  { intros t Ht. destruct (Hg t ltac:(by right)) as [? Hg']. split; [done|]. intros inum Hin.
    destruct (Hg' inum Hin) as (b&Hop&Hrd). exists b.
    split; [apply (opens_dir _ _ _ _ (rb_dir _ _ _ _ Hr1) Hop)|by apply (rb_ready _ _ _ _ Hr1)]. }
  exists stats', p', d'. split; [done|]. split; [by eapply rebuilt_trans|].
  intros t inum b Ht Hin Hop. cbn [tables map] in Ht. rewrite Ef in Ht. apply elem_of_cons in Ht as [->|Ht].
  - apply (rb_pins _ _ _ _ Hr'). by apply (Hpin inum).
  - apply (Hpin' t inum); [done|done|]. apply (opens_dir _ _ _ _ (rb_dir _ _ _ _ Hr1) Hop).
Qed.

(** Rebuilding the list of stashed inodes comes to an end, whatever fails, and loses no stash
    file and no pinned inode; restoring stays off exactly when the device went away again
    meanwhile. When every stash file of the directory opens its inode at the device, and that
    inode is not in use yet or was pinned when it was made, all of them are pinned afterwards
    and restoring may begin. *)
Theorem rebuild_pins_stashed p d o r tbl_alloc batches :
  inv p [] o r -> numbered p -> need_rebuild_stash_list p = true ->
  exists err stats p1 p' d', hmdfs_iter_stash_file hmdfs_rebuild_stash_list tbl_alloc p d no_rb batches = Some (err, stats, p1, d') /\
    hmdfs_stash_online_prepare p d true 0 tbl_alloc batches = Some (stats, p', d') /\
    (exists r', inv p' [] o r' /\ forall x, r x <= r' x) /\ stash_dir p' = stash_dir p /\
    (forall x, x ∈ stashed_inode_list p -> x ∈ stashed_inode_list p') /\
    (need_rebuild_stash_list p' = true <-> err = - ESHUTDOWN) /\
    (forall l, batches = map inr l -> tbl_alloc = true -> (forall d, init_ctx d = 0) ->
       (forall tbl, tbl ∈ tables l -> tbl <> [] /\ forall inum, inum ∈ tbl -> exists b, opens p inum b /\ ready p b) ->
       err = 0 /\ forall tbl inum b, tbl ∈ tables l -> inum ∈ tbl -> opens p inum b -> b ∈ stashed_inode_list p').
Proof.
  intros Hi Hn Hneed.
  destruct (iter_stash_ok hmdfs_rebuild_stash_list (fun p' _ _ => rebuilt p p' o r) tbl_alloc batches p d no_rb)
    as (err&stats&p1&d'&Hit&Hr1).
  { intros p2 d2 s2 tbl Hr2. destruct (rb_inv _ _ _ _ Hr2) as (r2&Hi2&Hle2).
    destruct (rebuild_list_ok tbl p2 d2 s2 o r2 Hi2 (rb_num _ _ _ _ Hr2)) as (err&s'&p'&d'&Hrun&Hr'&_).
    exists err, s', p', d'. split; [done|by eapply rebuilt_trans]. }
  { by apply rebuilt_refl. }
  destruct Hr1 as [(r1&Hi1&Hle1) Hn1 Hd1 Hnd1 Hp1 _]. exists err, stats, p1, (rebuild_done p1 err), d'. split; [done|].
  assert (Hdone : inv (rebuild_done p1 err) [] o r1 /\ stash_dir (rebuild_done p1 err) = stash_dir p1 /\
    stashed_inode_list (rebuild_done p1 err) = stashed_inode_list p1 /\
    need_rebuild_stash_list (rebuild_done p1 err) = if err =? - ESHUTDOWN then true else false).
  { unfold rebuild_done. destruct (err =? _); [by rewrite Hnd1|]. split; [by apply inv_rebuild|done]. }
  destruct Hdone as (Hid&Hdd&Hld&Hnd). split.
  { unfold hmdfs_stash_online_prepare. rewrite Hneed. cbn [negb orb Z.eqb]. by rewrite Hit. }
  split; [by exists r1|]. split; [congruence|]. rewrite Hld. split; [done|]. split.
  { rewrite Hnd. destruct (err =? _) eqn:E; zb; by split. }
  intros l -> -> H0 Hg. destruct (rebuild_iter_ok l p d no_rb o r Hi Hn H0 Hg) as (s'&p2&d2&Hit2&_&Hpin).
  unfold hmdfs_iter_stash_file in Hit. cbn [negb] in Hit. rewrite Hit2 in Hit. injection Hit as <- <- <- <-. done.
Qed.

(** A stash file whose path opens its inode without an error. *)
Lemma rebuild_one_quiet p d stats inum f m b o r :
  inv p [] o r -> numbered p -> ino_of b = inum -> ready p b -> stash_dir p !! inum = Some f -> open_stash d inum = 0 ->
  hmdfs_get_restore_file_metadata crc32 f inum = Some (0, m) -> open_root d (rm_dst m) = (inr (b, true), d) ->
  exists p', rebuild_one p d stats inum =
      Some (0, mk_rb (u32 (rb_succeed stats + 1)) (rb_total stats) (rb_fail stats) (rb_invalid stats), p', d) /\
    rebuilt p p' o r /\ b ∈ stashed_inode_list p'.
Proof.
  intros Hi Hn Hb Hrd Hf Hos Hm Ho. unfold rebuild_one. rewrite Hf, Hos. cbn [Z.eqb negb].
  unfold hmdfs_open_restore_dst_file. rewrite Hm. cbn [mbind option_bind Z.eqb negb]. rewrite Ho. cbn [mbind option_bind].
  unfold check_opened. cbn [negb].
  destruct (open_close_ok p d b o r Hi Hn) as (p1&p2&i&->&Hib&Hput&Hino&Hreb&Hst&Hpin). cbn [mbind option_bind].
  rewrite Hib. cbn [mbind option_bind]. rewrite Hput. cbn [mbind option_bind]. exists p2. split; [|split; [done|by apply Hpin]].
  unfold hmdfs_is_valid_stash_status. rewrite bool_decide_true by by apply Hst, Hpin. by rewrite Hino, Hb, Z.eqb_refl.
Qed.

End Rebuild.

(** * Across a restart *)

Section Restart.
Context {F : Type} `{SparseFile F} `{!SparseFileLaws F} (crc32 : bytes -> Z).

Definition one_file (inum : Z) : list (Z + list (bytes * Z)) := [inr [(stash_file_name inum, DT_REG)]].

(** The peer of a device that is added after a restart, with one stash file. *)
Definition restarted (inum : Z) (f : F) : @stash_peer F :=
  hmdfs_stash_add_do_check (set_dir new_peer {[inum := f]}) true (inr [(stash_file_name inum, DT_REG)]).

Lemma restarted_peer inum f : 0 <= inum < 2 ^ 64 -> restarted inum f = set_rebuild (set_dir new_peer {[inum := f]}) true.
Proof.
  intros Hi. unfold restarted, hmdfs_stash_add_do_check, has_stash_file. cbn [existsb fst snd].
  by rewrite stash_name_roundtrip by auto.
Qed.

Lemma restarted_inv inum f : 0 <= inum < 2 ^ 64 -> inv (restarted inum f) [] (fun _ => 0) (fun _ => 0).
Proof.
  intros Hi. rewrite restarted_peer by done. apply inv_rebuild, inv_set_dir; [apply start_inv|]. by intros a i ?%elem_of_nil.
Qed.

(** With one stash file, one inode is stashed. *)
Lemma only_pinned (p : @stash_peer F) o r ino_of inum f a :
  inv p [] o r -> numbered ino_of p -> stash_dir p = {[inum := f]} -> (forall x y, ino_of x = ino_of y -> x = y) ->
  ino_of a = inum -> forall x, x ∈ stashed_inode_list p -> x = a.
Proof.
  intros Hi Hn Hd Hinj Ha x Hx. destruct (proj1 (stashed_iff _ _ _ _ x Hi) Hx) as (j&Hj&Hst).
  pose proof (inv_node _ _ _ _ Hi x) as Hnx. unfold at_ in Hnx. rewrite Hj in Hnx.
  destruct Hnx as (_&_&_&_&_&_&_&Hfile&_). destruct (Hfile Hst) as [f' Hf']. rewrite Hd in Hf'.
  apply lookup_singleton_Some in Hf' as [E _]. apply Hinj. rewrite <- (Hn x j Hj). congruence.
Qed.

(** C8: Pages stashed for a device survive a restart. A peer that is added again finds the stash
    file, so it is not restored before the rebuild; when the device is back, the rebuild looks
    its path up and pins the inode, and the restore sets exactly the bytes of the stashed
    pages below the file's size in the remote file, to what each page held last. *)
Theorem stash_survives_restart f0 path isize l inum a ino_of regular alloc open_root fsync truncate offlined open_stash
    unlink_stash init_ctx :
  stashable crc32 f0 path isize l inum ->
  (forall x y, ino_of x = ino_of y -> x = y) -> ino_of a = inum -> regular a = true -> (forall d, alloc d a = true) ->
  (forall d : Z -> Z, open_root d path = (inr (a, true), d) /\ fsync a d = (0, d) /\ open_stash d inum = 0 /\
     unlink_stash d inum = 0 /\ init_ctx d = 0) ->
  exists c1 c2, stash_pages isize (fresh_cache path f0) l = (0, Some c1) /\
    hmdfs_flush_stash_file_metadata crc32 (Some c1) inum = (0, Some c2) /\
    let p := restarted inum (ci_cache_file c2) in
    forall d, hmdfs_stash_online_do_restore crc32 open_root (fun _ => accept_write) fsync truncate offlined open_stash unlink_stash
        init_ctx p d true 0 true (one_file inum) = Some (no_rstats, p, d) /\
    exists p1 p2 d', hmdfs_stash_online_prepare crc32 open_root offlined open_stash init_ctx ino_of regular alloc p d true 0 true
        (one_file inum) = Some (mk_rb 1 1 0 0, p1, d) /\
      hmdfs_stash_online_do_restore crc32 open_root (fun _ => accept_write) fsync truncate offlined open_stash unlink_stash
        init_ctx p1 d true 0 true (one_file inum) = Some (mk_rstats 1 0 0 (Z.of_nat (length l)) 0, p2, d') /\
      (forall y, d' y = with_pages isize l d y) /\ stash_dir p2 = ∅ /\ stashed_inode_list p2 = [].
Proof.
  intros Hsb Hinj Ha Hreg Hal Hdev. pose proof (sb_ino _ _ _ _ _ _ Hsb) as Hino.
  destruct (stash_chain crc32 f0 path isize l inum Hsb) as (c1&c2&H1&H2&_&_&Hm&Hcp).
  exists c1, c2. split; [done|]. split; [done|]. cbv zeta. set (f := ci_cache_file c2) in *. intros d.
  specialize (Hm inum). rewrite decide_True in Hm by done.
  assert (Hfill : fill_table (Z.to_nat INODE_TBL_MAX) [(stash_file_name inum, DT_REG)] = [inum]).
  { cbn [fill_table]. rewrite stash_name_roundtrip by auto. done. }
  pose proof (restarted_inv inum f Hino) as Hi. rewrite restarted_peer in * by done. set (p := set_rebuild _ true) in *.
  split; [done|]. destruct (Hdev d) as (Ho&_&Hos&_&H0).
  destruct (rebuild_one_quiet crc32 open_root offlined open_stash ino_of regular alloc Hinj p d (mk_rb 0 1 0 0) inum f
    (mk_meta (Z.of_nat (length l)) 2 path) a _ _ Hi) as (p1&Hone&Hr1&Hpin); try done.
  { split; [done| |done|done|by left]. rewrite Ha. cbn. rewrite lookup_singleton_eq. by eexists. }
  { cbn. apply lookup_singleton_eq. }
  unfold hmdfs_stash_online_prepare. change (need_rebuild_stash_list p) with true. cbn [negb orb Z.eqb].
  unfold hmdfs_iter_stash_file. cbn [negb one_file iter_loop]. rewrite Hfill. unfold hmdfs_rebuild_stash_list.
  rewrite H0. cbn [Z.eqb negb rebuild_loop]. change (mk_rb (rb_succeed no_rb) _ _ _) with (mk_rb 0 1 0 0).
  rewrite Hone. cbn [mbind option_bind Z.eqb negb].
  destruct Hr1 as [(r1&Hi1&_) Hn1 Hd1 _ _ _]. change (rebuild_done p1 0) with (set_rebuild p1 false). set (p1' := set_rebuild p1 false).
  pose proof (inv_rebuild _ _ _ _ false Hi1 : inv p1' [] _ _) as Hi1'.
  assert (Hdir : stash_dir p1' = {[inum := f]}) by exact Hd1.
  destruct (proj1 (stashed_iff _ _ _ _ a Hi1') Hpin) as (i&Hia&_).
  assert (Hai : si_remote_ino i = inum) by (rewrite <- Ha; by apply Hn1).
  pose proof (only_pinned p1' _ _ ino_of inum f a Hi1' Hn1 Hdir Hinj Ha) as Honly.
  destruct (Hcp offlined d) as (d'&Hcopy&Hd'). pose proof (sb_pages _ _ _ _ _ _ Hsb) as (_&_&Hlen).
  destruct (restore_one_quiet crc32 p1' _ _ a i f (Z.of_nat (length l)) path open_root fsync truncate offlined open_stash
    unlink_stash d d' Hi1' Hpin Hia) as (p2&Hres&Hdir2&_&Hl2); rewrite ?Hai in *; try done.
  { rewrite Hdir. apply lookup_singleton_eq. }
  { lia. }
  { intros d0. destruct (Hdev d0) as (?&?&?&?&_). done. }
  exists p1', p2, d'. split; [done|].
  assert (Hempty : stashed_inode_list p2 = []).
  { destruct (stashed_inode_list p2) as [|x xs]; [done|]. destruct (proj1 (Hl2 x) ltac:(by left)) as [Hx Hne]. by apply Honly in Hx. }
  split; [|split; [done|split; [by rewrite Hdir2, Hdir, delete_singleton_eq|done]]].
  unfold hmdfs_stash_online_do_restore. change (need_rebuild_stash_list p1') with false. cbn [negb orb].
  unfold restore_run, hmdfs_iter_stash_file. cbn [negb Z.eqb one_file iter_loop]. rewrite Hfill. unfold hmdfs_restore_files.
  rewrite H0. cbn [Z.eqb negb restore_loop]. rewrite Hres. cbn [mbind option_bind Z.eqb negb].
  change (0 =? - ESHUTDOWN) with false. cbn [negb]. unfold hmdfs_drop_stashed_inodes. by rewrite Hempty.
Qed.

End Restart.

Lemma rebuild_pins_stashed_witness :
  exists stats p' d', hmdfs_stash_online_prepare sum32 (demo_open 1 true) (fun _ => false) no_err (fun _ => 0)
      (fun x => x + 65) (fun _ => true) (fun _ _ => true) (restarted 66 empty_sparse) (fun _ => 1) true 0 true (one_file 66) =
      Some (stats, p', d') /\ is_Some (stash_dir p' !! 66).
Proof.
  destruct (rebuild_pins_stashed sum32 (demo_open 1 true) (fun _ => false) no_err (fun _ => 0)
    (fun x => x + 65) (fun _ => true) (fun _ _ => true) ltac:(intros x y E; cbn in E; lia) (restarted 66 empty_sparse) (fun _ => 1) _ _ true
    (one_file 66) (restarted_inv 66 empty_sparse ltac:(done))) as (err&stats&p1&p'&d'&_&E&_&Hd&_).
  - rewrite restarted_peer by done. intros x i Hx. cbn in Hx. by rewrite lookup_empty in Hx.
  - by rewrite restarted_peer.
  - exists stats, p', d'. split; [exact E|]. rewrite Hd, restarted_peer by done. cbn. rewrite lookup_singleton_eq. by eexists.
Defined.

Lemma stash_survives_restart_witness :
  exists c1 c2, stash_pages 5000 (fresh_cache demo_path empty_sparse) [(1, demo_page)] = (0, Some c1) /\
    hmdfs_flush_stash_file_metadata sum32 (Some c1) 66 = (0, Some c2) /\
    exists p1 p2 d', hmdfs_stash_online_prepare sum32 (demo_open 1 true) (fun _ => false) no_err (fun _ => 0) (fun x => x + 65)
        (fun _ => true) (fun _ _ => true) (restarted 66 (ci_cache_file c2)) (fun _ => 1) true 0 true (one_file 66) =
        Some (mk_rb 1 1 0 0, p1, fun _ => 1) /\
      hmdfs_stash_online_do_restore sum32 (demo_open 1 true) (fun _ => accept_write) demo_fsync (fun _ d => d)
        (fun _ => false) no_err no_err (fun _ => 0) p1 (fun _ => 1) true 0 true (one_file 66) =
        Some (mk_rstats 1 0 0 1 0, p2, d') /\
      d' 4095 = 1 /\ d' 4096 = 7 /\ d' 4999 = 7 /\ d' 5000 = 1.
Proof.
  destruct (stash_survives_restart sum32 empty_sparse demo_path 5000 [(1, demo_page)] 66 1 (fun x => x + 65) (fun _ => true)
    (fun _ _ => true) (demo_open 1 true) demo_fsync (fun _ d => d) (fun _ => false) no_err no_err (fun _ => 0)
    demo_stashable ltac:(intros x y E; cbn in E; lia) eq_refl eq_refl ltac:(done) ltac:(done)) as (c1&c2&H1&H2&Hr).
  exists c1, c2. split; [exact H1|]. split; [exact H2|]. destruct (Hr (fun _ => 1)) as (_&p1&p2&d'&Hp&E&Hd&_).
  exists p1, p2, d'. split; [exact Hp|]. split; [exact E|].
  rewrite !Hd. clear. vm_compute. repeat split.
Defined.
