(* ===== verification/ServerFile.v ===== *)
(** The files a server holds open for a client (hmdfs_server.c): the table of file ids, the
    version that makes ids of an earlier connection stale, and the handlers that open, use
    and release files. Files are counted; an access to a file that was closed has no
    result. *)
From S2P Require Import Prelude RefCount Idr ServerPath ShareTable OpenCache.

Definition EISDIR := 21.
Definition HMDFS_BOOT_COOKIE_RAND_SHIFT := 33.
Definition DATA_SEC_LEVEL0 := 0.
Definition DATA_SEC_LEVEL3 := 3.

(** The version cookie of a mount (main.c): milliseconds since boot and a random number. *)
Definition hmdfs_gen_boot_cookie (ms rand : Z) : Z :=
  let now := Z.land ms (Z.shiftl 1 HMDFS_BOOT_COOKIE_RAND_SHIFT - 1) in
  let now := Z.lor now (u64 (Z.shiftl (u16 rand) HMDFS_BOOT_COOKIE_RAND_SHIFT)) in
  u64 (Z.shiftl now HMDFS_FID_VER_BOOT_COOKIE_SHIFT).

(** * Security levels *)

(** The five labels are "s0" to "s4", compared up to their length. *)
Fixpoint sec_level_loop (n : nat) (i : Z) (sl_value : bytes) : Z :=
  match n with
  | O => DATA_SEC_LEVEL3
  | S n => if beqb (take 2 sl_value) [115; 48 + i] then i + DATA_SEC_LEVEL0 else sec_level_loop n (i + 1) sl_value
  end.
Definition parse_data_sec_level (sl_value : bytes) : Z := sec_level_loop 5 0 sl_value.

(** The level of the device, the errors of the allocation and of the two lookups, and what
    vfs_getxattr gives: an error or the value. *)
Definition check_sec_level (devsl : Z) (alloc : bool) (root_err path_err : Z) (xattr : Z + bytes) : Z :=
  if devsl <=? 0 then - EACCES
  else if negb alloc then - ENOMEM
  else if negb (root_err =? 0) then root_err
  else if negb (path_err =? 0) then path_err
  else
    match xattr with
    | inl _ | inr [] => if DATA_SEC_LEVEL3 <=? devsl then 0 else - EACCES
    | inr value => if parse_data_sec_level value <=? devsl then 0 else - EACCES
    end.

(** * State *)

Section Server.
Context `{Idr} (boot_cookie : Z).

(** Open files with their reference counts, the table with its cursor, the connection's
    cookie and the share table. *)
Record server := mk_sv {
  sv_count : gmap Z Z;
  sv_idr : gmap Z Z;
  sv_next : Z;
  sv_cookie : Z;
  sv_share : hmdfs_share_table
}.

Definition set_count (s : server) (m : gmap Z Z) : server := mk_sv m (sv_idr s) (sv_next s) (sv_cookie s) (sv_share s).
Definition set_idr (s : server) (m : gmap Z Z) (next : Z) : server := mk_sv (sv_count s) m next (sv_cookie s) (sv_share s).
Definition set_share (s : server) (t : hmdfs_share_table) : server := mk_sv (sv_count s) (sv_idr s) (sv_next s) (sv_cookie s) t.

(** get_file and fput: the last reference closes the file. *)
Definition ref_file (s : server) (f : Z) : option server :=
  m ← inc_ref (sv_count s) f; Some (set_count s m).
Definition hmdfs_close_path (s : server) (f : Z) : option server :=
  m ← dec_ref (sv_count s) f; Some (set_count s m).

(** [mem]: whether the table has memory; the result is the id or an error. *)
Definition insert_file_into_conn (s : server) (mem : bool) (f : Z) : Z * server :=
  if negb mem then (- ENOMEM, s)
  else
    match idr_alloc_cyclic (sv_idr s) 0 (sv_next s) with
    | inl err => (err, s)
    | inr id => (id, set_idr s (<[id := f]> (sv_idr s)) (id + 1))
    end.

Definition get_file_from_conn (s : server) (file_id : Z) : option (option Z * server) :=
  match sv_idr s !! file_id with
  | None => Some (None, s)
  | Some f => s ← ref_file s f; Some (Some f, s)
  end.

Definition remove_file_from_conn (s : server) (file_id : Z) : Z * server :=
  match sv_idr s !! file_id with
  | None => (- ENOENT, s)
  | Some _ => (0, set_idr s (delete file_id (sv_idr s)) (sv_next s))
  end.

(** The version, then the file with a reference. *)
Definition file_by_fid (s : server) (file_id file_ver : Z) : option ((Z + Z) * server) :=
  match get_file_by_fid_and_ver boot_cookie (sv_cookie s) (fun id => sv_idr s !! id) file_id file_ver with
  | inl err => Some (inl err, s)
  | inr _ =>
      '(file, s) ← get_file_from_conn s file_id;
      Some (match file with Some f => inr f | None => inl (- EBADF) end, s)
  end.

(** hmdfs_server_offline_notify: every file of the table is put, and the ids become stale. *)
Fixpoint close_all (s : server) (files : list Z) : option server :=
  match files with
  | [] => Some s
  | f :: files => s ← hmdfs_close_path s f; close_all s files
  end.

Definition hmdfs_server_offline_notify (s : server) (cid : bytes) : option server :=
  s ← close_all s (map snd (map_to_list (sv_idr s)));
  Some (mk_sv (sv_count s) ∅ (sv_next s) (u16 (sv_cookie s + 1)) (hmdfs_clear_share_item_offline (sv_share s) cid)).

(** * Opening *)

(** What the calls into the file system give during an open: check_sec_level, whether the file
    is a shared one, the new file or an error, memory for the table, and the errors of
    hmdfs_get_open_info and of sending the answer. *)
Record open_env := mk_oe {
  oe_sec : Z;
  oe_share : bool;
  oe_file : Z + Z;
  oe_mem : bool;
  oe_info : Z;
  oe_send : Z
}.

Inductive reply := Reply_err (err : Z) | Reply_fid (ver id : Z) | Reply_lost.

(** The file and its id, or the error. *)
Definition hmdfs_open_file (s : server) (filename cid : bytes) (env : open_env) : option ((Z + Z * Z) * server) :=
  if negb (oe_sec env =? 0) then Some (inl (- EACCES), s)
  else
    let '(err, share) :=
      if oe_share env then hmdfs_check_share_access_permission (sv_share s) filename cid else (0, sv_share s) in
    let s := set_share s share in
    if negb (err =? 0) then Some (inl err, s)
    else
      match oe_file env with
      | inl err => Some (inl err, set_share s (reset_item_opened_status (sv_share s) filename))
      | inr f =>
          let s := set_count s (<[f := 1]> (sv_count s)) in
          s ← ref_file s f;
          let '(id, s) := insert_file_into_conn s (oe_mem env) f in
          if id <? 0 then
            let s := set_share s (reset_item_opened_status (sv_share s) filename) in
            s ← hmdfs_close_path s f; s ← hmdfs_close_path s f; Some (inl id, s)
          else Some (inr (f, id), s)
      end.

(** The rest of hmdfs_server_open: the file's attributes and the answer. *)
Definition open_reply (s : server) (f id info_err send_err : Z) : option (reply * server) :=
  if negb (info_err =? 0) then
    s ← hmdfs_close_path s f;
    let '(_, s) := remove_file_from_conn s id in
    s ← hmdfs_close_path s f;
    Some (Reply_err info_err, s)
  else
    let ver := hmdfs_server_pack_fid_ver boot_cookie (sv_cookie s) in
    s ← (if negb (send_err =? 0) then
           let '(_, s) := remove_file_from_conn s id in hmdfs_close_path s f
         else Some s);
    s ← hmdfs_close_path s f;
    Some (if send_err =? 0 then Reply_fid ver id else Reply_lost, s).

Definition hmdfs_server_open (s : server) (path cid : bytes) (env : open_env) : option (reply * server) :=
  if path_contain_dotdot path then Some (Reply_err (- EINVAL), s)
  else
    '(r, s) ← hmdfs_open_file s path cid env;
    match r with
    | inl err => Some (Reply_err err, s)
    | inr (f, id) => open_reply s f id (oe_info env) (oe_send env)
    end.

(** What lookup_one_len finds at the name, and the error of vfs_create. *)
Definition hmdfs_check_and_create (negative : bool) (create_err : Z) (is_excl is_reg is_lnk is_dir : bool) : Z :=
  if negative then create_err
  else if is_excl then - EEXIST
  else if is_reg && is_lnk then - EINVAL
  else if is_dir then - EISDIR
  else 0.

(** hmdfs_dentry_open; the file comes with [env]. *)
Definition hmdfs_dentry_open (s : server) (env : open_env) : option ((Z + Z * Z) * server) :=
  match oe_file env with
  | inl err => Some (inl err, s)
  | inr f =>
      let s := set_count s (<[f := 1]> (sv_count s)) in
      s ← ref_file s f;
      let '(id, s) := insert_file_into_conn s (oe_mem env) f in
      if id <? 0 then s ← hmdfs_close_path s f; s ← hmdfs_close_path s f; Some (inl id, s)
      else Some (inr (f, id), s)
  end.

(** The rest of hmdfs_server_do_atomic_open and of hmdfs_server_atomic_open; [trunc_err] is
    the error of truncating an existing file. *)
Definition atomic_reply (s : server) (f id info_err trunc_err send_err : Z) : option (reply * server) :=
  let err := if negb (info_err =? 0) then info_err else trunc_err in
  if negb (err =? 0) then
    let '(_, s) := remove_file_from_conn s id in
    s ← hmdfs_close_path s f; s ← hmdfs_close_path s f;
    Some (Reply_err err, s)
  else
    let ver := hmdfs_server_pack_fid_ver boot_cookie (sv_cookie s) in
    if negb (send_err =? 0) then
      let '(_, s) := remove_file_from_conn s id in
      s ← hmdfs_close_path s f; Some (Reply_lost, s)
    else Some (Reply_fid ver id, s).

Definition hmdfs_server_atomic_open (s : server) (path file : bytes) (lookup_err trunc_err : Z) (env : open_env) :
    option (reply * server) :=
  if path_contain_dotdot path || path_contain_dotdot file then Some (Reply_err (- EINVAL), s)
  else if negb (lookup_err =? 0) then Some (Reply_err lookup_err, s)
  else
    '(r, s) ← hmdfs_dentry_open s env;
    match r with
    | inl err => Some (Reply_err err, s)
    | inr (f, id) => atomic_reply s f id (oe_info env) trunc_err (oe_send env)
    end.

(** * Releasing *)

(** The part of hmdfs_server_release behind the lookup; [share] is the path of a shared file. *)
Definition release_put (s : server) (f : Z) (share : option bytes) (cid : bytes) : option server :=
  let s := match share with
           | Some path => set_share s (hmdfs_close_share_item (sv_share s) path cid)
           | None => s
           end in
  hmdfs_close_path s f.

Definition release_remove (s : server) (f id : Z) : option (Z * server) :=
  let '(ret, s) := remove_file_from_conn s id in
  if negb (ret =? 0) then Some (ret, s) else s ← hmdfs_close_path s f; Some (0, s).

Definition hmdfs_server_release (s : server) (id ver : Z) (share : option bytes) (cid : bytes) : option (Z * server) :=
  '(r, s) ← file_by_fid s id ver;
  match r with
  | inl err => Some (err, s)
  | inr f => s ← release_put s f share cid; release_remove s f id
  end.

(** * Using *)

(** [fsync_err] is the result of vfs_fsync_range on the file. *)
Definition hmdfs_server_fsync (s : server) (id ver fsync_err : Z) : option (Z * server) :=
  '(r, s) ← file_by_fid s id ver;
  match r with
  | inl err => Some (err, s)
  | inr f => s ← hmdfs_close_path s f; Some (fsync_err, s)
  end.

(** The answer to a read: an error or a page. *)
Definition page_answer (read_len : Z) (alloc : bool) (data : Z + bytes) : Z + bytes :=
  if read_len =? 0 then inl 0
  else if negb alloc then inl (- ENOMEM)
  else match data with
       | inl _ => inl (- EIO)
       | inr data => inr (data ++ replicate (Z.to_nat (read_len - Z.of_nat (length data))) 0)
       end.

(** [read f pos n] is kernel_read. *)
Definition hmdfs_server_readpage (s : server) (id ver index size : Z) (alloc : bool) (read : Z -> Z -> Z -> Z + bytes) :
    option ((Z + bytes) * server) :=
  '(r, s) ← file_by_fid s id ver;
  match r with
  | inl err => Some (inl err, s)
  | inr f => s ← hmdfs_close_path s f; Some (page_answer size alloc (read f (s64 (Z.shiftl index 12)) size), s)
  end.

(** [written] is what kernel_write returns. *)
Definition hmdfs_server_writepage (s : server) (id ver count written : Z) : option (Z * server) :=
  '(r, s) ← file_by_fid s id ver;
  match r with
  | inl err => Some (err, s)
  | inr f => s ← hmdfs_close_path s f; Some ((if written =? count then 0 else - EIO), s)
  end.

End Server.

(** * Handlers at work *)

(** A request in progress: an open behind the insertion of its file, one that uses a file, and
    a release before and behind its first put. *)
Inductive handler :=
| HOpen (f id : Z)
| HAtomic (f id : Z)
| HUse (f : Z)
| HRelease (f id : Z)
| HRemove (f id : Z).

(** The server, the requests in progress, the offline events so far, the ids that were
    answered with their versions and the events before them, and the references nobody will drop. *)
Record sstate := mk_ss {
  ss_server : server;
  ss_run : list handler;
  ss_offs : Z;
  ss_log : list (Z * Z * Z * Z);
  ss_leak : Z -> Z
}.

Inductive server_op :=
| OpOpen (path cid : bytes) (env : open_env)
| OpAtomic (env : open_env)
| OpUse (id ver : Z)
| OpRelease (id ver : Z)
| OpStep (k : nat) (info_err trunc_err send_err : Z) (share : option bytes) (cid : bytes)
| OpOffline (cid : bytes).

Section Machine.
Context `{Idr} (boot_cookie : Z).

Definition ss_start : sstate := mk_ss (mk_sv ∅ ∅ 0 0 hmdfs_init_share_table) [] 0 [] (fun _ => 0).

Definition new_file (s : server) (env : open_env) : bool :=
  match oe_file env with inr f => match sv_count s !! f with None => true | Some _ => false end | inl _ => true end.

(** An atomic open keeps its own reference to the file: it forgets one when it succeeds, and
    when its answer is lost, unless the file was released meanwhile. *)
Definition forgets (s : server) (id : Z) (r : reply) : bool :=
  match r with
  | Reply_fid _ _ => true
  | Reply_lost => bool_decide (is_Some (sv_idr s !! id))
  | _ => false
  end.

(** One request goes on. *)
Definition step_handler (s : sstate) (k : nat) (h : handler) (info_err trunc_err send_err : Z) (share : option bytes)
    (cid : bytes) : option sstate :=
  let 'mk_ss sv run offs log leak := s in
  let run' := delete k run in
  match h with
  | HOpen f id =>
      '(r, sv) ← open_reply boot_cookie sv f id info_err send_err;
      Some (mk_ss sv run' offs (match r with Reply_fid ver id => (offs, ver, id, f) :: log | _ => log end) leak)
  | HAtomic f id =>
      let sv0 := sv in
      '(r, sv) ← atomic_reply boot_cookie sv f id info_err trunc_err send_err;
      Some (mk_ss sv run' offs (match r with Reply_fid ver id => (offs, ver, id, f) :: log | _ => log end)
              (if forgets sv0 id r then fun g => if g =? f then leak g + 1 else leak g else leak))
  | HUse f => sv ← hmdfs_close_path sv f; Some (mk_ss sv run' offs log leak)
  | HRelease f id => sv ← release_put sv f share cid; Some (mk_ss sv (HRemove f id :: run') offs log leak)
  | HRemove f id => '(_, sv) ← release_remove sv f id; Some (mk_ss sv run' offs log leak)
  end.

(** An operation that cannot happen in a state leaves it alone; [None] is an access to a
    closed file. A client may name any id, also that of an open still in progress; the offline
    handler waits for the requests in progress. *)
Definition server_step (s : sstate) (op : server_op) : option sstate :=
  let 'mk_ss sv run offs log leak := s in
  match op with
  | OpOpen path cid env =>
      if path_contain_dotdot path || negb (new_file sv env) then Some s
      else
        '(r, sv) ← hmdfs_open_file sv path cid env;
        Some (mk_ss sv (match r with inr (f, id) => HOpen f id :: run | inl _ => run end) offs log leak)
  | OpAtomic env =>
      if negb (new_file sv env) then Some s
      else
        '(r, sv) ← hmdfs_dentry_open sv env;
        Some (mk_ss sv (match r with inr (f, id) => HAtomic f id :: run | inl _ => run end) offs log leak)
  | OpUse id ver =>
      '(r, sv) ← file_by_fid boot_cookie sv id ver;
      Some (mk_ss sv (match r with inr f => HUse f :: run | inl _ => run end) offs log leak)
  | OpRelease id ver =>
      '(r, sv) ← file_by_fid boot_cookie sv id ver;
      Some (mk_ss sv (match r with inr f => HRelease f id :: run | inl _ => run end) offs log leak)
  | OpStep k info_err trunc_err send_err share cid =>
      match run !! k with None => Some s | Some h => step_handler s k h info_err trunc_err send_err share cid end
  | OpOffline cid =>
      match run with
      | [] => sv ← hmdfs_server_offline_notify sv cid; Some (mk_ss sv [] (offs + 1) log leak)
      | _ => Some s
      end
  end.

Fixpoint server_run (s : sstate) (ops : list server_op) : option sstate :=
  match ops with
  | [] => Some s
  | op :: ops => s ← server_step s op; server_run s ops
  end.

(** An open is about to fail behind the insertion of its file, and its id is no longer in the
    table: a release that came before the answer took the table's reference, which the failing
    open puts once more. *)
Definition late_failure (s : sstate) (op : server_op) : bool :=
  match op with
  | OpStep k info_err trunc_err send_err _ _ =>
      match ss_run s !! k with
      | Some (HOpen _ id) => (negb (info_err =? 0) || negb (send_err =? 0)) && negb (bool_decide (is_Some (sv_idr (ss_server s) !! id)))
      | Some (HAtomic _ id) => (negb (info_err =? 0) || negb (trunc_err =? 0)) && negb (bool_decide (is_Some (sv_idr (ss_server s) !! id)))
      | _ => false
      end
  | _ => false
  end.

(** That happens nowhere in a run. *)
Fixpoint no_late_failure (s : sstate) (ops : list server_op) : bool :=
  match ops with
  | [] => true
  | op :: ops =>
      negb (late_failure s op) && match server_step s op with Some s => no_late_failure s ops | None => true end
  end.

(** * The invariant *)

Definition holding (h : handler) : option Z :=
  match h with HOpen f _ | HAtomic f _ | HUse f | HRelease f _ => Some f | HRemove _ _ => None end.

(** Table entries of a file, and references of requests in progress. *)
Definition entries (m : gmap Z Z) (f : Z) : Z := cnt f (map snd (map_to_list m)).
Definition holds (run : list handler) (f : Z) : Z := cnt f (omap holding run).

(** An id names this file or nothing, now and from now on. *)
Definition names (s : server) (id f : Z) : Prop :=
  0 <= id < sv_next s /\ (sv_idr s !! id = Some f \/ sv_idr s !! id = None).

Definition handler_ok (s : server) (h : handler) : Prop :=
  match h with
  | HUse _ => True
  | HOpen f id | HAtomic f id | HRelease f id | HRemove f id => names s id f
  end.

Record server_inv (s : sstate) : Prop := {
  si_next id f : sv_idr (ss_server s) !! id = Some f -> 0 <= id < sv_next (ss_server s);
  si_leak f : 0 <= ss_leak s f;
  si_counts : counts (sv_count (ss_server s))
    (fun f => entries (sv_idr (ss_server s)) f + holds (ss_run s) f + ss_leak s f);
  si_run h : h ∈ ss_run s -> handler_ok (ss_server s) h;
  si_log n ver id f : (n, ver, id, f) ∈ ss_log s ->
    0 <= n <= ss_offs s /\ ver = hmdfs_server_pack_fid_ver boot_cookie (u16 n) /\ (n = ss_offs s -> names (ss_server s) id f);
  si_cookie : sv_cookie (ss_server s) = u16 (ss_offs s) /\ 0 <= ss_offs s /\ 0 <= sv_next (ss_server s)
}.

(** * Counting *)

Lemma ref_ok s r f : counts (sv_count s) r -> 0 < r f ->
  exists m, ref_file s f = Some (set_count s m) /\ counts m (add_ref r f 1).
Proof. intros Hc Hr. unfold ref_file. destruct (inc_ref_ok _ _ f Hc Hr) as (m&->&Hm). by exists m. Qed.

Lemma put_file_ok s r f : counts (sv_count s) r -> 0 < r f ->
  exists m, hmdfs_close_path s f = Some (set_count s m) /\ counts m (add_ref r f (-1)).
Proof. intros Hc Hr. unfold hmdfs_close_path. destruct (dec_ref_ok _ _ f Hc Hr) as (m&->&Hm). by exists m. Qed.

Lemma close_all_ok l : forall s r, counts (sv_count s) r -> (forall f, cnt f l <= r f) ->
  exists m, close_all s l = Some (set_count s m) /\ counts m (fun f => r f - cnt f l).
Proof.
  induction l as [|f l IH]; intros s r Hc Hr.
  { exists (sv_count s). split; [by destruct s|]. eapply counts_ext; [|done]. intros f. cbn. unfold cnt. cbn. lia. }
  cbn [close_all]. assert (Hf : 0 < r f).
  { specialize (Hr f). rewrite cnt_cons, decide_True in Hr by done. pose proof (cnt_nonneg f l). lia. }
  destruct (put_file_ok s r f Hc Hf) as (m&->&Hm). cbn [mbind option_bind].
  destruct (IH (set_count s m) _ Hm) as (m'&->&Hm').
  { intros g. specialize (Hr g). rewrite cnt_cons in Hr. rewrite add_ref_eq. destruct (decide _); lia. }
  exists m'. split; [done|]. eapply counts_ext; [|exact Hm']. intros g. rewrite cnt_cons, add_ref_eq. destruct (decide _); lia.
Qed.

Lemma entries_insert m id f g : m !! id = None -> entries (<[id := f]> m) g = (if decide (f = g) then 1 else 0) + entries m g.
Proof. intros Hm. unfold entries. rewrite (map_to_list_insert m id f Hm). cbn [map snd]. apply cnt_cons. Qed.

Lemma entries_delete m id f g : m !! id = Some f ->
  entries m g = (if decide (f = g) then 1 else 0) + entries (delete id m) g.
Proof. intros Hm. rewrite <- (insert_delete_id m id f Hm) at 1. apply entries_insert, lookup_delete_eq. Qed.

Lemma entries_pos m id f : m !! id = Some f -> 0 < entries m f.
Proof. intros Hm. rewrite (entries_delete m id f f Hm), decide_True by done. unfold entries. pose proof (cnt_nonneg f (map snd (map_to_list (delete id m)))). lia. Qed.

Definition held_by (h : handler) (g : Z) : Z := match holding h with Some f => if decide (f = g) then 1 else 0 | None => 0 end.

Lemma holds_nil f : holds [] f = 0.
Proof. reflexivity. Qed.

Lemma holds_cons h run g : holds (h :: run) g = held_by h g + holds run g.
Proof. unfold holds, held_by. cbn [omap list_omap]. destruct (holding h); [apply cnt_cons|lia]. Qed.

Lemma holds_delete run k h g : run !! k = Some h -> holds run g = held_by h g + holds (delete k run) g.
Proof.
  intros Hk. rewrite <- holds_cons. unfold holds. by rewrite (list.delete_Permutation run k h Hk) at 1.
Qed.

(** * Steps keep the invariant *)

(** A request is still right when ids keep naming their file. *)
Lemma ok_mono s s' h : handler_ok s h -> (forall id f, names s id f -> names s' id f) -> handler_ok s' h.
Proof. intros Hok Hn. destruct h; cbn [handler_ok] in *; [by apply Hn..|done|by apply Hn|by apply Hn]. Qed.

Lemma delete_in (run : list handler) k (h x : handler) : run !! k = Some h -> x ∈ delete k run -> x ∈ run.
Proof. intros Hk Hx. rewrite (list.delete_Permutation run k h Hk). by right. Qed.

Definition total (s : sstate) (f : Z) : Z := entries (sv_idr (ss_server s)) f + holds (ss_run s) f + ss_leak s f.

Lemma total_entries s f id : server_inv s -> sv_idr (ss_server s) !! id = Some f -> 0 < total s f.
Proof.
  intros Hi Hid. pose proof (entries_pos _ _ _ Hid). pose proof (si_leak _ Hi f). unfold total, holds in *.
  pose proof (cnt_nonneg f (omap holding (ss_run s))). lia.
Qed.

Lemma total_holds s f k h : server_inv s -> ss_run s !! k = Some h -> held_by h f = 1 -> 0 < total s f.
Proof.
  intros Hi Hk Hh. pose proof (si_leak _ Hi f). unfold total. rewrite (holds_delete _ _ _ f Hk), Hh. unfold entries, holds.
  pose proof (cnt_nonneg f (omap holding (delete k (ss_run s)))). pose proof (cnt_nonneg f (map snd (map_to_list (sv_idr (ss_server s))))). lia.
Qed.

(** Only counts, requests, answers and leaks change. *)
Lemma id_same s m run' log' leak' share' :
  server_inv s -> counts m (fun f => entries (sv_idr (ss_server s)) f + holds run' f + leak' f) -> (forall f, 0 <= leak' f) ->
  (forall h, h ∈ run' -> handler_ok (ss_server s) h) ->
  (forall n ver id f, (n, ver, id, f) ∈ log' -> (n, ver, id, f) ∈ ss_log s \/
     n = ss_offs s /\ ver = hmdfs_server_pack_fid_ver boot_cookie (sv_cookie (ss_server s)) /\ names (ss_server s) id f) ->
  server_inv (mk_ss (set_share (set_count (ss_server s) m) share') run' (ss_offs s) log' leak').
Proof.
  intros Hi Hc Hl Hr Hlog. destruct Hi as [Hn _ _ Hrun Hold Hck]. split; cbn; try done.
  intros n ver id f Hin. destruct (Hlog n ver id f Hin) as [Hin'|(->&->&Hnm)]; [by eapply Hold|].
  split; [lia|]. split; [by destruct Hck as [-> _]|done].
Qed.

(** An id is deleted. *)
Lemma id_deleted s m id f0 run' log' leak' :
  server_inv s -> sv_idr (ss_server s) !! id = Some f0 ->
  counts m (fun f => entries (delete id (sv_idr (ss_server s))) f + holds run' f + leak' f) -> (forall f, 0 <= leak' f) ->
  (forall h, h ∈ run' -> handler_ok (ss_server s) h) -> (forall e, e ∈ log' -> e ∈ ss_log s) ->
  server_inv (mk_ss (set_idr (set_count (ss_server s) m) (delete id (sv_idr (ss_server s))) (sv_next (ss_server s)))
    run' (ss_offs s) log' leak').
Proof.
  intros Hi Hid Hc Hl Hr Hlog. destruct Hi as [Hn _ _ Hrun Hold Hck].
  assert (Hnames : forall x g, names (ss_server s) x g -> names (set_idr (set_count (ss_server s) m)
      (delete id (sv_idr (ss_server s))) (sv_next (ss_server s))) x g).
  { intros x g [Hb Hx]. split; [done|]. cbn. destruct (Z.eq_dec x id) as [->|Hne]; [right; apply lookup_delete_eq|].
    by rewrite lookup_delete_ne. }
  split; cbn; try done.
  - intros x g Hx. apply lookup_delete_Some in Hx as [_ Hx]. by eapply Hn.
  - intros h Hh. eapply ok_mono; [by apply Hr|done].
  - intros n ver x f Hin. destruct (Hold n ver x f (Hlog _ Hin)) as (?&?&Hnm). split; [done|]. split; [done|]. intros E. by apply Hnames, Hnm.
Qed.

(** A new file gets the next id. *)
Lemma id_inserted s m f0 h0 share' :
  server_inv s -> let id := sv_next (ss_server s) in
  counts m (fun f => entries (<[id := f0]> (sv_idr (ss_server s))) f + holds (h0 :: ss_run s) f + ss_leak s f) ->
  handler_ok (set_idr (ss_server s) (<[id := f0]> (sv_idr (ss_server s))) (id + 1)) h0 ->
  server_inv (mk_ss (set_share (set_idr (set_count (ss_server s) m) (<[id := f0]> (sv_idr (ss_server s))) (id + 1)) share')
    (h0 :: ss_run s) (ss_offs s) (ss_log s) (ss_leak s)).
Proof.
  intros Hi id Hc Hok. destruct Hi as [Hn Hl _ Hrun Hold Hck].
  assert (Hnames : forall x g, names (ss_server s) x g -> names (set_share (set_idr (set_count (ss_server s) m)
      (<[id := f0]> (sv_idr (ss_server s))) (id + 1)) share') x g).
  { intros x g [Hb Hx]. split; cbn; [unfold id; lia|]. rewrite lookup_insert_ne by (unfold id; lia). done. }
  split; cbn; try done.
  - intros x g Hx. apply lookup_insert_Some in Hx as [[<- <-]|[_ Hx]]; [unfold id; lia|]. specialize (Hn _ _ Hx). unfold id. lia.
  - intros h Hh. apply elem_of_cons in Hh as [->|Hh]; [exact Hok|]. eapply ok_mono; [by apply Hrun|done].
  - intros n ver x f Hin. destruct (Hold n ver x f Hin) as (?&?&Hnm). split; [done|]. split; [done|]. intros E. by apply Hnames, Hnm.
  - lia.
Qed.

(** * Each operation *)

(** The operation has a result, which keeps the invariant; the cursor moves by at most one and
    no answer is forgotten. *)
Definition step_ok (s : sstate) (r : option sstate) : Prop :=
  exists s', r = Some s' /\ server_inv s' /\ sv_next (ss_server s') <= sv_next (ss_server s) + 1 /\ ss_log s ⊆ ss_log s'.

Lemma step_stays s : server_inv s -> step_ok s (Some s).
Proof. intros Hi. exists s. split_and!; [done|done|lia|done]. Qed.

Lemma put_twice_ok s r f : counts (sv_count s) r -> 1 < r f ->
  exists m m', hmdfs_close_path s f = Some (set_count s m) /\
    hmdfs_close_path (set_count s m) f = Some (set_count s m') /\ counts m' (add_ref r f (-2)).
Proof.
  intros Hc Hr. destruct (put_file_ok s r f Hc) as (m&E&Hm); [lia|].
  destruct (put_file_ok (set_count s m) _ f Hm) as (m'&E'&Hm').
  { rewrite add_ref_eq, decide_True by done. lia. }
  exists m, m'. split_and!; [done|done|]. eapply counts_ext; [|exact Hm']. intros g. rewrite !add_ref_eq. destruct (decide _); lia.
Qed.

Lemma fid_ok s id ver : server_inv s ->
  exists r sv, file_by_fid boot_cookie (ss_server s) id ver = Some (r, sv) /\
    match r with
    | inl e => sv = ss_server s /\ e = - EBADF
    | inr f => sv_idr (ss_server s) !! id = Some f /\
        exists m, sv = set_count (ss_server s) m /\ counts m (add_ref (total s) f 1)
    end.
Proof.
  intros Hi. unfold file_by_fid, get_file_by_fid_and_ver, get_file_from_conn.
  destruct (negb _); [by eexists (inl _), _|]. destruct (sv_idr (ss_server s) !! id) as [f|] eqn:Hid; [|by eexists (inl _), _].
  destruct (ref_ok (ss_server s) (total s) f (si_counts _ Hi)) as (m&->&Hm); [by eapply total_entries|].
  eexists (inr f), _. cbn [mbind option_bind]. split; [done|]. split; [done|]. by exists m.
Qed.

Lemma next_free s : server_inv s -> sv_idr (ss_server s) !! sv_next (ss_server s) = None.
Proof. intros Hi. destruct (sv_idr (ss_server s) !! _) eqn:Hu; [|done]. apply (si_next _ Hi) in Hu. lia. Qed.

Context `{!IdrLaws}.

(** A new file with its two references, in the table or closed again. *)
Lemma file_inserted s share f mem : server_inv s -> sv_next (ss_server s) <= INT_MAX -> sv_count (ss_server s) !! f = None ->
  let sv := set_share (ss_server s) share in
  exists m id sv', ref_file (set_count sv (<[f := 1]> (sv_count sv))) f = Some (set_count sv m) /\
    insert_file_into_conn (set_count sv m) mem f = (id, sv') /\
    if id <? 0 then sv' = set_count sv m /\ counts m (add_ref (total s) f 2)
    else id = sv_next sv /\ sv' = set_idr (set_count sv m) (<[id := f]> (sv_idr sv)) (id + 1) /\
         counts m (add_ref (total s) f 2).
Proof.
  intros Hi Hnext Hf sv. pose proof (si_counts _ Hi f) as Ht. rewrite Hf in Ht. fold (total s f) in Ht.
  assert (Hc : counts (<[f := 1]> (sv_count (ss_server s))) (add_ref (total s) f 1)).
  { pose proof (counts_insert (sv_count (ss_server s)) (total s) f 1 (si_counts _ Hi)) as H'. rewrite Ht in H'. apply H'. lia. }
  destruct (ref_ok (set_count sv (<[f := 1]> (sv_count sv))) _ f Hc) as (m&E&Hm).
  { rewrite add_ref_eq, decide_True by done. lia. }
  assert (Hm2 : counts m (add_ref (total s) f 2)).
  { eapply counts_ext; [|exact Hm]. intros g. rewrite !add_ref_eq. destruct (decide _); lia. }
  exists m. unfold insert_file_into_conn. destruct mem; cbn [negb]; [|exists (- ENOMEM), (set_count sv m); split; [exact E|by split]].
  destruct (idr_alloc_cyclic _ _) as [e|id] eqn:Ha.
  - apply idr_error in Ha. eexists e, _. split; [done|]. split; [done|]. destruct (e <? 0) eqn:?; zb; [done|lia].
  - pose proof (idr_found _ _ _ _ Ha) as [Hr _]. pose proof (si_cookie _ Hi) as (_&_&?).
    cbn in Ha. assert (Hmax : Z.max 0 (sv_next (ss_server s)) = sv_next (ss_server s)) by lia.
    apply idr_cyclic in Ha; rewrite Hmax in *; [|lia|by apply next_free].
    subst id. eexists _, _. split; [done|]. split; [done|]. destruct (_ <? 0) eqn:?; zb; [lia|done].
Qed.

(** The id being opened is the next one. *)
Lemma open_started s share m f h : server_inv s -> counts m (add_ref (total s) f 2) ->
  let id := sv_next (ss_server s) in
  h = HOpen f id \/ h = HAtomic f id ->
  step_ok s (Some (mk_ss (set_share (set_idr (set_count (ss_server s) m) (<[id := f]> (sv_idr (ss_server s))) (id + 1)) share)
    (h :: ss_run s) (ss_offs s) (ss_log s) (ss_leak s))).
Proof.
  intros Hi Hm id Hh. eexists. split; [done|]. split; [|split; [cbn; unfold id; lia|done]].
  apply id_inserted; [done| |].
  - eapply counts_ext; [|exact Hm]. intros g. cbn -[entries]. rewrite entries_insert by by apply next_free. rewrite holds_cons, add_ref_eq.
    unfold total, held_by. destruct Hh as [-> | ->]; cbn [holding]; destruct (decide _); lia.
  - assert (Hb := proj2 (proj2 (si_cookie _ Hi))). destruct Hh as [-> | ->]; (split; [cbn; unfold id; lia|]); left; cbn; apply lookup_insert_eq.
Qed.

Lemma open_closed s share m : server_inv s -> counts m (total s) ->
  step_ok s (Some (mk_ss (set_share (set_count (ss_server s) m) share) (ss_run s) (ss_offs s) (ss_log s) (ss_leak s))).
Proof.
  intros Hi Hm. eexists. split; [done|]. split; [|split; [cbn; lia|done]].
  apply id_same; try done; [apply (si_leak _ Hi)|by apply si_run|by left].
Qed.

(** hmdfs_dentry_open and the middle of hmdfs_open_file. *)
Lemma file_opened s share share' f mem mk : server_inv s -> sv_next (ss_server s) <= INT_MAX -> sv_count (ss_server s) !! f = None ->
  mk = HOpen \/ mk = HAtomic ->
  let sv := set_share (ss_server s) share in
  step_ok s
    ('(r, sv) ← (sv ← ref_file (set_count sv (<[f := 1]> (sv_count sv))) f;
       let '(id, sv) := insert_file_into_conn sv mem f in
       if id <? 0 then
         sv ← hmdfs_close_path (set_share sv (share' (sv_share sv))) f; sv ← hmdfs_close_path sv f; Some (inl id, sv)
       else Some (inr (f, id), sv));
     Some (mk_ss sv (match r with inr (f, id) => mk f id :: ss_run s | inl _ => ss_run s end) (ss_offs s) (ss_log s) (ss_leak s))).
Proof.
  intros Hi Hnext Hf Hmk sv. destruct (file_inserted s share f mem Hi Hnext Hf) as (m&id&sv'&E1&E2&Hid). fold sv in E1, E2, Hid.
  rewrite E1. cbn [mbind option_bind]. rewrite E2. destruct (id <? 0).
  - destruct Hid as [-> Hm]. pose proof (si_counts _ Hi f) as Ht. rewrite Hf in Ht. fold (total s f) in Ht.
    destruct (put_twice_ok (set_share (set_count sv m) (share' share)) _ f Hm) as (m1&m2&E3&E4&Hm2).
    { rewrite add_ref_eq, decide_True by done. lia. }
    cbn [sv_share sv set_share set_count]. cbn [sv set_share set_count] in E3. rewrite E3. cbn [mbind option_bind]. rewrite E4.
    cbn [mbind option_bind]. apply (open_closed s (share' share) m2 Hi). eapply counts_ext; [|exact Hm2].
    intros g. rewrite !add_ref_eq. destruct (decide _); lia.
  - destruct Hid as (->&->&Hm). cbn [mbind option_bind]. apply (open_started s share m f); [done|done|].
    destruct Hmk as [-> | ->]; auto.
Qed.

Lemma open_op_ok s path cid env : server_inv s -> sv_next (ss_server s) <= INT_MAX ->
  step_ok s (server_step s (OpOpen path cid env)).
Proof.
  intros Hi Hnext. destruct s as [sv run offs log leak]. cbn [server_step]. destruct (_ || _) eqn:Hg; [by apply step_stays|].
  apply orb_false_elim in Hg as [_ Hnew]. unfold hmdfs_open_file.
  destruct (negb (oe_sec env =? 0)); cbn [mbind option_bind].
  { apply step_stays in Hi. by destruct sv. }
  destruct (if oe_share env then _ else _) as [err share]. destruct (negb (err =? 0)); cbn [mbind option_bind].
  { apply (open_closed (mk_ss sv run offs log leak) share (sv_count sv) Hi), (si_counts _ Hi). }
  unfold new_file in Hnew. destruct (oe_file env) as [e|f]; cbn [mbind option_bind].
  { apply (open_closed (mk_ss sv run offs log leak) (reset_item_opened_status share path) (sv_count sv) Hi), (si_counts _ Hi). }
  apply (file_opened (mk_ss sv run offs log leak) share (fun t => reset_item_opened_status t path) f (oe_mem env) HOpen Hi Hnext); [|auto].
  cbn. by destruct (sv_count sv !! f).
Qed.

Lemma atomic_ok s env : server_inv s -> sv_next (ss_server s) <= INT_MAX -> step_ok s (server_step s (OpAtomic env)).
Proof.
  intros Hi Hnext. destruct s as [sv run offs log leak]. cbn [server_step]. destruct (negb (new_file _ _)) eqn:Hnew; [by apply step_stays|].
  unfold hmdfs_dentry_open, new_file in *. destruct (oe_file env) as [e|f]; cbn [mbind option_bind]; [by apply step_stays|].
  pose proof (file_opened (mk_ss sv run offs log leak) (sv_share sv) (fun t => t) f (oe_mem env) HAtomic Hi Hnext) as H'.
  cbn [ss_server] in H'. destruct sv as [cnt idr nxt ck sh]. cbn in Hnew.
  assert (Hf : cnt !! f = None) by (by destruct (cnt !! f)). specialize (H' Hf (or_intror eq_refl)).
  unfold insert_file_into_conn in *. cbn -[idr_alloc_cyclic hmdfs_close_path] in *. destruct (ref_file _ f) as [sv|]; [|exact H'].
  exact H'.
Qed.

Lemma fid_started s id ver mk : server_inv s ->
  (forall f, sv_idr (ss_server s) !! id = Some f -> holding (mk f) = Some f /\ handler_ok (ss_server s) (mk f)) ->
  step_ok s ('(r, sv) ← file_by_fid boot_cookie (ss_server s) id ver;
    Some (mk_ss sv (match r with inr f => mk f :: ss_run s | inl _ => ss_run s end) (ss_offs s) (ss_log s) (ss_leak s))).
Proof.
  intros Hi Hmk. destruct (fid_ok s id ver Hi) as (r&sv&->&Hr). cbn [mbind option_bind]. destruct r as [e|f].
  { destruct Hr as [-> _]. apply step_stays in Hi. by destruct s. }
  destruct Hr as (Hid&m&->&Hm), (Hmk f Hid) as (Hh&Hok). eexists. split; [done|]. split; [|split; [cbn; lia|done]].
  apply (id_same s m (mk f :: ss_run s) (ss_log s) (ss_leak s) (sv_share (ss_server s))); try done.
  - eapply counts_ext; [|exact Hm]. intros g. rewrite holds_cons, add_ref_eq. unfold total, held_by. rewrite Hh. destruct (decide _); lia.
  - apply (si_leak _ Hi).
  - intros h Hin. apply elem_of_cons in Hin as [->|Hin]; [done|by apply (si_run _ Hi)].
  - by left.
Qed.

Lemma use_ok s id ver : server_inv s -> step_ok s (server_step s (OpUse id ver)).
Proof. intros Hi. pose proof (fid_started s id ver HUse Hi) as H'. destruct s. cbn in *. apply H'. by intros f _. Qed.

Lemma release_op_ok s id ver : server_inv s -> step_ok s (server_step s (OpRelease id ver)).
Proof.
  intros Hi. pose proof (fid_started s id ver (fun f => HRelease f id) Hi) as H'. destruct s as [sv run offs log leak].
  cbn [server_step]. apply H'. intros f Hid. cbn in Hid |- *. split; [done|]. split; [by apply (si_next _ Hi _ _ Hid)|by left].
Qed.

(** * Going on *)

Lemma rest_eq s k h : ss_run s !! k = Some h ->
  forall g, entries (sv_idr (ss_server s)) g + holds (delete k (ss_run s)) g + ss_leak s g = total s g - held_by h g.
Proof. intros Hk g. unfold total. rewrite (holds_delete _ _ _ g Hk). lia. Qed.

(** The request is over, or [next] of it remains. *)
Lemma request_over s k h m share next log leak : server_inv s -> ss_run s !! k = Some h ->
  counts m (fun g => total s g - held_by h g + leak g - ss_leak s g) -> (forall g, 0 <= leak g) ->
  next = [] \/ (exists f id, next = [HRemove f id] /\ h = HRelease f id) ->
  (forall n ver id f, (n, ver, id, f) ∈ log ->
     n = ss_offs s /\ ver = hmdfs_server_pack_fid_ver boot_cookie (sv_cookie (ss_server s)) /\ names (ss_server s) id f) ->
  step_ok s (Some (mk_ss (set_share (set_count (ss_server s) m) share) (next ++ delete k (ss_run s)) (ss_offs s) (log ++ ss_log s) leak)).
Proof.
  intros Hi Hk Hm Hl Hnext Hlog. eexists. split; [done|].
  split; [|split; [cbn; lia|cbn; intros e He; apply elem_of_app; by right]].
  apply id_same; try done.
  - eapply counts_ext; [|exact Hm]. intros g. cbn beta. replace (holds (next ++ _) g) with (holds (delete k (ss_run s)) g).
    + pose proof (rest_eq _ _ _ Hk g). lia.
    + by destruct Hnext as [->|(f&id&->&_)].
  - intros x Hx. apply elem_of_app in Hx as [Hx|Hx]; [|by eapply (si_run _ Hi), delete_in].
    destruct Hnext as [->|(f&id&->&->)]; [by apply not_elem_of_nil in Hx|]. apply list_elem_of_singleton in Hx as ->.
    apply (si_run _ Hi (HRelease f id)). by eapply list_elem_of_lookup_2.
  - intros n ver id f Hin. apply elem_of_app in Hin as [Hin|Hin]; [right; by eapply Hlog|by left].
Qed.

(** The request is over and its id is gone. *)
Lemma request_removed s k h id f m leak : server_inv s -> ss_run s !! k = Some h -> sv_idr (ss_server s) !! id = Some f ->
  counts m (fun g => total s g - held_by h g + leak g - ss_leak s g - if decide (f = g) then 1 else 0) -> (forall g, 0 <= leak g) ->
  step_ok s (Some (mk_ss (set_idr (set_count (ss_server s) m) (delete id (sv_idr (ss_server s))) (sv_next (ss_server s)))
    (delete k (ss_run s)) (ss_offs s) (ss_log s) leak)).
Proof.
  intros Hi Hk Hid Hm Hl. eexists. split; [done|]. split; [|split; [cbn; lia|done]].
  apply (id_deleted s m id f); try done.
  - eapply counts_ext; [|exact Hm]. intros g. pose proof (rest_eq _ _ _ Hk g). pose proof (entries_delete _ _ _ g Hid). cbn beta. lia.
  - intros x Hx. by eapply (si_run _ Hi), delete_in.
Qed.

Lemma total_two s k h id f : server_inv s -> ss_run s !! k = Some h -> holding h = Some f -> sv_idr (ss_server s) !! id = Some f ->
  1 < total s f.
Proof.
  intros Hi Hk Hh Hid. pose proof (rest_eq s k h Hk f) as E. unfold held_by in E. rewrite Hh, decide_True in E by done.
  pose proof (entries_pos _ _ _ Hid). pose proof (si_leak _ Hi f). unfold holds in E.
  pose proof (cnt_nonneg f (omap holding (delete k (ss_run s)))). lia.
Qed.

(** A put in front of what a handler does next. *)
Ltac put_next Hc Hm :=
  match goal with |- context [hmdfs_close_path ?s ?f] =>
    let m := fresh "m" in let E := fresh in
    destruct (put_file_ok s _ f Hc) as (m&E&Hm);
      [rewrite ?add_ref_eq, ?decide_True by done; lia|rewrite E; clear E; cbn [mbind option_bind]] end.

(** Two ways to count the same references. *)
Ltac same_refs Hm :=
  eapply counts_ext; [|exact Hm]; intros ?; rewrite ?add_ref_eq; unfold held_by; cbn -[total]; unfold add_ref;
  repeat (destruct (decide _) || destruct (_ =? _) eqn:?; zb); subst; try congruence; try lia.

(** What is known of request [h], the [k]th that runs. *)
Ltac request_facts s k h Hi Hk :=
  pose proof (si_run _ Hi _ (list_elem_of_lookup_2 _ _ _ Hk)) as Hok; cbn [handler_ok] in Hok;
  pose proof (si_counts _ Hi) as Hc; fold (total s) in Hc; pose proof (si_leak _ Hi) as Hl;
  pose proof (fun id f => request_removed s k h id f) as Hrem; pose proof (request_over s k h) as Hover;
  pose proof (si_next _ Hi) as Hb;
  first [pose proof (fun f => total_holds s f k h Hi Hk) as Ht|idtac]; first [pose proof (fun id f => total_two s k h id f Hi Hk) as Ht2|idtac];
  destruct s as [sv run offs log leak]; cbn [ss_server ss_run ss_offs ss_log ss_leak] in *; cbn [step_handler].

Lemma step_open_ok s k f id info_err trunc_err send_err share cid : server_inv s -> ss_run s !! k = Some (HOpen f id) ->
  late_failure s (OpStep k info_err trunc_err send_err share cid) = false ->
  step_ok s (step_handler s k (HOpen f id) info_err trunc_err send_err share cid).
Proof.
  intros Hi Hk Hlf. cbn [late_failure] in Hlf. rewrite Hk in Hlf. request_facts s k (HOpen f id) Hi Hk. specialize (Ht2 id f eq_refl).
  specialize (Ht f). cbn in Ht. rewrite decide_True in Ht by done. specialize (Ht eq_refl).
  assert (Hin : (negb (info_err =? 0) || negb (send_err =? 0)) = true -> sv_idr sv !! id = Some f).
  { intros Hf. rewrite Hf in Hlf. apply negb_false_iff, bool_decide_eq_true in Hlf as [g Hg]. destruct Hok as [_ [Hid|Hid]]; congruence. }
  unfold open_reply, remove_file_from_conn. destruct (negb (info_err =? 0)); [|destruct (send_err =? 0) eqn:Hs; cbn [negb]; swap 1 2].
  - specialize (Hin eq_refl). specialize (Ht2 Hin). put_next Hc Hm. cbn [sv_idr set_count]. rewrite Hin. put_next Hm Hm'.
    apply (Hrem id f m0 leak); auto. same_refs Hm'.
  - specialize (Hin eq_refl). specialize (Ht2 Hin). rewrite Hin. put_next Hc Hm. put_next Hm Hm'.
    apply (Hrem id f m0 leak); auto. same_refs Hm'.
  - cbn [mbind option_bind]. put_next Hc Hm. apply (Hover m (sv_share sv) [] [(offs, _, id, f)] leak); auto; [same_refs Hm|].
    intros n ver id' f' He. apply list_elem_of_singleton in He as [= -> -> -> ->]. by split_and!.
Qed.

Lemma step_atomic_ok s k f id info_err trunc_err send_err share cid : server_inv s -> ss_run s !! k = Some (HAtomic f id) ->
  late_failure s (OpStep k info_err trunc_err send_err share cid) = false ->
  step_ok s (step_handler s k (HAtomic f id) info_err trunc_err send_err share cid).
Proof.
  intros Hi Hk Hlf. cbn [late_failure] in Hlf. rewrite Hk in Hlf. request_facts s k (HAtomic f id) Hi Hk. specialize (Ht2 id f eq_refl).
  specialize (Ht f). cbn in Ht. rewrite decide_True in Ht by done. specialize (Ht eq_refl).
  assert (Hl' : forall g, 0 <= (if g =? f then leak g + 1 else leak g)) by (intros g; specialize (Hl g); destruct (g =? f); lia).
  unfold atomic_reply, remove_file_from_conn. destruct (negb ((if negb (info_err =? 0) then info_err else trunc_err) =? 0)) eqn:Hf; [|destruct (negb (send_err =? 0))].
  - assert (Hin : sv_idr sv !! id = Some f).
    { replace (negb (info_err =? 0) || negb (trunc_err =? 0)) with true in Hlf by (by destruct (info_err =? 0) eqn:?; cbn in Hf |- *).
      apply negb_false_iff, bool_decide_eq_true in Hlf as [g Hg]. destruct Hok as [_ [Hid|Hid]]; congruence. }
    specialize (Ht2 Hin). rewrite Hin. put_next Hc Hm. put_next Hm Hm'. apply (Hrem id f m0 leak); auto. same_refs Hm'.
  - destruct Hok as [_ [Hin|Hin]]; rewrite Hin.
    + specialize (Ht2 Hin). put_next Hc Hm. unfold forgets. rewrite (bool_decide_eq_true_2 (is_Some _)) by (rewrite Hin; by eexists). apply (Hrem id f m (fun g => if g =? f then leak g + 1 else leak g)); auto. same_refs Hm.
    + put_next Hc Hm. unfold forgets. rewrite (bool_decide_eq_false_2 (is_Some _)) by (rewrite Hin; by intros [? ?]). apply (Hover m (sv_share sv) [] [] leak); auto; [same_refs Hm|].
      intros ? ? ? ? He. by apply not_elem_of_nil in He.
  - cbn [mbind option_bind forgets]. destruct sv as [cnt idr nxt ck sh].
    apply (Hover cnt sh [] [(offs, _, id, f)]); auto; [same_refs Hc|].
    intros n ver id' f' He. apply list_elem_of_singleton in He as [= -> -> -> ->]. by split_and!.
Qed.

Lemma step_use_ok s k f info_err trunc_err send_err share cid : server_inv s -> ss_run s !! k = Some (HUse f) ->
  step_ok s (step_handler s k (HUse f) info_err trunc_err send_err share cid).
Proof.
  intros Hi Hk. request_facts s k (HUse f) Hi Hk. specialize (Ht f). cbn in Ht. rewrite decide_True in Ht by done.
  specialize (Ht eq_refl). put_next Hc Hm. apply (Hover m (sv_share sv) [] [] leak); auto; [same_refs Hm|].
  intros ? ? ? ? Hin. by apply not_elem_of_nil in Hin.
Qed.

Lemma step_release_ok s k f id info_err trunc_err send_err share cid : server_inv s -> ss_run s !! k = Some (HRelease f id) ->
  step_ok s (step_handler s k (HRelease f id) info_err trunc_err send_err share cid).
Proof.
  intros Hi Hk. request_facts s k (HRelease f id) Hi Hk. specialize (Ht f). cbn in Ht. rewrite decide_True in Ht by done.
  specialize (Ht eq_refl). unfold release_put.
  assert (Hc' : forall t, counts (sv_count (set_share sv t)) (total (mk_ss sv run offs log leak))) by done.
  pose proof (fun m share => Hover m share [HRemove f id] [] leak) as H'. cbn [app] in H'.
  destruct share as [path|]; [specialize (Hc' (hmdfs_close_share_item (sv_share sv) path cid))|specialize (Hc' (sv_share sv))];
    put_next Hc' Hm; [apply (H' m (hmdfs_close_share_item (sv_share sv) path cid))|apply (H' m (sv_share sv))]; eauto; try same_refs Hm;
    intros ? ? ? ? Hin; by apply not_elem_of_nil in Hin.
Qed.

Lemma step_remove_ok s k f id info_err trunc_err send_err share cid : server_inv s -> ss_run s !! k = Some (HRemove f id) ->
  step_ok s (step_handler s k (HRemove f id) info_err trunc_err send_err share cid).
Proof.
  intros Hi Hk. pose proof (total_entries s f id Hi) as Ht1. request_facts s k (HRemove f id) Hi Hk. clear Ht Ht2. destruct Hok as [_ Hid].
  unfold release_remove, remove_file_from_conn. destruct Hid as [Hid|Hid]; rewrite Hid; cbn.
  - specialize (Ht1 Hid). put_next Hc Hm. apply (Hrem id f m leak); auto. same_refs Hm.
  - destruct sv as [cnt idr nxt ck sh]. apply (Hover cnt sh [] [] leak); auto; [same_refs Hc|].
    intros ? ? ? ? Hin. by apply not_elem_of_nil in Hin.
Qed.

Lemma handler_step_ok s k info_err trunc_err send_err share cid : server_inv s ->
  late_failure s (OpStep k info_err trunc_err send_err share cid) = false ->
  step_ok s (server_step s (OpStep k info_err trunc_err send_err share cid)).
Proof.
  intros Hi Hlf. destruct (ss_run s !! k) as [h|] eqn:Hk.
  - assert (H' : step_ok s (step_handler s k h info_err trunc_err send_err share cid)).
    { destruct h; [by apply step_open_ok|by apply step_atomic_ok|by apply step_use_ok|by apply step_release_ok|by apply step_remove_ok]. }
    destruct s; cbn in Hk |- *. by rewrite Hk.
  - apply step_stays in Hi. destruct s; cbn in Hk |- *. by rewrite Hk.
Qed.

(** Every file of the table is put, and only the leaked ones stay open. *)
Lemma offline_closes s cid : server_inv s -> ss_run s = [] ->
  exists m, hmdfs_server_offline_notify (ss_server s) cid =
    Some (mk_sv m ∅ (sv_next (ss_server s)) (u16 (sv_cookie (ss_server s) + 1)) (hmdfs_clear_share_item_offline (sv_share (ss_server s)) cid)) /\
    counts m (ss_leak s).
Proof.
  intros Hi Hrun. destruct (close_all_ok (map snd (map_to_list (sv_idr (ss_server s)))) (ss_server s) (total s) (si_counts _ Hi)) as (m&E&Hm).
  { intros f. unfold total, entries. rewrite Hrun, holds_nil. pose proof (si_leak _ Hi f). lia. }
  exists m. unfold hmdfs_server_offline_notify. rewrite E. split; [done|]. eapply counts_ext; [|exact Hm].
  intros f. unfold total, entries. rewrite Hrun, holds_nil. lia.
Qed.

Lemma offline_ok s cid : server_inv s -> step_ok s (server_step s (OpOffline cid)).
Proof.
  intros Hi. destruct (ss_run s) as [|h run] eqn:Hrun.
  2: { apply step_stays in Hi. destruct s; cbn in Hrun. by subst. }
  destruct (offline_closes s cid Hi Hrun) as (m&E&Hm). destruct Hi as [Hn Hl _ _ Hold (Hck&Ho&Hb)].
  destruct s as [sv run offs log leak]. cbn [ss_server ss_run ss_offs ss_log ss_leak] in *. subst run. cbn [server_step].
  rewrite E. cbn [mbind option_bind]. eexists. split; [done|]. split; [|split; [cbn; lia|done]]. split; cbn; try done.
  - intros h Hh. by apply not_elem_of_nil in Hh.
  - intros n ver id f Hin. destruct (Hold n ver id f Hin) as (?&?&?). split; [lia|]. split; [done|lia].
  - split; [|lia]. rewrite Hck. unfold wrap. by rewrite Zplus_mod_idemp_l.
Qed.

Lemma server_step_ok s op : server_inv s -> sv_next (ss_server s) <= INT_MAX -> late_failure s op = false ->
  step_ok s (server_step s op).
Proof.
  intros Hi Hn Hlf. destruct op; [by apply open_op_ok|by apply atomic_ok|by apply use_ok|by apply release_op_ok|by apply handler_step_ok|by apply offline_ok].
Qed.

Lemma server_start_inv : server_inv ss_start.
Proof.
  split; cbn; try done.
  - intros h Hh. by apply not_elem_of_nil in Hh.
  - intros ? ? ? ? Hin. by apply not_elem_of_nil in Hin.
Qed.

Lemma server_run_ok ops : forall s, server_inv s -> sv_next (ss_server s) + Z.of_nat (length ops) <= INT_MAX + 1 ->
  no_late_failure s ops = true ->
  exists s', server_run s ops = Some s' /\ server_inv s' /\
    sv_next (ss_server s') <= sv_next (ss_server s) + Z.of_nat (length ops) /\ ss_log s ⊆ ss_log s'.
Proof.
  induction ops as [|op ops IH]; intros s Hi Hn Hlf; [exists s; split_and!; [done|done|cbn; lia|done]|]. cbn [length server_run no_late_failure] in *.
  apply andb_prop in Hlf as [Hop Hlf]. apply negb_true_iff in Hop.
  destruct (server_step_ok s op Hi) as (s1&E1&Hi1&Hn1&Hlog); [lia|done|]. rewrite E1 in Hlf |- *. cbn [mbind option_bind].
  destruct (IH s1 Hi1) as (s'&E&Hi'&Hn'&Hlog'); [lia|done|]. exists s'. split_and!; [done|done|lia|]. by etransitivity.
Qed.

(** * Versions *)

Lemma pack_boot ms rand c : hmdfs_server_pack_fid_ver (hmdfs_gen_boot_cookie ms rand) (u16 c) mod 2 ^ 15 = c mod 2 ^ 15.
Proof.
  unfold hmdfs_server_pack_fid_ver, hmdfs_gen_boot_cookie, HMDFS_FID_VER_BOOT_COOKIE_SHIFT.
  change (Z.shiftl 1 15 - 1) with (Z.ones 15). apply Z.bits_inj'. intros i Hi.
  destruct (Z_lt_le_dec i 15) as [Hlo|Hhi]; [|rewrite !Z.mod_pow2_bits_high by lia; done].
  rewrite !Z.mod_pow2_bits_low by lia. rewrite Z.lor_spec, Z.land_spec, Z.ones_spec_low by lia. unfold wrap.
  rewrite !Z.mod_pow2_bits_low by lia. rewrite Z.shiftl_spec_low by lia. by rewrite andb_true_r.
Qed.

(** A version is stale until 2^15 offline events have passed. *)
Lemma version_stale ms rand n offs : n < offs < n + 2 ^ 15 ->
  hmdfs_server_pack_fid_ver (hmdfs_gen_boot_cookie ms rand) (u16 n) <> hmdfs_server_pack_fid_ver (hmdfs_gen_boot_cookie ms rand) (u16 offs).
Proof.
  intros Hn E. apply (f_equal (fun z => z mod 2 ^ 15)) in E. rewrite !pack_boot in E.
  pose proof (Z.div_mod n (2 ^ 15)). pose proof (Z.div_mod offs (2 ^ 15)). nia.
Qed.

Lemma closed_fid s id ver : ver <> hmdfs_server_pack_fid_ver boot_cookie (sv_cookie (ss_server s)) ->
  file_by_fid boot_cookie (ss_server s) id ver = Some (inl (- EBADF), ss_server s).
Proof. intros Hv. unfold file_by_fid, get_file_by_fid_and_ver. destruct (_ =? _) eqn:E; zb; done. Qed.

(** ** Without atomic opens nothing is leaked *)

Definition no_atomic (s : sstate) : Prop := (forall f, ss_leak s f = 0) /\ forall f id, HAtomic f id ∉ ss_run s.

Lemma no_atomic_step s op s' : server_step s op = Some s' -> (forall env, op <> OpAtomic env) -> no_atomic s -> no_atomic s'.
Proof.
  assert (Hcons : forall s h run, no_atomic s -> (forall f id, h <> HAtomic f id) -> (forall f id, HAtomic f id ∉ run) ->
    forall f id, HAtomic f id ∉ h :: run).
  { intros ???? Hh Hr f id Hin. apply elem_of_cons in Hin as [E|Hin]; [by destruct (Hh f id)|by destruct (Hr f id)]. }
  intros Hs Hop Hn. destruct s as [sv run offs log leak], op as [path cid env|env|id ver|id ver|k e1 e2 e3 share cid|cid]; cbn [server_step] in Hs.
  - destruct (_ || _); [by simplify_eq|]. destruct (hmdfs_open_file _ _ _ _) as [[[e|[f id]] sv']|]; cbn in Hs; [|..|done]; simplify_eq; [done|].
    split; [apply Hn|]. cbn. eapply Hcons; [exact Hn|done|apply Hn].
  - by destruct (Hop env).
  - destruct (file_by_fid _ _ _ _) as [[[e|f] sv']|]; cbn in Hs; [..|done]; simplify_eq; [done|].
    split; [apply Hn|]. cbn. eapply Hcons; [exact Hn|done|apply Hn].
  - destruct (file_by_fid _ _ _ _) as [[[e|f] sv']|]; cbn in Hs; [..|done]; simplify_eq; [done|].
    split; [apply Hn|]. cbn. eapply Hcons; [exact Hn|done|apply Hn].
  - destruct (run !! k) as [h|] eqn:Hk; [|by simplify_eq].
    assert (Hrest : forall f id, HAtomic f id ∉ delete k run).
    { intros f id Hin. destruct Hn as [_ Hn]. apply (Hn f id). by eapply delete_in. }
    destruct h as [f id|f id|f|f id|f id]; cbn [step_handler] in Hs.
    + destruct (open_reply _ _ _ _ _ _) as [[r sv']|]; cbn in Hs; simplify_eq. split; [apply Hn|exact Hrest].
    + destruct Hn as [_ Hn]. destruct (Hn f id). by eapply list_elem_of_lookup_2.
    + destruct (hmdfs_close_path _ _); cbn in Hs; simplify_eq. split; [apply Hn|exact Hrest].
    + destruct (release_put _ _ _ _); cbn in Hs; simplify_eq. split; [apply Hn|]. cbn. eapply Hcons; [exact Hn|done|exact Hrest].
    + destruct (release_remove _ _ _) as [[r sv']|]; cbn in Hs; simplify_eq. split; [apply Hn|exact Hrest].
  - destruct run; [|by simplify_eq]. destruct (hmdfs_server_offline_notify _ _); cbn in Hs; simplify_eq. exact Hn.
Qed.

Lemma no_atomic_run ops : forall s s', server_run s ops = Some s' -> (forall env, OpAtomic env ∉ ops) -> no_atomic s -> no_atomic s'.
Proof.
  induction ops as [|op ops IH]; intros s s' Hs Hops Hn; cbn [server_run] in Hs; [by simplify_eq|].
  destruct (server_step s op) as [s1|] eqn:E; cbn in Hs; [|done]. eapply IH; [exact Hs| |].
  - intros env Hin. apply (Hops env). by right.
  - eapply no_atomic_step; [exact E| |done]. intros env ->. apply (Hops env). by left.
Qed.

End Machine.

Section Files.
Context `{Idr} `{!IdrLaws}.

(** C12: However the requests of a client interleave with each other and with the connection
    going away, and whatever ids the client makes up, as long as no open fails after the client
    has already released its id (it can guess the id of an open that was not answered yet; the
    failing open then puts a reference that is gone, early_release_closes_twice): no handler
    touches a file that was closed, an open file has exactly one reference for each of its
    table entries, one for each request that works on it, and those an atomic open forgot, and
    a file without any is closed. Every id of the table names an open file. Opens may fail for
    any other reason, and early releases of opens that succeed do no harm. *)
Theorem server_files_invariant boot ops : Z.of_nat (length ops) <= INT_MAX + 1 ->
  no_late_failure boot ss_start ops = true ->
  exists s, server_run boot ss_start ops = Some s /\
    (forall f,
       match sv_count (ss_server s) !! f with
       | Some n => n = entries (sv_idr (ss_server s)) f + holds (ss_run s) f + ss_leak s f /\ 0 < n
       | None => entries (sv_idr (ss_server s)) f + holds (ss_run s) f + ss_leak s f = 0
       end) /\
    (forall id f, sv_idr (ss_server s) !! id = Some f -> is_Some (sv_count (ss_server s) !! f)).
Proof.
  intros Hlen Hlf. destruct (server_run_ok boot ops ss_start (server_start_inv boot)) as (s&E&Hi&_&_); [cbn; lia|done|].
  exists s. split; [done|]. pose proof (si_counts _ _ Hi) as Hc. split; [exact Hc|]. intros id f Hid.
  pose proof (total_entries _ _ _ _ Hi Hid). by rewrite (counts_live _ _ f Hc).
Qed.

(** C13: A file id that was answered for a file never reaches another one. As long as the
    connection stays, the id and version of an answer give that file or -EBADF, whatever was
    opened and released since; once the connection was lost they give -EBADF, until it was
    lost 2^15 times and the version comes back. The client may release an id it was not
    answered yet, as long as that open does not fail afterwards. *)
Theorem fid_names_its_file ms rand ops s n ver id f :
  let boot := hmdfs_gen_boot_cookie ms rand in
  Z.of_nat (length ops) <= INT_MAX + 1 -> no_late_failure boot ss_start ops = true ->
  server_run boot ss_start ops = Some s -> (n, ver, id, f) ∈ ss_log s ->
  (n = ss_offs s -> exists r sv, file_by_fid boot (ss_server s) id ver = Some (r, sv) /\ (r = inr f \/ r = inl (- EBADF))) /\
  (n <> ss_offs s -> ss_offs s < n + 2 ^ 15 -> file_by_fid boot (ss_server s) id ver = Some (inl (- EBADF), ss_server s)).
Proof.
  intros boot Hlen Hlf Hrun Hin. destruct (server_run_ok boot ops ss_start (server_start_inv boot)) as (s'&E&Hi&_&_); [cbn; lia|done|].
  simplify_eq. destruct (si_log _ _ Hi _ _ _ _ Hin) as (Hn&->&Hnm). split.
  - intros E'. destruct (fid_ok _ _ id (hmdfs_server_pack_fid_ver boot (u16 n)) Hi) as (r&sv&->&Hr). exists r, sv. split; [done|].
    destruct r as [e|g]; [right; by destruct Hr as [_ ->]|]. left. destruct Hr as [Hid _], (Hnm E') as [_ [Hf|Hf]]; congruence.
  - intros Hne Hlt. apply closed_fid. destruct (si_cookie _ _ Hi) as [-> _]. apply version_stale. lia.
Qed.

(** C14: When the connection goes away, with no request left, the server closes every file the
    client had open: unless a file was opened by an atomic open, none remains, and the table
    is empty. As in C12 no open may fail after the client has already released its id. *)
Theorem offline_closes_files boot ops cid : Z.of_nat (length ops) <= INT_MAX ->
  (forall env, OpAtomic env ∉ ops) ->
  no_late_failure boot ss_start ops = true ->
  exists s, server_run boot ss_start ops = Some s /\
    (ss_run s = [] ->
     exists s', server_step boot s (OpOffline cid) = Some s' /\ sv_count (ss_server s') = ∅ /\ sv_idr (ss_server s') = ∅).
Proof.
  intros Hlen Hops Hlf. destruct (server_run_ok boot ops ss_start (server_start_inv boot)) as (s&E&Hi&_&_); [cbn; lia|done|].
  exists s. split; [done|]. intros Hr. destruct (offline_closes boot s cid Hi Hr) as (m&E'&Hm).
  assert (Hn : no_atomic s).
  { eapply no_atomic_run; [exact E|done|]. split; [done|]. intros f id Hin. by apply not_elem_of_nil in Hin. }
  destruct s as [sv run offs log leak]. cbn in Hr, E', Hm. subst run. cbn [server_step]. rewrite E'. cbn [mbind option_bind].
  eexists. split; [done|]. split; [|done]. cbn. apply map_eq. intros f. rewrite lookup_empty. specialize (Hm f).
  destruct (m !! f); [|done]. destruct Hn as [Hn _]. specialize (Hn f). cbn in Hn. lia.
Qed.

(** ** One request at a time *)

(** Between two offline events, with no other request about, a handler does what its steps
    do: opening, using and releasing a file are an opening step followed by the rest, so what
    holds of every interleaving holds of the handlers called one after the other. *)
Theorem handlers_are_steps boot s : ss_run s = [] ->
  let after ops := s ← server_run boot s ops; Some (ss_server s) in
  let go info trunc send := OpStep 0 info trunc send None [] in
  (forall path cid env, path_contain_dotdot path = false -> new_file (ss_server s) env = true ->
     ('(_, sv) ← hmdfs_server_open boot (ss_server s) path cid env; Some sv) =
     after [OpOpen path cid env; go (oe_info env) 0 (oe_send env)]) /\
  (forall path file trunc_err env, path_contain_dotdot path = false -> path_contain_dotdot file = false -> new_file (ss_server s) env = true ->
     ('(_, sv) ← hmdfs_server_atomic_open boot (ss_server s) path file 0 trunc_err env; Some sv) =
     after [OpAtomic env; go (oe_info env) trunc_err (oe_send env)]) /\
  (forall id ver share cid,
     ('(_, sv) ← hmdfs_server_release boot (ss_server s) id ver share cid; Some sv) =
     after [OpRelease id ver; OpStep 0 0 0 0 share cid; go 0 0 0]) /\
  (forall id ver err,
     ('(_, sv) ← hmdfs_server_fsync boot (ss_server s) id ver err; Some sv) = after [OpUse id ver; go 0 0 0]) /\
  (forall id ver index size alloc read,
     ('(_, sv) ← hmdfs_server_readpage boot (ss_server s) id ver index size alloc read; Some sv) = after [OpUse id ver; go 0 0 0]) /\
  (forall id ver count written,
     ('(_, sv) ← hmdfs_server_writepage boot (ss_server s) id ver count written; Some sv) = after [OpUse id ver; go 0 0 0]).
Proof.
  destruct s as [sv run offs log leak]. cbn [ss_run ss_server]. intros ->. cbn [server_run]. split_and!.
  - intros path cid env Hp Hn. unfold hmdfs_server_open. cbn [server_step]. rewrite Hp, Hn. cbn [negb orb].
    destruct (hmdfs_open_file _ _ _ _) as [[[e|[f id]] sv']|]; cbn; [done| |done]. by destruct (open_reply _ _ _ _ _ _) as [[r ?]|].
  - intros path file trunc env Hp Hf Hn. unfold hmdfs_server_atomic_open. cbn [server_step]. rewrite Hp, Hf, Hn. cbn [negb orb Z.eqb].
    destruct (hmdfs_dentry_open _ _) as [[[e|[f id]] sv']|]; cbn; [done| |done]. by destruct (atomic_reply _ _ _ _ _ _ _) as [[r ?]|].
  - intros id ver share cid. unfold hmdfs_server_release. cbn [server_step].
    cbn. destruct (file_by_fid _ _ _ _) as [[[e|f] sv']|]; cbn; [done| |done].
    destruct (release_put _ _ _ _) as [sv1|]; cbn; [|done]. by destruct (release_remove _ _ _) as [[? ?]|].
  - intros id ver err. unfold hmdfs_server_fsync. cbn. destruct (file_by_fid _ _ _ _) as [[[e|f] sv']|]; cbn; [done| |done].
    by destruct (hmdfs_close_path _ _).
  - intros id ver index size alloc read. unfold hmdfs_server_readpage. cbn.
    destruct (file_by_fid _ _ _ _) as [[[e|f] sv']|]; cbn; [done| |done]. by destruct (hmdfs_close_path _ _).
  - intros id ver count written. unfold hmdfs_server_writepage. cbn.
    destruct (file_by_fid _ _ _ _) as [[[e|f] sv']|]; cbn; [done| |done]. by destruct (hmdfs_close_path _ _).
Qed.

Lemma released boot sv r f id cid : counts (sv_count sv) r -> sv_idr sv !! id = Some f -> 0 < r f ->
  exists m, hmdfs_server_release boot sv id (hmdfs_server_pack_fid_ver boot (sv_cookie sv)) None cid =
    Some (0, set_idr (set_count sv m) (delete id (sv_idr sv)) (sv_next sv)) /\ counts m (add_ref r f (-1)).
Proof.
  intros Hc Hid Hr. unfold hmdfs_server_release, file_by_fid, get_file_by_fid_and_ver, get_file_from_conn.
  rewrite Z.eqb_refl, Hid. cbn [negb]. destruct (ref_ok sv r f Hc Hr) as (m&->&Hm). cbn [mbind option_bind].
  unfold release_put, release_remove, remove_file_from_conn.
  destruct (put_file_ok (set_count sv m) _ f Hm) as (m1&->&Hm1); [rewrite add_ref_eq, decide_True by done; lia|].
  cbn [mbind option_bind sv_idr set_count]. rewrite Hid. cbn [negb Z.eqb].
  destruct (put_file_ok (set_idr (set_count (set_count sv m) m1) (delete id (sv_idr sv)) (sv_next sv)) _ f Hm1) as (m2&E&Hm2).
  { rewrite !add_ref_eq, !decide_True by done. lia. }
  cbn in E |- *. rewrite E. eexists. split; [done|]. eapply counts_ext; [|exact Hm2].
  intros g. rewrite !add_ref_eq. destruct (decide _); lia.
Qed.

(** The environment in which an open of the new file [f] succeeds, as far as the file system
    and the connection go. *)
Definition good_env (f : Z) : open_env := mk_oe 0 false (inr f) true 0 0.

(** A file that a client opens with an atomic open is never closed: once its id is released
    the table no longer knows the file, but one reference remains, which no handler will drop.
    A file that was opened with hmdfs_server_open is closed by the same release. *)
Theorem atomic_open_leaks_file boot ops s path file f :
  Z.of_nat (length ops) <= INT_MAX -> no_late_failure boot ss_start ops = true -> server_run boot ss_start ops = Some s -> sv_count (ss_server s) !! f = None ->
  (forall ver id s1, hmdfs_server_atomic_open boot (ss_server s) path file 0 0 (good_env f) = Some (Reply_fid ver id, s1) ->
     exists s2, hmdfs_server_release boot s1 id ver None [] = Some (0, s2) /\
       sv_idr s2 = sv_idr (ss_server s) /\ sv_count s2 !! f = Some 1) /\
  (forall ver id s1, hmdfs_server_open boot (ss_server s) path [] (good_env f) = Some (Reply_fid ver id, s1) ->
     exists s2, hmdfs_server_release boot s1 id ver None [] = Some (0, s2) /\
       sv_idr s2 = sv_idr (ss_server s) /\ sv_count s2 !! f = None).
Proof.
  intros Hlen Hlf Hrun Hf. destruct (server_run_ok boot ops ss_start (server_start_inv boot)) as (s'&E&Hi&Hnext&_); [cbn; lia|done|].
  simplify_eq. cbn in Hnext.
  assert (Ht : total s f = 0). { pose proof (si_counts _ _ Hi f) as Ht. rewrite Hf in Ht. exact Ht. }
  destruct (file_inserted boot s (sv_share (ss_server s)) f true Hi) as (m&id0&sv&E1&E2&Hid); [lia|done|].
  pose proof (next_free _ _ Hi) as Hfree. destruct (ss_server s) as [cnt idr nxt ck sh]. cbn in Hf, Hfree.
  cbv [set_share set_count set_idr sv_count sv_idr sv_next sv_cookie sv_share] in E1, E2, Hid.
  split; intros ver id s1 Ho.
  - unfold hmdfs_server_atomic_open, hmdfs_dentry_open in Ho. destruct (_ || _); [done|]. cbn -[ref_file insert_file_into_conn set_count] in Ho. unfold set_count in Ho at 1. cbn -[ref_file insert_file_into_conn] in Ho.
    rewrite E1 in Ho. cbn -[insert_file_into_conn] in Ho. rewrite E2 in Ho. destruct (id0 <? 0).
    { destruct (hmdfs_close_path _ _) as [sv1|]; cbn in Ho; [|done]. by destruct (hmdfs_close_path _ _). }
    destruct Hid as (->&->&Hm). cbn in Ho. injection Ho as <- <- <-.
    destruct (released boot (mk_sv m (<[nxt := f]> idr) (nxt + 1) ck sh) _ f nxt [] Hm) as (m2&E2'&Hm2);
      [apply lookup_insert_eq|rewrite add_ref_eq, decide_True by done; lia|].
    eexists. split; [exact E2'|]. cbn. split; [by apply delete_insert_id|]. rewrite (counts_live _ _ f Hm2); rewrite !add_ref_eq, !decide_True by done; [f_equal|]; lia.
  - unfold hmdfs_server_open, hmdfs_open_file in Ho. destruct (path_contain_dotdot _); [done|]. cbn -[ref_file insert_file_into_conn] in Ho.
    unfold set_share, set_count in Ho. cbn -[ref_file insert_file_into_conn] in Ho.
    rewrite E1 in Ho. cbn -[insert_file_into_conn] in Ho. rewrite E2 in Ho. destruct (id0 <? 0).
    { destruct (hmdfs_close_path _ _) as [sv1|]; cbn in Ho; [|done]. by destruct (hmdfs_close_path _ _). }
    destruct Hid as (->&->&Hm). cbn -[hmdfs_close_path] in Ho.
    match type of Ho with context [hmdfs_close_path ?sv ?g] => destruct (put_file_ok sv _ g Hm) as (m1&E3&Hm1) end.
    { rewrite add_ref_eq, decide_True by done. lia. }
    rewrite E3 in Ho. cbn in Ho. injection Ho as <- <- <-.
    destruct (released boot (mk_sv m1 (<[nxt := f]> idr) (nxt + 1) ck sh) _ f nxt [] Hm1) as (m2&E2'&Hm2);
      [apply lookup_insert_eq|rewrite !add_ref_eq, !decide_True by done; lia|].
    eexists. split; [exact E2'|]. cbn. split; [by apply delete_insert_id|]. specialize (Hm2 f).
    rewrite !add_ref_eq, !decide_True in Hm2 by done. destruct (m2 !! f); [lia|done].
Qed.

End Files.

(** * Examples *)

#[local] Existing Instances cursor_idr cursor_idr_laws.

Definition demo_boot : Z := hmdfs_gen_boot_cookie 12345 99.
Definition demo_go : server_op := OpStep 0 0 0 0 None [].
Definition demo_ver : Z := hmdfs_server_pack_fid_ver demo_boot 0.

(** Two opens that overlap, a use and a release; the first open is answered after the client
    has already released its id, and does not fail. *)
Definition demo_ops : list server_op :=
  [OpOpen [97] [] (good_env 7); OpOpen [98] [] (good_env 8); demo_go; demo_go; OpUse 0 demo_ver; OpRelease 1 demo_ver; demo_go;
   OpOpen [99] [] (good_env 9); OpRelease 2 demo_ver; demo_go; demo_go; demo_go].

(** A client that guesses the id of an open in progress and releases it, while the open fails
    afterwards: the failing open puts two references of which one is gone, an access to a
    closed file. Without the failure, or with the release behind the answer, nothing happens. *)
Lemma early_release_closes_twice err : err <> 0 ->
  let early info := [OpOpen [97] [] (good_env 7); OpRelease 0 demo_ver; demo_go; demo_go; OpStep 0 info 0 0 None []] in
  server_run demo_boot ss_start (early err) = None /\ no_late_failure demo_boot ss_start (early err) = false /\
  (exists s, server_run demo_boot ss_start (early 0) = Some s /\ sv_count (ss_server s) = ∅).
Proof.
  intros He. split_and!.
  - vm_compute. destruct err; [done|reflexivity..].
  - vm_compute. destruct err; [done|reflexivity..].
  - eexists. split; vm_compute; reflexivity.
Qed.

Lemma server_files_invariant_witness : Z.of_nat (length demo_ops) <= INT_MAX + 1 /\
  exists s, server_run demo_boot ss_start demo_ops = Some s /\ is_Some (sv_idr (ss_server s) !! 0).
Proof.
  split; [vm_compute; discriminate|].
  destruct (server_files_invariant demo_boot demo_ops) as (s&E&_); [vm_compute; discriminate|vm_compute; reflexivity|].
  exists s. split; [exact E|]. revert E. vm_compute. intros [= <-]. by eexists.
Defined.

Definition after_demo : sstate := default ss_start (server_run demo_boot ss_start demo_ops).

Lemma fid_names_its_file_witness :
  exists r sv, file_by_fid demo_boot (ss_server after_demo) 0 demo_ver = Some (r, sv) /\ (r = inr 7 \/ r = inl (- EBADF)).
Proof.
  refine (proj1 (fid_names_its_file 12345 99 demo_ops after_demo 0 demo_ver 0 7 _ _ _ _) _).
  - vm_compute. discriminate.
  - vm_compute. reflexivity.
  - unfold after_demo. destruct (server_run _ _ _) eqn:E; [reflexivity|]. vm_compute in E. discriminate E.
  - apply list_elem_of_lookup. exists 1%nat. vm_compute. reflexivity.
  - vm_compute. reflexivity.
Defined.

Definition quiet_ops : list server_op := [OpOpen [97] [] (good_env 7); demo_go].

Lemma offline_closes_files_witness :
  exists s, server_run demo_boot ss_start quiet_ops = Some s /\ is_Some (sv_count (ss_server s) !! 7) /\
    exists s', server_step demo_boot s (OpOffline []) = Some s' /\ sv_count (ss_server s') = ∅.
Proof.
  destruct (offline_closes_files demo_boot quiet_ops []) as (s&E&Hs).
  - vm_compute. discriminate.
  - intros env Hin. unfold quiet_ops, demo_go in Hin. repeat (apply elem_of_cons in Hin as [Hin|Hin]; [discriminate Hin|]).
    by apply not_elem_of_nil in Hin.
  - vm_compute. reflexivity.
  - exists s. split; [exact E|]. assert (Hr : ss_run s = [] /\ is_Some (sv_count (ss_server s) !! 7)).
    { revert E. vm_compute. intros [= <-]. split; [done|by eexists]. }
    split; [apply Hr|]. destruct (Hs (proj1 Hr)) as (s'&E'&Hc&_). by exists s'.
Defined.

Definition one_open : sstate := default ss_start (server_run demo_boot ss_start quiet_ops).

Lemma handlers_are_steps_witness :
  ss_run one_open = [] /\
  ('(_, sv) ← hmdfs_server_fsync demo_boot (ss_server one_open) 0 demo_ver 0; Some sv) =
  (s ← server_run demo_boot one_open [OpUse 0 demo_ver; demo_go]; Some (ss_server s)).
Proof.
  assert (Hr : ss_run one_open = []) by (vm_compute; reflexivity). split; [exact Hr|].
  destruct (handlers_are_steps demo_boot one_open Hr) as (_&_&_&H'&_). exact (H' 0 demo_ver 0).
Defined.

Lemma atomic_open_leaks_file_witness : exists ver id s1 s2,
  hmdfs_server_atomic_open demo_boot (ss_server after_demo) [97] [98] 0 0 (good_env 9) = Some (Reply_fid ver id, s1) /\
  hmdfs_server_release demo_boot s1 id ver None [] = Some (0, s2) /\ sv_count s2 !! 9 = Some 1.
Proof.
  destruct (hmdfs_server_atomic_open demo_boot (ss_server after_demo) [97] [98] 0 0 (good_env 9)) as [[[err|ver id|] s1]|] eqn:E;
    [vm_compute in E; discriminate E| |vm_compute in E; discriminate E|vm_compute in E; discriminate E].
  destruct (atomic_open_leaks_file demo_boot demo_ops after_demo [97] [98] 9) as [H' _].
  - vm_compute. discriminate.
  - vm_compute. reflexivity.
  - unfold after_demo. destruct (server_run _ _ _) eqn:E'; [reflexivity|]. vm_compute in E'. discriminate E'.
  - vm_compute. reflexivity.
  - destruct (H' ver id s1 E) as (s2&E2&_&Hc). exists ver, id, s1, s2. by split_and!.
Defined.
