(* ===== verification/MsgTable.v ===== *)
(** Requests and their answers (comm/socket_adapter.c, comm/transport.c, comm/connection.c,
    hmdfs_client.c): the table of message ids of a peer, the synchronous, asynchronous and
    page requests that wait in it, and what ends them: an answer, a timeout, a failed send
    or the peer going offline. Message heads are counted; an access to a freed one, or
    unlocking a page twice, has no result. *)
From S2P Require Import Prelude RefCount Idr Protocol.

Inductive MSG_IDR_TYPE := MSG_IDR_MESSAGE_SYNC | MSG_IDR_MESSAGE_ASYNC | MSG_IDR_PAGE.
#[export] Instance msg_idr_type_dec : EqDecision MSG_IDR_TYPE.
Proof. solve_decision. Defined.

(** d_work: idle or running, waiting for its timeout, or queued to run now. *)
Inductive d_work := DIdle | DTimer | DNow.
#[export] Instance d_work_dec : EqDecision d_work.
Proof. solve_decision. Defined.

(** An answer with the id and command of its head, and its return code. *)
Record answer := mk_answer { an_id : Z; an_cmd : Z; an_ret : Z }.

(** struct hmdfs_msg_idr_head inside of sendmsg_wait_queue, hmdfs_msg_parasite or
    hmdfs_async_work: [mh_ret] and [mh_buf] are the result and the answer, [mh_valid] is
    MSG_Q_END_RECV, [mh_page] says that the page is still locked. *)
Record msg_head := mk_head {
  mh_type : MSG_IDR_TYPE;
  mh_id : Z;
  mh_cmd : Z;
  mh_valid : bool;
  mh_ret : Z;
  mh_buf : option answer;
  mh_work : d_work;
  mh_wfired : bool;
  mh_page : bool
}.

Definition set_result (h : msg_head) (valid : bool) (ret : Z) (buf : option answer) : msg_head :=
  mk_head (mh_type h) (mh_id h) (mh_cmd h) valid ret buf (mh_work h) (mh_wfired h) (mh_page h).
Definition set_work (h : msg_head) (w : d_work) : msg_head :=
  mk_head (mh_type h) (mh_id h) (mh_cmd h) (mh_valid h) (mh_ret h) (mh_buf h) w (mh_wfired h) (mh_page h).
Definition set_wfired (h : msg_head) : msg_head :=
  mk_head (mh_type h) (mh_id h) (mh_cmd h) (mh_valid h) (mh_ret h) (mh_buf h) (mh_work h) true (mh_page h).
Definition set_page (h : msg_head) (locked : bool) : msg_head :=
  mk_head (mh_type h) (mh_id h) (mh_cmd h) (mh_valid h) (mh_ret h) (mh_buf h) (mh_work h) (mh_wfired h) locked.

(** How a request ended: its return code and the answer it got. *)
Record result := mk_result { re_head : Z; re_id : Z; re_cmd : Z; re_ret : Z; re_buf : option answer }.

(** The heads and their counts, the table with its cursor, and the two fields of struct
    hmdfs_peer that hold requests back while the peer goes offline; the log of results. *)
Record peer_msgs := mk_pm {
  pm_heads : gmap Z msg_head;
  pm_refs : gmap Z Z;
  pm_new : Z;
  pm_idr : gmap Z Z;
  pm_next : Z;
  offline_start : bool;
  msg_idr_process : Z;
  pm_log : list result
}.

Definition set_heads (p : peer_msgs) (m : gmap Z msg_head) : peer_msgs :=
  mk_pm m (pm_refs p) (pm_new p) (pm_idr p) (pm_next p) (offline_start p) (msg_idr_process p) (pm_log p).
Definition set_refs (p : peer_msgs) (m : gmap Z Z) : peer_msgs :=
  mk_pm (pm_heads p) m (pm_new p) (pm_idr p) (pm_next p) (offline_start p) (msg_idr_process p) (pm_log p).
Definition set_offline (p : peer_msgs) (b : bool) : peer_msgs :=
  mk_pm (pm_heads p) (pm_refs p) (pm_new p) (pm_idr p) (pm_next p) b (msg_idr_process p) (pm_log p).
Definition hmdfs_dec_msg_idr_process (p : peer_msgs) : peer_msgs :=
  mk_pm (pm_heads p) (pm_refs p) (pm_new p) (pm_idr p) (pm_next p) (offline_start p) (msg_idr_process p - 1) (pm_log p).
Definition add_log (p : peer_msgs) (r : result) : peer_msgs :=
  mk_pm (pm_heads p) (pm_refs p) (pm_new p) (pm_idr p) (pm_next p) (offline_start p) (msg_idr_process p) (r :: pm_log p).

(** * Heads *)

Definition head_get (p : peer_msgs) (a : Z) : option peer_msgs := m ← inc_ref (pm_refs p) a; Some (set_refs p m).

(** msg_put, mp_put and asw_put: the last reference takes the id out of the table and frees the
    head, under the lock of the table. *)
Definition head_put (p : peer_msgs) (a : Z) : option peer_msgs :=
  h ← pm_heads p !! a;
  m ← dec_ref (pm_refs p) a;
  Some (match m !! a with
        | Some _ => set_refs p m
        | None => mk_pm (delete a (pm_heads p)) m (pm_new p) (delete (mh_id h) (pm_idr p)) (pm_next p) (offline_start p)
                    (msg_idr_process p) (pm_log p)
        end).

Definition upd_head (p : peer_msgs) (a : Z) (f : msg_head -> msg_head) : option peer_msgs :=
  h ← pm_heads p !! a; Some (set_heads p (<[a := f h]> (pm_heads p))).

(** The request of [a] ends. *)
Definition finish (p : peer_msgs) (a ret : Z) (buf : option answer) : option peer_msgs :=
  h ← pm_heads p !! a; Some (add_log p (mk_result a (mh_id h) (mh_cmd h) ret buf)).

(** cancel_delayed_work: whether the work was waiting. *)
Definition cancel_delayed_work (p : peer_msgs) (a : Z) : option (bool * peer_msgs) :=
  h ← pm_heads p !! a;
  Some (if decide (mh_work h = DIdle) then (false, p) else (true, set_heads p (<[a := set_work h DIdle]> (pm_heads p)))).

(** unlock_page on the page of a page request, asw_done and hmdfs_response_wakeup. *)
Definition unlock_page (p : peer_msgs) (a : Z) : option peer_msgs :=
  h ← pm_heads p !! a; if mh_page h then upd_head p a (fun h => set_page h false) else None.

Definition asw_done (p : peer_msgs) (a ret : Z) (buf : option answer) : option peer_msgs :=
  p ← unlock_page p a; p ← finish p a ret buf; head_put p a.

Definition hmdfs_response_wakeup (p : peer_msgs) (a ret : Z) (buf : option answer) : option peer_msgs :=
  upd_head p a (fun h => set_result h true ret buf).

(** * What runs *)

(** A thread between two places where others can come between; [a] is a head. The senders:
    before the message is sent, and behind. Those that received an answer. The delayed work.
    The offline handler, waiting for the senders and walking the table; [marked] says that it
    holds new requests back. *)
Inductive thread :=
| TSync (a : Z) | TWait (a : Z)
| TAsync (a : Z) | TFired (a : Z)
| TPageNew (a : Z) | TPage (a : Z) | TPageFail (a err : Z)
| TResp (a : Z) (an : answer) | TIter (a : Z) (an : answer) (last : bool) | TWake (a ret : Z) (buf : option answer)
| TRequeue (a : Z) (an : answer)
| TRespPage (a : Z) (an : answer) | TRecvPage (a : Z) (an : answer)
| TWork (a : Z)
| TOffWait (marked : bool) | TOff (id : Z) (marked : bool) | TOffHead (a id : Z) (marked : bool) | TOffWork (a id : Z) (marked : bool).

Section Machine.
Context `{Idr}.

(** The error or the new head. *)
Definition hmdfs_alloc_msg_idr (p : peer_msgs) (type : MSG_IDR_TYPE) (cmd : Z) : (Z + Z) * peer_msgs :=
  if offline_start p then (inl (- EAGAIN), p)
  else
    match idr_alloc_cyclic (pm_idr p) 1 (pm_next p) with
    | inl err => (inl err, p)
    | inr id =>
        let a := pm_new p in
        let ret := match type with MSG_IDR_MESSAGE_ASYNC => - ETIME | _ => 0 end in
        let h := mk_head type id cmd false ret None DIdle false (bool_decide (type = MSG_IDR_PAGE)) in
        (inr a, mk_pm (<[a := h]> (pm_heads p)) (<[a := 1]> (pm_refs p)) (a + 1) (<[id := a]> (pm_idr p)) (id + 1) false
                  (msg_idr_process p + 1) (pm_log p))
    end.

(** The head with the id, if it waits for this command, and a reference to it. *)
Definition hmdfs_find_msg_head (p : peer_msgs) (id cmd : Z) : option (option Z * peer_msgs) :=
  match pm_idr p !! id with
  | None => Some (None, p)
  | Some a =>
      h ← pm_heads p !! a;
      if mh_cmd h =? cmd then p ← head_get p a; Some (Some a, p) else Some (None, p)
  end.

(** async_request_cb_on_wakeup_fn and hmdfs_recv_page_work_fn. *)
Definition work_fn (p : peer_msgs) (a : Z) : option peer_msgs :=
  h ← pm_heads p !! a;
  match mh_type h with
  | MSG_IDR_MESSAGE_ASYNC => p ← finish p a (mh_ret h) (mh_buf h); head_put p a
  | MSG_IDR_PAGE => asw_done p a (- ETIME) None
  | MSG_IDR_MESSAGE_SYNC => None
  end.

(** The senders behind the allocation; [err] is the result of hmdfs_sendmessage, [queued] that
    of queue_delayed_work. First hmdfs_sendmessage_request, which waits for the answer. *)
Definition sync_step (p : peer_msgs) (t : thread) (err : Z) : option (peer_msgs * list thread) :=
  match t with
  | TSync a =>
      if err =? 0 then Some (hmdfs_dec_msg_idr_process p, [TWait a])
      else p ← finish p a err None; p ← head_put p a; Some (hmdfs_dec_msg_idr_process p, [])
  | TWait a =>
      h ← pm_heads p !! a;
      if mh_valid h then
        p ← finish p a (mh_ret h) (mh_buf h);
        p ← upd_head p a (fun h => set_result h true (mh_ret h) None);
        p ← head_put p a; Some (p, [])
      else Some (p, [t])
  | _ => Some (p, [t])
  end.

(** hmdfs_send_async_request. *)
Definition async_step (p : peer_msgs) (t : thread) (err : Z) : option (peer_msgs * list thread) :=
  match t with
  | TAsync a =>
      if err =? 0 then p ← upd_head p a (fun h => set_work h DTimer); Some (p, [TFired a])
      else p ← finish p a err None; p ← head_put p a; Some (hmdfs_dec_msg_idr_process p, [])
  | TFired a => p ← upd_head p a set_wfired; Some (hmdfs_dec_msg_idr_process p, [])
  | _ => Some (p, [t])
  end.

(** hmdfs_sendpage_request. *)
Definition page_step (p : peer_msgs) (t : thread) (err : Z) (queued : bool) : option (peer_msgs * list thread) :=
  match t with
  | TPageNew a =>
      p ← head_get p a;
      if queued then p ← upd_head p a (fun h => set_work h DTimer); Some (p, [TPage a])
      else p ← head_put p a; p ← asw_done p a 0 None; Some (hmdfs_dec_msg_idr_process p, [])
  | TPage a =>
      if err =? 0 then p ← head_put p a; Some (hmdfs_dec_msg_idr_process p, []) else Some (p, [TPageFail a err])
  | TPageFail a err =>
      '(cancelled, p) ← cancel_delayed_work p a;
      if cancelled : bool then
        p ← head_put p a; p ← asw_done p a err None; Some (hmdfs_dec_msg_idr_process p, [])
      else p ← head_put p a; Some (hmdfs_dec_msg_idr_process p, [])
  | _ => Some (p, [t])
  end.

Definition send_step (p : peer_msgs) (t : thread) (err : Z) (queued : bool) : option (peer_msgs * list thread) :=
  match t with
  | TSync _ | TWait _ => sync_step p t err
  | TAsync _ | TFired _ => async_step p t err
  | _ => page_step p t err queued
  end.

(** What received an answer, behind the lookup: hmdfs_response_handle_sync, and queueing the
    work of the request again. *)
Definition resp_step (p : peer_msgs) (a : Z) (an : answer) : option (peer_msgs * list thread) :=
  h ← pm_heads p !! a;
  match mh_type h with
  | MSG_IDR_MESSAGE_SYNC =>
      if mh_valid h then p ← head_put p a; Some (p, []) else Some (p, [TWake a (an_ret an) (Some an)])
  | MSG_IDR_MESSAGE_ASYNC =>
      if negb (mh_wfired h) then Some (p, [TResp a an])
      else
        '(cancelled, p) ← cancel_delayed_work p a;
        if cancelled : bool then Some (p, [TRequeue a an]) else p ← head_put p a; Some (p, [])
  | MSG_IDR_PAGE => Some (p, [])
  end.

Definition requeue_step (p : peer_msgs) (a : Z) (an : answer) : option (peer_msgs * list thread) :=
  p ← upd_head p a (fun h => set_work (set_result h (mh_valid h) (an_ret an) (Some an)) DNow);
  p ← head_put p a; Some (p, []).

(** hmdfs_file_response_work_fn; [err] is the result of hmdfs_readfile_slice. *)
Definition iter_step (p : peer_msgs) (a : Z) (an : answer) (last : bool) (err : Z) : option (peer_msgs * list thread) :=
  h ← pm_heads p !! a;
  let ret := if an_ret an =? 0 then err else an_ret an in
  if mh_valid h || (ret =? 0) && negb last then p ← head_put p a; Some (p, []) else Some (p, [TWake a ret None]).

(** tcp_recvpage_tls; [err] is the result of reading the page. *)
Definition recvpage_step (p : peer_msgs) (t : thread) (err : Z) : option (peer_msgs * list thread) :=
  match t with
  | TRespPage a an =>
      '(cancelled, p) ← cancel_delayed_work p a;
      if cancelled : bool then Some (p, [TRecvPage a an]) else p ← head_put p a; Some (p, [])
  | TRecvPage a an =>
      p ← asw_done p a (if an_ret an =? 0 then err else an_ret an) (Some an); p ← head_put p a; Some (p, [])
  | _ => Some (p, [t])
  end.

#[local] Arguments resp_step p a an /.
#[local] Arguments requeue_step p a an /.
#[local] Arguments iter_step p a an last err /.

Definition recv_step (p : peer_msgs) (t : thread) (err : Z) : option (peer_msgs * list thread) :=
  match t with
  | TResp a an => resp_step p a an
  | TIter a an last => iter_step p a an last err
  | TWake a ret buf => p ← hmdfs_response_wakeup p a ret buf; p ← head_put p a; Some (p, [])
  | TRequeue a an => requeue_step p a an
  | _ => recvpage_step p t err
  end.

(** hmdfs_disconnect_node waits for the senders, and hmdfs_client_offline_notify wakes up
    what waits in the table. *)
Definition off_step (p : peer_msgs) (t : thread) : option (peer_msgs * list thread) :=
  match t with
  | TOffWait marked => Some (p, [if msg_idr_process p =? 0 then TOff 0 marked else t])
  | TOff id marked =>
      match idr_first (pm_idr p) id with
      | None => Some (if marked : bool then set_offline p false else p, [])
      | Some (i, a) => p ← head_get p a; Some (p, [TOffHead a i marked])
      end
  | TOffHead a id marked =>
      h ← pm_heads p !! a;
      match mh_type h with
      | MSG_IDR_MESSAGE_SYNC =>
          p ← hmdfs_response_wakeup p a (- ETIME) None; p ← head_put p a; Some (p, [TOff (id + 1) marked])
      | type =>
          if bool_decide (type = MSG_IDR_MESSAGE_ASYNC) && negb (mh_wfired h) then Some (p, [t])
          else
            '(cancelled, p) ← cancel_delayed_work p a;
            if cancelled : bool then Some (p, [TOffWork a id marked])
            else p ← head_put p a; Some (p, [TOff (id + 1) marked])
      end
  | TOffWork a id marked => p ← work_fn p a; p ← head_put p a; Some (p, [TOff (id + 1) marked])
  | _ => Some (p, [t])
  end.

Definition thread_step (p : peer_msgs) (t : thread) (err : Z) (queued : bool) : option (peer_msgs * list thread) :=
  match t with
  | TSync _ | TWait _ | TAsync _ | TFired _ | TPageNew _ | TPage _ | TPageFail _ _ => send_step p t err queued
  | TWork a => p ← work_fn p a; Some (p, [])
  | TOffWait _ | TOff _ _ | TOffHead _ _ _ | TOffWork _ _ _ => off_step p t
  | _ => recv_step p t err
  end.

(** * The machine *)

Record msg_state := mk_mst { ms_peer : peer_msgs; ms_run : list thread }.

(** A request of each kind begins; an answer arrives, for F_ITERATE a slice that is the last
    one or not; a thread goes on; the timer of a head, the patience of a waiting thread end;
    the peer goes offline. *)
Inductive msg_op :=
| OpSync (cmd : Z) | OpAsync (cmd : Z) | OpPage
| OpRecv (an : answer) (last : bool)
| OpGo (k : nat) (err : Z) (queued : bool)
| OpFire (a : Z)
| OpTimeout (k : nat)
| OpDisconnect (marked : bool).

Definition msg_start : msg_state := mk_mst (mk_pm ∅ ∅ 0 ∅ 0 false 0 []) [].

(** The commands sent with hmdfs_send_async_request. *)
Definition async_cmd (cmd : Z) : bool := (cmd =? F_WRITEPAGE) || (cmd =? F_SYNCFS).

Definition start_request (s : msg_state) (type : MSG_IDR_TYPE) (cmd : Z) (mk : Z -> thread) : msg_state :=
  let '(r, p) := hmdfs_alloc_msg_idr (ms_peer s) type cmd in
  mk_mst p (match r with inr a => mk a :: ms_run s | inl _ => ms_run s end).

(** The thread behind the lookup of an answer. *)
Definition receiver (a : Z) (an : answer) (last : bool) : thread :=
  if an_cmd an =? F_READPAGE then TRespPage a an else if an_cmd an =? F_ITERATE then TIter a an last else TResp a an.

Definition is_off (t : thread) : bool :=
  match t with TOffWait _ | TOff _ _ | TOffHead _ _ _ | TOffWork _ _ _ => true | _ => false end.

(** The timer of a head goes off: the work starts. *)
Definition fire (s : msg_state) (a : Z) : msg_state :=
  match pm_heads (ms_peer s) !! a with
  | Some h =>
      if bool_decide (mh_work h = DIdle) then s
      else mk_mst (set_heads (ms_peer s) (<[a := set_work h DIdle]> (pm_heads (ms_peer s)))) (TWork a :: ms_run s)
  | None => s
  end.

(** The timer of an asynchronous request runs and its sender has not set wfired yet. *)
Definition early (p : peer_msgs) (a : Z) : bool :=
  match pm_heads p !! a with
  | Some h => bool_decide (mh_type h = MSG_IDR_MESSAGE_ASYNC) && negb (mh_wfired h) && negb (bool_decide (mh_work h = DIdle))
  | None => false
  end.

(** An operation that cannot happen in a state leaves it alone; [None] is an access to a freed
    head or an unlocked page. *)
Definition msg_step (s : msg_state) (op : msg_op) : option msg_state :=
  let 'mk_mst p run := s in
  match op with
  | OpSync cmd =>
      Some (if (cmd =? F_READPAGE) || async_cmd cmd then s else start_request s MSG_IDR_MESSAGE_SYNC cmd TSync)
  | OpAsync cmd => Some (if async_cmd cmd then start_request s MSG_IDR_MESSAGE_ASYNC cmd TAsync else s)
  | OpPage => Some (start_request s MSG_IDR_PAGE F_READPAGE TPageNew)
  | OpRecv an last =>
      '(r, p) ← hmdfs_find_msg_head p (an_id an) (an_cmd an);
      Some (mk_mst p (match r with Some a => receiver a an last :: run | None => run end))
  | OpGo k err queued =>
      match run !! k with
      | Some t => '(p, next) ← thread_step p t err queued; Some (mk_mst p (next ++ delete k run))
      | None => Some s
      end
  | OpFire a => Some (fire s a)
  | OpTimeout k =>
      match run !! k with
      | Some (TWait a) =>
          h ← pm_heads p !! a;
          if mh_valid h then Some s
          else p ← finish p a (- ETIME) None; p ← head_put p a; Some (mk_mst p (delete k run))
      | _ => Some s
      end
  | OpDisconnect marked =>
      Some (if existsb is_off run then s
            else mk_mst (if marked then set_offline p true else p) (TOffWait marked :: run))
  end.

Fixpoint msg_run (s : msg_state) (ops : list msg_op) : option msg_state :=
  match ops with
  | [] => Some s
  | op :: ops => s ← msg_step s op; msg_run s ops
  end.

(** The timer of an asynchronous request goes off between queue_delayed_work and the write of
    wfired, though it was set to seconds. *)
Definition fires_early (s : msg_state) (op : msg_op) : bool :=
  match op with OpFire a => early (ms_peer s) a | _ => false end.

(** That happens nowhere in a run. *)
Fixpoint timers_in_time (s : msg_state) (ops : list msg_op) : bool :=
  match ops with
  | [] => true
  | op :: ops => negb (fires_early s op) && match msg_step s op with Some s => timers_in_time s ops | None => true end
  end.

(** * The invariant *)

(** The references of a thread, the request it is to end, and whether it counts in
    msg_idr_process. *)
Definition holds_of (t : thread) : list Z :=
  match t with
  | TSync a | TWait a | TAsync a | TPageNew a | TPage a | TPageFail a _ | TResp a _ | TIter a _ _ | TWake a _ _
  | TRespPage a _ | TWork a | TOffHead a _ _ => [a]
  | TRequeue a _ | TRecvPage a _ | TOffWork a _ _ => [a; a]
  | TFired _ | TOffWait _ | TOff _ _ => []
  end.

Definition base_of (t : thread) : list Z :=
  match t with
  | TSync a | TWait a | TAsync a | TPageNew a | TRequeue a _ | TRecvPage a _ | TWork a | TOffWork a _ _ => [a]
  | _ => []
  end.

Definition in_process (t : thread) : Z :=
  match t with TSync _ | TAsync _ | TFired _ | TPageNew _ | TPage _ | TPageFail _ _ => 1 | _ => 0 end.

Definition fired_of (t : thread) : list Z := match t with TFired a => [a] | _ => [] end.

Definition head_of (t : thread) : option Z :=
  match t with
  | TSync a | TWait a | TAsync a | TFired a | TPageNew a | TPage a | TPageFail a _ | TResp a _ | TIter a _ _ | TWake a _ _
  | TRequeue a _ | TRespPage a _ | TRecvPage a _ | TWork a | TOffHead a _ _ | TOffWork a _ _ => Some a
  | TOffWait _ | TOff _ _ => None
  end.

(** The answer is one to the request of the head. *)
Definition answers (h : msg_head) (buf : option answer) : Prop :=
  match buf with Some an => an_id an = mh_id h /\ an_cmd an = mh_cmd h | None => True end.

Definition thread_ok (h : msg_head) (t : thread) : Prop :=
  match t with
  | TSync _ | TWait _ => mh_type h = MSG_IDR_MESSAGE_SYNC
  | TAsync _ => mh_type h = MSG_IDR_MESSAGE_ASYNC /\ mh_wfired h = false
  | TFired _ => mh_type h = MSG_IDR_MESSAGE_ASYNC /\ mh_wfired h = false /\ mh_work h <> DIdle
  | TPageNew _ | TPage _ | TPageFail _ _ => mh_type h = MSG_IDR_PAGE
  | TResp _ an => mh_type h <> MSG_IDR_PAGE /\ answers h (Some an)
  | TIter _ _ _ => mh_type h = MSG_IDR_MESSAGE_SYNC
  | TWake _ _ buf => mh_type h = MSG_IDR_MESSAGE_SYNC /\ answers h buf
  | TRequeue _ an => mh_type h = MSG_IDR_MESSAGE_ASYNC /\ mh_wfired h = true /\ answers h (Some an)
  | TRespPage _ an | TRecvPage _ an => mh_type h = MSG_IDR_PAGE /\ answers h (Some an)
  | TWork _ | TOffWork _ _ _ => mh_type h <> MSG_IDR_MESSAGE_SYNC /\ (mh_type h = MSG_IDR_MESSAGE_ASYNC -> mh_wfired h = true)
  | _ => True
  end.

Definition head_ok (h : msg_head) : Prop :=
  answers h (mh_buf h) /\
  match mh_type h with
  | MSG_IDR_MESSAGE_SYNC => mh_cmd h <> F_READPAGE /\ async_cmd (mh_cmd h) = false /\ mh_work h = DIdle
  | MSG_IDR_MESSAGE_ASYNC => async_cmd (mh_cmd h) = true
  | MSG_IDR_PAGE => mh_cmd h = F_READPAGE
  end.

(** The reference of a waiting work. *)
Definition pend (p : peer_msgs) (a : Z) : Z :=
  match pm_heads p !! a with Some h => if decide (mh_work h = DIdle) then 0 else 1 | None => 0 end.

Definition logged (p : peer_msgs) (a : Z) : Z := cnt a (map re_head (pm_log p)).

(** The invariant while a step is under way: [hand] and [base] are the references it holds and
    the requests it is to end, [proc] whether it still counts as a sender. *)
Record msg_inv (p : peer_msgs) (run : list thread) (hand base : list Z) (proc : Z) : Prop := {
  mi_counts : counts (pm_refs p) (fun a => cnt a (concat (map holds_of run)) + cnt a hand + pend p a);
  mi_base a : cnt a (concat (map base_of run)) + cnt a base + pend p a + logged p a = if (0 <=? a) && (a <? pm_new p) then 1 else 0;
  mi_dom a : is_Some (pm_heads p !! a) <-> is_Some (pm_refs p !! a);
  mi_idr id a : pm_idr p !! id = Some a -> exists h, pm_heads p !! a = Some h /\ mh_id h = id;
  mi_head a h : pm_heads p !! a = Some h -> head_ok h /\ pm_idr p !! mh_id h = Some a /\ 0 <= a < pm_new p;
  mi_page a h : pm_heads p !! a = Some h -> mh_type h = MSG_IDR_PAGE -> (mh_page h = true <-> logged p a = 0);
  mi_thread t a : t ∈ run -> head_of t = Some a -> exists h, pm_heads p !! a = Some h /\ thread_ok h t;
  mi_fired : NoDup (concat (map fired_of run));
  mi_log r : r ∈ pm_log p -> match re_buf r with Some an => an_id an = re_id r /\ an_cmd an = re_cmd r | None => True end;
  mi_proc : msg_idr_process p = foldr (fun t n => in_process t + n) 0 run + proc;
  mi_new : 0 <= pm_new p
}.

(** * Bookkeeping *)

Lemma cnt_delete {A} (f : A -> list Z) (run : list A) k t a :
  run !! k = Some t -> cnt a (concat (map f run)) = cnt a (f t) + cnt a (concat (map f (delete k run))).
Proof.
  intros Hk. rewrite <- cnt_app. apply cnt_perm. change (f t ++ concat (map f (delete k run))) with (concat (map f (t :: delete k run))).
  rewrite <- !flat_map_concat_map. apply Permutation_flat_map. by apply list.delete_Permutation.
Qed.

Lemma cnt_concat_in {A} (f : A -> list Z) (run : list A) t a : t ∈ run -> cnt a (f t) <= cnt a (concat (map f run)).
Proof.
  intros Ht. apply list_elem_of_lookup in Ht as [k Hk]. rewrite (cnt_delete f run k t a Hk).
  pose proof (cnt_nonneg a (concat (map f (delete k run)))). lia.
Qed.

Lemma proc_delete run k t : run !! k = Some t ->
  foldr (fun t n => in_process t + n) 0 run = in_process t + foldr (fun t n => in_process t + n) 0 (delete k run).
Proof.
  revert k. induction run as [|x run IH]; intros [|k] Hk; try done; [by injection Hk as ->|].
  change (delete (S k) (x :: run)) with (x :: delete k run). cbn [foldr]. rewrite (IH k Hk). lia.
Qed.

Lemma inv_live p run hand base proc a : msg_inv p run hand base proc ->
  0 < cnt a (concat (map holds_of run)) + cnt a hand + pend p a -> exists h, pm_heads p !! a = Some h.
Proof.
  intros Hi Ha. pose proof (counts_live _ _ a (mi_counts _ _ _ _ _ Hi) Ha) as E. apply (mi_dom _ _ _ _ _ Hi). by eexists.
Qed.

Lemma live_count p run hand base proc a h : msg_inv p run hand base proc -> pm_heads p !! a = Some h ->
  0 < cnt a (concat (map holds_of run)) + cnt a hand + pend p a.
Proof.
  intros Hi Ha. assert (is_Some (pm_refs p !! a)) as [n Hn] by (apply (mi_dom _ _ _ _ _ Hi); by eexists).
  pose proof (mi_counts _ _ _ _ _ Hi a) as Hc. rewrite Hn in Hc. lia.
Qed.

Lemma pend_range p a : 0 <= pend p a <= 1.
Proof. unfold pend. destruct (pm_heads p !! a); [destruct (decide _)|]; lia. Qed.

Lemma pend_of p a h : pm_heads p !! a = Some h -> pend p a = if decide (mh_work h = DIdle) then 0 else 1.
Proof. intros Ha. unfold pend. by rewrite Ha. Qed.

Lemma pend_insert p a h b : pend (set_heads p (<[a := h]> (pm_heads p))) b =
  if decide (b = a) then (if decide (mh_work h = DIdle) then 0 else 1) else pend p b.
Proof.
  unfold pend. cbn. destruct (decide (b = a)) as [->|Hne]; [by rewrite lookup_insert_eq|by rewrite lookup_insert_ne].
Qed.

(** One who is to end a request is the only one, and it is not ended. *)
Lemma base_once p run hand base proc a : msg_inv p run hand (a :: base) proc ->
  cnt a (concat (map base_of run)) = 0 /\ cnt a base = 0 /\ pend p a = 0 /\ logged p a = 0.
Proof.
  intros Hi. pose proof (mi_base _ _ _ _ _ Hi a) as E. rewrite cnt_cons, decide_True in E by done.
  pose proof (cnt_nonneg a (concat (map base_of run))). pose proof (cnt_nonneg a base). pose proof (pend_range p a).
  pose proof (cnt_nonneg a (map re_head (pm_log p))). unfold logged in *. destruct ((0 <=? a) && (a <? pm_new p)); lia.
Qed.

Lemma in_range a n : 0 <= a < n -> (0 <=? a) && (a <? n) = true.
Proof. intros Ha. apply andb_true_iff. split; [apply Z.leb_le|apply Z.ltb_lt]; lia. Qed.

(** * The tokens of a step *)

Lemma take_thread p run k t : msg_inv p run [] [] 0 -> run !! k = Some t ->
  msg_inv p (delete k run) (holds_of t) (base_of t) (in_process t) /\
  NoDup (fired_of t ++ concat (map fired_of (delete k run))) /\
  (forall a, head_of t = Some a -> exists h, pm_heads p !! a = Some h /\ thread_ok h t).
Proof.
  intros Hi Hk. pose proof (list.delete_Permutation run k t Hk) as Hperm.
  assert (Hnd : NoDup (fired_of t ++ concat (map fired_of (delete k run)))).
  { change (NoDup (concat (map fired_of (t :: delete k run)))). rewrite <- flat_map_concat_map.
    pose proof (mi_fired _ _ _ _ _ Hi) as Hnd. rewrite <- flat_map_concat_map in Hnd.
    by rewrite <- (Permutation_flat_map fired_of Hperm). }
  split; [|split; [exact Hnd|]].
  2: { intros a Ha. eapply (mi_thread _ _ _ _ _ Hi); [by eapply list_elem_of_lookup_2|done]. }
  destruct Hi as [Hc Hb Hd Hidr Hh Hp Ht _ Hl Hpr Hn]. split; try done.
  - eapply counts_ext; [|exact Hc]. intros a. cbn beta. rewrite (cnt_delete holds_of run k t a Hk). change (cnt a []) with 0. lia.
  - intros a. rewrite <- (Hb a), (cnt_delete base_of run k t a Hk). change (cnt a []) with 0. lia.
  - intros t' a Hin. apply Ht. rewrite Hperm. by right.
  - by apply list.NoDup_app in Hnd as (_&_&?).
  - rewrite Hpr, (proc_delete run k t Hk). lia.
Qed.

Lemma give_none p run : msg_inv p run [] [] 0 -> msg_inv p ([] ++ run) [] [] 0.
Proof. done. Qed.

Lemma give_thread p run hand base proc t : msg_inv p run hand base proc ->
  (forall a, cnt a hand = cnt a (holds_of t)) -> (forall a, cnt a base = cnt a (base_of t)) -> proc = in_process t ->
  NoDup (fired_of t ++ concat (map fired_of run)) ->
  (forall a, head_of t = Some a -> exists h, pm_heads p !! a = Some h /\ thread_ok h t) ->
  msg_inv p ([t] ++ run) [] [] 0.
Proof.
  intros [Hc Hb Hd Hidr Hh Hp Ht Hf Hl Hpr Hn] Hhand Hbase -> Hnd Hok. split; try done.
  - eapply counts_ext; [|exact Hc]. intros a. cbn [app map concat]. rewrite cnt_app, Hhand. change (cnt a []) with 0. lia.
  - intros a. rewrite <- (Hb a). cbn [app map concat]. rewrite cnt_app, Hbase. change (cnt a []) with 0. lia.
  - intros t' a [->|Hin]%elem_of_cons; [apply Hok|by apply Ht].
  - cbn [app foldr]. rewrite Hpr. lia.
Qed.

(** * What a step does to its tokens *)

Lemma get_inv p run hand base proc a h : msg_inv p run hand base proc -> pm_heads p !! a = Some h ->
  exists m, head_get p a = Some (set_refs p m) /\ msg_inv (set_refs p m) run (a :: hand) base proc.
Proof.
  intros Hi Ha. unfold head_get.
  destruct (inc_ref_ok _ _ a (mi_counts _ _ _ _ _ Hi) (live_count _ _ _ _ _ _ _ Hi Ha)) as (m&->&Hm). exists m. split; [done|].
  pose proof (live_count _ _ _ _ _ _ _ Hi Ha) as Hpos.
  assert (Hm' : counts m (fun b => cnt b (concat (map holds_of run)) + cnt b (a :: hand) + pend p b)).
  { eapply counts_ext; [|exact Hm]. intros b. rewrite add_ref_eq. cbn beta. rewrite cnt_cons. destruct (decide (a = b)); lia. }
  destruct Hi as [Hc Hb Hd Hidr Hh Hp Ht Hf Hl Hpr Hn]. split; try done. cbn. intros b. rewrite Hd.
  rewrite (counts_dom _ _ b Hc), (counts_dom _ _ b Hm'), cnt_cons. pose proof (pend_range p b).
  pose proof (cnt_nonneg b (concat (map holds_of run))). pose proof (cnt_nonneg b hand).
  destruct (decide (a = b)) as [->|]; lia.
Qed.

(** A head keeps its type, id, command and page. *)
Definition same_head (h h' : msg_head) : Prop :=
  mh_type h' = mh_type h /\ mh_id h' = mh_id h /\ mh_cmd h' = mh_cmd h /\ mh_page h' = mh_page h.

Lemma upd_inv p run hand base hand' base' proc a h h' : msg_inv p run hand base proc -> pm_heads p !! a = Some h ->
  same_head h h' -> head_ok h' ->
  (forall b, cnt b hand' + pend (set_heads p (<[a := h']> (pm_heads p))) b = cnt b hand + pend p b) ->
  (forall b, cnt b base' + pend (set_heads p (<[a := h']> (pm_heads p))) b = cnt b base + pend p b) ->
  (forall t, t ∈ run -> head_of t = Some a -> thread_ok h t -> thread_ok h' t) ->
  msg_inv (set_heads p (<[a := h']> (pm_heads p))) run hand' base' proc.
Proof.
  intros Hi Ha (E1&E2&E3&E4) Hok Hhand Hbase Hthr. destruct Hi as [Hc Hb Hd Hidr Hh Hp Ht Hf Hl Hpr Hn]. split; try done.
  - eapply counts_ext; [|exact Hc]. intros b. cbn beta. specialize (Hhand b). lia.
  - intros b. specialize (Hb b). specialize (Hbase b). unfold logged in *. cbn [pm_log pm_new set_heads]. cbn in Hb |- *. lia.
  - intros b. cbn. rewrite <- Hd. destruct (decide (b = a)) as [->|Hne]; [rewrite lookup_insert_eq|by rewrite lookup_insert_ne].
    rewrite Ha. split; intros _; by eexists.
  - intros id b E. cbn in E |- *. destruct (Hidr id b E) as (g&Hg&Hid). destruct (decide (b = a)) as [->|Hne].
    + exists h'. rewrite lookup_insert_eq. split; [done|congruence].
    + exists g. by rewrite lookup_insert_ne.
  - intros b g. cbn. destruct (decide (b = a)) as [->|Hne]; [rewrite lookup_insert_eq|rewrite lookup_insert_ne by done; apply Hh].
    intros [= <-]. split; [done|]. rewrite E2. by apply (Hh a h).
  - intros b g. cbn. destruct (decide (b = a)) as [->|Hne]; [rewrite lookup_insert_eq|rewrite lookup_insert_ne by done; apply Hp].
    intros [= <-]. rewrite E1, E4. by apply Hp.
  - intros t b Hin Hb'. destruct (Ht t b Hin Hb') as (g&Hg&Hgt). cbn. destruct (decide (b = a)) as [->|Hne].
    + exists h'. rewrite lookup_insert_eq. split; [done|]. apply Hthr; [done|done|congruence].
    + exists g. by rewrite lookup_insert_ne.
Qed.

(** Only the result and wfired change. *)
Lemma note_inv p run hand base proc a h h' : msg_inv p run hand base proc -> pm_heads p !! a = Some h ->
  same_head h h' -> mh_work h' = mh_work h -> answers h (mh_buf h') ->
  (mh_wfired h' = mh_wfired h \/ mh_wfired h' = true /\ forall t, t ∈ run -> t <> TAsync a /\ t <> TFired a) ->
  msg_inv (set_heads p (<[a := h']> (pm_heads p))) run hand base proc.
Proof.
  intros Hi Ha (E1&E2&E3&E4) Ew Hans Hwf.
  assert (Hpend : forall b, pend (set_heads p (<[a := h']> (pm_heads p))) b = pend p b).
  { intros b. rewrite pend_insert. destruct (decide (b = a)) as [->|]; [|done]. by rewrite Ew, (pend_of p a h Ha). }
  eapply upd_inv; [exact Hi|exact Ha|done| |intros b; by rewrite Hpend|intros b; by rewrite Hpend|].
  - destruct (mi_head _ _ _ _ _ Hi a h Ha) as [[_ Ho] _]. split; [|by rewrite E1, E3, Ew].
    destruct (mh_buf h'); [|done]. unfold answers in *. by rewrite E2, E3.
  - assert (Hbuf : forall buf, answers h buf -> answers h' buf) by (intros [an|]; unfold answers; by rewrite ?E2, ?E3).
    intros t Hin Hta Ht. destruct Hwf as [Hwf|[Hwf Hno]].
    + destruct t; cbn in Ht |- *; rewrite ?E1, ?Hwf, ?Ew; intuition (auto; congruence).
    + destruct (Hno t Hin) as [N1 N2]. destruct t; cbn in Hta, Ht |- *; try discriminate Hta; injection Hta as ->;
        rewrite ?E1, ?Hwf; intuition (auto; congruence).
Qed.

(** A thread that waits for its head keeps it alive. *)
Lemma thread_alive p run hand base proc t a : msg_inv p run hand base proc -> t ∈ run -> head_of t = Some a ->
  0 < cnt a (concat (map holds_of run)) + pend p a.
Proof.
  intros Hi Hin Ha. pose proof (cnt_concat_in holds_of run t a Hin) as Hle. pose proof (pend_range p a).
  assert (Hcases : a ∈ holds_of t \/ exists b, t = TFired b).
  { destruct t; cbn in *; try discriminate Ha; injection Ha as ->; first [by (left; left)|right; by eexists]. }
  destruct Hcases as [Hh|[b ->]]; [apply cnt_pos in Hh; lia|]. cbn in Ha. injection Ha as ->.
  destruct (mi_thread _ _ _ _ _ Hi _ a Hin eq_refl) as (h&Hh&_&_&Hw). rewrite (pend_of _ _ _ Hh), decide_False by done.
  pose proof (cnt_nonneg a (concat (map holds_of run))). lia.
Qed.

Lemma put_inv p run hand base proc a : msg_inv p run (a :: hand) base proc ->
  exists p', head_put p a = Some p' /\ msg_inv p' run hand base proc /\
    forall b g, pm_heads p' !! b = Some g -> pm_heads p !! b = Some g.
Proof.
  intros Hi. assert (Hpos : 0 < cnt a (concat (map holds_of run)) + cnt a (a :: hand) + pend p a).
  { rewrite cnt_cons, decide_True by done. pose proof (pend_range p a). pose proof (cnt_nonneg a (concat (map holds_of run))).
    pose proof (cnt_nonneg a hand). lia. }
  destruct (inv_live _ _ _ _ _ a Hi Hpos) as [h Ha]. unfold head_put. rewrite Ha. cbn [mbind option_bind].
  destruct (dec_ref_ok _ _ a (mi_counts _ _ _ _ _ Hi) Hpos) as (m&->&Hm). cbn [mbind option_bind]. eexists. split; [done|].
  split; [|destruct (m !! a); [done|]; intros b g Hg; cbn in Hg; by apply lookup_delete_Some in Hg as [_ ?]].
  assert (Hm' : counts m (fun b => cnt b (concat (map holds_of run)) + cnt b hand + pend p b)).
  { eapply counts_ext; [|exact Hm]. intros b. rewrite add_ref_eq. cbn beta. rewrite cnt_cons. destruct (decide (a = b)); lia. }
  assert (Hrefs : forall b, b <> a -> is_Some (m !! b) <-> is_Some (pm_refs p !! b)).
  { intros b Hne. rewrite (counts_dom _ _ b Hm'), (counts_dom _ _ b (mi_counts _ _ _ _ _ Hi)).
    by rewrite cnt_cons, decide_False. }
  destruct Hi as [Hc Hb Hd Hidr Hh Hp Ht Hf Hl Hpr Hn]. destruct (m !! a) as [n|] eqn:Hma.
  - split; try done. intros b. cbn. destruct (decide (b = a)) as [->|Hne]; [rewrite Hma, Ha; split; intros _; by eexists|].
    rewrite Hd. symmetry. by apply Hrefs.
  - assert (Hzero : cnt a (concat (map holds_of run)) = 0 /\ cnt a hand = 0 /\ pend p a = 0).
    { pose proof (Hm' a) as H0. cbn beta in H0. rewrite Hma in H0. pose proof (pend_range p a).
      pose proof (cnt_nonneg a (concat (map holds_of run))). pose proof (cnt_nonneg a hand). lia. }
    set (p' := mk_pm _ _ _ _ _ _ _ _).
    assert (Hpend : forall b, pend p' b = pend p b).
    { intros b. unfold pend. cbn. destruct (decide (b = a)) as [->|Hne]; [|by rewrite lookup_delete_ne].
      rewrite lookup_delete_eq. destruct Hzero as (_&_&E). unfold pend in E. by rewrite E. }
    split; try done.
    + eapply counts_ext; [|exact Hm']. intros b. cbn beta. by rewrite Hpend.
    + intros b. rewrite Hpend. apply Hb.
    + intros b. cbn. destruct (decide (b = a)) as [->|Hne].
      * rewrite Hma, lookup_delete_eq. split; intros [? E]; discriminate E.
      * rewrite lookup_delete_ne by done. rewrite Hd. symmetry. by apply Hrefs.
    + intros id b E. cbn in E |- *. apply lookup_delete_Some in E as [Hne E]. destruct (Hidr id b E) as (g&Hg&<-).
      exists g. split; [|done]. rewrite lookup_delete_ne; [done|]. intros ->. congruence.
    + intros b g Hg. cbn in Hg |- *. apply lookup_delete_Some in Hg as [Hne Hg]. destruct (Hh b g Hg) as (Ho&Hi'&Hr).
      split_and!; try done; try lia. rewrite lookup_delete_ne; [done|]. intros E. destruct (Hh a h Ha) as (_&Hi''&_). congruence.
    + intros b g Hg. cbn in Hg. apply lookup_delete_Some in Hg as [_ Hg]. by apply Hp.
    + intros t b Hin Hb'. destruct (Ht t b Hin Hb') as (g&Hg&Hgt). exists g. split; [|done]. cbn. rewrite lookup_delete_ne; [done|].
      intros ->. assert (Hi : msg_inv p run (b :: hand) base proc) by (by split).
      pose proof (thread_alive _ _ _ _ _ _ _ Hi Hin Hb'). lia.
Qed.

(** A request ends: a page request with its page unlocked. *)
Lemma log_inv p run hand base proc a h ret buf : msg_inv p run hand (a :: base) proc -> pm_heads p !! a = Some h -> answers h buf ->
  let h' := if decide (mh_type h = MSG_IDR_PAGE) then set_page h false else h in
  msg_inv (add_log (set_heads p (<[a := h']> (pm_heads p))) (mk_result a (mh_id h) (mh_cmd h) ret buf)) run hand base proc.
Proof.
  intros Hi Ha Hbuf h'. destruct (base_once _ _ _ _ _ _ Hi) as (_&_&_&Hlog).
  assert (Hsame : mh_type h' = mh_type h /\ mh_id h' = mh_id h /\ mh_cmd h' = mh_cmd h /\ mh_work h' = mh_work h /\
    mh_wfired h' = mh_wfired h /\ mh_buf h' = mh_buf h) by (unfold h'; destruct (decide _); done).
  destruct Hsame as (E1&E2&E3&E4&E5&E6).
  set (p' := add_log _ _). assert (Hpend : forall b, pend p' b = pend p b).
  { intros b. change (pend (set_heads p (<[a := h']> (pm_heads p))) b = pend p b). rewrite pend_insert, E4.
    destruct (decide (b = a)) as [->|]; [by rewrite (pend_of p a h Ha)|done]. }
  destruct Hi as [Hc Hb Hd Hidr Hh Hp Ht Hf Hl Hpr Hn].
  assert (Hlg : forall b, logged p' b = (if decide (a = b) then 1 else 0) + logged p b) by (intros b; apply cnt_cons).
  split; try done.
  - eapply counts_ext; [|exact Hc]. intros b. cbn beta. by rewrite Hpend.
  - intros b. rewrite Hpend, Hlg. pose proof (Hb b) as Hb'. rewrite cnt_cons in Hb'. cbn [pm_new add_log set_heads]. cbn in Hb' |- *. lia.
  - intros b. cbn. rewrite <- Hd. destruct (decide (b = a)) as [->|Hne]; [rewrite lookup_insert_eq|by rewrite lookup_insert_ne].
    rewrite Ha. split; intros _; by eexists.
  - intros id b E. cbn in E |- *. destruct (Hidr id b E) as (g&Hg&Hid). destruct (decide (b = a)) as [->|Hne].
    + exists h'. rewrite lookup_insert_eq. split; [done|congruence].
    + exists g. by rewrite lookup_insert_ne.
  - intros b g. cbn. destruct (decide (b = a)) as [->|Hne]; [rewrite lookup_insert_eq|rewrite lookup_insert_ne by done; apply Hh].
    intros [= <-]. destruct (Hh a h Ha) as ([Ho1 Ho2]&?). rewrite E2. split; [|done]. split; [|by rewrite E1, E3, E4].
    rewrite E6. destruct (mh_buf h); [|done]. unfold answers in *. by rewrite E2, E3.
  - intros b g Hg. rewrite Hlg. cbn in Hg. pose proof (cnt_nonneg b (map re_head (pm_log p))) as H0. fold (logged p b) in H0.
    destruct (decide (b = a)) as [->|Hne].
    + rewrite lookup_insert_eq in Hg. injection Hg as <-. rewrite E1. intros Ety. unfold h'. rewrite !decide_True by done.
      cbn. split; [discriminate|lia].
    + rewrite lookup_insert_ne in Hg by done. rewrite decide_False by done. intros Ety. rewrite (Hp b g Hg Ety). done.
  - intros t b Hin Hb'. destruct (Ht t b Hin Hb') as (g&Hg&Hgt). cbn. destruct (decide (b = a)) as [->|Hne].
    + exists h'. rewrite lookup_insert_eq. split; [done|]. assert (g = h) as -> by congruence.
      destruct t; cbn in Hgt |- *; rewrite ?E1, ?E4, ?E5; unfold answers in *; rewrite ?E2, ?E3; done.
    + exists g. by rewrite lookup_insert_ne.
  - intros r [->|Hr]%elem_of_cons; [|by apply Hl]. by destruct buf.
Qed.

Lemma finish_inv p run hand base proc a h ret buf : msg_inv p run hand (a :: base) proc -> pm_heads p !! a = Some h ->
  mh_type h <> MSG_IDR_PAGE -> answers h buf ->
  exists p', finish p a ret buf = Some p' /\ msg_inv p' run hand base proc /\ pm_heads p' = pm_heads p.
Proof.
  intros Hi Ha Hty Hbuf. unfold finish. rewrite Ha. cbn [mbind option_bind]. eexists. split; [done|].
  pose proof (log_inv _ _ _ _ _ a h ret buf Hi Ha Hbuf) as H'. cbv zeta in H'. rewrite decide_False in H' by done.
  rewrite insert_id in H' by done. split; [by destruct p|done].
Qed.

Lemma asw_done_inv p run hand base proc a h ret buf : msg_inv p run (a :: hand) (a :: base) proc -> pm_heads p !! a = Some h ->
  mh_type h = MSG_IDR_PAGE -> answers h buf ->
  exists p', asw_done p a ret buf = Some p' /\ msg_inv p' run hand base proc.
Proof.
  intros Hi Ha Hty Hbuf. unfold asw_done, unlock_page, upd_head, finish. rewrite Ha. cbn [mbind option_bind].
  destruct (base_once _ _ _ _ _ _ Hi) as (_&_&_&Hlog).
  assert (mh_page h = true) as -> by (by apply (mi_page _ _ _ _ _ Hi a h Ha Hty)). cbn [mbind option_bind pm_heads set_heads].
  rewrite lookup_insert_eq. cbn [mbind option_bind mh_id mh_cmd set_page].
  pose proof (log_inv _ _ _ _ _ a h ret buf Hi Ha Hbuf) as H'. cbv zeta in H'. rewrite decide_True in H' by done.
  destruct (put_inv _ _ _ _ _ _ H') as (p'&E&Hi'&_). by exists p'.
Qed.

(** cancel_delayed_work hands over the reference of the work, and the request. *)
Lemma cancel_inv p run hand base proc a h : msg_inv p run hand base proc -> pm_heads p !! a = Some h ->
  mh_type h <> MSG_IDR_MESSAGE_SYNC -> (mh_type h = MSG_IDR_MESSAGE_ASYNC -> mh_wfired h = true) ->
  exists (c : bool) p', cancel_delayed_work p a = Some (c, p') /\
    if c then msg_inv p' run (a :: hand) (a :: base) proc /\ pm_heads p' !! a = Some (set_work h DIdle) /\
              msg_idr_process p' = msg_idr_process p
    else p' = p.
Proof.
  intros Hi Ha Hty Hwf. unfold cancel_delayed_work. rewrite Ha. cbn [mbind option_bind].
  destruct (decide (mh_work h = DIdle)) as [Hw|Hw]; [by exists false, p|]. eexists true, _. split; [done|].
  split; [|split; [apply lookup_insert_eq|done]].
  assert (Hpa : pend p a = 1) by (by rewrite (pend_of p a h Ha), decide_False).
  eapply upd_inv; [exact Hi|exact Ha|done| | | |].
  - destruct (mi_head _ _ _ _ _ Hi a h Ha) as [[Ho1 Ho2] _]. split; [exact Ho1|]. cbn. by destruct (mh_type h).
  - intros b. rewrite pend_insert, cnt_cons. cbn. destruct (decide (b = a)) as [->|Hne]; [rewrite !decide_True by done; lia|].
    rewrite decide_False by congruence. lia.
  - intros b. rewrite pend_insert, cnt_cons. cbn. destruct (decide (b = a)) as [->|Hne]; [rewrite !decide_True by done; lia|].
    rewrite decide_False by congruence. lia.
  - intros t _ _ Ht. destruct t; cbn in Ht |- *; try done. destruct Ht as (Hty'&Hwf'&_). rewrite (Hwf Hty') in Hwf'. done.
Qed.

(** A work that is queued takes the reference, and the request. *)
Lemma queue_inv p run hand base proc a h h' : msg_inv p run (a :: hand) (a :: base) proc -> pm_heads p !! a = Some h ->
  mh_type h <> MSG_IDR_MESSAGE_SYNC -> same_head h h' -> mh_work h' <> DIdle -> mh_wfired h' = mh_wfired h -> answers h (mh_buf h') ->
  msg_inv (set_heads p (<[a := h']> (pm_heads p))) run hand base proc.
Proof.
  intros Hi Ha Hty Hs Hw Hwf Hans. destruct (base_once _ _ _ _ _ _ Hi) as (Hb0&_&Hp0&_). pose proof Hs as (E1&E2&E3&E4).
  eapply upd_inv; [exact Hi|exact Ha|done| | | |].
  - destruct (mi_head _ _ _ _ _ Hi a h Ha) as [[_ Ho] _]. split.
    + destruct (mh_buf h'); [|done]. unfold answers in *. by rewrite E2, E3.
    + rewrite E1, E3. by destruct (mh_type h).
  - intros b. rewrite pend_insert, cnt_cons. destruct (decide (b = a)) as [->|Hne];
      [rewrite decide_False, decide_True by done; lia|rewrite decide_False by congruence; lia].
  - intros b. rewrite pend_insert, cnt_cons. destruct (decide (b = a)) as [->|Hne];
      [rewrite decide_False, decide_True by done; lia|rewrite decide_False by congruence; lia].
  - intros t _ _ Ht. destruct t; cbn in Ht |- *; rewrite ?E1, ?Hwf; unfold answers in *; rewrite ?E2, ?E3; try done.
    by destruct Ht as (?&?&_).
Qed.

Lemma dec_inv p run hand base : msg_inv p run hand base 1 -> msg_inv (hmdfs_dec_msg_idr_process p) run hand base 0.
Proof. intros [Hc Hb Hd Hidr Hh Hp Ht Hf Hl Hpr Hn]. split; try done. cbn. lia. Qed.

(** The head of somebody who holds it twice survives a put. *)
Lemma put_head p run hand base proc a h : msg_inv p run (a :: a :: hand) base proc -> pm_heads p !! a = Some h ->
  exists p', head_put p a = Some p' /\ msg_inv p' run (a :: hand) base proc /\ pm_heads p' !! a = Some h.
Proof.
  intros Hi Ha. destruct (put_inv _ _ _ _ _ _ Hi) as (p'&E&Hi'&Hsub). exists p'. split_and!; [done|done|].
  destruct (inv_live _ _ _ _ _ a Hi') as [g Hg].
  - rewrite cnt_cons, decide_True by done. pose proof (pend_range p' a). pose proof (cnt_nonneg a (concat (map holds_of run))).
    pose proof (cnt_nonneg a hand). lia.
  - pose proof (Hsub _ _ Hg). congruence.
Qed.

(** * Each thread *)

Definition step_done (run : list thread) (r : option (peer_msgs * list thread)) : Prop :=
  exists p next, r = Some (p, next) /\ msg_inv p (next ++ run) [] [] 0.

(** Thread [t] is about to go on. *)
Record thread_ready (p : peer_msgs) (run : list thread) (t : thread) : Prop := {
  rd_inv : msg_inv p run (holds_of t) (base_of t) (in_process t);
  rd_fired : NoDup (fired_of t ++ concat (map fired_of run));
  rd_head a : head_of t = Some a -> exists h, pm_heads p !! a = Some h /\ thread_ok h t
}.

Lemma ready_at s k t : msg_inv (ms_peer s) (ms_run s) [] [] 0 -> ms_run s !! k = Some t -> thread_ready (ms_peer s) (delete k (ms_run s)) t.
Proof. intros Hi Hk. destruct (take_thread _ _ _ _ Hi Hk) as (?&?&?). by split. Qed.

Lemma ready_stays p run t : thread_ready p run t -> msg_inv p ([t] ++ run) [] [] 0.
Proof. intros [Hi Hf Hh]. by eapply give_thread. Qed.

(** What is known of a ready thread and its head. *)
Ltac ready_facts Hr a h Ha Hok :=
  pose proof (rd_inv _ _ _ Hr) as Hi; destruct (rd_head _ _ _ Hr a eq_refl) as (h&Ha&Hok);
  cbn [holds_of base_of in_process thread_ok] in Hi, Hok; unfold step_done;
  cbn [thread_step send_step sync_step async_step page_step recv_step recvpage_step off_step]; unfold resp_step, requeue_step, iter_step.

Ltac put_here Hi p := match type of Hi with msg_inv ?q _ (?a :: _) _ _ =>
  let E := fresh in let Hi' := fresh "Hi" in let Hs := fresh "Hsub" in
  destruct (put_inv _ _ _ _ _ _ Hi) as (p&E&Hi'&Hs); rewrite E; clear E; cbn [mbind option_bind] end.

Lemma sync_done p run a err queued : thread_ready p run (TSync a) -> step_done run (thread_step p (TSync a) err queued).
Proof.
  intros Hr. ready_facts Hr a h Ha Hok. destruct (err =? 0).
  - eexists _, _. split; [done|]. eapply give_thread; [by apply dec_inv|done..|apply (rd_fired _ _ _ Hr)|].
    intros b [= <-]. by exists h.
  - destruct (finish_inv _ _ _ _ _ a h err None Hi Ha) as (p1&->&Hi1&_); [congruence|done|]. cbn [mbind option_bind].
    put_here Hi1 p2. eexists _, []. split; [done|]. by apply dec_inv.
Qed.

Lemma wait_done p run a err queued : thread_ready p run (TWait a) -> step_done run (thread_step p (TWait a) err queued).
Proof.
  intros Hr. ready_facts Hr a h Ha Hok. rewrite Ha. cbn [mbind option_bind].
  destruct (mh_valid h); [|eexists _, _; split; [done|]; by apply ready_stays].
  destruct (mi_head _ _ _ _ _ Hi a h Ha) as [[Hans _] _].
  destruct (finish_inv _ _ _ _ _ a h (mh_ret h) (mh_buf h) Hi Ha) as (p1&->&Hi1&E1); [congruence|done|]. cbn [mbind option_bind].
  rewrite <- E1 in Ha. unfold upd_head. rewrite Ha. cbn [mbind option_bind].
  pose proof (note_inv _ _ _ _ _ a h (set_result h true (mh_ret h) None) Hi1 Ha) as Hi2.
  specialize (Hi2 ltac:(done) eq_refl I (or_introl eq_refl)). put_here Hi2 p3. eexists _, []. split; [done|]. exact Hi0.
Qed.

Lemma async_done p run a err queued : thread_ready p run (TAsync a) -> step_done run (thread_step p (TAsync a) err queued).
Proof.
  intros Hr. ready_facts Hr a h Ha Hok. destruct Hok as [Hty Hwf]. destruct (err =? 0).
  - unfold upd_head. rewrite Ha. cbn [mbind option_bind]. eexists _, _. split; [done|].
    pose proof (queue_inv _ _ _ _ _ a h (set_work h DTimer) Hi Ha) as Hi1.
    specialize (Hi1 ltac:(congruence) ltac:(done) ltac:(done) eq_refl (proj1 (proj1 (mi_head _ _ _ _ _ Hi a h Ha)))).
    eapply give_thread; [exact Hi1|done|done|done| |].
    + cbn [fired_of app]. apply list.NoDup_cons. split; [|apply (mi_fired _ _ _ _ _ Hi)]. intros Hin.
      destruct (base_once _ _ _ _ _ _ Hi) as (_&_&Hp0&_). apply list_elem_of_In in Hin. rewrite <- flat_map_concat_map in Hin.
      apply in_flat_map in Hin as (t&Ht&Hta). apply list_elem_of_In in Ht, Hta. destruct t; cbn in Hta; try by apply not_elem_of_nil in Hta.
      apply list_elem_of_singleton in Hta as ->. destruct (mi_thread _ _ _ _ _ Hi _ _ Ht eq_refl) as (g&Hg&_&_&Hw).
      rewrite (pend_of _ _ _ Hg), decide_False in Hp0; done.
    + intros b [= <-]. exists (set_work h DTimer). cbn. rewrite lookup_insert_eq. done.
  - destruct (finish_inv _ _ _ _ _ a h err None Hi Ha) as (p1&->&Hi1&_); [congruence|done|]. cbn [mbind option_bind].
    put_here Hi1 p2. eexists _, []. split; [done|]. by apply dec_inv.
Qed.

Lemma fired_done p run a err queued : thread_ready p run (TFired a) -> step_done run (thread_step p (TFired a) err queued).
Proof.
  intros Hr. ready_facts Hr a h Ha Hok. destruct Hok as (Hty&Hwf&Hw). unfold upd_head. rewrite Ha. cbn [mbind option_bind].
  eexists _, []. split; [done|]. apply dec_inv. eapply note_inv; [exact Hi|exact Ha|done|done| |].
  { apply (mi_head _ _ _ _ _ Hi a h Ha). }
  right. split; [done|]. intros t Hin. pose proof (mi_base _ _ _ _ _ Hi a) as Hb. rewrite (pend_of _ _ _ Ha), decide_False in Hb by done.
  pose proof (cnt_concat_in base_of run t a Hin) as Hle. pose proof (rd_fired _ _ _ Hr) as Hnd. cbn [fired_of app] in Hnd.
  apply list.NoDup_cons in Hnd as [Hnd _]. pose proof (cnt_nonneg a (map re_head (pm_log p))). unfold logged in Hb. change (cnt a []) with 0 in Hb.
  split; intros ->.
  - cbn in Hle. rewrite cnt_cons, decide_True in Hle by done. change (cnt a []) with 0 in Hle. destruct ((0 <=? a) && _); lia.
  - apply Hnd. apply list_elem_of_In. rewrite <- flat_map_concat_map. apply in_flat_map. exists (TFired a).
    split; [by apply list_elem_of_In|by left].
Qed.

Lemma page_new_done p run a err queued : thread_ready p run (TPageNew a) -> step_done run (thread_step p (TPageNew a) err queued).
Proof.
  intros Hr. ready_facts Hr a h Ha Hok. destruct (get_inv _ _ _ _ _ _ _ Hi Ha) as (m&->&Hi1). cbn [mbind option_bind]. destruct queued.
  - unfold upd_head. cbn [pm_heads set_refs]. rewrite Ha. cbn [mbind option_bind]. eexists _, _. split; [done|].
    pose proof (queue_inv _ _ _ _ _ a h (set_work h DTimer) Hi1 Ha) as Hi2.
    specialize (Hi2 ltac:(congruence) ltac:(done) ltac:(done) eq_refl (proj1 (proj1 (mi_head _ _ _ _ _ Hi a h Ha)))).
    eapply give_thread; [exact Hi2|done|done|done|apply (mi_fired _ _ _ _ _ Hi)|].
    intros b [= <-]. exists (set_work h DTimer). cbn. rewrite lookup_insert_eq. done.
  - destruct (put_head _ _ _ _ _ a h Hi1 Ha) as (p2&->&Hi0&Hg). cbn [mbind option_bind].
    destruct (asw_done_inv _ _ _ _ _ a h 0 None Hi0 Hg Hok I) as (p3&->&Hi3). cbn [mbind option_bind].
    eexists _, []. split; [done|]. by apply dec_inv.
Qed.

Lemma page_done p run a err queued : thread_ready p run (TPage a) -> step_done run (thread_step p (TPage a) err queued).
Proof.
  intros Hr. ready_facts Hr a h Ha Hok. destruct (err =? 0).
  - put_here Hi p1. eexists _, []. split; [done|]. by apply dec_inv.
  - eexists _, _. split; [done|]. eapply give_thread; [exact Hi|done|done|done|apply (rd_fired _ _ _ Hr)|]. intros b [= <-]. by exists h.
Qed.

Lemma page_fail_done p run a e err queued : thread_ready p run (TPageFail a e) -> step_done run (thread_step p (TPageFail a e) err queued).
Proof.
  intros Hr. ready_facts Hr a h Ha Hok. destruct (cancel_inv _ _ _ _ _ a h Hi Ha) as (c&p1&->&Hc); [congruence..|].
  cbn [mbind option_bind]. destruct c.
  - destruct Hc as (Hi1&Ha1&_). destruct (put_head _ _ _ _ _ a _ Hi1 Ha1) as (p2&->&Hi2&Ha2). cbn [mbind option_bind].
    destruct (asw_done_inv _ _ _ _ _ a _ e None Hi2 Ha2 Hok I) as (p3&->&Hi3). cbn [mbind option_bind].
    eexists _, []. split; [done|]. by apply dec_inv.
  - subst p1. put_here Hi p2. eexists _, []. split; [done|]. by apply dec_inv.
Qed.

(** The thread goes on as another one that holds the same. *)
Lemma becomes p run hand base proc t : msg_inv p run hand base proc -> fired_of t = [] ->
  (forall a, cnt a hand = cnt a (holds_of t)) -> (forall a, cnt a base = cnt a (base_of t)) -> proc = in_process t ->
  (forall a, head_of t = Some a -> exists h, pm_heads p !! a = Some h /\ thread_ok h t) ->
  exists p' next, Some (p, [t]) = Some (p', next) /\ msg_inv p' (next ++ run) [] [] 0.
Proof.
  intros Hi Hf ????. eexists _, _. split; [done|]. eapply give_thread; try done. rewrite Hf. apply (mi_fired _ _ _ _ _ Hi).
Qed.

(** The last thing a thread does is to put its head. *)
Lemma puts_last p run a : msg_inv p run [a] [] 0 ->
  exists p' next, (p ← head_put p a; Some (p, [])) = Some (p', next) /\ msg_inv p' (next ++ run) [] [] 0.
Proof. intros Hi. put_here Hi p1. eexists _, []. by split. Qed.

Lemma resp_done p run err a an : thread_ready p run (TResp a an) -> step_done run (recv_step p (TResp a an) err).
Proof.
  intros Hr. ready_facts Hr a h Ha Hok. destruct Hok as [Hty Hans]. rewrite Ha. cbn [mbind option_bind].
  destruct (mh_type h) eqn:Ety; [| |done].
  - destruct (mh_valid h); [by apply puts_last|]. eapply becomes; try done. intros b [= <-]. exists h. by split_and!.
  - destruct (mh_wfired h) eqn:Ewf; cbn [negb]; [|eexists _, _; split; [done|]; by apply ready_stays].
    destruct (cancel_inv _ _ _ _ _ a h Hi Ha) as (c&p1&->&Hc); [congruence|done|]. cbn [mbind option_bind]. destruct c.
    + destruct Hc as (Hi1&Ha1&_). eapply becomes; try done. intros b [= <-]. eexists. split; [exact Ha1|]. done.
    + subst p1. by apply puts_last.
Qed.

Lemma iter_done p run err a an last : thread_ready p run (TIter a an last) -> step_done run (recv_step p (TIter a an last) err).
Proof.
  intros Hr. ready_facts Hr a h Ha Hok. rewrite Ha. cbn [mbind option_bind].
  destruct (_ || _); [by apply puts_last|]. eapply becomes; try done. intros b [= <-]. by exists h.
Qed.

Lemma wakeup_inv p run hand base proc a h ret buf : msg_inv p run hand base proc -> pm_heads p !! a = Some h -> answers h buf ->
  exists p', hmdfs_response_wakeup p a ret buf = Some p' /\ msg_inv p' run hand base proc.
Proof.
  intros Hi Ha Hbuf. unfold hmdfs_response_wakeup, upd_head. rewrite Ha. cbn [mbind option_bind]. eexists. split; [done|].
  eapply note_inv; [done|done|done|done|done|by left].
Qed.

Lemma wake_done p run err a ret buf : thread_ready p run (TWake a ret buf) -> step_done run (recv_step p (TWake a ret buf) err).
Proof.
  intros Hr. ready_facts Hr a h Ha Hok. destruct Hok as [_ Hans].
  destruct (wakeup_inv _ _ _ _ _ a h ret buf Hi Ha Hans) as (p1&->&Hi1). cbn [mbind option_bind]. by apply puts_last.
Qed.

Lemma requeue_done p run err a an : thread_ready p run (TRequeue a an) -> step_done run (recv_step p (TRequeue a an) err).
Proof.
  intros Hr. ready_facts Hr a h Ha Hok. destruct Hok as (Hty&Hwf&Hans). unfold upd_head. rewrite Ha. cbn [mbind option_bind].
  pose proof (queue_inv _ _ _ _ _ a h (set_work (set_result h (mh_valid h) (an_ret an) (Some an)) DNow) Hi Ha) as Hi1.
  specialize (Hi1 ltac:(congruence) ltac:(done) ltac:(done) eq_refl Hans). by apply puts_last.
Qed.

Lemma resp_page_done p run err a an : thread_ready p run (TRespPage a an) -> step_done run (recv_step p (TRespPage a an) err).
Proof.
  intros Hr. ready_facts Hr a h Ha Hok. destruct Hok as [Hty Hans].
  destruct (cancel_inv _ _ _ _ _ a h Hi Ha) as (c&p1&->&Hc); [congruence..|]. cbn [mbind option_bind]. destruct c.
  - destruct Hc as (Hi1&Ha1&_). eapply becomes; try done. intros b [= <-]. eexists. split; [exact Ha1|]. done.
  - subst p1. by apply puts_last.
Qed.

Lemma recv_page_done p run err a an : thread_ready p run (TRecvPage a an) -> step_done run (recv_step p (TRecvPage a an) err).
Proof.
  intros Hr. ready_facts Hr a h Ha Hok. destruct Hok as [Hty Hans].
  destruct (asw_done_inv _ _ _ _ _ a h (if an_ret an =? 0 then err else an_ret an) (Some an) Hi Ha Hty Hans) as (p1&->&Hi1). cbn [mbind option_bind]. by apply puts_last.
Qed.

Lemma work_inv p run hand base proc a h : msg_inv p run (a :: hand) (a :: base) proc -> pm_heads p !! a = Some h ->
  mh_type h <> MSG_IDR_MESSAGE_SYNC -> exists p', work_fn p a = Some p' /\ msg_inv p' run hand base proc.
Proof.
  intros Hi Ha Hty. unfold work_fn. rewrite Ha. cbn [mbind option_bind]. destruct (mi_head _ _ _ _ _ Hi a h Ha) as [[Hans _] _].
  destruct (mh_type h) eqn:Ety; [done| |by eapply asw_done_inv].
  destruct (finish_inv _ _ _ _ _ a h (mh_ret h) (mh_buf h) Hi Ha) as (p1&->&Hi1&_); [congruence|done|]. cbn [mbind option_bind].
  put_here Hi1 p2. by exists p2.
Qed.

Lemma work_done p run a err queued : thread_ready p run (TWork a) -> step_done run (thread_step p (TWork a) err queued).
Proof.
  intros Hr. ready_facts Hr a h Ha Hok. destruct (work_inv _ _ _ _ _ a h Hi Ha) as (p1&->&Hi1); [apply Hok|].
  cbn [mbind option_bind]. by eexists _, [].
Qed.

Lemma set_offline_inv p run hand base proc b : msg_inv p run hand base proc -> msg_inv (set_offline p b) run hand base proc.
Proof. by intros []. Qed.

Lemma off_done p run t : is_off t = true -> thread_ready p run t -> step_done run (off_step p t).
Proof.
  intros Ht Hr. destruct t; try discriminate Ht.
  - unfold step_done; cbn [off_step]. eexists _, _. split; [done|]. destruct (msg_idr_process p =? 0); [|by apply ready_stays].
    by eapply give_thread; [apply (rd_inv _ _ _ Hr)|done..|apply (rd_fired _ _ _ Hr)|].
  - pose proof (rd_inv _ _ _ Hr) as Hi. cbn in Hi. unfold step_done; cbn [off_step].
    pose proof (idr_first_spec (pm_idr p) id) as Hspec. destruct (idr_first _ _) as [[i a]|].
    + destruct Hspec as [Hia _]. destruct (mi_idr _ _ _ _ _ Hi i a Hia) as (h&Ha&_).
      destruct (get_inv _ _ _ _ _ _ _ Hi Ha) as (m&->&Hi1). cbn [mbind option_bind]. eapply becomes; try done. intros b [= <-]. by exists h.
    + eexists _, []. split; [done|]. destruct marked; [by apply set_offline_inv|done].
  - ready_facts Hr a h Ha Hok. rewrite Ha. cbn [mbind option_bind].
    assert (Hput : forall p0, msg_inv p0 run [a] [] 0 ->
      exists p' next, (p ← head_put p0 a; Some (p, [TOff (id + 1) marked])) = Some (p', next) /\ msg_inv p' (next ++ run) [] [] 0).
    { intros p0 Hi0. put_here Hi0 p1. by eapply becomes. }
    assert (Hcan : mh_type h <> MSG_IDR_MESSAGE_SYNC -> (mh_type h = MSG_IDR_MESSAGE_ASYNC -> mh_wfired h = true) ->
      exists p' next, ('(cancelled, p) ← cancel_delayed_work p a;
        if cancelled : bool then Some (p, [TOffWork a id marked]) else p ← head_put p a; Some (p, [TOff (id + 1) marked])) = Some (p', next) /\
      msg_inv p' (next ++ run) [] [] 0).
    { intros Hty Hwf. destruct (cancel_inv _ _ _ _ _ a h Hi Ha Hty Hwf) as (c&p1&->&Hc). cbn [mbind option_bind].
      destruct c; [|subst p1; by apply Hput]. destruct Hc as (Hi1&Ha1&_). eapply becomes; try done.
      intros b [= <-]. eexists. split; [exact Ha1|]. done. }
    destruct (mh_type h) eqn:Ety.
    + destruct (wakeup_inv _ _ _ _ _ a h (- ETIME) None Hi Ha I) as (p1&->&Hi1). cbn [mbind option_bind]. by apply Hput.
    + destruct (mh_wfired h) eqn:Ewf; cbn [negb andb]; [rewrite andb_false_r; by apply Hcan|].
      eexists _, _. split; [done|]. by apply ready_stays.
    + by apply Hcan.
  - ready_facts Hr a h Ha Hok. destruct (work_inv _ _ _ _ _ a h Hi Ha) as (p1&->&Hi1); [apply Hok|]. cbn [mbind option_bind].
    put_here Hi1 p2. by eapply becomes.
Qed.

Lemma thread_done p run t err queued : thread_ready p run t -> step_done run (thread_step p t err queued).
Proof.
  intros Hr. destruct t; [by apply sync_done|by apply wait_done|by apply async_done|by apply fired_done|by apply page_new_done|
    by apply page_done|by apply page_fail_done|by apply resp_done|by apply iter_done|by apply wake_done|by apply requeue_done|
    by apply resp_page_done|by apply recv_page_done|by apply work_done|by apply off_done..].
Qed.

(** * Each operation *)

Lemma old_head p run hand base proc a : msg_inv p run hand base proc -> pm_heads p !! pm_new p = None /\ pm_refs p !! pm_new p = None /\
  cnt (pm_new p) (concat (map holds_of run)) = 0 /\ cnt (pm_new p) hand = 0 /\ cnt (pm_new p) (concat (map base_of run)) = 0 /\
  cnt (pm_new p) base = 0 /\ logged p (pm_new p) = 0 /\ (a = pm_new p -> pend p a = 0).
Proof.
  intros Hi. assert (Hn : pm_heads p !! pm_new p = None).
  { destruct (pm_heads p !! pm_new p) as [h|] eqn:E; [|done]. apply (mi_head _ _ _ _ _ Hi) in E as (_&_&?). lia. }
  assert (Hr : pm_refs p !! pm_new p = None).
  { destruct (pm_refs p !! pm_new p) as [n|] eqn:E; [|done]. apply mk_is_Some, (mi_dom _ _ _ _ _ Hi) in E as [? E]. congruence. }
  pose proof (mi_counts _ _ _ _ _ Hi (pm_new p)) as Hc. rewrite Hr in Hc. pose proof (mi_base _ _ _ _ _ Hi (pm_new p)) as Hb.
  assert (Hp : pend p (pm_new p) = 0) by (unfold pend; by rewrite Hn). rewrite Z.ltb_irrefl, andb_false_r in Hb.
  pose proof (cnt_nonneg (pm_new p) (concat (map holds_of run))). pose proof (cnt_nonneg (pm_new p) hand).
  pose proof (cnt_nonneg (pm_new p) (concat (map base_of run))). pose proof (cnt_nonneg (pm_new p) base).
  pose proof (cnt_nonneg (pm_new p) (map re_head (pm_log p))). unfold logged in *. split_and!; try done; try lia. by intros ->.
Qed.

Context `{!IdrLaws}.

Lemma alloc_inv p run type cmd : msg_inv p run [] [] 0 ->
  (let h := mk_head type 0 cmd false 0 None DIdle false false in head_ok h) ->
  match hmdfs_alloc_msg_idr p type cmd with
  | (inl _, p') => p' = p
  | (inr a, p') => msg_inv p' run [a] [a] 1 /\ exists h, pm_heads p' !! a = Some h /\ mh_type h = type /\ mh_wfired h = false
  end.
Proof.
  intros Hi Hok. unfold hmdfs_alloc_msg_idr. destruct (offline_start p); [done|].
  destruct (idr_alloc_cyclic _ _ _) as [e|id] eqn:Hid; [done|]. apply idr_found in Hid as [_ Hfree].
  destruct (old_head _ _ _ _ _ (pm_new p) Hi) as (Hh0&Hr0&Hc1&_&Hc2&_&Hl0&_).
  split; [|eexists; split; [apply lookup_insert_eq|done]].
  set (a := pm_new p) in *. set (h := mk_head type id cmd _ _ _ _ _ _). set (p' := mk_pm _ _ _ _ _ _ _ _).
  assert (Hpend : forall b, pend p' b = pend p b).
  { intros b. unfold pend. cbn. destruct (decide (b = a)) as [->|Hne]; [rewrite lookup_insert_eq, Hh0; done|by rewrite lookup_insert_ne]. }
  destruct Hi as [Hc Hb Hd Hidr Hh Hp Ht Hf Hl Hpr Hn]. split; try done.
  - intros b. pose proof (Hc b) as Hcb. cbn beta. rewrite Hpend, cnt_cons. cbn [pm_refs p']. destruct (decide (a = b)) as [<-|Hne].
    + rewrite lookup_insert_eq. rewrite Hr0 in Hcb. change (cnt a []) with 0 in *. lia.
    + rewrite lookup_insert_ne by done. destruct (pm_refs p !! b); change (cnt b []) with 0 in *; lia.
  - intros b. rewrite Hpend, cnt_cons. pose proof (Hb b) as Hbb. change (logged p' b) with (logged p b). cbn [pm_new p'].
    change (cnt b []) with 0 in *. fold a in Hbb. destruct (decide (a = b)) as [<-|Hne].
    + rewrite Z.ltb_irrefl, andb_false_r in Hbb. cbv iota in Hbb |- *. replace ((0 <=? a) && (a <? a + 1)) with true; [lia|].
      symmetry. apply andb_true_iff. split; [by apply Z.leb_le|apply Z.ltb_lt; lia].
    + replace ((0 <=? b) && (b <? a + 1)) with ((0 <=? b) && (b <? a)); [lia|].
      destruct (0 <=? b), (b <? a) eqn:E1, (b <? a + 1) eqn:E2; zb; try done; lia.
  - intros b. cbn. destruct (decide (b = a)) as [->|Hne]; [rewrite !lookup_insert_eq; split; intros _; by eexists|].
    rewrite !lookup_insert_ne by done. apply Hd.
  - intros i b E. cbn in E |- *. apply lookup_insert_Some in E as [[<- <-]|[Hne E]]; [exists h; by rewrite lookup_insert_eq|].
    destruct (Hidr i b E) as (g&Hg&Hgid). exists g. split; [|done]. rewrite lookup_insert_ne; [done|]. intros <-. congruence.
  - intros b g. cbn. destruct (decide (b = a)) as [->|Hne].
    + rewrite lookup_insert_eq. intros [= <-]. cbn. rewrite lookup_insert_eq. split_and!; [|done|lia|lia].
      destruct Hok as [_ Hok]. split; [done|exact Hok].
    + rewrite lookup_insert_ne by done. intros Hg. destruct (Hh b g Hg) as (Ho&Hi'&Hr). split_and!; [done| |lia|lia].
      rewrite lookup_insert_ne; [done|]. intros E. congruence.
  - intros b g. cbn. destruct (decide (b = a)) as [->|Hne].
    + rewrite lookup_insert_eq. intros [= <-] Ety. cbn in Ety |- *. rewrite bool_decide_eq_true_2 by done. split; [|done].
      intros _. exact Hl0.
    + rewrite lookup_insert_ne by done. apply Hp.
  - intros t b Hin Hb'. destruct (Ht t b Hin Hb') as (g&Hg&Hgt). exists g. split; [|done]. cbn. rewrite lookup_insert_ne; [done|].
    intros <-. congruence.
  - cbn [msg_idr_process p']. rewrite Hpr. lia.
  - cbn. lia.
Qed.

Definition state_inv (s : msg_state) : Prop := msg_inv (ms_peer s) (ms_run s) [] [] 0.

Lemma start_request_inv s type cmd mk : state_inv s ->
  (let h := mk_head type 0 cmd false 0 None DIdle false false in head_ok h) ->
  (forall a h, mh_type h = type -> mh_wfired h = false -> thread_ok h (mk a)) ->
  (forall a, holds_of (mk a) = [a] /\ base_of (mk a) = [a] /\ in_process (mk a) = 1 /\ fired_of (mk a) = [] /\ head_of (mk a) = Some a) ->
  state_inv (start_request s type cmd mk).
Proof.
  intros Hi Hok Hthr Hmk. unfold start_request, state_inv. pose proof (alloc_inv _ _ type cmd Hi Hok) as Ha.
  destruct (hmdfs_alloc_msg_idr _ _ _) as [[e|a] p']; [by subst p'|]. destruct Ha as (Hi'&h&Hh&Hty&Hwf).
  destruct (Hmk a) as (E1&E2&E3&E4&E5). cbn. apply (give_thread p' (ms_run s) [a] [a] 1 (mk a) Hi').
  - intros b. by rewrite E1.
  - intros b. by rewrite E2.
  - done.
  - rewrite E4. apply (mi_fired _ _ _ _ _ Hi).
  - intros b Hb. rewrite E5 in Hb. injection Hb as <-. exists h. split; [done|by apply Hthr].
Qed.

Lemma recv_inv s an last : state_inv s -> exists s', msg_step s (OpRecv an last) = Some s' /\ state_inv s'.
Proof.
  intros Hi. destruct s as [p run]. unfold state_inv in Hi. cbn [ms_peer ms_run] in Hi. cbn [msg_step]. unfold hmdfs_find_msg_head.
  destruct (pm_idr p !! an_id an) as [a|] eqn:Hid; [|cbn; by eexists]. destruct (mi_idr _ _ _ _ _ Hi _ _ Hid) as (h&Ha&Hhid).
  rewrite Ha. cbn [mbind option_bind]. destruct (mh_cmd h =? an_cmd an) eqn:Hcmd; cbn [mbind option_bind]; [|by eexists]. zb.
  destruct (get_inv _ _ _ _ _ _ _ Hi Ha) as (m&->&Hi1). cbn [mbind option_bind]. eexists. split; [done|]. unfold state_inv. cbn [ms_peer ms_run].
  destruct (mi_head _ _ _ _ _ Hi a h Ha) as ([_ Ho]&_). unfold receiver, answers.
  assert (Hty : (mh_type h = MSG_IDR_PAGE -> an_cmd an = F_READPAGE) /\ (mh_type h = MSG_IDR_MESSAGE_ASYNC -> async_cmd (an_cmd an) = true) /\
    (mh_type h = MSG_IDR_MESSAGE_SYNC -> an_cmd an <> F_READPAGE)).
  { rewrite <- Hcmd. destruct (mh_type h); split_and!; intros; try done; try apply Ho. }
  destruct Hty as (Hpg&Has&Hsy). destruct (an_cmd an =? F_READPAGE) eqn:Erp; [|destruct (an_cmd an =? F_ITERATE) eqn:Eit]; zb.
  - eapply (give_thread _ _ [a] [] 0 (TRespPage a an)); try done; [apply (mi_fired _ _ _ _ _ Hi)|]. intros b [= <-]. exists h.
    split; [done|]. split; [|done]. destruct (mh_type h); [by destruct (Hsy eq_refl)|by specialize (Has eq_refl); rewrite Erp in Has|done].
  - eapply (give_thread _ _ [a] [] 0 (TIter a an last)); try done; [apply (mi_fired _ _ _ _ _ Hi)|]. intros b [= <-]. exists h.
    split; [done|]. cbn. destruct (mh_type h); [done|by specialize (Has eq_refl); rewrite Eit in Has|by specialize (Hpg eq_refl)].
  - eapply (give_thread _ _ [a] [] 0 (TResp a an)); try done; [apply (mi_fired _ _ _ _ _ Hi)|]. intros b [= <-]. exists h.
    split; [done|]. split; [|done]. intros E. by specialize (Hpg E).
Qed.

Lemma fire_inv s a : state_inv s -> early (ms_peer s) a = false -> state_inv (fire s a).
Proof.
  intros Hi He. unfold fire, early in *. destruct (pm_heads (ms_peer s) !! a) as [h|] eqn:Ha; [|done].
  destruct (bool_decide (mh_work h = DIdle)) eqn:Hw; [done|]. apply bool_decide_eq_false in Hw.
  destruct (mi_head _ _ _ _ _ Hi a h Ha) as ([_ Ho]&_).
  assert (Hty : mh_type h <> MSG_IDR_MESSAGE_SYNC) by (intros E; rewrite E in Ho; by destruct Ho as (_&_&?)).
  assert (Hwf : mh_type h = MSG_IDR_MESSAGE_ASYNC -> mh_wfired h = true).
  { intros E. rewrite bool_decide_eq_true_2 in He by done. by destruct (mh_wfired h). }
  destruct (cancel_inv _ _ _ _ _ a h Hi Ha Hty Hwf) as (c&p1&E&Hc). unfold cancel_delayed_work in E. rewrite Ha in E.
  cbn [mbind option_bind] in E. rewrite decide_False in E by done. injection E as <- <-. destruct Hc as (Hi1&Ha1&_).
  apply (give_thread _ _ [a] [a] 0 (TWork a) Hi1); try done; [apply (mi_fired _ _ _ _ _ Hi)|]. intros b [= <-]. eexists. split; [exact Ha1|]. done.
Qed.

Lemma timeout_inv s k : state_inv s -> exists s', msg_step s (OpTimeout k) = Some s' /\ state_inv s'.
Proof.
  intros Hi. destruct s as [p run]. cbn [msg_step]. destruct (run !! k) as [t|] eqn:Hk; [|by eexists].
  destruct t; try by eexists. destruct (take_thread _ _ _ _ Hi Hk) as (Hi1&Hf&Hh). destruct (Hh a eq_refl) as (h&Ha&Hok).
  cbn in Hi1, Hok, Ha. rewrite Ha. cbn [mbind option_bind]. destruct (mh_valid h); [by eexists|].
  destruct (finish_inv _ _ _ _ _ a h (- ETIME) None Hi1 Ha) as (p1&->&Hi2&_); [congruence|done|]. cbn [mbind option_bind].
  put_here Hi2 p2. eexists. split; [done|]. exact Hi0.
Qed.

Lemma msg_step_ok s op : state_inv s -> fires_early s op = false -> exists s', msg_step s op = Some s' /\ state_inv s'.
Proof.
  intros Hi Hearly. destruct op as [cmd|cmd| |an last|k err queued|a|k|marked]; [| | |by apply recv_inv| | |by apply timeout_inv|];
    destruct s as [p run]; cbn [msg_step].
  - eexists. split; [done|]. destruct (_ || _) eqn:E; [done|]. apply orb_false_elim in E as [E1 E2]. zb.
    by apply start_request_inv.
  - eexists. split; [done|]. destruct (async_cmd cmd) eqn:E; [|done]. by apply start_request_inv.
  - eexists. split; [done|]. by apply start_request_inv.
  - destruct (run !! k) as [t|] eqn:Hk; [|by eexists]. destruct (take_thread _ _ _ _ Hi Hk) as (Hi1&Hf&Hh).
    destruct (thread_done p (delete k run) t err queued) as (p1&next&->&Hi2); [by split|]. cbn [mbind option_bind]. by eexists.
  - eexists. split; [done|]. by apply fire_inv.
  - eexists. split; [done|]. destruct (existsb _ _); [done|]. unfold state_inv in *. cbn [ms_peer ms_run] in *.
    eapply (give_thread _ _ [] [] 0 (TOffWait marked)); try done; [destruct marked; [by apply set_offline_inv|exact Hi]|].
    apply (mi_fired _ _ _ _ _ Hi).
Qed.

Lemma msg_start_inv : state_inv msg_start.
Proof.
  split; try done.
  all: try apply NoDup_nil_2; try (intros a; cbn; split; intros [? E]; discriminate E); try (intros ? ? Hr; by apply not_elem_of_nil in Hr); try (intros ? Hr; by apply not_elem_of_nil in Hr).
  intros a. cbn. destruct (0 <=? a) eqn:E1, (a <? 0) eqn:E2; zb; try done; lia.
Qed.

Lemma msg_run_ok ops : forall s, state_inv s -> timers_in_time s ops = true -> exists s', msg_run s ops = Some s' /\ state_inv s'.
Proof.
  induction ops as [|op ops IH]; intros s Hi Ht; [by exists s|]. cbn [msg_run timers_in_time] in *.
  apply andb_prop in Ht as [Hop%negb_true_iff Ht].
  destruct (msg_step_ok s op Hi Hop) as (s1&E&Hi1). rewrite E in Ht |- *. cbn [mbind option_bind]. by apply IH.
Qed.

(** * Going offline *)

(** A head that waits for nothing but the threads that run. *)
Definition released (h : msg_head) : Prop :=
  match mh_type h with MSG_IDR_MESSAGE_SYNC => mh_valid h = true | _ => mh_work h <> DTimer end.

(** The sender of an asynchronous request is past setting wfired. *)
Definition launched (h : msg_head) : Prop := mh_type h = MSG_IDR_MESSAGE_ASYNC -> mh_wfired h = true.

(** Heads are only released or freed, and requests are not held back any less. *)
Definition msgs_evolve (p p' : peer_msgs) : Prop :=
  offline_start p' = offline_start p /\
  forall a h', pm_heads p' !! a = Some h' ->
    exists h, pm_heads p !! a = Some h /\ mh_id h' = mh_id h /\ (released h -> released h') /\ mh_type h' = mh_type h /\ mh_wfired h' = mh_wfired h.

Lemma evolves_heads p p' : pm_heads p' = pm_heads p -> offline_start p' = offline_start p -> msgs_evolve p p'.
Proof. intros E ?. split; [done|]. intros a h Hh. rewrite E in Hh. by exists h. Qed.

Lemma evolves_same p : msgs_evolve p p.
Proof. by apply evolves_heads. Qed.

Lemma evolves_chain p q r : msgs_evolve p q -> msgs_evolve q r -> msgs_evolve p r.
Proof.
  intros [E1 H1] [E2 H2]. split; [congruence|]. intros a h Hh. destruct (H2 a h Hh) as (g&Hg&Eg&Rg&Tg&Wg).
  destruct (H1 a g Hg) as (f&Hf&Ef&Rf&Tf&Wf). exists f. split_and!; [done|congruence|auto|congruence..].
Qed.

Lemma evolves_get p a p' : head_get p a = Some p' -> msgs_evolve p p'.
Proof. unfold head_get. destruct (inc_ref _ _); intros [= <-]. by apply evolves_heads. Qed.

Lemma evolves_put p a p' : head_put p a = Some p' -> msgs_evolve p p'.
Proof.
  unfold head_put. destruct (pm_heads p !! a) as [h|]; [|done]. cbn. destruct (dec_ref _ _) as [m|]; [|done]. intros [= <-].
  destruct (m !! a); split; try done; intros b g Hg; cbn in Hg; [by exists g|]. apply lookup_delete_Some in Hg as [_ Hg]. by exists g.
Qed.

Lemma evolves_finish p a ret buf p' : finish p a ret buf = Some p' -> msgs_evolve p p'.
Proof. unfold finish. destruct (pm_heads p !! a); [|done]. intros [= <-]. by apply evolves_heads. Qed.

Lemma evolves_upd p a f p' : upd_head p a f = Some p' ->
  (forall h, pm_heads p !! a = Some h -> mh_id (f h) = mh_id h /\ (released h -> released (f h)) /\ mh_type (f h) = mh_type h /\ mh_wfired (f h) = mh_wfired h) -> msgs_evolve p p'.
Proof.
  unfold upd_head. destruct (pm_heads p !! a) as [h|] eqn:Ha; [|done]. intros [= <-] Hf. split; [done|].
  intros b g Hg. cbn in Hg. apply lookup_insert_Some in Hg as [[<- <-]|[_ Hg]]; [|by exists g]. destruct (Hf h eq_refl) as (?&?&?&?). by exists h.
Qed.

Lemma evolves_cancel p a c p' : cancel_delayed_work p a = Some (c, p') -> msgs_evolve p p'.
Proof.
  unfold cancel_delayed_work. destruct (pm_heads p !! a) as [h|] eqn:Ha; [|done]. cbn. destruct (decide _); intros [= <- <-]; [apply evolves_same|].
  split; [done|]. intros b g Hg. cbn in Hg. apply lookup_insert_Some in Hg as [[<- <-]|[_ Hg]]; [|by exists g]. exists h. split_and!; try done;
  unfold released; cbn; by destruct (mh_type h).
Qed.

Lemma evolves_dec p : msgs_evolve p (hmdfs_dec_msg_idr_process p).
Proof. by apply evolves_heads. Qed.

Lemma evolves_wakeup p a ret buf p' : hmdfs_response_wakeup p a ret buf = Some p' -> msgs_evolve p p'.
Proof. intros E. eapply evolves_upd; [exact E|]. intros h _. split_and!; try done; unfold released; cbn; by destruct (mh_type h). Qed.

Lemma evolves_done p a ret buf p' : asw_done p a ret buf = Some p' -> msgs_evolve p p'.
Proof.
  unfold asw_done, unlock_page. destruct (pm_heads p !! a) as [h|]; [|done]. cbn. destruct (mh_page h); [|done].
  destruct (upd_head p a _) as [p1|] eqn:E1; [|done]. cbn. destruct (finish p1 _ _ _) as [p2|] eqn:E2; [|done]. cbn. intros E3.
  apply (evolves_chain _ p1); [|apply (evolves_chain _ p2); [by eapply evolves_finish|by eapply evolves_put]].
  eapply evolves_upd; [exact E1|]. intros g _. split_and!; try done; unfold released; cbn; by destruct (mh_type g).
Qed.

Lemma evolves_work p a p' : work_fn p a = Some p' -> msgs_evolve p p'.
Proof.
  unfold work_fn. destruct (pm_heads p !! a) as [h|]; [|done]. cbn. destruct (mh_type h); [done| |by apply evolves_done].
  destruct (finish _ _ _ _) as [p1|] eqn:E1; [|done]. cbn. intros E2. eapply evolves_chain; [by eapply evolves_finish|by eapply evolves_put].
Qed.

(** Inverts a step that is a chain of operations. *)
Ltac chain Hs :=
  repeat (match type of Hs with
          | context [pm_heads ?p !! ?a] => let h := fresh "h" in let E := fresh "E" in
              destruct (pm_heads p !! a) as [h|] eqn:E; cbn in Hs; [|done]
          | context [idr_first ?m ?i] => destruct (idr_first m i) as [[? ?]|] eqn:?; cbn in Hs
          | context [match mh_type ?h with _ => _ end] => destruct (mh_type h) eqn:?; cbn in Hs; try done
          | context [if mh_valid ?h then _ else _] => destruct (mh_valid h) eqn:?; cbn in Hs; try done
          | context [if ?b then _ else _] => destruct b eqn:?; cbn in Hs; try done
          | mbind _ ?o = Some _ => let E := fresh "E" in destruct o as [?|] eqn:E; cbn in Hs; [|done]
          | (let (_, _) := ?x in _) = Some _ => destruct x; cbn in Hs
          end); simplify_eq.

Ltac evolve :=
  solve [repeat (first [apply evolves_same | apply evolves_dec | by eapply evolves_get | by eapply evolves_put | by eapply evolves_finish
    | by eapply evolves_cancel | by eapply evolves_wakeup | by eapply evolves_done | by eapply evolves_work
    | match goal with E : upd_head ?p _ _ = Some ?q |- msgs_evolve ?p ?q => eapply evolves_upd; [exact E|]; intros g _; split_and!; try done;
        unfold released; cbn; by destruct (mh_type g) end
    | match goal with E : _ ?p _ = Some ?q |- msgs_evolve ?p _ => apply (evolves_chain p q) end
    | match goal with E : _ ?p _ _ = Some ?q |- msgs_evolve ?p _ => apply (evolves_chain p q) end
    | match goal with E : _ ?p _ _ _ = Some ?q |- msgs_evolve ?p _ => apply (evolves_chain p q) end
    | match goal with E : _ ?p _ = Some (_, ?q) |- msgs_evolve ?p _ => apply (evolves_chain p q) end ])].

Lemma recv_evolves p t err p' next : recv_step p t err = Some (p', next) -> msgs_evolve p p'.
Proof. intros Hs. destruct t; cbn in Hs; try (injection Hs as <- <-; apply evolves_same); chain Hs; try evolve. Qed.

Lemma thread_evolves p t err queued p' next : thread_step p t err queued = Some (p', next) -> in_process t = 0 ->
  (forall id, t <> TOff id true) -> msgs_evolve p p'.
Proof.
  intros Hs Hin Hoff. destruct t; try discriminate Hin; cbn [thread_step send_step sync_step off_step] in Hs;
    try (by eapply recv_evolves); try solve [injection Hs as <- <-; apply evolves_same].
  - chain Hs; [|apply evolves_same]. eapply evolves_chain; [by eapply evolves_finish|]. eapply evolves_chain; [|by eapply evolves_put].
    eapply evolves_upd; [done|]. intros g _. split_and!; try done; unfold released; cbn; by destruct (mh_type g).
  - chain Hs. by eapply evolves_work.
  - destruct marked; [by destruct (Hoff id)|]. chain Hs; [by eapply evolves_get|apply evolves_same].
  - chain Hs; try evolve.
  - chain Hs; try evolve.
Qed.

(** Nobody starts to send. *)
Lemma thread_in_process p t err queued p' next : thread_step p t err queued = Some (p', next) -> in_process t = 0 ->
  forall t', t' ∈ next -> in_process t' = 0.
Proof.
  intros Hs Hin t' Ht'. destruct t; try discriminate Hin; cbn in Hs; chain Hs; try (by apply not_elem_of_nil in Ht');
    try (apply list_elem_of_singleton in Ht' as ->; done).
Qed.

(** What the offline handler has walked past is released, and nobody sends. *)
Definition released_below (p : peer_msgs) (id : Z) : Prop :=
  offline_start p = true /\ msg_idr_process p = 0 /\ forall a h, pm_heads p !! a = Some h -> mh_id h < id -> released h.

Definition off_ok (p : peer_msgs) (t : thread) : Prop :=
  match t with
  | TOffWait true => offline_start p = true
  | TOff id true => released_below p id
  | TOffHead a id true | TOffWork a id true => released_below p id /\ forall h, pm_heads p !! a = Some h -> mh_id h = id
  | _ => True
  end.

Record off_inv (s : msg_state) : Prop := {
  oi_thread t : t ∈ ms_run s -> off_ok (ms_peer s) t;
  oi_one : cnt 1 (map (fun t => if is_off t then 1 else 0) (ms_run s)) <= 1;
  oi_ids a h : pm_heads (ms_peer s) !! a = Some h -> 1 <= mh_id h
}.

Lemma below_evolves p p' id : msgs_evolve p p' -> msg_idr_process p' = msg_idr_process p -> released_below p id -> released_below p' id.
Proof.
  intros [E1 H1] E2 (Hof&Hpr&Hb). split_and!; [congruence..|]. intros a h Hh Hid. destruct (H1 a h Hh) as (g&Hg&Eg&Rg&_).
  apply Rg, (Hb a g Hg). lia.
Qed.

Lemma off_ok_evolves p p' t : msgs_evolve p p' -> msg_idr_process p' = msg_idr_process p -> off_ok p t -> off_ok p' t.
Proof.
  intros He E2. pose proof He as [E1 H1]. destruct t as [| | | | | | | | | | | | | |[]|id []|a id []|a id []]; cbn; try done.
  - congruence.
  - by apply below_evolves.
  - intros [Hb Hid]. split; [by eapply below_evolves|]. intros h Hh. destruct (H1 a h Hh) as (g&Hg&Eg&_). rewrite Eg. by apply Hid.
  - intros [Hb Hid]. split; [by eapply below_evolves|]. intros h Hh. destruct (H1 a h Hh) as (g&Hg&Eg&_). rewrite Eg. by apply Hid.
Qed.

(** The head the handler has dealt with is released. *)
Lemma below_next p p' a id : released_below p id -> msgs_evolve p p' -> msg_idr_process p' = msg_idr_process p ->
  (forall b h, pm_heads p !! b = Some h -> mh_id h = id -> b = a) ->
  (forall h, pm_heads p' !! a = Some h -> released h) -> released_below p' (id + 1).
Proof.
  intros Hb He E2 Hinj Hrel. destruct (below_evolves _ _ _ He E2 Hb) as (Hof&Hpr&Hb'). split_and!; [done..|].
  intros b h Hh Hlt. destruct (Z_lt_le_dec (mh_id h) id); [by eapply Hb'|]. destruct He as [_ H1]. destruct (H1 b h Hh) as (g&Hg&Eg&_).
  assert (b = a) as -> by (apply (Hinj b g Hg); lia). by apply Hrel.
Qed.

(** Ids and types stay, wfired except for the head [x], and requests are held back as before. *)
Definition tracks (x : option Z) (p p' : peer_msgs) : Prop :=
  offline_start p' = offline_start p /\
  forall a h', pm_heads p' !! a = Some h' ->
    exists h, pm_heads p !! a = Some h /\ mh_id h' = mh_id h /\ mh_type h' = mh_type h /\ (x <> Some a -> mh_wfired h' = mh_wfired h).

Lemma evolves_tracks x p p' : msgs_evolve p p' -> tracks x p p'.
Proof. intros [E He]. split; [done|]. intros a h Hh. destruct (He a h Hh) as (g&?&?&_&?&?). by exists g. Qed.

Lemma tracks_trans x p q r : tracks x p q -> tracks x q r -> tracks x p r.
Proof.
  intros [E1 H1] [E2 H2]. split; [congruence|]. intros a h Hh. destruct (H2 a h Hh) as (g&Hg&Eg&Tg&Wg).
  destruct (H1 a g Hg) as (f&Hf&Ef&Tf&Wf). exists f. split_and!; [done|congruence..|]. intros Hx. rewrite Wg by done. by apply Wf.
Qed.

Lemma tracks_upd x p a f p' : upd_head p a f = Some p' ->
  (forall h, mh_id (f h) = mh_id h /\ mh_type (f h) = mh_type h /\ (x <> Some a -> mh_wfired (f h) = mh_wfired h)) -> tracks x p p'.
Proof.
  unfold upd_head. destruct (pm_heads p !! a) as [h|] eqn:Ha; [|done]. intros [= <-] Hf. split; [done|].
  intros b g Hg. cbn in Hg. apply lookup_insert_Some in Hg as [[<- <-]|[_ Hg]]; [exists h|by exists g].
  destruct (Hf h) as (?&?&?). by split_and!.
Qed.

Definition sets_wfired (t : thread) : option Z := match t with TFired a => Some a | _ => None end.

Lemma send_tracks p t err queued p' next : send_step p t err queued = Some (p', next) -> tracks (sets_wfired t) p p'.
Proof.
  assert (Hdec : forall x p, tracks x p (hmdfs_dec_msg_idr_process p)) by (intros x q; by apply evolves_tracks, evolves_dec).
  assert (Hrefl : forall x p, tracks x p p) by (intros x q; by apply evolves_tracks, evolves_same).
  intros Hs. destruct t; cbn in Hs; try (by simplify_eq); chain Hs; try done;
    repeat first [done
      | match goal with E : upd_head ?p _ _ = Some ?q |- tracks _ ?p ?q => by eapply tracks_upd end
      | match goal with E : upd_head ?p _ _ = Some ?q |- tracks _ ?p _ => apply (tracks_trans _ p q) end
      | match goal with E : finish ?p _ _ _ = Some ?q |- tracks _ ?p _ => apply (tracks_trans _ p q); [by eapply evolves_tracks, evolves_finish|] end
      | match goal with E : head_put ?p _ = Some ?q |- tracks _ ?p _ => apply (tracks_trans _ p q); [by eapply evolves_tracks, evolves_put|] end
      | match goal with E : head_get ?p _ = Some ?q |- tracks _ ?p _ => apply (tracks_trans _ p q); [by eapply evolves_tracks, evolves_get|] end
      | match goal with E : asw_done ?p _ _ _ = Some ?q |- tracks _ ?p _ => apply (tracks_trans _ p q); [by eapply evolves_tracks, evolves_done|] end
      | match goal with E : cancel_delayed_work ?p _ = Some (_, ?q) |- tracks _ ?p _ => apply (tracks_trans _ p q); [by eapply evolves_tracks, evolves_cancel|] end
      | fail ].
Qed.

Lemma in_process_range t : 0 <= in_process t <= 1.
Proof. destruct t; cbn; lia. Qed.

Definition senders (run : list thread) : Z := foldr (fun t n => in_process t + n) 0 run.

Lemma senders_nonneg run : 0 <= senders run.
Proof. induction run as [|t run IH]; cbn [senders foldr]; [done|]. fold (senders run). pose proof (in_process_range t). lia. Qed.

Lemma senders_app l l' : senders (l ++ l') = senders l + senders l'.
Proof. induction l as [|t l IH]; [done|]. cbn [senders foldr app]. fold (senders l) (senders (l ++ l')). lia. Qed.

Lemma senders_none l : (forall t, t ∈ l -> in_process t = 0) -> senders l = 0.
Proof.
  induction l as [|t l IH]; intros Hl; [done|]. cbn [senders foldr]. fold (senders l). rewrite IH by (intros ? ?; apply Hl; by right).
  rewrite (Hl t) by by left. done.
Qed.

Lemma senders_delete run k t : run !! k = Some t -> senders run = in_process t + senders (delete k run).
Proof. apply proc_delete. Qed.

Lemma process_senders s : state_inv s -> msg_idr_process (ms_peer s) = senders (ms_run s).
Proof. intros Hi. rewrite (mi_proc _ _ _ _ _ Hi). unfold senders. lia. Qed.

Lemma thread_next_off p t err queued p' next : thread_step p t err queued = Some (p', next) -> is_off t = false ->
  forall t', t' ∈ next -> is_off t' = false.
Proof.
  intros Hs Hoff t' Ht'. destruct t; try discriminate Hoff; cbn in Hs; chain Hs; try (by apply not_elem_of_nil in Ht');
    try (apply list_elem_of_singleton in Ht' as ->; done).
Qed.

Lemma cnt_off_none l : (forall t, t ∈ l -> is_off t = false) -> cnt 1 (map (fun t => if is_off t then 1 else 0) l) = 0.
Proof.
  induction l as [|t l IH]; intros Hl; [done|]. cbn [map]. rewrite cnt_cons, (Hl t) by by left. rewrite IH by (intros ? ?; apply Hl; by right). done.
Qed.

Lemma only_off s k t : off_inv s -> ms_run s !! k = Some t -> is_off t = true -> forall t', t' ∈ delete k (ms_run s) -> is_off t' = false.
Proof.
  intros Ho Hk Ht t' Hin. pose proof (oi_one _ Ho) as H1.
  assert (Hperm : map (fun t => if is_off t then 1 else 0) (ms_run s) ≡ₚ (if is_off t then 1 else 0) :: map (fun t => if is_off t then 1 else 0) (delete k (ms_run s))).
  { change ((if is_off t then 1 else 0) :: map (fun t => if is_off t then 1 else 0) (delete k (ms_run s)))
      with (map (fun t => if is_off t then 1 else 0) (t :: delete k (ms_run s))). apply Permutation_map. by apply list.delete_Permutation. }
  rewrite (cnt_perm 1 _ _ Hperm), cnt_cons, Ht, decide_True in H1 by done. destruct (is_off t') eqn:E; [|done].
  assert (0 < cnt 1 (map (fun t => if is_off t then 1 else 0) (delete k (ms_run s)))); [|lia].
  apply cnt_pos, list_elem_of_fmap. exists t'. by rewrite E.
Qed.

(** Another thread goes on. *)
Lemma others_go s k t err queued p' next : state_inv s -> off_inv s -> ms_run s !! k = Some t -> is_off t = false ->
  thread_step (ms_peer s) t err queued = Some (p', next) -> state_inv (mk_mst p' (next ++ delete k (ms_run s))) ->
  off_inv (mk_mst p' (next ++ delete k (ms_run s))).
Proof.
  intros Hi Ho Hk Hoff Hs Hi'. pose proof (process_senders _ Hi) as Hp. pose proof (process_senders _ Hi') as Hp'. cbn [ms_peer ms_run] in Hp'.
  rewrite senders_app in Hp'. rewrite (senders_delete _ _ _ Hk) in Hp.
  pose proof (thread_next_off _ _ _ _ _ _ Hs Hoff) as Hno.
  assert (Htr : tracks (sets_wfired t) (ms_peer s) p').
  { destruct (Z.eq_dec (in_process t) 0) as [E|E].
    - apply evolves_tracks. eapply thread_evolves; [exact Hs|done|]. intros id ->. discriminate Hoff.
    - destruct t; cbn in E; try lia; cbn [thread_step] in Hs; by eapply send_tracks. }
  split; cbn [ms_peer ms_run].
  - intros t' [Hin|Hin]%elem_of_app; [specialize (Hno _ Hin); destruct t'; (exact I || discriminate Hno)|].
    pose proof (oi_thread _ Ho t') as Hok. assert (Hin' : t' ∈ ms_run s) by (rewrite (list.delete_Permutation _ _ _ Hk); by right).
    specialize (Hok Hin'). pose proof (senders_nonneg (delete k (ms_run s))). pose proof (in_process_range t).
    destruct (Z.eq_dec (in_process t) 0) as [E|E].
    + rewrite (senders_none next) in Hp' by (by eapply thread_in_process). apply (off_ok_evolves (ms_peer s) p'); [|lia|done].
      eapply thread_evolves; [exact Hs|done|]. intros id ->. discriminate Hoff.
    + destruct Htr as [Et _]. destruct t' as [| | | | | | | | | | | | | |[]|id []|a id []|a id []]; cbn in Hok |- *; try done; [congruence|..];
        unfold released_below in Hok; exfalso; intuition lia.
  - rewrite map_app, cnt_app, (cnt_off_none next) by done. pose proof (oi_one _ Ho) as H1.
    assert (cnt 1 (map (fun t => if is_off t then 1 else 0) (delete k (ms_run s))) <= cnt 1 (map (fun t => if is_off t then 1 else 0) (ms_run s))); [|lia].
    rewrite (cnt_perm 1 _ _ (Permutation_map _ (list.delete_Permutation _ _ _ Hk))). cbn [map]. rewrite cnt_cons. destruct (decide _); lia.
  - intros a h Hh. destruct Htr as [_ H1]. destruct (H1 a h Hh) as (g&Hg&->&_). by apply (oi_ids _ Ho a).
Qed.

(** The handler has dealt with the head: it is released afterwards. *)
Lemma off_head_released p a id marked p' next : off_step p (TOffHead a id marked) = Some (p', next) ->
  (next = [TOff (id + 1) marked] /\ forall h, pm_heads p' !! a = Some h -> released h) \/
  next = [TOffWork a id marked] \/ next = [TOffHead a id marked] /\ p' = p.
Proof.
  assert (Hput : forall q q' (h : msg_head), pm_heads q !! a = Some h -> released h -> head_put q a = Some q' ->
    forall g, pm_heads q' !! a = Some g -> released g).
  { intros q q' h Hq Hrel E g Hg. destruct (evolves_put _ _ _ E) as [_ He]. destruct (He a g Hg) as (f&Hf&_&Hr&_).
    apply Hr. congruence. }
  intros Hs. cbn in Hs. destruct (pm_heads p !! a) as [h|] eqn:Ha; cbn in Hs; [|done].
  assert (Hc : forall (c : bool) q, mh_type h <> MSG_IDR_MESSAGE_SYNC -> cancel_delayed_work p a = Some (c, q) -> c = false ->
    pm_heads q !! a = Some h /\ released h).
  { intros c q Hty E ->. unfold cancel_delayed_work in E. rewrite Ha in E. cbn in E. destruct (decide _) as [Hw|]; [|done]. injection E as <-.
    split; [done|]. unfold released. destruct (mh_type h); [done|rewrite Hw; done..]. }
  destruct (mh_type h) eqn:Ety.
  - destruct (hmdfs_response_wakeup _ _ _ _) as [p1|] eqn:E1; cbn in Hs; [|done]. destruct (head_put p1 a) as [p2|] eqn:E2; cbn in Hs; [|done].
    simplify_eq. left. split; [done|]. unfold hmdfs_response_wakeup, upd_head in E1. rewrite Ha in E1. injection E1 as <-.
    refine (Hput _ _ (set_result h true (- ETIME) None) _ _ E2); [apply lookup_insert_eq|]. unfold released. cbn. by rewrite Ety.
  - destruct (_ && _); [simplify_eq; auto|]. destruct (cancel_delayed_work p a) as [[c p1]|] eqn:E1; cbn in Hs; [|done].
    destruct c; [simplify_eq; auto|]. destruct (head_put p1 a) as [p2|] eqn:E2; cbn in Hs; [|done]. simplify_eq. left. split; [done|].
    destruct (Hc false p1 ltac:(done) eq_refl eq_refl) as [Hp1 Hr]. eapply Hput; [exact Hp1|exact Hr|exact E2].
  - destruct (_ && _); [simplify_eq; auto|]. destruct (cancel_delayed_work p a) as [[c p1]|] eqn:E1; cbn in Hs; [|done].
    destruct c; [simplify_eq; auto|]. destruct (head_put p1 a) as [p2|] eqn:E2; cbn in Hs; [|done]. simplify_eq. left. split; [done|].
    destruct (Hc false p1 ltac:(done) eq_refl eq_refl) as [Hp1 Hr]. eapply Hput; [exact Hp1|exact Hr|exact E2].
Qed.

(** A request that somebody is to end has no work waiting. *)
Lemma in_charge_released p run hand base proc a h : msg_inv p run hand (a :: base) proc -> pm_heads p !! a = Some h ->
  mh_type h <> MSG_IDR_MESSAGE_SYNC -> released h.
Proof.
  intros Hi Ha Hty. destruct (base_once _ _ _ _ _ _ Hi) as (_&_&Hp&_). rewrite (pend_of _ _ _ Ha) in Hp. unfold released.
  destruct (decide (mh_work h = DIdle)) as [Hw|]; [|lia]. rewrite Hw. by destruct (mh_type h).
Qed.

Lemma same_id_same_head s a b h g : state_inv s -> pm_heads (ms_peer s) !! a = Some h -> pm_heads (ms_peer s) !! b = Some g ->
  mh_id h = mh_id g -> a = b.
Proof.
  intros Hi Ha Hb E. destruct (mi_head _ _ _ _ _ Hi _ _ Ha) as (_&E1&_), (mi_head _ _ _ _ _ Hi _ _ Hb) as (_&E2&_). congruence.
Qed.

(** The offline handler goes on. *)
Lemma off_next_ok s k t p' next : state_inv s -> off_inv s -> ms_run s !! k = Some t -> is_off t = true ->
  off_step (ms_peer s) t = Some (p', next) -> state_inv (mk_mst p' (next ++ delete k (ms_run s))) ->
  forall t', t' ∈ next -> off_ok p' t'.
Proof.
  intros Hi Ho Hk Ht Hs Hi'. pose proof (oi_thread _ Ho t (list_elem_of_lookup_2 _ _ _ Hk)) as Hok.
  pose proof (process_senders _ Hi) as Hp. rewrite (senders_delete _ _ _ Hk) in Hp. pose proof (process_senders _ Hi') as Hp'. cbn [ms_peer ms_run] in Hp'.
  rewrite senders_app in Hp'. rewrite (senders_none next) in Hp'.
  2: { intros t' Ht'. eapply (thread_in_process (ms_peer s) t 0 true); [|by destruct t|exact Ht']. by destruct t. }
  assert (Hpr : msg_idr_process p' = msg_idr_process (ms_peer s)) by (destruct t; try discriminate Ht; cbn [in_process] in Hp; lia).
  intros t' Ht'. destruct t as [| | | | | | | | | | | | | |[]|id []|a id []|a id []]; try discriminate Ht; cbn in Hok.
  - cbn in Hs. simplify_eq. apply list_elem_of_singleton in Ht' as ->. destruct (_ =? 0) eqn:E; zb; [|done].
    split_and!; [done|done|]. intros a h Hh Hid. pose proof (oi_ids _ Ho a h Hh). lia.
  - cbn in Hs. simplify_eq. apply list_elem_of_singleton in Ht' as ->. by destruct (_ =? 0).
  - cbn in Hs. pose proof (idr_first_spec (pm_idr (ms_peer s)) id) as Hspec. destruct (idr_first _ _) as [[i a]|]; cbn in Hs.
    + destruct (head_get _ _) as [p1|] eqn:E; cbn in Hs; [|done]. simplify_eq. apply list_elem_of_singleton in Ht' as ->.
      pose proof (evolves_get _ _ _ E) as He. destruct Hspec as (Hia&Hle&Hgap). destruct (mi_idr _ _ _ _ _ Hi _ _ Hia) as (h&Hh&Hhid).
      apply (off_ok_evolves (ms_peer s) p' (TOffHead a i true) He Hpr). cbn. split; [|intros g Hg; congruence].
      destruct Hok as (Hof&Hp0&Hb). split_and!; [done..|]. intros b g Hg Hlt. destruct (Z_lt_le_dec (mh_id g) id); [by eapply Hb|].
      destruct (mi_head _ _ _ _ _ Hi b g Hg) as (_&Hgi&_). rewrite (Hgap (mh_id g)) in Hgi by lia. done.
    + simplify_eq. by apply not_elem_of_nil in Ht'.
  - cbn in Hs. destruct (idr_first _ _) as [[i a]|]; cbn in Hs; [|simplify_eq; by apply not_elem_of_nil in Ht'].
    destruct (head_get _ _); cbn in Hs; [|done]. simplify_eq. by apply list_elem_of_singleton in Ht' as ->.
  - assert (He : msgs_evolve (ms_peer s) p') by (eapply (thread_evolves _ (TOffHead a id true) 0 true); [exact Hs|done|done]).
    destruct Hok as [Hb Hid]. destruct (off_head_released _ _ _ _ _ _ Hs) as [[-> Hrel]|[->|[-> ->]]]; apply list_elem_of_singleton in Ht' as ->.
    + apply (below_next (ms_peer s) p' a id Hb He Hpr); [|exact Hrel]. intros b g Hg Hgid.
      destruct (rd_head _ _ _ (ready_at s k _ Hi Hk) a eq_refl) as (h&Hh&_). eapply same_id_same_head; [exact Hi|exact Hg|exact Hh|].
      by rewrite (Hid h Hh).
    + by apply (off_ok_evolves (ms_peer s) p' (TOffWork a id true) He Hpr).
    + done.
  - destruct (off_head_released _ _ _ _ _ _ Hs) as [[-> Hrel]|[->|[-> ->]]]; apply list_elem_of_singleton in Ht' as ->; done.
  - assert (He : msgs_evolve (ms_peer s) p') by (eapply (thread_evolves _ (TOffWork a id true) 0 true); [exact Hs|done|done]).
    destruct Hok as [Hb Hid]. cbn in Hs. destruct (work_fn _ _) as [p1|] eqn:E1; cbn in Hs; [|done]. destruct (head_put p1 a) as [p2|]; cbn in Hs; [|done].
    simplify_eq. apply list_elem_of_singleton in Ht' as ->. destruct (take_thread _ _ _ _ Hi Hk) as (Hi1&_&Hh).
    destruct (Hh a eq_refl) as (h&Ha&Hty&_). apply (below_next (ms_peer s) p' a id Hb He Hpr).
    + intros b g Hg Hgid. eapply same_id_same_head; [exact Hi|exact Hg|exact Ha|]. by rewrite (Hid h Ha).
    + intros g Hg. destruct He as [_ He]. destruct (He a g Hg) as (h'&Hh'&_&Hr&_). apply Hr. assert (h' = h) as -> by congruence.
      by eapply in_charge_released.
  - cbn in Hs. destruct (work_fn _ _) as [p1|] eqn:E1; cbn in Hs; [|done]. destruct (head_put p1 a) as [p2|]; cbn in Hs; [|done].
    simplify_eq. by apply list_elem_of_singleton in Ht' as ->.
Qed.

Lemma off_ok_other p t : is_off t = false -> off_ok p t.
Proof. by destruct t. Qed.

Lemma off_goes s k t err queued p' next : state_inv s -> off_inv s -> ms_run s !! k = Some t -> is_off t = true ->
  thread_step (ms_peer s) t err queued = Some (p', next) -> state_inv (mk_mst p' (next ++ delete k (ms_run s))) ->
  off_inv (mk_mst p' (next ++ delete k (ms_run s))).
Proof.
  intros Hi Ho Hk Hoff Ht Hi'. assert (Hst : off_step (ms_peer s) t = Some (p', next)) by (destruct t; first [discriminate Hoff|exact Ht]).
  pose proof (off_next_ok s k t p' next Hi Ho Hk Hoff Hst Hi') as Hnext.
  pose proof (only_off s k t Ho Hk Hoff) as Hothers. split; cbn [ms_peer ms_run].
  - intros t' [Hin|Hin]%elem_of_app; [by apply Hnext|]. by apply off_ok_other, Hothers.
  - rewrite map_app, cnt_app, (cnt_off_none (delete k (ms_run s))) by done.
    assert (Hlen : next = [] \/ exists t', next = [t']) by (destruct t; try discriminate Hoff; cbn in Hst; chain Hst; eauto).
    destruct Hlen as [->|[t' ->]]; cbn [map]; [done|]. rewrite cnt_cons. change (cnt 1 []) with 0. destruct (decide _); lia.
  - intros a h Hh.
    assert (Htr : exists g, pm_heads (ms_peer s) !! a = Some g /\ mh_id h = mh_id g).
    { assert (Hc : (exists id, t = TOff id true) \/ forall id, t <> TOff id true) by (destruct t as [| | | | | | | | | | | | | | |? []| |]; eauto; right; congruence).
      destruct Hc as [[id ->]|Hne].
      - cbn in Hst. chain Hst; [|by eauto]. destruct (evolves_get _ _ _ E) as [_ He]. destruct (He a h Hh) as (g'&?&?&_). by exists g'.
      - destruct (thread_evolves _ t err queued p' next Ht) as [_ He]; [by destruct t|done|].
        destruct (He a h Hh) as (g&?&?&_). by exists g. }
    destruct Htr as (g&Hg&->). by apply (oi_ids _ Ho a).
Qed.

Lemma off_cons s p' t : off_inv s -> is_off t = false -> msgs_evolve (ms_peer s) p' -> msg_idr_process p' = msg_idr_process (ms_peer s) ->
  off_inv (mk_mst p' (t :: ms_run s)).
Proof.
  intros Ho Ht He Hp. split; cbn [ms_peer ms_run].
  - intros t' [->|Hin]%elem_of_cons; [by apply off_ok_other|]. apply (off_ok_evolves _ _ _ He Hp). by apply (oi_thread _ Ho).
  - cbn [map]. rewrite Ht. apply (oi_one _ Ho).
  - intros a h Hh. destruct He as [_ He]. destruct (He a h Hh) as (g&Hg&->&_). by apply (oi_ids _ Ho a).
Qed.

Lemma off_stays s p' : off_inv s -> msgs_evolve (ms_peer s) p' -> msg_idr_process p' = msg_idr_process (ms_peer s) -> off_inv (mk_mst p' (ms_run s)).
Proof.
  intros Ho He Hp. split; cbn [ms_peer ms_run]; [|apply (oi_one _ Ho)|].
  - intros t Hin. apply (off_ok_evolves _ _ _ He Hp). by apply (oi_thread _ Ho).
  - intros a h Hh. destruct He as [_ He]. destruct (He a h Hh) as (g&Hg&->&_). by apply (oi_ids _ Ho a).
Qed.

Lemma off_delete s k t : off_inv s -> ms_run s !! k = Some t -> is_off t = false -> off_inv (mk_mst (ms_peer s) (delete k (ms_run s))).
Proof.
  intros Ho Hk Ht. pose proof (list.delete_Permutation _ _ _ Hk) as Hperm. split; cbn [ms_peer ms_run]; [| |apply (oi_ids _ Ho)].
  - intros t' Hin. apply (oi_thread _ Ho). rewrite Hperm. by right.
  - pose proof (oi_one _ Ho) as H1. rewrite (cnt_perm 1 _ _ (Permutation_map _ Hperm)) in H1. cbn [map] in H1. by rewrite Ht in H1.
Qed.

Lemma off_start s type cmd mk : off_inv s -> (forall a, is_off (mk a) = false) -> off_inv (start_request s type cmd mk).
Proof.
  intros Ho Hmk. unfold start_request, hmdfs_alloc_msg_idr. destruct (offline_start (ms_peer s)) eqn:Hof; [by destruct s|].
  destruct (idr_alloc_cyclic _ _ _) as [e|id] eqn:Hid; [by destruct s|]. apply idr_found in Hid as [Hid _]. split; cbn [ms_peer ms_run].
  - intros t [->|Hin]%elem_of_cons; [by apply off_ok_other|]. pose proof (oi_thread _ Ho t Hin) as Hok.
    destruct t as [| | | | | | | | | | | | | |[]|i []|a i []|a i []]; cbn in Hok |- *; try done; unfold released_below in Hok; intuition congruence.
  - cbn [map]. rewrite Hmk. apply (oi_one _ Ho).
  - intros a h Hh. cbn in Hh. apply lookup_insert_Some in Hh as [[<- <-]|[_ Hh]]; [cbn; lia|by apply (oi_ids _ Ho a)].
Qed.

Lemma msg_step_off s op s' : state_inv s -> off_inv s -> fires_early s op = false -> msg_step s op = Some s' -> off_inv s'.
Proof.
  intros Hi Ho He Hs. destruct (msg_step_ok s op Hi He) as (s1&E&Hi'). assert (s1 = s') as -> by congruence. clear E.
  destruct s as [p run], op as [cmd|cmd| |an last|k err queued|a|k|marked]; cbn [msg_step] in Hs.
  - destruct (_ || _); simplify_eq; [done|by apply off_start].
  - destruct (async_cmd cmd); simplify_eq; [by apply off_start|done].
  - simplify_eq. by apply off_start.
  - unfold hmdfs_find_msg_head in Hs. destruct (pm_idr p !! an_id an) as [a|]; [|cbn in Hs; by simplify_eq].
    destruct (pm_heads p !! a) as [h|]; cbn in Hs; [|done]. destruct (_ =? _); cbn in Hs; [|by simplify_eq].
    destruct (head_get p a) as [q|] eqn:E; cbn in Hs; [|done]. simplify_eq. apply (off_cons (mk_mst p run)); [done| |by eapply evolves_get|].
    + unfold receiver. by repeat destruct (_ =? _).
    + unfold head_get in E. destruct (inc_ref _ _); [|done]. by injection E as <-.
  - destruct (run !! k) as [t|] eqn:Hk; [|by simplify_eq]. destruct (thread_step p t err queued) as [[p' next]|] eqn:Ht; cbn in Hs; [|done].
    injection Hs as <-. destruct (is_off t) eqn:Hoff; [by eapply (off_goes (mk_mst p run))|by eapply (others_go (mk_mst p run))].
  - injection Hs as <-. unfold fire. cbn [ms_peer ms_run]. destruct (pm_heads p !! a) as [h|] eqn:Ha; [|done].
    destruct (bool_decide _) eqn:Hb; [done|]. apply (off_cons (mk_mst p run)); [done|done| |done].
    eapply (evolves_cancel p a true). unfold cancel_delayed_work. rewrite Ha. cbn. apply bool_decide_eq_false in Hb. by rewrite decide_False.
  - destruct (run !! k) as [t|] eqn:Hk; [|by simplify_eq]. destruct t; try (by simplify_eq).
    destruct (pm_heads p !! a) as [h|]; cbn in Hs; [|done]. destruct (mh_valid h); [by simplify_eq|].
    destruct (finish _ _ _ _) as [p1|] eqn:E1; cbn in Hs; [|done]. destruct (head_put p1 a) as [p2|] eqn:E2; cbn in Hs; [|done]. simplify_eq.
    apply (off_stays (mk_mst p (delete k run))); [by eapply (off_delete (mk_mst p run))| |].
    + eapply evolves_chain; [by eapply evolves_finish|by eapply evolves_put].
    + pose proof (process_senders _ Hi) as H1. pose proof (process_senders _ Hi') as H2. cbn [ms_peer ms_run] in H1, H2 |- *.
      rewrite (senders_delete _ _ _ Hk) in H1. cbn [in_process] in H1. lia.
  - injection Hs as <-. destruct (existsb is_off run) eqn:Hex; [done|].
    assert (Hno : forall t, t ∈ run -> is_off t = false).
    { intros t Hin. destruct (is_off t) eqn:E; [|done]. exfalso. apply not_true_iff_false in Hex. apply Hex, existsb_exists. exists t.
      split; [by apply list_elem_of_In|done]. }
    split; cbn [ms_peer ms_run].
    + intros t [->|Hin]%elem_of_cons; [by destruct marked|]. by apply off_ok_other, Hno.
    + cbn [map is_off]. rewrite cnt_cons, cnt_off_none by done. destruct (decide _); lia.
    + intros a h Hh. apply (oi_ids _ Ho a). by destruct marked.
Qed.

Lemma off_start_inv : off_inv msg_start.
Proof. split; cbn; [intros t Hin; by apply not_elem_of_nil in Hin|done|done]. Qed.

Lemma reach_inv ops s : timers_in_time msg_start ops = true -> msg_run msg_start ops = Some s -> state_inv s /\ off_inv s.
Proof.
  assert (H' : forall ops s s', state_inv s -> off_inv s -> timers_in_time s ops = true -> msg_run s ops = Some s' -> state_inv s' /\ off_inv s').
  { clear ops s. induction ops as [|op ops IH]; intros s s' Hi Ho Ht Hs; cbn [msg_run timers_in_time] in *; [injection Hs as <-; by split|].
    apply andb_prop in Ht as [Hop%negb_true_iff Ht].
    destruct (msg_step_ok s op Hi Hop) as (s1&E&Hi1). rewrite E in Hs, Ht. cbn [mbind option_bind] in Hs.
    apply (IH s1 s'); [done|exact (msg_step_off _ _ _ Hi Ho Hop E)|done|done]. }
  intros Ht Hs. by eapply H'; [apply msg_start_inv|apply off_start_inv|done|].
Qed.

(** * Coming to an end *)

(** Nobody sends, nobody walks the table, and every head waits only for threads that run. *)
Definition msgs_settled (s : msg_state) : Prop :=
  (forall t, t ∈ ms_run s -> in_process t = 0 /\ is_off t = false) /\
  forall a h, pm_heads (ms_peer s) !! a = Some h -> released h /\ launched h.

(** A thread goes on, or a work that waits runs. *)
Definition progress (s : msg_state) (op : msg_op) : Prop :=
  match op with
  | OpGo k _ _ => is_Some (ms_run s !! k)
  | OpFire a => exists h, pm_heads (ms_peer s) !! a = Some h /\ mh_work h <> DIdle
  | _ => False
  end.

Fixpoint all_progress (s : msg_state) (ops : list msg_op) : Prop :=
  match ops with
  | [] => True
  | op :: ops => progress s op /\ match msg_step s op with Some s' => all_progress s' ops | None => False end
  end.

Definition weight (t : thread) : Z :=
  match t with
  | TWait _ | TRecvPage _ _ | TWork _ => -1
  | TResp _ _ => 5 | TIter _ _ _ | TRequeue _ _ | TRespPage _ _ => 2 | TWake _ _ _ => 1
  | _ => 0
  end.

Definition weights (run : list thread) : Z := foldr (fun t n => weight t + n) 0 run.
Definition ended (p : peer_msgs) : Z := Z.of_nat (length (pm_log p)).

(** What is still to do. *)
Definition to_do (s : msg_state) : Z := 2 * (pm_new (ms_peer s) - ended (ms_peer s)) + weights (ms_run s).

Lemma weights_app l l' : weights (l ++ l') = weights l + weights l'.
Proof. induction l as [|t l IH]; [done|]. cbn [weights foldr app]. fold (weights l) (weights (l ++ l')). lia. Qed.

Lemma weights_delete run k t : run !! k = Some t -> weights run = weight t + weights (delete k run).
Proof.
  revert k. induction run as [|x run IH]; intros [|k] Hk; try done; [by injection Hk as ->|].
  change (delete (S k) (x :: run)) with (x :: delete k run). cbn [weights foldr]. fold (weights run) (weights (delete k run)).
  rewrite (IH k Hk). lia.
Qed.

Lemma nodup_bounded (l : list Z) n : 0 <= n -> (forall a, cnt a l <= if (0 <=? a) && (a <? n) then 1 else 0) -> Z.of_nat (length l) <= n.
Proof.
  intros Hn Hl. assert (Hin : forall a, a ∈ l -> 0 <= a < n).
  { intros a Ha. apply cnt_pos in Ha. specialize (Hl a). destruct ((0 <=? a) && (a <? n)) eqn:E; [|lia].
    apply andb_true_iff in E as [E1 E2]. zb. lia. }
  assert (Hnd : NoDup l).
  { clear Hin. assert (H1 : forall a, cnt a l <= 1) by (intros a; specialize (Hl a); destruct (_ && _); lia). clear Hl.
    induction l as [|x l IH]; [constructor|]. apply list.NoDup_cons. split.
    - intros Hx. apply cnt_pos in Hx. specialize (H1 x). rewrite cnt_cons, decide_True in H1 by done. lia.
    - apply IH. intros a. specialize (H1 a). rewrite cnt_cons in H1. destruct (decide _); lia. }
  assert (Hsub : l ⊆+ seqZ 0 n).
  { apply NoDup_submseteq; [done|]. intros a Ha. apply elem_of_seqZ. specialize (Hin a Ha). lia. }
  apply submseteq_length in Hsub. rewrite length_seqZ in Hsub. lia.
Qed.

Lemma to_do_nonneg s : state_inv s -> 0 <= to_do s.
Proof.
  intros Hi. assert (Hw : - Z.of_nat (length (concat (map base_of (ms_run s)))) <= weights (ms_run s)).
  { induction (ms_run s) as [|t run IH]; [done|]. cbn [map concat weights foldr]. fold (weights run). rewrite length_app.
    assert (- Z.of_nat (length (base_of t)) <= weight t) by (destruct t; cbn; lia). lia. }
  pose proof (nodup_bounded (concat (map base_of (ms_run s)) ++ map re_head (pm_log (ms_peer s))) (pm_new (ms_peer s)) (mi_new _ _ _ _ _ Hi)) as Hb.
  rewrite length_app, length_map in Hb. unfold to_do, ended. lapply Hb; [lia|].
  intros a. rewrite cnt_app. pose proof (mi_base _ _ _ _ _ Hi a) as H1. change (cnt a []) with 0 in H1. pose proof (pend_range (ms_peer s) a).
  unfold logged in H1. destruct (_ && _); lia.
Qed.

(** ** How many requests an operation ends *)

Definition ends (p p' : peer_msgs) (n : Z) : Prop :=
  pm_new p' = pm_new p /\ ended p' = ended p + n /\ pm_log p `suffix_of` pm_log p'.

Lemma ends_trans p q r n k : ends p q n -> ends q r k -> ends p r (n + k).
Proof. intros (E1&H1&S1) (E2&H2&S2). split_and!; [congruence|lia|by etransitivity]. Qed.

Lemma ends_put p a p' : head_put p a = Some p' -> ends p p' 0.
Proof.
  unfold head_put. destruct (pm_heads p !! a) as [h|]; [|done]. cbn. destruct (dec_ref _ _) as [m|]; [|done]. intros [= <-].
  unfold ends, ended. destruct (m !! a); cbn; split_and!; done || lia.
Qed.

Lemma ends_finish p a ret buf p' : finish p a ret buf = Some p' -> ends p p' 1.
Proof. unfold finish. destruct (pm_heads p !! a); [|done]. intros [= <-]. split_and!; [done|unfold ended; cbn; lia|by eexists [_]]. Qed.

Lemma ends_upd p a f p' : upd_head p a f = Some p' -> ends p p' 0.
Proof. unfold upd_head. destruct (pm_heads p !! a); [|done]. intros [= <-]. split_and!; [done|unfold ended; cbn; lia|done]. Qed.

Lemma ends_cancel p a c p' : cancel_delayed_work p a = Some (c, p') -> ends p p' 0.
Proof.
  unfold cancel_delayed_work. destruct (pm_heads p !! a); [|done]. cbn. destruct (decide _); intros [= <- <-]; split_and!; try done; unfold ended; cbn; lia.
Qed.

Lemma ends_done p a ret buf p' : asw_done p a ret buf = Some p' -> ends p p' 1.
Proof.
  unfold asw_done, unlock_page. destruct (pm_heads p !! a) as [h|]; [|done]. cbn. destruct (mh_page h); [|done].
  destruct (upd_head p a _) as [p1|] eqn:E1; [|done]. cbn. destruct (finish p1 _ _ _) as [p2|] eqn:E2; [|done]. cbn. intros E3.
  apply ends_upd in E1. apply ends_finish in E2. apply ends_put in E3. apply (ends_trans _ _ _ _ _ (ends_trans _ _ _ _ _ E1 E2) E3).
Qed.

Lemma ends_work p a p' : work_fn p a = Some p' -> ends p p' 1.
Proof.
  unfold work_fn. destruct (pm_heads p !! a) as [h|]; [|done]. cbn. destruct (mh_type h); [done| |by apply ends_done].
  destruct (finish _ _ _ _) as [p1|] eqn:E1; [|done]. cbn. intros E2. apply ends_finish in E1. apply ends_put in E2.
  apply (ends_trans _ _ _ _ _ E1 E2).
Qed.

Ltac count_ends :=
  repeat match goal with
  | E : head_put _ _ = Some _ |- _ => apply ends_put in E; destruct E as (?&?&?)
  | E : finish _ _ _ _ = Some _ |- _ => apply ends_finish in E; destruct E as (?&?&?)
  | E : upd_head _ _ _ = Some _ |- _ => apply ends_upd in E; destruct E as (?&?&?)
  | E : hmdfs_response_wakeup _ _ _ _ = Some _ |- _ => apply ends_upd in E; destruct E as (?&?&?)
  | E : cancel_delayed_work _ _ = Some _ |- _ => apply ends_cancel in E; destruct E as (?&?&?)
  | E : asw_done _ _ _ _ = Some _ |- _ => apply ends_done in E; destruct E as (?&?&?)
  | E : work_fn _ _ = Some _ |- _ => apply ends_work in E; destruct E as (?&?&?)
  end.

(** Every thread makes progress. *)
Lemma thread_progress s t err queued p' next : msgs_settled s -> state_inv s -> t ∈ ms_run s ->
  thread_step (ms_peer s) t err queued = Some (p', next) ->
  pm_new p' = pm_new (ms_peer s) /\ weights next - 2 * ended p' < weight t - 2 * ended (ms_peer s).
Proof.
  intros [Hrun Hheads] Hi Hin Hs. destruct (Hrun t Hin) as [Hp Hoff].
  assert (Hhd : forall a, head_of t = Some a -> exists h, pm_heads (ms_peer s) !! a = Some h /\ thread_ok h t /\ released h /\ launched h).
  { intros a Ha. destruct (mi_thread _ _ _ _ _ Hi t a Hin Ha) as (h&Hh&Hok). exists h. destruct (Hheads a h Hh). by split_and!. }
  destruct t; try discriminate Hp; try discriminate Hoff; destruct (Hhd _ eq_refl) as (g&Hg&Hok&Hrel&Hlau); cbn in Hs, Hok;
    rewrite ?Hg in Hs; cbn in Hs.
  - unfold released in Hrel. rewrite Hok in Hrel. rewrite Hrel in Hs. chain Hs. count_ends. split; [congruence|]. cbn. lia.
  - destruct (mh_type g) eqn:Ety; [| |by destruct Hok].
    + chain Hs; count_ends; split; try congruence; cbn; lia.
    + rewrite (Hlau Ety) in Hs. cbn in Hs. chain Hs; count_ends; split; try congruence; cbn; lia.
  - chain Hs; count_ends; split; try congruence; cbn; lia.
  - chain Hs; count_ends; split; try congruence; cbn; lia.
  - chain Hs; count_ends; split; try congruence; cbn; lia.
  - chain Hs; count_ends; split; try congruence; cbn; lia.
  - chain Hs; count_ends; split; try congruence; cbn; lia.
  - chain Hs; count_ends; split; try congruence; cbn; lia.
Qed.

Lemma settled_go s p' next run : msgs_settled s -> msgs_evolve (ms_peer s) p' ->
  (forall t, t ∈ next -> in_process t = 0 /\ is_off t = false) -> (forall t, t ∈ run -> t ∈ ms_run s) -> msgs_settled (mk_mst p' (next ++ run)).
Proof.
  intros [Hrun Hheads] [_ He] Hnext Hsub. split; cbn [ms_run ms_peer].
  - intros t [Hin|Hin]%elem_of_app; [by apply Hnext|by apply Hrun, Hsub].
  - intros a h Hh. destruct (He a h Hh) as (g&Hg&_&Hr&Ety&Ewf). destruct (Hheads a g Hg) as [? Hl]. split; [auto|].
    unfold launched. by rewrite Ety, Ewf.
Qed.

Lemma progress_step s op : state_inv s -> msgs_settled s -> progress s op ->
  exists s', msg_step s op = Some s' /\ state_inv s' /\ msgs_settled s' /\ to_do s' < to_do s.
Proof.
  intros Hi Hset Hop. assert (Hnot : fires_early s op = false).
  { destruct op; try done. cbn. unfold early. destruct (pm_heads (ms_peer s) !! a) as [h|] eqn:Ha; [|done]. destruct (proj2 Hset a h Ha) as [_ Hl].
    destruct (bool_decide _) eqn:Hb; [|done]. apply bool_decide_eq_true in Hb. by rewrite (Hl Hb). }
  destruct (msg_step_ok s op Hi Hnot) as (s'&E&Hi'). exists s'. split; [exact E|]. split; [exact Hi'|].
  destruct s as [p run], op as [ | | | |k err queued|a| | ]; try done; cbn [msg_step] in E.
  - destruct Hop as [t Hk]. cbn [ms_run] in Hk. rewrite Hk in E. destruct (thread_step p t err queued) as [[p' next]|] eqn:Ht; cbn in E; [|done].
    injection E as <-. pose proof (list_elem_of_lookup_2 _ _ _ Hk) as Hin. destruct (proj1 Hset t Hin) as [Hp Hoff]. split.
    + apply (settled_go (mk_mst p run)); [done| | |].
      * eapply thread_evolves; [exact Ht|exact Hp|]. intros id ->. discriminate Hoff.
      * intros t' Ht'. split; [by eapply thread_in_process|by eapply thread_next_off].
      * intros t' Ht'. cbn [ms_run]. rewrite (list.delete_Permutation run k t Hk). by right.
    + destruct (thread_progress _ _ _ _ _ _ Hset Hi Hin Ht) as [En Hlt]. unfold to_do. cbn [ms_peer ms_run] in *.
      rewrite weights_app, (weights_delete run k t Hk), En. lia.
  - destruct Hop as (h&Ha&Hw). cbn [ms_peer] in Ha. unfold fire in E. cbn [ms_peer ms_run] in E. rewrite Ha, bool_decide_eq_false_2 in E by done. injection E as <-. split.
    + apply (settled_go (mk_mst p run) _ [TWork a] run); [done| | |done].
      * eapply (evolves_cancel p a true). unfold cancel_delayed_work. rewrite Ha. cbn. by rewrite decide_False.
      * intros t' Ht'. by apply list_elem_of_singleton in Ht' as ->.
    + unfold to_do. cbn [ms_peer ms_run weights foldr weight]. fold (weights run). unfold ended. cbn [pm_log pm_new set_heads]. lia.
Qed.

(** Progress ends, and leaves nothing behind. *)
Lemma progress_ends ops : forall s, state_inv s -> msgs_settled s -> all_progress s ops ->
  Z.of_nat (length ops) <= to_do s /\
  forall s', msg_run s ops = Some s' -> (forall op, ~ progress s' op) ->
    pm_heads (ms_peer s') = ∅ /\ pm_idr (ms_peer s') = ∅ /\ forall a, 0 <= a < pm_new (ms_peer s') -> logged (ms_peer s') a = 1.
Proof.
  induction ops as [|op ops IH]; intros s Hi Hset Hops.
  - split; [by apply to_do_nonneg|]. intros s' [= <-] Hstuck.
    assert (Hnil : ms_run s = []).
    { destruct (ms_run s) as [|t run] eqn:E; [done|]. exfalso. apply (Hstuck (OpGo 0 0 true)). cbn. rewrite E. by eexists. }
    assert (Hidle : forall a h, pm_heads (ms_peer s) !! a = Some h -> mh_work h = DIdle).
    { intros a h Hh. destruct (decide (mh_work h = DIdle)); [done|]. exfalso. apply (Hstuck (OpFire a)). by exists h. }
    assert (Hheads : pm_heads (ms_peer s) = ∅).
    { apply map_eq. intros a. rewrite lookup_empty. destruct (pm_heads (ms_peer s) !! a) as [h|] eqn:Ha; [|done].
      pose proof (live_count _ _ _ _ _ _ _ Hi Ha) as Hc. rewrite Hnil, (pend_of _ _ _ Ha), (Hidle a h Ha), decide_True in Hc by done.
      by change (0 < 0) in Hc. }
    split_and!; [done| |].
    + apply map_eq. intros i. rewrite lookup_empty. destruct (pm_idr (ms_peer s) !! i) as [a|] eqn:Ha; [|done].
      destruct (mi_idr _ _ _ _ _ Hi i a Ha) as (h&Hh&_). rewrite Hheads in Hh. by rewrite lookup_empty in Hh.
    + intros a Ha. pose proof (mi_base _ _ _ _ _ Hi a) as Hb. rewrite Hnil in Hb. unfold pend in Hb. rewrite Hheads, lookup_empty in Hb.
      rewrite (in_range a _ Ha) in Hb.
      change (cnt a (concat (map base_of []))) with 0 in Hb. change (cnt a []) with 0 in Hb. lia.
  - destruct Hops as [Hop Hops]. destruct (progress_step s op Hi Hset Hop) as (s1&E&Hi1&Hset1&Hlt). rewrite E in Hops.
    destruct (IH s1 Hi1 Hset1 Hops) as [Hle Hend]. split; [cbn [length]; lia|]. intros s' Hs'. cbn [msg_run] in Hs'. rewrite E in Hs'. by apply Hend.
Qed.

Lemma off_ends_settled s k id : state_inv s -> off_inv s -> ms_run s !! k = Some (TOff id true) -> idr_first (pm_idr (ms_peer s)) id = None ->
  (forall a h, pm_heads (ms_peer s) !! a = Some h -> launched h) ->
  exists s', msg_step s (OpGo k 0 true) = Some s' /\ state_inv s' /\ msgs_settled s'.
Proof.
  intros Hi Ho Hk Hend Hl. destruct (msg_step_ok s (OpGo k 0 true) Hi eq_refl) as (s'&E&Hi'). exists s'. split_and!; [done..|].
  pose proof (only_off s k _ Ho Hk eq_refl) as Hothers. pose proof (process_senders _ Hi) as Hp. rewrite (senders_delete _ _ _ Hk) in Hp.
  pose proof (oi_thread _ Ho _ (list_elem_of_lookup_2 _ _ _ Hk)) as (Hof&Hp0&Hb).
  pose proof (idr_first_spec (pm_idr (ms_peer s)) id) as Hspec. rewrite Hend in Hspec.
  destruct s as [p run]. cbn [msg_step ms_run ms_peer] in *. rewrite Hk in E. cbn in E. rewrite Hend in E. cbn in E. injection E as <-. split; cbn [ms_run ms_peer].
  - intros t Hin. split; [|by apply Hothers]. clear -Hp Hp0 Hin. cbn [in_process] in Hp. assert (senders (delete k run) = 0) as H1 by lia. clear Hp.
    revert H1. induction (delete k run) as [|x l IH]; [by apply not_elem_of_nil in Hin|]. cbn [senders foldr]. fold (senders l).
    pose proof (senders_nonneg l). pose proof (in_process_range x). intros H1. apply elem_of_cons in Hin as [->|Hin]; [lia|]. apply IH; [done|lia].
  - intros a h Hh. cbn in Hh. split; [|by eapply Hl]. apply (Hb a h Hh). destruct (mi_head _ _ _ _ _ Hi a h Hh) as (_&Hidr&_).
    destruct (Z_lt_le_dec (mh_id h) id) as [|Hle]; [done|]. cbn in Hidr. rewrite (Hspec _ Hle) in Hidr. done.
Qed.

(** * The theorems *)

(** C20: Every request of a client ends exactly once, whatever answers arrive, in whatever order,
    however timeouts, failed sends and the peer going offline come in between, provided that the
    timer of an asynchronous request, which is set to seconds, does not go off before its sender
    has gone on to the next statement and set wfired (early_timeout_uses_freed_head): no freed head is
    touched and no page unlocked twice, a request that was allocated either ended once or has
    exactly one party that is going to end it (a thread, or its timer), a head has exactly the
    references of the threads and the timer, and it is in the table as long as it exists. *)
Theorem requests_end_once ops : timers_in_time msg_start ops = true -> exists s, msg_run msg_start ops = Some s /\
  (forall a, 0 <= a < pm_new (ms_peer s) ->
     logged (ms_peer s) a + cnt a (concat (map base_of (ms_run s))) + pend (ms_peer s) a = 1) /\
  (forall a, match pm_refs (ms_peer s) !! a with
             | Some n => n = cnt a (concat (map holds_of (ms_run s))) + pend (ms_peer s) a /\ 0 < n
             | None => cnt a (concat (map holds_of (ms_run s))) + pend (ms_peer s) a = 0
             end) /\
  (forall a h, pm_heads (ms_peer s) !! a = Some h -> is_Some (pm_refs (ms_peer s) !! a) /\ pm_idr (ms_peer s) !! mh_id h = Some a).
Proof.
  intros Ht. destruct (msg_run_ok ops msg_start msg_start_inv Ht) as (s&E&Hi). exists s. split_and!; [done|..].
  - intros a Ha. pose proof (mi_base _ _ _ _ _ Hi a) as Hb. change (cnt a []) with 0 in Hb.
    rewrite (in_range a _ Ha) in Hb. lia.
  - intros a. pose proof (mi_counts _ _ _ _ _ Hi a) as Hc. cbn beta in Hc. change (cnt a []) with 0 in Hc.
    by rewrite Z.add_0_r in Hc.
  - intros a h Hh. split; [apply (mi_dom _ _ _ _ _ Hi); by eexists|]. by apply (mi_head _ _ _ _ _ Hi a h Hh).
Qed.

(** C21: An answer reaches only the request it answers: whatever a peer sends, the answer a request
    ends with carries the id and the command of the request, and of the requests that are not
    over no two have the same id (timers as in C20). *)
Theorem answers_reach_their_request ops s : timers_in_time msg_start ops = true -> msg_run msg_start ops = Some s ->
  (forall r an, r ∈ pm_log (ms_peer s) -> re_buf r = Some an -> an_id an = re_id r /\ an_cmd an = re_cmd r) /\
  (forall a b h g, pm_heads (ms_peer s) !! a = Some h -> pm_heads (ms_peer s) !! b = Some g -> mh_id h = mh_id g -> a = b).
Proof.
  intros Ht Hs. destruct (reach_inv _ _ Ht Hs) as [Hi _]. split.
  - intros r an Hr E. pose proof (mi_log _ _ _ _ _ Hi r Hr) as H1. by rewrite E in H1.
  - intros a b h g. by apply same_id_same_head.
Qed.

(** C22: When a device goes offline no request is left waiting for its timeout. Once the handler that
    holds new requests back has walked the table, then, provided every asynchronous request
    was sent, what runs comes to an end by itself, in a bounded number of steps and whatever
    runs first; and then the table is empty and every request has ended. Until the handler has
    walked the table timers are as in C20; afterwards they may go off whenever they like. *)
Theorem offline_finishes_requests ops s k id : timers_in_time msg_start ops = true ->
  msg_run msg_start ops = Some s -> ms_run s !! k = Some (TOff id true) -> idr_first (pm_idr (ms_peer s)) id = None ->
  (forall a h, pm_heads (ms_peer s) !! a = Some h -> launched h) ->
  exists s', msg_step s (OpGo k 0 true) = Some s' /\
    forall ops', all_progress s' ops' -> Z.of_nat (length ops') <= to_do s' /\
      forall s'', msg_run s' ops' = Some s'' -> (forall op, ~ progress s'' op) ->
        pm_heads (ms_peer s'') = ∅ /\ pm_idr (ms_peer s'') = ∅ /\ forall a, 0 <= a < pm_new (ms_peer s'') -> logged (ms_peer s'') a = 1.
Proof.
  intros Ht Hs Hk Hend Hl. destruct (reach_inv _ _ Ht Hs) as [Hi Ho]. destruct (off_ends_settled s k id Hi Ho Hk Hend Hl) as (s'&E&Hi'&Hset).
  exists s'. split; [done|]. intros ops' Hops. exact (progress_ends ops' s' Hi' Hset Hops).
Qed.

(** * Faults *)

Lemma thread_log p t err queued p' next : thread_step p t err queued = Some (p', next) -> pm_log p `suffix_of` pm_log p'.
Proof.
  intros Hs. destruct t; cbn in Hs; chain Hs; count_ends; unfold head_get in *; try done;
    repeat match goal with E : context [inc_ref ?m ?a] |- _ => destruct (inc_ref m a); cbn in E; [|discriminate E]; injection E as <- end;
    repeat (first [done | eassumption | etransitivity; [eassumption|]]).
Qed.

(** Types stay, and so does wfired unless a sender sets it. *)
Definition keeps_wfired (x : option Z) (p p' : peer_msgs) : Prop :=
  pm_log p `suffix_of` pm_log p' /\
  forall a h h', pm_heads p !! a = Some h -> pm_heads p' !! a = Some h' ->
    mh_type h' = mh_type h /\ (x <> Some a -> mh_wfired h' = mh_wfired h).

Lemma tracks_keeps x p p' : tracks x p p' -> pm_log p `suffix_of` pm_log p' -> keeps_wfired x p p'.
Proof. intros [_ Ht] Hl. split; [done|]. intros a h h' Hh Hh'. destruct (Ht a h' Hh') as (g&Hg&_&?&?). by simplify_eq. Qed.

Lemma keeps_same x p p' : pm_heads p' = pm_heads p -> pm_log p' = pm_log p -> keeps_wfired x p p'.
Proof. intros E1 E2. split; [by rewrite E2|]. intros a h h' Hh Hh'. rewrite E1, Hh in Hh'. by injection Hh' as ->. Qed.

Lemma thread_keeps p t err queued p' next : thread_step p t err queued = Some (p', next) -> keeps_wfired (sets_wfired t) p p'.
Proof.
  intros Hs. pose proof (thread_log _ _ _ _ _ _ Hs) as Hlog. destruct (Z.eq_dec (in_process t) 0) as [E|E].
  - destruct t as [| | | | | | | | | | | | | | |id []| |]; try discriminate E;
      try (apply tracks_keeps; [eapply evolves_tracks, thread_evolves; [exact Hs|done|congruence]|done]).
    cbn in Hs. destruct (idr_first _ _) as [[i a]|]; cbn in Hs; [|by simplify_eq; apply keeps_same].
    destruct (head_get _ _) as [p1|] eqn:E1; cbn in Hs; [|done]. simplify_eq. apply tracks_keeps; [|done].
    by eapply evolves_tracks, evolves_get.
  - apply tracks_keeps; [|done]. destruct t; cbn in E; try lia; exact (send_tracks _ _ _ _ _ _ Hs).
Qed.

Lemma start_keeps s type cmd mk : state_inv s -> keeps_wfired None (ms_peer s) (ms_peer (start_request s type cmd mk)).
Proof.
  intros Hi. unfold start_request, hmdfs_alloc_msg_idr. destruct (offline_start _); [by apply keeps_same|].
  destruct (idr_alloc_cyclic _ _ _) as [e|id]; [by apply keeps_same|]. split; [done|]. intros a h h' Hh Hh'.
  pose proof (mi_head _ _ _ _ _ Hi a h Hh) as (_&_&Hr). cbn in Hh'. rewrite lookup_insert_ne in Hh' by lia. by simplify_eq.
Qed.

(** The sender that an operation lets set wfired. *)
Definition op_sets (s : msg_state) (op : msg_op) : option Z :=
  match op with OpGo k _ _ => t ← ms_run s !! k; sets_wfired t | _ => None end.

Lemma msg_step_keeps s op s' : state_inv s -> msg_step s op = Some s' -> keeps_wfired (op_sets s op) (ms_peer s) (ms_peer s').
Proof.
  intros Hi Hs. destruct s as [p run], op as [cmd|cmd| |an last|k err queued|a|k|marked]; cbn [msg_step op_sets ms_run ms_peer] in *.
  - destruct (_ || _); simplify_eq; [by apply keeps_same|by apply start_keeps].
  - destruct (async_cmd cmd); simplify_eq; [by apply start_keeps|by apply keeps_same].
  - simplify_eq. by apply start_keeps.
  - unfold hmdfs_find_msg_head, head_get in Hs. destruct (pm_idr p !! an_id an) as [b|]; cbn in Hs; [|by simplify_eq; apply keeps_same].
    chain Hs; [destruct (inc_ref _ _); cbn in *; simplify_eq|]; by apply keeps_same.
  - destruct (run !! k) as [t|]; [|by simplify_eq; apply keeps_same]. destruct (thread_step _ _ _ _) as [[p' next]|] eqn:Ht; cbn in Hs; [|done].
    simplify_eq. by apply thread_keeps in Ht.
  - injection Hs as <-. unfold fire. cbn [ms_peer].
    destruct (pm_heads p !! a) as [h|] eqn:Ha; [|by apply keeps_same]. destruct (bool_decide _); [by apply keeps_same|].
    split; [done|]. intros b g g' Hg Hg'. cbn in Hg'. apply lookup_insert_Some in Hg' as [[<- <-]|[_ ?]]; by simplify_eq.
  - destruct (run !! k) as [t|]; [|by simplify_eq; apply keeps_same]. destruct t; try (by simplify_eq; apply keeps_same).
    destruct (pm_heads p !! a) as [h|] eqn:Ha; cbn in Hs; [|done]. destruct (mh_valid h); [by simplify_eq; apply keeps_same|].
    destruct (finish _ _ _ _) as [p1|] eqn:E1; cbn in Hs; [|done]. destruct (head_put p1 a) as [p2|] eqn:E2; cbn in Hs; [|done].
    simplify_eq. pose proof (ends_trans _ _ _ _ _ (ends_finish _ _ _ _ _ E1) (ends_put _ _ _ E2)) as (_&_&?).
    apply tracks_keeps; [|done]. apply evolves_tracks. eapply evolves_chain; [by eapply evolves_finish|by eapply evolves_put].
  - simplify_eq. destruct (existsb _ _), marked; by apply keeps_same.
Qed.


Lemma logged_finish p a ret buf p' b : finish p a ret buf = Some p' -> logged p' b = (if decide (a = b) then 1 else 0) + logged p b.
Proof. unfold finish. destruct (pm_heads p !! a); [|done]. intros [= <-]. apply cnt_cons. Qed.

Lemma logged_put p a p' b : head_put p a = Some p' -> logged p' b = logged p b.
Proof.
  unfold head_put. destruct (pm_heads p !! a) as [h|]; [|done]. cbn. destruct (dec_ref _ _) as [m|]; [|done]. intros [= <-].
  by destruct (m !! a).
Qed.

(** A receiver whose asynchronous request ended before wfired was set. *)
Definition stuck (s : msg_state) (a : Z) (an : answer) : Prop :=
  TResp a an ∈ ms_run s /\
  exists h, pm_heads (ms_peer s) !! a = Some h /\ mh_type h = MSG_IDR_MESSAGE_ASYNC /\ mh_wfired h = false /\ 0 < logged (ms_peer s) a.

(** A thread that spins stays. *)
Lemma spin_stays s op s' a an h : msg_step s op = Some s' -> TResp a an ∈ ms_run s -> pm_heads (ms_peer s) !! a = Some h ->
  mh_type h = MSG_IDR_MESSAGE_ASYNC -> mh_wfired h = false -> TResp a an ∈ ms_run s'.
Proof.
  intros Hs Hin Ha Hty Hwf. destruct s as [p run], op as [cmd|cmd| |an' last|k err queued|b|k|marked]; cbn [msg_step ms_run ms_peer] in *.
  - destruct (_ || _); simplify_eq; [done|]. unfold start_request. cbn. destruct (hmdfs_alloc_msg_idr _ _ _) as [[|] ?]; cbn; [done|by right].
  - destruct (async_cmd cmd); simplify_eq; [|done]. unfold start_request. cbn. destruct (hmdfs_alloc_msg_idr _ _ _) as [[|] ?]; cbn; [done|by right].
  - simplify_eq. unfold start_request. cbn. destruct (hmdfs_alloc_msg_idr _ _ _) as [[|] ?]; cbn; [done|by right].
  - destruct (hmdfs_find_msg_head _ _ _) as [[[b|] q]|]; cbn in Hs; simplify_eq; cbn; [by right|done].
  - destruct (run !! k) as [t|] eqn:Hk; [|by simplify_eq]. destruct (thread_step _ _ _ _) as [[p' next]|] eqn:Ht; cbn in Hs; [|done].
    simplify_eq. cbn. apply elem_of_app. rewrite (list.delete_Permutation _ _ _ Hk) in Hin.
    apply elem_of_cons in Hin as [<-|Hin]; [left|by right]. cbn in Ht. rewrite Ha in Ht. cbn in Ht. rewrite Hty, Hwf in Ht. injection Ht as <- <-. by left.
  - simplify_eq. unfold fire. cbn. destruct (_ !! b) as [g|]; [|done]. destruct (bool_decide _); [done|by right].
  - destruct (run !! k) as [t|] eqn:Hk; [|by simplify_eq]. destruct t; try (by simplify_eq). chain Hs; [done|].
    rewrite (list.delete_Permutation _ _ _ Hk) in Hin. by apply elem_of_cons in Hin as [|].
  - simplify_eq. destruct (existsb _ _); [done|by right].
Qed.

Lemma stuck_step s op s' a an : state_inv s -> fires_early s op = false -> stuck s a an -> msg_step s op = Some s' -> stuck s' a an.
Proof.
  intros Hi He (Hin&h&Ha&Hty&Hwf&Hl) Hs. destruct (msg_step_ok s op Hi He) as (s1&E&Hi'). rewrite Hs in E. injection E as <-.
  pose proof (spin_stays _ _ _ _ _ _ Hs Hin Ha Hty Hwf) as Hin'. split; [done|].
  destruct (mi_thread _ _ _ _ _ Hi' _ a Hin' eq_refl) as (h'&Ha'&_). exists h'. split; [done|].
  destruct (msg_step_keeps _ _ _ Hi Hs) as [[l Hlog] Hk]. destruct (Hk a h h' Ha Ha') as [-> Hw].
  split; [done|]. split.
  - rewrite Hw; [done|]. intros Hop. destruct op as [| | | |k ? ?| | |]; try discriminate Hop. cbn [op_sets] in Hop.
    destruct (ms_run s !! k) as [t|] eqn:Hk'; [|discriminate Hop]. destruct t; try discriminate Hop. cbn in Hop. injection Hop as ->.
    destruct (mi_thread _ _ _ _ _ Hi _ a (list_elem_of_lookup_2 _ _ _ Hk') eq_refl) as (g&Hg&_&_&Hw'). assert (g = h) as -> by congruence.
    pose proof (mi_base _ _ _ _ _ Hi a) as Hb. rewrite (pend_of _ _ _ Ha), decide_False in Hb by done.
    pose proof (cnt_nonneg a (concat (map base_of (ms_run s)))). change (cnt a []) with 0 in Hb. destruct (_ && _); lia.
  - unfold logged in *. rewrite Hlog, map_app, cnt_app. pose proof (cnt_nonneg a (map re_head l)). lia.
Qed.

Lemma stuck_run ops : forall s s' a an, state_inv s -> timers_in_time s ops = true -> stuck s a an -> msg_run s ops = Some s' -> stuck s' a an.
Proof.
  induction ops as [|op ops IH]; intros s s' a an Hi Ht Hst Hs; cbn [msg_run timers_in_time] in *; [by injection Hs as <-|].
  apply andb_prop in Ht as [Hop%negb_true_iff Ht].
  destruct (msg_step_ok s op Hi Hop) as (s1&E&Hi1). rewrite E in Hs, Ht. cbn [mbind option_bind] in Hs.
  apply (IH s1 s'); [done|done|exact (stuck_step _ _ _ _ _ Hi Hop Hst E)|done].
Qed.

(** An answer that arrives while an asynchronous request is being sent, and the send then fails
    (the message went out and the connection broke): the thread that received the answer waits
    for wfired, which nobody sets any more, so whatever happens it never goes on, and the head
    and its id are never given back. *)
Theorem failed_send_blocks_receiver ops s k a an err queued :
  timers_in_time msg_start ops = true ->
  msg_run msg_start ops = Some s -> ms_run s !! k = Some (TAsync a) -> TResp a an ∈ ms_run s -> err <> 0 ->
  exists s1, msg_step s (OpGo k err queued) = Some s1 /\ logged (ms_peer s1) a = 1 /\
    forall ops' s', timers_in_time s1 ops' = true -> msg_run s1 ops' = Some s' ->
      TResp a an ∈ ms_run s' /\ exists h, pm_heads (ms_peer s') !! a = Some h /\ pm_idr (ms_peer s') !! mh_id h = Some a.
Proof.
  intros Ht Hs Hk Hin Herr. destruct (reach_inv _ _ Ht Hs) as [Hi _]. destruct (msg_step_ok s (OpGo k err queued) Hi eq_refl) as (s1&E&Hi1).
  exists s1. split; [done|]. destruct (ready_at s k _ Hi Hk) as [_ _ Hh]. destruct (Hh a eq_refl) as (h&Ha&Hty&Hwf).
  pose proof (spin_stays _ _ _ _ _ _ E Hin Ha Hty Hwf) as Hin1. pose proof (mi_thread _ _ _ _ _ Hi1 _ a Hin1 eq_refl) as (h1&Ha1&_).
  assert (Hl : logged (ms_peer s1) a = 1).
  { destruct s as [p run]. cbn [msg_step ms_run] in E, Hk, Ha. rewrite Hk in E. cbn in E. apply Z.eqb_neq in Herr. rewrite Herr in E.
    destruct (finish p a err None) as [p1|] eqn:E1; cbn in E; [|done]. destruct (head_put p1 a) as [p2|] eqn:E2; cbn in E; [|done].
    injection E as <-. destruct (take_thread _ _ _ _ Hi Hk) as [Hb _]. destruct (base_once _ _ _ _ _ _ Hb) as (_&_&_&Hl0). cbn [ms_peer] in Hl0.
    change (logged p2 a = 1). by rewrite (logged_put _ _ _ _ E2), (logged_finish _ _ _ _ _ a E1), decide_True, Hl0. }
  split; [done|]. intros ops' s' Ht' Hs'.
  assert (Hst : stuck s1 a an).
  { split; [done|]. exists h1. destruct (msg_step_keeps _ _ _ Hi E) as [_ Hkp]. destruct (Hkp a h h1 Ha Ha1) as [-> Hw].
    split_and!; [done|done| |lia]. rewrite Hw; [done|]. cbn [op_sets]. by rewrite Hk. }
  destruct (stuck_run _ _ _ _ _ Hi1 Ht' Hst Hs') as (Hin'&h'&Ha'&_). split; [done|]. exists h'. split; [done|].
  destruct (msg_run_ok ops' s1 Hi1 Ht') as (s2&E2&Hi2). assert (s2 = s') as -> by congruence. by apply (mi_head _ _ _ _ _ Hi2 a h').
Qed.

(** The timer of an asynchronous request that goes off between queue_delayed_work and setting
    wfired frees the head, and the sender then writes into it: the run has no result. *)
Theorem early_timeout_uses_freed_head ops s k a queued : timers_in_time msg_start ops = true ->
  msg_run msg_start ops = Some s -> ms_run s !! k = Some (TFired a) -> pm_refs (ms_peer s) !! a = Some 1 ->
  fires_early s (OpFire a) = true /\
  (exists s1, msg_run s [OpFire a; OpGo 0 0 queued] = Some s1 /\ pm_heads (ms_peer s1) !! a = None) /\
  msg_run s [OpFire a; OpGo 0 0 queued; OpGo k 0 queued] = None.
Proof.
  intros Ht Hs Hk Hr. destruct (reach_inv _ _ Ht Hs) as [Hi _]. destruct (ready_at s k _ Hi Hk) as [_ _ Hh]. destruct (Hh a eq_refl) as (h&Ha&Hty&Hwf&Hw).
  assert (E : exists s1, msg_run s [OpFire a; OpGo 0 0 queued] = Some s1 /\ pm_heads (ms_peer s1) !! a = None /\ ms_run s1 = ms_run s).
  { destruct s as [p run]. cbn [msg_run msg_step mbind option_bind]. unfold fire. cbn [ms_peer ms_run] in *. rewrite Ha, bool_decide_eq_false_2 by done.
    cbn [lookup list_lookup msg_step]. cbn. unfold work_fn. cbn. rewrite lookup_insert_eq. cbn. rewrite Hty.
    unfold finish. cbn. rewrite lookup_insert_eq. cbn. unfold head_put. cbn. rewrite lookup_insert_eq. cbn. unfold dec_ref. rewrite Hr. cbn.
    change (1 - 1 =? 0) with true. cbv iota. rewrite lookup_delete_eq. eexists. split; [done|]. cbn. split; [apply lookup_delete_eq|done]. }
  destruct E as (s1&E&Ha1&Hrun). split_and!.
  - cbn. unfold early. by rewrite Ha, Hwf, bool_decide_eq_true_2, bool_decide_eq_false_2.
  - by exists s1.
  - cbn [msg_run] in E |- *. destruct (msg_step s (OpFire a)) as [s2|]; [|done]. cbn [mbind option_bind] in E |- *.
    destruct (msg_step s2 (OpGo 0 0 queued)) as [s3|]; [|done]. cbn [mbind option_bind] in E |- *. injection E as ->.
    destruct s1 as [p1 run1]. cbn [ms_peer ms_run] in *. subst run1. cbn [msg_step]. rewrite Hk. cbn. unfold upd_head. by rewrite Ha1.
Qed.

End Machine.

(** * Witnesses *)

#[local] Existing Instances cursor_idr cursor_idr_laws.

Definition after (ops : list msg_op) : msg_state := default msg_start (msg_run msg_start ops).

(** A synchronous request that is answered; a page request and one that was sent, whose peer goes
    offline; an asynchronous one that is answered before it was sent. *)
Definition answered_ops : list msg_op :=
  [OpSync F_OPEN; OpGo 0 0 true; OpRecv (mk_answer 1 F_OPEN 5) true; OpGo 0 0 true; OpGo 0 0 true; OpGo 0 0 true].
Definition offline_ops : list msg_op :=
  [OpSync F_OPEN; OpGo 0 0 true; OpPage; OpGo 0 0 true; OpGo 0 0 true; OpDisconnect true; OpGo 0 0 true; OpGo 0 0 true;
   OpGo 0 0 true; OpGo 0 0 true; OpGo 0 0 true; OpGo 0 0 true].
Definition answered_early_ops : list msg_op := [OpAsync F_WRITEPAGE; OpRecv (mk_answer 1 F_WRITEPAGE 0) true].

Lemma requests_end_once_witness : exists s, msg_run msg_start answered_ops = Some s /\ logged (ms_peer s) 0 = 1.
Proof.
  destruct (requests_end_once answered_ops) as (s&E&Hend&_); [vm_compute; reflexivity|]. exists s. split; [exact E|].
  assert (s = after answered_ops) as -> by (vm_compute in E |- *; congruence). vm_compute. reflexivity.
Defined.

Lemma answers_reach_their_request_witness :
  pm_log (ms_peer (after answered_ops)) = [mk_result 0 1 F_OPEN 5 (Some (mk_answer 1 F_OPEN 5))] /\
  forall r an, r ∈ pm_log (ms_peer (after answered_ops)) -> re_buf r = Some an -> an_id an = re_id r /\ an_cmd an = re_cmd r.
Proof. split; [vm_compute; reflexivity|]. apply (answers_reach_their_request answered_ops); vm_compute; reflexivity. Defined.

Lemma offline_finishes_requests_witness : exists s', msg_step (after offline_ops) (OpGo 0 0 true) = Some s' /\
  forall ops', all_progress s' ops' -> Z.of_nat (length ops') <= to_do s' /\
    forall s'', msg_run s' ops' = Some s'' -> (forall op, ~ progress s'' op) ->
      pm_heads (ms_peer s'') = ∅ /\ pm_idr (ms_peer s'') = ∅ /\ forall a, 0 <= a < pm_new (ms_peer s'') -> logged (ms_peer s'') a = 1.
Proof.
  apply (offline_finishes_requests offline_ops (after offline_ops) 0 3); [vm_compute; reflexivity..|].
  intros a h Hh. apply elem_of_map_to_list in Hh. vm_compute in Hh. apply list_elem_of_singleton in Hh. injection Hh as -> ->.
  intros E. discriminate E.
Defined.

Lemma failed_send_blocks_receiver_witness :
  exists s1, msg_step (after answered_early_ops) (OpGo 1 (- EAGAIN) true) = Some s1 /\ logged (ms_peer s1) 0 = 1 /\
    forall ops' s', timers_in_time s1 ops' = true -> msg_run s1 ops' = Some s' ->
      TResp 0 (mk_answer 1 F_WRITEPAGE 0) ∈ ms_run s' /\ exists h, pm_heads (ms_peer s') !! 0 = Some h /\ pm_idr (ms_peer s') !! mh_id h = Some 0.
Proof.
  apply (failed_send_blocks_receiver answered_early_ops); [vm_compute; reflexivity|vm_compute; reflexivity|vm_compute; reflexivity|by left|done].
Defined.

Lemma early_timeout_uses_freed_head_witness :
  let s := after [OpAsync F_WRITEPAGE; OpGo 0 0 true] in
  ms_run s = [TFired 0] /\ msg_run s [OpFire 0; OpGo 0 0 true; OpGo 0 0 true] = None.
Proof.
  split; [vm_compute; reflexivity|].
  apply (early_timeout_uses_freed_head [OpAsync F_WRITEPAGE; OpGo 0 0 true] _ 0 0 true); vm_compute; reflexivity.
Defined.
