(* ===== verification/MergeName.v ===== *)
(** Names of the merge view (file_merge.c, inode_merge.c): the names under which the listing
    shows entries that several devices have, and finding the entry of such a name again. *)
From S2P Require Import Prelude DentryLayout ServerPath.

Definition CONFLICTING_FILE_CONST_SUFFIX : bytes := [95; 99; 111; 110; 102; 108; 105; 99; 116; 95; 100; 101; 118].
Definition CONFLICTING_DIR_SUFFIX : bytes := [95; 114; 101; 109; 111; 116; 101; 95; 100; 105; 114; 101; 99; 116; 111; 114; 121].

Definition zlength (s : bytes) : Z := Z.of_nat (length s).

(** "%u": the decimal digits of an unsigned int, of which there are at most [n]. *)
Fixpoint dec_text (n : nat) (v : Z) : bytes :=
  match n with
  | O => []
  | S n => if v <? 10 then [48 + v] else dec_text n (v / 10) ++ [48 + v mod 10]
  end.

Definition CONFLICTING_FILE_SUFFIX (dev_id : Z) : bytes := CONFLICTING_FILE_CONST_SUFFIX ++ dec_text 10 (u32 dev_id).
(** strlen of the format string, "%u" included. *)
Definition file_suffix_len : Z := 15.
Definition max_devid_len : Z := 2.

(** * Renaming an entry of the listing *)

(** [text] and its NUL written at [p] into the buffer of NAME_MAX + 1 bytes that holds [name];
    [None] when they do not fit. *)
Definition put_text (name : bytes) (p : nat) (text : bytes) : option bytes :=
  if Z.of_nat p + zlength text + 1 <=? NAME_MAX + 1 then Some (take p name ++ text) else None.

(** The position of the last dot among the first [i] bytes, not further than a slash. *)
Fixpoint last_dot (name : bytes) (i : nat) : option nat :=
  match i with
  | O => None
  | S i =>
      match name !! i with
      | Some c => if c =? SLASH then None else if c =? DOT then Some i else last_dot name i
      | None => last_dot name i
      end
  end.

Definition rename_conflicting_file (dentry_name : bytes) (dev_id : Z) : option bytes :=
  let len := length dentry_name in
  match last_dot dentry_name len with
  | None =>
      put_text dentry_name len (snprintf (DENTRY_NAME_MAX_LEN - Z.of_nat len) (CONFLICTING_FILE_SUFFIX dev_id))
  | Some dot_pos =>
      let buffer := drop dot_pos dentry_name in
      s ← put_text dentry_name dot_pos (snprintf (DENTRY_NAME_MAX_LEN - Z.of_nat dot_pos) (CONFLICTING_FILE_SUFFIX dev_id));
      put_text s (length s) buffer
  end.

Definition rename_conflicting_directory (dentry_name : bytes) : option bytes :=
  let len := length dentry_name in
  put_text dentry_name len (snprintf (DENTRY_NAME_MAX_LEN - Z.of_nat len) CONFLICTING_DIR_SUFFIX).

(** * Looking a name up *)

(** The last dot, or the end. *)
Fixpoint dot_loop (name : bytes) (i : nat) : option nat :=
  match i with
  | O => None
  | S i => match name !! i with Some c => if c =? DOT then Some i else dot_loop name i | None => dot_loop name i end
  end.
Definition dot_pos_of (name : bytes) : nat := default (length name) (dot_loop name (length name)).

Definition is_digit (c : Z) : bool := (48 <=? c) && (c <=? 57).

(** How many digits end at [i]. *)
Fixpoint num_len_of (name : bytes) (i : nat) : nat :=
  match i with
  | O => O
  | S i => match name !! i with Some c => if is_digit c then S (num_len_of name i) else O | None => O end
  end.

(** DT_DIR, DT_REG, or DT_UNKNOWN for 0; [None] when bytes in front of the name are read. *)
Definition check_filename (name : bytes) : option Z :=
  let len := zlength name in
  if (zlength CONFLICTING_DIR_SUFFIX <=? len) &&
     beqb (drop (length name - length CONFLICTING_DIR_SUFFIX) name) CONFLICTING_DIR_SUFFIX then Some DT_DIR
  else if zlength CONFLICTING_FILE_CONST_SUFFIX <=? len then
    let dot_pos := dot_pos_of name in
    let start_cmp_pos := Z.of_nat dot_pos - Z.of_nat (num_len_of name dot_pos) - zlength CONFLICTING_FILE_CONST_SUFFIX in
    if start_cmp_pos <? 0 then None
    else if beqb (sub (Z.to_nat start_cmp_pos) (length CONFLICTING_FILE_CONST_SUFFIX) name) CONFLICTING_FILE_CONST_SUFFIX
         then Some DT_REG else Some DT_UNKNOWN
  else Some DT_UNKNOWN.

Definition conf_name_trans_nop (name : bytes) : bytes := name.

Definition conf_name_trans_dir (name : bytes) : bytes := take (length name - length CONFLICTING_DIR_SUFFIX) name.

(** The number that [digits] spell, in an int. *)
Definition read_dec (digits : bytes) : Z := fold_left (fun v c => swrap 32 (v * 10 + c - 48)) digits 0.

Definition conf_name_trans_reg (name : bytes) : bytes * Z :=
  let dot_pos := dot_pos_of name in
  let num_len := num_len_of name dot_pos in
  let start_cpy_pos := (dot_pos - num_len - length CONFLICTING_FILE_CONST_SUFFIX)%nat in
  (take start_cpy_pos name ++ drop dot_pos name, read_dec (sub (dot_pos - num_len) num_len name)).

(** The name on the device, the type and the device ([None] when any). *)
Definition hmdfs_get_real_dname (name : bytes) : option (bytes * Z * option Z) :=
  type ← check_filename name;
  Some (if type =? DT_REG then let '(rname, devid) := conf_name_trans_reg name in (rname, type, Some devid)
        else if type =? DT_DIR then (conf_name_trans_dir name, type, None)
        else (conf_name_trans_nop name, type, None)).

(** * Digits *)

Lemma dec_text_digits n v c : 0 <= v -> c ∈ dec_text n v -> is_digit c = true.
Proof.
  revert v. induction n as [|n IH]; intros v Hv Hc; cbn in Hc; [by apply not_elem_of_nil in Hc|]. unfold is_digit.
  destruct (v <? 10) eqn:E; zb.
  - apply list_elem_of_singleton in Hc as ->. apply andb_true_iff. split; apply Z.leb_le; lia.
  - apply elem_of_app in Hc as [Hc|Hc]; [apply IH in Hc; [exact Hc|apply Z.div_pos; lia]|].
    apply list_elem_of_singleton in Hc as ->. pose proof (Z.mod_pos_bound v 10). apply andb_true_iff. split; apply Z.leb_le; lia.
Qed.

Lemma dec_text_length n v k : 0 <= v < 10 ^ Z.of_nat k -> (0 < k)%nat -> (length (dec_text n v) <= k)%nat.
Proof.
  revert v k. induction n as [|n IH]; intros v k Hv Hk; cbn; [lia|]. destruct (v <? 10) eqn:E; zb; [cbn; lia|].
  rewrite length_app. cbn [length]. destruct k as [|[|k]]; [lia|cbn in Hv; lia|].
  enough (length (dec_text n (v / 10)) <= S k)%nat by lia. apply IH; [|lia].
  rewrite Nat2Z.inj_succ, Z.pow_succ_r in Hv by lia. split; [apply Z.div_pos; lia|]. apply Z.div_lt_upper_bound; lia.
Qed.

Lemma dec_text_long n v k : 10 ^ Z.of_nat k <= v -> (k < n)%nat -> (k < length (dec_text n v))%nat.
Proof.
  revert v k. induction n as [|n IH]; intros v k Hv Hk; [lia|]. cbn [dec_text]. destruct (v <? 10) eqn:E; zb.
  - destruct k as [|k]; [cbn; lia|]. rewrite Nat2Z.inj_succ, Z.pow_succ_r in Hv by lia.
    assert (0 < 10 ^ Z.of_nat k) by (apply Z.pow_pos_nonneg; lia). lia.
  - rewrite length_app. cbn [length]. destruct k as [|k]; [lia|]. rewrite Nat2Z.inj_succ, Z.pow_succ_r in Hv by lia.
    enough (k < length (dec_text n (v / 10)))%nat by lia. apply IH; [apply Z.div_le_lower_bound; lia|lia].
Qed.

Lemma read_dec_app l c : read_dec (l ++ [c]) = swrap 32 (read_dec l * 10 + c - 48).
Proof. unfold read_dec. by rewrite fold_left_app. Qed.

(** Reading back what "%u" wrote. *)
Lemma read_dec_text n v : 0 <= v < 10 ^ Z.of_nat n -> v < 2 ^ 31 -> (0 < n)%nat -> read_dec (dec_text n v) = v.
Proof.
  revert v. induction n as [|n IH]; intros v Hv Hb Hn; [lia|]. cbn [dec_text]. destruct (v <? 10) eqn:E; zb.
  - unfold read_dec. cbn [fold_left]. rewrite swrap_small; lia.
  - rewrite Nat2Z.inj_succ, Z.pow_succ_r in Hv by lia.
    assert (0 <= v / 10 < 10 ^ Z.of_nat n) by (split; [apply Z.div_pos; lia|apply Z.div_lt_upper_bound; lia]).
    pose proof (Z_div_mod_eq_full v 10). pose proof (Z.mod_pos_bound v 10).
    rewrite read_dec_app, IH; [|done|lia|destruct n; cbn in *; lia].
    replace (v / 10 * 10 + (48 + v mod 10) - 48) with v by lia. rewrite swrap_small; lia.
Qed.

(** * Dots *)

Lemma dot_loop_spec name i : match dot_loop name i with
  | Some d => (d < i)%nat /\ name !! d = Some DOT /\ forall j, (d < j < i)%nat -> name !! j <> Some DOT
  | None => forall j, (j < i)%nat -> name !! j <> Some DOT
  end.
Proof.
  induction i as [|i IH]; cbn [dot_loop]; [lia|]. destruct (name !! i) as [c|] eqn:Hc; [destruct (c =? DOT) eqn:E; zb|].
  - subst. split_and!; [lia|done|]. lia.
  - destruct (dot_loop name i); [destruct IH as (?&?&Hno); split_and!; [lia|done|]|]; intros j Hj;
      (destruct (decide (j = i)) as [->|]; [congruence|]); [apply Hno; lia|apply IH; lia].
  - destruct (dot_loop name i); [destruct IH as (?&?&Hno); split_and!; [lia|done|]|]; intros j Hj;
      (destruct (decide (j = i)) as [->|]; [congruence|]); [apply Hno; lia|apply IH; lia].
Qed.

Lemma last_dot_no_slash name i : SLASH ∉ name -> last_dot name i = dot_loop name i.
Proof.
  intros Hn. induction i as [|i IH]; [done|]. cbn [last_dot dot_loop]. destruct (name !! i) as [c|] eqn:Hc; [|done].
  destruct (c =? SLASH) eqn:E; zb; [|by rewrite IH]. subst. destruct Hn. by eapply list_elem_of_lookup_2.
Qed.

(** A name is its base and its extension, which starts with the last dot. *)
Definition splits (name base ext : bytes) : Prop :=
  name = base ++ ext /\ (ext = [] /\ DOT ∉ base \/ exists e, ext = DOT :: e /\ DOT ∉ e).

Lemma splits_loop name base ext : splits name base ext ->
  dot_loop name (length name) = match ext with [] => None | _ => Some (length base) end.
Proof.
  intros [-> Hext]. pose proof (dot_loop_spec (base ++ ext) (length (base ++ ext))) as Hs.
  destruct Hext as [[-> Hb]|(e&->&He)].
  - destruct (dot_loop _ _) as [d|]; [|done]. destruct Hs as (_&Hd&_). destruct Hb. rewrite app_nil_r in Hd. by eapply list_elem_of_lookup_2.
  - assert (Hat : (base ++ DOT :: e) !! length base = Some DOT) by (rewrite lookup_app_r, Nat.sub_diag by lia; done).
    destruct (dot_loop _ _) as [d|].
    + destruct Hs as (Hlt&Hd&Hno). f_equal. destruct (lt_eq_lt_dec d (length base)) as [[Hl| ->]|Hl]; [|done|].
      * destruct (Hno (length base)); [rewrite length_app; cbn; lia|done].
      * destruct He. rewrite lookup_app_r in Hd by lia. destruct (d - length base)%nat as [|m] eqn:E; [lia|].
        cbn in Hd. by eapply list_elem_of_lookup_2.
    + destruct (Hs (length base)); [rewrite length_app; cbn; lia|done].
Qed.

Lemma splits_dot_pos name base ext : splits name base ext -> dot_pos_of name = length base.
Proof.
  intros Hs. unfold dot_pos_of. rewrite (splits_loop _ _ _ Hs). destruct Hs as [-> Hext]. destruct ext; [|done]. by rewrite app_nil_r.
Qed.

Lemma splits_exists name : exists base ext, splits name base ext.
Proof.
  pose proof (dot_loop_spec name (length name)) as Hs. destruct (dot_loop _ _) as [d|].
  - destruct Hs as (Hlt&Hd&Hno). exists (take d name), (drop d name). split; [by rewrite take_drop|]. right.
    exists (drop (S d) name). split; [by rewrite (drop_S _ _ _ Hd)|]. intros Hin. apply list_elem_of_lookup in Hin as [j Hj].
    rewrite lookup_drop in Hj. apply (Hno (S d + j)%nat); [|done]. apply lookup_lt_Some in Hj. lia.
  - exists name, []. split; [by rewrite app_nil_r|]. left. split; [done|]. intros Hin. apply list_elem_of_lookup in Hin as [j Hj].
    apply (Hs j); [|done]. by apply lookup_lt_Some in Hj.
Qed.

Lemma num_len_app pre c digits rest : is_digit c = false -> Forall (fun d => is_digit d = true) digits ->
  num_len_of (pre ++ c :: digits ++ rest) (length pre + 1 + length digits) = length digits.
Proof.
  intros Hc. revert rest. induction digits as [|d digits IH] using rev_ind; intros rest Hd.
  - cbn [length app]. rewrite Nat.add_0_r, Nat.add_1_r. cbn [num_len_of]. rewrite lookup_app_r, Nat.sub_diag by lia. cbn. by rewrite Hc.
  - apply Forall_app in Hd as [Hd H1]. apply list.Forall_cons in H1 as [H1 _]. rewrite length_app. cbn [length].
    replace (length pre + 1 + (length digits + 1))%nat with (S (length pre + 1 + length digits)) by lia. cbn [num_len_of].
    assert ((pre ++ c :: (digits ++ [d]) ++ rest) !! (length pre + 1 + length digits)%nat = Some d) as ->.
    { rewrite lookup_app_r by lia. replace (length pre + 1 + length digits - length pre)%nat with (S (length digits)) by lia.
      change ((c :: (digits ++ [d]) ++ rest) !! S (length digits)) with (((digits ++ [d]) ++ rest) !! length digits).
      rewrite <- app_assoc, lookup_app_r, Nat.sub_diag by lia. done. }
    rewrite H1, <- app_assoc, IH by done. lia.
Qed.

(** * The names of conflicting entries *)

Lemma put_text_some name p text s : put_text name p text = Some s -> s = take p name ++ text /\ Z.of_nat p + zlength text <= NAME_MAX.
Proof. unfold put_text. destruct (_ <=? _) eqn:E; zb; [|done]. intros [= <-]. split; [done|lia]. Qed.

Lemma put_text_fits name p text : Z.of_nat p + zlength text <= NAME_MAX -> put_text name p text = Some (take p name ++ text).
Proof. intros Hl. unfold put_text. assert (Z.of_nat p + zlength text + 1 <=? NAME_MAX + 1 = true) as -> by (apply Z.leb_le; lia). done. Qed.

Lemma zlength_app a b : zlength (a ++ b) = zlength a + zlength b.
Proof. unfold zlength. rewrite length_app. lia. Qed.

Lemma file_suffix_length dev : 14 <= zlength (CONFLICTING_FILE_SUFFIX dev) <= 23.
Proof.
  unfold CONFLICTING_FILE_SUFFIX. rewrite zlength_app. change (zlength CONFLICTING_FILE_CONST_SUFFIX) with 13.
  assert (0 <= u32 dev < 2 ^ 32) as Hr by (by apply wrap_range).
  assert (length (dec_text 10 (u32 dev)) <= 10)%nat by (apply dec_text_length; cbn; lia).
  assert (0 < length (dec_text 10 (u32 dev)))%nat.
  { cbn [dec_text]. destruct (u32 dev <? 10); [cbn; lia|]. rewrite length_app. cbn [length]. lia. }
  unfold zlength. lia.
Qed.

(** The suffix goes in front of the extension. *)
Lemma rename_file_eq name dev base ext : splits name base ext -> SLASH ∉ name -> zlength name <= NAME_MAX ->
  rename_conflicting_file name dev =
    if zlength name + zlength (CONFLICTING_FILE_SUFFIX dev) <=? NAME_MAX then Some (base ++ CONFLICTING_FILE_SUFFIX dev ++ ext) else None.
Proof.
  intros Hs Hsl Hlen. pose proof (file_suffix_length dev) as Hd. unfold rename_conflicting_file.
  rewrite last_dot_no_slash, (splits_loop _ _ _ Hs) by done. destruct Hs as [-> Hext]. rewrite zlength_app in *. unfold NAME_MAX in *.
  assert (Hz : forall x : bytes, 0 <= zlength x) by (intros x; unfold zlength; lia). pose proof (Hz base). pose proof (Hz ext).
  assert (Z.of_nat (length base) = zlength base) by done.
  assert (Hsn : forall p, Z.of_nat p <= 255 -> snprintf (DENTRY_NAME_MAX_LEN - Z.of_nat p) (CONFLICTING_FILE_SUFFIX dev) = CONFLICTING_FILE_SUFFIX dev).
  { intros p Hp. apply snprintf_fits. change DENTRY_NAME_MAX_LEN with 640. fold (zlength (CONFLICTING_FILE_SUFFIX dev)). lia. }
  destruct ext as [|c e].
  - rewrite app_nil_r in *. change (zlength []) with 0 in *. rewrite Hsn by lia. unfold put_text. fold (zlength base). unfold NAME_MAX.
    rewrite take_ge, app_nil_r, Z.add_0_r by lia. repeat split_if; done || lia.
  - rewrite Hsn by lia. rewrite drop_app_length. unfold put_text at 2. unfold NAME_MAX.
    rewrite take_app_length. destruct (Z.of_nat (length base) + _ + 1 <=? 255 + 1) eqn:E1; zb.
    + cbn [mbind option_bind]. unfold put_text. rewrite firstn_all, <- app_assoc.
      assert (Z.of_nat (length (base ++ CONFLICTING_FILE_SUFFIX dev)) = zlength base + zlength (CONFLICTING_FILE_SUFFIX dev)) as -> by apply zlength_app.
      unfold NAME_MAX. repeat split_if; done || lia.
    + split_if; [lia|done].
Qed.

(** * Reading them back *)

Lemma dir_suffix_test name : (zlength CONFLICTING_DIR_SUFFIX <=? zlength name) &&
  beqb (drop (length name - length CONFLICTING_DIR_SUFFIX) name) CONFLICTING_DIR_SUFFIX = true <-> CONFLICTING_DIR_SUFFIX `suffix_of` name.
Proof.
  rewrite andb_true_iff, Z.leb_le, beqb_eq. unfold zlength. split.
  - intros [_ E]. exists (take (length name - length CONFLICTING_DIR_SUFFIX) name). by rewrite <- E at 2; rewrite take_drop.
  - intros [k ->]. rewrite length_app. split; [lia|]. replace (_ - _)%nat with (length k) by lia. apply drop_app_length.
Qed.

Lemma dir_suffix_false name : ~ CONFLICTING_DIR_SUFFIX `suffix_of` name -> (zlength CONFLICTING_DIR_SUFFIX <=? zlength name) &&
  beqb (drop (length name - length CONFLICTING_DIR_SUFFIX) name) CONFLICTING_DIR_SUFFIX = false.
Proof. intros Hn. apply not_true_iff_false. by rewrite dir_suffix_test. Qed.

Lemma const_no_dot : DOT ∉ CONFLICTING_FILE_CONST_SUFFIX /\ DOT ∉ CONFLICTING_DIR_SUFFIX.
Proof. split; vm_compute; intros Hin; repeat (apply elem_of_cons in Hin as [Hin|Hin]; [discriminate Hin|]); by apply not_elem_of_nil in Hin. Qed.

Lemma suffix_digits dev : Forall (fun d => is_digit d = true) (dec_text 10 (u32 dev)).
Proof. apply list.Forall_forall. intros d Hd. eapply dec_text_digits; [|exact Hd]. assert (0 <= u32 dev < 2 ^ 32) by (by apply wrap_range). lia. Qed.

Lemma file_suffix_no_dot dev : DOT ∉ CONFLICTING_FILE_SUFFIX dev.
Proof.
  unfold CONFLICTING_FILE_SUFFIX. intros [Hin|Hin]%elem_of_app; [by destruct const_no_dot|].
  pose proof (suffix_digits dev) as Hd. rewrite list.Forall_forall in Hd. specialize (Hd _ Hin). discriminate Hd.
Qed.

(** It ends with a digit. *)
Lemma suffix_last dev : exists s d, CONFLICTING_FILE_SUFFIX dev = s ++ [d] /\ is_digit d = true.
Proof.
  unfold CONFLICTING_FILE_SUFFIX. pose proof (suffix_digits dev) as Hd. cbn [dec_text] in *. destruct (u32 dev <? 10).
  - eexists _, _. split; [reflexivity|]. by apply list.Forall_cons in Hd as [Hd _].
  - eexists _, _. split; [by rewrite app_assoc|]. apply Forall_app in Hd as [_ Hd]. by apply list.Forall_cons in Hd as [Hd _].
Qed.

(** The name with the suffix in front of its extension. *)
Definition suffixed (base ext : bytes) (dev : Z) : bytes := base ++ CONFLICTING_FILE_SUFFIX dev ++ ext.

Lemma suffixed_splits name base ext dev : splits name base ext -> splits (suffixed base ext dev) (base ++ CONFLICTING_FILE_SUFFIX dev) ext.
Proof.
  intros [-> [[-> Hb]|Hext]]; (split; [unfold suffixed; by rewrite <- app_assoc|]); [left|by right]. split; [done|].
  intros [Hin|Hin]%elem_of_app; [done|by apply file_suffix_no_dot in Hin].
Qed.

Lemma suffixed_not_dir name base ext dev : splits name base ext -> ~ CONFLICTING_DIR_SUFFIX `suffix_of` name ->
  ~ CONFLICTING_DIR_SUFFIX `suffix_of` suffixed base ext dev.
Proof.
  intros [-> Hext] Hn [k E]. unfold suffixed in E. rewrite app_assoc in E. apply app_eq_inv in E as [(l&E1&E)|(l&_&E)].
  - destruct Hext as [[-> _]|(e&->&_)].
    + rewrite app_nil_r in E. subst l. destruct (suffix_last dev) as (s&d&Es&Hd). rewrite Es, app_assoc in E1.
      change CONFLICTING_DIR_SUFFIX with (removelast CONFLICTING_DIR_SUFFIX ++ [121]) in E1. rewrite app_assoc in E1.
      apply app_inj_tail in E1 as [_ ->]. discriminate Hd.
    + destruct const_no_dot as [_ Hc]. apply Hc. rewrite E. apply elem_of_app. right. by left.
  - destruct Hext as [[-> _]|(e&->&_)].
    + symmetry in E. apply app_nil in E as [_ E]. discriminate E.
    + apply Hn. exists (base ++ l). by rewrite E, app_assoc.
Qed.

Lemma suffixed_num_len name base ext dev : splits name base ext ->
  num_len_of (suffixed base ext dev) (length (base ++ CONFLICTING_FILE_SUFFIX dev)) = length (dec_text 10 (u32 dev)).
Proof.
  intros _. unfold suffixed, CONFLICTING_FILE_SUFFIX. set (dg := dec_text 10 (u32 dev)).
  change CONFLICTING_FILE_CONST_SUFFIX with (removelast CONFLICTING_FILE_CONST_SUFFIX ++ [118]).
  replace (base ++ ((removelast CONFLICTING_FILE_CONST_SUFFIX ++ [118]) ++ dg) ++ ext)
    with ((base ++ removelast CONFLICTING_FILE_CONST_SUFFIX) ++ 118 :: dg ++ ext) by (rewrite <- !app_assoc; done).
  rewrite !length_app. cbn [length].
  pose proof (num_len_app (base ++ removelast CONFLICTING_FILE_CONST_SUFFIX) 118 dg ext) as Hnum. rewrite length_app in Hnum.
  rewrite <- Hnum at 2; [|done|apply suffix_digits]. f_equal. lia.
Qed.

Lemma sub_app_mid (a b c : bytes) : sub (length a) (length b) (a ++ b ++ c) = b.
Proof. unfold sub. by rewrite drop_app_length, take_app_length. Qed.

Lemma suffixed_back name base ext dev : splits name base ext -> ~ CONFLICTING_DIR_SUFFIX `suffix_of` name -> 0 <= dev < 2 ^ 31 ->
  hmdfs_get_real_dname (suffixed base ext dev) = Some (name, DT_REG, Some dev).
Proof.
  intros Hs Hn Hdev. pose proof (suffixed_splits _ _ _ dev Hs) as Hs'. pose proof (splits_dot_pos _ _ _ Hs') as Hpos.
  pose proof (suffixed_num_len _ _ _ dev Hs) as Hnum. set (dg := dec_text 10 (u32 dev)) in *.
  assert (Hsuf : CONFLICTING_FILE_SUFFIX dev = CONFLICTING_FILE_CONST_SUFFIX ++ dg) by done.
  assert (Hlen : length (base ++ CONFLICTING_FILE_SUFFIX dev) = (length base + 13 + length dg)%nat)
    by (rewrite Hsuf, !length_app; change (length CONFLICTING_FILE_CONST_SUFFIX) with 13%nat; lia).
  unfold hmdfs_get_real_dname, check_filename. rewrite dir_suffix_false by (by eapply suffixed_not_dir).
  assert (zlength CONFLICTING_FILE_CONST_SUFFIX <=? zlength (suffixed base ext dev) = true) as ->.
  { apply Z.leb_le. pose proof (file_suffix_length dev) as Hl. unfold suffixed, zlength in *. change (length CONFLICTING_FILE_CONST_SUFFIX) with 13%nat. rewrite !length_app. lia. }
  rewrite Hpos, Hnum, Hlen. change (zlength CONFLICTING_FILE_CONST_SUFFIX) with 13.
  assert (Z.of_nat (length base + 13 + length dg) - Z.of_nat (length dg) - 13 = Z.of_nat (length base)) as -> by lia.
  assert (Z.of_nat (length base) <? 0 = false) as -> by (apply Z.ltb_ge; lia). rewrite Nat2Z.id.
  assert (suffixed base ext dev = base ++ CONFLICTING_FILE_CONST_SUFFIX ++ dg ++ ext) as Hn'
    by (unfold suffixed; rewrite Hsuf, <- app_assoc; done).
  assert (sub (length base) (length CONFLICTING_FILE_CONST_SUFFIX) (suffixed base ext dev) = CONFLICTING_FILE_CONST_SUFFIX) as ->
    by (rewrite Hn'; apply sub_app_mid).
  rewrite beqb_refl. cbn [mbind option_bind]. change (DT_REG =? DT_REG) with true. cbv iota.
  unfold conf_name_trans_reg. rewrite Hpos, Hnum, Hlen. change (length CONFLICTING_FILE_CONST_SUFFIX) with 13%nat.
  assert ((length base + 13 + length dg - length dg - 13)%nat = length base) as -> by lia.
  assert ((length base + 13 + length dg - length dg)%nat = length (base ++ CONFLICTING_FILE_CONST_SUFFIX)) as ->
    by (rewrite length_app; change (length CONFLICTING_FILE_CONST_SUFFIX) with 13%nat; lia).
  rewrite <- Hlen. unfold suffixed at 1 2. rewrite take_app_length, app_assoc, drop_app_length. destruct Hs as [-> _].
  rewrite Hn', app_assoc, sub_app_mid. enough (read_dec dg = dev) as -> by done.
  assert (u32 dev = dev) as E by (apply wrap_small; lia). subst dg. rewrite E.
  apply read_dec_text; [change (10 ^ Z.of_nat 10) with 10000000000; lia|lia|lia].
Qed.

(** * Theorems *)

Lemma dir_name_back name : hmdfs_get_real_dname (name ++ CONFLICTING_DIR_SUFFIX) = Some (name, DT_DIR, None).
Proof.
  unfold hmdfs_get_real_dname, check_filename. rewrite (proj2 (dir_suffix_test _)) by (by exists name). cbn [mbind option_bind].
  change (DT_DIR =? DT_REG) with false. change (DT_DIR =? DT_DIR) with true. cbv iota. unfold conf_name_trans_dir.
  rewrite length_app. replace (_ - _)%nat with (length name) by lia. by rewrite take_app_length.
Qed.

Lemma rename_directory_eq name : zlength name + zlength CONFLICTING_DIR_SUFFIX <= NAME_MAX ->
  rename_conflicting_directory name = Some (name ++ CONFLICTING_DIR_SUFFIX).
Proof.
  change (zlength CONFLICTING_DIR_SUFFIX) with 17. unfold zlength, NAME_MAX. intros Hl. unfold rename_conflicting_directory.
  rewrite snprintf_fits, put_text_fits, take_ge; [done|lia| |].
  - change (zlength CONFLICTING_DIR_SUFFIX) with 17. unfold NAME_MAX. lia.
  - change DENTRY_NAME_MAX_LEN with 640. change (Z.of_nat (length CONFLICTING_DIR_SUFFIX)) with 17. lia.
Qed.

Lemma dec_text_short dev k : 0 <= dev < 10 ^ Z.of_nat k -> (0 < k)%nat -> dev < 2 ^ 32 -> zlength (CONFLICTING_FILE_SUFFIX dev) <= 13 + Z.of_nat k.
Proof.
  intros Hd Hk Hb. unfold CONFLICTING_FILE_SUFFIX. rewrite zlength_app. change (zlength CONFLICTING_FILE_CONST_SUFFIX) with 13.
  assert (u32 dev = dev) as -> by (apply wrap_small; lia). pose proof (dec_text_length 10 dev k Hd Hk). unfold zlength. lia.
Qed.

(** A renamed file: the name, which device it is on, and that both read back. *)
Lemma rename_file_back name dev : SLASH ∉ name -> ~ CONFLICTING_DIR_SUFFIX `suffix_of` name -> 0 <= dev < 10000 ->
  file_suffix_len + max_devid_len <= NAME_MAX - zlength name ->
  exists name', rename_conflicting_file name dev = Some name' /\ zlength name' <= NAME_MAX /\
    hmdfs_get_real_dname name' = Some (name, DT_REG, Some dev).
Proof.
  intros Hsl Hn Hdev Hlen. destruct (splits_exists name) as (base&ext&Hs). exists (suffixed base ext dev).
  pose proof (dec_text_short dev 4 Hdev ltac:(lia) ltac:(lia)) as Hd. change (13 + Z.of_nat 4) with 17 in Hd.
  unfold file_suffix_len, max_devid_len, NAME_MAX in *.
  rewrite (rename_file_eq name dev base ext Hs Hsl) by (unfold NAME_MAX; lia). unfold NAME_MAX.
  assert (zlength name + zlength (CONFLICTING_FILE_SUFFIX dev) <=? 255 = true) as -> by (apply Z.leb_le; lia).
  split_and!; [done| |by apply suffixed_back; [..|lia]].
  destruct Hs as [-> _]. unfold suffixed. rewrite !zlength_app in *. lia.
Qed.

(** The names under which the listing shows entries that several devices have give back what
    they were made from: for every name that passes the listing's test of its length, a file
    of one of the first 10000 devices gets a name that fits into the buffer and from which
    the lookup finds the file's own name and its device, and a directory gets one from which
    the lookup finds the directory's own name. *)
Theorem conflict_names_read_back name dev : SLASH ∉ name -> ~ CONFLICTING_DIR_SUFFIX `suffix_of` name -> 0 <= dev < 10000 ->
  zlength name <= 238 ->
  (exists name', rename_conflicting_file name dev = Some name' /\ zlength name' <= NAME_MAX /\
     hmdfs_get_real_dname name' = Some (name, DT_REG, Some dev)) /\
  (exists name', rename_conflicting_directory name = Some name' /\ zlength name' <= NAME_MAX /\
     hmdfs_get_real_dname name' = Some (name, DT_DIR, None)).
Proof.
  intros Hsl Hn Hdev Hlen. split.
  - apply rename_file_back; [done..|]. unfold file_suffix_len, max_devid_len, NAME_MAX. lia.
  - exists (name ++ CONFLICTING_DIR_SUFFIX). rewrite rename_directory_eq, zlength_app, dir_name_back;
      change (zlength CONFLICTING_DIR_SUFFIX) with 17; unfold NAME_MAX; [|lia]. split_and!; [done|lia|done].
Qed.

(** The two faults of this code: the test of the length leaves room for device numbers of four
    digits, so a longer one is written behind the buffer; and the comparison with the suffix
    starts in front of any name that is long enough but has its last dot early on. *)
Theorem conflict_names_out_of_bounds :
  (forall name dev, SLASH ∉ name -> zlength name = 238 -> 10000 <= dev < 2 ^ 32 -> rename_conflicting_file name dev = None) /\
  (forall base ext, splits (base ++ ext) base ext -> ~ CONFLICTING_DIR_SUFFIX `suffix_of` base ++ ext ->
     13 <= zlength (base ++ ext) -> zlength base < 13 -> hmdfs_get_real_dname (base ++ ext) = None).
Proof.
  split.
  - intros name dev Hsl Hlen Hdev. destruct (splits_exists name) as (base&ext&Hs).
    rewrite (rename_file_eq name dev base ext Hs Hsl) by (unfold NAME_MAX; lia). split_if; [|done]. exfalso.
    unfold CONFLICTING_FILE_SUFFIX, NAME_MAX in *. rewrite zlength_app in *. change (zlength CONFLICTING_FILE_CONST_SUFFIX) with 13 in *.
    assert (u32 dev = dev) as Hu by (apply wrap_small; lia). rewrite Hu in *.
    pose proof (dec_text_long 10 dev 4 ltac:(cbn; lia) ltac:(lia)). unfold zlength in *. lia.
  - intros base ext Hs Hn Hl Hb. unfold hmdfs_get_real_dname, check_filename. rewrite dir_suffix_false by done.
    change (zlength CONFLICTING_FILE_CONST_SUFFIX) with 13. rewrite (splits_dot_pos _ _ _ Hs).
    assert (13 <=? zlength (base ++ ext) = true) as -> by (by apply Z.leb_le).
    destruct (_ <? 0) eqn:E; [done|]. zb. unfold zlength in *. lia.
Qed.

(** * Witnesses *)

Lemma conflict_names_read_back_witness :
  (exists name', rename_conflicting_file [97; 46; 98] 3 = Some name' /\ zlength name' <= NAME_MAX /\
     hmdfs_get_real_dname name' = Some ([97; 46; 98], DT_REG, Some 3)) /\
  (exists name', rename_conflicting_directory [97; 46; 98] = Some name' /\ zlength name' <= NAME_MAX /\
     hmdfs_get_real_dname name' = Some ([97; 46; 98], DT_DIR, None)).
Proof.
  apply conflict_names_read_back; [apply (bool_decide_unpack _); vm_compute; exact I..|done|vm_compute; discriminate].
Defined.

Lemma conflict_names_out_of_bounds_witness :
  rename_conflicting_file (replicate 238 97) 10000 = None /\ hmdfs_get_real_dname (97 :: DOT :: replicate 11 98) = None.
Proof.
  split.
  - apply (proj1 conflict_names_out_of_bounds); [apply (bool_decide_unpack _); vm_compute; exact I|reflexivity|done].
  - apply (proj2 conflict_names_out_of_bounds [97] (DOT :: replicate 11 98)); [|apply (bool_decide_unpack _); vm_compute; exact I|done|done].
    split; [reflexivity|]. right. eexists. split; [reflexivity|]. apply (bool_decide_unpack _). vm_compute. exact I.
Defined.
