(* ===== verification/MergeList.v ===== *)
(** Listing a directory of the merge view (file_merge.c): the tree of the names that were
    shown, and iterating over the directories of all devices one after the other, resumed
    where the caller's buffer was full. *)
From S2P Require Import Prelude DentryLayout MergeName.

(** * The tree of names *)

(** struct hmdfs_cache_entry in an rb tree, ordered by length and then by bytes. *)
Inductive rbtree := RbNull | RbNode (l : rbtree) (name : bytes) (file_type : Z) (r : rbtree).

Fixpoint inorder (t : rbtree) : list (bytes * Z) :=
  match t with RbNull => [] | RbNode l n ty r => inorder l ++ (n, ty) :: inorder r end.

(** strncmp over names of the same length. *)
Fixpoint strncmp (a b : bytes) : comparison :=
  match a, b with
  | c1 :: a, c2 :: b => if c1 =? c2 then (if c1 =? 0 then Eq else strncmp a b) else if c1 <? c2 then Lt else Gt
  | _, _ => Eq
  end.

Definition cmp_name (a b : bytes) : comparison :=
  if zlength a <? zlength b then Lt else if zlength b <? zlength a then Gt else strncmp a b.

(** The kernel's rb trees: rebalancing behind an insertion and removing a node, which keep the
    order of the other nodes. *)
Class RbTree := { rb_insert_color : bytes -> rbtree -> rbtree; rb_erase : bytes -> rbtree -> rbtree }.
Class RbTreeLaws `{RbTree} := {
  rb_insert_color_inorder n t : inorder (rb_insert_color n t) = inorder t;
  rb_erase_inorder n t : NoDup (map fst (inorder t)) -> inorder (rb_erase n t) = filter (fun e => e.1 <> n) (inorder t)
}.

Section Tree.
Context `{RbTree}.

(** The walk of insert_filename: the type of the entry with the name if there is one, and the
    tree with the new entry otherwise. *)
Fixpoint rb_walk (t : rbtree) (name : bytes) (type : Z) : option Z * rbtree :=
  match t with
  | RbNull => (None, RbNode RbNull name type RbNull)
  | RbNode l n ty r =>
      match cmp_name name n with
      | Eq => (Some ty, t)
      | Lt => let '(res, l) := rb_walk l name type in (res, RbNode l n ty r)
      | Gt => let '(res, r) := rb_walk r name type in (res, RbNode l n ty r)
      end
  end.

Definition insert_filename (root : rbtree) (name : bytes) (type : Z) : Z * rbtree :=
  match rb_walk root name type with
  | (Some ty, _) => (ty, root)
  | (None, t) => (0, rb_insert_color name t)
  end.

Fixpoint rb_find (t : rbtree) (name : bytes) : option Z :=
  match t with
  | RbNull => None
  | RbNode l n ty r => match cmp_name name n with Eq => Some ty | Lt => rb_find l name | Gt => rb_find r name end
  end.

Definition delete_filename (root : rbtree) (name : bytes) : rbtree :=
  match rb_find root name with Some _ => rb_erase name root | None => root end.

(** cache_entry->file_type, and setting it. *)
Definition file_type_of (root : rbtree) (name : bytes) : Z := default 0 (rb_find root name).
Fixpoint set_file_type (root : rbtree) (name : bytes) (type : Z) : rbtree :=
  match root with
  | RbNull => RbNull
  | RbNode l n ty r =>
      match cmp_name name n with
      | Eq => RbNode l n type r
      | Lt => RbNode (set_file_type l name type) n ty r
      | Gt => RbNode l n ty (set_file_type r name type)
      end
  end.
End Tree.

(** * One entry *)

Record dirent := mk_dirent { de_name : bytes; de_ino : Z; de_type : Z }.

Definition HMDFS_TYPE_COMMON := 0.
Definition HMDFS_TYPE_DOT := 1.
Definition hmdfs_file_type (name : bytes) : Z :=
  if beqb name [46] || beqb name [46; 46] then HMDFS_TYPE_DOT else HMDFS_TYPE_COMMON.

(** What the actor reads and writes of struct hmdfs_iterate_callback_merge, with the caller's
    context. *)
Record callback_merge (U : Type) := mk_cb { cb_root : rbtree; cb_result : bool; cb_caller : U }.
Arguments mk_cb {U}. Arguments cb_root {U}. Arguments cb_result {U}. Arguments cb_caller {U}.

Section Listing.
Context `{RbTree} {U : Type}.
(** The caller's actor: name, position, inode number and type. *)
Variable actor : U -> bytes -> Z -> Z -> Z -> bool * U.

(** The name to show, or the refusal of a name that would be too long; [None] when it is written
    behind the buffer. Setting the type of the entry is part of it. *)
Definition conflict_name (root : rbtree) (dev_id : Z) (e : dirent) (insert_res : Z) : option (option bytes * rbtree) :=
  let name := de_name e in
  let d_type := de_type e in
  if (d_type =? DT_DIR) && ((insert_res =? DT_REG) || (insert_res =? DT_LNK)) then
    if NAME_MAX - zlength name <? zlength CONFLICTING_DIR_SUFFIX then Some (None, root)
    else n ← rename_conflicting_directory name; Some (Some n, set_file_type root name DT_DIR)
  else if ((d_type =? DT_REG) || (d_type =? DT_LNK)) && (0 <? insert_res) then
    if NAME_MAX - zlength name <? file_suffix_len + max_devid_len then Some (None, root)
    else n ← rename_conflicting_file name dev_id; Some (Some n, root)
  else Some (Some name, root).

Definition hmdfs_actor_merge (pos dev_id : Z) (cb : callback_merge U) (e : dirent) : option (bool * callback_merge U) :=
  let name := de_name e in
  let d_type := de_type e in
  if negb (hmdfs_file_type name =? HMDFS_TYPE_COMMON) then Some (true, cb)
  else if NAME_MAX <? zlength name then Some (false, cb)
  else
    let '(insert_res, root) := insert_filename (cb_root cb) name d_type in
    if (d_type =? DT_DIR) && (insert_res =? DT_DIR) then Some (true, mk_cb root (cb_result cb) (cb_caller cb))
    else
      '(shown, root) ← conflict_name root dev_id e insert_res;
      let '(ret, cb) :=
        match shown with
        | None => (false, mk_cb root (cb_result cb) (cb_caller cb))
        | Some n =>
            let '(ret, u) := actor (cb_caller cb) n pos (de_ino e) d_type in
            let root :=
              if negb ret && (d_type =? DT_DIR) && (file_type_of root name =? DT_DIR) &&
                 ((insert_res =? DT_REG) || (insert_res =? DT_LNK)) then set_file_type root name DT_REG else root in
            (ret, mk_cb root ret u)
        end in
      Some (ret, if negb ret && (insert_res =? 0)
                 then mk_cb (delete_filename (cb_root cb) name) (cb_result cb) (cb_caller cb) else cb).
End Listing.

(** * The directories of the devices *)

(** iterate_dir on a lower directory, which calls the actor from a position on until it
    refuses: the error, or 0, or more for some directories that have not ended, and the
    position reached. *)
Class LowerDir (D : Type) := {
  iterate_dir : forall {S : Type}, (S -> dirent -> option (bool * S)) -> D -> Z -> S -> option (Z * Z * S);
  ld_rest : D -> Z -> list dirent
}.

(** What the actor has not taken. *)
Fixpoint walk {S} (act : S -> dirent -> option (bool * S)) (l : list dirent) (s : S) : option (list dirent * S) :=
  match l with
  | [] => Some ([], s)
  | e :: l' => '(ok, s) ← act s e; if ok : bool then walk act l' s else Some (l, s)
  end.

(** A directory without errors: [ld_rest d pos] are its entries from [pos] on. *)
Class LowerDirLaws D `{LowerDir D} := {
  ld_iterate {S} (act : S -> dirent -> option (bool * S)) d pos s :
    match iterate_dir act d pos s, walk act (ld_rest d pos) s with
    | Some (err, pos', s'), Some (rest, s'') => s' = s'' /\ ld_rest d pos' = rest /\ 0 <= err /\ (rest = [] -> err = 0)
    | None, None => True
    | _, _ => False
    end
}.

(** struct hmdfs_file_info of the merged directory: the lower files with their devices, and
    where the listing is. *)
Record file_info (D : Type) := mk_fi {
  fi_root : rbtree; fi_comrades : list (Z * D); cur_dev : Z; dev_pos : Z; fi_seq : Z
}.
Arguments mk_fi {D}. Arguments fi_root {D}. Arguments fi_comrades {D}. Arguments cur_dev {D}. Arguments dev_pos {D}. Arguments fi_seq {D}.

Definition get_hmdfs_file_info {D} (l : list (Z * D)) (device_id : Z) : option (Z * D) := List.find (fun c => c.1 =? device_id) l.
Fixpoint get_next_hmdfs_file_info {D} (l : list (Z * D)) (device_id : Z) : option (Z * D) :=
  match l with
  | [] => None
  | c :: l => if c.1 =? device_id then head l else get_next_hmdfs_file_info l device_id
  end.

(** hmdfs_dir_open_merge. *)
Definition hmdfs_dir_open_merge {D} (comrades : list (Z * D)) : file_info D := mk_fi RbNull comrades 0 0 0.

Section Iterate.
Context `{RbTree} {D : Type} `{!LowerDir D} {U : Type}.
Variable actor : U -> bytes -> Z -> Z -> Z -> bool * U.

(** The while loop; every turn but the last goes to the next device of the list. *)
Fixpoint iterate_loop (fuel : nat) (fi : file_info D) (pos : Z) (fi_iter : Z * D) (result : bool) (u : U)
  : option (Z * Z * file_info D * U) :=
  match fuel with
  | O => None
  | S fuel =>
      let device_id := fi_iter.1 in
      '(err, p, cb) ← iterate_dir (hmdfs_actor_merge actor pos device_id) fi_iter.2 (dev_pos fi) (mk_cb (fi_root fi) result u);
      let fi := mk_fi (cb_root cb) (fi_comrades fi) (cur_dev fi) p (fi_seq fi) in
      if err <? 0 then Some (err, pos, fi, cb_caller cb)
      else if (0 <? err) || negb (cb_result cb) then
        let seq := fi_seq fi + 1 in
        Some (0, hmdfs_set_pos device_id 0 seq, mk_fi (fi_root fi) (fi_comrades fi) (cur_dev fi) (dev_pos fi) seq, cb_caller cb)
      else
        match get_next_hmdfs_file_info (fi_comrades fi) device_id with
        | None => Some (err, -1, mk_fi (fi_root fi) (fi_comrades fi) (-1) 0 (fi_seq fi), cb_caller cb)
        | Some next =>
            iterate_loop fuel (mk_fi (fi_root fi) (fi_comrades fi) next.1 0 (fi_seq fi)) (hmdfs_set_pos next.1 0 0) next
              (cb_result cb) (cb_caller cb)
        end
  end.

(** The error, the position and the states afterwards. *)
Definition hmdfs_iterate_merge (fi : file_info D) (pos : Z) (u : U) : option (Z * Z * file_info D * U) :=
  if pos =? -1 then Some (0, pos, fi, u)
  else
    match (match get_hmdfs_file_info (fi_comrades fi) (cur_dev fi) with Some c => Some c | None => head (fi_comrades fi) end) with
    | None => Some (0, pos, fi, u)
    | Some c =>
        iterate_loop (length (fi_comrades fi)) (mk_fi (fi_root fi) (fi_comrades fi) c.1 (dev_pos fi) (fi_seq fi)) pos c false u
    end.
End Iterate.

(** * The tree is a finite map *)

Definition no_nul (n : bytes) : Prop := 0 ∉ n.
Lemma no_nul_tail c a : no_nul (c :: a) -> no_nul a.
Proof. intros Hn Ha. apply Hn. by right. Qed.

Definition lt_name (a b : bytes) : Prop := cmp_name a b = Lt.

Lemma strncmp_eq a b : length a = length b -> no_nul a -> strncmp a b = Eq -> a = b.
Proof.
  revert b. induction a as [|c a IH]; intros [|d b] Hl Hn; try done. cbn [strncmp]. destruct (c =? d) eqn:E; zb; [|by destruct (c <? d)].
  subst d. destruct (c =? 0) eqn:E0; zb; [subst; destruct Hn; by left|]. intros Hc. f_equal. apply IH; [by injection Hl|by eapply no_nul_tail|done].
Qed.

Lemma strncmp_refl a : strncmp a a = Eq.
Proof. induction a as [|c a IH]; [done|]. cbn. rewrite Z.eqb_refl. by destruct (c =? 0). Qed.

Lemma strncmp_flip a b : strncmp b a = CompOpp (strncmp a b).
Proof.
  revert b. induction a as [|c a IH]; intros [|d b]; try done. cbn. rewrite (Z.eqb_sym d c). destruct (c =? d) eqn:E; zb.
  - subst d. by destruct (c =? 0).
  - destruct (c <? d) eqn:E1, (d <? c) eqn:E2; zb; done || lia.
Qed.

Lemma strncmp_trans a b c : length a = length b -> length b = length c -> no_nul a -> no_nul b ->
  strncmp a b = Lt -> strncmp b c = Lt -> strncmp a c = Lt.
Proof.
  revert b c. induction a as [|x a IH]; intros [|y b] [|z c] H1 H2 Ha Hb; try done. cbn.
  destruct (x =? y) eqn:E1; zb.
  - subst y. destruct (x =? 0) eqn:E0; [done|]. intros L1. destruct (x =? z) eqn:E2; zb; [|by destruct (x <? z)].
    intros L2. apply (IH b); [by injection H1|by injection H2|by eapply no_nul_tail|by eapply no_nul_tail|done..].
  - destruct (x <? y) eqn:L1; zb; [|done]. intros _. destruct (y =? z) eqn:E2; zb.
    + subst z. destruct (y =? 0); [done|]. intros _. destruct (x =? y) eqn:E3; zb; [lia|]. by assert (x <? y = true) as -> by (by apply Z.ltb_lt).
    + destruct (y <? z) eqn:L2; zb; [|done]. intros _. destruct (x =? z) eqn:E3; zb; [lia|]. assert (x <? z = true) as -> by (apply Z.ltb_lt; lia). done.
Qed.

Lemma cmp_name_refl a : cmp_name a a = Eq.
Proof. unfold cmp_name. rewrite Z.ltb_irrefl. apply strncmp_refl. Qed.

Lemma cmp_name_eq a b : no_nul a -> cmp_name a b = Eq -> a = b.
Proof.
  unfold cmp_name, zlength. intros Ha. split_if; [done|]. split_if; [done|]. intros E'. apply strncmp_eq; [lia|done|done].
Qed.

Lemma cmp_name_gt a b : cmp_name a b = Gt -> lt_name b a.
Proof.
  unfold lt_name, cmp_name. destruct (zlength a <? zlength b) eqn:E1, (zlength b <? zlength a) eqn:E2; zb; try done; try lia.
  intros E. rewrite strncmp_flip, E. done.
Qed.

Lemma lt_name_trans a b c : no_nul a -> no_nul b -> lt_name a b -> lt_name b c -> lt_name a c.
Proof.
  unfold lt_name, cmp_name. intros Ha Hb. destruct (zlength a <? zlength b) eqn:E1; zb.
  - intros _. destruct (zlength b <? zlength c) eqn:E3; zb; [intros _|]; [assert (zlength a <? zlength c = true) as -> by (apply Z.ltb_lt; lia); done|].
    destruct (zlength c <? zlength b) eqn:E4; zb; [done|]. intros _. assert (zlength a <? zlength c = true) as -> by (apply Z.ltb_lt; lia). done.
  - destruct (zlength b <? zlength a) eqn:E2; zb; [done|]. intros L1. assert (zlength a = zlength b) as E by lia.
    rewrite E. destruct (zlength b <? zlength c) eqn:E3; [done|]. destruct (zlength c <? zlength b) eqn:E4; [done|]. zb.
    apply strncmp_trans; unfold zlength in *; [lia|lia|done|done|done].
Qed.

Lemma lt_name_irrefl a : ~ lt_name a a.
Proof. unfold lt_name. by rewrite cmp_name_refl. Qed.

(** Ascending lists of names. *)
Fixpoint asc (l : list bytes) : Prop := match l with [] => True | x :: l => (forall y, y ∈ l -> lt_name x y) /\ asc l end.

Lemma asc_app l r : asc (l ++ r) <-> asc l /\ asc r /\ forall x y, x ∈ l -> y ∈ r -> lt_name x y.
Proof.
  induction l as [|x l IH]; cbn; [set_solver|]. rewrite IH. split.
  - intros (H1&H2&H3&H4). split_and!; [|done|done|].
    + intros y Hy. apply H1. set_solver.
    + intros z y [->|Hz]%elem_of_cons Hy; [apply H1; set_solver|by apply H4].
  - intros ((H1&H2)&H3&H4). split_and!; [|done|done|].
    + intros y [Hy|Hy]%elem_of_app; [by apply H1|apply H4; [by left|done]].
    + intros z y Hz Hy. apply H4; [by right|done].
Qed.

Lemma asc_nodup l : asc l -> NoDup l.
Proof.
  induction l as [|x l IH]; intros Hl; [constructor|]. destruct Hl as [Hx Hl]. apply list.NoDup_cons. split; [|by apply IH].
  intros Hin. by apply (lt_name_irrefl x), Hx.
Qed.

Definition names (t : rbtree) : list bytes := map fst (inorder t).

Record ordered (t : rbtree) : Prop := { or_asc : asc (names t); or_nul n : n ∈ names t -> no_nul n }.

Definition tmap (t : rbtree) : gmap bytes Z := list_to_map (inorder t).

Lemma names_node l n ty r : names (RbNode l n ty r) = names l ++ n :: names r.
Proof. unfold names. cbn. by rewrite map_app. Qed.

Lemma ordered_node l n ty r : ordered (RbNode l n ty r) -> ordered l /\ ordered r /\ no_nul n /\
  (forall m, m ∈ names l -> lt_name m n) /\ (forall m, m ∈ names r -> lt_name n m).
Proof.
  intros [Ha Hn]. rewrite names_node in *. apply asc_app in Ha as (Hl&[Hr1 Hr]&Hlr).
  split_and!; [split; [done|]; intros m Hm; apply Hn; set_solver|split; [done|]; intros m Hm; apply Hn; set_solver|apply Hn; set_solver| |done].
  intros m Hm. apply Hlr; set_solver.
Qed.

Lemma tmap_elem t n ty : ordered t -> tmap t !! n = Some ty <-> (n, ty) ∈ inorder t.
Proof. intros Ho. unfold tmap. symmetry. apply elem_of_list_to_map. apply asc_nodup, Ho. Qed.

Lemma tmap_none t n : tmap t !! n = None <-> n ∉ names t.
Proof. unfold tmap. symmetry. apply not_elem_of_list_to_map. Qed.

(** Names are in one subtree, and the comparison says in which. *)
Lemma not_left l n m : (forall x, x ∈ names l -> lt_name x n) -> cmp_name m n <> Lt -> m ∉ names l.
Proof. intros Hl Hc Hm. by apply Hl in Hm. Qed.

Lemma not_right r n m : no_nul n -> (forall x, x ∈ names r -> lt_name n x) -> no_nul m -> cmp_name m n <> Gt -> m ∉ names r.
Proof.
  intros Hn Hr Hnm Hc Hm. apply Hr in Hm. destruct (cmp_name m n) eqn:E; [|by apply (lt_name_irrefl n), (lt_name_trans n m)|done].
  apply cmp_name_eq in E; [|done]. subst. by apply lt_name_irrefl in Hm.
Qed.

Lemma rb_find_in t n : ordered t -> no_nul n -> match rb_find t n with Some ty => (n, ty) ∈ inorder t | None => n ∉ names t end.
Proof.
  intros Ho Hn. induction t as [|l IHl m ty r IHr]; [apply not_elem_of_nil|]. destruct (ordered_node _ _ _ _ Ho) as (Hl&Hr&Hm&Hlt&Hgt).
  cbn [rb_find inorder]. rewrite names_node. destruct (cmp_name n m) eqn:E.
  - apply cmp_name_eq in E; [|done]. subst. apply elem_of_app. right. by left.
  - specialize (IHl Hl). destruct (rb_find l n); [apply elem_of_app; by left|].
    rewrite not_elem_of_app, not_elem_of_cons. split_and!; [done|intros ->; by rewrite cmp_name_refl in E|].
    apply (not_right _ m); [done..|congruence].
  - specialize (IHr Hr). destruct (rb_find r n); [apply elem_of_app; right; by right|].
    rewrite not_elem_of_app, not_elem_of_cons. split_and!; [|intros ->; by rewrite cmp_name_refl in E|done].
    apply (not_left _ m); [done|congruence].
Qed.

Lemma rb_find_map t n : ordered t -> no_nul n -> rb_find t n = tmap t !! n.
Proof.
  intros Ho Hn. pose proof (rb_find_in t n Ho Hn) as Hf. destruct (rb_find t n); symmetry; [by apply tmap_elem|by apply tmap_none].
Qed.

Lemma rb_walk_in t n ty : ordered t -> no_nul n ->
  match rb_walk t n ty with
  | (Some ty0, _) => (n, ty0) ∈ inorder t
  | (None, t') => n ∉ names t /\ exists l1 l2, inorder t = l1 ++ l2 /\ inorder t' = l1 ++ (n, ty) :: l2 /\
      (forall m, m ∈ map fst l1 -> lt_name m n) /\ (forall m, m ∈ map fst l2 -> lt_name n m)
  end.
Proof.
  intros Ho Hn. induction t as [|l IHl m ty0 r IHr].
  { split; [apply not_elem_of_nil|]. exists [], []. split_and!; try done; intros m Hm; by apply not_elem_of_nil in Hm. }
  destruct (ordered_node _ _ _ _ Ho) as (Hl&Hr&Hm&Hlt&Hgt). cbn [rb_walk inorder]. rewrite names_node. destruct (cmp_name n m) eqn:E.
  - apply cmp_name_eq in E; [|done]. subst. apply elem_of_app. right. by left.
  - specialize (IHl Hl). destruct (rb_walk l n ty) as [[ty1|] l'].
    + apply elem_of_app. by left.
    + destruct IHl as (Hnin&l1&l2&E1&E2&H1&H2). split.
      * rewrite not_elem_of_app, not_elem_of_cons. split_and!; [done|intros ->; by rewrite cmp_name_refl in E|].
        apply (not_right _ m); [done..|congruence].
      * exists l1, (l2 ++ (m, ty0) :: inorder r). cbn [inorder]. rewrite E1, E2, <- !app_assoc. split_and!; [done|done|done|].
        intros x. rewrite map_app. cbn [map fst]. intros [Hx|[->|Hx]%elem_of_cons]%elem_of_app; [by apply H2|done|].
        apply (lt_name_trans n m); [done..|by apply Hgt].
  - specialize (IHr Hr). destruct (rb_walk r n ty) as [[ty1|] r'].
    + apply elem_of_app. right. by right.
    + destruct IHr as (Hnin&l1&l2&E1&E2&H1&H2). split.
      * rewrite not_elem_of_app, not_elem_of_cons. split_and!; [|intros ->; by rewrite cmp_name_refl in E|done].
        apply (not_left _ m); [done|congruence].
      * exists (inorder l ++ (m, ty0) :: l1), l2. cbn [inorder]. rewrite E1, E2, <- !app_assoc. split_and!; [done|done| |done].
        apply cmp_name_gt in E. intros x. rewrite map_app. cbn [map fst].
        intros [Hx|[->|Hx]%elem_of_cons]%elem_of_app; [|done|by apply H1]. apply (lt_name_trans x m); [|done|by apply Hlt|done].
        apply (or_nul _ Hl x Hx).
Qed.

Lemma set_file_type_in t n ty : ordered t -> no_nul n -> n ∈ names t ->
  exists l1 l2 ty0, inorder t = l1 ++ (n, ty0) :: l2 /\ inorder (set_file_type t n ty) = l1 ++ (n, ty) :: l2.
Proof.
  intros Ho Hn Hin. induction t as [|l IHl m ty0 r IHr]; [by apply not_elem_of_nil in Hin|].
  destruct (ordered_node _ _ _ _ Ho) as (Hl&Hr&Hm&Hlt&Hgt). cbn [set_file_type inorder]. rewrite names_node in Hin.
  apply elem_of_app in Hin. rewrite elem_of_cons in Hin. destruct (cmp_name n m) eqn:E.
  - apply cmp_name_eq in E; [|done]. subst. by exists (inorder l), (inorder r), ty0.
  - destruct IHl as (l1&l2&ty1&E1&E2); [done| |].
    { destruct Hin as [?|[->|Hx]]; [done|by rewrite cmp_name_refl in E|]. by destruct (not_right r m n); [..|congruence|]. }
    exists l1, (l2 ++ (m, ty0) :: inorder r), ty1. cbn [inorder]. by rewrite E1, E2, <- !app_assoc.
  - destruct IHr as (l1&l2&ty1&E1&E2); [done| |].
    { destruct Hin as [Hx|[->|?]]; [|by rewrite cmp_name_refl in E|done]. by destruct (not_left l m n); [..|congruence|]. }
    exists (inorder l ++ (m, ty0) :: l1), l2, ty1. cbn [inorder]. by rewrite E1, E2, <- !app_assoc.
Qed.

Lemma list_to_map_mid (l1 l2 : list (bytes * Z)) n ty : NoDup (map fst (l1 ++ (n, ty) :: l2)) ->
  (list_to_map (l1 ++ (n, ty) :: l2) : gmap bytes Z) = <[n := ty]> (list_to_map (l1 ++ l2)).
Proof. intros Hd. rewrite (list_to_map_proper _ ((n, ty) :: l1 ++ l2)); [done|done|]. by rewrite Permutation_middle. Qed.

Section Laws.
Context `{RbTree} `{!RbTreeLaws}.

Lemma ordered_mid t t' l1 l2 n ty : ordered t -> no_nul n -> inorder t = l1 ++ l2 -> inorder t' = l1 ++ (n, ty) :: l2 ->
  (forall m, m ∈ map fst l1 -> lt_name m n) -> (forall m, m ∈ map fst l2 -> lt_name n m) -> ordered t'.
Proof.
  intros [Ha Hnul] Hn E E' H1 H2. unfold names in *. rewrite E, map_app in Ha, Hnul. apply asc_app in Ha as (A1&A2&A3).
  assert (Hnames : names t' = map fst l1 ++ n :: map fst l2) by (unfold names; by rewrite E', map_app). split; rewrite Hnames.
  - apply asc_app. split_and!; [done|by split|]. intros x y Hx [->|Hy]%elem_of_cons; [by apply H1|by apply A3].
  - intros m [Hm|[->|Hm]%elem_of_cons]%elem_of_app; [apply Hnul; set_solver|done|apply Hnul; set_solver].
Qed.

Lemma insert_filename_ok t n ty : ordered t -> no_nul n ->
  match tmap t !! n with
  | Some ty0 => insert_filename t n ty = (ty0, t)
  | None => exists t', insert_filename t n ty = (0, t') /\ ordered t' /\ tmap t' = <[n := ty]> (tmap t)
  end.
Proof.
  intros Ho Hn. pose proof (rb_walk_in t n ty Ho Hn) as Hw. unfold insert_filename. destruct (rb_walk t n ty) as [[ty0|] t'].
  - by rewrite (proj2 (tmap_elem t n ty0 Ho) Hw).
  - destruct Hw as (Hnin&l1&l2&E1&E2&H1&H2). rewrite (proj2 (tmap_none t n) Hnin). eexists. split; [done|].
    assert (E' : inorder (rb_insert_color n t') = l1 ++ (n, ty) :: l2) by (by rewrite rb_insert_color_inorder).
    assert (Ho' : ordered (rb_insert_color n t')) by (by eapply ordered_mid). split; [done|].
    unfold tmap. rewrite E', E1. apply list_to_map_mid. rewrite <- E'. apply asc_nodup, Ho'.
Qed.

Lemma set_file_type_ok t n ty : ordered t -> no_nul n -> is_Some (tmap t !! n) ->
  ordered (set_file_type t n ty) /\ tmap (set_file_type t n ty) = <[n := ty]> (tmap t).
Proof.
  intros Ho Hn [ty0 Hin]. apply tmap_elem in Hin; [|done].
  assert (Hnames : n ∈ names t) by (apply list_elem_of_fmap; by exists (n, ty0)).
  destruct (set_file_type_in t n ty Ho Hn Hnames) as (l1&l2&ty1&E1&E2).
  assert (En : names (set_file_type t n ty) = names t) by (unfold names; by rewrite E1, E2, !map_app).
  assert (Ho' : ordered (set_file_type t n ty)) by (destruct Ho; split; by rewrite En). split; [done|].
  unfold tmap. rewrite E1, E2, !list_to_map_mid; [by rewrite insert_insert_eq| |].
  - rewrite <- E1. apply asc_nodup, Ho.
  - rewrite <- E2. apply asc_nodup, Ho'.
Qed.

Lemma delete_filename_ok t n : ordered t -> no_nul n ->
  ordered (delete_filename t n) /\ tmap (delete_filename t n) = delete n (tmap t).
Proof.
  intros Ho Hn. unfold delete_filename. rewrite rb_find_map by done. destruct (tmap t !! n) as [ty|] eqn:E;
    [|split; [done|by rewrite delete_id]]. clear E. destruct Ho as [Ha Hnul].
  assert (E : inorder (rb_erase n t) = filter (fun e => e.1 <> n) (inorder t)) by (apply rb_erase_inorder; by apply asc_nodup).
  assert (Hsub : forall l, asc (map fst l) -> asc (map fst (filter (fun e : bytes * Z => e.1 <> n) l))).
  { induction l as [|x l IH]; [done|]. intros [Hx Hl]. rewrite filter_cons. destruct (decide _); [|by apply IH]. split; [|by apply IH].
    intros y Hy. apply Hx. apply list_elem_of_fmap in Hy as (z&->&Hz). apply list_elem_of_filter in Hz as [_ Hz]. apply list_elem_of_fmap. by exists z. }
  assert (Ho' : ordered (rb_erase n t)).
  { split; unfold names; rewrite E; [by apply Hsub|]. intros m Hm. apply list_elem_of_fmap in Hm as (z&->&Hz).
    apply list_elem_of_filter in Hz as [_ Hz]. apply Hnul, list_elem_of_fmap. by exists z. }
  split; [done|]. apply map_eq. intros m. destruct (decide (m = n)) as [->|Hne].
  - rewrite lookup_delete_eq. apply tmap_none. unfold names. rewrite E. intros Hm. apply list_elem_of_fmap in Hm as (z&->&Hz).
    by apply list_elem_of_filter in Hz as [Hz _].
  - rewrite lookup_delete_ne by done. apply option_eq. intros ty'. rewrite !tmap_elem by (done || by split). rewrite E, list_elem_of_filter.
    cbn. split; [by intros [_ ?]|by intros ?].
Qed.
End Laws.

(** Trees that are not rebalanced meet the laws. *)
Fixpoint join (l r : rbtree) : rbtree := match l with RbNull => r | RbNode a n ty b => RbNode a n ty (join b r) end.
Fixpoint erase (n : bytes) (t : rbtree) : rbtree :=
  match t with
  | RbNull => RbNull
  | RbNode l m ty r => if decide (m = n) then join (erase n l) (erase n r) else RbNode (erase n l) m ty (erase n r)
  end.

Definition plain_tree : RbTree := {| rb_insert_color := fun _ t => t; rb_erase := erase |}.

Lemma inorder_join l r : inorder (join l r) = inorder l ++ inorder r.
Proof. induction l as [|a _ n ty b IH]; [done|]. cbn. by rewrite IH, <- app_assoc. Qed.

Lemma plain_tree_laws : @RbTreeLaws plain_tree.
Proof.
  split; [done|]. cbn. intros n t _. induction t as [|l IHl m ty r IHr]; [done|]. cbn [erase inorder].
  rewrite list.filter_app, filter_cons. cbn [fst]. destruct (decide (m = n)) as [->|Hne].
  - rewrite inorder_join, IHl, IHr. by rewrite decide_False by congruence.
  - cbn [inorder]. rewrite IHl, IHr. by rewrite decide_True.
Qed.

(** * The listing as it is meant *)

Definition kind (ty : Z) : Z := if ty =? DT_LNK then DT_REG else ty.
Definition kmap (t : rbtree) : gmap bytes Z := kind <$> tmap t.
Definition common (e : dirent) : bool := hmdfs_file_type (de_name e) =? HMDFS_TYPE_COMMON.

(** The name under which an entry of a device is shown, given the names and kinds that were
    shown so far. *)
Definition show (m : gmap bytes Z) (dev : Z) (e : dirent) : option bytes * gmap bytes Z :=
  if negb (common e) then (None, m)
  else
    match m !! de_name e with
    | None => (Some (de_name e), <[de_name e := kind (de_type e)]> m)
    | Some k =>
        if de_type e =? DT_DIR then
          if k =? DT_DIR then (None, m) else (rename_conflicting_directory (de_name e), <[de_name e := DT_DIR]> m)
        else (rename_conflicting_file (de_name e) dev, m)
    end.

Definition as_shown (e : dirent) (n : option bytes) : list dirent :=
  match n with Some n => [mk_dirent n (de_ino e) (de_type e)] | None => [] end.

Fixpoint shown (m : gmap bytes Z) (dev : Z) (es : list dirent) : list dirent * gmap bytes Z :=
  match es with
  | [] => ([], m)
  | e :: es =>
      let '(n, m) := show m dev e in
      let '(out, m) := shown m dev es in (as_shown e n ++ out, m)
  end.

(** All devices, one after the other. *)
Fixpoint shown_all (m : gmap bytes Z) (devs : list (Z * list dirent)) : list dirent :=
  match devs with
  | [] => []
  | (dev, es) :: devs => let '(out, m) := shown m dev es in out ++ shown_all m devs
  end.

Definition merged (devs : list (Z * list dirent)) : list dirent := shown_all ∅ devs.

(** Names and devices for which the names of conflicting entries fit. *)
Record entry_ok (e : dirent) : Prop := {
  eo_type : de_type e = DT_DIR \/ de_type e = DT_REG \/ de_type e = DT_LNK;
  eo_nul : no_nul (de_name e);
  eo_slash : ServerPath.SLASH ∉ de_name e;
  eo_plain : ~ CONFLICTING_DIR_SUFFIX `suffix_of` de_name e;
  eo_len : zlength (de_name e) <= 238
}.
Definition dev_ok (dev : Z) : Prop := 0 <= dev < 10000.

Definition kinds_ok (m : gmap bytes Z) : Prop := forall n k, m !! n = Some k -> k = DT_DIR \/ k = DT_REG.

(** The caller: what it has room for is up to [fits]. *)
Definition emit (fits : list dirent -> dirent -> bool) (u : list dirent) (name : bytes) (pos ino type : Z) : bool * list dirent :=
  let e := mk_dirent name ino type in if fits u e then (true, u ++ [e]) else (false, u).

Lemma kind_ok e : entry_ok e -> kind (de_type e) = DT_DIR \/ kind (de_type e) = DT_REG.
Proof. intros He. destruct (eo_type _ He) as [->|[->| ->]]; vm_compute; auto. Qed.

Lemma show_kinds m dev e : kinds_ok m -> entry_ok e -> kinds_ok (show m dev e).2.
Proof.
  intros Hm He. unfold show. destruct (negb (common e)); [done|]. destruct (m !! de_name e) as [k|].
  - destruct (de_type e =? DT_DIR); [|done]. destruct (k =? DT_DIR); [done|]. cbn [snd]. intros n k' [[<- <-]|[_ ?]]%lookup_insert_Some; [by left|by eapply Hm].
  - cbn [snd]. intros n k' [[<- <-]|[_ ?]]%lookup_insert_Some; [by apply kind_ok|by eapply Hm].
Qed.

Section Actor.
Context `{RbTree} `{!RbTreeLaws}.
Variable fits : list dirent -> dirent -> bool.

(** What the actor does with an entry that is shown as [n]. *)
Definition actor_result (pos : Z) (cb : callback_merge (list dirent)) (e : dirent) (n : option bytes) (m m' : gmap bytes Z)
  (r : option (bool * callback_merge (list dirent))) : Prop :=
  match n with
  | None => exists root, r = Some (true, mk_cb root (cb_result cb) (cb_caller cb)) /\ ordered root /\ kmap root = m'
  | Some n => let '(ret, u) := emit fits (cb_caller cb) n pos (de_ino e) (de_type e) in
      exists root, r = Some (ret, mk_cb root ret u) /\ ordered root /\ kmap root = if ret then m' else m
  end.

Lemma kmap_insert t t' n ty : tmap t' = <[n := ty]> (tmap t) -> kmap t' = <[n := kind ty]> (kmap t).
Proof. intros E. unfold kmap. by rewrite E, fmap_insert. Qed.

Lemma actor_new pos dev cb e : ordered (cb_root cb) -> entry_ok e -> common e = true -> tmap (cb_root cb) !! de_name e = None ->
  actor_result pos cb e (Some (de_name e)) (kmap (cb_root cb)) (<[de_name e := kind (de_type e)]> (kmap (cb_root cb)))
    (hmdfs_actor_merge (emit fits) pos dev cb e).
Proof.
  intros Ho He Hc Hn. unfold actor_result, hmdfs_actor_merge. unfold common in Hc. rewrite Hc. cbn [negb].
  pose proof (eo_len _ He) as Hlen. assert (NAME_MAX <? zlength (de_name e) = false) as -> by (apply Z.ltb_ge; unfold NAME_MAX; lia).
  pose proof (insert_filename_ok (cb_root cb) (de_name e) (de_type e) Ho (eo_nul _ He)) as Hi. rewrite Hn in Hi.
  destruct Hi as (t'&->&Ho'&Ht'). change (0 =? DT_DIR) with false. rewrite andb_false_r.
  unfold conflict_name. change (0 =? DT_REG) with false. change (0 =? DT_LNK) with false. change (0 <? 0) with false. rewrite !andb_false_r.
  cbn [mbind option_bind orb]. destruct (emit fits _ _ _ _ _) as [ret u]. rewrite !andb_false_r. change (0 =? 0) with true. rewrite andb_true_r.
  destruct ret; cbn [negb cb_root cb_result cb_caller].
  - eexists. split; [done|]. split; [done|]. by apply kmap_insert.
  - eexists. split; [done|]. destruct (delete_filename_ok t' (de_name e) Ho' (eo_nul _ He)) as [Hd1 Hd2]. split; [done|].
    unfold kmap. by rewrite Hd2, Ht', delete_insert_id.
Qed.

Lemma set_type_ok t n ty0 ty : ordered t -> no_nul n -> tmap t !! n = Some ty0 ->
  let t' := set_file_type t n ty in
  ordered t' /\ tmap t' = <[n := ty]> (tmap t) /\ kmap t' = <[n := kind ty]> (kmap t) /\ file_type_of t' n = ty.
Proof.
  intros Ho Hn Hin. destruct (set_file_type_ok t n ty Ho Hn) as [Ho1 Ht1]; [by eexists|]. cbv zeta.
  split_and!; [done|done|by apply kmap_insert|]. unfold file_type_of. by rewrite rb_find_map, Ht1, lookup_insert_eq.
Qed.

(** Names of the tree stand for a directory, or for a file or link. *)
Lemma known_kind m ty0 n : kinds_ok m -> m !! n = Some (kind ty0) ->
  ty0 = DT_DIR \/ (ty0 =? DT_DIR) = false /\ ((ty0 =? DT_REG) || (ty0 =? DT_LNK)) = true /\ kind ty0 = DT_REG.
Proof.
  intros Hk Hn. destruct (Hk _ _ Hn) as [E|E]; unfold kind in *; destruct (ty0 =? DT_LNK) eqn:E2; zb; subst; auto; discriminate.
Qed.

(** A directory whose name a file has. *)
Lemma actor_known_dir pos dev cb e ty0 : ordered (cb_root cb) -> entry_ok e -> common e = true -> de_type e = DT_DIR ->
  tmap (cb_root cb) !! de_name e = Some ty0 -> kmap (cb_root cb) !! de_name e = Some DT_REG -> (ty0 =? DT_DIR) = false ->
  ((ty0 =? DT_REG) || (ty0 =? DT_LNK)) = true ->
  actor_result pos cb e (Some (de_name e ++ CONFLICTING_DIR_SUFFIX)) (kmap (cb_root cb)) (<[de_name e := DT_DIR]> (kmap (cb_root cb)))
    (hmdfs_actor_merge (emit fits) pos dev cb e).
Proof.
  intros Ho He Hc Et Hn Hkn Hd Hr. unfold hmdfs_actor_merge. unfold common in Hc. rewrite Hc. cbn [negb].
  pose proof (eo_len _ He) as Hlen. assert (NAME_MAX <? zlength (de_name e) = false) as -> by (apply Z.ltb_ge; unfold NAME_MAX; lia).
  pose proof (insert_filename_ok (cb_root cb) (de_name e) (de_type e) Ho (eo_nul _ He)) as Hi. rewrite Hn in Hi. rewrite Hi.
  unfold conflict_name. rewrite Et, Hd, Hr. change (DT_DIR =? DT_DIR) with true. cbn [andb].
  assert (NAME_MAX - zlength (de_name e) <? zlength CONFLICTING_DIR_SUFFIX = false) as ->
    by (apply Z.ltb_ge; change (zlength CONFLICTING_DIR_SUFFIX) with 17; unfold NAME_MAX; lia).
  rewrite rename_directory_eq by (change (zlength CONFLICTING_DIR_SUFFIX) with 17; unfold NAME_MAX; lia).
  cbn [mbind option_bind actor_result]. rewrite Et. destruct (emit fits _ _ _ _ _) as [ret u].
  destruct (set_type_ok _ _ _ DT_DIR Ho (eo_nul _ He) Hn) as (Ho1&Ht1&Hk1&Hf1). rewrite Hf1, !andb_true_r.
  change (DT_DIR =? DT_DIR) with true.
  assert (ty0 =? 0 = false) as -> by (destruct (ty0 =? 0) eqn:E; zb; [by subst|done]). rewrite andb_false_r. eexists. split; [done|].
  destruct ret; cbn [negb]; [by split|].
  destruct (set_type_ok _ (de_name e) DT_DIR DT_REG Ho1 (eo_nul _ He)) as (Ho2&_&Hk2&_); [by rewrite Ht1, lookup_insert_eq|].
  split; [done|]. rewrite Hk2, Hk1, insert_insert_eq. by apply insert_id.
Qed.

(** A file whose name an entry has. *)
Lemma actor_known_file pos dev cb e ty0 n : ordered (cb_root cb) -> entry_ok e -> common e = true -> de_type e <> DT_DIR ->
  rename_conflicting_file (de_name e) dev = Some n -> tmap (cb_root cb) !! de_name e = Some ty0 -> 0 < ty0 ->
  actor_result pos cb e (Some n) (kmap (cb_root cb)) (kmap (cb_root cb)) (hmdfs_actor_merge (emit fits) pos dev cb e).
Proof.
  intros Ho He Hc Et Hf Hn Hpos. unfold hmdfs_actor_merge. unfold common in Hc. rewrite Hc. cbn [negb].
  pose proof (eo_len _ He) as Hlen. assert (NAME_MAX <? zlength (de_name e) = false) as -> by (apply Z.ltb_ge; unfold NAME_MAX; lia).
  pose proof (insert_filename_ok (cb_root cb) (de_name e) (de_type e) Ho (eo_nul _ He)) as Hi. rewrite Hn in Hi. rewrite Hi.
  assert (Hx : (de_type e =? DT_DIR) = false /\ ((de_type e =? DT_REG) || (de_type e =? DT_LNK)) = true)
    by (destruct (eo_type _ He) as [?|[->| ->]]; done).
  destruct Hx as [Hdir Hr]. unfold conflict_name. rewrite Hdir, Hr.
  assert (NAME_MAX - zlength (de_name e) <? file_suffix_len + max_devid_len = false) as ->
    by (apply Z.ltb_ge; unfold file_suffix_len, max_devid_len, NAME_MAX; lia).
  assert (0 <? ty0 = true) as -> by (by apply Z.ltb_lt). assert (ty0 =? 0 = false) as -> by (apply Z.eqb_neq; lia). rewrite Hf.
  cbn [andb mbind option_bind actor_result]. cbv beta iota zeta. destruct (emit fits _ _ _ _ _) as [ret u].
  rewrite !andb_false_r. cbn [andb].   eexists. split; [done|]. split; [done|]. by destruct ret.
Qed.

(** A file whose name an entry has and which is too long for another suffix: the actor stops the
    directory without having asked the reader, and does not say so in [cb_result]. *)
Lemma long_conflict_refused pos dev cb e ty0 : ordered (cb_root cb) -> no_nul (de_name e) -> common e = true ->
  de_type e = DT_REG \/ de_type e = DT_LNK -> 238 < zlength (de_name e) <= NAME_MAX -> tmap (cb_root cb) !! de_name e = Some ty0 -> 0 < ty0 ->
  hmdfs_actor_merge (emit fits) pos dev cb e = Some (false, cb).
Proof.
  intros Ho Hnul Hc Et Hlen Hn Hpos. unfold hmdfs_actor_merge. unfold common in Hc. rewrite Hc. cbn [negb].
  rewrite (proj2 (Z.ltb_ge NAME_MAX _)) by lia.
  pose proof (insert_filename_ok (cb_root cb) (de_name e) (de_type e) Ho Hnul) as Hi. rewrite Hn in Hi. rewrite Hi.
  assert ((de_type e =? DT_DIR) = false /\ ((de_type e =? DT_REG) || (de_type e =? DT_LNK)) = true) as [Hdir Hr] by (by destruct Et as [->| ->]).
  assert (NAME_MAX - zlength (de_name e) <? file_suffix_len + max_devid_len = true) as Hl
    by (apply Z.ltb_lt; unfold file_suffix_len, max_devid_len, NAME_MAX in *; lia).
  unfold conflict_name. rewrite Hdir, Hr, (proj2 (Z.ltb_lt 0 ty0) Hpos), Hl. cbn [andb mbind option_bind negb]. rewrite (proj2 (Z.eqb_neq ty0 0)) by lia. by destruct cb.
Qed.

(** A name that is in the tree already. *)
Lemma actor_known pos dev cb e ty0 : ordered (cb_root cb) -> entry_ok e -> dev_ok dev -> common e = true -> kinds_ok (kmap (cb_root cb)) ->
  tmap (cb_root cb) !! de_name e = Some ty0 ->
  let '(n, m') := show (kmap (cb_root cb)) dev e in
  actor_result pos cb e n (kmap (cb_root cb)) m' (hmdfs_actor_merge (emit fits) pos dev cb e).
Proof.
  intros Ho He Hd Hc Hk Hn. assert (Hkn : kmap (cb_root cb) !! de_name e = Some (kind ty0)) by (unfold kmap; by rewrite lookup_fmap, Hn).
  unfold show. rewrite Hc, Hkn. cbn [negb]. pose proof (eo_len _ He) as Hlen.
  pose proof (known_kind _ _ _ Hk Hkn) as Hty. destruct (de_type e =? DT_DIR) eqn:Et; zb.
  - destruct Hty as [->|(Hdir&Hr&Hreg)].
    + change (kind DT_DIR =? DT_DIR) with true. unfold hmdfs_actor_merge. unfold common in Hc. rewrite Hc. cbn [negb].
      assert (NAME_MAX <? zlength (de_name e) = false) as -> by (apply Z.ltb_ge; unfold NAME_MAX; lia).
      pose proof (insert_filename_ok (cb_root cb) (de_name e) (de_type e) Ho (eo_nul _ He)) as Hi. rewrite Hn in Hi. rewrite Hi, Et.
      change (DT_DIR =? DT_DIR) with true. by exists (cb_root cb).
    + rewrite Hreg. change (DT_REG =? DT_DIR) with false. cbv iota.
      rewrite rename_directory_eq by (change (zlength CONFLICTING_DIR_SUFFIX) with 17; unfold NAME_MAX; lia).
      eapply actor_known_dir; try done. by rewrite <- Hreg.
  - destruct (rename_file_back (de_name e) dev (eo_slash _ He) (eo_plain _ He) Hd) as (nf&Hf&_);
      [unfold file_suffix_len, max_devid_len, NAME_MAX; lia|]. rewrite Hf. eapply actor_known_file; try done.
    destruct Hty as [->|(_&Hr&_)]; [done|]. apply orb_true_iff in Hr as [E|E]; zb; by subst.
Qed.

Lemma actor_shows pos dev cb e : ordered (cb_root cb) -> entry_ok e -> dev_ok dev -> kinds_ok (kmap (cb_root cb)) ->
  let '(n, m') := show (kmap (cb_root cb)) dev e in
  actor_result pos cb e n (kmap (cb_root cb)) m' (hmdfs_actor_merge (emit fits) pos dev cb e).
Proof.
  intros Ho He Hd Hk. destruct (common e) eqn:Hc.
  - destruct (tmap (cb_root cb) !! de_name e) as [ty0|] eqn:Hn; [by eapply actor_known|].
    unfold show. rewrite Hc. assert (kmap (cb_root cb) !! de_name e = None) as -> by (unfold kmap; by rewrite lookup_fmap, Hn).
    by apply actor_new.
  - unfold show, hmdfs_actor_merge. rewrite Hc. unfold common in Hc. rewrite Hc. cbn [negb actor_result].
    exists (cb_root cb). split; [by destruct cb|done].
Qed.
End Actor.

(** * A whole directory *)

Lemma shown_app m dev a b : shown m dev (a ++ b) =
  let '(o1, m1) := shown m dev a in let '(o2, m2) := shown m1 dev b in (o1 ++ o2, m2).
Proof.
  revert m. induction a as [|e a IH]; intros m; cbn [shown app]; [by destruct (shown m dev b)|].
  destruct (show m dev e) as [n m1]. rewrite IH. destruct (shown m1 dev a) as [o1 m2]. destruct (shown m2 dev b) as [o2 m3].
  by rewrite app_assoc.
Qed.

Lemma shown_kinds m dev es : kinds_ok m -> Forall entry_ok es -> kinds_ok (shown m dev es).2.
Proof.
  revert m. induction es as [|e es IH]; intros m Hm He; [done|]. apply list.Forall_cons in He as [He Hes]. cbn [shown].
  pose proof (show_kinds m dev e Hm He) as H1. destruct (show m dev e) as [n m1]. cbn [snd] in H1. specialize (IH m1 H1 Hes).
  by destruct (shown m1 dev es).
Qed.

Section Walk.
Context `{RbTree} `{!RbTreeLaws}.
Variable fits : list dirent -> dirent -> bool.

Lemma emit_eq u n pos ino ty : emit fits u n pos ino ty =
  if fits u (mk_dirent n ino ty) then (true, u ++ [mk_dirent n ino ty]) else (false, u).
Proof. done. Qed.

(** What a walk over [es] took, and what it left. *)
Record walked (dev : Z) (es : list dirent) (cb : callback_merge (list dirent)) (rest : list dirent) (cb' : callback_merge (list dirent))
    (es1 out : list dirent) : Prop := {
  wk_split : es = es1 ++ rest;
  wk_shown : shown (kmap (cb_root cb)) dev es1 = (out, kmap (cb_root cb'));
  wk_out : cb_caller cb' = cb_caller cb ++ out;
  wk_root : ordered (cb_root cb');
  wk_kinds : kinds_ok (kmap (cb_root cb'));
  wk_end : match rest with
           | [] => cb_result cb' = match out with [] => cb_result cb | _ => true end
           | e :: _ => cb_result cb' = false /\
               exists n, (show (kmap (cb_root cb')) dev e).1 = Some n /\ fits (cb_caller cb') (mk_dirent n (de_ino e) (de_type e)) = false
           end
}.

Lemma walk_shows pos dev es : forall cb, ordered (cb_root cb) -> Forall entry_ok es -> dev_ok dev -> kinds_ok (kmap (cb_root cb)) ->
  exists rest cb' es1 out, walk (hmdfs_actor_merge (emit fits) pos dev) es cb = Some (rest, cb') /\ walked dev es cb rest cb' es1 out.
Proof.
  induction es as [|e es IH]; intros cb Ho He Hd Hk.
  { exists [], cb, [], []. split; [done|]. split; try done. by rewrite app_nil_r. }
  apply list.Forall_cons in He as [He Hes]. pose proof (actor_shows fits pos dev cb e Ho He Hd Hk) as Ha.
  pose proof (show_kinds _ dev e Hk He) as Hk1. destruct (show (kmap (cb_root cb)) dev e) as [n m'] eqn:Hshow. cbn [snd] in Hk1.
  cbn [walk]. destruct n as [n|]; cbn [actor_result] in Ha; [rewrite emit_eq in Ha; destruct (fits (cb_caller cb) _) eqn:Hf|];
    destruct Ha as (root&->&Ho1&Hk'); cbn [mbind option_bind].
  - destruct (IH (mk_cb root true (cb_caller cb ++ [mk_dirent n (de_ino e) (de_type e)]))) as (rest&cb'&es1&out&->&Hw); [done|done|done|cbn [cb_root]; by rewrite Hk'|].
    exists rest, cb', (e :: es1), (mk_dirent n (de_ino e) (de_type e) :: out). split; [done|]. destruct Hw as [W1 W2 W3 W4 W5 W6]. cbn [cb_root cb_caller cb_result] in W2, W3, W6.
    split; try done.
    + by rewrite W1.
    + cbn [shown]. rewrite Hshow. rewrite Hk' in W2. by rewrite W2.
    + by rewrite W3, <- app_assoc.
    + destruct rest; [by destruct out|done].
  - exists (e :: es), (mk_cb root false (cb_caller cb)), [], []. split; [done|]. split; try done; cbn [cb_root cb_caller cb_result].
    + by rewrite Hk'.
    + by rewrite app_nil_r.
    + by rewrite Hk'.
    + split; [done|]. exists n. rewrite Hk', Hshow. by split.
  - destruct (IH (mk_cb root (cb_result cb) (cb_caller cb))) as (rest&cb'&es1&out&->&Hw); [done|done|done|cbn [cb_root]; by rewrite Hk'|].
    exists rest, cb', (e :: es1), out. split; [done|]. destruct Hw as [W1 W2 W3 W4 W5 W6]. cbn [cb_root cb_caller cb_result] in W2, W3, W6. split; try done.
    + by rewrite W1.
    + cbn [shown]. rewrite Hshow. rewrite Hk' in W2. by rewrite W2.
Qed.
End Walk.

Lemma get_file_info_at {D} (pre post : list (Z * D)) dev d : NoDup (map fst (pre ++ (dev, d) :: post)) ->
  get_hmdfs_file_info (pre ++ (dev, d) :: post) dev = Some (dev, d) /\
  get_next_hmdfs_file_info (pre ++ (dev, d) :: post) dev = head post.
Proof.
  induction pre as [|c pre IH]; cbn [app map get_hmdfs_file_info get_next_hmdfs_file_info List.find fst]; intros Hn; [by rewrite Z.eqb_refl|].
  apply list.NoDup_cons in Hn as [Hc Hn]. assert (c.1 =? dev = false) as ->; [|by apply IH].
  apply Z.eqb_neq. intros E. apply Hc. rewrite E, map_app. apply elem_of_app. right. by left.
Qed.

Lemma set_pos_not_end dev seq : dev_ok dev -> 0 <= seq < 2 ^ 31 -> hmdfs_set_pos dev 0 seq <> -1.
Proof.
  intros Hd Hs. unfold dev_ok in Hd. unfold hmdfs_set_pos. change (POS_BIT_NUM - 1 - DEV_ID_BIT_NUM) with 47. change (POS_BIT_NUM - 1) with 63.
  change (Z.shiftl 0 OFFSET_BIT_NUM) with 0. rewrite Z.shiftl_mul_pow2 by lia.
  assert (0 <= dev * 2 ^ 47 < 2 ^ 61) by lia.
  assert (Hsm : forall z, 0 <= z < 2 ^ 62 -> s64 z = z) by (intros z Hz; apply swrap_small; lia).
  rewrite (Hsm (dev * 2 ^ 47)), (Hsm 0), (Hsm (_ + 0 + seq)) by lia.
  destruct (dev =? 0); [lia|]. set (x := dev * 2 ^ 47 + 0 + seq). assert (0 <= x < 2 ^ 62) as Hx by (unfold x; lia). intros E.
  assert (Hw : Z.lor x (Z.shiftl 1 63) mod 2 ^ 64 = 2 ^ 64 - 1).
  { pose proof (Z.mod_pos_bound (Z.lor x (Z.shiftl 1 63)) (2 ^ 64)). unfold swrap, wrap in E. destruct (_ <? _) eqn:F in E; zb; lia. }
  assert (Hb : Z.testbit (Z.lor x (Z.shiftl 1 63) mod 2 ^ 64) 62 = true) by (rewrite Hw; done).
  rewrite Z.mod_pow2_bits_low, Z.lor_spec in Hb by lia. change (Z.testbit (Z.shiftl 1 63) 62) with false in Hb.
  rewrite <- (Z.mod_small x (2 ^ 62)), Z.mod_pow2_bits_high in Hb by lia. discriminate Hb.
Qed.

(** * A call, and a sequence of calls *)

Section Calls.
Context `{RbTree} `{!RbTreeLaws} {D : Type} `{!LowerDir D} `{!LowerDirLaws D}.
Implicit Types fi : file_info D.

(** The entries of the devices that are not listed yet, the listing being in directory [d]. *)
Definition left_over fi (dev : Z) (d : D) (post : list (Z * D)) : list (Z * list dirent) :=
  (dev, ld_rest d (dev_pos fi)) :: map (fun c => (c.1, ld_rest c.2 0)) post.

Record at_device fi (dev : Z) (d : D) (post : list (Z * D)) : Prop := {
  ad_split : exists pre, fi_comrades fi = pre ++ (dev, d) :: post;
  ad_ids : NoDup (map fst (fi_comrades fi));
  ad_cur : cur_dev fi = dev;
  ad_devs l : l ∈ left_over fi dev d post -> dev_ok l.1 /\ Forall entry_ok l.2;
  ad_root : ordered (fi_root fi);
  ad_kinds : kinds_ok (kmap (fi_root fi))
}.

(** What is still to be shown. *)
Definition to_show fi dev d post : list dirent := shown_all (kmap (fi_root fi)) (left_over fi dev d post).

(** What is still to be shown of the directory itself. *)
Definition shows_here fi dev (d : D) : list dirent := (shown (kmap (fi_root fi)) dev (ld_rest d (dev_pos fi))).1.

Lemma to_show_eq fi dev d post : to_show fi dev d post =
  shows_here fi dev d ++ shown_all (shown (kmap (fi_root fi)) dev (ld_rest d (dev_pos fi))).2 (map (fun c => (c.1, ld_rest c.2 0)) post).
Proof. unfold to_show, shows_here, left_over. cbn [shown_all]. by destruct (shown _ _ _). Qed.

(** A call ends with everything shown, or because an entry did not fit. *)
Definition call_done (fits : list dirent -> dirent -> bool) fi (u todo : list dirent) (r : option (Z * Z * file_info D * list dirent)) : Prop :=
  exists pos' fi' u', r = Some (0, pos', fi', u') /\
    (pos' = -1 /\ u' = u ++ todo \/
     exists dev d post, at_device fi' dev d post /\ pos' = hmdfs_set_pos dev 0 (fi_seq fi') /\ fi_seq fi' = fi_seq fi + 1 /\
       u ++ todo = u' ++ to_show fi' dev d post /\ shows_here fi' dev d <> [] /\ exists e, fits u' e = false).

(** One directory of a call: it ends, or an entry does not fit and is the next one. *)
Lemma device_step fits fi pos dev d post result u : at_device fi dev d post ->
  exists err p cb, iterate_dir (hmdfs_actor_merge (emit fits) pos dev) d (dev_pos fi) (mk_cb (fi_root fi) result u) = Some (err, p, cb) /\
    0 <= err /\ ordered (cb_root cb) /\ kinds_ok (kmap (cb_root cb)) /\
    (err = 0 /\ ld_rest d p = [] /\ cb_caller cb = u ++ shows_here fi dev d /\ kmap (cb_root cb) = (shown (kmap (fi_root fi)) dev (ld_rest d (dev_pos fi))).2 /\
       cb_result cb = match shows_here fi dev d with [] => result | _ => true end \/
     cb_result cb = false /\ Forall entry_ok (ld_rest d p) /\ (exists e, fits (cb_caller cb) e = false) /\
       exists out here m, cb_caller cb = u ++ out /\ shown (kmap (cb_root cb)) dev (ld_rest d p) = (here, m) /\ here <> [] /\
         shown (kmap (fi_root fi)) dev (ld_rest d (dev_pos fi)) = (out ++ here, m)).
Proof.
  intros [_ _ _ Hdevs Hroot Hkinds]. destruct (Hdevs _ (list_elem_of_here _ _)) as [Hdev Hes]; cbn [fst snd] in Hdev, Hes.
  pose proof (ld_iterate (hmdfs_actor_merge (emit fits) pos dev) d (dev_pos fi) (mk_cb (fi_root fi) result u)) as Hit.
  destruct (walk_shows fits pos dev (ld_rest d (dev_pos fi)) (mk_cb (fi_root fi) result u) Hroot Hes Hdev Hkinds)
    as (rest&cb&es1&out&Hwalk&[W1 W2 W3 W4 W5 W6]). rewrite Hwalk in Hit.
  destruct (iterate_dir _ _ _ _) as [[[err p] cb1]|]; [|done]. destruct Hit as (->&Hrest&Herr&Hzero).
  cbn [cb_root cb_caller cb_result] in *. exists err, p, cb. split_and!; [done..|]. unfold shows_here. destruct rest as [|e rest].
  - left. rewrite app_nil_r in W1. rewrite W1, W2. cbn [fst snd]. split_and!; [by apply Hzero|done..].
  - right. destruct W6 as [Hr (n&Hn&Hfit)]. split; [done|]. rewrite W1 in Hes. apply Forall_app in Hes as [_ Hes].
    split; [by rewrite Hrest|]. split; [by eexists|].
    destruct (shown (kmap (cb_root cb)) dev (e :: rest)) as [here m] eqn:Hsh. exists out, here, m.
    split_and!; [done|by rewrite Hrest| |by rewrite W1, shown_app, W2, Hsh].
    cbn [shown] in Hsh. destruct (show (kmap (cb_root cb)) dev e) as [n' m1]. cbn in Hn. subst n'. destruct (shown m1 dev rest) as [o m2].
    injection Hsh as <- <-. done.
Qed.

(** The call stops in the directory. *)
Lemma stop_done fits fi dev d post u root p u' out here m : at_device fi dev d post -> ordered root -> kinds_ok (kmap root) ->
  Forall entry_ok (ld_rest d p) -> (exists e, fits u' e = false) -> u' = u ++ out -> shown (kmap root) dev (ld_rest d p) = (here, m) ->
  here <> [] -> shown (kmap (fi_root fi)) dev (ld_rest d (dev_pos fi)) = (out ++ here, m) ->
  let seq := fi_seq fi + 1 in
  call_done fits fi u (to_show fi dev d post)
    (Some (0, hmdfs_set_pos dev 0 seq, mk_fi root (fi_comrades fi) (cur_dev fi) p seq, u')).
Proof.
  intros [Hsplit Hids Hcur Hdevs _ _] Hroot Hkinds Hes Hfit -> Hsh Hhere Hall seq. eexists _, _, _. split; [done|]. right. exists dev, d, post.
  split_and!; [|done|done| | |done].
  - split; try done. cbn [dev_pos left_over]. intros l [->|Hl]%elem_of_cons; [|apply Hdevs; by right].
    split; [|done]. exact (proj1 (Hdevs _ (list_elem_of_here _ _))).
  - rewrite !to_show_eq. unfold shows_here. cbn [fi_root dev_pos]. rewrite Hall, Hsh. cbn [fst snd]. by rewrite !app_assoc.
  - unfold shows_here. cbn [fi_root dev_pos]. by rewrite Hsh.
Qed.

Lemma iterate_loop_done fits post : forall fuel fi pos dev d result u,
  at_device fi dev d post -> (length post < fuel)%nat -> result = true \/ shows_here fi dev d <> [] ->
  call_done fits fi u (to_show fi dev d post) (iterate_loop (emit fits) fuel fi pos (dev, d) result u).
Proof.
  induction post as [|[dev2 d2] post IH]; intros fuel fi pos dev d result u Hat Hfuel Hres;
    (destruct fuel as [|fuel]; [cbn in Hfuel; lia|]); cbn [iterate_loop fst snd];
    destruct (device_step fits fi pos dev d _ result u Hat) as (err&p&cb&->&Herr&Hroot&Hkinds&Hcase); cbn [mbind option_bind];
    assert (err <? 0 = false) as -> by (apply Z.ltb_ge; lia);
    (destruct Hcase as [(->&_&Hu&Hm&Hr)|(Hr&Hes&Hfit&out&here&m&Hu&Hsh&Hhere&Hall)];
      [|rewrite Hr, orb_true_r; cbn [fi_root fi_comrades cur_dev dev_pos fi_seq]; by eapply (stop_done fits fi)]);
    assert (cb_result cb = true) as -> by (rewrite Hr; destruct (shows_here fi dev d); [by destruct Hres|done]);
    change (0 <? 0) with false; cbn [orb negb fi_comrades];
    pose proof Hat as [[pre Hsplit] Hids Hcur Hdevs _ _]; rewrite Hsplit in Hids;
    rewrite Hsplit, (proj2 (get_file_info_at pre _ dev d Hids)); cbn [head].
  - eexists _, _, _. split; [done|]. left. split; [done|]. rewrite to_show_eq. cbn [map shown_all]. by rewrite app_nil_r.
  - rewrite <- Hsplit. cbn [fst snd fi_root fi_seq]. set (fi2 := mk_fi (cb_root cb) (fi_comrades fi) dev2 0 (fi_seq fi)).
    assert (Hat2 : at_device fi2 dev2 d2 post).
    { split; cbn [fi2 fi_comrades cur_dev fi_root]; try done.
      - exists (pre ++ [(dev, d)]). by rewrite <- app_assoc.
      - by rewrite Hsplit.
      - intros l Hl. apply Hdevs. right. done. }
    destruct (IH fuel fi2 (hmdfs_set_pos dev2 0 0) dev2 d2 true (cb_caller cb) Hat2) as (pos'&fi'&u'&E&Hd); [cbn in Hfuel; lia|by left|].
    exists pos', fi', u'. split; [exact E|]. rewrite to_show_eq.
    assert (Hts : shown_all (shown (kmap (fi_root fi)) dev (ld_rest d (dev_pos fi))).2 (map (fun c => (c.1, ld_rest c.2 0)) ((dev2, d2) :: post))
      = to_show fi2 dev2 d2 post) by (by rewrite <- Hm).
    rewrite Hts, app_assoc, <- Hu. exact Hd.
Qed.

End Calls.

Section Sequence.
Context `{RbTree} `{!RbTreeLaws} {D : Type} `{!LowerDir D} `{!LowerDirLaws D}.

(** Calls of a reader, each with a new buffer: what they got, and where the listing is. *)
Fixpoint read_dir (fi : file_info D) (pos : Z) (calls : list (list dirent -> dirent -> bool)) : option (list (list dirent) * Z * file_info D) :=
  match calls with
  | [] => Some ([], pos, fi)
  | fits :: calls =>
      '(_, pos, fi, u) ← hmdfs_iterate_merge (emit fits) fi pos [];
      '(outs, pos, fi) ← read_dir fi pos calls;
      Some (u :: outs, pos, fi)
  end.

Definition devices (comrades : list (Z * D)) : list (Z * list dirent) := map (fun c => (c.1, ld_rest c.2 0)) comrades.

(** The list of comrades of a directory: each device once, the local one in front. *)
Record comrades_ok (comrades : list (Z * D)) : Prop := {
  co_ids : NoDup (map fst comrades);
  co_devs c : c ∈ comrades -> dev_ok c.1 /\ Forall entry_ok (ld_rest c.2 0);
  co_local c : c ∈ tail comrades -> c.1 <> 0
}.

Lemma read_dir_ended fi calls : read_dir fi (-1) calls = Some (map (fun _ => []) calls, -1, fi).
Proof. induction calls as [|fits calls IH]; [done|]. cbn [read_dir map]. unfold hmdfs_iterate_merge. change (-1 =? -1) with true. cbn [mbind option_bind]. by rewrite IH. Qed.

Lemma read_dir_length calls : forall fi pos outs pos' fi', read_dir fi pos calls = Some (outs, pos', fi') -> length outs = length calls.
Proof.
  induction calls as [|fits calls IH]; intros fi pos outs pos' fi' E; cbn [read_dir] in E; [by injection E as <- _ _|].
  destruct (hmdfs_iterate_merge _ fi pos []) as [[[[err pos1] fi1] u]|]; [|done]. cbn [mbind option_bind] in E.
  destruct (read_dir fi1 pos1 calls) as [[[outs1 pos2] fi2]|] eqn:E1; [|done]. cbn [mbind option_bind] in E. injection E as <- _ _.
  cbn [length]. f_equal. by eapply IH.
Qed.

Lemma concat_nils {A B} (l : list A) : concat (map (fun _ => @nil B) l) = [].
Proof. by induction l. Qed.

Lemma call_at fits fi pos dev d post u : at_device fi dev d post -> pos <> -1 -> shows_here fi dev d <> [] ->
  call_done fits fi u (to_show fi dev d post) (hmdfs_iterate_merge (emit fits) fi pos u).
Proof.
  intros Hat Hpos Hhere. unfold hmdfs_iterate_merge. assert (pos =? -1 = false) as -> by (by apply Z.eqb_neq).
  pose proof Hat as [[pre Hsplit] Hids Hcur _ _ _]. rewrite Hcur, Hsplit. rewrite Hsplit in Hids. rewrite (proj1 (get_file_info_at pre post dev d Hids)).
  rewrite <- Hsplit. cbn [fst].
  assert (mk_fi (fi_root fi) (fi_comrades fi) dev (dev_pos fi) (fi_seq fi) = fi) as -> by (rewrite <- Hcur; by destruct fi).
  apply iterate_loop_done; [done| |by right]. rewrite Hsplit, length_app. cbn. lia.
Qed.

Lemma read_dir_at calls : forall fi pos dev d post, at_device fi dev d post -> pos <> -1 -> shows_here fi dev d <> [] ->
  Forall (fun fits => forall e, fits [] e = true) calls -> 0 <= fi_seq fi -> fi_seq fi + Z.of_nat (length calls) < 2 ^ 31 ->
  exists outs pos' fi', read_dir fi pos calls = Some (outs, pos', fi') /\ concat outs `prefix_of` to_show fi dev d post /\
    ((length (to_show fi dev d post) < length calls)%nat -> pos' = -1 /\ concat outs = to_show fi dev d post).
Proof.
  induction calls as [|fits calls IH]; intros fi pos dev d post Hat Hpos Hhere Hfits Hseq Hmax.
  { exists [], pos, fi. split_and!; [done|apply prefix_nil|cbn; lia]. }
  apply list.Forall_cons in Hfits as [Hfit Hfits]. cbn [read_dir].
  destruct (call_at fits fi pos dev d post [] Hat Hpos Hhere) as (pos1&fi1&u&->&[[-> ->]|(dev1&d1&post1&Hat1&->&Hs1&Hshow&Hhere1&e&He)]);
    cbn [mbind option_bind app] in *.
  - rewrite read_dir_ended. cbn [mbind option_bind]. eexists _, _, _. split; [done|]. cbn [concat]. by rewrite concat_nils, app_nil_r.
  - assert (Hdev1 : dev_ok dev1) by exact (proj1 (ad_devs _ _ _ _ Hat1 _ (list_elem_of_here _ _))).
    cbn [length] in Hmax. destruct (IH fi1 (hmdfs_set_pos dev1 0 (fi_seq fi1)) dev1 d1 post1) as (outs&pos'&fi'&->&Hpre&Hend);
      [done|apply set_pos_not_end; [done|lia]|done|done|lia|lia|].
    cbn [mbind option_bind]. eexists _, _, _. split; [done|]. cbn [concat]. rewrite Hshow. split; [by apply prefix_app|].
    intros Hlen. assert (Hu : (0 < length u)%nat) by (destruct u; [by rewrite Hfit in He|cbn; lia]). rewrite length_app in Hlen. cbn [length] in Hlen.
    destruct Hend as [-> ->]; [lia|done].
Qed.

Lemma shown_first dev es : (exists e, e ∈ es /\ common e = true) -> (shown ∅ dev es).1 <> [].
Proof.
  induction es as [|x es IH]; intros (e&He&Hc); [by apply not_elem_of_nil in He|]. cbn [shown]. unfold show. destruct (common x) eqn:Hx; cbn [negb].
  - rewrite lookup_empty. destruct (shown (<[_ := _]> ∅) dev es) as [o m]. discriminate.
  - apply elem_of_cons in He as [->|He]; [congruence|]. specialize (IH ltac:(by exists e)). by destruct (shown ∅ dev es).
Qed.

(** The listing begins in the first directory, whichever device that is. *)
Lemma open_at dev d post calls : comrades_ok ((dev, d) :: post) ->
  let fi := mk_fi RbNull ((dev, d) :: post) dev 0 0 in
  at_device fi dev d post /\ kmap (fi_root fi) = ∅ /\
  (calls <> [] -> read_dir (hmdfs_dir_open_merge ((dev, d) :: post)) 0 calls = read_dir fi 0 calls).
Proof.
  intros [Hids Hdevs Hlocal] fi. assert (Hk : kmap RbNull = ∅) by apply fmap_empty. split_and!; [|done|].
  - split; cbn [fi fi_comrades cur_dev fi_root]; [by exists []|done|done| |split; [done|intros n Hn; by apply not_elem_of_nil in Hn]|].
    + intros l Hl. unfold left_over in Hl. cbn [fi dev_pos] in Hl.
      assert (Hin : l ∈ devices ((dev, d) :: post)) by exact Hl. apply list_elem_of_fmap in Hin as (c&->&Hin). by apply Hdevs.
    + intros n k Hn. by rewrite Hk, lookup_empty in Hn.
  - intros Hne. destruct calls as [|fits calls]; [done|]. clear Hne.
    assert (Hfirst : hmdfs_iterate_merge (emit fits) (hmdfs_dir_open_merge ((dev, d) :: post)) 0 [] = hmdfs_iterate_merge (emit fits) fi 0 []).
    { unfold hmdfs_iterate_merge. cbn [fi hmdfs_dir_open_merge fi_comrades cur_dev head]. change (0 =? -1) with false. cbv iota.
      pose proof (proj1 (get_file_info_at [] post dev d Hids)) as Hget. cbn [app] in Hget. rewrite Hget. unfold get_hmdfs_file_info. cbn [List.find fst].
      destruct (dev =? 0); [done|]. destruct (List.find _ post) as [c|] eqn:E; [|done]. apply find_some in E as [Hin E]. apply Z.eqb_eq in E.
      by destruct (Hlocal c (proj2 (list_elem_of_In _ _) Hin)). }
    cbn [read_dir]. by rewrite Hfirst.
Qed.

(** The listing, when the device in front has an entry. *)
Lemma listing_shown comrades calls : comrades_ok comrades ->
  (exists c e, head comrades = Some c /\ e ∈ ld_rest c.2 0 /\ common e = true) ->
  Forall (fun fits => forall e, fits [] e = true) calls -> Z.of_nat (length calls) < 2 ^ 31 ->
  exists outs pos fi, read_dir (hmdfs_dir_open_merge comrades) 0 calls = Some (outs, pos, fi) /\
    concat outs `prefix_of` merged (devices comrades) /\
    ((length (merged (devices comrades)) < length calls)%nat -> pos = -1 /\ concat outs = merged (devices comrades)).
Proof.
  intros Hok ([dev d]&e&Hhead&He&Hc) Hfits Hmax. destruct comrades as [|c post]; [done|]. injection Hhead as ->.
  destruct (open_at dev d post calls Hok) as (Hat&Hk&Hsame). set (fi := mk_fi _ _ _ _ _) in *.
  assert (Hmerged : to_show fi dev d post = merged (devices ((dev, d) :: post))) by (unfold to_show; by rewrite Hk).
  destruct (decide (calls = [])) as [->|Hne]; [eexists [], 0, _; split_and!; [done|apply prefix_nil|cbn; lia]|].
  rewrite Hsame, <- Hmerged by done. apply read_dir_at; try done.
  unfold shows_here. rewrite Hk. apply shown_first. by exists e.
Qed.

Lemma shown_nothing m dev es : (forall e, e ∈ es -> common e = false) -> shown m dev es = ([], m).
Proof.
  induction es as [|e es IH]; intros Hc; [done|]. cbn [shown]. unfold show. rewrite (Hc e) by by left. cbn [negb].
  by rewrite IH by (intros x Hx; apply Hc; by right).
Qed.

Lemma read_dir_stuck calls : forall fi pos dev d post, at_device fi dev d post -> pos <> -1 -> (forall e, e ∈ ld_rest d (dev_pos fi) -> common e = false) ->
  0 <= fi_seq fi -> fi_seq fi + Z.of_nat (length calls) < 2 ^ 31 ->
  exists outs pos' fi', read_dir fi pos calls = Some (outs, pos', fi') /\ concat outs = [] /\ pos' <> -1.
Proof.
  induction calls as [|fits calls IH]; intros fi pos dev d post Hat Hpos Hno Hseq Hmax; [by exists [], pos, fi|].
  pose proof Hat as [[pre Hsplit] Hids Hcur Hdevs _ _]. pose proof (proj1 (Hdevs _ (list_elem_of_here _ _))) as Hdev. cbn [fst] in Hdev.
  pose proof Hids as Hids'. rewrite Hsplit in Hids'.
  cbn [read_dir]. unfold hmdfs_iterate_merge. assert (pos =? -1 = false) as -> by (by apply Z.eqb_neq).
  rewrite Hcur, Hsplit, (proj1 (get_file_info_at pre post dev d Hids')), <- Hsplit. cbn [fst].
  assert (mk_fi (fi_root fi) (fi_comrades fi) dev (dev_pos fi) (fi_seq fi) = fi) as -> by (rewrite <- Hcur; by destruct fi).
  destruct (length (fi_comrades fi)) as [|n] eqn:Hn; [rewrite Hsplit, length_app in Hn; cbn in Hn; lia|]. cbn [iterate_loop fst snd].
  assert (Hhere : shows_here fi dev d = []) by (unfold shows_here; by rewrite shown_nothing).
  destruct (device_step fits fi pos dev d post false [] Hat) as (err&p&cb&->&Herr&Hroot&Hkinds&Hcase). cbn [mbind option_bind].
  destruct Hcase as [(->&Hend&Hu&Hm&Hr)|(_&_&_&out&here&m&_&_&Hne&Hall)].
  2: { rewrite shown_nothing in Hall by done. injection Hall as E _. symmetry in E. by apply app_nil in E as [_ ->]. }
  rewrite Hhere in Hr, Hu. rewrite Hr. change (0 <? 0) with false. cbn [orb negb mbind option_bind fi_seq fi_root fi_comrades cur_dev dev_pos].
  cbn [length] in Hmax. set (fi1 := mk_fi (cb_root cb) (fi_comrades fi) (cur_dev fi) p (fi_seq fi + 1)).
  destruct (IH fi1 (hmdfs_set_pos dev 0 (fi_seq fi + 1)) dev d post) as (outs&pos'&fi'&->&Hc&Hp); cbn [fi1 fi_seq dev_pos]; try lia.
  - split; try done; [by exists pre|]. intros l [->|Hl]%elem_of_cons; [|apply Hdevs; by right]. cbn [fi1 dev_pos fst snd]. rewrite Hend. by split.
  - apply set_pos_not_end; [done|lia].
  - rewrite Hend. intros e He. by apply not_elem_of_nil in He.
  - cbn [mbind option_bind]. eexists _, _, _. split; [done|]. cbn [concat]. by rewrite Hu, Hc.
Qed.

(** The listing, when it has none. *)
Lemma listing_stuck comrades c calls : comrades_ok comrades ->
  head comrades = Some c -> (forall e, e ∈ ld_rest c.2 0 -> common e = false) -> Z.of_nat (length calls) < 2 ^ 31 ->
  exists outs pos fi, read_dir (hmdfs_dir_open_merge comrades) 0 calls = Some (outs, pos, fi) /\ concat outs = [] /\ pos <> -1.
Proof.
  intros Hok Hhead Hno Hmax. destruct comrades as [|[dev d] post]; [done|]. injection Hhead as <-.
  destruct (open_at dev d post calls Hok) as (Hat&Hk&Hsame). destruct (decide (calls = [])) as [->|Hne]; [by eexists [], 0, _|].
  rewrite Hsame by done. by eapply read_dir_stuck.
Qed.

(** Whatever the first directory holds. *)
Lemma listing_prefix comrades c calls : comrades_ok comrades -> head comrades = Some c ->
  Forall (fun fits => forall e, fits [] e = true) calls -> Z.of_nat (length calls) < 2 ^ 31 ->
  exists outs pos fi, read_dir (hmdfs_dir_open_merge comrades) 0 calls = Some (outs, pos, fi) /\ concat outs `prefix_of` merged (devices comrades) /\
    if existsb common (ld_rest c.2 0)
    then (length (merged (devices comrades)) < length calls)%nat -> pos = -1 /\ concat outs = merged (devices comrades)
    else concat outs = [] /\ pos <> -1.
Proof.
  intros Hok Hhead Hfits Hmax. destruct (existsb common (ld_rest c.2 0)) eqn:E.
  - apply existsb_exists in E as (e&He&Hc). apply listing_shown; [done| |done|done]. exists c, e. split_and!; [done|by apply list_elem_of_In|done].
  - destruct (listing_stuck comrades c calls Hok Hhead) as (outs&pos&fi&->&Hc&Hp); [|done|].
    + intros e He. apply not_true_iff_false. intros Hc. apply not_true_iff_false in E. apply E, existsb_exists. exists e. split; [by apply list_elem_of_In|done].
    + exists outs, pos, fi. rewrite Hc. split_and!; [done|apply prefix_nil|done|done].
Qed.

(** When the directory of the device in front has no entries but "." and "..", the entries of
    no other device are ever listed: every call returns nothing, which a reader takes for the
    end, and the position stays in front of it. *)
Theorem empty_device_hides_others comrades c calls : comrades_ok comrades ->
  head comrades = Some c -> (forall e, e ∈ ld_rest c.2 0 -> common e = false) -> Z.of_nat (length calls) < 2 ^ 31 ->
  exists outs pos fi, read_dir (hmdfs_dir_open_merge comrades) 0 calls = Some (outs, pos, fi) /\
    Forall (fun out => out = []) outs /\ length outs = length calls /\ pos <> -1.
Proof.
  intros Hok Hhead Hno Hmax. destruct (listing_stuck comrades c calls Hok Hhead Hno Hmax) as (outs&pos&fi&E&Hc&Hp).
  exists outs, pos, fi. split_and!; [done| |by eapply read_dir_length|done].
  clear E. induction outs as [|o outs IH]; [constructor|]. cbn [concat] in Hc. apply app_nil in Hc as [-> Hc]. constructor; auto.
Qed.

(** C23: Listing a merged directory shows the entries of all devices, whatever the buffers of the
    reader have room for, within the limits of its names: the entries are directories, regular
    files and links, their names have at most 238 bytes, so that the suffix of an entry in conflict
    fits NAME_MAX, and do not end in "_remote_directory" themselves, and device ids are below
    10000. Provided every buffer takes an entry, the calls return the listing as it is meant, piece
    by piece and in order. Once there were more calls than entries all of it was returned and the
    end was reported, if the device in front has an entry at all. (A longer name in conflict ends
    the listing of its device: long_conflict_refused, long_conflict_hides_rest.) *)
Theorem merged_listing_complete comrades c calls : comrades_ok comrades -> head comrades = Some c ->
  Forall (fun fits => forall e, fits [] e = true) calls -> Z.of_nat (length calls) < 2 ^ 31 ->
  exists outs pos fi, read_dir (hmdfs_dir_open_merge comrades) 0 calls = Some (outs, pos, fi) /\
    concat outs `prefix_of` merged (devices comrades) /\
    (existsb common (ld_rest c.2 0) = true -> (length (merged (devices comrades)) < length calls)%nat ->
       pos = -1 /\ concat outs = merged (devices comrades)).
Proof.
  intros Hok Hhead Hfits Hmax. destruct (listing_prefix comrades c calls Hok Hhead Hfits Hmax) as (outs&pos&fi&E&Hpre&Hend).
  exists outs, pos, fi. split_and!; [done|done|]. intros Hc. by rewrite Hc in Hend.
Qed.
End Sequence.

(** * The names of the listing *)

Definition plain (e : dirent) : Prop := check_filename (de_name e) = Some DT_UNKNOWN.

Record devs_ok (devs : list (Z * list dirent)) : Prop := {
  do_ids : NoDup (map fst devs);
  do_dev d : d ∈ devs -> dev_ok d.1;
  do_entry d e : d ∈ devs -> e ∈ d.2 -> entry_ok e /\ plain e;
  do_names d : d ∈ devs -> NoDup (map de_name d.2)
}.

(** What a shown name says: the name on the device, and for renamed entries what they are. *)
Definition key (x : dirent) : option (bytes * Z * option Z) := hmdfs_get_real_dname (de_name x).
Definition key_of_name (n : bytes) := Some (n, DT_UNKNOWN, @None Z).
Definition key_of_dir (n : bytes) := Some (n, DT_DIR, @None Z).
Definition key_of_file (n : bytes) (dev : Z) := Some (n, DT_REG, Some dev).

(** Names of the map and directories among them stay. *)
Definition grows (m m' : gmap bytes Z) : Prop :=
  forall n, (is_Some (m !! n) -> is_Some (m' !! n)) /\ (m !! n = Some DT_DIR -> m' !! n = Some DT_DIR).

(** The key of an entry shown between [m] and [m'], for one of the names [ns] of a device. *)
Definition fresh_key (m m' : gmap bytes Z) (dev : Z) (ns : list bytes) (k : option (bytes * Z * option Z)) : Prop :=
  exists n, n ∈ ns /\
    (k = key_of_name n /\ m !! n = None /\ is_Some (m' !! n) \/
     k = key_of_dir n /\ m !! n = Some DT_REG /\ m' !! n = Some DT_DIR \/
     k = key_of_file n dev).

Lemma grows_refl m : grows m m.
Proof. by intros n. Qed.

Lemma grows_trans m1 m2 m3 : grows m1 m2 -> grows m2 m3 -> grows m1 m3.
Proof. intros H1 H2 n. destruct (H1 n), (H2 n). auto. Qed.

Lemma plain_key e : plain e -> hmdfs_get_real_dname (de_name e) = key_of_name (de_name e).
Proof. intros Hp. unfold hmdfs_get_real_dname. rewrite Hp. done. Qed.

(** Showing an entry: its name, and what becomes of the map. *)
Lemma show_cases m dev e : kinds_ok m -> entry_ok e -> plain e -> dev_ok dev -> common e = true ->
  exists n m', show m dev e = (n, m') /\ grows m m' /\ (forall x, x <> de_name e -> m' !! x = m !! x) /\
    ((n = Some (de_name e) /\ m !! de_name e = None /\ m' !! de_name e = Some (kind (de_type e))) \/
     (n = None /\ de_type e = DT_DIR /\ m !! de_name e = Some DT_DIR /\ m' = m) \/
     (exists n', n = Some n' /\ de_type e = DT_DIR /\ m !! de_name e = Some DT_REG /\ m' !! de_name e = Some DT_DIR /\
        hmdfs_get_real_dname n' = key_of_dir (de_name e)) \/
     (exists n', n = Some n' /\ de_type e <> DT_DIR /\ is_Some (m !! de_name e) /\ m' = m /\
        hmdfs_get_real_dname n' = key_of_file (de_name e) dev)).
Proof.
  intros Hk He Hp Hd Hc. unfold show. rewrite Hc. cbn [negb]. destruct (m !! de_name e) as [k|] eqn:Hm.
  - destruct (de_type e =? DT_DIR) eqn:Ht; zb.
    + destruct (Hk _ _ Hm) as [->| ->].
      * change (DT_DIR =? DT_DIR) with true. eexists _, _. split; [done|]. split_and!; [apply grows_refl|done|]. right. left. done.
      * change (DT_REG =? DT_DIR) with false. cbv iota. rewrite rename_directory_eq
          by (change (zlength CONFLICTING_DIR_SUFFIX) with 17; pose proof (eo_len _ He); unfold NAME_MAX; lia).
        eexists _, _. split; [done|]. split_and!; [|intros x Hx; by rewrite lookup_insert_ne|].
        { intros x. destruct (decide (x = de_name e)) as [->|]; [rewrite lookup_insert_eq|by rewrite lookup_insert_ne]. split; [done|done]. }
        right. right. left. eexists. split_and!; [done|done|done|apply lookup_insert_eq|apply dir_name_back].
    + destruct (rename_file_back (de_name e) dev (eo_slash _ He) (eo_plain _ He) Hd) as (n'&->&_&Hback);
        [pose proof (eo_len _ He); unfold file_suffix_len, max_devid_len, NAME_MAX; lia|].
      eexists _, _. split; [done|]. split_and!; [apply grows_refl|done|]. right. right. right. exists n'. split_and!; try done.
  - eexists _, _. split; [done|]. split_and!; [|intros x Hx; by rewrite lookup_insert_ne|].
    + intros x. destruct (decide (x = de_name e)) as [->|]; [rewrite lookup_insert_eq|by rewrite lookup_insert_ne]. by rewrite Hm.
    + left. split_and!; [done|done|apply lookup_insert_eq].
Qed.

Lemma show_fresh m dev e : kinds_ok m -> entry_ok e -> plain e -> dev_ok dev ->
  grows m (show m dev e).2 /\ (forall x, x <> de_name e -> (show m dev e).2 !! x = m !! x) /\
  forall x, x ∈ as_shown e (show m dev e).1 -> fresh_key m (show m dev e).2 dev [de_name e] (key x).
Proof.
  intros Hk He Hp Hd. destruct (common e) eqn:Hc.
  - destruct (show_cases m dev e Hk He Hp Hd Hc) as (n&m'&->&Hg&Hx&Hcase). cbn [fst snd]. split_and!; [done|done|].
    intros x Hin. exists (de_name e). split; [by left|].
    destruct Hcase as [(->&H1&H2)|[(->&_)|[(n'&->&_&H1&H2&Hb)|(n'&->&_&H1&->&Hb)]]]; cbn [as_shown] in Hin;
      [|by apply not_elem_of_nil in Hin|..]; apply list_elem_of_singleton in Hin as ->; unfold key; cbn [de_name].
    + left. rewrite plain_key by done. split_and!; [done|done|by eexists].
    + right. by left.
    + right. by right.
  - unfold show. rewrite Hc. cbn [negb fst snd as_shown]. split_and!; [apply grows_refl|done|]. intros x Hin. by apply not_elem_of_nil in Hin.
Qed.

Lemma shown_fresh dev es : forall m, kinds_ok m -> (forall e, e ∈ es -> entry_ok e /\ plain e) -> dev_ok dev -> NoDup (map de_name es) ->
  grows m (shown m dev es).2 /\ NoDup (map key (shown m dev es).1) /\
  forall x, x ∈ (shown m dev es).1 -> fresh_key m (shown m dev es).2 dev (map de_name es) (key x).
Proof.
  induction es as [|e es IH]; intros m Hk He Hd Hn.
  { cbn. split_and!; [apply grows_refl|apply NoDup_nil_2|]. intros x Hin. by apply not_elem_of_nil in Hin. }
  cbn [map] in Hn. apply list.NoDup_cons in Hn as [Hne Hn]. destruct (He e) as [He1 Hp1]; [by left|].
  destruct (show_fresh m dev e Hk He1 Hp1 Hd) as (Hg1&Hx1&Hf1). pose proof (show_kinds m dev e Hk He1) as Hk1. cbn [shown].
  destruct (show m dev e) as [n m1]. cbn [fst snd] in *.
  destruct (IH m1) as (Hg2&Hnd&Hf2); [done|intros y Hy; apply He; by right|done|done|]. destruct (shown m1 dev es) as [out m2]. cbn [fst snd] in *.
  assert (Hlate : forall x, x ∈ out -> exists y, y ∈ map de_name es /\ y <> de_name e /\
    (key x = key_of_name y /\ m !! y = None /\ is_Some (m2 !! y) \/ key x = key_of_dir y /\ m !! y = Some DT_REG /\ m2 !! y = Some DT_DIR \/ key x = key_of_file y dev)).
  { intros x Hin. destruct (Hf2 x Hin) as (y&Hy&Hcase). exists y. assert (y <> de_name e) by (intros ->; done).
    rewrite Hx1 in Hcase by done. by split_and!. }
  split_and!; [by eapply grows_trans| |].
  - rewrite map_app. apply list.NoDup_app. split_and!; [|  |done].
    + destruct n; cbn [as_shown map]; [apply NoDup_singleton|apply NoDup_nil_2].
    + intros k Hk' Hin. apply list_elem_of_fmap in Hk' as (x&->&Hx). apply list_elem_of_fmap in Hin as (x'&E&Hx').
      destruct (Hf1 x Hx) as (y&Hy&Hc1). apply list_elem_of_singleton in Hy as ->. destruct (Hlate x' Hx') as (z&_&Hz&Hc2).
      rewrite E in Hc1. clear E. unfold key_of_name, key_of_dir, key_of_file in *.
      destruct Hc1 as [(E1&_)|[(E1&_)|E1]], Hc2 as [(E2&_)|[(E2&_)|E2]]; rewrite E1 in E2; injection E2; congruence.
  - intros x [Hin|Hin]%elem_of_app.
    + destruct (Hf1 x Hin) as (y&Hy&Hc1). apply list_elem_of_singleton in Hy as ->. exists (de_name e). split; [by left|].
      destruct (Hg2 (de_name e)) as [G1 G2]. destruct Hc1 as [(?&?&?)|[(?&?&?)|?]]; [left; split_and!; auto|right; left; split_and!; auto|by right; right].
    + destruct (Hlate x Hin) as (y&Hy&_&Hcase). exists y. split; [by right|done].
Qed.

Lemma shown_all_fresh devs : forall m, kinds_ok m -> devs_ok devs ->
  NoDup (map key (shown_all m devs)) /\
  forall x, x ∈ shown_all m devs -> exists dev n, dev ∈ map fst devs /\
    (key x = key_of_name n /\ m !! n = None \/ key x = key_of_dir n /\ m !! n <> Some DT_DIR \/ key x = key_of_file n dev).
Proof.
  induction devs as [|[dev es] devs IH]; intros m Hk [Hi Hd He Hn]; [split; [apply NoDup_nil_2|]; intros x Hin; by apply not_elem_of_nil in Hin|].
  cbn [map] in Hi. apply list.NoDup_cons in Hi as [Hdev Hi]. cbn [shown_all].
  destruct (shown_fresh dev es m Hk) as (Hg&Hnd&Hf); [intros e Hin; apply (He (dev, es) e); [by left|done]|apply (Hd (dev, es)); by left|apply (Hn (dev, es)); by left|].
  assert (Hk1 : kinds_ok (shown m dev es).2).
  { apply shown_kinds; [done|]. apply list.Forall_forall. intros e Hin. apply (He (dev, es) e); [by left|done]. }
  destruct (shown m dev es) as [out m1]. cbn [fst snd] in *. destruct (IH m1 Hk1) as [Hnd2 Hf2].
  { split; [done|intros d Hin; apply Hd; by right|intros d e Hin; apply (He d e); by right|intros d Hin; apply Hn; by right]. }
  split.
  - rewrite map_app. apply list.NoDup_app. split_and!; [done| |done]. intros k Hk' Hin.
    apply list_elem_of_fmap in Hk' as (x&->&Hx). apply list_elem_of_fmap in Hin as (x'&E&Hx').
    destruct (Hf x Hx) as (y&_&Hc1). destruct (Hf2 x' Hx') as (dev2&z&Hz&Hc2). rewrite E in Hc1. clear E.
    unfold key_of_name, key_of_dir, key_of_file in *.
    destruct Hc1 as [(E1&_&[? H1])|[(E1&_&H1)|E1]], Hc2 as [(E2&H2)|[(E2&H2)|E2]]; rewrite E1 in E2; injection E2; intros; subst; first [congruence|by destruct Hdev].
  - intros x [Hin|Hin]%elem_of_app.
    + destruct (Hf x Hin) as (y&_&Hcase). exists dev, y. split; [by left|].
      destruct Hcase as [(?&?&_)|[(?&E&_)|?]]; [by left|right; left; split; [done|by rewrite E]|by right; right].
    + destruct (Hf2 x Hin) as (dev2&y&Hdev2&Hcase). exists dev2, y. split; [by right|]. destruct (Hg y) as [G1 G2].
      destruct Hcase as [(?&E)|[(?&E)|?]]; [left|right; left|by right; right]; split; try done; [|intros E'; by apply E, G2].
      destruct (m !! y) eqn:Em; [|done]. destruct G1 as [? E']; [by eexists|congruence].
Qed.

(** The entry is listed: a directory perhaps as that of another device. *)
Definition listed (l : list dirent) (dev : Z) (e : dirent) : Prop :=
  exists x, x ∈ l /\
    if de_type e =? DT_DIR then de_type x = DT_DIR /\ (key x = key_of_name (de_name e) \/ key x = key_of_dir (de_name e))
    else de_ino x = de_ino e /\ de_type x = de_type e /\ (key x = key_of_name (de_name e) \/ key x = key_of_file (de_name e) dev).

Definition dirs_listed (m : gmap bytes Z) (l : list dirent) : Prop :=
  forall n, m !! n = Some DT_DIR -> exists x, x ∈ l /\ de_type x = DT_DIR /\ (key x = key_of_name n \/ key x = key_of_dir n).

Lemma listed_app l l' dev e : listed l dev e -> listed (l ++ l') dev e.
Proof. intros (x&Hx&Hc). exists x. split; [|done]. apply elem_of_app. by left. Qed.

Lemma show_lists m dev e l : kinds_ok m -> entry_ok e -> plain e -> dev_ok dev -> dirs_listed m l ->
  dirs_listed (show m dev e).2 (l ++ as_shown e (show m dev e).1) /\
  (common e = true -> listed (l ++ as_shown e (show m dev e).1) dev e).
Proof.
  intros Hk He Hp Hd Hl.
  assert (Hold : forall l', dirs_listed m (l ++ l')) by (intros l' n Hn; destruct (Hl n Hn) as (x&Hx&Hc); exists x; split; [apply elem_of_app; by left|done]).
  destruct (common e) eqn:Hc; [|unfold show; rewrite Hc; split; [apply Hold|done]].
  destruct (show_cases m dev e Hk He Hp Hd Hc) as (n&m'&->&Hg&Hx&Hcase). cbn [fst snd].
  assert (Hnew : forall n', n = Some n' -> m' !! de_name e = Some DT_DIR -> de_type e = DT_DIR -> hmdfs_get_real_dname n' = key_of_name (de_name e) \/ hmdfs_get_real_dname n' = key_of_dir (de_name e) ->
    dirs_listed m' (l ++ as_shown e n)).
  { intros n' -> Hm' Ht Hkey y Hy. destruct (decide (y = de_name e)) as [->|Hne].
    - eexists. split; [apply elem_of_app; right; by left|]. by split.
    - rewrite Hx in Hy by done. by apply Hold. }
  assert (Hself : forall n', n = Some n' -> mk_dirent n' (de_ino e) (de_type e) ∈ l ++ as_shown e n) by (intros n' ->; apply elem_of_app; right; by left).
  destruct Hcase as [(->&H1&H2)|[(->&Ht&H1&->)|[(n'&->&Ht&H1&H2&Hb)|(n'&->&Ht&H1&->&Hb)]]].
  - specialize (Hself _ eq_refl). pose proof (plain_key e Hp) as Hkey. split.
    + destruct (eo_type _ He) as [Ht|Ht]; [apply (Hnew _ eq_refl); [by rewrite H2, Ht|done|by left]|].
      intros y Hy. destruct (decide (y = de_name e)) as [->|Hne]; [|rewrite Hx in Hy by done; by apply Hold].
      rewrite H2 in Hy. destruct Ht as [Ht|Ht]; rewrite Ht in Hy; discriminate Hy.
    + intros _. eexists. split; [exact Hself|]. destruct (de_type e =? DT_DIR) eqn:E; zb; cbn [de_ino de_type]; [|split_and!; [done|done|by left]].
      split; [done|by left].
  - split; [apply Hold|]. intros _. destruct (Hl _ H1) as (x&Hin&Hxt&Hkey). exists x. split; [apply elem_of_app; by left|].
    rewrite Ht. change (DT_DIR =? DT_DIR) with true. by split.
  - specialize (Hself _ eq_refl). split; [apply (Hnew _ eq_refl); [done|done|by right]|]. intros _. eexists. split; [exact Hself|].
    rewrite Ht. change (DT_DIR =? DT_DIR) with true. cbn [de_type]. split; [done|by right].
  - specialize (Hself _ eq_refl). split; [apply Hold|]. intros _. eexists. split; [exact Hself|].
    assert (de_type e =? DT_DIR = false) as -> by (by apply Z.eqb_neq). cbn [de_ino de_type]. split_and!; [done|done|by right].
Qed.

Lemma shown_lists dev es : forall m l, kinds_ok m -> (forall e, e ∈ es -> entry_ok e /\ plain e) -> dev_ok dev -> dirs_listed m l ->
  dirs_listed (shown m dev es).2 (l ++ (shown m dev es).1) /\ forall e, e ∈ es -> common e = true -> listed (l ++ (shown m dev es).1) dev e.
Proof.
  induction es as [|e es IH]; intros m l Hk He Hd Hl.
  { cbn. rewrite app_nil_r. split; [done|]. intros e Hin. by apply not_elem_of_nil in Hin. }
  destruct (He e) as [He1 Hp1]; [by left|]. destruct (show_lists m dev e l Hk He1 Hp1 Hd Hl) as [Hl1 Hc1].
  pose proof (show_kinds m dev e Hk He1) as Hk1. cbn [shown]. destruct (show m dev e) as [n m1]. cbn [fst snd] in *.
  destruct (IH m1 (l ++ as_shown e n) Hk1) as [Hl2 Hc2]; [intros y Hy; apply He; by right|done|exact Hl1|]. destruct (shown m1 dev es) as [out m2]. cbn [fst snd] in *.
  rewrite app_assoc. split; [done|]. intros y [->|Hy]%elem_of_cons Hc; [by apply listed_app, Hc1|by apply Hc2].
Qed.

Lemma shown_all_lists devs : forall m l, kinds_ok m -> devs_ok devs -> dirs_listed m l ->
  forall dev es e, (dev, es) ∈ devs -> e ∈ es -> common e = true -> listed (l ++ shown_all m devs) dev e.
Proof.
  induction devs as [|[dev es] devs IH]; intros m l Hk [Hi Hd He Hn] Hl dev' es' e Hin; [by apply not_elem_of_nil in Hin|].
  cbn [map] in Hi. apply list.NoDup_cons in Hi as [_ Hi]. cbn [shown_all].
  assert (Hes : forall x, x ∈ es -> entry_ok x /\ plain x) by (intros x Hx; apply (He (dev, es) x); [by left|done]).
  destruct (shown_lists dev es m l Hk Hes) as [Hl1 Hc1]; [apply (Hd (dev, es)); by left|done|].
  assert (Hk1 : kinds_ok (shown m dev es).2) by (apply shown_kinds; [done|]; apply list.Forall_forall; intros x Hx; by apply Hes).
  destruct (shown m dev es) as [out m1]. cbn [fst snd] in *. intros Hx Hc. rewrite app_assoc. apply elem_of_cons in Hin as [[= -> ->]|Hin].
  - by apply listed_app, Hc1.
  - apply (IH m1 (l ++ out)) with es'; try done.
    split; [done|intros d Hin'; apply Hd; by right|intros d y Hin'; apply (He d y); by right|intros d Hin'; apply Hn; by right].
Qed.

(** No name of the listing as it is meant appears twice, and every entry is there. *)
Lemma merged_distinct devs : devs_ok devs ->
  NoDup (map de_name (merged devs)) /\
  forall dev es e, (dev, es) ∈ devs -> e ∈ es -> common e = true -> listed (merged devs) dev e.
Proof.
  intros Hok. assert (Hk : kinds_ok ∅) by (intros n k Hn; by rewrite lookup_empty in Hn). split.
  - destruct (shown_all_fresh devs ∅ Hk Hok) as [Hnd _]. unfold key in Hnd. apply (NoDup_fmap_1 hmdfs_get_real_dname).
    rewrite <- list_fmap_compose. exact Hnd.
  - intros dev es e Hin He Hc. apply (shown_all_lists devs ∅ [] Hk Hok) with es; try done.
Qed.

Section Distinct.
Context `{RbTree} `{!RbTreeLaws} {D : Type} `{!LowerDir D} `{!LowerDirLaws D}.

Lemma devs_ok_comrades (comrades : list (Z * D)) : devs_ok (devices comrades) -> (forall c, c ∈ tail comrades -> c.1 <> 0) -> comrades_ok comrades.
Proof.
  intros [Hi Hd He Hn] Hlocal. unfold devices in *. rewrite map_map in Hi. split; [exact Hi| |done].
  intros c Hc. assert (Hin : (c.1, ld_rest c.2 0) ∈ map (fun c => (c.1, ld_rest c.2 0)) comrades) by (apply list_elem_of_fmap; by exists c).
  split; [by apply (Hd _ Hin)|]. apply list.Forall_forall. intros e Hein. by apply (He _ e Hin).
Qed.

(** Reading a merged directory to its end yields no name twice, and every entry of every
    device. A file has its own name or, if that was taken, one from which a lookup finds its
    name and its device; directories of one name are one entry, under their name or, if a file
    has it, under one from which a lookup finds it. *)
Theorem merged_names_distinct (comrades : list (Z * D)) c calls : devs_ok (devices comrades) -> (forall c, c ∈ tail comrades -> c.1 <> 0) ->
  head comrades = Some c -> existsb common (ld_rest c.2 0) = true ->
  Forall (fun fits => forall e, fits [] e = true) calls -> Z.of_nat (length calls) < 2 ^ 31 ->
  (length (merged (devices comrades)) < length calls)%nat ->
  exists outs fi, read_dir (hmdfs_dir_open_merge comrades) 0 calls = Some (outs, -1, fi) /\
    NoDup (map de_name (concat outs)) /\
    forall dev d e, (dev, d) ∈ comrades -> e ∈ ld_rest d 0 -> common e = true -> listed (concat outs) dev e.
Proof.
  intros Hdevs Hlocal Hhead Hfirst Hfits Hmax Hlen. pose proof (devs_ok_comrades comrades Hdevs Hlocal) as Hok.
  destruct (listing_prefix comrades c calls Hok Hhead Hfits Hmax) as (outs&pos&fi&E&_&Hend). rewrite Hfirst in Hend.
  destruct (Hend Hlen) as [-> Hall]. destruct (merged_distinct _ Hdevs) as [Hnd Hl]. exists outs, fi. rewrite Hall. split_and!; [done|done|].
  intros dev d e Hin He Hc. apply (Hl dev (ld_rest d 0)); [|done|done]. apply list_elem_of_fmap. by exists (dev, d).
Qed.
End Distinct.

(** * Examples *)

Lemma walk_suffix {S} (act : S -> dirent -> option (bool * S)) l : forall s rest s', walk act l s = Some (rest, s') -> rest `suffix_of` l.
Proof.
  induction l as [|e l IH]; intros s rest s' Hw; cbn [walk] in Hw; [by injection Hw as <- _|].
  destruct (act s e) as [[ok s1]|]; [|done]. cbn [mbind option_bind] in Hw. destruct ok; [apply suffix_cons_r; by eapply IH|].
  by injection Hw as <- _.
Qed.

(** A directory that is a list, whose positions are indices. *)
#[local] Instance list_dir : LowerDir (list dirent) := {|
  iterate_dir := fun _ act d pos s =>
    '(rest, s) ← walk act (drop (Z.to_nat pos) d) s; Some (0, Z.of_nat (length d - length rest), s);
  ld_rest := fun d pos => drop (Z.to_nat pos) d
|}.

#[local] Instance list_dir_laws : LowerDirLaws (list dirent).
Proof.
  split. intros S act d pos s. cbn [iterate_dir ld_rest list_dir]. destruct (walk act _ s) as [[rest s']|] eqn:Hw; cbn [mbind option_bind]; [|done].
  split_and!; [done| |done|done]. rewrite Nat2Z.id. apply walk_suffix in Hw as [k Hk].
  rewrite <- (take_drop (Z.to_nat pos) d), Hk. rewrite app_assoc, !length_app.
  replace (_ - _)%nat with (length (take (Z.to_nat pos) d ++ k)) by (rewrite length_app; lia). apply drop_app_length.
Qed.
#[local] Existing Instances plain_tree plain_tree_laws.

(** Two devices with a file "a" each, and a directory "a" on the second. *)
Definition file_a (ino : Z) : dirent := mk_dirent [97] ino DT_REG.
Definition dir_b (ino : Z) : dirent := mk_dirent [98] ino DT_DIR.
Definition dots : list dirent := [mk_dirent [46] 1 DT_DIR; mk_dirent [46; 46] 2 DT_DIR].
Definition two_devices : list (Z * list dirent) := [(0, dots ++ [file_a 10]); (1, [file_a 20; dir_b 21])].
Definition one_each (u : list dirent) (_ : dirent) : bool := bool_decide (u = []).

Lemma short_entry n ino ty : (ty = DT_DIR \/ ty = DT_REG \/ ty = DT_LNK) -> bool_decide (0 ∉ n /\ ServerPath.SLASH ∉ n /\ (length n < 13)%nat) = true ->
  entry_ok (mk_dirent n ino ty) /\ plain (mk_dirent n ino ty).
Proof.
  intros Ht (Hn&Hs&Hl)%bool_decide_eq_true. split.
  - split; cbn [de_type de_name]; [done|done|done| |unfold zlength; lia].
    intros [k ->]. rewrite length_app in Hl. cbn in Hl. lia.
  - unfold plain, check_filename, zlength. cbn [de_name]. change (length CONFLICTING_DIR_SUFFIX) with 17%nat. change (length CONFLICTING_FILE_CONST_SUFFIX) with 13%nat.
    assert (Z.of_nat 17 <=? Z.of_nat (length n) = false) as -> by (apply Z.leb_gt; lia).
    assert (Z.of_nat 13 <=? Z.of_nat (length n) = false) as -> by (apply Z.leb_gt; lia). done.
Qed.

Lemma two_devices_entries d e : d ∈ two_devices -> e ∈ d.2 -> entry_ok e /\ plain e.
Proof.
  intros Hd He. repeat (apply elem_of_cons in Hd as [->|Hd]; [|]); [| |by apply not_elem_of_nil in Hd]; cbn in He;
    repeat (apply elem_of_cons in He as [->|He]; [apply short_entry; [by auto|reflexivity]|]); by apply not_elem_of_nil in He.
Qed.

Lemma two_devices_ok : devs_ok two_devices.
Proof.
  split.
  - by apply (bool_decide_unpack _).
  - intros d Hd. repeat (apply elem_of_cons in Hd as [->|Hd]; [unfold dev_ok; cbn; lia|]). by apply not_elem_of_nil in Hd.
  - apply two_devices_entries.
  - intros d Hd. repeat (apply elem_of_cons in Hd as [->|Hd]; [by apply (bool_decide_unpack _)|]). by apply not_elem_of_nil in Hd.
Qed.

Lemma two_devices_comrades : comrades_ok two_devices.
Proof.
  split; [apply (do_ids _ two_devices_ok)| |].
  - intros c Hc. split; [by apply (do_dev _ two_devices_ok)|]. apply list.Forall_forall. intros e He. by eapply two_devices_entries.
  - intros c Hc. apply list_elem_of_singleton in Hc as ->. done.
Qed.

Definition four_calls := [one_each; one_each; one_each; one_each].
Lemma four_calls_fit : Forall (fun fits : list dirent -> dirent -> bool => forall e, fits [] e = true) four_calls.
Proof. repeat constructor; intros e; reflexivity. Qed.

Lemma merged_listing_complete_witness : comrades_ok two_devices /\
  (exists outs pos fi, read_dir (hmdfs_dir_open_merge two_devices) 0 four_calls = Some (outs, pos, fi) /\
    concat outs `prefix_of` merged (devices two_devices) /\
    (existsb common (ld_rest (dots ++ [file_a 10]) 0) = true -> (length (merged (devices two_devices)) < length four_calls)%nat ->
       pos = -1 /\ concat outs = merged (devices two_devices))).
Proof.
  split; [exact two_devices_comrades|]. apply (merged_listing_complete two_devices (0, dots ++ [file_a 10])).
  - exact two_devices_comrades.
  - reflexivity.
  - exact four_calls_fit.
  - reflexivity.
Defined.

(** A name of 239 bytes on both devices: the file behind it on the second one is never shown, and
    yet the end is reported. *)
Definition long_name : bytes := replicate 239 97.
Definition long_devices : list (Z * list dirent) := [(0, [mk_dirent long_name 1 DT_REG]); (1, [mk_dirent long_name 2 DT_REG; file_a 3])].

Lemma long_conflict_hides_rest : exists outs fi,
  read_dir (hmdfs_dir_open_merge long_devices) 0 [one_each; one_each; one_each; one_each; one_each] = Some (outs, -1, fi) /\
  concat outs = [mk_dirent long_name 1 DT_REG].
Proof. eexists _, _. split; vm_compute; reflexivity. Qed.

Lemma empty_device_hides_others_witness :
  let comrades := [(0, dots); (1, [file_a 20])] in
  exists outs pos fi, read_dir (hmdfs_dir_open_merge comrades) 0 [one_each; one_each] = Some (outs, pos, fi) /\
    Forall (fun out => out = []) outs /\ length outs = 2%nat /\ pos <> -1.
Proof.
  apply (empty_device_hides_others [(0, dots); (1, [file_a 20])] (0, dots) [one_each; one_each]).
  - split.
    + by apply (bool_decide_unpack _).
    + intros c Hc. repeat (apply elem_of_cons in Hc as [->|Hc]; [split; [unfold dev_ok; cbn; lia|]|]); [..|by apply not_elem_of_nil in Hc];
        repeat constructor; apply short_entry; (reflexivity || by auto).
    + intros c Hc. apply list_elem_of_singleton in Hc as ->. done.
  - reflexivity.
  - intros e He. repeat (apply elem_of_cons in He as [->|He]; [reflexivity|]). by apply not_elem_of_nil in He.
  - reflexivity.
Defined.

Lemma merged_names_distinct_witness : devs_ok (devices two_devices) /\
  exists outs fi, read_dir (hmdfs_dir_open_merge two_devices) 0 four_calls = Some (outs, -1, fi) /\
    NoDup (map de_name (concat outs)) /\
    forall dev d e, (dev, d) ∈ two_devices -> e ∈ ld_rest d 0 -> common e = true -> listed (concat outs) dev e.
Proof.
  split; [exact two_devices_ok|]. apply (merged_names_distinct two_devices (0, dots ++ [file_a 10])).
  - exact two_devices_ok.
  - intros c Hc. apply list_elem_of_singleton in Hc as ->. done.
  - reflexivity.
  - reflexivity.
  - exact four_calls_fit.
  - reflexivity.
  - vm_compute. lia.
Defined.

(** The two files are listed as "a" and "a_conflict_dev1". *)
Example two_devices_listed : map de_name (merged two_devices) = [[97]; 97 :: CONFLICTING_FILE_SUFFIX 1; [98]].
Proof. vm_compute. reflexivity. Qed.
