(* ===== verification/MergeLookup.v ===== *)
(** Looking a name up in the merge view (inode_merge.c): the works that look for the entry on
    every device, which end in any order, and the entries of the devices they link. *)
From stdpp Require Import relations.
From S2P Require Import Prelude DentryLayout ServerPath MergeName MergeList.

Section Lookup.
(** The dentries of the lower file system. *)
Context {L : Type}.
(** Finding a path below real_dst, and whether a dentry is a directory. *)
Variable vfs_path_lookup : bytes -> option L.
Variable S_ISDIR : L -> bool.

(** struct merge_lookup_work, and what lookups keep in struct hmdfs_dentry_info_merge. *)
Record merge_lookup_work := mk_work { mw_name : bytes; mw_devid : Z }.
Record merge_info := mk_mdi { mdi_type : Z; mdi_work_count : Z; mdi_comrades : list (Z * L) }.
Definition init_hmdfs_dentry_info_merge : merge_info := mk_mdi DT_UNKNOWN 0 [].

Definition HMDFS_DEVID_LOCAL := 0.

(** comrade_is_local, link_comrade: a device is linked once. *)
Definition link_comrade (l : list (Z * L)) (comrade : Z * L) : list (Z * L) :=
  if existsb (fun c : Z * L => c.1 =? comrade.1) l then l
  else if comrade.1 =? HMDFS_DEVID_LOCAL then comrade :: l else l ++ [comrade].

Definition is_valid_comrade (mdi : merge_info) (isdir : bool) : bool * merge_info :=
  if mdi_type mdi =? DT_UNKNOWN then
    (true, mk_mdi (if isdir then DT_DIR else DT_REG) (mdi_work_count mdi) (mdi_comrades mdi))
  else
    ((mdi_type mdi =? DT_DIR) && isdir ||
     (mdi_type mdi =? DT_REG) && match mdi_comrades mdi with [] => true | _ => false end && negb isdir, mdi).

Definition merge_lookup_comrade (w : merge_lookup_work) : option (Z * L) :=
  path ← vfs_path_lookup (mw_name w); Some (mw_devid w, path).

(** Also whether the waiting lookup is woken up. *)
Definition merge_lookup_work_func (mdi : merge_info) (w : merge_lookup_work) : merge_info * bool :=
  let '(found, mdi) :=
    match merge_lookup_comrade w with
    | None => (false, mdi)
    | Some c =>
        let '(valid, mdi) := is_valid_comrade mdi (S_ISDIR c.2) in
        if valid : bool then (true, mk_mdi (mdi_type mdi) (mdi_work_count mdi) (link_comrade (mdi_comrades mdi) c))
        else (false, mdi)
    end in
  let mdi := mk_mdi (mdi_type mdi) (mdi_work_count mdi - 1) (mdi_comrades mdi) in
  (mdi, (mdi_work_count mdi =? 0) || found).

(** The information of the dentry, and the works that are scheduled. *)
Definition lookup_state : Type := merge_info * list merge_lookup_work.

Definition merge_lookup_async (s : lookup_state) (devid : Z) (name : bytes) : lookup_state :=
  (mk_mdi (mdi_type s.1) (mdi_work_count s.1 + 1) (mdi_comrades s.1), s.2 ++ [mk_work name devid]).

(** A connected peer: its device id and its cid. *)
Definition peer : Type := Z * bytes.

Definition device_view : bytes := [100; 101; 118; 105; 99; 101; 95; 118; 105; 101; 119].
Definition local : bytes := [108; 111; 99; 97; 108].

(** device_view/<cid><ppath>/<rname> *)
Definition device_path (cid ppath rname : bytes) : bytes :=
  snprintf PATH_MAX (device_view ++ [SLASH] ++ cid ++ ppath ++ [SLASH] ++ rname).

(** lookup_merge_normal until it waits; [None] when the name is looked at from before its start. *)
Definition lookup_merge_normal (name ppath : bytes) (node_list : list peer) : option lookup_state :=
  '(rname, type, devid) ← hmdfs_get_real_dname name;
  let devid := default (-1) devid in
  let s := (mk_mdi type 0 [], []) in
  let s := if negb (type =? DT_REG) || (devid =? 0) then merge_lookup_async s 0 (device_path local ppath rname) else s in
  Some (foldl (fun s p =>
    if (type =? DT_REG) && negb (p.1 =? devid) then s else merge_lookup_async s p.1 (device_path p.2 ppath rname)) s node_list).

Definition lookup_merge_root (node_list : list peer) : lookup_state :=
  let s := (init_hmdfs_dentry_info_merge, []) in
  let s := merge_lookup_async s HMDFS_DEVID_LOCAL (snprintf PATH_MAX (device_view ++ [SLASH] ++ local)) in
  foldl (fun s p => merge_lookup_async s p.1 (snprintf PATH_MAX (device_view ++ [SLASH] ++ p.2))) s node_list.

(** What the lookup waits for, and what it then answers. *)
Definition is_merge_lookup_end (mdi : merge_info) : bool := mdi_work_count mdi =? 0.
Definition lookup_ret (mdi : merge_info) : Z := match mdi_comrades mdi with [] => - ENOENT | _ => 0 end.

(** hmdfs_lookup_merge, given how the search ended: a name that is looked up to create it may
    be missing. *)
Definition hmdfs_lookup_merge (name : bytes) (create : bool) (mdi : merge_info) : Z :=
  if NAME_MAX <? zlength name then - ENAMETOOLONG
  else
    let err := lookup_ret mdi in
    if (err =? - ENOENT) && create then 0 else err.

(** The kernel runs the scheduled works in any order. *)
Inductive work_step : lookup_state -> lookup_state -> Prop :=
  | work_run mdi q1 w q2 : work_step (mdi, q1 ++ w :: q2) ((merge_lookup_work_func mdi w).1, q1 ++ q2).

Definition run_works (mdi : merge_info) (ws : list merge_lookup_work) : merge_info :=
  foldl (fun mdi w => (merge_lookup_work_func mdi w).1) mdi ws.

(** * What a search finds *)

Definition found (ws : list merge_lookup_work) : list (Z * L) := omap merge_lookup_comrade ws.
Definition dirs (l : list (Z * L)) : list (Z * L) := filter (fun c => S_ISDIR c.2 = true) l.
Definition files (l : list (Z * L)) : list (Z * L) := filter (fun c => S_ISDIR c.2 = false) l.

Definition local_first (l : list (Z * L)) : Prop := forall c, c ∈ tail l -> c.1 <> HMDFS_DEVID_LOCAL.

(** The comrades a lookup for [type] may end with. *)
Definition allowed (type : Z) (l cs : list (Z * L)) : Prop :=
  (type <> DT_REG /\ (type = DT_DIR \/ l = [] \/ dirs l <> []) /\ cs ≡ₚ dirs l /\ local_first cs) \/
  (type <> DT_DIR /\ exists c, c ∈ files l /\ cs = [c]) \/
  (type = DT_REG /\ files l = [] /\ cs = []).

(** * Runs *)

Lemma run_works_steps mdi q ws : ws ≡ₚ q -> rtc work_step (mdi, q) (run_works mdi ws, []).
Proof.
  revert mdi q. induction ws as [|w ws IH]; intros mdi q Hp.
  - apply Permutation_nil in Hp as ->. apply rtc_refl.
  - destruct (list_elem_of_split q w) as (q1&q2&->); [rewrite <- Hp; by left|].
    eapply rtc_l; [constructor|]. cbn [run_works foldl]. apply IH. by rewrite <- Permutation_middle in Hp; apply Permutation_cons_inv in Hp.
Qed.

(** Any run is one of the orders, and the count tells how many works are left. *)
Lemma steps_run_works s s' : rtc work_step s s' ->
  exists ws, ws ++ s'.2 ≡ₚ s.2 /\ s'.1 = run_works s.1 ws.
Proof.
  induction 1 as [s|s1 s2 s3 Hs _ (ws&Hp&E)]; [by exists []|]. destruct Hs as [mdi q1 w q2]. cbn [fst snd] in *.
  exists (w :: ws). split; [by rewrite <- Permutation_middle, <- Hp|done].
Qed.

Lemma work_func_count mdi w : mdi_work_count (merge_lookup_work_func mdi w).1 = mdi_work_count mdi - 1.
Proof.
  unfold merge_lookup_work_func. destruct (merge_lookup_comrade w) as [c|]; [|done].
  unfold is_valid_comrade. destruct (mdi_type mdi =? DT_UNKNOWN); [done|]. by destruct (_ || _).
Qed.

Lemma run_works_count ws : forall mdi, mdi_work_count (run_works mdi ws) = mdi_work_count mdi - Z.of_nat (length ws).
Proof.
  induction ws as [|w ws IH]; intros mdi; cbn [run_works foldl length]; [lia|]. fold (run_works (merge_lookup_work_func mdi w).1 ws).
  rewrite IH, work_func_count. lia.
Qed.

(** What an entry that was found does to the type and the comrades. *)
Definition accept (s : Z * list (Z * L)) (c : Z * L) : Z * list (Z * L) :=
  let '(ty, cs) := s in
  if ty =? DT_UNKNOWN then (if S_ISDIR c.2 then DT_DIR else DT_REG, link_comrade cs c)
  else if (ty =? DT_DIR) && S_ISDIR c.2 || (ty =? DT_REG) && match cs with [] => true | _ => false end && negb (S_ISDIR c.2)
       then (ty, link_comrade cs c) else (ty, cs).

Definition outcome (mdi : merge_info) : Z * list (Z * L) := (mdi_type mdi, mdi_comrades mdi).

Lemma run_works_outcome ws : forall mdi, outcome (run_works mdi ws) = foldl accept (outcome mdi) (found ws).
Proof.
  induction ws as [|w ws IH]; intros mdi; [done|]. cbn [run_works foldl found omap list_omap].
  fold (run_works (merge_lookup_work_func mdi w).1 ws). rewrite IH. unfold merge_lookup_work_func. fold (found ws).
  destruct (merge_lookup_comrade w) as [c|]; [|done]. cbn [foldl]. f_equal. unfold is_valid_comrade, accept, outcome.
  destruct (mdi_type mdi =? DT_UNKNOWN); [done|]. by destruct (_ || _).
Qed.

Lemma accept_dirs l : forall cs, foldl accept (DT_DIR, cs) l = (DT_DIR, foldl link_comrade cs (dirs l)).
Proof.
  induction l as [|c l IH]; intros cs; [done|]. cbn [foldl]. unfold accept at 2. change (DT_DIR =? DT_UNKNOWN) with false.
  change (DT_DIR =? DT_REG) with false. change (DT_DIR =? DT_DIR) with true. unfold dirs. rewrite filter_cons. fold (dirs l).
  destruct (S_ISDIR c.2) eqn:E; [rewrite decide_True by done|rewrite decide_False by done]; apply IH.
Qed.

Lemma accept_files l : forall cs, foldl accept (DT_REG, cs) l = (DT_REG, match cs with [] => take 1 (files l) | _ => cs end).
Proof.
  induction l as [|c l IH]; intros cs; [by destruct cs|]. cbn [foldl]. unfold accept at 2. change (DT_REG =? DT_UNKNOWN) with false.
  change (DT_REG =? DT_REG) with true. change (DT_REG =? DT_DIR) with false. unfold files. rewrite filter_cons. fold (files l).
  destruct (S_ISDIR c.2) eqn:E; [rewrite decide_False by done|rewrite decide_True by done]; cbn [negb andb orb].
  - rewrite andb_false_r. apply IH.
  - destruct cs as [|c0 cs]; cbn [andb]; [|apply IH]. rewrite IH. unfold link_comrade. cbn. by destruct (c.1 =? _).
Qed.

(** * Linking comrades *)

Lemma link_comrade_new l c : c.1 ∉ map fst l -> link_comrade l c = if c.1 =? HMDFS_DEVID_LOCAL then c :: l else l ++ [c].
Proof.
  intros Hc. unfold link_comrade. destruct (existsb _ l) eqn:E; [|done]. apply existsb_exists in E as (x&Hx&E). zb. destruct Hc.
  rewrite <- E. apply list_elem_of_fmap. exists x. split; [done|]. by apply list_elem_of_In.
Qed.

Lemma link_all l : forall cs, NoDup (map fst (cs ++ l)) -> local_first cs ->
  foldl link_comrade cs l ≡ₚ cs ++ l /\ local_first (foldl link_comrade cs l).
Proof.
  induction l as [|c l IH]; intros cs Hn Hf; cbn [foldl]; [by rewrite app_nil_r|].
  assert (Hn' : c.1 ∉ map fst cs /\ NoDup (map fst (c :: cs ++ l))).
  { rewrite map_app in Hn. cbn [map] in *. rewrite map_app. rewrite <- Permutation_middle in Hn. split; [|done].
    apply list.NoDup_cons in Hn as [Hn _]. set_solver. }
  destruct Hn' as [Hc Hn']. rewrite link_comrade_new by done.
  assert (Hp : cs ++ c :: l ≡ₚ c :: cs ++ l) by (symmetry; apply Permutation_middle). destruct (c.1 =? HMDFS_DEVID_LOCAL) eqn:E; zb.
  - destruct (IH (c :: cs)) as [H1 H2]; [done| |split; [by rewrite Hp, H1|done]]. intros x Hx. cbn in Hx. intros Ex. apply Hc. rewrite E, <- Ex.
    apply list_elem_of_fmap. by exists x.
  - assert (Hsn : (cs ++ [c]) ++ l ≡ₚ c :: cs ++ l) by (rewrite <- app_assoc; exact Hp).
    destruct (IH (cs ++ [c])) as [H1 H2]; [by rewrite Hsn| |split; [by rewrite H1, Hsn, Hp|done]].
    intros x Hx. destruct cs as [|c0 cs]; [by apply not_elem_of_nil in Hx|]. cbn in Hx. apply elem_of_app in Hx as [Hx|Hx]; [by apply Hf|].
    by apply list_elem_of_singleton in Hx as ->.
Qed.

Lemma link_in_order cs : NoDup (map fst cs) -> local_first cs -> foldl link_comrade [] cs = cs.
Proof.
  induction cs as [|c cs IH] using rev_ind; intros Hn Hf; [done|]. rewrite foldl_app. cbn [foldl].
  rewrite map_app in Hn. apply list.NoDup_app in Hn as (Hn&Hd&_). rewrite IH; [|done|].
  - rewrite link_comrade_new; [|intros Hc; apply (Hd _ Hc); by left]. destruct cs as [|c0 cs]; [by destruct (_ =? _)|].
    assert (c.1 =? HMDFS_DEVID_LOCAL = false) as ->; [|done]. apply Z.eqb_neq, Hf. cbn. apply elem_of_app. right. by left.
  - intros x Hx. apply Hf. destruct cs; [done|]. cbn in *. apply elem_of_app. by left.
Qed.

Lemma dirs_files_perm l : l ≡ₚ dirs l ++ files l.
Proof.
  induction l as [|c l IH]; [done|]. unfold dirs, files. rewrite !filter_cons. fold (dirs l) (files l). destruct (S_ISDIR c.2) eqn:E.
  - rewrite decide_True, decide_False by done. cbn. by rewrite <- IH.
  - rewrite decide_False, decide_True by done. rewrite <- Permutation_middle. by rewrite <- IH.
Qed.

Lemma dirs_of_files l : dirs (files l) = [].
Proof.
  unfold dirs, files. induction l as [|c l IH]; [done|]. rewrite filter_cons. destruct (decide _) as [E|]; [|done].
  rewrite filter_cons, decide_False by (by rewrite E). done.
Qed.

Lemma filter_keep_all {A} (P : A -> Prop) `{!forall x, Decision (P x)} (l : list A) : (forall x, x ∈ l -> P x) -> filter P l = l.
Proof.
  intros Hl. induction l as [|c l IH]; [done|]. rewrite filter_cons, decide_True by (apply Hl; by left).
  f_equal. apply IH. intros x Hx. apply Hl. by right.
Qed.

Lemma dirs_only l : (forall c, c ∈ l -> S_ISDIR c.2 = true) -> dirs l = l.
Proof. intros Hl. by apply filter_keep_all. Qed.

Lemma sub_nodup l : NoDup (map fst l) -> NoDup (map fst (dirs l)).
Proof.
  intros Hn. rewrite (dirs_files_perm l), map_app in Hn. by apply list.NoDup_app in Hn as (Hn&_&_).
Qed.

(** Any order of the entries gives an allowed outcome ... *)
Lemma accept_allowed type l : (type = DT_UNKNOWN \/ type = DT_DIR \/ type = DT_REG) -> NoDup (map fst l) ->
  allowed type l (foldl accept (type, []) l).2.
Proof.
  assert (Hnil : local_first []) by (intros x Hx; by apply not_elem_of_nil in Hx).
  intros [->|[->| ->]] Hn.
  - destruct l as [|c l]; [left; split_and!; [done|by right; left|done|done]|]. cbn [foldl]. unfold accept at 2.
    change (DT_UNKNOWN =? DT_UNKNOWN) with true. assert (Hl : link_comrade [] c = [c]) by (unfold link_comrade; cbn; by destruct (_ =? _)).
    rewrite Hl. destruct (S_ISDIR c.2) eqn:E.
    + assert (Hd : dirs (c :: l) = c :: dirs l) by (unfold dirs; by rewrite filter_cons, decide_True).
      rewrite accept_dirs. cbn [snd]. left. destruct (link_all (dirs l) [c]) as [H1 H2].
      * change ([c] ++ dirs l) with (c :: dirs l). rewrite <- Hd. by apply sub_nodup.
      * done.
      * rewrite Hd. split_and!; [done|by right; right|done|done].
    + rewrite accept_files. right. left. split; [done|]. exists c. split; [|done]. apply list_elem_of_filter. split; [done|by left].
  - rewrite accept_dirs. left. destruct (link_all (dirs l) []) as [H1 H2]; [by apply sub_nodup|done|]. split_and!; [done|by left|done|done].
  - rewrite accept_files. cbn [snd]. right. destruct (files l) as [|c fs] eqn:E; [by right|]. left. split; [done|]. exists c. split; [by left|done].
Qed.

(** ... and every allowed outcome comes from some order. *)
Lemma allowed_accept type l cs : (type = DT_UNKNOWN \/ type = DT_DIR \/ type = DT_REG) -> NoDup (map fst l) -> allowed type l cs ->
  exists l', l' ≡ₚ l /\ (foldl accept (type, []) l').2 = cs.
Proof.
  intros Ht Hn [(Hr&Hd&Hp&Hf)|[(Hd&c&Hc&->)|(->&Hl&->)]].
  - assert (Hcs : forall c, c ∈ cs -> S_ISDIR c.2 = true) by (intros c Hc; rewrite Hp in Hc; by apply list_elem_of_filter in Hc as [Hc _]).
    assert (Hn' : NoDup (map fst cs)) by (rewrite Hp; by apply sub_nodup).
    exists (cs ++ files l). split; [by rewrite (dirs_files_perm l) at 2; rewrite Hp|]. rewrite foldl_app.
    assert (Hdir : foldl accept (foldl accept (DT_DIR, []) cs) (files l) = (DT_DIR, cs))
      by (by rewrite accept_dirs, dirs_only, link_in_order, accept_dirs, dirs_of_files by done).
    destruct Ht as [->|[->| ->]]; [|by rewrite Hdir|done]. destruct cs as [|c cs].
    + apply Permutation_nil in Hp. destruct Hd as [?|[->|?]]; done.
    + trans (foldl accept (foldl accept (DT_DIR, []) (c :: cs)) (files l)).2; [|by rewrite Hdir]. f_equal. f_equal. cbn [foldl]. f_equal. unfold accept. by rewrite (Hcs c) by by left.
  - apply list_elem_of_filter in Hc as [Hc Hin]. apply list_elem_of_split in Hin as (l1&l2&->). exists (c :: l1 ++ l2). split.
    + apply Permutation_middle.
    + cbn [foldl]. assert (E : accept (type, []) c = (DT_REG, [c])).
      { unfold accept. rewrite Hc. assert (Hl : link_comrade [] c = [c]) by (unfold link_comrade; cbn; by destruct (_ =? _)). rewrite Hl.
        by destruct Ht as [->|[->| ->]]. }
      by rewrite E, accept_files.
  - exists l. split; [done|]. by rewrite accept_files, Hl.
Qed.

(** * Searches *)

(** The devices on which a name is looked for, and what is there. *)
Definition searched (type : Z) (devid : option Z) (node_list : list peer) : list peer :=
  filter (fun p => type <> DT_REG \/ devid = Some p.1) ((HMDFS_DEVID_LOCAL, local) :: node_list).
Definition entry_on (path : bytes -> bytes) (p : peer) : option (Z * L) := d ← vfs_path_lookup (path p.2); Some (p.1, d).

(** A search for [type] that starts, and finds [l]. *)
Record search (s : lookup_state) (type : Z) (l : list (Z * L)) : Prop := {
  se_type : mdi_type s.1 = type /\ (type = DT_UNKNOWN \/ type = DT_DIR \/ type = DT_REG);
  se_count : mdi_work_count s.1 = Z.of_nat (length s.2);
  se_comrades : mdi_comrades s.1 = [];
  se_found : found s.2 = l;
  se_devs : NoDup (map fst l)
}.

Lemma foldl_same {A B} (f g : A -> B -> A) l : (forall a b, f a b = g a b) -> forall a, foldl f a l = foldl g a l.
Proof. intros Hf. induction l as [|b l IH]; intros a; [done|]. cbn [foldl]. by rewrite Hf, IH. Qed.

Lemma foldl_async (keep : peer -> bool) (path : bytes -> bytes) ps : forall s,
  foldl (fun s p => if keep p then merge_lookup_async s p.1 (path p.2) else s) s ps =
    (mk_mdi (mdi_type s.1) (mdi_work_count s.1 + Z.of_nat (length (filter keep ps))) (mdi_comrades s.1),
     s.2 ++ map (fun p => mk_work (path p.2) p.1) (filter keep ps)).
Proof.
  induction ps as [|p ps IH]; intros [mdi q]; cbn [foldl fst snd].
  - cbn [filter list_filter map]. rewrite app_nil_r. change (Z.of_nat (length [])) with 0. rewrite Z.add_0_r. by destruct mdi.
  - rewrite IH, filter_cons. destruct (keep p); cbn [is_true]; [rewrite decide_True by done|rewrite decide_False by (by intros [])]; [|done].
    unfold merge_lookup_async. cbn [fst snd mdi_type mdi_work_count mdi_comrades length map]. rewrite <- app_assoc. cbn [app]. do 2 f_equal. lia.
Qed.

Lemma found_works (path : bytes -> bytes) ps : found (map (fun p => mk_work (path p.2) p.1) ps) = omap (entry_on path) ps.
Proof.
  induction ps as [|p ps IH]; [done|]. cbn [map found omap list_omap]. unfold merge_lookup_comrade at 1, entry_on at 1. cbn [mw_name mw_devid].
  fold (found (map (fun p => mk_work (path p.2) p.1) ps)). destruct (vfs_path_lookup _); cbn [mbind option_bind]; by rewrite IH.
Qed.

Lemma omap_entries_devs (path : bytes -> bytes) ps c : c ∈ omap (entry_on path) ps -> c.1 ∈ map fst ps.
Proof.
  intros Hc. apply list_elem_of_omap in Hc as (p&Hp&Hc). unfold entry_on in Hc. destruct (vfs_path_lookup _); [|done].
  injection Hc as <-. change (p.1 ∈ map fst ps). by apply (list_elem_of_fmap_2 fst).
Qed.

Lemma omap_entries_nodup (path : bytes -> bytes) ps : NoDup (map fst ps) -> NoDup (map fst (omap (entry_on path) ps)).
Proof.
  induction ps as [|p ps IH]; intros Hn; [apply NoDup_nil_2|]. cbn [map] in Hn. apply list.NoDup_cons in Hn as [Hp Hn].
  cbn [omap list_omap]. unfold entry_on at 1. destruct (vfs_path_lookup _); cbn [mbind option_bind map fst]; [|by apply IH].
  apply list.NoDup_cons. split; [|by apply IH]. intros Hin. apply list_elem_of_fmap in Hin as (c&E&Hc). apply Hp. cbn in E. rewrite E. by eapply omap_entries_devs.
Qed.

Lemma filter_nodup (P : peer -> Prop) `{!forall x, Decision (P x)} (ps : list peer) : NoDup (map fst ps) -> NoDup (map fst (filter P ps)).
Proof.
  induction ps as [|p ps IH]; intros Hn; [done|]. cbn [map] in Hn. apply list.NoDup_cons in Hn as [Hp Hn].
  rewrite filter_cons. destruct (decide (P p)); [|by apply IH]. cbn [map]. apply list.NoDup_cons. split; [|by apply IH].
  intros Hin. apply Hp. apply list_elem_of_fmap in Hin as (c&->&Hc). apply list_elem_of_filter in Hc as [_ Hc]. by apply (list_elem_of_fmap_2 fst).
Qed.

Lemma real_dname_type name rname type devid : hmdfs_get_real_dname name = Some (rname, type, devid) ->
  type = DT_REG /\ is_Some devid \/ (type = DT_UNKNOWN \/ type = DT_DIR) /\ devid = None.
Proof.
  unfold hmdfs_get_real_dname. destruct (check_filename name) as [t|] eqn:E; [|done]. cbn [mbind option_bind].
  assert (Ht : t = DT_DIR \/ t = DT_REG \/ t = DT_UNKNOWN).
  { unfold check_filename in E. repeat (split_if_in E; try (injection E as <-; by auto)); discriminate E. }
  destruct Ht as [->|[->| ->]].
  - change (DT_DIR =? DT_REG) with false. change (DT_DIR =? DT_DIR) with true. cbv iota. intros [= <- <- <-]. right. by split; [right|].
  - change (DT_REG =? DT_REG) with true. cbv iota. destruct (conf_name_trans_reg name). intros [= <- <- <-]. by left; split.
  - change (DT_UNKNOWN =? DT_REG) with false. change (DT_UNKNOWN =? DT_DIR) with false. cbv iota. intros [= <- <- <-]. right. by split; [left|].
Qed.

Lemma filter_same (f : peer -> bool) (P : peer -> Prop) `{!forall x, Decision (P x)} (ps : list peer) :
  (forall p, f p = true <-> P p) -> filter f ps = filter P ps.
Proof.
  intros Hf. induction ps as [|p ps IH]; [done|]. rewrite !filter_cons. destruct (decide (f p)) as [E|E]; rewrite Is_true_true, Hf in E;
    [rewrite decide_True by done|rewrite decide_False by done]; by rewrite IH.
Qed.

Lemma normal_search name ppath node_list rname type devid :
  hmdfs_get_real_dname name = Some (rname, type, devid) -> NoDup (map fst ((HMDFS_DEVID_LOCAL, local) :: node_list)) ->
  exists s, lookup_merge_normal name ppath node_list = Some s /\
    search s type (omap (entry_on (fun cid => device_path cid ppath rname)) (searched type devid node_list)).
Proof.
  intros Hname Hn. pose proof (real_dname_type _ _ _ _ Hname) as Ht. set (path := fun cid => device_path cid ppath rname).
  set (keep := fun p : peer => negb ((type =? DT_REG) && negb (p.1 =? default (-1) devid))).
  assert (Hkeep : forall p, keep p = true <-> type <> DT_REG \/ devid = Some p.1).
  { intros p. unfold keep. rewrite negb_true_iff, andb_false_iff, negb_false_iff, Z.eqb_neq, Z.eqb_eq.
    destruct Ht as [[-> [d ->]]|[Ht ->]]; cbn [default]; [naive_solver|]. destruct Ht as [->| ->]; naive_solver. }
  assert (E : lookup_merge_normal name ppath node_list =
    Some (foldl (fun s p => if keep p then merge_lookup_async s p.1 (path p.2) else s) (mk_mdi type 0 [], []) ((HMDFS_DEVID_LOCAL, local) :: node_list))).
  { unfold lookup_merge_normal. rewrite Hname. cbn [mbind option_bind foldl]. f_equal.
    assert (negb (type =? DT_REG) || (default (-1) devid =? 0) = keep (HMDFS_DEVID_LOCAL, local)) as ->.
    { unfold keep. cbn [fst]. unfold HMDFS_DEVID_LOCAL. rewrite (Z.eqb_sym 0). by destruct (type =? DT_REG), (default _ _ =? 0). }
    apply foldl_same. intros s p. unfold keep. by destruct (_ && _). }
  eexists. split; [exact E|]. rewrite foldl_async, (filter_same keep (fun p => type <> DT_REG \/ devid = Some p.1)) by done.
  split; cbn [fst snd mdi_type mdi_work_count mdi_comrades].
  - split; [done|]. naive_solver.
  - cbn [app]. by rewrite length_map.
  - done.
  - cbn [app]. apply found_works.
  - by apply omap_entries_nodup, filter_nodup.
Qed.

Lemma root_search node_list : NoDup (map fst ((HMDFS_DEVID_LOCAL, local) :: node_list)) ->
  search (lookup_merge_root node_list) DT_UNKNOWN
    (omap (entry_on (fun cid => snprintf PATH_MAX (device_view ++ [SLASH] ++ cid))) ((HMDFS_DEVID_LOCAL, local) :: node_list)).
Proof.
  intros Hn. set (path := fun cid => snprintf PATH_MAX (device_view ++ [SLASH] ++ cid)).
  change (lookup_merge_root node_list) with
    (foldl (fun s p => if (fun _ : peer => true) p then merge_lookup_async s p.1 (path p.2) else s)
       (init_hmdfs_dentry_info_merge, []) ((HMDFS_DEVID_LOCAL, local) :: node_list)).
  rewrite foldl_async. rewrite (filter_keep_all (fun _ : peer => true)) by done.
  split; cbn [fst snd mdi_type mdi_work_count mdi_comrades init_hmdfs_dentry_info_merge].
  - split; [done|by left].
  - cbn [app]. by rewrite length_map.
  - done.
  - cbn [app]. apply found_works.
  - by apply omap_entries_nodup.
Qed.

(** An order of what is found is that of an order of the works. *)
Lemma found_order l' : forall q, l' ≡ₚ found q -> exists ws, ws ≡ₚ q /\ found ws = l'.
Proof.
  induction l' as [|c l' IH]; intros q Hp; [exists q; split; [done|by apply Permutation_nil in Hp]|].
  assert (Hc : c ∈ found q) by (rewrite <- Hp; by left). apply list_elem_of_omap in Hc as (w&Hw&Hc).
  apply list_elem_of_split in Hw as (q1&q2&->). destruct (IH (q1 ++ q2)) as (ws&Hq&Hf).
  { unfold found in *. rewrite omap_app in *. cbn [omap list_omap] in Hp. rewrite Hc, <- Permutation_middle in Hp. by apply Permutation_cons_inv in Hp. }
  exists (w :: ws). split; [by rewrite Hq, Permutation_middle|]. unfold found in *. cbn [omap list_omap]. by rewrite Hc, Hf.
Qed.

Definition ends_with (s : lookup_state) (cs : list (Z * L)) : Prop :=
  exists mdi q, rtc work_step s (mdi, q) /\ is_merge_lookup_end mdi = true /\ mdi_comrades mdi = cs.

Lemma search_end s type l mdi q : search s type l -> rtc work_step s (mdi, q) ->
  (is_merge_lookup_end mdi = true <-> q = []) /\ (forall w, q = [w] -> (merge_lookup_work_func mdi w).2 = true).
Proof.
  intros [_ Hc _ _ _] Hs. destruct (steps_run_works _ _ Hs) as (ws&Hp&E). cbn [fst snd] in *.
  assert (Hcount : mdi_work_count mdi = Z.of_nat (length q)).
  { rewrite E, run_works_count, Hc, <- Hp, length_app. lia. }
  split.
  - unfold is_merge_lookup_end. rewrite Hcount, Z.eqb_eq. destruct q; cbn; split; done || lia.
  - intros w ->. pose proof (work_func_count mdi w) as Hw. unfold merge_lookup_work_func in *. destruct (match _ with Some _ => _ | None => _ end) as [f m].
    cbn [fst snd mdi_work_count] in *. rewrite Hw, Hcount. done.
Qed.

Lemma search_outcomes s type l cs : search s type l -> ends_with s cs <-> allowed type l cs.
Proof.
  intros Hse. pose proof Hse as [[Ht1 Ht] Hc Hcs Hf Hn]. assert (Hout : outcome s.1 = (type, [])) by (unfold outcome; by rewrite Ht1, Hcs). split.
  - intros (mdi&q&Hs&Hend&<-). destruct (proj1 (search_end _ _ _ _ _ Hse Hs)) as [Hq _]. rewrite (Hq Hend) in Hs.
    destruct (steps_run_works _ _ Hs) as (ws&Hp&E). cbn [fst snd] in *. rewrite app_nil_r in Hp. rewrite E.
    change (mdi_comrades (run_works s.1 ws)) with (outcome (run_works s.1 ws)).2. rewrite run_works_outcome, Hout.
    assert (Hl : found ws ≡ₚ l) by (rewrite <- Hf; unfold found; by rewrite Hp).
    assert (Ha : forall l' cs, l' ≡ₚ l -> allowed type l' cs -> allowed type l cs).
    { intros l' cs' Hl' [(H1&H2&H3&H4)|[(H1&c&H2&H3)|(H1&H2&H3)]].
      - left. split_and!; [done| |by rewrite H3; unfold dirs; rewrite Hl'|done]. destruct H2 as [?|[->|H2]]; [by left|right; left; by apply Permutation_nil in Hl'|].
        right. right. intros E'. apply H2. apply Permutation_nil_r. rewrite <- E'. unfold dirs. by rewrite Hl'.
      - right. left. split; [done|]. exists c. split; [|done]. unfold files in *. by rewrite <- Hl'.
      - right. right. split_and!; [done| |done]. apply Permutation_nil_r. rewrite <- H2. unfold files. by rewrite Hl'. }
    apply (Ha (found ws)); [done|]. apply accept_allowed; [done|]. by rewrite Hl.
  - intros Ha. destruct (allowed_accept _ _ _ Ht Hn Ha) as (l'&Hp&E). destruct (found_order l' s.2) as (ws&Hw&Hfw); [by rewrite Hf|].
    exists (run_works s.1 ws), []. split; [destruct s; by apply run_works_steps|]. split.
    + unfold is_merge_lookup_end. rewrite run_works_count, Hc, Hw. apply Z.eqb_eq. lia.
    + change (mdi_comrades (run_works s.1 ws)) with (outcome (run_works s.1 ws)).2. by rewrite run_works_outcome, Hout, Hfw.
Qed.

(** C24: A lookup in the merge view always ends, when the last work has run, and that one wakes it
    up. Whatever the order of the works, it ends with the comrades that are allowed, and each
    of these occurs: all directories of the name, the local one in front; or one file; for the
    name of a conflicting file the file of the device in the name; for that of a conflicting
    directory directories only. *)
Theorem lookup_results name ppath node_list rname type devid :
  hmdfs_get_real_dname name = Some (rname, type, devid) -> NoDup (map fst ((HMDFS_DEVID_LOCAL, local) :: node_list)) ->
  exists s, lookup_merge_normal name ppath node_list = Some s /\
    (forall mdi q, rtc work_step s (mdi, q) ->
       (is_merge_lookup_end mdi = true <-> q = []) /\ (forall w, q = [w] -> (merge_lookup_work_func mdi w).2 = true)) /\
    forall cs, ends_with s cs <-> allowed type (omap (entry_on (fun cid => device_path cid ppath rname)) (searched type devid node_list)) cs.
Proof.
  intros Hname Hn. destruct (normal_search name ppath node_list rname type devid Hname Hn) as (s&E&Hs).
  exists s. split_and!; [done|intros mdi q; by eapply search_end|intros cs; by apply search_outcomes].
Qed.

(** What is found was found under the name that the asked one stands for, and for a name like
    "x_conflict_dev7" on that device only. *)
Lemma found_under_real_name name ppath node_list rname type devid s cs c :
  hmdfs_get_real_dname name = Some (rname, type, devid) -> NoDup (map fst ((HMDFS_DEVID_LOCAL, local) :: node_list)) ->
  lookup_merge_normal name ppath node_list = Some s -> ends_with s cs -> c ∈ cs ->
  exists p, p ∈ (HMDFS_DEVID_LOCAL, local) :: node_list /\ c.1 = p.1 /\ (type = DT_REG -> devid = Some p.1) /\
    vfs_path_lookup (device_path p.2 ppath rname) = Some c.2.
Proof.
  intros Hname Hn E Hcs Hc. destruct (normal_search name ppath node_list rname type devid Hname Hn) as (s'&E'&Hs).
  rewrite E in E'. injection E' as <-. apply (search_outcomes _ _ _ _ Hs) in Hcs.
  assert (Hin : c ∈ omap (entry_on (fun cid => device_path cid ppath rname)) (searched type devid node_list)).
  { destruct Hcs as [(_&_&Hp&_)|[(_&c'&Hf&->)|(_&_&->)]].
    - rewrite Hp in Hc. by apply list_elem_of_filter in Hc as [_ Hc].
    - apply list_elem_of_singleton in Hc as ->. by apply list_elem_of_filter in Hf as [_ Hf].
    - by apply not_elem_of_nil in Hc. }
  apply list_elem_of_omap in Hin as (p&Hp&He). apply list_elem_of_filter in Hp as [Hsel Hp]. exists p. unfold entry_on in He.
  destruct (vfs_path_lookup _) as [d|] eqn:Ed; [|done]. injection He as <-. split_and!; [done|done|naive_solver|done].
Qed.

(** Looking up the root of the merge view finds the views of the local device and of all
    connected ones. *)
Theorem root_lookup_results node_list : NoDup (map fst ((HMDFS_DEVID_LOCAL, local) :: node_list)) ->
  let devs := (HMDFS_DEVID_LOCAL, local) :: node_list in
  let path cid := snprintf PATH_MAX (device_view ++ [SLASH] ++ cid) in
  (forall p, p ∈ devs -> exists d, vfs_path_lookup (path p.2) = Some d /\ S_ISDIR d = true) ->
  forall cs, ends_with (lookup_merge_root node_list) cs <-> cs ≡ₚ omap (entry_on path) devs /\ local_first cs.
Proof.
  intros Hn devs path Hall cs. rewrite (search_outcomes _ _ _ _ (root_search node_list Hn)). fold path devs.
  assert (Hdirs : forall c, c ∈ omap (entry_on path) devs -> S_ISDIR c.2 = true).
  { intros c Hc. apply list_elem_of_omap in Hc as (p&Hp&Hc). destruct (Hall p Hp) as (d&E&Hd). unfold entry_on in Hc. rewrite E in Hc. by injection Hc as <-. }
  assert (Hne : omap (entry_on path) devs <> []).
  { destruct (Hall (HMDFS_DEVID_LOCAL, local)) as (d&E&_); [by left|]. unfold devs. cbn [omap list_omap]. unfold entry_on at 1. by rewrite E. }
  unfold allowed. rewrite (dirs_only _ Hdirs). split.
  - intros [(_&_&H1&H2)|[(_&c&Hc&_)|(Hr&_)]]; [done| |done]. apply list_elem_of_filter in Hc as [Hc Hin]. by rewrite Hdirs in Hc.
  - intros [H1 H2]. left. split_and!; [done|by right; right|done|done].
Qed.

(** Which file a name stands for that several devices have depends on the order of the works:
    the one the lookup finds first. *)
Theorem file_lookup_depends_on_order name ppath node_list p1 p2 d1 d2 :
  hmdfs_get_real_dname name = Some (name, DT_UNKNOWN, None) -> NoDup (map fst ((HMDFS_DEVID_LOCAL, local) :: node_list)) ->
  p1 ∈ (HMDFS_DEVID_LOCAL, local) :: node_list -> p2 ∈ (HMDFS_DEVID_LOCAL, local) :: node_list ->
  vfs_path_lookup (device_path p1.2 ppath name) = Some d1 -> vfs_path_lookup (device_path p2.2 ppath name) = Some d2 ->
  S_ISDIR d1 = false -> S_ISDIR d2 = false ->
  exists s, lookup_merge_normal name ppath node_list = Some s /\ ends_with s [(p1.1, d1)] /\ ends_with s [(p2.1, d2)].
Proof.
  intros Hname Hn H1 H2 E1 E2 Hd1 Hd2. destruct (normal_search name ppath node_list _ _ _ Hname Hn) as (s&E&Hs).
  assert (Hf : forall p d, p ∈ (HMDFS_DEVID_LOCAL, local) :: node_list -> vfs_path_lookup (device_path p.2 ppath name) = Some d ->
    S_ISDIR d = false -> ends_with s [(p.1, d)]).
  { intros p d Hp Ed Hd. apply (search_outcomes _ _ _ _ Hs). right. left. split; [done|]. exists (p.1, d). split; [|done].
    apply list_elem_of_filter. split; [done|]. apply list_elem_of_omap. exists p. split; [apply list_elem_of_filter; split; [by left|done]|].
    unfold entry_on. by rewrite Ed. }
  exists s. split_and!; [done|by apply Hf|by apply Hf].
Qed.
End Lookup.

(** * Listed names *)

(** Everything that is shown stands for an entry. *)
Definition from_entry (x : dirent) (dev : Z) (es : list dirent) : Prop :=
  exists e, e ∈ es /\ de_ino x = de_ino e /\ de_type x = de_type e /\
    (key x = key_of_name (de_name e) \/ key x = key_of_dir (de_name e) /\ de_type e = DT_DIR \/
     key x = key_of_file (de_name e) dev /\ de_type e <> DT_DIR).

Lemma show_from m dev e x : kinds_ok m -> entry_ok e -> plain e -> dev_ok dev -> x ∈ as_shown e (show m dev e).1 -> from_entry x dev [e].
Proof.
  intros Hk He Hp Hd Hx. destruct (common e) eqn:Hc; [|unfold show in Hx; rewrite Hc in Hx; by apply not_elem_of_nil in Hx].
  destruct (show_cases m dev e Hk He Hp Hd Hc) as (n&m'&E&_&_&Hcase). rewrite E in Hx. cbn [fst] in Hx. exists e. split; [by left|].
  destruct Hcase as [(->&_)|[(->&_)|[(n'&->&Ht&_&_&Hb)|(n'&->&Ht&_&_&Hb)]]]; cbn [as_shown] in Hx; [|by apply not_elem_of_nil in Hx|..];
    apply list_elem_of_singleton in Hx as ->; cbn [de_ino de_type]; unfold key; cbn [de_name]; rewrite ?Hb; split_and!; try done.
  - left. by apply plain_key.
  - by right; left.
  - by right; right.
Qed.

Lemma shown_from dev es : forall m, kinds_ok m -> (forall e, e ∈ es -> entry_ok e /\ plain e) -> dev_ok dev ->
  forall x, x ∈ (shown m dev es).1 -> from_entry x dev es.
Proof.
  induction es as [|e es IH]; intros m Hk He Hd x Hx; [by apply not_elem_of_nil in Hx|]. destruct (He e) as [He1 Hp1]; [by left|].
  pose proof (show_from m dev e x Hk He1 Hp1 Hd) as Hfirst. pose proof (show_kinds m dev e Hk He1) as Hk1. cbn [shown] in Hx.
  destruct (show m dev e) as [n m1]. cbn [fst snd] in *. specialize (IH m1 Hk1). destruct (shown m1 dev es) as [out m2]. cbn [fst] in *.
  apply elem_of_app in Hx as [Hx|Hx].
  - destruct (Hfirst Hx) as (e'&Hin&Hr). apply list_elem_of_singleton in Hin as ->. exists e. by split; [left|].
  - destruct (IH ltac:(intros y Hy; apply He; by right) Hd x Hx) as (e'&Hin&Hr). exists e'. by split; [right|].
Qed.

Lemma shown_all_from devs : forall m, kinds_ok m -> devs_ok devs -> forall x, x ∈ shown_all m devs ->
  exists dev es, (dev, es) ∈ devs /\ from_entry x dev es.
Proof.
  induction devs as [|[dev es] devs IH]; intros m Hk [Hi Hd He Hn] x Hx; [by apply not_elem_of_nil in Hx|].
  cbn [map] in Hi. apply list.NoDup_cons in Hi as [_ Hi]. cbn [shown_all] in Hx.
  assert (Hes : forall y, y ∈ es -> entry_ok y /\ plain y) by (intros y Hy; apply (He (dev, es) y); [by left|done]).
  pose proof (shown_from dev es m Hk Hes (Hd (dev, es) ltac:(by left)) x) as Hfirst.
  assert (Hk1 : kinds_ok (shown m dev es).2) by (apply shown_kinds; [done|]; apply list.Forall_forall; intros y Hy; by apply Hes).
  destruct (shown m dev es) as [out m1]. cbn [fst snd] in *. apply elem_of_app in Hx as [Hx|Hx].
  - exists dev, es. split; [by left|by apply Hfirst].
  - destruct (IH m1 Hk1) with x as (dev'&es'&Hin&Hf); [|done|exists dev', es'; by split; [right|]].
    split; [done|intros d Hin; apply Hd; by right|intros d y Hin; apply (He d y); by right|intros d Hin; apply Hn; by right].
Qed.

(** The entry of a name on a device. *)
Definition entry_of (devs : list (Z * list dirent)) (dev : Z) (n : bytes) : option dirent :=
  d ← List.find (fun d => d.1 =? dev) devs; List.find (fun e => beqb (de_name e) n) d.2.

Lemma entry_of_spec devs dev n e : devs_ok devs ->
  entry_of devs dev n = Some e <-> exists es, (dev, es) ∈ devs /\ e ∈ es /\ de_name e = n.
Proof.
  intros [Hi _ _ Hn]. unfold entry_of. split.
  - destruct (List.find _ devs) as [[d es]|] eqn:E1; cbn [mbind option_bind snd]; [|done]. intros E2.
    apply find_some in E1 as [Hin E1]. apply find_some in E2 as [He E2]. cbn in E1. zb. subst d. apply beqb_eq in E2.
    exists es. split_and!; [by apply list_elem_of_In|by apply list_elem_of_In|done].
  - intros (es&Hin&He&<-). specialize (Hn _ Hin). cbn [snd] in Hn.
    assert (Hfind : List.find (fun d => d.1 =? dev) devs = Some (dev, es)).
    { clear Hn He. induction devs as [|d devs IH]; [by apply not_elem_of_nil in Hin|]. cbn [map] in Hi. apply list.NoDup_cons in Hi as [Hd Hi].
      cbn [List.find]. apply elem_of_cons in Hin as [<-|Hin]; [cbn; by rewrite Z.eqb_refl|]. destruct (d.1 =? dev) eqn:E; [|by apply IH].
      zb. destruct Hd. rewrite E. change dev with (dev, es).1. by apply list_elem_of_fmap_2. }
    rewrite Hfind. cbn [mbind option_bind snd]. clear Hfind Hin. induction es as [|y es IH]; [by apply not_elem_of_nil in He|].
    cbn [map] in Hn. apply list.NoDup_cons in Hn as [Hy Hn]. cbn [List.find]. apply elem_of_cons in He as [<-|He]; [by rewrite beqb_refl|].
    destruct (beqb (de_name y) (de_name e)) eqn:E; [|by apply IH]. apply beqb_eq in E. destruct Hy. rewrite E. by apply list_elem_of_fmap_2.
Qed.

(** The lower file system has the entries of the devices under their paths. *)
Record views_ok (vfs_path_lookup : bytes -> option dirent) (ppath : bytes) (node_list : list peer) (devs : list (Z * list dirent)) : Prop := {
  vo_devs : devs_ok devs;
  vo_peers : NoDup (map fst ((HMDFS_DEVID_LOCAL, local) :: node_list));
  vo_all d : d ∈ map fst devs -> d ∈ map fst ((HMDFS_DEVID_LOCAL, local) :: node_list);
  vo_path p n : p ∈ (HMDFS_DEVID_LOCAL, local) :: node_list -> zlength n <= NAME_MAX ->
    vfs_path_lookup (device_path p.2 ppath n) = entry_of devs p.1 n
}.

Definition is_dir (e : dirent) : bool := de_type e =? DT_DIR.
(** [c] is an entry [n] of a device. *)
Definition named (devs : list (Z * list dirent)) (n : bytes) (c : Z * dirent) : Prop :=
  exists es, (c.1, es) ∈ devs /\ c.2 ∈ es /\ de_name c.2 = n.

Lemma found_named vfs_path_lookup ppath node_list devs type devid n c : views_ok vfs_path_lookup ppath node_list devs -> zlength n <= NAME_MAX ->
  c ∈ omap (entry_on vfs_path_lookup (fun cid => device_path cid ppath n)) (searched type devid node_list) <->
  (type <> DT_REG \/ devid = Some c.1) /\ named devs n c.
Proof.
  intros [Hdevs _ Hall Hpath] Hn. rewrite list_elem_of_omap. split.
  - intros (p&Hp&Hc). apply list_elem_of_filter in Hp as [Hsel Hp]. unfold entry_on in Hc. rewrite Hpath in Hc by done.
    destruct (entry_of devs p.1 n) as [e|] eqn:E; [|done]. injection Hc as <-. split; [done|]. by apply entry_of_spec in E.
  - intros (Hsel&es&Hin&He&Hname). assert (Hp : c.1 ∈ map fst ((HMDFS_DEVID_LOCAL, local) :: node_list))
      by (apply Hall; by apply (list_elem_of_fmap_2 fst _ _ Hin)).
    apply list_elem_of_fmap in Hp as (p&E&Hp). exists p. split; [apply list_elem_of_filter; split; [by rewrite <- E|done]|].
    unfold entry_on. rewrite Hpath, <- E by done. assert (entry_of devs c.1 n = Some c.2) as -> by (apply entry_of_spec; [done|by exists es]).
    by destruct c.
Qed.

Lemma search_ends {L} (vfs_path_lookup : bytes -> option L) S_ISDIR s type l : search vfs_path_lookup s type l ->
  exists cs, ends_with vfs_path_lookup S_ISDIR s cs.
Proof.
  intros Hse. exists (foldl (accept S_ISDIR) (type, []) l).2. pose proof Hse as [[_ Ht] _ _ _ Hn].
  apply (search_outcomes _ _ _ _ _ _ Hse). by apply accept_allowed.
Qed.

(** What a lookup for [x] may end with. *)
Definition resolves (devs : list (Z * list dirent)) (x : dirent) (cs : list (Z * dirent)) : Prop :=
  let the_dirs n := forall c, c ∈ cs <-> named devs n c /\ is_dir c.2 = true in
  (forall n d, key x = key_of_file n d ->
     exists e, cs = [(d, e)] /\ named devs n (d, e) /\ de_ino e = de_ino x /\ de_type e = de_type x) /\
  (forall n, key x = key_of_dir n -> the_dirs n) /\
  (forall n, key x = key_of_name n -> the_dirs n \/ exists c, cs = [c] /\ named devs n c /\ is_dir c.2 = false).

Lemma named_unique devs n d e e' : devs_ok devs -> named devs n (d, e) -> named devs n (d, e') -> e = e'.
Proof.
  intros Hok (es&H1&H2&H3) (es'&H1'&H2'&H3'). cbn [fst snd] in *.
  assert (Some e = Some e') as [= ->]; [|done]. rewrite <- (proj2 (entry_of_spec devs d n e Hok)) by by exists es.
  apply (entry_of_spec devs d n e' Hok). by exists es'.
Qed.

(** The outcomes of a search for the key of [x], which is the entry [e] of a device. *)
Lemma resolved devs x dev e type devid l cs : devs_ok devs -> named devs (de_name e) (dev, e) ->
  de_ino x = de_ino e -> de_type x = de_type e -> key x = Some (de_name e, type, devid) ->
  (type = DT_UNKNOWN /\ devid = None \/ type = DT_DIR /\ devid = None /\ de_type e = DT_DIR \/
    type = DT_REG /\ devid = Some dev /\ de_type e <> DT_DIR) ->
  (forall c, c ∈ l <-> (type <> DT_REG \/ devid = Some c.1) /\ named devs (de_name e) c) -> allowed is_dir type l cs ->
  cs <> [] /\ local_first cs /\ resolves devs x cs.
Proof.
  intros Hok He Hino Htype Hkey Hcase Hl Ha. unfold resolves, key_of_file, key_of_dir, key_of_name. rewrite Hkey.
  assert (Hel : (dev, e) ∈ l) by (apply Hl; split; [|done]; destruct Hcase as [[-> _]|[[-> _]|(_&->&_)]]; [by left|by left|by right]).
  assert (Hdirs : cs ≡ₚ dirs is_dir l -> type <> DT_REG -> forall c, c ∈ cs <-> named devs (de_name e) c /\ is_dir c.2 = true).
  { intros Hp Ht c. rewrite Hp. unfold dirs. rewrite list_elem_of_filter, Hl. naive_solver. }
  destruct Ha as [(Ht&Hd&Hp&Hf)|[(Ht&c&Hc&->)|(->&Hno&->)]].
  - split_and!; [|done|intros n d [= <- -> ->]; done|intros n [= <- _ _]; by apply Hdirs|intros n [= <- _ _]; left; by apply Hdirs].
    intros ->. apply Permutation_nil in Hp. destruct Hd as [->|[->|Hd]]; [|by apply not_elem_of_nil in Hel|done].
    destruct Hcase as [[? _]|[(_&_&Hdir)|(?&_)]]; try done. eapply (not_elem_of_nil (dev, e)). rewrite <- Hp.
    apply list_elem_of_filter. split; [cbn; unfold is_dir; by rewrite Hdir|done].
  - apply list_elem_of_filter in Hc as [Hfile Hc]. apply Hl in Hc as [Hsel Hc].
    split_and!; [done|intros y Hy; by apply not_elem_of_nil in Hy| |intros n [= _ -> _]; done|intros n [= <- _ _]; right; by exists c].
    intros n d [= <- -> ->]. destruct Hsel as [?|[= ->]]; [done|]. destruct Hcase as [[? _]|[[? _]|(_&[= E]&_)]]; try done. destruct c as [dev' e']. cbn [fst] in *. subst dev'.
    assert (e = e') as <- by (by eapply named_unique). exists e. by split_and!.
  - exfalso. destruct Hcase as [[? _]|[[? _]|(_&_&Hfile)]]; [done|done|]. eapply (not_elem_of_nil (dev, e)). rewrite <- Hno.
    apply list_elem_of_filter. split; [cbn; unfold is_dir; by apply Z.eqb_neq|done].
Qed.

Lemma merged_resolves vfs_path_lookup ppath node_list devs x :
  views_ok vfs_path_lookup ppath node_list devs -> x ∈ merged devs ->
  exists s, lookup_merge_normal (de_name x) ppath node_list = Some s /\
    (exists cs, ends_with vfs_path_lookup is_dir s cs) /\
    forall cs, ends_with vfs_path_lookup is_dir s cs -> cs <> [] /\ local_first cs /\ resolves devs x cs.
Proof.
  intros Hv Hx. pose proof (vo_devs _ _ _ _ Hv) as Hok.
  assert (Hk : kinds_ok ∅) by (intros n k Hn; by rewrite lookup_empty in Hn).
  destruct (shown_all_from devs ∅ Hk Hok x Hx) as (dev&es&Hin&e&He&Hino&Htype&Hkey).
  assert (Hlen : zlength (de_name e) <= NAME_MAX).
  { destruct (do_entry _ Hok _ _ Hin He) as [[_ _ _ _ Hl] _]. unfold NAME_MAX. lia. }
  assert (Hnamed : named devs (de_name e) (dev, e)) by by exists es.
  destruct (hmdfs_get_real_dname (de_name x)) as [[[rname type] devid]|] eqn:Hname;
    [|unfold key in Hkey; rewrite Hname in Hkey; by destruct Hkey as [?|[[? _]|[? _]]]].
  assert (Hr : rname = de_name e /\ (type = DT_UNKNOWN /\ devid = None \/ type = DT_DIR /\ devid = None /\ de_type e = DT_DIR \/
    type = DT_REG /\ devid = Some dev /\ de_type e <> DT_DIR)).
  { unfold key in Hkey. rewrite Hname in Hkey. destruct Hkey as [[= -> -> ->]|[[[= -> -> ->] ?]|[[= -> -> ->] ?]]]; naive_solver. }
  destruct Hr as [-> Hr].
  destruct (normal_search vfs_path_lookup (de_name x) ppath node_list _ _ _ Hname (vo_peers _ _ _ _ Hv)) as (s&Es&Hs).
  exists s. split_and!; [done|by eapply search_ends|]. intros cs Hcs. rewrite (search_outcomes _ _ _ _ _ _ Hs) in Hcs.
  pose proof (fun c => found_named vfs_path_lookup ppath node_list devs type devid (de_name e) c Hv Hlen) as Hfound.
  set (l := omap _ _) in *. clearbody l. eapply resolved; try done. 
Qed.

Section Resolve.
Context `{RbTree} `{!RbTreeLaws} {D : Type} `{!LowerDir D} `{!LowerDirLaws D}.

(** C25: Every name a reader of a merged directory gets is found again, as long as no entry of a
    device has a name that itself looks like one of an entry in conflict (and within the limits of
    C23): a renamed file on the
    device that it is on, a renamed directory with all directories of its name, and an
    unchanged name with these or with one of the files of that name. (An entry that is really
    called "x_conflict_dev7" or "y_remote_directory" is listed under its name and not found again:
    own_conflict_names_not_found.) *)
Theorem listed_names_resolve vfs_path_lookup ppath node_list (comrades : list (Z * D)) c calls outs pos fi x :
  views_ok vfs_path_lookup ppath node_list (devices comrades) ->
  head comrades = Some c -> (forall c, c ∈ tail comrades -> c.1 <> HMDFS_DEVID_LOCAL) ->
  Forall (fun fits => forall e, fits [] e = true) calls -> Z.of_nat (length calls) < 2 ^ 31 ->
  read_dir (hmdfs_dir_open_merge comrades) 0 calls = Some (outs, pos, fi) -> x ∈ concat outs ->
  exists s, lookup_merge_normal (de_name x) ppath node_list = Some s /\
    (exists cs, ends_with vfs_path_lookup is_dir s cs) /\
    forall cs, ends_with vfs_path_lookup is_dir s cs -> cs <> [] /\ local_first cs /\ resolves (devices comrades) x cs.
Proof.
  intros Hv Hhead Hlocal Hfits Hmax Hread Hx. pose proof (devs_ok_comrades comrades (vo_devs _ _ _ _ Hv) Hlocal) as Hok.
  destruct (listing_prefix comrades c calls Hok Hhead Hfits Hmax) as (outs'&pos'&fi'&E&Hpre&_). rewrite Hread in E. injection E as <- <- <-.
  apply merged_resolves; [done|]. destruct Hpre as [k ->]. apply elem_of_app. by left.
Qed.
End Resolve.

(** * Examples *)

(** The two devices of the example of the listing. *)
Definition one_peer : list peer := [(1, [49])].
Definition view_path (cid : bytes) : bytes := device_view ++ [SLASH] ++ cid ++ [SLASH] ++ [SLASH].
Definition two_views (path : bytes) : option dirent :=
  if beqb (take (length (view_path local)) path) (view_path local) then entry_of two_devices 0 (drop (length (view_path local)) path)
  else if beqb (take (length (view_path [49])) path) (view_path [49]) then entry_of two_devices 1 (drop (length (view_path [49])) path)
  else None.

Lemma short_path cid n : (length cid < 10)%nat -> zlength n <= NAME_MAX -> device_path cid [SLASH] n = view_path cid ++ n.
Proof.
  intros Hc Hn. unfold zlength, NAME_MAX in Hn. unfold device_path, view_path. rewrite snprintf_fits; [by rewrite <- !app_assoc|].
  change PATH_MAX with 4096. rewrite !length_app. cbn [length]. change (length device_view) with 11%nat. lia.
Qed.

Lemma one_peer_distinct : NoDup (map fst ((HMDFS_DEVID_LOCAL, local) :: one_peer)).
Proof. by apply (bool_decide_unpack _). Qed.

Lemma two_views_ok : views_ok two_views [SLASH] one_peer two_devices.
Proof.
  split; [exact two_devices_ok|exact one_peer_distinct|intros d Hd; exact Hd|].
  intros p n Hp Hn. repeat (apply elem_of_cons in Hp as [->|Hp]; [rewrite short_path by (done || cbn; lia); unfold two_views; cbn [snd]|]);
    [..|by apply not_elem_of_nil in Hp].
  - by rewrite take_app_length, beqb_refl, drop_app_length.
  - assert (beqb (take (length (view_path local)) (view_path [49] ++ n)) (view_path local) = false) as -> by done.
    by rewrite take_app_length, beqb_refl, drop_app_length.
Qed.

#[local] Existing Instances plain_tree plain_tree_laws list_dir list_dir_laws.

Lemma listed_names_resolve_witness :
  let x := mk_dirent (97 :: CONFLICTING_FILE_SUFFIX 1) 20 DT_REG in
  views_ok two_views [SLASH] one_peer (devices two_devices) /\
  exists s, lookup_merge_normal (de_name x) [SLASH] one_peer = Some s /\
    (exists cs, ends_with two_views is_dir s cs) /\
    forall cs, ends_with two_views is_dir s cs -> cs <> [] /\ local_first cs /\ resolves (devices two_devices) x cs.
Proof.
  split; [exact two_views_ok|]. eapply (listed_names_resolve two_views [SLASH] one_peer two_devices (0, dots ++ [file_a 10]) four_calls).
  - exact two_views_ok.
  - reflexivity.
  - intros c Hc. apply list_elem_of_singleton in Hc as ->. done.
  - exact four_calls_fit.
  - reflexivity.
  - vm_compute. reflexivity.
  - vm_compute. right. left.
Defined.

(** A local file that is called "a_conflict_dev7" and a local directory "b_remote_directory": both are
    listed under their names, and a lookup of these names, which is for "a" on device 7 and for
    directories "b", finds nothing. *)
Definition own_file : dirent := mk_dirent (97 :: CONFLICTING_FILE_SUFFIX 7) 10 DT_REG.
Definition own_dir : dirent := mk_dirent (98 :: CONFLICTING_DIR_SUFFIX) 11 DT_DIR.
Definition own_view (path : bytes) : option dirent :=
  if beqb path (device_path local [SLASH] (de_name own_file)) then Some own_file
  else if beqb path (device_path local [SLASH] (de_name own_dir)) then Some own_dir
  else None.

Lemma own_conflict_names_not_found :
  (exists outs fi, read_dir (hmdfs_dir_open_merge [(0, [own_file; own_dir])]) 0 four_calls = Some (outs, -1, fi) /\ concat outs = [own_file; own_dir]) /\
  forall e s cs, e ∈ [own_file; own_dir] -> lookup_merge_normal (de_name e) [SLASH] [] = Some s -> ends_with own_view is_dir s cs -> cs = [].
Proof.
  split; [eexists _, _; split; vm_compute; reflexivity|]. intros e s cs He E Hcs. destruct cs as [|c cs]; [done|]. exfalso.
  assert (Hn : NoDup (map fst ((HMDFS_DEVID_LOCAL, local) :: ([] : list peer)))) by (apply list.NoDup_cons; split; [apply not_elem_of_nil|apply NoDup_nil_2]).
  assert (Hr : hmdfs_get_real_dname (de_name own_file) = Some ([97], DT_REG, Some 7) /\ hmdfs_get_real_dname (de_name own_dir) = Some ([98], DT_DIR, None))
    by (split; vm_compute; reflexivity).
  destruct Hr as [Hf Hd]. apply elem_of_cons in He as [->|He].
  - destruct (found_under_real_name own_view is_dir _ _ _ _ _ _ s _ c Hf Hn E Hcs ltac:(left)) as (p&Hp&_&Hdev&_).
    apply list_elem_of_singleton in Hp as ->. specialize (Hdev eq_refl). discriminate Hdev.
  - apply list_elem_of_singleton in He as ->.
    destruct (found_under_real_name own_view is_dir _ _ _ _ _ _ s _ c Hd Hn E Hcs ltac:(left)) as (p&Hp&_&_&Hv).
    apply list_elem_of_singleton in Hp as ->. vm_compute in Hv. discriminate Hv.
Qed.

Lemma lookup_results_witness :
  exists s, lookup_merge_normal [98] [SLASH] one_peer = Some s /\
    (forall mdi q, rtc (work_step two_views is_dir) s (mdi, q) ->
       (is_merge_lookup_end mdi = true <-> q = []) /\ (forall w, q = [w] -> (merge_lookup_work_func two_views is_dir mdi w).2 = true)) /\
    forall cs, ends_with two_views is_dir s cs <->
      allowed is_dir DT_UNKNOWN (omap (entry_on two_views (fun cid => device_path cid [SLASH] [98])) (searched DT_UNKNOWN None one_peer)) cs.
Proof. apply (lookup_results two_views is_dir); [reflexivity|exact one_peer_distinct]. Defined.

Lemma file_lookup_depends_on_order_witness :
  exists s, lookup_merge_normal [97] [SLASH] one_peer = Some s /\
    ends_with two_views is_dir s [(0, file_a 10)] /\ ends_with two_views is_dir s [(1, file_a 20)].
Proof.
  apply (file_lookup_depends_on_order two_views is_dir [97] [SLASH] one_peer (HMDFS_DEVID_LOCAL, local) (1, [49]));
    [reflexivity|exact one_peer_distinct|left|right; left|reflexivity..].
Defined.

Lemma root_lookup_results_witness :
  let devs := (HMDFS_DEVID_LOCAL, local) :: one_peer in
  let path cid := snprintf PATH_MAX (device_view ++ [SLASH] ++ cid) in
  let lookup path := Some (mk_dirent path 3 DT_DIR) in
  forall cs, ends_with lookup is_dir (lookup_merge_root one_peer) cs <-> cs ≡ₚ omap (entry_on lookup path) devs /\ local_first cs.
Proof.
  apply (root_lookup_results (fun path => Some (mk_dirent path 3 DT_DIR)) is_dir one_peer); [exact one_peer_distinct|].
  intros p _. eexists. split; reflexivity.
Defined.
