(* ===== verification/MergeOps.v ===== *)
(** Changing the merge view (inode_merge.c, file_merge.c): creating files and directories with
    the local directories they need, removing and renaming entries on every device that has
    them, and opening the directories of the devices. *)
From S2P Require Import Prelude DentryLayout ServerPath MergeName MergeList MergeLookup.

(** * The lower file system *)

(** What the operations call in the lower file system, whose state is [W] and whose dentries
    are [L]. kern_path_create gives the place of the new entry and the directory it is in. *)
Class LowerFs (W L : Type) := {
  dentry_path_raw : L -> Z + bytes;
  kern_path_create : W -> bytes -> bool -> Z + L * L;
  vfs_mkdir : W -> L -> Z -> Z * W;
  vfs_create : W -> L -> Z -> bool -> Z * W;
  vfs_rmdir : W -> L -> Z * W;
  lookup_again : W -> L -> Z + L;
  vfs_unlink : W -> L -> Z * W;
  vfs_rename : W -> L -> L -> Z -> Z * W;
  lf_exists : W -> L -> Prop
}.

(** An operation that fails changes nothing; one that succeeds makes or removes one entry. *)
Class LowerFsLaws W L `{LowerFs W L} := {
  lf_mkdir w d m : let '(ret, w') := vfs_mkdir w d m in
    if ret =? 0 then lf_exists w' d /\ forall x, lf_exists w x -> lf_exists w' x else w' = w;
  lf_create w d m x : let '(ret, w') := vfs_create w d m x in
    if ret =? 0 then lf_exists w' d /\ forall x, lf_exists w x -> lf_exists w' x else w' = w;
  lf_rmdir w d : let '(ret, w') := vfs_rmdir w d in
    if ret =? 0 then forall x, lf_exists w' x <-> lf_exists w x /\ x <> d else w' = w;
  lf_unlink w d : let '(ret, w') := vfs_unlink w d in
    if ret =? 0 then forall x, lf_exists w' x <-> lf_exists w x /\ x <> d else w' = w;
  lf_lookup w d d' : lookup_again w d = inr d' -> d' = d;
  lf_errors w d p isdir e : lookup_again w d = inl e \/ dentry_path_raw d = inl e \/ kern_path_create w p isdir = inl e -> e <> 0
}.

Section Ops.
Context {W L : Type} `{LowerFs W L}.
(** sbi->real_dst, and the result of making the inode of a new entry. *)
Variable real_dst : bytes.
Variable fill_inode_merge : L -> Z.

(** What the operations use of a dentry of the merge view and of its inode. *)
Record merge_dentry := mk_md { md_name : bytes; md_mode : Z; md_comrades : list (Z * L) }.

Definition hmdfs_get_lo_d (d : merge_dentry) (dev_id : Z) : option L :=
  snd <$> List.find (fun c => c.1 =? dev_id) (md_comrades d).
Definition hmdfs_get_fst_lo_d (d : merge_dentry) : option L := snd <$> head (md_comrades d).
Definition link_comrade_unlocked (d : merge_dentry) (c : Z * L) : merge_dentry :=
  mk_md (md_name d) (md_mode d) (link_comrade (md_comrades d) c).

(** * Creating *)

Inductive file_cmd_merge := F_MKDIR_MERGE | F_CREATE_MERGE.
Record recursive_para := mk_para { is_last : bool; opcode : file_cmd_merge; rp_mode : Z; want_excl : bool }.

Definition do_mkdir_merge (w : W) (lo_d_child : L) (mode : Z) : Z * W :=
  let '(ret, w) := vfs_mkdir w lo_d_child mode in
  if ret =? 0 then (fill_inode_merge lo_d_child, w) else (ret, w).

Definition do_create_merge (w : W) (lo_d_child : L) (mode : Z) (want_excl : bool) : Z * W :=
  let '(ret, w) := vfs_create w lo_d_child mode want_excl in
  if ret =? 0 then (fill_inode_merge lo_d_child, w) else (ret, w).

Definition hmdfs_do_ops_merge (w : W) (lo_d_child : L) (para : recursive_para) : Z * W :=
  if is_last para then
    match opcode para with
    | F_MKDIR_MERGE => do_mkdir_merge w lo_d_child (rp_mode para)
    | F_CREATE_MERGE => do_create_merge w lo_d_child (rp_mode para) (want_excl para)
    end
  else vfs_mkdir w lo_d_child (rp_mode para).

Definition hmdfs_create_lower_dentry (w : W) (d_child : merge_dentry) (lo_d_parent : L) (is_dir : bool) (para : recursive_para)
  : Z * merge_dentry * W :=
  match dentry_path_raw lo_d_parent with
  | inl err => (err, d_child, w)
  | inr path_name =>
      if PATH_MAX <? zlength real_dst + zlength path_name + zlength (md_name d_child) + 2 then (- ENAMETOOLONG, d_child, w)
      else
        match kern_path_create w (real_dst ++ path_name ++ [SLASH] ++ md_name d_child) is_dir with
        | inl err => (err, d_child, w)
        | inr (lo_d_child, _) =>
            let '(ret, w) := hmdfs_do_ops_merge w lo_d_child para in
            if ret =? 0 then (0, link_comrade_unlocked d_child (HMDFS_DEVID_LOCAL, lo_d_child), w) else (ret, d_child, w)
        end
  end.

Definition set_para (para : recursive_para) (last : bool) (mode : Z) : recursive_para :=
  mk_para last (opcode para) mode (want_excl para).

(** [parents] are the dentry's parent, that one's parent and so on up to the root of the merge
    view, which is its own parent: [None] is the recursion that never ends. The result has the
    dentry and its parents with what was linked. *)
Fixpoint create_lo_d_parent_recur (parents : list merge_dentry) (w : W) (d_child : merge_dentry) (mode : Z) (para : recursive_para)
  : option (Z * merge_dentry * list merge_dentry * W) :=
  match parents with
  | [] => None
  | d_parent :: rest =>
      '(ret, d_parent, rest, w) ←
        match hmdfs_get_lo_d d_parent HMDFS_DEVID_LOCAL with
        | Some _ => Some (0, d_parent, rest, w)
        | None => create_lo_d_parent_recur rest w d_parent (md_mode d_parent) para
        end;
      if negb (ret =? 0) then Some (ret, d_child, d_parent :: rest, w)
      else
        match hmdfs_get_lo_d d_parent HMDFS_DEVID_LOCAL with
        | None => Some (- ENOENT, d_child, d_parent :: rest, w)
        | Some lo_d_parent =>
            let '(ret, d_child, w) := hmdfs_create_lower_dentry w d_child lo_d_parent true (set_para para false mode) in
            Some (ret, d_child, d_parent :: rest, w)
        end
  end.

Definition create_lo_d_child (parents : list merge_dentry) (w : W) (d_child : merge_dentry) (is_dir : bool) (para : recursive_para)
  : option (Z * merge_dentry * list merge_dentry * W) :=
  match parents with
  | [] => None
  | d_parent :: rest =>
      '(ret, d_parent, rest, w) ←
        match hmdfs_get_lo_d d_parent HMDFS_DEVID_LOCAL with
        | Some _ => Some (0, d_parent, rest, w)
        | None => create_lo_d_parent_recur rest w d_parent (md_mode d_parent) para
        end;
      if negb (ret =? 0) then Some (ret, d_child, d_parent :: rest, w)
      else
        match hmdfs_get_lo_d d_parent HMDFS_DEVID_LOCAL with
        | None => Some (- ENOENT, d_child, d_parent :: rest, w)
        | Some lo_d_parent =>
            let '(ret, d_child, w) := hmdfs_create_lower_dentry w d_child lo_d_parent is_dir (set_para para true (rp_mode para)) in
            Some (ret, d_child, d_parent :: rest, w)
        end
  end.

Definition hmdfs_mkdir_merge (parents : list merge_dentry) (w : W) (dentry : merge_dentry) (mode : Z)
  : option (Z * merge_dentry * list merge_dentry * W) :=
  if negb (hmdfs_file_type (md_name dentry) =? HMDFS_TYPE_COMMON) then Some (- EACCES, dentry, parents, w)
  else create_lo_d_child parents w dentry true (mk_para true F_MKDIR_MERGE mode false).

Definition hmdfs_create_merge (parents : list merge_dentry) (w : W) (dentry : merge_dentry) (mode : Z) (want_excl : bool)
  : option (Z * merge_dentry * list merge_dentry * W) :=
  create_lo_d_child parents w dentry false (mk_para true F_CREATE_MERGE mode want_excl).

(** * Removing *)

Fixpoint rmdir_loop (w : W) (l : list (Z * L)) (ret : Z) : Z * W :=
  match l with
  | [] => (ret, w)
  | c :: l => let '(ret, w) := vfs_rmdir w c.2 in if negb (ret =? 0) then (ret, w) else rmdir_loop w l ret
  end.
Definition do_rmdir_merge (w : W) (dentry : merge_dentry) : Z * W := rmdir_loop w (md_comrades dentry) 0.

Fixpoint unlink_loop (w : W) (l : list (Z * L)) (ret : Z) : Z * W :=
  match l with
  | [] => (ret, w)
  | c :: l =>
      match lookup_again w c.2 with
      | inl err => (err, w)
      | inr lo_d => let '(ret, w) := vfs_unlink w lo_d in if negb (ret =? 0) then (ret, w) else unlink_loop w l ret
      end
  end.
Definition do_unlink_merge (w : W) (dentry : merge_dentry) : Z * W := unlink_loop w (md_comrades dentry) 0.

Definition hmdfs_rmdir_merge (w : W) (dentry : merge_dentry) : Z * W :=
  if negb (hmdfs_file_type (md_name dentry) =? HMDFS_TYPE_COMMON) then (- EACCES, w) else do_rmdir_merge w dentry.
Definition hmdfs_unlink_merge (w : W) (dentry : merge_dentry) : Z * W :=
  if negb (hmdfs_file_type (md_name dentry) =? HMDFS_TYPE_COMMON) then (- EACCES, w) else do_unlink_merge w dentry.

(** * Renaming *)

Definition RENAME_NOREPLACE := 1.

(** One turn for every device that has the entry; [inl] ends the loop. *)
Definition rename_one (w : W) (isdir : bool) (new_dir new_dentry : merge_dentry) (flags : Z) (c : Z * L) (ret : Z)
  : (Z * merge_dentry * W) + (Z * merge_dentry * W) :=
  match hmdfs_get_lo_d new_dir c.1 with
  | None => inr (ret, new_dentry, w)
  | Some lo_d_new_dir =>
      match dentry_path_raw lo_d_new_dir with
      | inl err => inr (err, new_dentry, w)
      | inr path_name =>
          if PATH_MAX <? zlength real_dst + zlength path_name + zlength (md_name new_dentry) + 2 then inl (- ENAMETOOLONG, new_dentry, w)
          else
            match kern_path_create w (real_dst ++ path_name ++ [SLASH] ++ md_name new_dentry) isdir with
            | inl err => inl (err, new_dentry, w)
            | inr (lo_d_new, lo_p_new) =>
                let '(ret, w) := vfs_rename w c.2 lo_d_new flags in
                inr (ret, link_comrade_unlocked new_dentry (c.1, lo_p_new), w)
            end
      end
  end.

Fixpoint rename_loop (w : W) (isdir : bool) (new_dir new_dentry : merge_dentry) (flags : Z) (l : list (Z * L)) (ret : Z) : Z * merge_dentry * W :=
  match l with
  | [] => (ret, new_dentry, w)
  | c :: l =>
      match rename_one w isdir new_dir new_dentry flags c ret with
      | inl r => r
      | inr (ret, new_dentry, w) => rename_loop w isdir new_dir new_dentry flags l ret
      end
  end.

Definition do_rename_merge (w : W) (old_dentry : merge_dentry) (isdir : bool) (new_dir new_dentry : merge_dentry) (flags : Z) : Z * merge_dentry * W :=
  if negb (Z.land flags (Z.lnot RENAME_NOREPLACE) =? 0) then (- EINVAL, new_dentry, w)
  else rename_loop w isdir new_dir new_dentry flags (md_comrades old_dentry) 0.

(** The types and paths of the two directories come from the caller. *)
Definition hmdfs_rename_merge (w : W) (old_type new_type : Z) (old_path new_path : bytes) (old_dentry : merge_dentry) (isdir : bool)
    (new_dir new_dentry : merge_dentry) (flags : Z) : Z * merge_dentry * W :=
  if negb (hmdfs_file_type (md_name old_dentry) =? HMDFS_TYPE_COMMON) || negb (hmdfs_file_type (md_name new_dentry) =? HMDFS_TYPE_COMMON)
  then (- EACCES, new_dentry, w)
  else if negb (old_type =? new_type) then (- EPERM, new_dentry, w)
  else if negb (beqb old_path new_path) then (- EPERM, new_dentry, w)
  else do_rename_merge w old_dentry isdir new_dir new_dentry flags.

(** * Opening a directory *)

(** The opened directories, and 0 when there is one. *)
Fixpoint do_dir_open_merge {F} (d_is_negative : L -> bool) (dentry_open : L -> option F) (l : list (Z * L)) (ret : Z) : Z * list (Z * F) :=
  match l with
  | [] => (ret, [])
  | c :: l =>
      if d_is_negative c.2 then do_dir_open_merge d_is_negative dentry_open l ret
      else
        match dentry_open c.2 with
        | None => do_dir_open_merge d_is_negative dentry_open l ret
        | Some f => let '(ret, fis) := do_dir_open_merge d_is_negative dentry_open l 0 in (ret, (c.1, f) :: fis)
        end
  end.
End Ops.
Arguments merge_dentry : clear implicits.

(** * Creating makes the path *)

Section Create.
Context {W L : Type} `{LowerFs W L} `{!LowerFsLaws W L}.
Variable real_dst : bytes.
Variable fill_inode_merge : L -> Z.
Implicit Types (w : W) (d p : merge_dentry L).

Definition fs_grows w w' : Prop := forall x, lf_exists w x -> lf_exists w' x.

(** The call that makes a missing directory, and the one that makes the entry itself. *)
Definition make_dir (mode : Z) w (lo : L) : Z * W := vfs_mkdir w lo mode.
Definition make_entry (para : recursive_para) w (lo : L) : Z * W :=
  match opcode para with
  | F_MKDIR_MERGE => vfs_mkdir w lo (rp_mode para)
  | F_CREATE_MERGE => vfs_create w lo (rp_mode para) (want_excl para)
  end.

Definition child_path (path : bytes) d : bytes := real_dst ++ path ++ [SLASH] ++ md_name d.

(** [lo] was made for [d] in the local directory [lo_parent]. *)
Definition made_in (make : W -> L -> Z * W) (is_dir : bool) (lo_parent : L) d (lo : L) : Prop :=
  exists w path dir, dentry_path_raw lo_parent = inr path /\
    kern_path_create w (child_path path d) is_dir = inr (lo, dir) /\ (make w lo).1 = 0.

(** [d'] is [d] with a new local entry in the local directory of [parent]. *)
Definition new_local (make : W -> L -> Z * W) (is_dir : bool) w (parent : option (merge_dentry L)) d d' : Prop :=
  exists p lo_parent lo, parent = Some p /\ hmdfs_get_lo_d p HMDFS_DEVID_LOCAL = Some lo_parent /\
    d' = mk_md (md_name d) (md_mode d) ((HMDFS_DEVID_LOCAL, lo) :: md_comrades d) /\ made_in make is_dir lo_parent d lo /\ lf_exists w lo.

(** The directories of a path from its end up: new local ones, with the modes that they have on
    the other devices, down from the first that was there. *)
Inductive path_made w : list (merge_dentry L) -> list (merge_dentry L) -> Prop :=
  | made_here p rest lo : hmdfs_get_lo_d p HMDFS_DEVID_LOCAL = Some lo -> path_made w (p :: rest) (p :: rest)
  | made_below p p' rest rest' : hmdfs_get_lo_d p HMDFS_DEVID_LOCAL = None -> path_made w rest rest' ->
      new_local (make_dir (md_mode p)) true w (head rest') p p' -> path_made w (p :: rest) (p' :: rest').

(** Making [d] in [lo_parent] failed with [ret] and left the world [w']: there is no path, or it is
    too long, or no place for the entry; the lower file system refused; or (with [filled]) the
    entry was made but not its inode in the merge view. *)
Definition step_fails (make : W -> L -> Z * W) (is_dir filled : bool) w (lo_parent : L) d (ret : Z) w' : Prop :=
  ret <> 0 /\
  (w' = w /\ dentry_path_raw lo_parent = inl ret \/
   exists path, dentry_path_raw lo_parent = inr path /\
     (w' = w /\ PATH_MAX < zlength real_dst + zlength path + zlength (md_name d) + 2 /\ ret = - ENAMETOOLONG \/
      w' = w /\ kern_path_create w (child_path path d) is_dir = inl ret \/
      exists lo dir err, kern_path_create w (child_path path d) is_dir = inr (lo, dir) /\ make w lo = (err, w') /\
        (ret = err \/ err = 0 /\ filled = true /\ ret = fill_inode_merge lo))).

(** All directories of the path were made, and then [d] failed. *)
Definition stops_at make is_dir filled w ps d (ret : Z) ps' w' : Prop :=
  exists w1 p lo_parent, path_made w1 ps ps' /\ head ps' = Some p /\ hmdfs_get_lo_d p HMDFS_DEVID_LOCAL = Some lo_parent /\
    fs_grows w w1 /\ fs_grows w1 w' /\ step_fails make is_dir filled w1 lo_parent d ret w'.

(** A directory of the path failed: the ones above were made, it and the ones below are unchanged. *)
Inductive path_stops w (ret : Z) w' : list (merge_dentry L) -> list (merge_dentry L) -> Prop :=
  | stops_here p rest rest' : hmdfs_get_lo_d p HMDFS_DEVID_LOCAL = None -> stops_at (make_dir (md_mode p)) true false w rest p ret rest' w' ->
      path_stops w ret w' (p :: rest) (p :: rest')
  | stops_above p rest rest' : hmdfs_get_lo_d p HMDFS_DEVID_LOCAL = None -> path_stops w ret w' rest rest' ->
      path_stops w ret w' (p :: rest) (p :: rest').

Lemma fs_grows_refl w : fs_grows w w.
Proof. by intros x. Qed.
Lemma fs_grows_trans w w1 w' : fs_grows w w1 -> fs_grows w1 w' -> fs_grows w w'.
Proof. intros H1 H2 x Hx. by apply H2, H1. Qed.

Lemma path_made_grows w w' ps ps' : fs_grows w w' -> path_made w ps ps' -> path_made w' ps ps'.
Proof.
  intros Hg. induction 1 as [|p p' rest rest' Hn _ IH (q&lop&lo&H1&H2&H3&H4&H5)]; [by econstructor|].
  apply made_below; [done|done|]. exists q, lop, lo. split_and!; try done. by apply Hg.
Qed.

Lemma find_none_existsb (l : list (Z * L)) dev : List.find (fun c => c.1 =? dev) l = None -> existsb (fun c => c.1 =? dev) l = false.
Proof. induction l as [|c l IH]; [done|]. cbn. destruct (c.1 =? dev); [done|exact IH]. Qed.

Lemma link_first_local d lo : hmdfs_get_lo_d d HMDFS_DEVID_LOCAL = None ->
  link_comrade_unlocked d (HMDFS_DEVID_LOCAL, lo) = mk_md (md_name d) (md_mode d) ((HMDFS_DEVID_LOCAL, lo) :: md_comrades d).
Proof.
  intros Hn. unfold link_comrade_unlocked, link_comrade. cbn [fst]. unfold hmdfs_get_lo_d in Hn.
  destruct (List.find _ _) eqn:E in Hn; [done|]. by rewrite find_none_existsb.
Qed.

(** What hmdfs_do_ops_merge makes. *)
Definition maker (para : recursive_para) : W -> L -> Z * W := if is_last para then make_entry para else make_dir (rp_mode para).

Lemma maker_grows para w lo : let '(err, w') := maker para w lo in fs_grows w w' /\ (err = 0 -> lf_exists w' lo).
Proof.
  assert (Hmk : forall m, let '(ret, w') := vfs_mkdir w lo m in fs_grows w w' /\ (ret = 0 -> lf_exists w' lo)).
  { intros m. pose proof (lf_mkdir w lo m) as Hm. destruct (vfs_mkdir w lo m) as [ret w']. destruct (ret =? 0) eqn:E; zb;
      [by destruct Hm|subst w'; split; [apply fs_grows_refl|done]]. }
  unfold maker, make_entry, make_dir. destruct (is_last para); [destruct (opcode para)|]; try apply Hmk.
  pose proof (lf_create w lo (rp_mode para) (want_excl para)) as Hc. destruct (vfs_create w lo _ _) as [ret w'].
  destruct (ret =? 0) eqn:E; zb; [destruct Hc; by split|subst w'; split; [apply fs_grows_refl|done]].
Qed.

Lemma ops_merge_eq para w lo : hmdfs_do_ops_merge fill_inode_merge w lo para =
  let '(err, w') := maker para w lo in (if err =? 0 then if is_last para then fill_inode_merge lo else 0 else err, w').
Proof.
  unfold hmdfs_do_ops_merge, maker, make_entry, make_dir, do_mkdir_merge, do_create_merge.
  destruct (is_last para); [destruct (opcode para)|].
  - destruct (vfs_mkdir _ _ _) as [ret w']. by destruct (ret =? 0).
  - destruct (vfs_create _ _ _ _) as [ret w']. by destruct (ret =? 0).
  - destruct (vfs_mkdir _ _ _) as [ret w']. destruct (ret =? 0) eqn:E; zb; by subst.
Qed.

(** One entry in a local directory. *)
Lemma create_lower_ok w p d lo_parent is_dir para : hmdfs_get_lo_d d HMDFS_DEVID_LOCAL = None -> hmdfs_get_lo_d p HMDFS_DEVID_LOCAL = Some lo_parent ->
  let '(ret, d', w') := hmdfs_create_lower_dentry real_dst fill_inode_merge w d lo_parent is_dir para in
  fs_grows w w' /\ (ret = 0 -> new_local (maker para) is_dir w' (Some p) d d') /\
  (ret <> 0 -> d' = d /\ step_fails (maker para) is_dir (is_last para) w lo_parent d ret w').
Proof.
  intros Hd Hp. unfold hmdfs_create_lower_dentry. destruct (dentry_path_raw lo_parent) as [err|path] eqn:Hpath.
  { split_and!; [apply fs_grows_refl| |intros Hne; split; [done|]; split; [done|by left]].
    intros ->. by destruct (lf_errors w lo_parent [] true 0 ltac:(by right; left)). }
  split_if; [split_and!; [apply fs_grows_refl|unfold ENAMETOOLONG; lia|intros Hne; split; [done|]; split; [done|right; exists path; split; [done|by left]]]|].
  fold (child_path path d). destruct (kern_path_create w _ is_dir) as [err|[lo dir]] eqn:Hcreate.
  { split_and!; [apply fs_grows_refl| |intros Hne; split; [done|]; split; [done|right; exists path; split; [done|by right; left]]].
    intros ->. by destruct (lf_errors w lo_parent _ is_dir 0 ltac:(right; right; exact Hcreate)). }
  rewrite ops_merge_eq. pose proof (maker_grows para w lo) as Hg. destruct (maker para w lo) as [err w'] eqn:Em. destruct Hg as [Hg He].
  destruct ((if err =? 0 then if is_last para then fill_inode_merge lo else 0 else err) =? 0) eqn:E0; zb.
  - split_and!; [done| |done]. intros _. exists p, lo_parent, lo.
    assert (err = 0) as -> by (destruct (err =? 0) eqn:E1; zb; done).
    split_and!; [done|done|by apply link_first_local| |by apply He]. exists w, path, dir. by rewrite Em.
  - split_and!; [done|done|]. intros _. split; [done|]. split; [done|]. right. exists path. split; [done|]. right; right. exists lo, dir, err.
    split_and!; [done|done|]. destruct (err =? 0) eqn:E1; zb; [|by left]. right. destruct (is_last para); [by split_and!|done].
Qed.

(** The last step, when the path is there. *)
Lemma create_below w w1 ps p' rest' d lo_parent is_dir para : hmdfs_get_lo_d d HMDFS_DEVID_LOCAL = None -> fs_grows w w1 ->
  path_made w1 ps (p' :: rest') -> hmdfs_get_lo_d p' HMDFS_DEVID_LOCAL = Some lo_parent ->
  let '(ret, d', w') := hmdfs_create_lower_dentry real_dst fill_inode_merge w1 d lo_parent is_dir para in
  fs_grows w w' /\ (ret = 0 -> path_made w' ps (p' :: rest') /\ new_local (maker para) is_dir w' (Some p') d d') /\
  (ret <> 0 -> d' = d /\ stops_at (maker para) is_dir (is_last para) w ps d ret (p' :: rest') w').
Proof.
  intros Hd Hg Hm Hp. pose proof (create_lower_ok w1 p' d lo_parent is_dir para Hd Hp) as Hc.
  destruct (hmdfs_create_lower_dentry _ _ w1 d lo_parent is_dir para) as [[ret d'] w2]. destruct Hc as (Hg2&Hnew&Hold).
  split_and!; [by eapply fs_grows_trans| |].
  - intros E. split; [by eapply path_made_grows|by apply Hnew].
  - intros E. destruct (Hold E) as [-> Hf]. split; [done|]. by exists w1, p', lo_parent.
Qed.

Lemma path_made_local w ps ps' : path_made w ps ps' -> exists p' rest' lo, ps' = p' :: rest' /\ hmdfs_get_lo_d p' HMDFS_DEVID_LOCAL = Some lo.
Proof.
  intros [p rest lo Hp|p p' rest rest' _ _ (q&lop&lo&_&_&->&_)]; [by exists p, rest, lo|].
  eexists _, rest', lo. split; [done|]. reflexivity.
Qed.

(** The directories from [d] up. *)
Definition recur_result w ps d (r : option (Z * merge_dentry L * list (merge_dentry L) * W)) : Prop :=
  exists ret d' ps' w', r = Some (ret, d', ps', w') /\ fs_grows w w' /\
    (ret = 0 -> path_made w' (d :: ps) (d' :: ps')) /\ (ret <> 0 -> path_stops w ret w' (d :: ps) (d' :: ps')).

Lemma parent_recur_ok ps : forall w d para, hmdfs_get_lo_d d HMDFS_DEVID_LOCAL = None ->
  Exists (fun p => is_Some (hmdfs_get_lo_d p HMDFS_DEVID_LOCAL)) ps ->
  recur_result w ps d (create_lo_d_parent_recur real_dst fill_inode_merge ps w d (md_mode d) para).
Proof.
  induction ps as [|p rest IH]; intros w d para Hd Hex; [by apply Exists_nil in Hex|]. cbn [create_lo_d_parent_recur].
  assert (Hlast : forall w1 p' rest' lo, fs_grows w w1 -> path_made w1 (p :: rest) (p' :: rest') -> hmdfs_get_lo_d p' HMDFS_DEVID_LOCAL = Some lo ->
    recur_result w (p :: rest) d (let '(ret, d_child, w2) := hmdfs_create_lower_dentry real_dst fill_inode_merge w1 d lo true (set_para para false (md_mode d))
      in Some (ret, d_child, p' :: rest', w2))).
  { intros w1 p' rest' lo Hg Hm Hlo. pose proof (create_below w w1 _ p' rest' d lo true (set_para para false (md_mode d)) Hd Hg Hm Hlo) as Hc.
    destruct (hmdfs_create_lower_dentry _ _ w1 d lo true _) as [[ret d'] w2]. destruct Hc as (Hg2&Hok&Herr).
    exists ret, d', (p' :: rest'), w2. split_and!; [done|done| |].
    - intros E. destruct (Hok E) as [H1 H2]. by apply made_below.
    - intros E. destruct (Herr E) as [-> Hs]. by apply stops_here. }
  destruct (hmdfs_get_lo_d p HMDFS_DEVID_LOCAL) as [lo|] eqn:Hp.
  - cbn [mbind option_bind]. change (0 =? 0) with true. cbn [negb]. rewrite Hp. apply Hlast; [apply fs_grows_refl|by eapply made_here|done].
  - apply Exists_cons in Hex as [[? Hex]|Hex]; [congruence|].
    destruct (IH w p para Hp Hex) as (ret&p'&rest'&w1&->&Hg&Hok&Herr). cbn [mbind option_bind].
    destruct (ret =? 0) eqn:E; zb; cbn [negb].
    + specialize (Hok E). destruct (path_made_local _ _ _ Hok) as (q&r&lo&[= <- <-]&Hq). rewrite Hq. by apply Hlast.
    + exists ret, d, (p' :: rest'), w1. split_and!; [done|done|done|]. intros _. apply stops_above; [done|by apply Herr].
Qed.

(** C26: Creating an entry of the merge view makes it in the local directory of its parent, and
    before that, from the top down, every directory of its path that is only on other devices,
    each in the one made before and with its mode. The recursion ends when some parent has a local
    directory, as the root has, and nothing that existed is lost. It fails only when a step fails
    (the lower file system refuses, there is no room for the path, or the new inode cannot be
    made), with the error of that step; then the directories above it were made and are linked,
    and the entry of that step, the ones below it and the new entry are unchanged. *)
Theorem create_makes_path ps w d is_dir para : hmdfs_get_lo_d d HMDFS_DEVID_LOCAL = None ->
  Exists (fun p => is_Some (hmdfs_get_lo_d p HMDFS_DEVID_LOCAL)) ps ->
  exists ret d' ps' w', create_lo_d_child real_dst fill_inode_merge ps w d is_dir para = Some (ret, d', ps', w') /\ fs_grows w w' /\
    (ret = 0 -> path_made w' ps ps' /\ new_local (make_entry para) is_dir w' (head ps') d d') /\
    (ret <> 0 -> d' = d /\ (stops_at (make_entry para) is_dir true w ps d ret ps' w' \/ path_stops w ret w' ps ps')).
Proof.
  intros Hd Hex. destruct ps as [|p rest]; [by apply Exists_nil in Hex|]. unfold create_lo_d_child.
  set (last := set_para para true (rp_mode para)). assert (maker last = make_entry para) as Hmake by done.
  destruct (hmdfs_get_lo_d p HMDFS_DEVID_LOCAL) as [lo|] eqn:Hp.
  - cbn [mbind option_bind]. change (0 =? 0) with true. cbn [negb]. rewrite Hp.
    pose proof (create_below w w (p :: rest) p rest d lo is_dir last Hd (fs_grows_refl w) (made_here _ _ _ _ Hp) Hp) as Hc.
    destruct (hmdfs_create_lower_dentry _ _ w d lo is_dir last) as [[ret d'] w2]. destruct Hc as (Hg&Hok&Herr). rewrite Hmake in *.
    exists ret, d', (p :: rest), w2. split_and!; [done|done|done|]. intros E. destruct (Herr E) as [-> Hs]. split; [done|by left].
  - apply Exists_cons in Hex as [[? Hex]|Hex]; [congruence|].
    destruct (parent_recur_ok rest w p para Hp Hex) as (ret&p'&rest'&w1&->&Hg&Hok&Herr). cbn [mbind option_bind].
    destruct (ret =? 0) eqn:E; zb; cbn [negb].
    + specialize (Hok E). destruct (path_made_local _ _ _ Hok) as (q&r&lo&[= <- <-]&Hq). rewrite Hq.
      pose proof (create_below w w1 (p :: rest) p' rest' d lo is_dir last Hd Hg Hok Hq) as Hc.
      destruct (hmdfs_create_lower_dentry _ _ w1 d lo is_dir last) as [[ret' d'] w2]. destruct Hc as (Hg2&Hok2&Herr2). rewrite Hmake in *.
      exists ret', d', (p' :: rest'), w2. split_and!; [done|done|done|]. intros E2. destruct (Herr2 E2) as [-> Hs]. split; [done|by left].
    + exists ret, d, (p' :: rest'), w1. split_and!; [done|done|done|]. intros _. split; [done|]. right. by apply Herr.
Qed.
End Create.

(** * Removing and renaming *)

Section Change.
Context {W L : Type} `{LowerFs W L} `{!LowerFsLaws W L}.
Implicit Types (w : W) (d : merge_dentry L).

(** The entries of the first devices are gone. *)
Definition removed w w' (l : list (Z * L)) (ret : Z) : Prop :=
  exists gone rest, l = gone ++ rest /\ (forall x, lf_exists w' x <-> lf_exists w x /\ x ∉ map snd gone) /\ (ret = 0 <-> rest = []).

Lemma removed_first w w1 w2 c l ret : (forall x, lf_exists w1 x <-> lf_exists w x /\ x <> c.2) -> removed w1 w2 l ret -> removed w w2 (c :: l) ret.
Proof.
  intros H1 (gone&rest&->&H2&H3). exists (c :: gone), rest. split_and!; [done| |done]. intros x. rewrite H2, H1. cbn [map]. set_solver.
Qed.

Lemma removed_none w l ret : (ret = 0 <-> l = []) -> removed w w l ret.
Proof. intros Hr. exists [], l. split_and!; [done| |done]. intros x. cbn. set_solver. Qed.

Lemma rmdir_loop_ok l : forall w, let '(ret, w') := rmdir_loop w l 0 in removed w w' l ret.
Proof.
  induction l as [|c l IH]; intros w; cbn [rmdir_loop]; [by apply removed_none|]. pose proof (lf_rmdir w c.2) as Hr.
  destruct (vfs_rmdir w c.2) as [ret w1]. destruct (ret =? 0) eqn:E; zb; cbn [negb].
  - subst ret. specialize (IH w1). destruct (rmdir_loop w1 l 0) as [ret w2]. by eapply removed_first.
  - subst w1. by apply removed_none.
Qed.

Lemma unlink_loop_ok l : forall w, let '(ret, w') := unlink_loop w l 0 in removed w w' l ret.
Proof.
  induction l as [|c l IH]; intros w; cbn [unlink_loop]; [by apply removed_none|]. destruct (lookup_again w c.2) as [err|lo] eqn:Hl.
  - apply removed_none. split; [|done]. intros ->. by destruct (lf_errors w c.2 [] true 0 ltac:(by left)).
  - apply lf_lookup in Hl as ->. pose proof (lf_unlink w c.2) as Hr. destruct (vfs_unlink w c.2) as [ret w1]. destruct (ret =? 0) eqn:E; zb; cbn [negb].
    + subst ret. specialize (IH w1). destruct (unlink_loop w1 l 0) as [ret w2]. by eapply removed_first.
    + subst w1. by apply removed_none.
Qed.

(** Removing an entry of the merge view removes it from the devices in the order of its
    comrades and stops at the first that fails: it returns 0 exactly when it is gone
    everywhere, and otherwise stays on that device and the ones behind it, gone in front of
    them. "." and ".." are refused. *)
Theorem remove_merge_correct w d :
  let common := hmdfs_file_type (md_name d) =? HMDFS_TYPE_COMMON in
  (let '(ret, w') := hmdfs_unlink_merge w d in if common then removed w w' (md_comrades d) ret else ret = - EACCES /\ w' = w) /\
  (let '(ret, w') := hmdfs_rmdir_merge w d in if common then removed w w' (md_comrades d) ret else ret = - EACCES /\ w' = w).
Proof.
  unfold hmdfs_unlink_merge, hmdfs_rmdir_merge, do_unlink_merge, do_rmdir_merge. destruct (_ =? HMDFS_TYPE_COMMON); cbn [negb]; [|done].
  split; [apply unlink_loop_ok|apply rmdir_loop_ok].
Qed.

Variable real_dst : bytes.

(** The device has the target directory, and its path fits. *)
Definition can_rename (isdir : bool) (new_dir new_dentry : merge_dentry L) (c : Z * L) : Prop :=
  exists lo path, hmdfs_get_lo_d new_dir c.1 = Some lo /\ dentry_path_raw lo = inr path /\
    zlength real_dst + zlength path + zlength (md_name new_dentry) + 2 <= PATH_MAX /\
    forall w, exists new, kern_path_create w (real_dst ++ path ++ [SLASH] ++ md_name new_dentry) isdir = inr new.

Lemma rename_one_ok w isdir new_dir new_dentry flags c ret : can_rename isdir new_dir new_dentry c ->
  exists lo_new new_dentry' w', vfs_rename w c.2 lo_new flags = ((vfs_rename w c.2 lo_new flags).1, w') /\
    rename_one real_dst w isdir new_dir new_dentry flags c ret = inr ((vfs_rename w c.2 lo_new flags).1, new_dentry', w') /\
    md_name new_dentry' = md_name new_dentry.
Proof.
  intros (lo&path&Hlo&Hpath&Hfit&Hnew). unfold rename_one. rewrite Hlo, Hpath. destruct (Hnew w) as [[lo_new dir] E].
  assert (PATH_MAX <? zlength real_dst + zlength path + zlength (md_name new_dentry) + 2 = false) as -> by (by apply Z.ltb_ge).
  rewrite E. exists lo_new. destruct (vfs_rename w c.2 lo_new flags) as [r w']. by eexists _, w'.
Qed.

(** Renaming on several devices reports what the last one answered, whatever the others did;
    and a device without the target directory is left out, also when it is the only one:
    then nothing is renamed and the result is 0. *)
Theorem rename_reports_last w old_dentry isdir new_dir new_dentry flags : Z.land flags (Z.lnot RENAME_NOREPLACE) = 0 ->
  (forall l c, md_comrades old_dentry = l ++ [c] -> (forall x, x ∈ l ++ [c] -> can_rename isdir new_dir new_dentry x) ->
     exists w1 lo_new, (do_rename_merge real_dst w old_dentry isdir new_dir new_dentry flags).1.1 = (vfs_rename w1 c.2 lo_new flags).1) /\
  ((forall c, c ∈ md_comrades old_dentry -> hmdfs_get_lo_d new_dir c.1 = None) ->
     do_rename_merge real_dst w old_dentry isdir new_dir new_dentry flags = (0, new_dentry, w)).
Proof.
  intros Hflags. unfold do_rename_merge. rewrite Hflags. change (0 =? 0) with true. cbn [negb]. split.
  - intros l c -> Hall.
    assert (Hgen : forall l w nd ret, md_name nd = md_name new_dentry -> (forall x, x ∈ l ++ [c] -> can_rename isdir new_dir new_dentry x) ->
      exists w1 lo_new, (rename_loop real_dst w isdir new_dir nd flags (l ++ [c]) ret).1.1 = (vfs_rename w1 c.2 lo_new flags).1);
      [|by apply Hgen]. clear l Hall. intros l. induction l as [|x l IH]; intros w1 nd ret Hn Hall; cbn [app rename_loop].
    + destruct (rename_one_ok w1 isdir new_dir nd flags c ret) as (lo_new&nd'&w'&_&->&_); [|by exists w1, lo_new].
      destruct (Hall c) as (lo&path&?&?&?&?); [by left|]. exists lo, path. by rewrite Hn.
    + destruct (rename_one_ok w1 isdir new_dir nd flags x ret) as (lo_new&nd'&w'&_&->&Hn').
      { destruct (Hall x) as (lo&path&?&?&?&?); [by left|]. exists lo, path. by rewrite Hn. }
      apply IH; [congruence|]. intros y Hy. apply Hall. by right.
  - intros Hnone. assert (Hgen : forall l ret, (forall c, c ∈ l -> hmdfs_get_lo_d new_dir c.1 = None) ->
      rename_loop real_dst w isdir new_dir new_dentry flags l ret = (ret, new_dentry, w)); [|by apply Hgen].
    intros l. induction l as [|c l IH]; intros ret Hl; [done|]. cbn [rename_loop]. unfold rename_one. rewrite Hl by by left.
    apply IH. intros x Hx. apply Hl. by right.
Qed.

(** Opening a directory of the merge view opens it on every device that can, in the order of
    the comrades, and fails only when none can. *)
Lemma dir_open_merge_ok {F} (d_is_negative : L -> bool) (dentry_open : L -> option F) l : forall ret,
  let opened := omap (fun c => if d_is_negative c.2 then None else f ← dentry_open c.2; Some (c.1, f)) l in
  do_dir_open_merge d_is_negative dentry_open l ret = (match opened with [] => ret | _ => 0 end, opened).
Proof.
  induction l as [|c l IH]; intros ret; [done|]. cbn [do_dir_open_merge omap list_omap]. destruct (d_is_negative c.2); [apply IH|].
  destruct (dentry_open c.2) as [f|]; cbn [mbind option_bind]; [|apply IH]. rewrite IH. cbv zeta. by destruct (omap _ l).
Qed.
End Change.

(** * Examples *)

(** A lower file system that is the list of its paths. *)
#[local] Instance path_fs : LowerFs (list bytes) bytes := {|
  dentry_path_raw := inr;
  kern_path_create := fun _ p _ => inr (p, p);
  vfs_mkdir := fun w d _ => (0, d :: w);
  vfs_create := fun w d _ _ => (0, d :: w);
  vfs_rmdir := fun w d => if decide (d ∈ w) then (0, filter (fun x => x <> d) w) else (- ENOENT, w);
  lookup_again := fun _ => inr;
  vfs_unlink := fun w d => if decide (d ∈ w) then (0, filter (fun x => x <> d) w) else (- ENOENT, w);
  vfs_rename := fun w a b _ => if decide (a ∈ w) then (0, b :: filter (fun x => x <> a) w) else (- ENOENT, w);
  lf_exists := fun w d => d ∈ w
|}.

#[local] Instance path_fs_laws : LowerFsLaws (list bytes) bytes.
Proof.
  assert (Hrm : forall (w : list bytes) d, let '(ret, w') := if decide (d ∈ w) then (0, filter (fun x => x <> d) w) else (- ENOENT, w) in
    if ret =? 0 then forall x, x ∈ w' <-> x ∈ w /\ x <> d else w' = w).
  { intros w d. destruct (decide (d ∈ w)); [|done]. change (0 =? 0) with true. cbv iota. intros x. rewrite list_elem_of_filter. tauto. }
  split; cbn [vfs_mkdir vfs_create vfs_rmdir vfs_unlink lookup_again dentry_path_raw kern_path_create lf_exists path_fs].
  - intros w d _. split; [by left|]. intros x Hx. by right.
  - intros w d _ _. split; [by left|]. intros x Hx. by right.
  - apply Hrm.
  - apply Hrm.
  - intros w d d' [= ->]. done.
  - intros w d p isdir e [?|[?|?]]; discriminate.
Qed.

(** The root is on the local device, the directory "d" below it only on device 1. *)
Definition root_dentry : merge_dentry bytes := mk_md [] 16877 [(0, [114]); (1, [112])].
Definition dir_d : merge_dentry bytes := mk_md [100] 16877 [(1, [112; 47; 100])].
Definition new_file : merge_dentry bytes := mk_md [102] 0 [].
Definition no_error (_ : bytes) : Z := 0.

(** No step can fail here, so both the directory and the file are made. *)
Lemma create_makes_path_witness :
  let para := mk_para true F_CREATE_MERGE 33188 false in
  exists d' ps' w', create_lo_d_child [] no_error [dir_d; root_dentry] [[114]] new_file false para = Some (0, d', ps', w') /\ fs_grows [[114]] w' /\
    path_made [] w' [dir_d; root_dentry] ps' /\ new_local [] (make_entry para) false w' (head ps') new_file d'.
Proof.
  intros para. destruct (create_makes_path [] no_error [dir_d; root_dentry] [[114]] new_file false para) as (ret&d'&ps'&w'&E&Hg&Hok&_);
    [reflexivity|apply Exists_cons; right; apply Exists_cons; left; eexists; reflexivity|].
  assert (ret = 0) as -> by (vm_compute in E; congruence). exists d', ps', w'. split_and!; [exact E|exact Hg|apply Hok; reflexivity|apply Hok; reflexivity].
Defined.

(** Both the directory and the file are made locally. *)
Example create_makes_both :
  (fun r => (r.1.1.1, r.2)) <$> hmdfs_create_merge [] no_error [dir_d; root_dentry] [[114]] new_file 33188 false =
    Some (0, [[114; 47; 100; 47; 102]; [114; 47; 100]; [114]]).
Proof. reflexivity. Qed.

Lemma rename_reports_last_witness :
  let old := mk_md [97] 33188 [(0, [48]); (1, [49])] in
  exists w1 lo_new, (do_rename_merge [] [[49]] old false root_dentry new_file 0).1.1 = (vfs_rename w1 [49] lo_new 0).1.
Proof.
  apply (proj1 (rename_reports_last [] [[49]] (mk_md [97] 33188 [(0, [48]); (1, [49])]) false root_dentry new_file 0 eq_refl) [(0, [48])] (1, [49]));
    [reflexivity|].
  intros x Hx. repeat (apply elem_of_cons in Hx as [->|Hx]; [|]); [..|by apply not_elem_of_nil in Hx].
  - exists [114], [114]. split_and!; [reflexivity|reflexivity|vm_compute; discriminate|]. intros w. eexists. reflexivity.
  - exists [112], [112]. split_and!; [reflexivity|reflexivity|vm_compute; discriminate|]. intros w. eexists. reflexivity.
Defined.

(** The first device does not have the entry any more, and the result is 0. *)
Example rename_hides_failure :
  (do_rename_merge [] [[49]] (mk_md [97] 33188 [(0, [48]); (1, [49])]) false root_dentry new_file 0).1.1 = 0.
Proof. reflexivity. Qed.

Lemma remove_merge_correct_witness :
  let d := mk_md [97] 33188 [(0, [48]); (1, [49])] in
  (let '(ret, w') := hmdfs_unlink_merge [[48]; [50]] d in removed [[48]; [50]] w' (md_comrades d) ret) /\
  (let '(ret, w') := hmdfs_rmdir_merge [[48]; [50]] d in removed [[48]; [50]] w' (md_comrades d) ret).
Proof. exact (remove_merge_correct [[48]; [50]] (mk_md [97] 33188 [(0, [48]); (1, [49])])). Defined.
