(* ===== verification/Transport.v ===== *)
(** Messages on a connection (comm/transport.c): sending them on a socket, and the receive
    thread that cuts the bytes of the socket into messages again. *)
From S2P Require Import Prelude Protocol Handshake MessageVerify.

(** * The socket *)

(** What the next kernel_recvmsg does: it fails, or it returns with at most so many bytes. There are
    finitely many such events; behind them MSG_WAITALL gets what was asked for, or all there is before
    the end of the stream. *)
Inductive sock_event := RecvErr (e : positive) | RecvSome (n : nat).
Record sock := mk_sock { sk_stream : bytes; sk_events : list sock_event }.

(** The result, the bytes, and the socket afterwards. *)
Definition recvmsg_nofs (s : sock) (size : nat) : Z * bytes * sock :=
  match sk_events s with
  | RecvErr e :: evs => (Z.neg e, [], mk_sock (sk_stream s) evs)
  | RecvSome n :: evs =>
      let k := (n `min` size)%nat in
      (Z.of_nat (length (take k (sk_stream s))), take k (sk_stream s), mk_sock (drop k (sk_stream s)) evs)
  | [] => (Z.of_nat (length (take size (sk_stream s))), take size (sk_stream s), mk_sock (drop size (sk_stream s)) [])
  end.

Definition tcp_read_head_from_socket (s : sock) (to_read : nat) : Z * bytes * sock :=
  let '(rc, buf, s) := recvmsg_nofs s to_read in
  if (rc =? - EAGAIN) || (rc =? - ETIMEDOUT) || (rc =? - EINTR) || (rc =? - EBADMSG) then (- EAGAIN, buf, s)
  else if negb (rc =? Z.of_nat to_read) then (- ESHUTDOWN, buf, s)
  else (0, buf, s).

Definition MAX_RECV_RETRY_TIMES := 2.

(** The loop, after [buf] was read and [retry_time] attempts timed out. Every turn takes an
    event of the socket, or all it has. *)
Fixpoint read_loop (fuel : nat) (s : sock) (to_read : nat) (buf : bytes) (retry_time : Z) : option (Z * bytes * sock) :=
  match fuel with
  | O => None
  | S fuel =>
      let again s buf retry_time :=
        if (Z.of_nat (length buf) <? Z.of_nat to_read) && (retry_time <? MAX_RECV_RETRY_TIMES) then read_loop fuel s to_read buf retry_time
        else Some (if Z.of_nat (length buf) =? Z.of_nat to_read then 0 else - ESHUTDOWN, buf, s) in
      let '(rc, data, s) := recvmsg_nofs s (to_read - length buf) in
      if rc =? - EBADMSG then again s buf retry_time
      else if (rc =? - EAGAIN) || (rc =? - ETIMEDOUT) || (rc =? - EINTR) then again s buf (retry_time + 1)
      else if rc <=? 0 then Some (- ESHUTDOWN, buf, s)
      else again s (buf ++ data) retry_time
  end.

Definition tcp_read_buffer_from_socket (s : sock) (to_read : nat) : option (Z * bytes * sock) :=
  read_loop (S (S (length (sk_events s)))) s to_read [] 0.

(** * Receiving *)

Definition HEAD_SIZE : nat := size_of hmdfs_head_cmd.

(** What the receive thread hands on: a message to the handler for the connection's status, or
    the page of an answer (none when there was an error). *)
Inductive received :=
  | Handled (status : Z) (head data : bytes)
  | Page (head : bytes) (err : Z) (page : option bytes).

(** What an answer to a page request finds: no request or one whose timeout has begun, a request
    without a page, or the page to fill. *)
Inductive page_slot := NoWork | NoPage | PageWaits.

Definition hd_fld (head : bytes) (f : string) : Z := default 0 (fld hmdfs_head_cmd head f).

(** The length behind the head, as an unsigned int. *)
Definition out_len (head : bytes) : Z := u32 (hd_fld head "data_len" - sizeof hmdfs_head_cmd).

(** The states that tcp_handle_is_available looks at: of the TCP connection, of the socket, and
    whether the TLS parser of the stream has stopped. *)
Record link := mk_link { lk_sk_state : Z; lk_state : Z; lk_strp_stopped : bool }.
Definition TCP_ESTABLISHED := 1.
Definition TCP_CLOSE_WAIT := 8.
Definition SS_CONNECTING := 2.
Definition SS_CONNECTED := 3.
Definition tcp_handle_is_available (l : link) : bool :=
  (lk_sk_state l =? TCP_ESTABLISHED) && ((lk_state l =? SS_CONNECTING) || (lk_state l =? SS_CONNECTED)) && negb (lk_strp_stopped l).

(** What the receive thread finds in a turn: whether it is to stop, whether the connection is in a
    list of its peer, whether close_mutex is free, and the link at both looks. *)
Record turn_env := mk_te { te_stop : bool; te_mounted : bool; te_lock : bool; te_link : link; te_link2 : link }.
Definition link_up : link := mk_link TCP_ESTABLISHED SS_CONNECTED false.
Definition quiet_turn : turn_env := mk_te false true true link_up link_up.

Inductive turn_kind := Ends | Skips | Receives.
Definition turn_of (env : turn_env) : turn_kind :=
  if te_stop env then Ends
  else if tcp_handle_is_available (te_link env) && negb (te_mounted env) then Skips
  else if negb (te_lock env) then Skips
  else if tcp_handle_is_available (te_link2 env) then Receives else Ends.

Section Receive.
(** hmdfs_find_msg_head and cancel_delayed_work, of which MsgTable says more. *)
Variable find_page : bytes -> page_slot.
(** gcm(aes) of the kernel: initialisation vector and text with tag. *)
Variable aead_decrypt : bytes -> bytes -> positive + bytes.

Definition hmdfs_drop_readpage_buffer (s : sock) (head : bytes) : option (Z * sock) :=
  let len := out_len head in
  if (HMDFS_PAGE_SIZE <? len) || (len =? 0) then Some (- EINVAL, s)
  else '(err, _, s) ← tcp_read_buffer_from_socket s (Z.to_nat len); Some (err, s).

Definition hmdfs_get_readpage_buffer (s : sock) (head : bytes) : option (Z * bytes * sock) :=
  let len := out_len head in
  if (HMDFS_PAGE_SIZE <? len) || (len =? 0) then Some (- EINVAL, [], s)
  else
    '(err, buf, s) ← tcp_read_buffer_from_socket s (Z.to_nat len);
    Some (err, buf ++ replicate (Z.to_nat (HMDFS_PAGE_SIZE - len)) 0, s).

Definition tcp_recvpage_tls (s : sock) (head : bytes) : option (Z * list received * sock) :=
  let rd_err := swrap 32 (hd_fld head "ret_code") in
  match find_page head with
  | PageWaits =>
      if rd_err =? 0 then
        '(ret, buf, s) ← hmdfs_get_readpage_buffer s head;
        Some (ret, [Page head ret (if ret =? 0 then Some buf else None)], s)
      else Some (0, [Page head rd_err None], s)
  | _ =>
      if rd_err =? 0 then '(ret, s) ← hmdfs_drop_readpage_buffer s head; Some (ret, [], s)
      else Some (0, [], s)
  end.

Definition CONNECT_STAT_STOP := 3.
(** connect_recv_callback: no handler when the connection has stopped or its handshake failed. *)
Definition connect_recv_callback (status : Z) (head data : bytes) : list received :=
  if (status =? CONNECT_STAT_STOP) || (status =? CONNECT_STAT_NEGO_FAIL) then [] else [Handled status head data].

Definition ADAPTER_MESSAGE_LENGTH := 1024 * 1024 + 1024.
Definition HMDFS_IV_SIZE : nat := 12.
Definition HMDFS_TAG_SIZE : nat := 16.
Definition ENOMSG := 42.

Definition aeadcipher_decrypt_buffer (src : bytes) : Z + bytes :=
  if Z.of_nat (length src) <=? Z.of_nat (HMDFS_IV_SIZE + HMDFS_TAG_SIZE) then inl (- EINVAL)
  else match aead_decrypt (take HMDFS_IV_SIZE src) (drop HMDFS_IV_SIZE src) with inl e => inl (Z.neg e) | inr data => inr data end.

Definition tcp_recvbuffer_cipher (status : Z) (s : sock) (head : bytes) : option (Z * list received * sock) :=
  let recv_len := hd_fld head "data_len" in
  if recv_len =? sizeof hmdfs_head_cmd then Some (0, connect_recv_callback status head [], s)
  else if (sizeof hmdfs_head_cmd <? recv_len) && (recv_len <=? ADAPTER_MESSAGE_LENGTH) then
    let cipherbuffer_len := (Z.to_nat (recv_len - sizeof hmdfs_head_cmd) + HMDFS_IV_SIZE + HMDFS_TAG_SIZE)%nat in
    '(ret, cipherbuffer, s) ← tcp_read_buffer_from_socket s cipherbuffer_len;
    if negb (ret =? 0) then Some (ret, [], s)
    else
      match aeadcipher_decrypt_buffer cipherbuffer with
      | inl ret => Some (ret, [], s)
      | inr outdata => Some (0, connect_recv_callback status head outdata, s)
      end
  else Some (- ENOMSG, [], s).

Definition tcp_recvbuffer_tls (status : Z) (s : sock) (head : bytes) : option (Z * list received * sock) :=
  let outlen := out_len head in
  if outlen =? 0 then Some (0, connect_recv_callback status head [], s)
  else
    '(ret, outdata, s) ← tcp_read_buffer_from_socket s (Z.to_nat outlen);
    if negb (ret =? 0) then Some (ret, [], s) else Some (0, connect_recv_callback status head outdata, s).

Definition head_bad (head : bytes) : bool :=
  negb (hd_fld head "magic" =? HMDFS_MSG_MAGIC) || negb (hd_fld head "version" =? HMDFS_VERSION).
Definition length_bad (head : bytes) : bool :=
  (HMDFS_MAX_MESSAGE_LEN + sizeof hmdfs_head_cmd <? hd_fld head "data_len") || (hd_fld head "data_len" <? sizeof hmdfs_head_cmd).
Definition is_page (head : bytes) : bool := (hd_fld head "command" =? F_READPAGE) && (hd_fld head "cmd_flag" =? C_RESPONSE).

Definition tcp_receive_from_sock (status : Z) (s : sock) : option (Z * list received * sock) :=
  let '(ret, recv, s) := tcp_read_head_from_socket s HEAD_SIZE in
  if negb (ret =? 0) then Some (ret, [], s)
  else if head_bad recv then Some (0, [], s)
  else if length_bad recv then Some (0, [], s)
  else if (status =? CONNECT_STAT_WORKING) && is_page recv then tcp_recvpage_tls s recv
  else if status =? CONNECT_STAT_WORKING then tcp_recvbuffer_tls status s recv
  else tcp_recvbuffer_cipher status s recv.

(** The handlers may change the connection's status. *)
Variable handle : Z -> received -> Z.

(** tcp_recv_thread, until it exits: a turn takes one of [envs] when there is one, an event or a
    head, or is the last. *)
Fixpoint recv_loop (fuel : nat) (status : Z) (envs : list turn_env) (s : sock) : option (list received * sock) :=
  match fuel with
  | O => None
  | S fuel =>
      match turn_of (hd quiet_turn envs) with
      | Ends => Some ([], s)
      | Skips => recv_loop fuel status (tail envs) s
      | Receives =>
          '(ret, out, s) ← tcp_receive_from_sock status s;
          if ret =? - ESHUTDOWN then Some (out, s)
          else '(out', s) ← recv_loop fuel (foldl handle status out) (tail envs) s; Some (out ++ out', s)
      end
  end.

Definition tcp_recv_thread (status : Z) (envs : list turn_env) (s : sock) : option (list received * sock) :=
  recv_loop (S (length (sk_stream s) + length (sk_events s) + length envs)) status envs s.
End Receive.

(** * Sending *)

(** struct hmdfs_send_data. *)
Record send_data := mk_send { sd_head : bytes; sd_sdesc : bytes; sd_data : bytes }.

Section Send.
Variable aead_encrypt : bytes -> bytes -> positive + bytes.

(** What kernel_sendmsg returns for so many bytes. *)
Variable kernel_sendmsg : nat -> Z.

(** The result and the bytes that went out. *)
Definition tcp_send_message_sock_tls (msg : send_data) : Z * bytes :=
  let vec := sd_head msg ++ sd_sdesc msg ++ sd_data msg in
  let send_len := kernel_sendmsg (length vec) in
  if send_len =? - EBADMSG then (- EBADMSG, [])
  else if send_len <=? 0 then (- ESHUTDOWN, [])
  else if negb (send_len =? Z.of_nat (length vec)) then (- EAGAIN, take (Z.to_nat send_len) vec)
  else (0, vec).

Definition aeadcipher_encrypt_buffer (iv src : bytes) : Z + bytes :=
  match src with [] => inl (- EINVAL) | _ => match aead_encrypt iv src with inl e => inl (Z.neg e) | inr text => inr (iv ++ text) end end.

Definition tcp_send_message_sock_cipher (iv : bytes) (msg : send_data) : Z * bytes :=
  match (match sd_data msg with [] => inr [] | _ => aeadcipher_encrypt_buffer iv (sd_data msg) end) with
  | inl ret => (ret, [])
  | inr outdata =>
      let vec := sd_head msg ++ outdata in
      let send_len := kernel_sendmsg (length vec) in
      if send_len <=? 0 then (- ESHUTDOWN, [])
      else if negb (send_len =? Z.of_nat (length vec)) then (- EAGAIN, take (Z.to_nat send_len) vec)
      else (0, vec)
  end.

(** Without the rekey request that follows after REKEY_LIFETIME. *)
Definition tcp_send_message (status : Z) (iv : bytes) (msg : send_data) : Z * bytes :=
  if HMDFS_MAX_MESSAGE_LEN <? Z.of_nat (length (sd_data msg)) then (- EINVAL, [])
  else if status =? CONNECT_STAT_STOP then (- EAGAIN, [])
  else if status =? CONNECT_STAT_WORKING then tcp_send_message_sock_tls msg
  else tcp_send_message_sock_cipher iv msg.
End Send.

(** ** The heads *)

(** hmdfs_sendmessage_response: the fields it does not name are those of the request. *)
Definition response_head (cmd : bytes) (data_len ret_code : Z) : bytes :=
  put hmdfs_head_cmd "ret_code" (u32 ret_code) (put hmdfs_head_cmd "data_len" (u32 data_len) (put hmdfs_head_cmd "cmd_flag" C_RESPONSE
    (put hmdfs_head_cmd "version" HMDFS_VERSION (put hmdfs_head_cmd "magic" HMDFS_MSG_MAGIC cmd)))).

Definition hmdfs_sendmessage_response (cmd buf : bytes) (ret_code : Z) : send_data :=
  mk_send (response_head cmd (Z.of_nat (length buf) + sizeof hmdfs_head_cmd) ret_code) [] buf.

(** * Reading *)

(** An error, or bytes from the front of the stream. *)
Lemma recvmsg_cases s size :
  (exists e evs, sk_events s = RecvErr e :: evs /\ recvmsg_nofs s size = (Z.neg e, [], mk_sock (sk_stream s) evs)) \/
  exists data s', recvmsg_nofs s size = (Z.of_nat (length data), data, s') /\ sk_stream s = data ++ sk_stream s' /\ (length data <= size)%nat /\
    sk_events s' `suffix_of` sk_events s /\ (length (sk_events s') < length (sk_events s) \/ sk_events s = [] /\ sk_events s' = [] /\ data = take size (sk_stream s))%nat.
Proof.
  unfold recvmsg_nofs. destruct (sk_events s) as [|[e|n] evs]; [right|left; by exists e, evs|right].
  - eexists _, _. split; [done|]. cbn [sk_stream sk_events]. rewrite take_drop, length_take. split_and!; [done|lia|done|by right].
  - eexists _, _. split; [done|]. cbn [sk_stream sk_events length]. rewrite take_drop, length_take. split_and!; [done|lia|by apply suffix_cons_r|left; lia].
Qed.

Definition pending (s : sock) : nat := length (sk_events s) + match sk_stream s with [] => 0 | _ => 1 end.

(** Whatever the socket does, the buffer is what was taken from the stream: all of it, or the
    connection is given up. *)
Definition read_spec (s : sock) (to_read : nat) (buf : bytes) (r : option (Z * bytes * sock)) : Prop :=
  exists ret data s', r = Some (ret, buf ++ data, s') /\ sk_stream s = data ++ sk_stream s' /\
    sk_events s' `suffix_of` sk_events s /\ (ret = 0 /\ length (buf ++ data) = to_read \/ ret = - ESHUTDOWN).

Lemma read_spec_stop s s' to_read buf : sk_stream s = sk_stream s' -> sk_events s' `suffix_of` sk_events s ->
  read_spec s to_read buf (Some (- ESHUTDOWN, buf, s')).
Proof. intros H1 H2. exists (- ESHUTDOWN), [], s'. rewrite app_nil_r. split_and!; [done|done|done|by right]. Qed.

Lemma read_spec_more s s1 to_read buf d r : sk_stream s = d ++ sk_stream s1 -> sk_events s1 `suffix_of` sk_events s ->
  read_spec s1 to_read (buf ++ d) r -> read_spec s to_read buf r.
Proof.
  intros Hd He (ret&data&s'&->&H1&H2&H3). exists ret, (d ++ data), s'. rewrite !app_assoc. split_and!; [done|by rewrite Hd, H1, app_assoc|by etrans|done].
Qed.

Lemma read_loop_ok fuel : forall s to_read buf retry, (pending s < fuel)%nat -> (length buf <= to_read)%nat ->
  read_spec s to_read buf (read_loop fuel s to_read buf retry).
Proof.
  induction fuel as [|fuel IH]; intros s to_read buf retry Hfuel Hbuf; [lia|].
  assert (Hagain : forall s1 d rt, (length (buf ++ d) <= to_read)%nat -> sk_stream s = d ++ sk_stream s1 ->
    sk_events s1 `suffix_of` sk_events s -> (length (buf ++ d) < to_read -> pending s1 < pending s)%nat ->
    read_spec s to_read buf (if (Z.of_nat (length (buf ++ d)) <? Z.of_nat to_read) && (rt <? MAX_RECV_RETRY_TIMES) then read_loop fuel s1 to_read (buf ++ d) rt
        else Some (if Z.of_nat (length (buf ++ d)) =? Z.of_nat to_read then 0 else - ESHUTDOWN, buf ++ d, s1))).
  { intros s1 d rt Hle Hd He Hp. apply (read_spec_more s s1 to_read buf d); [done|done|]. destruct (_ && _) eqn:E; zb; [apply IH; [|done]; lia|].
    split_if; [|by apply read_spec_stop]. exists 0, [], s1. rewrite app_nil_r. split_and!; [done|done|done|left; split; [done|lia]]. }
  cbn [read_loop]. destruct (recvmsg_cases s (to_read - length buf)) as [(e&evs&Hev&->)|(data&s1&->&Hd&Hlen&Hsuf&Hm)].
  - assert (Hmore : forall rt, _) by (intros rt; specialize (Hagain (mk_sock (sk_stream s) evs) [] rt); rewrite app_nil_r in Hagain; apply Hagain;
      [done|done|cbn; rewrite Hev; by apply suffix_cons_r|unfold pending; cbn; rewrite Hev; cbn; lia]).
    repeat (split_if; [apply Hmore|]). split_if; [|lia]. apply read_spec_stop; cbn; [done|rewrite Hev; by apply suffix_cons_r].
  - assert (Z.of_nat (length data) =? - EBADMSG = false) as -> by (apply Z.eqb_neq; unfold EBADMSG; lia).
    assert ((Z.of_nat (length data) =? - EAGAIN) || (Z.of_nat (length data) =? - ETIMEDOUT) || (Z.of_nat (length data) =? - EINTR) = false) as ->
      by (rewrite !orb_false_iff, !Z.eqb_neq; unfold EAGAIN, ETIMEDOUT, EINTR; lia).
    split_if; [destruct data; [|cbn in *; lia]; by apply read_spec_stop|].
    apply Hagain; [rewrite length_app; lia|done|done|]. rewrite length_app. intros Hlt. unfold pending. rewrite Hd.
    destruct data as [|b data]; [cbn in *; lia|]. cbn [app]. destruct Hm as [Hm|(->&->&Hall)]; [destruct (sk_stream s1); lia|].
    assert (sk_stream s1 = []) as ->; [|cbn; lia]. rewrite Hd in Hall. apply (f_equal length) in Hall. rewrite length_take, length_app in Hall.
    destruct (sk_stream s1); [done|]. cbn in *. lia.
Qed.

(** Errors that a message survives: any number of bad records, and one timeout. *)
Definition timeout (ev : sock_event) : bool := match ev with RecvErr e => negb (Z.pos e =? EBADMSG) | RecvSome _ => false end.
Definition survivable (ev : sock_event) : bool :=
  match ev with RecvErr e => (Z.pos e =? EBADMSG) || (Z.pos e =? EAGAIN) || (Z.pos e =? ETIMEDOUT) || (Z.pos e =? EINTR) | RecvSome _ => false end.
Definition quiet (evs : list sock_event) : Prop := Forall (fun ev => survivable ev = true) evs /\ (length (List.filter timeout evs) <= 1)%nat.

Lemma quiet_suffix evs evs' : evs' `suffix_of` evs -> quiet evs -> quiet evs'.
Proof. intros [l ->] [H1 H2]. rewrite Forall_app in H1. rewrite filter_app, length_app in H2. split; [tauto|lia]. Qed.

(** With such errors only and enough on the stream, the buffer is filled. *)
Lemma read_loop_quiet fuel : forall s to_read buf retry, (pending s < fuel)%nat -> (length buf < to_read)%nat ->
  (to_read <= length buf + length (sk_stream s))%nat -> Forall (fun ev => survivable ev = true) (sk_events s) -> 
  retry + Z.of_nat (length (List.filter timeout (sk_events s))) <= 1 ->
  exists data s', read_loop fuel s to_read buf retry = Some (0, data, s').
Proof.
  induction fuel as [|fuel IH]; intros [st evs] to_read buf retry Hfuel Hbuf Hst Hall Hto; cbn [sk_stream sk_events] in *; [lia|].
  cbn [read_loop]. unfold recvmsg_nofs. cbn [sk_stream sk_events]. destruct evs as [|[e|n] evs].
  - rewrite length_take. replace (_ `min` _)%nat with (to_read - length buf)%nat by lia.
    assert (forall e, 0 < e -> Z.of_nat (to_read - length buf) =? - e = false) as He by (intros; apply Z.eqb_neq; lia). rewrite !He by done. cbn [orb].
    split_if; [lia|]. rewrite length_app, length_take. split_if; [lia|]. split_if; [eauto|lia].
  - apply Forall_cons_1 in Hall as [Hs Hall]. unfold pending in Hfuel. cbn [sk_events sk_stream length] in Hfuel.
    assert (Hmore : forall rt, rt + Z.of_nat (length (List.filter timeout evs)) <= 1 ->
      exists data s', (if (Z.of_nat (length buf) <? Z.of_nat to_read) && (rt <? MAX_RECV_RETRY_TIMES) then read_loop fuel (mk_sock st evs) to_read buf rt
        else Some (if Z.of_nat (length buf) =? Z.of_nat to_read then 0 else - ESHUTDOWN, buf, mk_sock st evs)) = Some (0, data, s')).
    { intros rt Hrt. destruct (_ && _) eqn:E; [|unfold MAX_RECV_RETRY_TIMES in E; zb; lia].
      apply IH; cbn [sk_stream sk_events]; [unfold pending; cbn; lia|done|done|done|done]. }
    cbn [List.filter survivable timeout] in *.
    split_if; [apply Hmore; destruct (negb _); cbn [length] in Hto; lia|].
    split_if; [apply Hmore; destruct (_ =? EBADMSG) eqn:E'; zb; [lia|]; cbn [negb length] in Hto; lia|zb; lia].
  - apply Forall_cons_1 in Hall as [Hs Hall]. done.
Qed.

(** The buffer of a message: whole or given up, and whole when the socket was quiet. *)
Lemma read_buffer_ok s to_read : exists ret data s', tcp_read_buffer_from_socket s to_read = Some (ret, data, s') /\
  sk_stream s = data ++ sk_stream s' /\ sk_events s' `suffix_of` sk_events s /\
  (ret = 0 /\ length data = to_read \/ ret = - ESHUTDOWN) /\
  ((0 < to_read <= length (sk_stream s))%nat -> quiet (sk_events s) -> ret = 0).
Proof.
  unfold tcp_read_buffer_from_socket. assert (pending s < S (S (length (sk_events s))))%nat as Hp by (unfold pending; destruct (sk_stream s); lia).
  destruct (read_loop_ok _ s to_read [] 0 Hp) as (ret&data&s'&E&Hd&Hs&Hr); [cbn; lia|]. exists ret, data, s'.
  split_and!; [exact E|done|done|exact Hr|]. intros Hlen [H1 H2].
  destruct (read_loop_quiet _ s to_read [] 0 Hp) as (d&s2&E2); [cbn; lia|cbn; lia|done|lia|]. rewrite E in E2. by simplify_eq.
Qed.

(** ** Fields of a head *)

Lemma field_at_bound st f : forall off w, field_at st f = Some (off, w) -> (off + w <= size_of st)%nat.
Proof.
  induction st as [|[g w'] st IH]; intros off w; cbn [field_at size_of]; [done|]. destruct (String.eqb f g); [intros [= <- <-]; lia|].
  destruct (field_at st f) as [[off' w'']|] eqn:E; [|done]. intros [= <- <-]. specialize (IH _ _ eq_refl). lia.
Qed.

Lemma hd_fld_get head f off w : length head = HEAD_SIZE -> field_at hmdfs_head_cmd f = Some (off, w) -> hd_fld head f = le_dec (sub off w head).
Proof. intros Hl Hf. unfold hd_fld, fld. rewrite Hf. unfold read_le. apply field_at_bound in Hf. by rewrite decide_True by (rewrite Hl; exact Hf). Qed.

Lemma length_put_head f v head : length head = HEAD_SIZE -> length (put hmdfs_head_cmd f v head) = HEAD_SIZE.
Proof.
  intros Hl. unfold put. destruct (field_at _ f) as [[off w]|] eqn:Hf; [|done]. apply field_at_bound in Hf.
  rewrite length_memcpy_at; [done|]. rewrite length_le_enc, Hl. exact Hf.
Qed.

Lemma hd_fld_put head f v off w : length head = HEAD_SIZE -> field_at hmdfs_head_cmd f = Some (off, w) ->
  hd_fld (put hmdfs_head_cmd f v head) f = v mod 256 ^ Z.of_nat w.
Proof.
  intros Hl Hf. rewrite (hd_fld_get _ _ _ _ (length_put_head _ _ _ Hl) Hf). unfold put. rewrite Hf. apply field_at_bound in Hf.
  pose proof (sub_memcpy_same off (le_enc w v) head) as H. rewrite length_le_enc in H. rewrite H by (rewrite Hl; exact Hf). apply le_dec_enc_mod.
Qed.

Lemma hd_fld_put_other head f v off w g off' w' : length head = HEAD_SIZE -> field_at hmdfs_head_cmd f = Some (off, w) ->
  field_at hmdfs_head_cmd g = Some (off', w') -> (off + w <= off' \/ off' + w' <= off)%nat -> hd_fld (put hmdfs_head_cmd f v head) g = hd_fld head g.
Proof.
  intros Hl Hf Hg Hd. rewrite (hd_fld_get _ _ _ _ (length_put_head _ _ _ Hl) Hg), (hd_fld_get _ _ _ _ Hl Hg). unfold put. rewrite Hf. apply field_at_bound in Hf.
  rewrite sub_memcpy_other; [done|rewrite length_le_enc, Hl; exact Hf|rewrite length_le_enc; lia].
Qed.

(** A field of a head past the assignment to another. *)
#[local] Ltac other := erewrite hd_fld_put_other; [|(repeat apply length_put_head); done|vm_compute; reflexivity|vm_compute; reflexivity|lia].

Lemma response_head_ok cmd data_len ret_code : length cmd = HEAD_SIZE ->
  let head := response_head cmd data_len ret_code in
  length head = HEAD_SIZE /\ head_bad head = false /\ hd_fld head "data_len" = u32 data_len /\ hd_fld head "ret_code" = u32 ret_code /\
  hd_fld head "cmd_flag" = C_RESPONSE /\ hd_fld head "command" = hd_fld cmd "command" /\ hd_fld head "msg_id" = hd_fld cmd "msg_id".
Proof.
  intros Hl head. subst head. unfold response_head.
  assert (forall f v off w head, length head = HEAD_SIZE -> field_at hmdfs_head_cmd f = Some (off, w) -> 0 <= v < 256 ^ Z.of_nat w ->
    hd_fld (put hmdfs_head_cmd f v head) f = v) as Hput.
  { intros f v off w head Hh Hf Hv. rewrite (hd_fld_put _ _ _ _ _ Hh Hf). by apply Z.mod_small. }
  pose proof (wrap_range 32 data_len ltac:(lia)) as Hr1. pose proof (wrap_range 32 ret_code ltac:(lia)) as Hr2.
  split_and!.
  - repeat apply length_put_head. done.
  - unfold head_bad. do 4 other. rewrite (Hput "magic" _ 0%nat 1%nat); [|(repeat apply length_put_head); done|done|by vm_compute].
    do 3 other. rewrite (Hput "version" _ 1%nat 1%nat); [|(repeat apply length_put_head); done|done|by vm_compute]. done.
  - other. by eapply (Hput "data_len" _ 4%nat 4%nat); [(repeat apply length_put_head); done|done|].
  - by eapply (Hput "ret_code" _ 12%nat 4%nat); [(repeat apply length_put_head); done|done|].
  - do 2 other. by eapply (Hput "cmd_flag" _ 9%nat 1%nat); [(repeat apply length_put_head); done|done|].
  - by do 5 other.
  - by do 5 other.
Qed.

(** * A stream of messages *)

(** A message as it is sent: a head that counts its payload. *)
Definition frame : Type := bytes * bytes.
Definition frame_ok (f : frame) : Prop :=
  length (fst f) = HEAD_SIZE /\ head_bad (fst f) = false /\
  hd_fld (fst f) "data_len" = sizeof hmdfs_head_cmd + Z.of_nat (length (snd f)) /\ Z.of_nat (length (snd f)) <= HMDFS_MAX_MESSAGE_LEN /\
  (is_page (fst f) = true -> if swrap 32 (hd_fld (fst f) "ret_code") =? 0 then 0 < Z.of_nat (length (snd f)) <= HMDFS_PAGE_SIZE else snd f = []).
Definition stream_of (fs : list frame) : bytes := concat (map (fun f => fst f ++ snd f) fs).

(** What the receiver hands on for it. *)
Definition of_frame (find_page : bytes -> page_slot) (f : frame) : list received :=
  let '(head, data) := f in
  if is_page head then
    match find_page head with
    | PageWaits =>
        let rd_err := swrap 32 (hd_fld head "ret_code") in
        if rd_err =? 0 then [Page head 0 (Some (data ++ replicate (Z.to_nat HMDFS_PAGE_SIZE - length data) 0))] else [Page head rd_err None]
    | _ => []
    end
  else [Handled CONNECT_STAT_WORKING head data].

Section Frames.
Variable find_page : bytes -> page_slot.
Variable aead_decrypt : bytes -> bytes -> positive + bytes.
#[local] Notation receive := (tcp_receive_from_sock find_page aead_decrypt).

(** One turn on a stream that starts with a message: nothing yet, the message, or the end. *)
Definition turn (s : sock) (f : frame) (rest : bytes) (r : option (Z * list received * sock)) : Prop :=
  exists ret out s', r = Some (ret, out, s') /\ sk_events s' `suffix_of` sk_events s /\
  (ret <> - ESHUTDOWN /\ out = [] /\ sk_stream s' = sk_stream s /\ (length (sk_events s') < length (sk_events s))%nat \/
   ret = 0 /\ out = of_frame find_page f /\ sk_stream s' = rest \/
   ret = - ESHUTDOWN /\ (out = [] \/ out = [Page (fst f) (- ESHUTDOWN) None]) /\ ~ quiet (sk_events s)).

Lemma read_head_ok s head rest : sk_stream s = head ++ rest -> length head = HEAD_SIZE ->
  exists ret buf s', tcp_read_head_from_socket s HEAD_SIZE = (ret, buf, s') /\ sk_events s' `suffix_of` sk_events s /\
  (ret = - EAGAIN /\ sk_stream s' = sk_stream s /\ (length (sk_events s') < length (sk_events s))%nat \/
   ret = 0 /\ buf = head /\ sk_stream s' = rest \/ ret = - ESHUTDOWN /\ ~ quiet (sk_events s)).
Proof.
  intros Hst Hl. unfold tcp_read_head_from_socket, recvmsg_nofs.
  assert (0 < HEAD_SIZE)%nat as Hpos by (vm_compute; lia). rewrite Hst. destruct (sk_events s) as [|[e|n] evs] eqn:Hev.
  - rewrite !take_app_le, !drop_app_le by lia. rewrite !take_ge, !drop_ge by lia. rewrite Hl. cbn [sk_events sk_stream].
    assert (forall e, 0 < e -> Z.of_nat HEAD_SIZE =? - e = false) as He by (intros; apply Z.eqb_neq; lia). rewrite !He by done. cbn [orb].
    rewrite Z.eqb_refl. cbn [negb]. eexists _, _, _. split; [done|]. split; [done|]. right; left. by rewrite app_nil_l.
  - split_if.
    + eexists _, _, _. split; [done|]. cbn. split; [by apply suffix_cons_r|]. left. split_and!; [done|done|lia].
    + rewrite (proj2 (Z.eqb_neq (Z.neg e) _)) by lia. cbn [negb]. eexists _, _, _. split; [done|]. cbn. split; [by apply suffix_cons_r|].
      right; right. split; [done|]. intros [Hq _]. apply Forall_cons_1 in Hq as [Hq _]. unfold survivable in Hq. zb. rewrite !orb_true_iff, !Z.eqb_eq in Hq. lia.
  - set (d := take _ _). assert (forall e, 0 < e -> Z.of_nat (length d) =? - e = false) as He by (intros; apply Z.eqb_neq; lia). rewrite !He by done. cbn [orb].
    destruct (Z.of_nat (length d) =? Z.of_nat HEAD_SIZE) eqn:E; cbn [negb]; eexists _, _, _; (split; [done|]); cbn [sk_events sk_stream]; (split; [by apply suffix_cons_r|]); right.
    + left. zb. assert (HEAD_SIZE <= n)%nat as Hn by (subst d; rewrite length_take in E; lia). split; [done|]. subst d. replace (n `min` HEAD_SIZE)%nat with HEAD_SIZE by lia.
      rewrite take_app_le, drop_app_le, take_ge, drop_ge by lia. done.
    + right. split; [done|]. intros [Hq _]. apply Forall_cons_1 in Hq as [Hq _]. done.
Qed.

Lemma frame_out_len f : frame_ok f -> out_len (fst f) = Z.of_nat (length (snd f)).
Proof.
  intros (_&_&Hl&Hm&_). unfold out_len. rewrite Hl. replace (_ - _) with (Z.of_nat (length (snd f))) by lia.
  apply wrap_small. split; [lia|]. eapply Z.le_lt_trans; [exact Hm|]. by vm_compute.
Qed.

Lemma frame_length_good f : frame_ok f -> length_bad (fst f) = false.
Proof.
  intros (_&_&Hl&Hm&_). unfold length_bad. rewrite Hl, orb_false_iff. split; apply Z.ltb_ge; lia.
Qed.

(** The payload, when the head was read. *)
Lemma read_payload_ok s data rest : sk_stream s = data ++ rest -> data <> [] ->
  exists ret buf s', tcp_read_buffer_from_socket s (length data) = Some (ret, buf, s') /\ sk_events s' `suffix_of` sk_events s /\
  (ret = 0 /\ buf = data /\ sk_stream s' = rest \/ ret = - ESHUTDOWN /\ ~ quiet (sk_events s)).
Proof.
  intros Hst Hne. destruct (read_buffer_ok s (length data)) as (ret&buf&s'&E&Hd&Hs&Hr&Hq). exists ret, buf, s'. split_and!; [done|done|].
  destruct Hr as [(->&Hl)| ->]; [left|right].
  - rewrite Hst in Hd. apply app_inj_1 in Hd as [-> ->]; [done|done].
  - split; [done|]. intros H. assert (- ESHUTDOWN = 0) as ?; [|done]. apply Hq; [|done]. rewrite Hst, length_app. destruct data; [done|]. cbn. lia.
Qed.

Lemma recvpage_turn s f rest : frame_ok f -> is_page (fst f) = true -> sk_stream s = snd f ++ rest ->
  exists ret out s', tcp_recvpage_tls find_page s (fst f) = Some (ret, out, s') /\ sk_events s' `suffix_of` sk_events s /\
  (ret = 0 /\ out = of_frame find_page f /\ sk_stream s' = rest \/
   ret = - ESHUTDOWN /\ (out = [] \/ out = [Page (fst f) (- ESHUTDOWN) None]) /\ ~ quiet (sk_events s)).
Proof.
  intros Hok Hp Hst. pose proof (frame_out_len f Hok) as Hlen. destruct f as [h p]. cbn [fst snd] in *. destruct Hok as (_&_&_&_&Hpage). cbn [fst snd] in *.
  specialize (Hpage Hp). unfold tcp_recvpage_tls, of_frame. rewrite Hp. unfold hmdfs_drop_readpage_buffer, hmdfs_get_readpage_buffer. rewrite Hlen.
  destruct (swrap 32 (hd_fld h "ret_code") =? 0).
  - replace (_ || _) with false by (symmetry; apply orb_false_iff; split; [apply Z.ltb_ge|apply Z.eqb_neq]; lia). rewrite Nat2Z.id.
    destruct (read_payload_ok s p rest) as (ret&buf&s'&E&Hs&Hr); [done|destruct p; [cbn in *; lia|done]|].
    rewrite E. cbn [mbind option_bind]. replace (Z.to_nat (HMDFS_PAGE_SIZE - Z.of_nat (length p))) with (Z.to_nat HMDFS_PAGE_SIZE - length p)%nat by lia.
    destruct Hr as [(->&->&Hr)|(->&Hr)]; destruct (find_page h); cbn [Z.eqb]; eexists _, _, _; (split; [done|]); (split; [done|]); auto.
  - subst p. destruct (find_page h); eexists _, _, _; (split; [done|]); (split; [done|]); auto.
Qed.

Lemma receive_turn s f rest : frame_ok f -> sk_stream s = (fst f ++ snd f) ++ rest -> turn s f rest (receive CONNECT_STAT_WORKING s).
Proof.
  intros Hok Hst. pose proof (frame_out_len f Hok) as Hlen. pose proof (frame_length_good f Hok) as Hlb. pose proof Hok as (Hh&Hb&_). rewrite <- app_assoc in Hst.
  destruct (read_head_ok s (fst f) (snd f ++ rest) Hst Hh) as (ret&buf&s1&E&Hs1&Hr). unfold turn, tcp_receive_from_sock. rewrite E. clear E.
  destruct Hr as [(->&Hr)|[(->&->&Hr)|(->&Hr)]].
  - change (- EAGAIN =? 0) with false. cbn [negb]. eexists _, _, _. split; [done|]. split; [done|]. left. split; [done|]. done.
  - rewrite Hb, Hlb. change (0 =? 0) with true. change (CONNECT_STAT_WORKING =? CONNECT_STAT_WORKING) with true. cbn [negb andb].
    destruct (is_page (fst f)) eqn:Hp.
    + destruct (recvpage_turn s1 f rest Hok Hp Hr) as (ret&out&s2&->&Hs2&H). eexists _, _, _. split; [done|]. split; [by etrans|]. right.
      destruct H as [(->&H)|(->&H1&H2)]; [left; split; [done|done]|right; split; [done|]; split; [done|]]. intros Hq. by apply H2, (quiet_suffix (sk_events s)).
    + unfold tcp_recvbuffer_tls, of_frame. rewrite Hlen. destruct f as [h p]. cbn [fst snd] in *. rewrite Hp. destruct p as [|b p].
      * change (Z.of_nat (length []) =? 0) with true. cbn [andb]. eexists _, _, _. split; [done|]. split; [done|]. right; left. done.
      * rewrite Nat2Z.id, (proj2 (Z.eqb_neq _ 0)) by (cbn; lia).
        destruct (read_payload_ok s1 (b :: p) rest) as (ret&buf&s2&->&Hs2&H); [done|done|]. cbn [mbind option_bind].
        destruct H as [(->&->&H)|(->&H)]; [change (negb (0 =? 0)) with false|change (negb (- ESHUTDOWN =? 0)) with true];
          eexists _, _, _; (split; [done|]); (split; [by etrans|]); right; [left; done|right]. split; [done|]. split; [by left|]. intros Hq. by apply H, (quiet_suffix (sk_events s)).
  - change (- ESHUTDOWN =? 0) with false. cbn [negb]. eexists _, _, _. split; [done|]. split; [done|]. right; right. auto.
Qed.

(** What a run may hand on: the first messages, and the page it failed to read. *)
Definition partial_run (fs : list frame) (out : list received) (k : nat) : Prop :=
  out = concat (map (of_frame find_page) (take k fs)) \/
  exists f, fs !! k = Some f /\ out = concat (map (of_frame find_page) (take k fs)) ++ [Page (fst f) (- ESHUTDOWN) None].

Lemma partial_run_cons f fs out k : partial_run fs out k -> partial_run (f :: fs) (of_frame find_page f ++ out) (S k).
Proof.
  intros [->|(g&Hg&->)]; [by left|right]. exists g. split; [done|]. cbn [take map concat]. by rewrite app_assoc.
Qed.

(** The turns that do not end the thread. *)
Definition stays (envs : list turn_env) : Prop := Forall (fun env => turn_of env <> Ends) envs.

Lemma hd_kind envs : turn_of (hd quiet_turn envs) = Receives \/
  (turn_of (hd quiet_turn envs) = Skips \/ turn_of (hd quiet_turn envs) = Ends /\ ~ stays envs) /\ (length envs = S (length (tail envs)))%nat.
Proof.
  destruct envs as [|env envs]; [by left|]. cbn. destruct (turn_of env) eqn:E; [right|right|by left]; (split; [|done]); [right|by left].
  split; [done|]. intros H. by apply Forall_cons_1 in H as [? _].
Qed.
Lemma stays_tail envs : stays envs -> stays (tail envs).
Proof. destruct envs; [done|]. apply Forall_inv_tail. Qed.
Lemma tail_shorter {A} (l : list A) : (length (tail l) <= length l)%nat.
Proof. destruct l; cbn; lia. Qed.

(** A head that never comes whole: the thread goes on until the socket gives up. *)
Lemma recv_loop_tail handle status fuel : forall envs s, (length (sk_stream s) < HEAD_SIZE)%nat -> (length (sk_events s) + length envs < fuel)%nat ->
  exists s', recv_loop find_page aead_decrypt handle fuel status envs s = Some ([], s').
Proof.
  induction fuel as [|fuel IH]; intros envs s Hst Hf; [lia|]. cbn [recv_loop].
  destruct (hd_kind envs) as [-> |[[-> |[-> _]] Hl]]; [|apply IH; [done|lia]|by eexists]. pose proof (tail_shorter envs) as Hle.
  unfold tcp_receive_from_sock, tcp_read_head_from_socket, recvmsg_nofs.
  assert (forall n, (length (take n (sk_stream s)) < HEAD_SIZE)%nat) as Ht by (intros; rewrite length_take; lia).
  assert (forall n e, 0 < e -> Z.of_nat (length (take n (sk_stream s))) =? - e = false) as He by (intros; apply Z.eqb_neq; lia).
  destruct (sk_events s) as [|[e|n] evs] eqn:Hev.
  - rewrite !He by done. cbn [orb]. rewrite (proj2 (Z.eqb_neq _ (Z.of_nat HEAD_SIZE))) by (specialize (Ht HEAD_SIZE); lia). cbn. eauto.
  - destruct (_ || _).
    + change (negb (- EAGAIN =? 0)) with true. cbn [mbind option_bind]. change (- EAGAIN =? - ESHUTDOWN) with false. cbn [foldl].
      destruct (IH (tail envs) (mk_sock (sk_stream s) evs)) as [s' Hs']; [done|cbn in *; lia|]. cbn [foldl]. rewrite Hs'. cbn. eauto.
    + rewrite (proj2 (Z.eqb_neq (Z.neg e) _)) by lia. cbn. eauto.
  - rewrite !He by done. cbn [orb]. rewrite (proj2 (Z.eqb_neq _ (Z.of_nat HEAD_SIZE))) by (specialize (Ht (n `min` HEAD_SIZE)%nat); lia). cbn. eauto.
Qed.

Context (handle : Z -> received -> Z).
Context (Hhandle : forall r, handle CONNECT_STAT_WORKING r = CONNECT_STAT_WORKING).

Lemma handle_working out : foldl handle CONNECT_STAT_WORKING out = CONNECT_STAT_WORKING.
Proof. induction out as [|r out IH]; [done|]. cbn. by rewrite Hhandle. Qed.

Lemma recv_loop_frames fuel : forall fs rest envs s, Forall frame_ok fs -> (length rest < HEAD_SIZE)%nat -> sk_stream s = stream_of fs ++ rest ->
  (length (sk_stream s) + length (sk_events s) + length envs < fuel)%nat ->
  exists out s' k, recv_loop find_page aead_decrypt handle fuel CONNECT_STAT_WORKING envs s = Some (out, s') /\ partial_run fs out k /\
    (quiet (sk_events s) -> stays envs -> out = concat (map (of_frame find_page) fs)).
Proof.
  induction fuel as [|fuel IH]; intros fs rest envs s Hok Hrest Hst Hf; [lia|]. destruct fs as [|f fs].
  { destruct (recv_loop_tail handle CONNECT_STAT_WORKING (S fuel) envs s) as [s' E]; [by rewrite Hst|lia|].
    rewrite E. exists [], s', 0%nat. split; [done|]. split; [by left|done]. }
  cbn [recv_loop]. destruct (hd_kind envs) as [-> |[[-> |[-> Hends]] Hl]].
  2: { destruct (IH (f :: fs) rest (tail envs) s Hok Hrest Hst) as (out&s2&k&->&Hp&Hall); [lia|]. exists out, s2, k. split_and!; [done|done|].
       intros Hq Hs. by apply Hall, stays_tail. }
  2: { exists [], s, 0%nat. split_and!; [done|by left|done]. }
  pose proof (tail_shorter envs) as Hte.
  pose proof (Forall_inv Hok) as Hf0. pose proof (Forall_inv_tail Hok) as Hok'. unfold stream_of in Hst. cbn [map concat] in Hst. rewrite <- (app_assoc (fst f ++ snd f)) in Hst.
  destruct (receive_turn s f _ Hf0 Hst) as (ret&out&s1&E&Hs1&Hr). rewrite E. cbn [mbind option_bind].
  assert (length (sk_events s1) <= length (sk_events s))%nat as Hle by (by apply suffix_length). assert (quiet (sk_events s) -> quiet (sk_events s1)) as Hq by (by apply quiet_suffix).
  destruct Hr as [(Hret&->&Hs&Hlt)|[(->&->&Hs)|(->&Hout&Hnq)]].
  - rewrite (proj2 (Z.eqb_neq _ _) Hret). cbn [foldl]. destruct (IH (f :: fs) rest (tail envs) s1) as (out&s2&k&->&Hp&Hall); [done|done|rewrite Hs, Hst; unfold stream_of; cbn [map concat]; by rewrite !app_assoc|rewrite Hs; lia|].
    exists out, s2, k. split; [done|]. split; [done|]. intros Hqq Hst'. by apply Hall; [apply Hq|apply stays_tail].
  - change (0 =? - ESHUTDOWN) with false. cbv iota. rewrite handle_working. destruct Hf0 as [Hlen _].
    assert (0 < HEAD_SIZE)%nat by (vm_compute; lia). apply (f_equal length) in Hst as Hl. rewrite !length_app in Hl.
    destruct (IH fs rest (tail envs) s1) as (out&s2&k&->&Hp&Hall); [done|done|done|rewrite Hs, length_app; lia|].
    exists (of_frame find_page f ++ out), s2, (S k). split; [done|]. split; [by apply partial_run_cons|]. intros Hqq Hst'. cbn [map concat]. rewrite Hall; [done|by apply Hq|by apply stays_tail].
  - change (- ESHUTDOWN =? - ESHUTDOWN) with true. exists out, s1, 0%nat. split; [done|]. split; [|done].
    destruct Hout as [->| ->]; [by left|right]. exists f. done.
Qed.
End Frames.

(** * A head that is refused *)

Definition head_refused (head : bytes) : bool := head_bad head || length_bad head.

(** "drop message" drops the head alone: what follows is taken for the next message. With a page
    of more than HMDFS_PAGE_SIZE bytes or of none it is the same. *)
Lemma refused_turn find_page aead_decrypt status head rest : length head = HEAD_SIZE -> head_refused head = true ->
  tcp_receive_from_sock find_page aead_decrypt status (mk_sock (head ++ rest) []) = Some (0, [], mk_sock rest []).
Proof.
  intros Hl Hr. unfold tcp_receive_from_sock, tcp_read_head_from_socket, recvmsg_nofs. cbn [sk_events sk_stream].
  rewrite take_app_le, drop_app_le by lia. rewrite take_ge, drop_ge by lia. rewrite Hl.
  assert (forall e, 0 < e -> Z.of_nat HEAD_SIZE =? - e = false) as He by (intros; apply Z.eqb_neq; lia). rewrite !He by done. cbn [orb].
  rewrite Z.eqb_refl. cbn [negb Z.eqb app]. unfold head_refused in Hr. destruct (head_bad head); [done|]. destruct (length_bad head); [done|]. done.
Qed.

(** A message that is refused for its magic number, version or length is not dropped: its
    payload is received as messages in their own right, before the ones that follow. *)
Theorem refused_payload_is_received find_page aead_decrypt handle head inner fs :
  (forall r, handle CONNECT_STAT_WORKING r = CONNECT_STAT_WORKING) -> length head = HEAD_SIZE -> head_refused head = true ->
  Forall frame_ok inner -> Forall frame_ok fs ->
  exists s', tcp_recv_thread find_page aead_decrypt handle CONNECT_STAT_WORKING [] (mk_sock (head ++ stream_of inner ++ stream_of fs) []) =
    Some (concat (map (of_frame find_page) (inner ++ fs)), s').
Proof.
  intros Hh Hl Hr Hi Hfs. unfold tcp_recv_thread. cbn [recv_loop sk_stream sk_events hd tail]. change (turn_of quiet_turn) with Receives. cbv iota. rewrite refused_turn by done. cbn [mbind option_bind].
  change (0 =? - ESHUTDOWN) with false. cbn [foldl].
  destruct (recv_loop_frames find_page aead_decrypt handle Hh (length (head ++ stream_of inner ++ stream_of fs) + 0 + 0) (inner ++ fs) [] []
    (mk_sock (stream_of inner ++ stream_of fs) [])) as (out&s'&k&E&_&Hq).
  - by apply Forall_app.
  - by vm_compute; lia.
  - unfold stream_of. cbn [sk_stream]. by rewrite app_nil_r, map_app, concat_app.
  - cbn [sk_stream sk_events length]. rewrite (length_app head), Hl. assert (0 < HEAD_SIZE)%nat by (vm_compute; lia). lia.
  - rewrite !length_app, Nat.add_0_r in *. cbn [length] in *. rewrite E. cbn. rewrite Hq by (split; [constructor|cbn; lia] || constructor). by exists s'.
Qed.

(** * Both ends *)

(** The messages in turn, as long as the connection is up; the results and what went out. *)
Fixpoint send_all (aead_encrypt : bytes -> bytes -> positive + bytes) (status : Z) (msgs : list (bytes * send_data * (nat -> Z))) : list Z * bytes :=
  match msgs with
  | [] => ([], [])
  | (iv, msg, kernel_sendmsg) :: msgs =>
      let '(ret, out) := tcp_send_message aead_encrypt kernel_sendmsg status iv msg in
      let '(rets, rest) := send_all aead_encrypt status msgs in (ret :: rets, out ++ rest)
  end.
Definition frame_of (msg : send_data) : frame := (sd_head msg, sd_sdesc msg ++ sd_data msg).


(** What went out for the messages whose send returned 0. *)
Definition sent (msgs : list (bytes * send_data * (nat -> Z))) (rets : list Z) : list frame :=
  map (fun '(m, _) => frame_of (snd (fst m))) (List.filter (fun '(_, ret) => ret =? 0) (zip msgs rets)).

(** The frame, nothing, or a part of it with EAGAIN. *)
Lemma send_message_cases aead_encrypt sendmsg iv msg : let '(ret, out) := tcp_send_message aead_encrypt sendmsg CONNECT_STAT_WORKING iv msg in
  ret = 0 /\ out = fst (frame_of msg) ++ snd (frame_of msg) \/ ret <> 0 /\ out = [] \/ ret = - EAGAIN.
Proof.
  unfold tcp_send_message, tcp_send_message_sock_tls. split_if; [by right; left|].
  change (CONNECT_STAT_WORKING =? CONNECT_STAT_STOP) with false. change (CONNECT_STAT_WORKING =? CONNECT_STAT_WORKING) with true. cbv iota.
  split_if; [by right; left|]. split_if; [by right; left|]. split_if; [by right; right|by left].
Qed.

Lemma send_all_sent aead_encrypt msgs : forall rets out, send_all aead_encrypt CONNECT_STAT_WORKING msgs = (rets, out) -> Forall (fun ret => ret <> - EAGAIN) rets ->
  out = stream_of (sent msgs rets).
Proof.
  unfold sent, stream_of. induction msgs as [|[[iv msg] sendmsg] msgs IH]; intros rets out; cbn [send_all]; [by intros [= <- <-]|].
  pose proof (send_message_cases aead_encrypt sendmsg iv msg) as Hc.
  destruct (tcp_send_message _ _ _ _ _) as [ret o] eqn:E. destruct (send_all _ _ msgs) as [rets' rest] eqn:Erest. intros [= <- <-] H.
  pose proof (Forall_inv H) as Hret. specialize (IH _ _ eq_refl (Forall_inv_tail H)). rewrite IH. cbn [zip_with List.filter].
  destruct Hc as [(->&->)|[(Hne&->)|Hr]]; [done| |done]. rewrite (proj2 (Z.eqb_neq _ _) Hne). done.
Qed.

(** A socket that takes every message whole. *)
Lemma send_all_whole aead_encrypt msgs : Forall frame_ok (map frame_of msgs) ->
  send_all aead_encrypt CONNECT_STAT_WORKING (map (fun m => ([], m, Z.of_nat)) msgs) = (map (fun _ => 0) msgs, stream_of (map frame_of msgs)).
Proof.
  unfold stream_of. induction msgs as [|m msgs IH]; [done|]. cbn [map]. intros H. pose proof (Forall_inv H) as (Hh&_&_&Hm&_). specialize (IH (Forall_inv_tail H)).
  cbn [send_all]. unfold tcp_send_message at 1, tcp_send_message_sock_tls. cbn [frame_of fst snd] in *. rewrite length_app in Hm. rewrite (proj2 (Z.ltb_ge _ _)) by lia.
  change (CONNECT_STAT_WORKING =? CONNECT_STAT_STOP) with false. change (CONNECT_STAT_WORKING =? CONNECT_STAT_WORKING) with true. cbv iota.
  assert (0 < HEAD_SIZE)%nat as Hpos by (vm_compute; lia). rewrite (proj2 (Z.eqb_neq _ (- EBADMSG))) by (unfold EBADMSG; lia).
  rewrite (proj2 (Z.leb_gt _ 0)) by (rewrite length_app, Hh; lia). rewrite Z.eqb_refl. cbn [negb]. rewrite IH. done.
Qed.

(** C18: When no message was sent in part, what the receive thread hands on are the messages whose
    send returned 0, each once, with its payload, in the order of the sends and from the first on, at
    most followed by a page whose data did not arrive and that fails with ESHUTDOWN: none is skipped,
    split or joined. That holds whatever the socket does to it and wherever the thread is stopped or
    finds the link broken, with the messages not read yet being lost then (broken_link_drops_unread).
    When the thread is not ended so, and the socket only fails with the errors that the code means to
    survive, at most one of them a timeout, all are handed on. The thread ends when the socket fails
    finitely often before its stream ends; a payload whose reads fail with EBADMSG for ever is tried
    for ever (bad_records_are_not_counted). *)
Theorem sent_messages_arrive aead_encrypt find_page aead_decrypt handle msgs rets stream evs envs :
  (forall r, handle CONNECT_STAT_WORKING r = CONNECT_STAT_WORKING) ->
  send_all aead_encrypt CONNECT_STAT_WORKING msgs = (rets, stream) -> Forall (fun ret => ret <> - EAGAIN) rets -> Forall frame_ok (sent msgs rets) ->
  exists out s' k, tcp_recv_thread find_page aead_decrypt handle CONNECT_STAT_WORKING envs (mk_sock stream evs) = Some (out, s') /\
    partial_run find_page (sent msgs rets) out k /\
    (quiet evs -> stays envs -> out = concat (map (of_frame find_page) (sent msgs rets))).
Proof.
  intros Hh Hs Hr Hok. apply send_all_sent in Hs as ->; [|done]. rewrite <- (app_nil_r (stream_of _)).
  apply (recv_loop_frames find_page aead_decrypt handle Hh _ (sent msgs rets) []); [done|vm_compute; lia|done|cbn; lia].
Qed.

(** Whatever the stream still holds: once the peer has closed its side, the thread finds the link
    broken and reads no more. *)
Lemma broken_link_drops_unread find_page aead_decrypt handle status s envs l : lk_sk_state l = TCP_CLOSE_WAIT ->
  tcp_recv_thread find_page aead_decrypt handle status (mk_te false true true l l :: envs) s = Some ([], s).
Proof.
  intros Hl. unfold tcp_recv_thread. cbn [recv_loop hd]. unfold turn_of. cbn [te_stop te_mounted te_lock te_link te_link2].
  rewrite andb_false_r. cbn [negb]. unfold tcp_handle_is_available. by rewrite Hl.
Qed.

(** Reads of a payload that fail with EBADMSG are not counted: however often that happens, the loop
    is still at it. *)
Lemma bad_records_are_not_counted n st evs to_read buf retry : (length buf < to_read)%nat -> retry < MAX_RECV_RETRY_TIMES ->
  read_loop n (mk_sock st (replicate n (RecvErr 74) ++ evs)) to_read buf retry = None.
Proof.
  intros Hb Hr. induction n as [|n IH]; [done|]. cbn [replicate app read_loop]. unfold recvmsg_nofs. cbn [sk_events sk_stream].
  change (Z.neg 74 =? - EBADMSG) with true. cbv iota. rewrite (proj2 (Z.ltb_lt _ _)) by lia. by rewrite (proj2 (Z.ltb_lt _ _)).
Qed.

(** A message that the socket took only in part is left on the stream (with EAGAIN to the sender):
    the receiver completes its payload with the next message's bytes and hands it on as received. *)
Theorem short_send_mixes_messages aead_encrypt find_page aead_decrypt iv (f next : frame) n rest :
  frame_ok f -> is_page (fst f) = false -> (HEAD_SIZE <= n < HEAD_SIZE + length (snd f))%nat ->
  (HEAD_SIZE + length (snd f) <= n + length (fst next ++ snd next ++ rest))%nat ->
  let msg := mk_send (fst f) [] (snd f) in
  let '(ret, out) := tcp_send_message aead_encrypt (fun _ => Z.of_nat n) CONNECT_STAT_WORKING iv msg in
  let mixed := take (n - HEAD_SIZE) (snd f) ++ take (HEAD_SIZE + length (snd f) - n) (fst next ++ snd next ++ rest) in
  ret = - EAGAIN /\
  exists s', tcp_receive_from_sock find_page aead_decrypt CONNECT_STAT_WORKING (mk_sock (out ++ fst next ++ snd next ++ rest) []) =
    Some (0, [Handled CONNECT_STAT_WORKING (fst f) mixed], s').
Proof.
  intros Hok Hp Hn Hlen msg. destruct Hok as (Hh&Hb&Hdl&Hm&Hpg). set (more := fst next ++ snd next ++ rest) in *.
  unfold tcp_send_message, tcp_send_message_sock_tls. cbn [msg sd_head sd_sdesc sd_data app]. rewrite (proj2 (Z.ltb_ge _ _) Hm).
  change (CONNECT_STAT_WORKING =? CONNECT_STAT_STOP) with false. change (CONNECT_STAT_WORKING =? CONNECT_STAT_WORKING) with true. cbv iota.
  assert (0 < HEAD_SIZE)%nat as Hpos by (vm_compute; lia).
  rewrite (proj2 (Z.eqb_neq _ (- EBADMSG))) by (unfold EBADMSG; lia). rewrite (proj2 (Z.leb_gt _ _)) by lia.
  rewrite (proj2 (Z.eqb_neq (Z.of_nat n) _)) by (rewrite length_app; lia). cbn [negb]. split; [done|]. rewrite Nat2Z.id.
  rewrite take_app_ge by lia. rewrite Hh, <- app_assoc. set (mixed := take (n - HEAD_SIZE) (snd f) ++ take (HEAD_SIZE + length (snd f) - n) more).
  assert (length mixed = length (snd f)) as Hml by (subst mixed; rewrite length_app, !length_take; lia).
  set (g := (fst f, mixed) : frame). assert (frame_ok g) as Hg.
  { subst g. split_and!; cbn [fst snd]; [done|done|by rewrite Hml|by rewrite Hml|by rewrite Hp]. }
  destruct (receive_turn find_page aead_decrypt (mk_sock (fst f ++ take (n - HEAD_SIZE) (snd f) ++ more) []) g
    (drop (HEAD_SIZE + length (snd f) - n) more) Hg) as (ret&out&s'&E&_&Hr).
  { subst g mixed. cbn [sk_stream fst snd]. by rewrite <- !app_assoc, take_drop. }
  exists s'. rewrite E. destruct Hr as [(_&_&_&Hlt)|[(->&->&_)|(_&_&Hq)]]; [cbn in Hlt; lia| |destruct Hq; split; [constructor|cbn; lia]].
  unfold of_frame, g. by rewrite Hp.
Qed.

(** ** Replies *)

(** The reply to a request other than for a page is a message that the receiver takes. *)
Lemma response_frame_ok cmd buf ret_code : length cmd = HEAD_SIZE -> hd_fld cmd "command" <> F_READPAGE ->
  Z.of_nat (length buf) <= HMDFS_MAX_MESSAGE_LEN ->
  frame_ok (frame_of (hmdfs_sendmessage_response cmd buf ret_code)) /\ is_page (fst (frame_of (hmdfs_sendmessage_response cmd buf ret_code))) = false.
Proof.
  intros Hl Hc Hm. unfold frame_of, hmdfs_sendmessage_response, frame_ok, is_page. cbn [fst snd sd_head sd_sdesc sd_data app].
  set (n := Z.of_nat (length buf) + _). destruct (response_head_ok cmd n ret_code Hl) as (H1&H2&H3&_&_&H6&_). rewrite H6, (proj2 (Z.eqb_neq _ F_READPAGE) Hc).
  split_and!; [done|done| |done|done|done]. rewrite H3. rewrite wrap_small; [subst n; lia|]. subst n. unfold sizeof. split; [lia|].
  assert (HMDFS_MAX_MESSAGE_LEN + Z.of_nat (size_of hmdfs_head_cmd) < 2 ^ 32) by by vm_compute. lia.
Qed.

(** * Messages of a handshake *)

Section Cipher.
Context (aead_encrypt aead_decrypt : bytes -> bytes -> positive + bytes) (find_page : bytes -> page_slot).
(** GCM: the text has the tag, and is decrypted with the initialisation vector it was made with. *)
Context (aead_correct : forall iv data text, aead_encrypt iv data = inr text ->
  length text = (length data + HMDFS_TAG_SIZE)%nat /\ aead_decrypt iv text = inr data).

(** A message sent while a connection is set up arrives decrypted, with the head it was sent with,
    and takes its own bytes from the stream and no other. *)
Lemma handshake_message_roundtrip status iv head data rest out :
  status <> CONNECT_STAT_WORKING -> length iv = HMDFS_IV_SIZE ->
  length head = HEAD_SIZE -> head_bad head = false -> hd_fld head "data_len" = sizeof hmdfs_head_cmd + Z.of_nat (length data) ->
  hd_fld head "data_len" <= ADAPTER_MESSAGE_LENGTH ->
  tcp_send_message aead_encrypt Z.of_nat status iv (mk_send head [] data) = (0, out) ->
  tcp_receive_from_sock find_page aead_decrypt status (mk_sock (out ++ rest) []) = Some (0, connect_recv_callback status head data, mk_sock rest []).
Proof using aead_correct.
  intros Hst Hiv Hh Hb Hdl Hmax. unfold tcp_send_message. cbn [sd_data]. split_if; [done|]. split_if; [done|].
  rewrite (proj2 (Z.eqb_neq _ _) Hst). unfold tcp_send_message_sock_cipher. cbn [sd_data sd_head].
  assert (length_bad head = false) as Hlb.
  { unfold length_bad. rewrite Hdl, orb_false_iff. split; apply Z.ltb_ge; [|lia]. rewrite Hdl in Hmax. unfold ADAPTER_MESSAGE_LENGTH, HMDFS_MAX_MESSAGE_LEN in *. lia. }
  assert (forall vec, tcp_read_head_from_socket (mk_sock (head ++ vec) []) HEAD_SIZE = (0, head, mk_sock vec [])) as Hread.
  { intros vec. unfold tcp_read_head_from_socket, recvmsg_nofs. cbn [sk_events sk_stream]. rewrite take_app_le, drop_app_le by lia. rewrite take_ge, drop_ge by lia. rewrite Hh.
    assert (forall e, 0 < e -> Z.of_nat HEAD_SIZE =? - e = false) as He by (intros; apply Z.eqb_neq; lia). rewrite !He by done. by rewrite Z.eqb_refl. }
  destruct data as [|b data].
  - rewrite app_nil_r. repeat (split_if; [done|]). intros [= <-]. unfold tcp_receive_from_sock. rewrite Hread, Hb, Hlb, (proj2 (Z.eqb_neq _ _) Hst). cbn [negb Z.eqb andb].
    unfold tcp_recvbuffer_cipher. by rewrite Hdl.
  - set (d := b :: data) in *. unfold aeadcipher_encrypt_buffer. cbn [d]. fold d. destruct (aead_encrypt iv d) as [e|text] eqn:Etext; [done|].
    destruct (aead_correct _ _ _ Etext) as [Hlt Hdec]. repeat (split_if; [done|]). intros [= <-]. unfold tcp_receive_from_sock.
    rewrite <- app_assoc, Hread, Hb, Hlb, (proj2 (Z.eqb_neq _ _) Hst). cbn [negb Z.eqb andb]. unfold tcp_recvbuffer_cipher.
    assert (0 < length d)%nat as Hd by (cbn; lia).
    rewrite (proj2 (Z.eqb_neq _ (sizeof _))) by lia. rewrite (proj2 (Z.ltb_lt _ _)) by lia. rewrite (proj2 (Z.leb_le _ _) Hmax). cbn [andb].
    set (len := (_ + _ + _)%nat). assert (len = length (iv ++ text)) as Hlen.
    { subst len. rewrite Hdl, length_app, Hiv, Hlt. replace (_ - _) with (Z.of_nat (length d)) by lia. rewrite Nat2Z.id. lia. }
    rewrite Hlen. destruct (read_payload_ok (mk_sock ((iv ++ text) ++ rest) []) (iv ++ text) rest) as (ret&buf&s'&->&Hs&Hr);
      [done|intros Hn; apply (f_equal length) in Hn; rewrite length_app, Hlt in Hn; cbn in Hn; lia|].
    destruct Hr as [(->&->&Hr)|(->&Hr)]; [|destruct Hr; split; [constructor|cbn; lia]]. cbn [mbind option_bind negb Z.eqb].
    unfold aeadcipher_decrypt_buffer. rewrite (proj2 (Z.leb_gt _ _)) by (rewrite length_app, Hiv, Hlt; lia).
    rewrite take_app_length', drop_app_length' by done. rewrite Hdec. destruct s' as [st ev]. cbn in *. subst st. apply suffix_nil_inv in Hs as ->. done.
Qed.
End Cipher.

(** * Witnesses *)

(** A request for attributes, and two replies to it. *)
Definition sample_cmd : bytes := put hmdfs_head_cmd "msg_id" 7 (put hmdfs_head_cmd "command" F_GETATTR (replicate HEAD_SIZE 0)).
Definition sample_reply : send_data := hmdfs_sendmessage_response sample_cmd [1; 2; 3] 0.
Definition sample_error : send_data := hmdfs_sendmessage_response sample_cmd [] (- ENOENT).
Definition no_page (head : bytes) : page_slot := NoWork.
Definition plain (iv data : bytes) : positive + bytes := inr (data ++ replicate HMDFS_TAG_SIZE 0).

Lemma sample_frames_ok : Forall frame_ok [frame_of sample_reply; frame_of sample_error].
Proof. repeat constructor; vm_compute; congruence. Qed.

(** The lock is taken and the connection not in the list at first. *)
Lemma sent_messages_arrive_witness :
  let msgs := [([], sample_reply, Z.of_nat); ([], sample_reply, (fun _ => - 11)); ([], sample_error, Z.of_nat)] in
  let rets := [0; - ESHUTDOWN; 0] in
  let stream := stream_of [frame_of sample_reply; frame_of sample_error] in
  let envs := [mk_te false false true link_up link_up; mk_te false true false link_up link_up] in
  exists out s' k, tcp_recv_thread no_page plain (fun status _ => status) CONNECT_STAT_WORKING envs (mk_sock stream [RecvErr 11; RecvErr 74]) = Some (out, s') /\
    partial_run no_page (sent msgs rets) out k /\ out = concat (map (of_frame no_page) (sent msgs rets)).
Proof.
  intros msgs rets stream envs.
  destruct (sent_messages_arrive plain no_page plain (fun status _ => status) msgs rets stream [RecvErr 11; RecvErr 74] envs) as (out&s'&k&E&Hp&Hall);
    [done|by vm_compute|repeat constructor; by vm_compute|exact sample_frames_ok|].
  exists out, s', k. split_and!; [exact E|exact Hp|]. apply Hall; [split; [by repeat constructor|vm_compute; lia]|by repeat constructor].
Defined.

(** A head of another version, with two replies as its payload. *)
Definition other_version : bytes := put hmdfs_head_cmd "version" 0x41 (put hmdfs_head_cmd "magic" HMDFS_MSG_MAGIC (replicate HEAD_SIZE 0)).

Lemma refused_payload_is_received_witness :
  exists s', tcp_recv_thread no_page plain (fun status _ => status) CONNECT_STAT_WORKING []
    (mk_sock (other_version ++ stream_of [frame_of sample_reply; frame_of sample_error] ++ stream_of [frame_of sample_error]) []) =
    Some (concat (map (of_frame no_page) ([frame_of sample_reply; frame_of sample_error] ++ [frame_of sample_error])), s').
Proof.
  pose proof sample_frames_ok as Hok. apply refused_payload_is_received; [done|done|by vm_compute|exact Hok|exact (Forall_inv_tail Hok)].
Defined.

(** A reply of 3 bytes of which one went out, and another one after it. *)
Lemma short_send_mixes_messages_witness :
  let '(ret, out) := tcp_send_message plain (fun _ => 25) CONNECT_STAT_WORKING [] sample_reply in
  ret = - EAGAIN /\
  exists s', tcp_receive_from_sock no_page plain CONNECT_STAT_WORKING (mk_sock (out ++ fst (frame_of sample_error) ++ []) []) =
    Some (0, [Handled CONNECT_STAT_WORKING (sd_head sample_reply) [1; 0xF7; 0x40]], s').
Proof.
  pose proof (Forall_inv sample_frames_ok) as Hok.
  exact (short_send_mixes_messages plain no_page plain [] (frame_of sample_reply) (frame_of sample_error) 25 [] Hok
    ltac:(by vm_compute) ltac:(vm_compute; lia) ltac:(vm_compute; lia)).
Defined.
