(* ===== verification/FileSlices.v ===== *)
(** A dentry file that a peer sends in slices, and the works that put them together
    (comm/socket_adapter.c): the reply to F_ITERATE. *)
From S2P Require Import Prelude Protocol Handshake MessageVerify Transport.

(** * The server *)

Definition slice_env (num_slices slice_size slice_sn content_size : Z) (f : string) : Z :=
  if String.eqb f "num_slices" then num_slices else if String.eqb f "slice_size" then slice_size
  else if String.eqb f "slice_sn" then slice_sn else content_size.
(** A struct slice_descriptor. *)
Definition slice_desc (num_slices slice_size slice_sn content_size : Z) : bytes :=
  encode slice_descriptor (slice_env num_slices slice_size slice_sn content_size).

Definition hmdfs_send_slice (cmd sdesc slice_buf : bytes) : send_data :=
  mk_send (response_head cmd (sizeof hmdfs_head_cmd + Z.of_nat (length slice_buf) + sizeof slice_descriptor) 0) sdesc slice_buf.

Definition round_up (x y : Z) : Z := (x + y - 1) / y * y.

Section Server.
(** The request and the file: its size, and what kernel_read gives at an offset. *)
Context (cmd : bytes) (i_size : Z) (kernel_read : Z -> Z -> positive + bytes).
(** The result of hmdfs_sendmessage for the n-th slice. *)
Context (sendmessage : Z -> Z).

(** The messages that were sent or tried, and the result. Every turn reads at the offset the one
    before it left. *)
Fixpoint slice_loop (fuel : nat) (num_slices slice_sn file_offset : Z) : option (list send_data * Z) :=
  match fuel with
  | O => None
  | S fuel =>
      match kernel_read file_offset PAGE_SIZE with
      | inl e => Some ([], Z.neg e)
      | inr slice_buf =>
          let msg := hmdfs_send_slice cmd (slice_desc num_slices PAGE_SIZE (u32 slice_sn) (Z.of_nat (length slice_buf))) slice_buf in
          let ret := sendmessage slice_sn in
          let file_offset := file_offset + Z.of_nat (length slice_buf) in
          if negb (ret =? 0) then Some ([msg], ret)
          else if i_size <=? file_offset then Some ([msg], ret)
          else '(msgs, ret) ← slice_loop fuel num_slices (slice_sn + 1) file_offset; Some (msg :: msgs, ret)
      end
  end.

(** With a file that does not change, a turn per page and one for an empty file. *)
Definition hmdfs_readfile_response (filp : bool) : option (list send_data * Z) :=
  if negb filp then Some ([hmdfs_sendmessage_response cmd [] 0], sendmessage 0)
  else
    '(msgs, ret) ← slice_loop (S (Z.to_nat i_size)) (u32 (round_up i_size PAGE_SIZE / PAGE_SIZE)) 0 0;
    Some (msgs ++ (if ret =? 0 then [] else [hmdfs_sendmessage_response cmd [] ret]), ret).
End Server.

(** * The client *)

(** enum FILE_RECV_STATE. *)
Inductive FILE_RECV_STATE := FILE_RECV_PROCESS | FILE_RECV_SUCC | FILE_RECV_ERR_NET | FILE_RECV_ERR_SPC.

(** The local file, the sendmsg_wait_queue (its recv_info, valid with the result of the wake-ups so
    far, last first) and what the requester returned. *)
Record recv_info := mk_recv {
  ri_state : FILE_RECV_STATE;
  ri_fslices : Z;
  ri_file : bytes;
  ri_wakes : list Z;
  ri_result : option Z
}.

(** Where a work of hmdfs_file_response_work_fn stands, between the accesses to what it shares
    with the others. *)
Inductive slice_work :=
  | WStart (h : head) (data : bytes)  (* queued *)
  | WCheck (data : bytes)           (* the message was found waiting *)
  | WWrite (data : bytes)           (* the state allowed to write *)
  | WInc (num_slices : Z)           (* written *)
  | WSucc                           (* it was the last slice *)
  | WTest                           (* counted *)
  | WFail (ret : Z)                 (* hmdfs_readfile_slice returned an error *)
  | WDone.

(** What kernel_write makes of a file. *)
Definition file_write (off : nat) (data file : bytes) : bytes :=
  match data with [] => file | _ => take off (file ++ replicate (off - length file) 0) ++ data ++ drop (off + length data) file end.

(** An error, or so many bytes written. *)
Inductive write_result := WErr (e : positive) | WBytes (n : nat).

Definition set_state (r : recv_info) (st : FILE_RECV_STATE) : recv_info := mk_recv st (ri_fslices r) (ri_file r) (ri_wakes r) (ri_result r).
Definition set_file (r : recv_info) (file : bytes) : recv_info := mk_recv (ri_state r) (ri_fslices r) file (ri_wakes r) (ri_result r).
Definition set_slices (r : recv_info) (n : Z) : recv_info := mk_recv (ri_state r) n (ri_file r) (ri_wakes r) (ri_result r).
Definition set_ret (r : recv_info) (ret : Z) : recv_info := mk_recv (ri_state r) (ri_fslices r) (ri_file r) (ri_wakes r) (Some ret).
Definition slice_wakeup (r : recv_info) (ret : Z) : recv_info := mk_recv (ri_state r) (ri_fslices r) (ri_file r) (ret :: ri_wakes r) (ri_result r).

(** valid is MSG_Q_SEND, and the requester is there to be found. *)
Definition waiting (r : recv_info) : bool := match ri_wakes r, ri_result r with [], None => true | _, _ => false end.
Definition processing (r : recv_info) : bool := match ri_state r with FILE_RECV_PROCESS => true | _ => false end.

(** Offset, content and number of slices of a message; None where it reads past the buffer. *)
Definition slice_of (data : bytes) : option (Z * bytes * Z) :=
  slice_size ← fld slice_descriptor data "slice_size";
  slice_sn ← fld slice_descriptor data "slice_sn";
  content_size ← fld slice_descriptor data "content_size";
  num_slices ← fld slice_descriptor data "num_slices";
  if sizeof slice_descriptor + content_size <=? Z.of_nat (length data) then
    Some (u32 (slice_size * slice_sn), sub (size_of slice_descriptor) (Z.to_nat content_size) data, num_slices)
  else None.

(** The next step of a work. *)
Definition slice_work_step (r : recv_info) (w : slice_work) (io : write_result) : option (recv_info * slice_work) :=
  match w with
  | WStart h data =>
      if negb (waiting r) then Some (r, WDone)
      else
        let ret := swrap 32 (h_ret_code h) in
        if negb (ret =? 0) || (h_data_len h =? sizeof hmdfs_head_cmd) then Some (slice_wakeup r ret, WDone)
        else Some (r, WCheck data)
  | WCheck data => Some (r, if processing r then WWrite data else WFail (- EBUSY))
  | WWrite data =>
      '(offset, slice_buf, num_slices) ← slice_of data;
      match io with
      | WErr e => Some (set_state r FILE_RECV_ERR_SPC, WFail (Z.neg e))
      | WBytes n => Some (set_file r (file_write (Z.to_nat offset) (take n slice_buf) (ri_file r)), WInc num_slices)
      end
  | WInc num_slices =>
      let n := swrap 32 (ri_fslices r + 1) in
      Some (set_slices r n, if num_slices <=? u32 n then WSucc else WTest)
  | WSucc => Some (set_state r FILE_RECV_SUCC, WTest)
  | WTest => Some (if processing r then r else slice_wakeup r 0, WDone)
  | WFail ret => Some (slice_wakeup r ret, WDone)
  | WDone => Some (r, WDone)
  end.

(** A work runs on; the requester finds valid set, or its time is over. *)
Inductive recv_op := RunWork (i : nat) (io : write_result) | Collect | TimeOut.
Record recv_state := mk_rs { rs_info : recv_info; rs_works : list slice_work }.

Definition request_step (s : recv_state) (op : recv_op) : option recv_state :=
  let r := rs_info s in
  match op with
  | RunWork i io =>
      w ← rs_works s !! i;
      '(r, w) ← slice_work_step r w io;
      Some (mk_rs r (<[i := w]> (rs_works s)))
  | Collect => match ri_wakes r, ri_result r with ret :: _, None => Some (mk_rs (set_ret r ret) (rs_works s)) | _, _ => None end
  | TimeOut => match ri_result r with None => Some (mk_rs (set_ret (set_state r FILE_RECV_ERR_NET) (- ETIME)) (rs_works s)) | _ => None end
  end.

Definition recv_start (works : list slice_work) : recv_state := mk_rs (mk_recv FILE_RECV_PROCESS 0 [] [] None) works.
Definition run (s : recv_state) (ops : list recv_op) : option recv_state := foldl (fun s op => s ← s; request_step s op) (Some s) ops.

(** hmdfs_recv_mesg_callback for the answers to F_ITERATE: a work for one that is verified, in
    which verification may have put its own code. *)
Definition hmdfs_recv_mesg_callback (head data : bytes) : option slice_work :=
  let h := mk_head (hd_fld head "cmd_flag") (hd_fld head "command") (hd_fld head "data_len") (hd_fld head "ret_code") in
  if (h_cmd_flag h =? C_RESPONSE) && (h_command h =? F_ITERATE) then
    match hmdfs_message_verify (Some h) (match data with [] => None | _ => Some data end) with
    | Some (inr v) => if v_err v <? 0 then None else Some (WStart (v_head v) data)
    | _ => None
    end
  else None.
Definition works_of (out : list received) : list slice_work :=
  omap (fun r => match r with Handled _ head data => hmdfs_recv_mesg_callback head data | Page _ _ _ => None end) out.

(** * Writing a file piece by piece *)

Lemma file_write_lookup off data file i b : data !! i = Some b -> file_write off data file !! (off + i)%nat = Some b.
Proof.
  intros H. pose proof (lookup_lt_Some _ _ _ H) as Hi. unfold file_write. destruct data as [|d data]; [done|].
  set (f := file ++ _). assert (length (take off f) = off) as Hl by (subst f; rewrite length_take, length_app, length_replicate; lia).
  rewrite lookup_app_r by lia. rewrite Hl. replace (off + i - off)%nat with i by lia. by rewrite lookup_app_l.
Qed.

Lemma file_write_other off data file j b : file !! j = Some b -> (j < off \/ off + length data <= j)%nat -> file_write off data file !! j = Some b.
Proof.
  intros H Hd. pose proof (lookup_lt_Some _ _ _ H) as Hj. unfold file_write. destruct data as [|d data]; [done|]. set (l := d :: data) in *.
  set (f := file ++ _). assert (length (take off f) = off) as Hl by (subst f; rewrite length_take, length_app, length_replicate; lia).
  destruct Hd as [Hd|Hd].
  - rewrite lookup_app_l, lookup_take_lt by lia. subst f. by rewrite lookup_app_l.
  - rewrite lookup_app_r, Hl, lookup_app_r, lookup_drop by lia. rewrite <- H. f_equal. lia.
Qed.

Lemma file_write_length off data file n : (length file <= n)%nat -> (off + length data <= n)%nat -> (length (file_write off data file) <= n)%nat.
Proof.
  intros Hf Hd. unfold file_write. destruct data as [|d data]; [done|]. rewrite !length_app, length_take, length_app, length_replicate, length_drop. lia.
Qed.

(** * Counting works *)

Definition counted (w : slice_work) : bool := match w with WSucc | WTest | WDone => true | _ => false end.
Definition count (ws : list slice_work) : nat := length (List.filter counted ws).

Lemma count_insert ws : forall i w w', ws !! i = Some w -> (count (<[i := w']> ws) + Nat.b2n (counted w) = count ws + Nat.b2n (counted w'))%nat.
Proof.
  unfold count. induction ws as [|v ws IH]; intros [|i] w w' H; cbn in H; simplify_eq.
  - change (<[0%nat:=w']> (w :: ws)) with (w' :: ws). cbn [List.filter]. destruct (counted w), (counted w'); cbn; lia.
  - specialize (IH i w w' H). change (<[S i:=w']> (v :: ws)) with (v :: <[i:=w']> ws). cbn [List.filter]. destruct (counted v); cbn [length]; lia.
Qed.

Lemma count_le ws : (count ws <= length ws)%nat.
Proof. unfold count. induction ws as [|w ws IH]; [done|]. cbn. destruct (counted w); cbn; lia. Qed.

Lemma count_all ws : forall i w, count ws = length ws -> ws !! i = Some w -> counted w = true.
Proof.
  induction ws as [|v ws IH]; intros i w H Hw; [done|]. pose proof (count_le ws) as Hle. unfold count in *. cbn in H.
  destruct (counted v) eqn:E; cbn in H; [|lia]. destruct i as [|i]; cbn in Hw; [by simplify_eq|]. apply (IH i); [lia|done].
Qed.

(** * A file in slices *)

Section Client.
(** The file, its pages and the number of slices; an offset is an unsigned int. *)
Context (content : bytes) (num_slices : Z) (N : nat) (data : nat -> bytes).
Definition chunk (i : nat) : bytes := take (Z.to_nat PAGE_SIZE) (drop (Z.to_nat PAGE_SIZE * i) content).
Context (HN : N = Nat.max 1 (Z.to_nat num_slices)) (HN32 : Z.of_nat N < 2 ^ 31) (Hnum : 0 <= num_slices).
Context (Hcover : (length content <= Z.to_nat PAGE_SIZE * N)%nat).
Context (Hdata : forall i, (i < N)%nat -> slice_of (data i) = Some (PAGE_SIZE * Z.of_nat i, chunk i, num_slices)).

(** Slice [i] is in the file. *)
Definition stored (file : bytes) (i : nat) : Prop := forall k b, chunk i !! k = Some b -> file !! (Z.to_nat PAGE_SIZE * i + k)%nat = Some b.

Definition work_ok (file : bytes) (i : nat) (w : slice_work) : Prop :=
  match w with
  | WStart h d => d = data i /\ swrap 32 (h_ret_code h) = 0 /\ h_data_len h <> sizeof hmdfs_head_cmd
  | WCheck d | WWrite d => d = data i
  | WInc n => n = num_slices /\ stored file i
  | WSucc | WTest | WDone => stored file i
  | WFail _ => False
  end.

(** As long as no write fails and the requester waits. *)
Record slices_inv (s : recv_state) : Prop := {
  si_len : (length (rs_works s) <= N)%nat;
  si_works : forall i w, rs_works s !! i = Some w -> work_ok (ri_file (rs_info s)) i w;
  si_file : (length (ri_file (rs_info s)) <= length content)%nat;
  si_count : ri_fslices (rs_info s) = Z.of_nat (count (rs_works s));
  si_succ : ri_state (rs_info s) = FILE_RECV_SUCC \/ WSucc ∈ rs_works s -> count (rs_works s) = N;
  si_wakes : Forall (eq 0) (ri_wakes (rs_info s));
  si_woken : ri_wakes (rs_info s) <> [] -> ri_state (rs_info s) = FILE_RECV_SUCC;
  si_state : ri_state (rs_info s) = FILE_RECV_PROCESS /\ (count (rs_works s) = N -> WSucc ∈ rs_works s) \/
    ri_state (rs_info s) = FILE_RECV_SUCC /\ (ri_wakes (rs_info s) <> [] \/ WTest ∈ rs_works s)
}.

Lemma chunk_length i : (Z.to_nat PAGE_SIZE * i + length (chunk i) <= length content \/ chunk i = [])%nat.
Proof.
  unfold chunk. rewrite length_take, length_drop. destruct (decide (Z.to_nat PAGE_SIZE * i <= length content)%nat); [left; lia|right].
  rewrite drop_ge by lia. by rewrite take_nil.
Qed.

Lemma chunk_lookup i k b : chunk i !! k = Some b -> content !! (Z.to_nat PAGE_SIZE * i + k)%nat = Some b.
Proof.
  unfold chunk. intros H. pose proof (lookup_lt_Some _ _ _ H) as Hk. rewrite length_take in Hk. rewrite lookup_take_lt, lookup_drop in H by lia. done.
Qed.

(** With all slices in it the file is the whole one. *)
Lemma all_stored file : (length file <= length content)%nat -> (forall i, (i < N)%nat -> stored file i) -> file = content.
Proof.
  intros Hlen Hall. apply list_eq. intros j. destruct (content !! j) as [b|] eqn:E.
  - pose proof (lookup_lt_Some _ _ _ E) as Hj. set (P := Z.to_nat PAGE_SIZE) in *. assert (P <> 0)%nat as HP by done.
    pose proof (Nat.div_mod_eq j P) as Hjm. pose proof (Nat.mod_upper_bound j P HP) as Hr.
    rewrite Hjm. apply (Hall (j / P)%nat); [apply Nat.Div0.div_lt_upper_bound; lia|].
    unfold chunk. fold P. rewrite lookup_take_lt, lookup_drop by lia. by rewrite <- Hjm.
  - apply lookup_ge_None in E. apply lookup_ge_None. lia.
Qed.

Lemma stored_after_write file i : stored (file_write (Z.to_nat PAGE_SIZE * i) (chunk i) file) i.
Proof. intros k b H. by apply file_write_lookup. Qed.

Lemma stored_other file i j : i <> j -> stored file j -> stored (file_write (Z.to_nat PAGE_SIZE * i) (chunk i) file) j.
Proof.
  intros Hne Hs k b H. apply file_write_other; [by apply Hs|]. pose proof (lookup_lt_Some _ _ _ H) as Hk.
  pose proof (length_take_le (drop (Z.to_nat PAGE_SIZE * i) content) (Z.to_nat PAGE_SIZE)) as Hi.
  unfold chunk in *. rewrite length_take in *. set (P := Z.to_nat PAGE_SIZE) in *. nia.
Qed.

Definition whole (io : write_result) : Prop := match io with WErr _ => False | WBytes n => (Z.to_nat PAGE_SIZE <= n)%nat end.

Lemma works_insert file file' (ws : list slice_work) i w' : (forall j w, ws !! j = Some w -> work_ok file j w) ->
  (forall j w, j <> i -> work_ok file j w -> work_ok file' j w) -> work_ok file' i w' ->
  forall j w, <[i := w']> ws !! j = Some w -> work_ok file' j w.
Proof. intros H Ho Hi j w [(<-&<-&_)|(Hne&Hj)]%list_lookup_insert_Some; [done|]. by apply Ho; [congruence|apply H]. Qed.

Lemma elem_insert (ws : list slice_work) i w' x : x ∈ <[i := w']> ws -> x = w' \/ x ∈ ws.
Proof. intros (j&Hj)%list_elem_of_lookup. apply list_lookup_insert_Some in Hj as [(_&<-&_)|(_&Hj)]; [by left|right]. by eapply list_elem_of_lookup_2. Qed.

Lemma elem_keep (ws : list slice_work) i w w' x : ws !! i = Some w -> x ∈ ws -> x <> w -> x ∈ <[i := w']> ws.
Proof.
  intros Hi (j&Hj)%list_elem_of_lookup Hne. apply (list_elem_of_lookup_2 _ j). rewrite list_lookup_insert_ne; [done|]. intros ->. congruence.
Qed.

Lemma elem_new (ws : list slice_work) i w w' : ws !! i = Some w -> w' ∈ <[i := w']> ws.
Proof. intros Hi. apply (list_elem_of_lookup_2 _ i). apply list_lookup_insert_eq. by eapply lookup_lt_Some. Qed.

(** A work that is not past its slice: not all are counted, and none has woken the requester. *)
Lemma uncounted s i w : slices_inv s -> rs_works s !! i = Some w -> counted w = false ->
  (count (rs_works s) < N)%nat /\ ri_state (rs_info s) = FILE_RECV_PROCESS /\ ri_wakes (rs_info s) = [].
Proof.
  intros [] Hw Hc. pose proof (count_le (rs_works s)) as Hle. assert (count (rs_works s) <> N) as Hne.
  { intros Heq. assert (counted w = true); [|congruence]. eapply count_all; [|done]. lia. }
  assert (ri_state (rs_info s) = FILE_RECV_PROCESS) as Hst.
  { destruct si_state0 as [[? _]|[Hs _]]; [done|]. destruct Hne. apply si_succ0. by left. }
  split_and!; [lia|done|]. destruct (ri_wakes (rs_info s)) eqn:E; [done|]. rewrite si_woken0 in Hst by done. done.
Qed.

(** A step that changes nothing shared. *)
Lemma inv_move r ws i w w' : slices_inv (mk_rs r ws) -> ws !! i = Some w -> work_ok (ri_file r) i w' -> counted w = counted w' -> w <> WSucc -> w' <> WSucc ->
  (w = WTest -> ri_state r = FILE_RECV_PROCESS) -> slices_inv (mk_rs r (<[i := w']> ws)).
Proof.
  intros [] Hw Hok Hc Hs Hs' Ht. cbn [rs_info rs_works] in *. pose proof (count_insert ws i w w' Hw) as Hcount. rewrite Hc in Hcount.
  assert (count (<[i:=w']> ws) = count ws) as Heq by lia. constructor; cbn [rs_info rs_works]; rewrite ?length_insert, ?Heq; [done| |done|done| |done|done|].
  - by apply (works_insert (ri_file r)).
  - intros [H|[H|H]%elem_insert]; [by apply si_succ0; left|done|by apply si_succ0; right].
  - destruct si_state0 as [[H1 H2]|[H1 H2]]; [left; split; [done|]|right; split; [done|]].
    + intros H. eapply elem_keep; [done|by apply H2|done].
    + destruct H2 as [H2|H2]; [by left|right]. eapply elem_keep; [done|done|]. intros <-. rewrite Ht in H1 by done. done.
Qed.

Lemma step_write r ws i d n : slices_inv (mk_rs r ws) -> ws !! i = Some (WWrite d) -> (Z.to_nat PAGE_SIZE <= n)%nat ->
  exists r' w', slice_work_step r (WWrite d) (WBytes n) = Some (r', w') /\ slices_inv (mk_rs r' (<[i := w']> ws)) /\ ri_result r' = ri_result r.
Proof.
  intros Hinv Hw Hn. pose proof Hinv as []. cbn [rs_info rs_works] in *. pose proof (lookup_lt_Some _ _ _ Hw) as Hi.
  pose proof (si_works0 _ _ Hw) as Hd. cbn in Hd. subst d. cbn [slice_work_step]. rewrite Hdata by lia. cbn [mbind option_bind].
  assert (take n (chunk i) = chunk i) as -> by (apply take_ge; unfold chunk; rewrite length_take; lia).
  replace (Z.to_nat (PAGE_SIZE * Z.of_nat i)) with (Z.to_nat PAGE_SIZE * i)%nat by (unfold PAGE_SIZE; lia).
  eexists _, _. split; [done|]. split; [|done]. pose proof (count_insert ws i _ (WInc num_slices) Hw) as Hcount. cbn in Hcount.
  assert (count (<[i:=WInc num_slices]> ws) = count ws) as Heq by lia.
  constructor; cbn [rs_info rs_works set_file ri_file ri_fslices ri_state ri_wakes]; rewrite ?length_insert, ?Heq; [done| | |done| |done|done|].
  - apply (works_insert (ri_file r)); [done| |split; [done|apply stored_after_write]].
    intros j w Hne. destruct w; cbn; try done; [intros [H1 H2]; split; [done|]| | |]; try intros H2; (by apply stored_other; [congruence|]).
  - destruct (chunk_length i) as [Hl| ->]; [|done]. by apply file_write_length.
  - intros [H|[H|H]%elem_insert]; [by apply si_succ0; left|done|by apply si_succ0; right].
  - destruct si_state0 as [[H1 H2]|[H1 H2]]; [left; split; [done|]|right; split; [done|]].
    + intros H. eapply elem_keep; [done|by apply H2|done].
    + destruct H2 as [H2|H2]; [by left|right]. by eapply elem_keep.
Qed.

Lemma step_inc r ws i : slices_inv (mk_rs r ws) -> ws !! i = Some (WInc num_slices) ->
  exists r' w', slice_work_step r (WInc num_slices) (WBytes 0) = Some (r', w') /\ slices_inv (mk_rs r' (<[i := w']> ws)) /\ ri_result r' = ri_result r.
Proof.
  intros Hinv Hw. destruct (uncounted _ _ _ Hinv Hw eq_refl) as (Hlt&Hst&Hwk). destruct Hinv as []. cbn [rs_info rs_works] in *.
  destruct (si_works0 _ _ Hw) as [_ Hsi]. cbn [slice_work_step]. rewrite si_count0. rewrite swrap_id by lia. rewrite wrap_small by lia.
  set (w' := if _ <=? _ then WSucc else WTest). eexists _, _. split; [done|]. split; [|done].
  assert (counted w' = true /\ work_ok (ri_file r) i w') as [Hc Hok] by (subst w'; by destruct (_ <=? _)).
  pose proof (count_insert ws i _ w' Hw) as Hcount. rewrite Hc in Hcount. cbn in Hcount.
  assert (count (<[i:=w']> ws) = S (count ws)) as Heq by lia. pose proof (elem_new ws i _ w' Hw) as Hnew.
  constructor; cbn [rs_info rs_works set_slices ri_file ri_fslices ri_state ri_wakes]; rewrite ?length_insert, ?Heq; [done| |done|lia| |done|done|].
  - by apply (works_insert (ri_file r)).
  - rewrite Hst. intros [H|[H|H]%elem_insert]; [done| |rewrite si_succ0 in Hlt by (by right); lia].
    subst w'. destruct (num_slices <=? _) eqn:E; [zb; lia|done].
  - left. split; [done|]. intros H. destruct (num_slices <=? Z.of_nat (count ws) + 1) eqn:E; [done|]. zb. lia.
Qed.

Lemma step_succ r ws i : slices_inv (mk_rs r ws) -> ws !! i = Some WSucc ->
  slices_inv (mk_rs (set_state r FILE_RECV_SUCC) (<[i := WTest]> ws)).
Proof.
  intros Hinv Hw. destruct Hinv as []. cbn [rs_info rs_works] in *. pose proof (count_insert ws i _ WTest Hw) as Hcount. cbn in Hcount.
  assert (count (<[i:=WTest]> ws) = count ws) as Heq by lia. assert (WSucc ∈ ws) as Hin by (by eapply list_elem_of_lookup_2).
  constructor; cbn [rs_info rs_works set_state ri_file ri_fslices ri_state ri_wakes]; rewrite ?length_insert, ?Heq; [done| |done|done| |done|done|].
  - apply (works_insert (ri_file r)); [done|done|]. apply (si_works0 _ _ Hw).
  - intros _. apply si_succ0. by right.
  - right. split; [done|]. right. by eapply elem_new.
Qed.

Lemma step_test r ws i : slices_inv (mk_rs r ws) -> ws !! i = Some WTest -> ri_state r = FILE_RECV_SUCC ->
  slices_inv (mk_rs (slice_wakeup r 0) (<[i := WDone]> ws)).
Proof.
  intros Hinv Hw Hst. destruct Hinv as []. cbn [rs_info rs_works] in *. pose proof (count_insert ws i _ WDone Hw) as Hcount. cbn in Hcount.
  assert (count (<[i:=WDone]> ws) = count ws) as Heq by lia.
  constructor; cbn [rs_info rs_works slice_wakeup ri_file ri_fslices ri_state ri_wakes]; rewrite ?length_insert, ?Heq; [done| |done|done| | |done|].
  - apply (works_insert (ri_file r)); [done|done|]. apply (si_works0 _ _ Hw).
  - intros _. apply si_succ0. by left.
  - by constructor.
  - right. split; [done|]. by left.
Qed.

(** Every step of a work, while the requester waits. *)
Lemma work_step_ok r ws i w io : slices_inv (mk_rs r ws) -> ri_result r = None -> ws !! i = Some w -> whole io ->
  exists r' w', slice_work_step r w io = Some (r', w') /\ slices_inv (mk_rs r' (<[i := w']> ws)) /\ ri_result r' = None.
Proof.
  intros Hinv Hres Hw Hio. pose proof (si_works _ Hinv _ _ Hw) as Hok. pose proof (uncounted _ _ _ Hinv Hw) as Hun. cbn [rs_info rs_works] in *.
  destruct w as [h d|d|d|n| | |ret|].
  - destruct (Hun eq_refl) as (_&Hst&Hwk). destruct Hok as (Hd&Hr&Hl). cbn [slice_work_step]. unfold waiting. rewrite Hwk, Hres. cbn [negb].
    rewrite Hr, (proj2 (Z.eqb_neq _ (sizeof _)) Hl). cbn [Z.eqb negb orb]. eexists _, _. split; [done|]. split; [|done]. by eapply inv_move.
  - destruct (Hun eq_refl) as (_&Hst&Hwk). cbn [slice_work_step]. unfold processing. rewrite Hst.
    eexists _, _. split; [done|]. split; [|done]. by eapply inv_move.
  - destruct io as [e|n]; [done|]. destruct (step_write r ws i d n Hinv Hw Hio) as (r'&w'&?&?&?). exists r', w'. by rewrite <- Hres.
  - destruct Hok as [-> _]. destruct (step_inc r ws i Hinv Hw) as (r'&w'&?&?&?). exists r', w'. by rewrite <- Hres.
  - eexists _, _. split; [done|]. split; [|done]. by apply step_succ.
  - cbn [slice_work_step]. unfold processing. destruct (si_state _ Hinv) as [[Hst _]|[Hst _]]; cbn [rs_info] in Hst; rewrite Hst.
    + eexists _, _. split; [done|]. split; [|done]. by eapply inv_move.
    + eexists _, _. split; [done|]. split; [|done]. by apply step_test.
  - done.
  - eexists _, _. split; [done|]. split; [|done]. rewrite (list_insert_id ws i WDone Hw). done.
Qed.

(** The requester has returned 0: all slices are in and no work will write. *)
Definition settled (s : recv_state) : Prop :=
  length (rs_works s) = N /\ ri_file (rs_info s) = content /\ Forall (fun w => counted w = true) (rs_works s).

Definition transfer_inv (s : recv_state) : Prop :=
  match ri_result (rs_info s) with None => slices_inv s | Some ret => ret = 0 -> settled s end.

Lemma complete_settled s : slices_inv s -> count (rs_works s) = N -> settled s.
Proof.
  intros [] Hc. pose proof (count_le (rs_works s)) as Hle. assert (length (rs_works s) = N) as Hlen by lia.
  assert (forall i w, rs_works s !! i = Some w -> counted w = true) as Hall by (intros i w; apply count_all; lia).
  split_and!; [done| |by apply Forall_lookup_2]. apply all_stored; [done|]. intros i Hi. destruct (lookup_lt_is_Some_2 (rs_works s) i) as [w Hw]; [lia|].
  pose proof (si_works0 _ _ Hw) as Hok. apply Hall in Hw. by destruct w.
Qed.

Lemma settled_step s i w io r' w' : settled s -> rs_works s !! i = Some w -> slice_work_step (rs_info s) w io = Some (r', w') ->
  settled (mk_rs r' (<[i := w']> (rs_works s))) /\ ri_result r' = ri_result (rs_info s).
Proof.
  intros (Hl&Hf&Hall) Hw Hstep. pose proof (Forall_lookup_1 _ _ _ _ Hall Hw) as Hc.
  assert (ri_file r' = ri_file (rs_info s) /\ ri_result r' = ri_result (rs_info s) /\ counted w' = true) as (H1&H2&H3).
  { destruct w; try done; cbn [slice_work_step] in Hstep; try destruct (processing _); by simplify_eq. }
  split; [|done]. split_and!; cbn [rs_info rs_works]; [by rewrite length_insert|by rewrite H1|by apply Forall_insert].
Qed.

Lemma work_result r w io r' w' : slice_work_step r w io = Some (r', w') -> ri_result r' = ri_result r.
Proof.
  destruct w; cbn [slice_work_step]; repeat case_match; intros; simplify_eq; try done; destruct (slice_of data0) as [[[? ?] ?]|]; cbn in *; by simplify_eq.
Qed.

Definition whole_op (op : recv_op) : Prop := match op with RunWork _ io => whole io | _ => True end.

Lemma recv_step_inv s op s' : transfer_inv s -> whole_op op -> request_step s op = Some s' -> transfer_inv s'.
Proof.
  destruct s as [r ws]. unfold transfer_inv. intros Hinv Hop. destruct op as [i io| |]; cbn [request_step rs_info rs_works] in *.
  - destruct (ws !! i) as [w|] eqn:Hw; [|done]. cbn [mbind option_bind]. destruct (slice_work_step r w io) as [[r' w']|] eqn:E; [|done]. cbn. intros [= <-].
    pose proof (work_result _ _ _ _ _ E) as Hres. cbn. rewrite Hres. destruct (ri_result r) as [ret|] eqn:Er.
    + intros H. by eapply (settled_step (mk_rs r ws)); [apply Hinv| |].
    + destruct (work_step_ok r ws i w io Hinv Er Hw Hop) as (r2&w2&E2&H2&_). rewrite E in E2. by simplify_eq.
  - destruct (ri_wakes r) as [|ret l] eqn:Ew, (ri_result r) as [|] eqn:Er; try done. intros [= <-]. cbn. intros ->.
    apply (complete_settled _ Hinv). apply (si_succ _ Hinv). left. apply (si_woken _ Hinv). cbn. by rewrite Ew.
  - destruct (ri_result r); [done|]. intros [= <-]. cbn. done.
Qed.

Lemma run_inv ops : forall s s', transfer_inv s -> Forall whole_op ops -> run s ops = Some s' -> transfer_inv s' /\ length (rs_works s') = length (rs_works s).
Proof.
  unfold run. induction ops as [|op ops IH]; intros s s' Hinv Hops; [by intros [= <-]|]. cbn [foldl mbind option_bind].
  destruct (request_step s op) as [s1|] eqn:E; [|clear; by induction ops]. intros Hrun.
  destruct (IH s1 s') as [H1 H2]; [|by eapply Forall_inv_tail|done|].
  - eapply recv_step_inv; [done|by eapply Forall_inv|done].
  - split; [done|]. rewrite H2. destruct op as [i io| |]; cbn [request_step] in E.
    + destruct (rs_works s !! i) as [w|]; [|done]. cbn in E. destruct (slice_work_step _ _ _) as [[r' w']|]; [|done]. cbn in E. simplify_eq. apply length_insert.
    + by repeat case_match; simplify_eq.
    + by repeat case_match; simplify_eq.
Qed.

(** With every slice queued and every work done, the requester is woken with 0. *)
Lemma all_done_woken s : slices_inv s -> length (rs_works s) = N -> Forall (eq WDone) (rs_works s) -> exists l, ri_wakes (rs_info s) = 0 :: l.
Proof.
  intros [] Hl Hd. assert (forall w, w ∈ rs_works s -> w = WDone) as Hall by (intros w Hw; symmetry; exact (proj1 (list.Forall_forall _ _) Hd w Hw)).
  assert (count (rs_works s) = N) as Hc.
  { rewrite <- Hl. unfold count. f_equal. clear -Hd. induction (rs_works s) as [|w ws IH]; [done|]. pose proof (Forall_inv Hd) as <-. cbn. f_equal. apply IH. by eapply Forall_inv_tail. }
  destruct si_state0 as [[_ H]|[_ [H|H]]]; [apply Hall in H; [done|exact Hc]| |by apply Hall in H].
  destruct (ri_wakes (rs_info s)) as [|ret l]; [done|]. pose proof (Forall_inv si_wakes0) as <-. eauto.
Qed.

(** Works as they are queued, for the first slices. *)
Lemma transfer_start ws : (length ws <= N)%nat -> (forall i w, ws !! i = Some w -> exists h, w = WStart h (data i) /\ h_ret_code h = 0 /\ h_data_len h <> sizeof hmdfs_head_cmd) ->
  slices_inv (recv_start ws).
Proof.
  intros Hl Hws. assert (Forall (fun w => counted w = false /\ w <> WSucc) ws) as Hc.
  { apply Forall_lookup_2. intros i w Hw. by destruct (Hws i w Hw) as (h&->&_). }
  assert (count ws = 0%nat) as H0. { clear -Hc. unfold count. induction Hc as [|w ws [H _] _ IH]; [done|]. cbn. by rewrite H. }
  constructor; cbn; [done| |lia|change (0 = Z.of_nat (count ws)); by rewrite H0| |done|done|].
  - intros i w Hw. destruct (Hws i w Hw) as (h&->&Hr&Hd). cbn. split_and!; [done|by rewrite Hr|done].
  - intros [?|H]; [done|]. destruct (proj1 (list.Forall_forall _ _) Hc _ H) as [_ ?]. done.
  - left. split; [done|]. change (count ws = N -> WSucc ∈ ws). rewrite H0. lia.
Qed.
End Client.

(** * The slices that a server makes *)

(** kernel_read on a regular file. *)
Definition read_file (content : bytes) (off n : Z) : positive + bytes := inr (take (Z.to_nat n) (drop (Z.to_nat off) content)).

(** An answer to F_ITERATE is verified as long as it is not longer than a slice. *)
Lemma iterate_answer_verified h data : h_cmd_flag h = C_RESPONSE -> h_command h = F_ITERATE ->
  h_data_len h = sizeof hmdfs_head_cmd + Z.of_nat (length data) -> Z.of_nat (length data) <= sizeof slice_descriptor + PAGE_SIZE ->
  data <> [] -> hmdfs_message_verify (Some h) (Some data) = Some (inr (mk_verified 0 h None)).
Proof.
  intros Hf Hc Hl Hmax Hne. unfold hmdfs_message_verify. rewrite Hf, Hc. cbn [Z.eqb C_RESPONSE C_REQUEST negb andb].
  assert (sizeof slice_descriptor + PAGE_SIZE + sizeof hmdfs_head_cmd < 2 ^ 32) as Hb by by vm_compute. rewrite (payload_len h data) by (done || lia).
  change ((F_SIZE <=? F_ITERATE) || _ || _) with false. change (lr_judge (message_length 1 F_ITERATE) =? MESSAGE_LEN_JUDGE_RANGE) with true.
  change (lr_min (message_length 1 F_ITERATE)) with 0. rewrite (proj2 (Z.ltb_ge _ 0)) by lia. rewrite (proj2 (Z.ltb_ge _ _)) by done. cbn [orb].
  change (message_verify F_ITERATE) with (Some hmdfs_iterate_verify). unfold hmdfs_iterate_verify. unfold by_flag.
  rewrite (proj2 (Z.eqb_neq (Z.of_nat (length data)) 0)) by (destruct data; [done|cbn; lia]). done.
Qed.

Section Whole.
Context (content : bytes) (Hsize : Z.of_nat (length content) < 2 ^ 32).

Definition pages : Z := u32 (round_up (Z.of_nat (length content)) PAGE_SIZE / PAGE_SIZE).
Definition slices : nat := Nat.max 1 (Z.to_nat pages).
Definition slice_data (i : nat) : bytes := slice_desc pages PAGE_SIZE (u32 (Z.of_nat i)) (Z.of_nat (length (chunk content i))) ++ chunk content i.

Lemma pages_ceil : 0 <= pages < 2 ^ 20 + 1 /\ PAGE_SIZE * (pages - 1) < Z.of_nat (length content) <= PAGE_SIZE * pages.
Proof.
  unfold pages, round_up. set (n := Z.of_nat (length content)) in *. rewrite Z.div_mul by done.
  assert (PAGE_SIZE = 4096) as Hp by done. rewrite Hp. pose proof (Z.div_mod (n + 4096 - 1) 4096 ltac:(lia)). pose proof (Z.mod_pos_bound (n + 4096 - 1) 4096 ltac:(lia)).
  rewrite wrap_small by lia. lia.
Qed.

Lemma chunk_size i : (length (chunk content i) = Nat.min (Z.to_nat PAGE_SIZE) (length content - Z.to_nat PAGE_SIZE * i))%nat.
Proof. unfold chunk. by rewrite length_take, length_drop. Qed.

Lemma slice_of_data i : (i < slices)%nat -> slice_of (slice_data i) = Some (PAGE_SIZE * Z.of_nat i, chunk content i, pages).
Proof.
  intros Hi. pose proof pages_ceil as Hp. pose proof (chunk_size i) as Hc. assert (PAGE_SIZE = 4096) as HP by done. unfold slices in Hi.
  unfold slice_of, slice_data, slice_desc. set (env := slice_env _ _ _ _).
  rewrite (fld_encode _ _ _ "slice_size" 4 4), (fld_encode _ _ _ "slice_sn" 8 4), (fld_encode _ _ _ "content_size" 12 4), (fld_encode _ _ _ "num_slices" 0 4) by done.
  cbn [mbind option_bind]. change (env "slice_size") with PAGE_SIZE. change (env "slice_sn") with (u32 (Z.of_nat i)).
  change (env "content_size") with (Z.of_nat (length (chunk content i))). change (env "num_slices") with pages.
  change (256 ^ Z.of_nat 4) with (2 ^ 32). rewrite (wrap_small 32 (Z.of_nat i)) by lia. rewrite !Z.mod_small by lia.
  rewrite wrap_small by lia. rewrite length_app, length_encode.
  rewrite (proj2 (Z.leb_le _ _)) by (unfold sizeof; lia). f_equal. f_equal. f_equal. rewrite Nat2Z.id.
  unfold sub. rewrite <- (length_encode slice_descriptor env). rewrite drop_app_length. by apply take_ge.
Qed.

Context (cmd : bytes).
Definition slice_msg (i : nat) : send_data :=
  hmdfs_send_slice cmd (slice_desc pages PAGE_SIZE (u32 (Z.of_nat i)) (Z.of_nat (length (chunk content i)))) (chunk content i).

Lemma slice_loop_all fuel : forall i, (i < slices)%nat -> (slices - i <= fuel)%nat ->
  slice_loop cmd (Z.of_nat (length content)) (read_file content) (fun _ => 0) fuel pages (Z.of_nat i) (PAGE_SIZE * Z.of_nat i) =
  Some (map slice_msg (seq i (slices - i)), 0).
Proof.
  assert (PAGE_SIZE = 4096) as HP by done. pose proof pages_ceil as Hp.
  induction fuel as [|fuel IH]; intros i Hi Hf; [lia|]. cbn [slice_loop]. unfold read_file at 1. cbv iota.
  replace (take (Z.to_nat PAGE_SIZE) (drop (Z.to_nat (PAGE_SIZE * Z.of_nat i)) content)) with (chunk content i) by (unfold chunk; f_equal; f_equal; lia).
  fold (slice_msg i). cbn [Z.eqb negb]. pose proof (chunk_size i) as Hc. destruct (slices - i)%nat as [|m] eqn:Em; [lia|]. cbn [seq map].
  unfold slices in Hi, Em. destruct m as [|m].
  - rewrite (proj2 (Z.leb_le _ _)) by lia. done.
  - rewrite (proj2 (Z.leb_gt _ _)) by lia. specialize (IH (S i)). replace (slices - S i)%nat with (S m) in IH by (unfold slices; lia).
    replace (Z.of_nat i + 1) with (Z.of_nat (S i)) by lia. replace (PAGE_SIZE * Z.of_nat i + _) with (PAGE_SIZE * Z.of_nat (S i)) by lia.
    rewrite IH by (unfold slices; lia). done.
Qed.

Lemma readfile_response_all : hmdfs_readfile_response cmd (Z.of_nat (length content)) (read_file content) (fun _ => 0) true = Some (map slice_msg (seq 0 slices), 0).
Proof.
  unfold hmdfs_readfile_response. cbn [negb]. fold pages. pose proof pages_ceil as Hp. assert (PAGE_SIZE = 4096) as HP by done.
  pose proof (slice_loop_all (S (Z.to_nat (Z.of_nat (length content)))) 0) as H. rewrite Nat.sub_0_r in H. change (Z.of_nat 0) with 0 in H. rewrite Z.mul_0_r in H. rewrite H by (unfold slices; lia).
  cbn [mbind option_bind Z.eqb]. by rewrite app_nil_r.
Qed.

Context (Hcmd : length cmd = HEAD_SIZE) (Hiter : hd_fld cmd "command" = F_ITERATE).

(** A slice is a message that the receiver takes and queues a work for. *)
Lemma slice_frame_ok find_page i : (i < slices)%nat -> frame_ok (frame_of (slice_msg i)) /\
  exists h, works_of (of_frame find_page (frame_of (slice_msg i))) = [WStart h (slice_data i)] /\ h_ret_code h = 0 /\ h_data_len h <> sizeof hmdfs_head_cmd.
Proof.
  intros Hi. pose proof (chunk_size i) as Hc. assert (PAGE_SIZE = 4096) as HP by done.
  unfold frame_of, slice_msg, hmdfs_send_slice, frame_ok. cbn [sd_head sd_sdesc sd_data fst snd]. fold (slice_data i).
  set (len := _ + _ + _). destruct (response_head_ok cmd len 0 Hcmd) as (H1&H2&H3&H4&H5&H6&_). set (hd := response_head cmd len 0) in *.
  assert (length (slice_data i) = 16 + length (chunk content i))%nat as Hlen by (unfold slice_data, slice_desc; by rewrite length_app, length_encode).
  assert (u32 len = sizeof hmdfs_head_cmd + Z.of_nat (length (slice_data i))) as Hul.
  { subst len. rewrite Hlen. unfold sizeof. change (size_of hmdfs_head_cmd) with 24%nat. change (size_of slice_descriptor) with 16%nat. rewrite wrap_small; lia. }
  assert (is_page hd = false) as Hpg by (unfold is_page; by rewrite H6, Hiter).
  rewrite Hul in H3. split; [split_and!; [done|done|done|unfold HMDFS_MAX_MESSAGE_LEN; lia|by rewrite Hpg]|].
  unfold of_frame. rewrite Hpg. cbn [works_of omap list_omap]. unfold hmdfs_recv_mesg_callback. rewrite H5, H6, H3, H4, Hiter.
  set (h := mk_head _ _ _ _). cbn [h h_cmd_flag h_command]. rewrite !Z.eqb_refl. cbn [andb].
  assert (slice_data i <> []) as Hne by (intros H; rewrite H in Hlen; done).
  replace (match slice_data i with [] => None | _ => Some (slice_data i) end) with (Some (slice_data i)) by by destruct (slice_data i).
  rewrite iterate_answer_verified; [|done|done|done| |done].
  2: { rewrite Hlen. unfold sizeof. change (size_of slice_descriptor) with 16%nat. lia. }
  cbn. exists h. split_and!; [done|done|]. cbn. lia.
Qed.

(** The works of the first slices. *)
Lemma works_of_slices find_page l : Forall (fun i => (i < slices)%nat) l ->
  Forall2 (fun i w => exists h, w = WStart h (slice_data i) /\ h_ret_code h = 0 /\ h_data_len h <> sizeof hmdfs_head_cmd) l
    (works_of (concat (map (of_frame find_page) (map (fun i => frame_of (slice_msg i)) l)))).
Proof.
  induction 1 as [|i l Hi Hl IH]; [constructor|]. cbn [map concat]. unfold works_of in *. rewrite omap_app.
  destruct (slice_frame_ok find_page i Hi) as (_&h&E&Hh). unfold works_of in E. rewrite E. cbn [app]. constructor; [by exists h|done].
Qed.

Lemma works_start find_page k : (k <= slices)%nat ->
  let ws := works_of (concat (map (of_frame find_page) (take k (map (fun i => frame_of (slice_msg i)) (seq 0 slices))))) in
  length ws = k /\ forall i w, ws !! i = Some w -> exists h, w = WStart h (slice_data i) /\ h_ret_code h = 0 /\ h_data_len h <> sizeof hmdfs_head_cmd.
Proof.
  intros Hk ws. subst ws. rewrite firstn_map. replace (take k (seq 0 slices)) with (seq 0 k).
  2: { replace slices with (k + (slices - k))%nat by lia. rewrite seq_app, take_app_length'; [done|by rewrite length_seq]. }
  assert (Forall (fun i => (i < slices)%nat) (seq 0 k)) as Hl by (apply Forall_seq; intros; lia).
  pose proof (works_of_slices find_page _ Hl) as H2. pose proof (Forall2_length H2) as Hl2; rewrite length_seq in Hl2. split; [done|].
  intros i w Hw. destruct (Forall2_lookup_r _ _ _ _ _ H2 Hw) as (j&Hj&Hh). apply lookup_seq in Hj as [-> _]. done.
Qed.
End Whole.

(** * From file to file *)

(** What a run hands on queues the works of the first messages. *)
Lemma partial_works find_page fs out k : partial_run find_page fs out k ->
  exists n, (n <= length fs)%nat /\ works_of out = works_of (concat (map (of_frame find_page) (take n fs))).
Proof.
  intros H. exists (k `min` length fs)%nat. split; [lia|]. assert (take (k `min` length fs) fs = take k fs) as ->.
  { destruct (decide (k <= length fs)%nat); [by rewrite Nat.min_l|]. rewrite Nat.min_r by lia. by rewrite !take_ge by lia. }
  destruct H as [->|(f&_&->)]; [done|]. unfold works_of. rewrite omap_app. cbn. by rewrite app_nil_r.
Qed.

(** C19: A dentry file of less than 4 GiB that a server sends in slices, over a connection that fails in
    any way at the receiver, whose thread may be stopped, to works that run in any order and interleaving: when all their writes
    are whole, the requester returns 0 only when its file is the server's, byte for byte. When the
    connection was quiet and the thread not ended, the works are at their end and the requester still waits, it finds its
    answer and returns 0. *)
Theorem dentry_file_transferred cmd content aead_encrypt find_page aead_decrypt handle evs envs :
  length cmd = HEAD_SIZE -> hd_fld cmd "command" = F_ITERATE -> Z.of_nat (length content) < 2 ^ 32 ->
  (forall r, handle CONNECT_STAT_WORKING r = CONNECT_STAT_WORKING) ->
  exists msgs out s', hmdfs_readfile_response cmd (Z.of_nat (length content)) (read_file content) (fun _ => 0) true = Some (msgs, 0) /\
    let stream := snd (send_all aead_encrypt CONNECT_STAT_WORKING (map (fun m => ([], m, Z.of_nat)) msgs)) in
    tcp_recv_thread find_page aead_decrypt handle CONNECT_STAT_WORKING envs (mk_sock stream evs) = Some (out, s') /\
    forall ops s, Forall whole_op ops -> run (recv_start (works_of out)) ops = Some s ->
      (ri_result (rs_info s) = Some 0 -> ri_file (rs_info s) = content) /\
      (quiet evs -> stays envs -> Forall (eq WDone) (rs_works s) -> ri_result (rs_info s) = None ->
       exists s1, request_step s Collect = Some s1 /\ ri_result (rs_info s1) = Some 0 /\ ri_file (rs_info s1) = content).
Proof.
  intros Hcmd Hiter Hsize Hh. pose proof (pages_ceil content Hsize) as Hp. assert (PAGE_SIZE = 4096) as HP by done.
  set (msgs := map (slice_msg content cmd) (seq 0 (slices content))). exists msgs.
  set (fs := map (fun i => frame_of (slice_msg content cmd i)) (seq 0 (slices content))).
  assert (Forall frame_ok fs) as Hok.
  { subst fs. apply Forall_map, Forall_seq. intros i Hi. by apply (slice_frame_ok content cmd Hcmd Hiter find_page i); lia. }
  assert (snd (send_all aead_encrypt CONNECT_STAT_WORKING (map (fun m => ([], m, Z.of_nat)) msgs)) = stream_of fs ++ []) as Estream.
  { rewrite app_nil_r. subst msgs fs. rewrite send_all_whole, !map_map; [done|]. by rewrite map_map. }
  destruct (recv_loop_frames find_page aead_decrypt handle Hh (S (length (stream_of fs ++ []) + length evs + length envs)) fs [] envs (mk_sock (stream_of fs ++ []) evs))
    as (out&s'&k&E&Hpart&Hq); [done|by vm_compute; lia|done|cbn; lia|].
  exists out, s'. split; [by apply readfile_response_all|]. cbv zeta. rewrite Estream. split; [exact E|]. intros ops s Hops Hrun.
  assert (length fs = slices content) as Hfl by (subst fs; by rewrite length_map, length_seq).
  destruct (partial_works find_page fs out k Hpart) as (n&Hn&Ews). rewrite Hfl in Hn.
  destruct (works_start content cmd Hcmd Hiter find_page n Hn) as [Hwl Hws]. fold fs in Hwl, Hws. rewrite <- Ews in Hwl, Hws.
  assert (transfer_inv content (pages content) (slices content) (slice_data content) (recv_start (works_of out))) as Hinv.
  { unfold transfer_inv. cbn [recv_start rs_info ri_result]. apply transfer_start; [done|unfold slices; lia|by rewrite Hwl|done]. }
  eapply (run_inv content (pages content) (slices content) (slice_data content)) in Hrun as [Hs Hlen]; [|done|unfold slices; lia|unfold slices; lia|by apply slice_of_data|exact Hinv|done].
  unfold transfer_inv in Hs. split.
  - intros Hr. rewrite Hr in Hs. by apply Hs.
  - intros Hquiet Hstays Hd Hr. rewrite Hr in Hs. assert (length (rs_works s) = slices content) as Hall.
    { rewrite Hlen. cbn [recv_start rs_works]. rewrite (Hq Hquiet Hstays). rewrite <- (take_ge fs (slices content)) by lia.
      by apply (works_start content cmd Hcmd Hiter find_page (slices content)). }
    destruct (all_done_woken _ _ _ _ s Hs Hall Hd) as [l Hl]. unfold request_step. rewrite Hl, Hr. eexists. split; [done|]. split; [done|].
    assert (count (rs_works s) = slices content) as Hc by (apply (si_succ _ _ _ _ _ Hs); left; apply (si_woken _ _ _ _ _ Hs); by rewrite Hl).
    apply (complete_settled content (pages content) _ (slice_data content)) in Hc as (_&Hf&_); [exact Hf|done|unfold slices; lia|done].
Qed.

(** * What can go wrong *)

Lemma run_cons s op ops s1 : request_step s op = Some s1 -> run s (op :: ops) = run s1 ops.
Proof. intros H. unfold run. cbn [foldl mbind option_bind]. by rewrite H. Qed.

(** Two works side by side, the second of which cannot write. *)
Definition fatal_run (e : positive) : list recv_op :=
  [RunWork 0 (WErr e); RunWork 1 (WErr e); RunWork 0 (WErr e); RunWork 1 (WErr e); RunWork 0 (WBytes (Z.to_nat PAGE_SIZE)); RunWork 1 (WErr e);
   RunWork 0 (WErr e); RunWork 0 (WErr e); Collect].

Lemma fatal_run_returns_0 h0 h1 d0 d1 ws e slice0 slice1 offset1 n n1 : h_ret_code h0 = 0 -> h_ret_code h1 = 0 ->
  h_data_len h0 <> sizeof hmdfs_head_cmd -> h_data_len h1 <> sizeof hmdfs_head_cmd ->
  slice_of d0 = Some (0, slice0, n) -> slice_of d1 = Some (offset1, slice1, n1) -> 1 < n -> length slice0 = Z.to_nat PAGE_SIZE ->
  exists s, run (recv_start (WStart h0 d0 :: WStart h1 d1 :: ws)) (fatal_run e) = Some s /\ ri_result (rs_info s) = Some 0 /\ ri_file (rs_info s) = slice0.
Proof.
  intros Hr0 Hr1 Hl0 Hl1 Hs0 Hs1 Hn Hlen. unfold fatal_run, recv_start.
  set (P := Z.to_nat PAGE_SIZE) in *. set (Z0 := Z.to_nat 0).
  assert (forall h r, h_ret_code h = 0 -> h_data_len h <> sizeof hmdfs_head_cmd -> waiting r = true -> forall d io, slice_work_step r (WStart h d) io = Some (r, WCheck d)) as Hstart.
  { intros h r Hr Hl Hw d io. cbn [slice_work_step]. rewrite Hw, Hr, (proj2 (Z.eqb_neq _ (sizeof _)) Hl). done. }
  assert (u32 (s32 (0 + 1)) = 1) as Hone by done. assert ((n <=? 1) = false) as Hn1 by (by apply Z.leb_gt).
  do 2 (erewrite run_cons; [|cbn -[slice_work_step waiting]; rewrite Hstart by done; reflexivity]).
  do 2 (erewrite run_cons; [|reflexivity]).
  erewrite run_cons; [|cbn -[file_write take P Z.to_nat slice_of]; rewrite Hs0; cbn -[file_write take P Z.to_nat slice_of]; reflexivity].
  erewrite run_cons; [|cbn -[file_write take P Z.to_nat slice_of]; rewrite Hs1; cbn -[file_write take P Z.to_nat slice_of]; reflexivity].
  erewrite run_cons; [|cbn -[file_write take P Z.to_nat wrap swrap]; rewrite Hone, Hn1; reflexivity].
  do 2 (erewrite run_cons; [|reflexivity]).
  eexists. split; [reflexivity|]. split; [done|]. cbn -[file_write take P Z.to_nat slice_of]. rewrite take_ge by lia.
  change (Z.to_nat 0) with 0%nat. unfold file_write. destruct slice0 as [|b slice0]; [done|]. cbn [take app]. by rewrite drop_nil, app_nil_r.
Qed.

(** The file is too long for one slice, the first two works run side by side, and the second one's
    write fails: the first one finds the state no longer FILE_RECV_PROCESS and takes that for the
    end of the transfer. The requester returns 0 with a file of one page. *)
Theorem failed_write_hidden content cmd e :
  length cmd = HEAD_SIZE -> hd_fld cmd "command" = F_ITERATE -> PAGE_SIZE < Z.of_nat (length content) < 2 ^ 32 ->
  exists ops s, run (recv_start (works_of (concat (map (of_frame (fun _ => NoWork)) (map (fun i => frame_of (slice_msg content cmd i)) (seq 0 (slices content))))))) ops = Some s /\
    RunWork 1 (WErr e) ∈ ops /\ ri_result (rs_info s) = Some 0 /\ ri_file (rs_info s) = take (Z.to_nat PAGE_SIZE) content /\ ri_file (rs_info s) <> content.
Proof.
  intros Hcmd Hiter [Hmin Hsize]. pose proof (pages_ceil content Hsize) as Hp. assert (PAGE_SIZE = 4096) as HP by done.
  set (fs := map _ (seq _ _)). destruct (works_start content cmd Hcmd Hiter (fun _ => NoWork) (slices content)) as [Hwl Hws]; [lia|]. fold fs in Hwl, Hws.
  rewrite take_ge in Hwl, Hws by (subst fs; by rewrite length_map, length_seq). set (ws := works_of _) in *.
  destruct ws as [|w0 [|w1 ws']] eqn:Ews; [unfold slices in Hwl; cbn in Hwl; lia..|].
  destruct (Hws 0%nat w0 eq_refl) as (h0&->&Hr0&Hd0). destruct (Hws 1%nat w1 eq_refl) as (h1&->&Hr1&Hd1).
  assert (2 <= slices content)%nat as Hs2 by (unfold slices; lia).
  pose proof (slice_of_data content Hsize 0 ltac:(lia)) as S0. pose proof (slice_of_data content Hsize 1 ltac:(lia)) as S1.
  assert (chunk content 0 = take (Z.to_nat PAGE_SIZE) content) as Hc0 by (unfold chunk; by rewrite Nat.mul_0_r, drop_0).
  assert (length (chunk content 0) = Z.to_nat PAGE_SIZE) as Hl0 by (rewrite Hc0, length_take; lia).
  exists (fatal_run e). destruct (fatal_run_returns_0 h0 h1 (slice_data content 0) (slice_data content 1) ws' e (chunk content 0) (chunk content 1) (PAGE_SIZE * Z.of_nat 1) (pages content) (pages content))
    as (s&Hs&Hres&Hfile); [done..|lia|done|].
  exists s. rewrite Hfile. split_and!; [exact Hs|unfold fatal_run; set_solver|done|done|]. intros H. apply (f_equal length) in H. lia.
Qed.

(** C28: A work reads within the answer's buffer iff the answer holds a descriptor and as many bytes as
    the descriptor says: verification checks neither, only that it is no longer than a slice. *)
Theorem answer_read_in_bounds data : Forall is_byte data -> Z.of_nat (length data) <= sizeof slice_descriptor + PAGE_SIZE -> data <> [] ->
  let h := mk_head C_RESPONSE F_ITERATE (sizeof hmdfs_head_cmd + Z.of_nat (length data)) 0 in
  hmdfs_message_verify (Some h) (Some data) = Some (inr (mk_verified 0 h None)) /\
  (slice_of data <> None <-> sizeof slice_descriptor <= Z.of_nat (length data) /\
    sizeof slice_descriptor + le_dec (sub 12 4 data) <= Z.of_nat (length data)).
Proof.
  intros Hb Hmax Hne h. split; [by apply iterate_answer_verified|]. unfold slice_of, fld. cbn [field_at slice_descriptor String.eqb Ascii.eqb Bool.eqb Nat.add].
  unfold read_le. change (sizeof slice_descriptor) with 16. cbn [Nat.add].
  destruct (decide (16 <= length data)%nat) as [H16|H16].
  - rewrite !decide_True by lia. cbn [mbind option_bind]. destruct (16 + _ <=? _) eqn:E; zb; split; try done; lia.
  - split; [|lia]. intros H. destruct H. repeat (case_decide; cbn [mbind option_bind]; try done).
Qed.

(** The offset of a slice is a product of unsigned ints: the slice at 4 GiB is written over the
    first one. *)
Lemma slice_offset_wraps rest : slice_of (slice_desc (2 ^ 20 + 1) PAGE_SIZE (2 ^ 20) 0 ++ rest) = Some (0, [], 2 ^ 20 + 1).
Proof.
  unfold slice_of, slice_desc.
  rewrite (fld_encode _ _ _ "slice_size" 4 4), (fld_encode _ _ _ "slice_sn" 8 4), (fld_encode _ _ _ "content_size" 12 4), (fld_encode _ _ _ "num_slices" 0 4) by done.
  cbn [mbind option_bind]. rewrite length_app, length_encode. rewrite (proj2 (Z.leb_le _ _)) by (unfold sizeof; change (_ mod _) with 0; lia). done.
Qed.

(** * Witnesses *)

Definition sample_iterate : bytes := put hmdfs_head_cmd "msg_id" 7 (put hmdfs_head_cmd "command" F_ITERATE (replicate HEAD_SIZE 0)).

Lemma dentry_file_transferred_witness :
  exists msgs out s', hmdfs_readfile_response sample_iterate 3 (read_file [1; 2; 3]) (fun _ => 0) true = Some (msgs, 0) /\
    let stream := snd (send_all plain CONNECT_STAT_WORKING (map (fun m => ([], m, Z.of_nat)) msgs)) in
    tcp_recv_thread no_page plain (fun status _ => status) CONNECT_STAT_WORKING [quiet_turn] (mk_sock stream [RecvErr 11]) = Some (out, s') /\
    forall ops s, Forall whole_op ops -> run (recv_start (works_of out)) ops = Some s ->
      (ri_result (rs_info s) = Some 0 -> ri_file (rs_info s) = [1; 2; 3]) /\
      (quiet [RecvErr 11] -> stays [quiet_turn] -> Forall (eq WDone) (rs_works s) -> ri_result (rs_info s) = None ->
       exists s1, request_step s Collect = Some s1 /\ ri_result (rs_info s1) = Some 0 /\ ri_file (rs_info s1) = [1; 2; 3]).
Proof.
  exact (dentry_file_transferred sample_iterate [1; 2; 3] plain no_page plain (fun status _ => status) [RecvErr 11] [quiet_turn] ltac:(by vm_compute) ltac:(by vm_compute)
    ltac:(by vm_compute) (fun _ => eq_refl)).
Defined.

(** Two pages of zeros. *)
Lemma failed_write_hidden_witness : let content := replicate 8192 0 in
  exists ops s, run (recv_start (works_of (concat (map (of_frame (fun _ => NoWork)) (map (fun i => frame_of (slice_msg content sample_iterate i)) (seq 0 (slices content))))))) ops = Some s /\
    RunWork 1 (WErr 28) ∈ ops /\ ri_result (rs_info s) = Some 0 /\ ri_file (rs_info s) = take (Z.to_nat PAGE_SIZE) content /\ ri_file (rs_info s) <> content.
Proof.
  exact (failed_write_hidden (replicate 8192 0) sample_iterate 28 ltac:(by vm_compute) ltac:(by vm_compute) ltac:(vm_compute; split; congruence)).
Defined.

Lemma answer_read_in_bounds_witness : let h := mk_head C_RESPONSE F_ITERATE (sizeof hmdfs_head_cmd + 1) 0 in
  hmdfs_message_verify (Some h) (Some [0]) = Some (inr (mk_verified 0 h None)) /\
  (slice_of [0] <> None <-> sizeof slice_descriptor <= 1 /\ sizeof slice_descriptor + le_dec (sub 12 4 [0]) <= 1).
Proof.
  exact (answer_read_in_bounds [0] ltac:(repeat constructor; lia) ltac:(by vm_compute) ltac:(done)).
Defined.
