(* ===== verification/Reopen.v ===== *)
(** Opening a remote file again (file_remote.c): what users of a file do whose id at the server is
    no longer good, next to each other, and what the server then holds open for them. *)
From stdpp Require Import sets fin_sets gmap.
From S2P Require Import Prelude Idr ShareTable OpenCache ServerFile.

Definition HMDFS_INODE_INVALID_FILE_ID := 2 ^ 31.

(** A file id with its version. *)
Abbreviation hmdfs_fid := (Z * Z)%type.

(** * A server of files *)

(** The ids that a server holds open for a client, and what opening, closing and going offline do to
    them. Opening fails, or makes an id of the server's present version. *)
Class FileServer (S : Type) := {
  srv_held : S -> gset hmdfs_fid;
  srv_ver : S -> Z;
  srv_open : S -> (Z + hmdfs_fid) * S;
  srv_close : S -> hmdfs_fid -> S;
  srv_offline : S -> S
}.

Class FileServerLaws (S : Type) `{FileServer S} := {
  srv_open_err s e s' : srv_open s = (inl e, s') -> e < 0 /\ srv_held s' = srv_held s /\ srv_ver s' = srv_ver s;
  srv_open_fid s fid s' : srv_open s = (inr fid, s') ->
    fid ∉ srv_held s /\ srv_held s' = {[fid]} ∪ srv_held s /\ srv_ver s' = srv_ver s /\ fst fid = srv_ver s /\ snd fid <> HMDFS_INODE_INVALID_FILE_ID;
  srv_close_held s fid : srv_held (srv_close s fid) = srv_held s ∖ {[fid]} /\ srv_ver (srv_close s fid) = srv_ver s;
  srv_offline_held s : srv_held (srv_offline s) = ∅
}.

(** * The client *)

(** Of struct hmdfs_inode_info: the id, the bits HMDFS_FID_NEED_OPEN and HMDFS_FID_OPENING, and
    whether the inode is locked. *)
Record fid_info := mk_fi { fi_fid : hmdfs_fid; fi_need_open : bool; fi_opening : bool; fi_locked : bool }.

(** ___wait_event: a task goes to sleep until the condition holds. None: it sleeps. *)
Definition wait_event (condition : bool) : option Z := if condition then Some 0 else None.

Definition hmdfs_remote_wait_opening_file (info : fid_info) : option Z :=
  if negb (fi_opening info) then Some 0
  else err ← wait_event (fi_opening info); Some (if negb (err =? 0) then - EINTR else err).

(** hmdfs_remote_check_and_reopen and hmdfs_remote_file_reopen, between the accesses to what they
    share. *)
Inductive reopener :=
  | RCheck                          (* about to look whether the file is to be opened again *)
  | REnter                          (* about to take fid_lock *)
  | RCopied (fid : hmdfs_fid)       (* with the id to close, about to lock the inode *)
  | RLocked (fid : hmdfs_fid)
  | RClosed                         (* the old id is closed *)
  | ROpened (err : Z)               (* the answer to the open is in *)
  | RUnlocked (err : Z)
  | RDone (err : Z).

(** What becomes of the messages of a step: whether a close reaches the server, and with what error an
    open is given up, if no answer is waited for any longer. *)
Record net := mk_net { net_close : bool; net_open : option Z }.
Definition calm : net := mk_net true None.

Section Client.
Context {S : Type} `{FileServer S}.

(** hmdfs_send_close does not learn whether the message arrives. An open that is given up fails with
    the error of hmdfs_sendmessage_request, and without one for the missing answer; the server may still
    handle it later. *)
Definition hmdfs_send_close (sv : S) (fid : hmdfs_fid) (m : net) : S := if net_close m then srv_close sv fid else sv.
Definition hmdfs_send_open (sv : S) (m : net) : (Z + hmdfs_fid) * S :=
  match net_open m with
  | None => srv_open sv
  | Some ret => (inl (if ret =? 0 then - ENOENT else ret), sv)
  end.

(** [online]: the connection's status; [same_ino]: the answer to the open is for the inode we know,
    otherwise the new id is closed again (hmdfs_open_final_remote). *)
Definition reopen_step (info : fid_info) (sv : S) (r : reopener) (online same_ino : bool) (m : net) : option (fid_info * S * reopener) :=
  match r with
  | RCheck => Some (info, sv, if negb (fi_need_open info) then RDone 0 else if negb online then RDone (- EAGAIN) else REnter)
  | REnter =>
      err ← hmdfs_remote_wait_opening_file info;
      if negb (err =? 0) || negb (fi_need_open info) then Some (info, sv, RDone err)
      else Some (mk_fi (fi_fid info) (fi_need_open info) true (fi_locked info), sv, RCopied (fi_fid info))
  | RCopied fid =>
      if fi_locked info then None
      else Some (mk_fi (fi_fid info) (fi_need_open info) (fi_opening info) true, sv, RLocked fid)
  | RLocked fid => Some (info, if negb (snd fid =? HMDFS_INODE_INVALID_FILE_ID) then hmdfs_send_close sv fid m else sv, RClosed)
  | RClosed =>
      match hmdfs_send_open sv m with
      | (inl err, sv) => Some (info, sv, ROpened err)
      | (inr fid, sv) =>
          if same_ino then Some (mk_fi fid (fi_need_open info) (fi_opening info) (fi_locked info), sv, ROpened 0)
          else Some (info, hmdfs_send_close sv fid m, ROpened (- ESTALE))
      end
  | ROpened err => Some (mk_fi (fi_fid info) (fi_need_open info) (fi_opening info) false, sv, RUnlocked err)
  | RUnlocked err => Some (mk_fi (fi_fid info) (if err =? 0 then false else fi_need_open info) false (fi_locked info), sv, RDone err)
  | RDone err => Some (info, sv, RDone err)
  end.

(** A user of the file comes, or goes on; an answer of -EBADF marks the file; the peer goes offline
    and marks it; the server handles an open that the client gave up, or a close that was delayed. *)
Inductive reopen_op :=
  | NewUser | StepUser (i : nat) (online same_ino : bool) (m : net) | NeedOpen | PeerOffline | LateOpen | LateClose (fid : hmdfs_fid).
Record reopen_state := mk_rp { rp_info : fid_info; rp_server : S; rp_users : list reopener }.

Definition need_open (info : fid_info) : fid_info := mk_fi (fi_fid info) true (fi_opening info) (fi_locked info).

Definition reopen_op_step (s : reopen_state) (op : reopen_op) : option reopen_state :=
  let 'mk_rp info sv users := s in
  match op with
  | NewUser => Some (mk_rp info sv (users ++ [RCheck]))
  | StepUser i online same_ino m =>
      r ← users !! i;
      '(info, sv, r) ← reopen_step info sv r online same_ino m;
      Some (mk_rp info sv (<[i := r]> users))
  | NeedOpen => Some (mk_rp (need_open info) sv users)
  | PeerOffline => Some (mk_rp (need_open info) (srv_offline sv) users)
  | LateOpen => Some (mk_rp info (snd (srv_open sv)) users)
  | LateClose fid => Some (mk_rp info (srv_close sv fid) users)
  end.

Fixpoint reopen_run (s : reopen_state) (ops : list reopen_op) : option reopen_state :=
  match ops with [] => Some s | op :: ops => s ← reopen_op_step s op; reopen_run s ops end.

(** hmdfs_do_close_remote, when the last user closes the file. *)
Definition hmdfs_do_close_remote (s : reopen_state) (m : net) : reopen_state :=
  mk_rp (rp_info s) (hmdfs_send_close (rp_server s) (fi_fid (rp_info s)) m) (rp_users s).
End Client.

(** * One at a time *)


Section Exclusive.
Context {S : Type} `{FileServerLaws S}.




Lemma wait_never_sleeps info : hmdfs_remote_wait_opening_file info = Some 0.
Proof. unfold hmdfs_remote_wait_opening_file. by destruct (fi_opening info). Qed.









End Exclusive.

(** * Side by side *)

Section Overlap.
Context {S : Type} `{FileServerLaws S}.

Lemma reopen_run_app (s : reopen_state (S := S)) ops ops' : reopen_run s (ops ++ ops') = s ← reopen_run s ops; reopen_run s ops'.
Proof. revert s. induction ops as [|op ops IH]; intros s; [done|]. cbn. destruct (reopen_op_step s op); cbn; [apply IH|done]. Qed.

(** Users [0] to [n - 1] enter, and then each of them goes through. *)
Definition enter_all (n : nat) : list reopen_op := map (fun i => StepUser i true true calm) (seq 0 n).
Definition go_through (i : nat) : list reopen_op := replicate 5 (StepUser i true true calm).
Definition go_through_all (n : nat) : list reopen_op := concat (map go_through (seq 0 n)).

(** How many of them were told that the file is open. *)
Definition opened (users : list reopener) : nat := length (List.filter (fun r => match r with RDone err => err =? 0 | _ => false end) users).

Lemma enter_all_run info (sv : S) n : fi_need_open info = true -> forall m (rest : list unit), (m + length rest = n)%nat ->
  exists opening, reopen_run (mk_rp info sv (replicate m (RCopied (fi_fid info)) ++ replicate (length rest) REnter)) (map (fun i => StepUser i true true calm) (seq m (length rest))) =
    Some (mk_rp (mk_fi (fi_fid info) true opening (fi_locked info)) sv (replicate n (RCopied (fi_fid info)))).
Proof.
  intros Hneed m rest. revert info Hneed m. induction rest as [|u rest IH]; intros info Hneed m Hn; cbn [length seq map reopen_run replicate].
  - exists (fi_opening info). rewrite app_nil_r. replace n with m by (cbn in Hn; lia). destruct info; cbn in *; by subst.
  - cbn [reopen_op_step]. rewrite lookup_app_r by (by rewrite length_replicate). rewrite length_replicate, Nat.sub_diag. cbn [lookup list_lookup mbind option_bind reopen_step].
    rewrite wait_never_sleeps, Hneed. cbn [mbind option_bind negb Z.eqb orb].
    rewrite insert_app_r_alt by (by rewrite length_replicate). rewrite length_replicate, Nat.sub_diag. cbn [insert list_insert].
    specialize (IH (mk_fi (fi_fid info) true true (fi_locked info)) eq_refl (Datatypes.S m)). cbn [fi_fid fi_locked] in IH. destruct IH as [o Ho]; [cbn in Hn; lia|]. exists o.
    rewrite <- Ho. f_equal. f_equal. rewrite replicate_S_end, <- app_assoc. done.
Qed.

(** One of them goes through: it closes the id that it copied, which the server knows no more, and
    opens the file once again. *)
Lemma go_through_run info (sv : S) users i fid : users !! i = Some (RCopied fid) -> fi_locked info = false -> snd fid <> HMDFS_INODE_INVALID_FILE_ID -> fst fid <> srv_ver sv ->
  (forall f, f ∈ srv_held sv -> fst f = srv_ver sv) ->
  exists info' sv' err, reopen_run (mk_rp info sv users) (go_through i) = Some (mk_rp info' sv' (<[i := RDone err]> users)) /\ fi_locked info' = false /\ srv_ver sv' = srv_ver sv /\
    ((err <> 0 /\ srv_held sv' = srv_held sv /\ fi_fid info' = fi_fid info) \/
     (err = 0 /\ fi_fid info' ∉ srv_held sv /\ srv_held sv' = {[fi_fid info']} ∪ srv_held sv /\ fst (fi_fid info') = srv_ver sv)).
Proof.
  intros Hi Hl Hval Hver Hheld. pose proof (lookup_lt_Some _ _ _ Hi) as Hlt. unfold go_through. cbn [replicate reopen_run reopen_op_step].
  rewrite Hi. cbn [mbind option_bind reopen_step hmdfs_send_close hmdfs_send_open net_close net_open calm]. rewrite Hl. cbn [mbind option_bind reopen_op_step]. rewrite list_lookup_insert_eq by done. cbn [mbind option_bind reopen_step hmdfs_send_close hmdfs_send_open net_close net_open calm].
  rewrite (proj2 (Z.eqb_neq _ _) Hval). cbn [negb reopen_op_step hmdfs_send_close net_close calm]. destruct (srv_close_held sv fid) as [Hc1 Hc2]. assert (fid ∉ srv_held sv) as Hfid by (intros Hin; by apply Hver, Hheld).
  rewrite list_insert_insert_eq, list_lookup_insert_eq by done. cbn [mbind option_bind reopen_step hmdfs_send_close hmdfs_send_open net_close net_open calm].
  assert (srv_held (srv_close sv fid) = srv_held sv) as Hsame by (rewrite Hc1; set_solver).
  destruct (srv_open (srv_close sv fid)) as [[err|f] sv1] eqn:E; cbn [mbind option_bind reopen_op_step fi_fid fi_need_open fi_opening fi_locked];
    rewrite list_insert_insert_eq, list_lookup_insert_eq by done; cbn [mbind option_bind reopen_step reopen_op_step fi_fid fi_need_open fi_opening fi_locked];
    rewrite list_insert_insert_eq, list_lookup_insert_eq by done; cbn [mbind option_bind reopen_step fi_fid fi_need_open fi_opening fi_locked]; rewrite list_insert_insert_eq.
  - apply srv_open_err in E as (He&Hh&Hv). eexists _, _, _. split; [reflexivity|]. cbn [fi_locked fi_fid]. split_and!; [done|congruence|]. left. split_and!; [lia|congruence|done].
  - apply srv_open_fid in E as (Hn&Hh&Hv&Hf&_). rewrite Hsame in *. eexists _, _, _. split; [reflexivity|]. cbn [fi_locked fi_fid]. split_and!; [done|congruence|]. right. split_and!; [done|done|done|congruence].
Qed.

Lemma go_through_all_run fid n : snd fid <> HMDFS_INODE_INVALID_FILE_ID -> forall m, (m <= n)%nat -> forall info (sv : S), fi_locked info = false -> fst fid <> srv_ver sv -> srv_held sv = ∅ ->
  exists info' sv' users, reopen_run (mk_rp info sv (replicate n (RCopied fid))) (go_through_all m) = Some (mk_rp info' sv' (users ++ replicate (n - m) (RCopied fid))) /\
    length users = m /\ fi_locked info' = false /\ srv_ver sv' = srv_ver sv /\ size (srv_held sv') = opened users /\
    (forall f, f ∈ srv_held sv' -> fst f = srv_ver sv) /\ (opened users <> 0%nat -> fi_fid info' ∈ srv_held sv').
Proof.
  intros Hval m. induction m as [|m IH]; intros Hm info sv Hl Hver Hempty.
  - exists info, sv, []. rewrite Nat.sub_0_r, Hempty. unfold go_through_all, opened. cbn. split_and!; [done|done|done|done|by apply size_empty|set_solver|done].
  - destruct (IH ltac:(lia) info sv Hl Hver Hempty) as (info1&sv1&users&E&Hlen&Hl1&Hv1&Hsz&Hall&Hin). unfold go_through_all in *. rewrite seq_S, map_app, concat_app, reopen_run_app, E.
    cbn [mbind option_bind Nat.add map concat]. rewrite app_nil_r. set (us := users ++ replicate (n - m) (RCopied fid)).
    assert (us !! m = Some (RCopied fid)) as Hus by (subst us; rewrite lookup_app_r, Hlen, Nat.sub_diag by lia; by destruct (n - m)%nat eqn:?; [lia|]).
    destruct (go_through_run info1 sv1 us m fid Hus Hl1 Hval) as (info2&sv2&err&E2&Hl2&Hv2&Hres); [congruence|by rewrite Hv1|].
    exists info2, sv2, (users ++ [RDone err]). rewrite E2. split.
    { f_equal. f_equal. subst us. rewrite insert_app_r_alt, Hlen, Nat.sub_diag by lia. rewrite <- app_assoc. f_equal. by replace (n - m)%nat with (Datatypes.S (n - Datatypes.S m)) by lia. }
    rewrite length_app. cbn [length]. split; [lia|]. split; [done|]. split; [congruence|]. unfold opened in *. rewrite filter_app, length_app. cbn [List.filter].
    destruct Hres as [(Hne&Hh&Hf)|(->&Hn&Hh&Hf)].
    + rewrite (proj2 (Z.eqb_neq err 0) Hne), Hh, Hf. cbn [length]. split_and!; [lia|done|rewrite Nat.add_0_r; exact Hin].
    + rewrite Hh. cbn [Z.eqb length]. split_and!; [rewrite size_union by set_solver; rewrite size_singleton; lia| |set_solver]. intros f [->%elem_of_singleton|Hff]%elem_of_union; [congruence|by apply Hall].
Qed.

(** After the peer was away, users that ask side by side all enter, for a task only ever waits until
    somebody is opening. Each closes the id from before, which the server has forgotten, and opens
    the file: the server holds one file for every user that was successful, and when the last user
    has closed the file, all of them but one. No message is lost here. *)
Theorem overlapping_reopens_leak info (sv : S) n : fi_need_open info = true -> fi_locked info = false ->
  snd (fi_fid info) <> HMDFS_INODE_INVALID_FILE_ID -> fst (fi_fid info) <> srv_ver sv -> srv_held sv = ∅ ->
  exists s', reopen_run (mk_rp info sv (replicate n REnter)) (enter_all n ++ go_through_all n) = Some s' /\ length (rp_users s') = n /\
    size (srv_held (rp_server s')) = opened (rp_users s') /\ size (srv_held (rp_server (hmdfs_do_close_remote s' calm))) = (opened (rp_users s') - 1)%nat.
Proof.
  intros Hneed Hl Hval Hver Hempty. destruct (enter_all_run info sv n Hneed 0 (replicate n tt)) as [o Ho]; [by rewrite length_replicate|]. rewrite length_replicate in Ho. cbn [replicate app] in Ho.
  rewrite reopen_run_app. unfold enter_all. rewrite Ho. cbn [mbind option_bind].
  destruct (go_through_all_run (fi_fid info) n Hval n (le_n n) (mk_fi (fi_fid info) true o (fi_locked info)) sv Hl Hver Hempty) as (info'&sv'&users&E&Hlen&_&_&Hsz&_&Hin).
  rewrite Nat.sub_diag in E. cbn [replicate] in E. rewrite app_nil_r in E. exists (mk_rp info' sv' users). cbn [rp_users rp_server hmdfs_do_close_remote hmdfs_send_close net_close calm rp_info]. split_and!; [exact E|done|done|].
  destruct (srv_close_held sv' (fi_fid info')) as [-> _]. destruct (opened users) as [|k] eqn:Ek.
  - apply size_empty_inv in Hsz. apply leibniz_equiv in Hsz. rewrite Hsz. replace (∅ ∖ {[fi_fid info']} : gset hmdfs_fid) with (∅ : gset hmdfs_fid) by set_solver. by apply size_empty.
  - rewrite size_difference by (apply singleton_subseteq_l, Hin; lia). rewrite Hsz, size_singleton. lia.
Qed.
End Overlap.

(** * The server of ServerFile *)

(** Its id table and its version keep the promise: an open is an insertion into the table, a close a
    removal for the version, and offline empties the table and moves the version on. *)
Section Server.
Context `{IdrLaws} (boot_cookie file : Z).

#[local] Instance server_table : FileServer server := {|
  srv_ver s := hmdfs_server_pack_fid_ver boot_cookie (sv_cookie s);
  srv_held s := set_map (fun id => (hmdfs_server_pack_fid_ver boot_cookie (sv_cookie s), id)) (dom (sv_idr s));
  srv_open s :=
    let '(id, s') := insert_file_into_conn s true file in
    (if id <? 0 then inl id else inr (hmdfs_server_pack_fid_ver boot_cookie (sv_cookie s), id), s');
  srv_close s fid :=
    match get_file_by_fid_and_ver boot_cookie (sv_cookie s) (fun id => sv_idr s !! id) (snd fid) (fst fid) with
    | inl _ => s
    | inr _ => snd (remove_file_from_conn s (snd fid))
    end;
  srv_offline s := mk_sv (sv_count s) ∅ (sv_next s) (u16 (sv_cookie s + 1)) (sv_share s)
|}.

#[local] Instance server_table_laws : FileServerLaws server.
Proof.
  split; cbn [srv_held srv_ver srv_open srv_close srv_offline server_table].
  - intros s e s'. unfold insert_file_into_conn. cbn [negb]. destruct (idr_alloc_cyclic _ _ _) as [err|id] eqn:E; [apply idr_error in E|apply idr_found in E as [E _]].
    + rewrite (proj2 (Z.ltb_lt _ _)) by done. by intros [= <- <-].
    + by rewrite (proj2 (Z.ltb_ge _ _)) by lia.
  - intros s fid s'. unfold insert_file_into_conn. cbn [negb]. destruct (idr_alloc_cyclic _ _ _) as [err|id] eqn:E; [apply idr_error in E|apply idr_found in E as [E Hnew]].
    + by rewrite (proj2 (Z.ltb_lt _ _)) by done.
    + rewrite (proj2 (Z.ltb_ge _ _)) by lia. intros [= <- <-]. cbn [sv_idr set_idr sv_cookie fst snd]. split_and!; [| |done|done|unfold HMDFS_INODE_INVALID_FILE_ID; unfold INT_MAX in E; lia].
      * rewrite elem_of_map. intros (i&[= <-]&Hi). apply elem_of_dom in Hi as [x Hx]. congruence.
      * rewrite dom_insert_L. by rewrite set_map_union_L, set_map_singleton_L.
  - intros s [ver id]. cbn [fst snd]. unfold get_file_by_fid_and_ver. set (v := hmdfs_server_pack_fid_ver boot_cookie (sv_cookie s)).
    destruct (ver =? v) eqn:Ev; cbn [negb]; zb.
    + subst ver. unfold remove_file_from_conn. destruct (sv_idr s !! id) as [f|] eqn:Ei; cbn [snd].
      * split; [|done]. cbn [sv_idr set_idr sv_cookie]. fold v. rewrite dom_delete_L. apply set_eq. intros [w j]. rewrite elem_of_difference, !elem_of_map, elem_of_singleton. split.
        -- intros (k&[= -> ->]&[Hk Hne]%elem_of_difference). split; [by exists k|]. intros [= ->]. by apply Hne, elem_of_singleton.
        -- intros [(k&[= -> ->]&Hk) Hne]. exists k. split; [done|]. apply elem_of_difference. split; [done|]. intros ->%elem_of_singleton. done.
      * split; [|done]. fold v. apply set_eq. intros [w j]. rewrite elem_of_difference, !elem_of_map, elem_of_singleton. split; [|tauto].
        intros (k&[= -> ->]&Hk). split; [by exists k|]. intros [= ->]. by apply not_elem_of_dom in Ei.
    + split; [|done]. fold v. apply set_eq. intros [w j]. rewrite elem_of_difference, !elem_of_map, elem_of_singleton. split; [|tauto].
      intros (k&[= -> ->]&Hk). split; [by exists k|]. intros [= <- _]. done.
  - intros s. cbn [sv_idr]. by rewrite dom_empty_L, set_map_empty.
Qed.
End Server.

(** * Witnesses *)

Definition table_start : server := mk_sv ∅ ∅ 0 5 hmdfs_init_share_table.
Definition demo_table : FileServer server := @server_table cursor_idr 0 1.
Definition demo_laws : @FileServerLaws server demo_table := @server_table_laws cursor_idr cursor_idr_laws 0 1.

(** The client knows an id of version 4, and the server is at version 5. *)
Definition stale_info : fid_info := mk_fi (4, 0) true false false.


Lemma overlapping_reopens_leak_witness :
  exists s', @reopen_run server demo_table (mk_rp stale_info table_start (replicate 3 REnter)) (enter_all 3 ++ go_through_all 3) = Some s' /\ length (rp_users s') = 3%nat /\
    size (srv_held (FileServer := demo_table) (rp_server s')) = opened (rp_users s') /\
    size (srv_held (FileServer := demo_table) (rp_server (@hmdfs_do_close_remote server demo_table s' calm))) = (opened (rp_users s') - 1)%nat.
Proof. exact (@overlapping_reopens_leak server demo_table demo_laws stale_info table_start 3 eq_refl eq_refl ltac:(done) ltac:(done) ltac:(done)). Defined.
