(* ===== verification/Authority.v ===== *)
(** Who owns what (authority/authentication.c): the permission word of a file or directory, which
    its place in the tree decides, computed when it is made, when it is found without one, and when
    a peer shows it; and the user and group that go with it. *)
From S2P Require Import Prelude.

(** * Permission words *)

Definition OID_ROOT := 0.
Definition OID_SYSTEM := 1000.
Definition OID_USER_DATA_RW := 1008.
Definition OID_DFS_SHARE := 3822.
Definition BASE_USER_RANGE := 200000.

Definition PKG_ROOT_NAME : bytes := [100; 97; 116; 97].                          (* data *)
Definition DFS_SHARE_NAME : bytes := [115; 101; 114; 118; 105; 99; 101; 115].    (* services *)
Definition SYSTEM_NAME : bytes := [115; 121; 115; 116; 101; 109].                (* system *)

(** The level, in the low bits. *)
Definition HMDFS_PERM_MASK := 0x000F.
Definition HMDFS_PERM_MNT := 1.
Definition HMDFS_PERM_DFS := 2.
Definition HMDFS_PERM_PKG := 3.
Definition HMDFS_PERM_OTHER := 4.

(** The type. *)
Definition HMDFS_DIR_TYPE_MASK := 0x00F0.
Definition HMDFS_DIR_ROOT := 0x0010.
Definition HMDFS_DIR_PUBLIC := 0x0020.
Definition HMDFS_DIR_DATA := 0x0030.
Definition HMDFS_DIR_SYSTEM := 0x0040.
Definition HMDFS_DIR_PKG := 0x0050.
Definition HMDFS_DIR_PKG_SUB := 0x00A0.
Definition HMDFS_FILE_PKG_SUB := 0x00B0.
Definition HMDFS_DIR_DEFAULT := 0x00C0.
Definition HMDFS_FILE_DEFAULT := 0x00D0.
Definition HMDFS_DIR_SERVICES := 0x00E0.

(** The authority. *)
Definition AUTH_MASK := 0x0F00.
Definition AUTH_PKG := 0x0100.
Definition AUTH_SYSTEM := 0x0200.
Definition AUTH_SERVICES := 0x0400.
Definition HMDFS_MOUNT_POINT_MASK := 0xF000.
Definition HMDFS_ALL_MASK := Z.lor (Z.lor HMDFS_MOUNT_POINT_MASK AUTH_MASK) (Z.lor HMDFS_DIR_TYPE_MASK HMDFS_PERM_MASK).

Definition is_data_dir (perm : Z) : bool := Z.land perm HMDFS_DIR_TYPE_MASK =? HMDFS_DIR_DATA.
Definition is_service_dir (perm : Z) : bool := Z.land perm HMDFS_DIR_TYPE_MASK =? HMDFS_DIR_SERVICES.
Definition is_pkg_auth (perm : Z) : bool := Z.land perm AUTH_MASK =? AUTH_PKG.
Definition is_service_auth (perm : Z) : bool := Z.land perm AUTH_MASK =? AUTH_SERVICES.

Definition hmdfs_perm_get_next_level (perm : Z) : Z :=
  let level := u16 (Z.land perm HMDFS_PERM_MASK + 1) in
  if level <=? HMDFS_PERM_OTHER then level else HMDFS_PERM_OTHER.

(** * Operations *)

(** The struct inode, as far as it matters here. *)
Record owned_inode := mk_inode { i_perm : Z; i_uid : Z; i_gid : Z; i_mode : Z }.
Definition S_IRWXG := 56.
Definition with_perm (i : owned_inode) (perm : Z) : owned_inode := mk_inode perm (i_uid i) (i_gid i) (i_mode i).
Definition with_owner (i : owned_inode) (uid gid : Z) : owned_inode := mk_inode (i_perm i) uid gid (i_mode i).
Definition with_mode (i : owned_inode) (mode : Z) : owned_inode := mk_inode (i_perm i) (i_uid i) (i_gid i) mode.

(** hmdfs_root_inode_perm_init: the root of a view. *)
Definition hmdfs_root_inode_perm_init (root : owned_inode) : owned_inode :=
  with_owner (with_perm root (Z.lor HMDFS_DIR_ROOT HMDFS_PERM_MNT)) OID_USER_DATA_RW OID_USER_DATA_RW.

(** hmdfs_override_fsids: the user and group that the module takes for work of its own. *)
Definition hmdfs_override_fsids (is_recv_thread : bool) : Z * Z :=
  if is_recv_thread then (OID_SYSTEM, OID_SYSTEM) else (OID_USER_DATA_RW, OID_USER_DATA_RW).

Section Ownership.
(** The user of the mount, and the id that is configured for a bundle, 0 for one that is not. *)
Context (user_id : Z) (get_bid : bytes -> Z).

Definition get_bundle_uid (bname : bytes) : Z := swrap 32 (u32 (user_id * BASE_USER_RANGE + get_bid bname)).

(** The owner of a package's directory. *)
Definition bundle_owner (name : bytes) : Z * Z :=
  let bid := get_bundle_uid name in if negb (bid =? 0) then (u32 bid, u32 bid) else (OID_ROOT, OID_ROOT).

(** hmdfs_override_dir_fsids: the user and group that make a directory, and its permission word.
    The credentials of the caller stay in the case that is not to be reached. *)
Definition hmdfs_override_dir_fsids (cred : Z * Z) (dir : owned_inode) (name : bytes) : (Z * Z) * Z :=
  let level := hmdfs_perm_get_next_level (i_perm dir) in
  if level =? HMDFS_PERM_MNT then ((OID_USER_DATA_RW, OID_USER_DATA_RW), Z.lor (Z.land (i_perm dir) HMDFS_DIR_TYPE_MASK) level)
  else if level =? HMDFS_PERM_DFS then
    if beqb name DFS_SHARE_NAME then ((OID_DFS_SHARE, OID_DFS_SHARE), Z.lor HMDFS_DIR_SERVICES level)
    else ((OID_USER_DATA_RW, OID_USER_DATA_RW), if beqb name PKG_ROOT_NAME then Z.lor HMDFS_DIR_DATA level else Z.lor HMDFS_DIR_PUBLIC level)
  else if level =? HMDFS_PERM_PKG then
    if is_service_dir (i_perm dir) then ((OID_DFS_SHARE, OID_DFS_SHARE), Z.lor (Z.lor AUTH_SERVICES HMDFS_DIR_PKG) level)
    else if is_data_dir (i_perm dir) then (bundle_owner name, Z.lor (Z.lor AUTH_PKG HMDFS_DIR_PKG) level)
    else ((i_uid dir, i_gid dir), Z.lor (Z.lor (Z.land (i_perm dir) AUTH_MASK) HMDFS_DIR_DEFAULT) level)
  else if level =? HMDFS_PERM_OTHER then
    ((i_uid dir, i_gid dir),
     if is_pkg_auth (i_perm dir) then Z.lor (Z.lor AUTH_PKG HMDFS_DIR_PKG_SUB) level
     else Z.lor (Z.lor (Z.land (i_perm dir) AUTH_MASK) HMDFS_DIR_DEFAULT) level)
  else (cred, 0).

Definition hmdfs_override_file_fsids (dir : owned_inode) : (Z * Z) * Z :=
  let level := hmdfs_perm_get_next_level (i_perm dir) in
  ((i_uid dir, i_gid dir),
   if is_pkg_auth (i_perm dir) then Z.lor (Z.lor AUTH_PKG HMDFS_FILE_PKG_SUB) level
   else Z.lor (Z.lor (Z.land (i_perm dir) AUTH_MASK) HMDFS_FILE_DEFAULT) level).

(** __inherit_perm_dir; the inode has a dentry, whose name it is. *)
Definition inherit_perm_dir (parent : owned_inode) (name : bytes) : Z :=
  let level := hmdfs_perm_get_next_level (i_perm parent) in
  if level =? HMDFS_PERM_MNT then Z.lor (Z.land (i_perm parent) HMDFS_DIR_TYPE_MASK) level
  else if level =? HMDFS_PERM_DFS then
    if beqb name DFS_SHARE_NAME then Z.lor HMDFS_DIR_SERVICES level
    else if beqb name PKG_ROOT_NAME then Z.lor HMDFS_DIR_DATA level
    else if beqb name SYSTEM_NAME then Z.lor (Z.lor AUTH_SYSTEM HMDFS_DIR_SYSTEM) level
    else Z.lor HMDFS_DIR_PUBLIC level
  else if level =? HMDFS_PERM_PKG then
    if is_service_dir (i_perm parent) then Z.lor (Z.lor AUTH_SERVICES HMDFS_DIR_PKG) level
    else if is_data_dir (i_perm parent) then Z.lor (Z.lor AUTH_PKG HMDFS_DIR_PKG) level
    else Z.lor (Z.lor (Z.land (i_perm parent) AUTH_MASK) HMDFS_DIR_DEFAULT) level
  else if level =? HMDFS_PERM_OTHER then
    if is_pkg_auth (i_perm parent) then Z.lor (Z.lor AUTH_PKG HMDFS_DIR_PKG_SUB) level
    else Z.lor (Z.lor (Z.land (i_perm parent) AUTH_MASK) HMDFS_DIR_DEFAULT) level
  else 0.

Definition inherit_perm_file (parent : owned_inode) : Z := snd (hmdfs_override_file_fsids parent).

Definition hmdfs_perm_inherit (parent : owned_inode) (name : bytes) (is_dir : bool) : Z :=
  if is_dir then inherit_perm_dir parent name else inherit_perm_file parent.

Definition check_and_fixup_ownership (parent child : owned_inode) (name : bytes) (is_dir : bool) : owned_inode :=
  let child := if i_perm child =? HMDFS_ALL_MASK then with_perm child (hmdfs_perm_inherit parent name is_dir) else child in
  if is_service_dir (i_perm parent) then with_mode child (Z.lor (i_mode child) S_IRWXG) else child.

Definition check_and_fixup_ownership_remote (dir dinode : owned_inode) (name : bytes) : owned_inode :=
  let level := hmdfs_perm_get_next_level (i_perm dir) in
  if level =? HMDFS_PERM_MNT then
    with_perm (with_owner dinode OID_USER_DATA_RW OID_USER_DATA_RW) (Z.lor (Z.land (i_perm dir) HMDFS_DIR_TYPE_MASK) level)
  else if level =? HMDFS_PERM_DFS then
    if beqb name DFS_SHARE_NAME then
      with_perm (with_mode (with_owner dinode OID_DFS_SHARE OID_DFS_SHARE) (Z.lor (i_mode dinode) S_IRWXG)) (Z.lor HMDFS_DIR_SERVICES level)
    else
      with_perm (with_owner dinode OID_USER_DATA_RW OID_USER_DATA_RW)
        (if beqb name PKG_ROOT_NAME then Z.lor HMDFS_DIR_DATA level else Z.lor HMDFS_DIR_PUBLIC level)
  else if level =? HMDFS_PERM_PKG then
    if is_service_dir (i_perm dir) then
      with_perm (with_mode (with_owner dinode OID_DFS_SHARE OID_DFS_SHARE) (Z.lor (i_mode dinode) S_IRWXG))
        (Z.lor (Z.lor AUTH_SERVICES HMDFS_DIR_PKG) level)
    else if is_data_dir (i_perm dir) then
      let '(uid, gid) := bundle_owner name in with_perm (with_owner dinode uid gid) (Z.lor (Z.lor AUTH_PKG HMDFS_DIR_PKG) level)
    else with_perm (with_owner dinode (i_uid dir) (i_gid dir)) (Z.lor (Z.lor (Z.land (i_perm dir) AUTH_MASK) HMDFS_DIR_DEFAULT) level)
  else if level =? HMDFS_PERM_OTHER then
    let dinode := with_owner dinode (i_uid dir) (i_gid dir) in
    if is_service_auth (i_perm dir) then
      with_perm (with_mode dinode (Z.lor (i_mode dir) S_IRWXG)) (Z.lor (Z.lor AUTH_PKG HMDFS_DIR_PKG_SUB) level)
    else
      with_perm dinode
        (if is_pkg_auth (i_perm dir) then Z.lor (Z.lor AUTH_PKG HMDFS_DIR_PKG_SUB) level
         else Z.lor (Z.lor (Z.land (i_perm dir) AUTH_MASK) HMDFS_DIR_DEFAULT) level)
  else with_perm dinode 0.

(** hmdfs_persist_perm and hmdfs_read_perm: the word is stored once; a file without one reads as
    HMDFS_ALL_MASK. None: no attribute. *)
Definition hmdfs_persist_perm (xattr : option Z) (perm : Z) : Z * option Z :=
  match xattr with None => (0, Some perm) | Some _ => (- EEXIST, xattr) end.
Definition hmdfs_read_perm (xattr : option Z) : Z := match xattr with Some perm => perm | None => HMDFS_ALL_MASK end.

(** ** Along a path *)

(** A directory below [dir], made here (and owned by whoever made it), found here without a
    permission word, and shown by a peer. *)
Definition made_dir (cred : Z * Z) (dir : owned_inode) (name : bytes) (mode : Z) : owned_inode :=
  let '(owner, perm) := hmdfs_override_dir_fsids cred dir name in
  let '(_, xattr) := hmdfs_persist_perm None perm in
  check_and_fixup_ownership dir (mk_inode (hmdfs_read_perm xattr) (fst owner) (snd owner) mode) name true.
Definition found_dir (dir : owned_inode) (name : bytes) (uid gid mode : Z) : owned_inode :=
  check_and_fixup_ownership dir (mk_inode (hmdfs_read_perm None) uid gid mode) name true.
(** hmdfs_fill_inode_remote gives it the parent's owner first. *)
Definition shown_dir (dir : owned_inode) (name : bytes) (mode : Z) : owned_inode :=
  check_and_fixup_ownership_remote dir (mk_inode 0 (i_uid dir) (i_gid dir) mode) name.
End Ownership.

(** * What the place decides *)

(** A directory on the way down: its name and mode, and when it is a local one whether it was made
    through this file system or found, with the owner it had then. *)
Record component := mk_comp { c_name : bytes; c_made : bool; c_owner : Z * Z; c_mode : Z }.
Definition path_of (p : list component) : list bytes := map c_name p.

Section Walk.
Context (user_id : Z) (get_bid : bytes -> Z) (cred : Z * Z).

Definition local_step (dir : owned_inode) (c : component) : owned_inode :=
  if c_made c then made_dir user_id get_bid cred dir (c_name c) (c_mode c)
  else found_dir dir (c_name c) (fst (c_owner c)) (snd (c_owner c)) (c_mode c).
Definition remote_step (dir : owned_inode) (c : component) : owned_inode := shown_dir user_id get_bid dir (c_name c) (c_mode c).

Definition local_dir (root : owned_inode) (p : list component) : owned_inode := foldl local_step (hmdfs_root_inode_perm_init root) p.
Definition remote_dir (root : owned_inode) (p : list component) : owned_inode := foldl remote_step (hmdfs_root_inode_perm_init root) p.

(** What the permission word is by place: the services and the data apart, and the system tree when
    its root was found, for it is an ordinary one when its root was made. *)
Definition services_perm (depth : nat) : Z := match depth with 1%nat => 0xE2 | 2%nat => 0x453 | _ => 0x4C4 end.
Definition data_perm (depth : nat) : Z := match depth with 1%nat => 0x32 | 2%nat => 0x153 | _ => 0x1A4 end.
Definition system_perm (depth : nat) : Z := match depth with 1%nat => 0x242 | 2%nat => 0x2C3 | _ => 0x2C4 end.
Definition public_perm (depth : nat) : Z := match depth with 1%nat => 0x22 | 2%nat => 0xC3 | _ => 0xC4 end.

Definition local_perm (p : list component) : Z :=
  match p with
  | [] => 0x11
  | c :: _ =>
      if beqb (c_name c) DFS_SHARE_NAME then services_perm (length p)
      else if beqb (c_name c) PKG_ROOT_NAME then data_perm (length p)
      else if beqb (c_name c) SYSTEM_NAME && negb (c_made c) then system_perm (length p)
      else public_perm (length p)
  end.
Definition remote_perm (p : list component) : Z :=
  match p with
  | [] => 0x11
  | c :: _ =>
      if beqb (c_name c) DFS_SHARE_NAME then if (3 <=? length p)%nat then data_perm (length p) else services_perm (length p)
      else if beqb (c_name c) PKG_ROOT_NAME then data_perm (length p)
      else public_perm (length p)
  end.




(** ** One step down *)

Lemma made_step_perm dir name mode : i_perm (made_dir user_id get_bid cred dir name mode) =
  (if snd (hmdfs_override_dir_fsids user_id get_bid cred dir name) =? HMDFS_ALL_MASK then inherit_perm_dir dir name
   else snd (hmdfs_override_dir_fsids user_id get_bid cred dir name)).
Proof.
  unfold made_dir, check_and_fixup_ownership. destruct (hmdfs_override_dir_fsids _ _ _ _ _) as [o perm]. cbn [hmdfs_persist_perm hmdfs_read_perm i_perm snd hmdfs_perm_inherit].
  by destruct (perm =? HMDFS_ALL_MASK), (is_service_dir (i_perm dir)).
Qed.

(** The word of a directory below one with the word [perm], from its name and how it came to be. *)
Definition next_perm (perm : Z) (c : component) : Z := i_perm (local_step (mk_inode perm 0 0 0) c).
Lemma local_step_perm dir c : i_perm (local_step dir c) = next_perm (i_perm dir) c.
Proof.
  unfold next_perm, local_step. destruct (c_made c); [rewrite !made_step_perm|by unfold found_dir, check_and_fixup_ownership; destruct (_ =? _), (is_service_dir _)].
  unfold hmdfs_override_dir_fsids, inherit_perm_dir. cbn [i_perm]. repeat (case_match; try done).
Qed.

Definition next_shown (perm : Z) (name : bytes) : Z := i_perm (shown_dir user_id get_bid (mk_inode perm 0 0 0) name 0).
Lemma remote_step_perm dir c : i_perm (remote_step dir c) = next_shown (i_perm dir) (c_name c).
Proof.
  unfold next_shown, remote_step, shown_dir, check_and_fixup_ownership_remote. cbn [i_perm i_uid i_gid i_mode]. repeat (case_match; try done).
Qed.

(** ** The words along a path *)

(** The words that stay the same from the third level on. *)
Lemma next_perm_deep c : next_perm 0x453 c = 0x4C4 /\ next_perm 0x4C4 c = 0x4C4 /\ next_perm 0x153 c = 0x1A4 /\ next_perm 0x1A4 c = 0x1A4 /\
  next_perm 0x2C3 c = 0x2C4 /\ next_perm 0x2C4 c = 0x2C4 /\ next_perm 0xC3 c = 0xC4 /\ next_perm 0xC4 c = 0xC4.
Proof. unfold next_perm, local_step. destruct (c_made c); by vm_compute. Qed.

Lemma next_perm_second c : next_perm 0xE2 c = 0x453 /\ next_perm 0x32 c = 0x153 /\ next_perm 0x242 c = 0x2C3 /\ next_perm 0x22 c = 0xC3.
Proof.
  unfold next_perm, local_step. destruct (c_made c); [|by vm_compute].
  rewrite !made_step_perm. unfold hmdfs_override_dir_fsids. cbn [i_perm i_uid i_gid]. split_and!; vm_compute; try done; by destruct (bundle_owner _ _ _).
Qed.

Lemma next_perm_first c : next_perm 0x11 c =
  if beqb (c_name c) DFS_SHARE_NAME then 0xE2 else if beqb (c_name c) PKG_ROOT_NAME then 0x32
  else if beqb (c_name c) SYSTEM_NAME && negb (c_made c) then 0x242 else 0x22.
Proof.
  unfold next_perm, local_step. destruct (c_made c).
  - rewrite made_step_perm. unfold hmdfs_override_dir_fsids. cbn [i_perm]. change (hmdfs_perm_get_next_level 0x11) with HMDFS_PERM_DFS.
    change (HMDFS_PERM_DFS =? HMDFS_PERM_MNT) with false. change (HMDFS_PERM_DFS =? HMDFS_PERM_DFS) with true. cbv iota. rewrite andb_false_r.
    destruct (beqb _ DFS_SHARE_NAME); [done|]. by destruct (beqb _ PKG_ROOT_NAME).
  - rewrite andb_true_r. unfold found_dir, check_and_fixup_ownership. cbn [hmdfs_read_perm i_perm]. change (HMDFS_ALL_MASK =? HMDFS_ALL_MASK) with true.
    change (is_service_dir 0x11) with false. cbn [with_perm i_perm hmdfs_perm_inherit]. unfold inherit_perm_dir. cbn [i_perm]. change (hmdfs_perm_get_next_level 0x11) with HMDFS_PERM_DFS.
    change (HMDFS_PERM_DFS =? HMDFS_PERM_MNT) with false. change (HMDFS_PERM_DFS =? HMDFS_PERM_DFS) with true. cbv iota.
    destruct (beqb _ DFS_SHARE_NAME); [done|]. destruct (beqb _ PKG_ROOT_NAME); [done|]. by destruct (beqb _ SYSTEM_NAME).
Qed.

Lemma local_perm_snoc p c : local_perm (p ++ [c]) = next_perm (local_perm p) c.
Proof.
  destruct p as [|d p]; [by rewrite next_perm_first|]. pose proof (next_perm_deep c) as Hd. pose proof (next_perm_second c) as Hs.
  destruct p as [|d2 [|d3 p]]; cbn [app local_perm length]; rewrite ?length_app; cbn [length Nat.add services_perm data_perm system_perm public_perm];
    rewrite ?Nat.add_1_r; destruct (beqb (c_name d) DFS_SHARE_NAME), (beqb (c_name d) PKG_ROOT_NAME), (beqb (c_name d) SYSTEM_NAME && negb (c_made d)); symmetry; tauto.
Qed.

Lemma local_dir_perm root p : i_perm (local_dir root p) = local_perm p.
Proof.
  unfold local_dir. induction p as [|c p IH] using rev_ind; [done|]. rewrite foldl_snoc, local_step_perm, IH. symmetry. apply local_perm_snoc.
Qed.

Lemma next_shown_deep name : next_shown 0x453 name = 0x1A4 /\ next_shown 0x153 name = 0x1A4 /\ next_shown 0x1A4 name = 0x1A4 /\
  next_shown 0xC3 name = 0xC4 /\ next_shown 0xC4 name = 0xC4.
Proof. by vm_compute. Qed.

Lemma next_shown_second name : next_shown 0xE2 name = 0x453 /\ next_shown 0x32 name = 0x153 /\ next_shown 0x22 name = 0xC3.
Proof.
  unfold next_shown, shown_dir. split_and!; [by vm_compute| |by vm_compute]. unfold check_and_fixup_ownership_remote. cbn [i_perm i_uid i_gid i_mode].
  change (hmdfs_perm_get_next_level 0x32) with HMDFS_PERM_PKG. change (is_service_dir 0x32) with false. change (is_data_dir 0x32) with true.
  change (HMDFS_PERM_PKG =? HMDFS_PERM_MNT) with false. change (HMDFS_PERM_PKG =? HMDFS_PERM_DFS) with false. change (HMDFS_PERM_PKG =? HMDFS_PERM_PKG) with true.
  cbv iota. by destruct (bundle_owner _ _ _).
Qed.

Lemma next_shown_first name : next_shown 0x11 name = if beqb name DFS_SHARE_NAME then 0xE2 else if beqb name PKG_ROOT_NAME then 0x32 else 0x22.
Proof.
  unfold next_shown, shown_dir, check_and_fixup_ownership_remote. cbn [i_perm i_uid i_gid i_mode]. change (hmdfs_perm_get_next_level 0x11) with HMDFS_PERM_DFS.
  change (HMDFS_PERM_DFS =? HMDFS_PERM_MNT) with false. change (HMDFS_PERM_DFS =? HMDFS_PERM_DFS) with true. cbv iota.
  destruct (beqb _ DFS_SHARE_NAME); [done|]. by destruct (beqb _ PKG_ROOT_NAME).
Qed.

Lemma remote_perm_snoc p c : remote_perm (p ++ [c]) = next_shown (remote_perm p) (c_name c).
Proof.
  destruct p as [|d p]; [by rewrite next_shown_first|]. pose proof (next_shown_deep (c_name c)) as Hd. pose proof (next_shown_second (c_name c)) as Hs.
  destruct p as [|d2 [|d3 p]]; cbn [app remote_perm length]; rewrite ?length_app; cbn [length Nat.add Nat.leb services_perm data_perm public_perm];
    rewrite ?Nat.add_1_r; cbn [Nat.leb]; destruct (beqb (c_name d) DFS_SHARE_NAME), (beqb (c_name d) PKG_ROOT_NAME); symmetry; tauto.
Qed.

Lemma remote_dir_perm root p : i_perm (remote_dir root p) = remote_perm p.
Proof.
  unfold remote_dir. induction p as [|c p IH] using rev_ind; [done|]. rewrite foldl_snoc, remote_step_perm, IH. symmetry. apply remote_perm_snoc.
Qed.

(** ** The owners along a path *)

Definition owner (i : owned_inode) : Z * Z := (i_uid i, i_gid i).












(** A peer is shown the word that the directory has where it is made, unless it lies at least three
    levels down in "services"; and a directory found without a word gets the one it would have been
    made with, unless it lies in "system". *)
Theorem views_agree_iff root p q : p <> [] -> path_of p = path_of q -> Forall (fun c => c_made c = true) p -> Forall (fun c => c_made c = false) q ->
  (i_perm (local_dir root p) = i_perm (remote_dir root p) <-> ~ (exists top rest, path_of p = top :: rest /\ beqb top DFS_SHARE_NAME = true /\ (2 <= length rest)%nat)) /\
  (i_perm (local_dir root p) = i_perm (local_dir root q) <-> ~ (exists top rest, path_of p = top :: rest /\ beqb top SYSTEM_NAME = true)).
Proof.
  intros Hne Hpq Hp Hq. rewrite !local_dir_perm, remote_dir_perm.
  destruct p as [|c p]; [done|]. destruct q as [|d q]; [done|]. unfold path_of in *. cbn [map] in *. injection Hpq as Hcd Hrest.
  assert (length p = length q) as Hlen by (apply (f_equal length) in Hrest; by rewrite !length_map in Hrest).
  pose proof (Forall_inv Hp) as Hc. pose proof (Forall_inv Hq) as Hd. unfold local_perm, remote_perm. rewrite <- Hcd, Hc, Hd. cbn [negb length]. rewrite andb_false_r, andb_true_r, <- Hlen.
  split.
  - assert ((exists top rest, c_name c :: map c_name p = top :: rest /\ beqb top DFS_SHARE_NAME = true /\ (2 <= length rest)%nat) <->
      beqb (c_name c) DFS_SHARE_NAME = true /\ (2 <= length p)%nat) as ->.
    { split; [intros (top&rest&[= <- <-]&H); by rewrite length_map in H|]. intros [H1 H2]. exists (c_name c), (map c_name p). by rewrite length_map. }
    destruct (beqb _ DFS_SHARE_NAME); [|split; [by intros _ [? _]|by destruct (beqb _ PKG_ROOT_NAME)]].
    destruct p as [|p1 [|p2 p]]; cbn; split; try done; try lia; intros H; destruct H; split; done || lia.
  - assert ((exists top rest, c_name c :: map c_name p = top :: rest /\ beqb top SYSTEM_NAME = true) <-> beqb (c_name c) SYSTEM_NAME = true) as ->.
    { split; [by intros (top&rest&[= <- <-]&H)|]. intros H. by exists (c_name c), (map c_name p). }
    destruct (beqb (c_name c) SYSTEM_NAME) eqn:E.
    + apply beqb_eq in E. rewrite E. split; [|done]. by destruct p as [|p1 [|p2 p]].
    + split; [done|]. by destruct (beqb (c_name c) DFS_SHARE_NAME), (beqb (c_name c) PKG_ROOT_NAME).
Qed.
End Walk.

(** A bundle that is not configured is owned by root only in a mount of user 0: otherwise the sum of
    user and bundle is not 0, and the directory belongs to the user's first id. *)
Lemma unknown_bundle_owner user_id get_bid name : get_bid name = 0 -> 0 < user_id < 2 ^ 26 ->
  bundle_owner user_id get_bid name = (u32 (user_id * BASE_USER_RANGE), u32 (user_id * BASE_USER_RANGE)) /\ bundle_owner user_id get_bid name <> (OID_ROOT, OID_ROOT).
Proof.
  intros Hb Hu. unfold bundle_owner, get_bundle_uid. rewrite Hb, Z.add_0_r. set (x := user_id * BASE_USER_RANGE).
  assert (u32 x <> 0) as Hx.
  { unfold wrap. intros H. apply Z.mod_divide in H as [k Hk]; [|done]. subst x. unfold BASE_USER_RANGE in Hk. lia. }
  assert (u32 (swrap 32 (u32 x)) = u32 x) as Hs.
  { pose proof (wrap_range 32 x ltac:(lia)) as Hr. unfold swrap, wrap in *. rewrite (Z.mod_small (x mod 2 ^ 32)) by done. split_if; [by apply Z.mod_small|].
    rewrite <- (Z_mod_plus_full _ 1). replace (x mod 2 ^ 32 - 2 ^ 32 + 1 * 2 ^ 32) with (x mod 2 ^ 32) by lia. by apply Z.mod_small. }
  assert (swrap 32 (u32 x) <> 0) as Hne by (intros H; rewrite H in Hs; by apply Hx).
  rewrite (proj2 (Z.eqb_neq _ 0) Hne). cbn [negb]. rewrite Hs. split; [done|]. intros [= H _]. done.
Qed.

(** * Witnesses *)

Definition named (name : bytes) (is_made : bool) : component := mk_comp name is_made (OID_ROOT, OID_ROOT) 0.


Lemma views_agree_iff_witness :
  let root := mk_inode 0 0 0 0 in let a := [97] in let b := [98] in
  let p := [named DFS_SHARE_NAME true; named a true; named b true] in let q := [named DFS_SHARE_NAME false; named a false; named b false] in
  (i_perm (local_dir 100 (fun _ => 0) (0, 0) root p) = i_perm (remote_dir 100 (fun _ => 0) root p) <->
    ~ (exists top rest, path_of p = top :: rest /\ beqb top DFS_SHARE_NAME = true /\ (2 <= length rest)%nat)) /\
  (i_perm (local_dir 100 (fun _ => 0) (0, 0) root p) = i_perm (local_dir 100 (fun _ => 0) (0, 0) root q) <->
    ~ (exists top rest, path_of p = top :: rest /\ beqb top SYSTEM_NAME = true)).
Proof. intros root a b p q. apply views_agree_iff; [done|done|by repeat constructor|by repeat constructor]. Defined.
