(* ===== verification/Bundles.v ===== *)
(** The ids of bundles (authority/config.c): a hash table from the name of a bundle to its id,
    written through configfs, and another one to its debug type. *)
From S2P Require Import Prelude.

(** struct hmdfs_bid_entry, with the name's hash. *)
Record hmdfs_bid_entry := mk_bid { be_name : bytes; be_hash : Z; be_id : Z }.

(** The chains of a table that are not empty, the newest entry first. *)
Abbreviation hash_table := (gmap Z (list hmdfs_bid_entry)).

Section Table.
(** The kernel's name hash and the chain it selects. *)
Context (init_name_hash : Z) (partial_name_hash : Z -> Z -> Z) (end_name_hash : Z -> Z) (hash_min : Z -> Z).

Definition make_hash (name : bytes) : Z := end_name_hash (foldl (fun hash c => partial_name_hash (tolower c) hash) init_name_hash name).

Definition chain (t : hash_table) (name : bytes) : list hmdfs_bid_entry := default [] (t !! hash_min (make_hash name)).
Definition set_chain (t : hash_table) (name : bytes) (l : list hmdfs_bid_entry) : hash_table := <[hash_min (make_hash name) := l]> t.
(** qstr_case_eq with the name of an entry. *)
Definition is_for (name : bytes) (e : hmdfs_bid_entry) : bool := case_eqb name (be_name e).

Definition query_hash_entry (t : hash_table) (name : bytes) : Z :=
  match List.find (is_for name) (chain t name) with Some e => be_id e | None => 0 end.

(** [bid_entry->id = id] for the first entry of the name; None when there is none. *)
Fixpoint update_entry (name : bytes) (id : Z) (l : list hmdfs_bid_entry) : option (list hmdfs_bid_entry) :=
  match l with
  | [] => None
  | e :: l => if is_for name e then Some (mk_bid (be_name e) (be_hash e) id :: l) else l ← update_entry name id l; Some (e :: l)
  end.
Fixpoint delete_entry (name : bytes) (l : list hmdfs_bid_entry) : list hmdfs_bid_entry :=
  match l with [] => [] | e :: l => if is_for name e then l else e :: delete_entry name l end.

(** The two parts of insert_hash_entry: what it does under the mutex, and when it found nothing,
    after it. [mem]: whether there is memory for an entry. *)
Definition insert_update (t : hash_table) (name : bytes) (id : Z) : option hash_table :=
  l ← update_entry name id (chain t name); Some (set_chain t name l).
Definition insert_add (t : hash_table) (name : bytes) (id : Z) (mem : bool) : Z * hash_table :=
  if negb mem then (- ENOMEM, t) else (0, set_chain t name (mk_bid name (make_hash name) id :: chain t name)).
Definition insert_hash_entry (t : hash_table) (name : bytes) (id : Z) (mem : bool) : Z * hash_table :=
  match insert_update t name id with Some t => (0, t) | None => insert_add t name id mem end.

Definition remove_hash_entry (t : hash_table) (name : bytes) : hash_table := set_chain t name (delete_entry name (chain t name)).
Definition clear_hash_entry (t : hash_table) : hash_table := ∅.

(** * The module *)

Record bundles := mk_bundles { appid : hash_table; debug_type : hash_table }.
Inductive attribute := Appid | DebugType.
Definition table (b : bundles) (a : attribute) : hash_table := match a with Appid => appid b | DebugType => debug_type b end.
Definition set_table (b : bundles) (a : attribute) (t : hash_table) : bundles :=
  match a with Appid => mk_bundles t (debug_type b) | DebugType => mk_bundles (appid b) t end.

(** hmdfs_appid_get and hmdfs_debug_type_get. *)
Definition get_bid (b : bundles) (bname : bytes) : Z := query_hash_entry (appid b) bname.
Definition get_debug_type (b : bundles) (bname : bytes) : Z := query_hash_entry (debug_type b) bname.

(** A write to an attribute of a bundle's item, with what kstrtouint makes of it; the number of
    bytes that were taken, or an error. *)
Definition hmdfs_store (b : bundles) (a : attribute) (name : bytes) (count : Z) (parsed : option Z) (mem : bool) : Z * bundles :=
  match parsed with
  | None => (- EINVAL, b)
  | Some id => let '(err, t) := insert_hash_entry (table b a) name (swrap 32 id) mem in (if err =? 0 then count else err, set_table b a t)
  end.

(** The item of a bundle goes away: each table is told twice. *)
Definition hmdfs_config_bitem_release (b : bundles) (name : bytes) : bundles :=
  mk_bundles (remove_hash_entry (remove_hash_entry (appid b) name) name) (remove_hash_entry (remove_hash_entry (debug_type b) name) name).

(** hmdfs_exit_configfs. *)
Definition hmdfs_exit_configfs (b : bundles) : bundles := mk_bundles (clear_hash_entry (appid b)) (clear_hash_entry (debug_type b)).

(** ** Stores that overlap *)

(** Several stores of ids for a bundle each find nothing, and then each add their entry, in the
    order of the list. *)
Definition overlapping_stores (t : hash_table) (name : bytes) (ids : list Z) : hash_table :=
  foldl (fun t id => snd (insert_add t name id true)) t ids.

(** * The ids of a name *)

(** The ids under a name, the newest first. *)
Definition ids_of (t : hash_table) (name : bytes) : list Z := map be_id (List.filter (is_for name) (chain t name)).

Lemma make_hash_key name name' : map tolower name = map tolower name' -> make_hash name = make_hash name'.
Proof.
  unfold make_hash. intros H. f_equal. revert name' H. generalize init_name_hash. induction name as [|c name IH]; intros h [|c' name'] H; try done.
  cbn [map] in H. injection H as Hc H. cbn [foldl]. rewrite Hc. by apply IH.
Qed.

Lemma is_for_key name name' e : map tolower name = map tolower name' -> is_for name e = is_for name' e.
Proof. unfold is_for, case_eqb. by intros ->. Qed.

Lemma is_for_other name name' e : map tolower name <> map tolower name' -> is_for name e = true -> is_for name' e = false.
Proof. unfold is_for. intros Hne H. apply not_true_is_false. intros H'. apply case_eqb_iff in H, H'. congruence. Qed.

Lemma filter_key name name' l : map tolower name = map tolower name' -> List.filter (is_for name) l = List.filter (is_for name') l.
Proof. intros H. apply filter_ext. intros e. by apply is_for_key. Qed.

Lemma ids_of_key t name name' : map tolower name = map tolower name' -> ids_of t name = ids_of t name'.
Proof. intros H. unfold ids_of, chain. rewrite (make_hash_key name name' H). f_equal. by apply filter_key. Qed.

(** A new chain for [name] that treats the entries of other names as the old one does. *)
Lemma ids_of_set t name l name' : (map tolower name <> map tolower name' -> map be_id (List.filter (is_for name') l) = map be_id (List.filter (is_for name') (chain t name))) ->
  ids_of (set_chain t name l) name' = if decide (map tolower name = map tolower name') then map be_id (List.filter (is_for name) l) else ids_of t name'.
Proof.
  intros H. unfold ids_of, set_chain. case_decide as Hk.
  - rewrite <- (filter_key name name') by done. unfold chain. by rewrite <- (make_hash_key name name' Hk), lookup_insert_eq.
  - unfold chain in *. destruct (decide (hash_min (make_hash name) = hash_min (make_hash name'))) as [E|E].
    + rewrite <- E, lookup_insert_eq. by apply H.
    + by rewrite lookup_insert_ne.
Qed.

Lemma query_ids t name : query_hash_entry t name = hd 0 (ids_of t name).
Proof.
  unfold query_hash_entry, ids_of. induction (chain t name) as [|e l IH]; [done|]. cbn. by destruct (is_for name e).
Qed.

Lemma update_entry_ids name id l : match update_entry name id l with
  | Some l' => exists i ids, map be_id (List.filter (is_for name) l) = i :: ids /\ map be_id (List.filter (is_for name) l') = id :: ids /\
      forall name', map tolower name <> map tolower name' -> map be_id (List.filter (is_for name') l') = map be_id (List.filter (is_for name') l)
  | None => List.filter (is_for name) l = [] end.
Proof.
  induction l as [|e l IH]; [done|]. cbn [update_entry List.filter]. destruct (is_for name e) eqn:E.
  - exists (be_id e), (map be_id (List.filter (is_for name) l)). split; [done|]. assert (forall n, is_for n (mk_bid (be_name e) (be_hash e) id) = is_for n e) as Hsame by done.
    split; [cbn; by rewrite Hsame, E|]. intros name' Hne. cbn. by rewrite Hsame, (is_for_other _ _ _ Hne E).
  - destruct (update_entry name id l) as [l'|]; cbn [mbind option_bind]; [|done]. destruct IH as (i&ids&H1&H2&H3). exists i, ids. cbn. rewrite E. split_and!; [done|done|].
    intros name' Hne. destruct (is_for name' e); cbn; by rewrite H3.
Qed.

Lemma delete_entry_ids name l : map be_id (List.filter (is_for name) (delete_entry name l)) = tl (map be_id (List.filter (is_for name) l)) /\
  forall name', map tolower name <> map tolower name' -> map be_id (List.filter (is_for name') (delete_entry name l)) = map be_id (List.filter (is_for name') l).
Proof.
  induction l as [|e l [IH1 IH2]]; [done|]. cbn [delete_entry List.filter]. destruct (is_for name e) eqn:E.
  - split; [done|]. intros name' Hne. by rewrite (is_for_other _ _ _ Hne E).
  - split; [cbn; by rewrite E|]. intros name' Hne. cbn. destruct (is_for name' e); cbn; by rewrite IH2.
Qed.

Lemma insert_add_ids t name id name' : ids_of (snd (insert_add t name id true)) name' =
  if decide (map tolower name = map tolower name') then id :: ids_of t name else ids_of t name'.
Proof.
  unfold insert_add. cbn [negb snd]. assert (is_for name (mk_bid name (make_hash name) id) = true) as Hself by apply case_eqb_refl.
  rewrite ids_of_set; [|intros Hne; cbn; by rewrite (is_for_other name name' _ Hne Hself)]. case_decide; [|done]. cbn. by rewrite Hself.
Qed.

Lemma remove_ids t name name' : ids_of (remove_hash_entry t name) name' =
  if decide (map tolower name = map tolower name') then tl (ids_of t name) else ids_of t name'.
Proof.
  unfold remove_hash_entry. destruct (delete_entry_ids name (chain t name)) as [H1 H2]. rewrite ids_of_set by (apply H2). case_decide; [|done]. by rewrite H1.
Qed.

Lemma insert_ids t name id mem : let '(err, t') := insert_hash_entry t name id mem in
  match ids_of t name with
  | _ :: ids => err = 0 /\ forall name', ids_of t' name' = if decide (map tolower name = map tolower name') then id :: ids else ids_of t name'
  | [] => if mem then err = 0 /\ forall name', ids_of t' name' = if decide (map tolower name = map tolower name') then [id] else ids_of t name'
          else err = - ENOMEM /\ t' = t
  end.
Proof.
  unfold insert_hash_entry, insert_update. pose proof (update_entry_ids name id (chain t name)) as H. unfold ids_of at 1.
  destruct (update_entry name id (chain t name)) as [l|]; cbn [mbind option_bind].
  - destruct H as (i&ids&H1&H2&H3). rewrite H1. split; [done|]. intros name'. rewrite ids_of_set by (apply H3). case_decide; [done|done].
  - rewrite H. cbn [map]. destruct mem; [|done]. split; [done|]. intros name'. pose proof (insert_add_ids t name id name') as Ha. unfold insert_add in *. cbn [negb snd] in *. rewrite Ha.
    unfold ids_of at 1. by rewrite H.
Qed.
End Table.

(** * What the tables promise *)

(** An id per name, whatever its case, for each attribute. *)
Definition spec : Type := attribute -> gmap bytes Z.
Definition key (name : bytes) : bytes := map tolower name.
Inductive bundle_op := Store (a : attribute) (name : bytes) (count : Z) (parsed : option Z) (mem : bool) | Release (name : bytes).
#[export] Instance attribute_eq : EqDecision attribute. Proof. solve_decision. Defined.

(** A store that has no number, or no memory for a new name, changes nothing. *)
Definition spec_step (s : spec) (op : bundle_op) : Z * spec :=
  match op with
  | Store a name count parsed mem =>
      match parsed with
      | None => (- EINVAL, s)
      | Some id =>
          if bool_decide (is_Some (s a !! key name)) || mem then (count, fun b => if decide (a = b) then <[key name := swrap 32 id]> (s b) else s b)
          else (- ENOMEM, s)
      end
  | Release name => (0, fun b => delete (key name) (s b))
  end.

Section Promise.
Context (init_name_hash : Z) (partial_name_hash : Z -> Z -> Z) (end_name_hash : Z -> Z) (hash_min : Z -> Z).
#[local] Notation ids := (ids_of init_name_hash partial_name_hash end_name_hash hash_min).

Definition bundle_step (b : bundles) (op : bundle_op) : Z * bundles :=
  match op with
  | Store a name count parsed mem => hmdfs_store init_name_hash partial_name_hash end_name_hash hash_min b a name count parsed mem
  | Release name => (0, hmdfs_config_bitem_release init_name_hash partial_name_hash end_name_hash hash_min b name)
  end.

(** The results of a sequence of operations and the state it leaves. *)
Fixpoint run_with {S : Type} (step : S -> bundle_op -> Z * S) (s : S) (ops : list bundle_op) : list Z * S :=
  match ops with
  | [] => ([], s)
  | op :: ops => let '(ret, s) := step s op in let '(rets, s) := run_with step s ops in (ret :: rets, s)
  end.

(** One entry for a name that the specification has, and none for another. *)
Definition refines (b : bundles) (s : spec) : Prop :=
  forall a name, ids (table b a) name = match s a !! key name with Some id => [id] | None => [] end.

Lemma table_set b a t a' : table (set_table b a t) a' = if decide (a = a') then t else table b a'.
Proof. by destruct a, a'. Qed.

(** The table of one attribute with other ids for a name. *)
Lemma refines_set b s a name t v : refines b s ->
  (forall name', ids t name' = if decide (key name = key name') then [v] else ids (table b a) name') ->
  refines (set_table b a t) (fun a' => if decide (a = a') then <[key name := v]> (s a') else s a').
Proof.
  intros Hr Ht a' name'. rewrite table_set. destruct (decide (a = a')) as [<-|Hne]; [|apply Hr].
  rewrite Ht. destruct (decide (key name = key name')) as [->|Hne]; [by rewrite lookup_insert_eq|]. rewrite lookup_insert_ne by done. apply Hr.
Qed.

Lemma step_refines b s op : refines b s -> fst (bundle_step b op) = fst (spec_step s op) /\ refines (snd (bundle_step b op)) (snd (spec_step s op)).
Proof.
  intros Hr. destruct op as [a name count [id|] mem|name]; cbn [bundle_step spec_step]; [|done|].
  - unfold hmdfs_store. pose proof (insert_ids init_name_hash partial_name_hash end_name_hash hash_min (table b a) name (swrap 32 id) mem) as Hi.
    destruct (insert_hash_entry _ _ _ _ _ _ _ _) as [err t]. rewrite (Hr a name) in Hi. destruct (s a !! key name) as [old|] eqn:E.
    + destruct Hi as [-> Ht]. rewrite bool_decide_true by done. split; [done|]. by apply refines_set.
    + rewrite bool_decide_false by (intros [? ?]; done). destruct mem; cbn [orb].
      * destruct Hi as [-> Ht]. split; [done|]. by apply refines_set.
      * destruct Hi as [-> ->]. split; [done|]. cbn [snd]. by destruct b, a.
  - split; [done|]. intros a name'. cbn [snd]. unfold hmdfs_config_bitem_release.
    assert (forall t, ids t name = match s a !! key name with Some id => [id] | None => [] end ->
      ids (remove_hash_entry init_name_hash partial_name_hash end_name_hash hash_min (remove_hash_entry init_name_hash partial_name_hash end_name_hash hash_min t name) name) name' =
      if decide (key name = key name') then [] else ids t name') as Hrm.
    { intros t Ht. rewrite !remove_ids. unfold key in *. case_decide as Hk; [|done]. rewrite decide_True by done. rewrite Ht. by destruct (s a !! _). }
    assert (ids (table (mk_bundles (remove_hash_entry init_name_hash partial_name_hash end_name_hash hash_min (remove_hash_entry init_name_hash partial_name_hash end_name_hash hash_min (appid b) name) name)
      (remove_hash_entry init_name_hash partial_name_hash end_name_hash hash_min (remove_hash_entry init_name_hash partial_name_hash end_name_hash hash_min (debug_type b) name) name)) a) name' =
      if decide (key name = key name') then [] else ids (table b a) name') as ->.
    { specialize (Hr a name). destruct a; by apply Hrm. }
    case_decide as Hk; [by rewrite Hk, lookup_delete_eq|]. rewrite lookup_delete_ne by done. apply Hr.
Qed.

(** C30: Whatever is stored and released, in any order but not at the same time, the tables are maps
    from the names, whatever their case, to ids: every operation has the result that it has on the
    maps, and afterwards both lookups find the id of every name, and 0 for a name without one. *)
Theorem bundle_tables_refine ops :
  let '(rets, b) := run_with bundle_step (mk_bundles ∅ ∅) ops in
  let '(rets', s) := run_with spec_step (fun _ => ∅) ops in
  rets = rets' /\ forall name,
    get_bid init_name_hash partial_name_hash end_name_hash hash_min b name = default 0 (s Appid !! key name) /\
    get_debug_type init_name_hash partial_name_hash end_name_hash hash_min b name = default 0 (s DebugType !! key name).
Proof.
  assert (forall b s, refines b s -> forall name,
    get_bid init_name_hash partial_name_hash end_name_hash hash_min b name = default 0 (s Appid !! key name) /\
    get_debug_type init_name_hash partial_name_hash end_name_hash hash_min b name = default 0 (s DebugType !! key name)) as Hget.
  { intros b s Hr name. unfold get_bid, get_debug_type. rewrite !query_ids. change (appid b) with (table b Appid). change (debug_type b) with (table b DebugType).
    rewrite !Hr. by destruct (s Appid !! _), (s DebugType !! _). }
  assert (refines (mk_bundles ∅ ∅) (fun _ => ∅)) as Hr by (intros a name; unfold ids_of, chain; destruct a; cbn [table]; by rewrite !lookup_empty).
  revert Hr. generalize (mk_bundles ∅ ∅) as b, (fun _ : attribute => ∅ : gmap bytes Z) as s.
  induction ops as [|op ops IH]; intros b s Hr; cbn [run_with]; [split; [done|by apply Hget]|].
  destruct (step_refines b s op Hr) as [Hret Hr']. destruct (bundle_step b op) as [ret b1], (spec_step s op) as [ret' s1]. cbn [fst snd] in *.
  specialize (IH b1 s1 Hr'). destruct (run_with bundle_step b1 ops) as [rets b2], (run_with spec_step s1 ops) as [rets' s2].
  destruct IH as [-> IH]. split; [by rewrite Hret|done].
Qed.

(** Stores for one bundle that overlap each add an entry, and the release of the bundle removes two:
    from the third on an id stays behind, and it is the one of the next bundle of that name. *)
Theorem overlapping_stores_survive_release b name l :
  ids (appid b) name = [] ->
  let b1 := mk_bundles (overlapping_stores init_name_hash partial_name_hash end_name_hash hash_min (appid b) name l) (debug_type b) in
  get_bid init_name_hash partial_name_hash end_name_hash hash_min b1 name = hd 0 (rev l) /\
  get_bid init_name_hash partial_name_hash end_name_hash hash_min
    (hmdfs_config_bitem_release init_name_hash partial_name_hash end_name_hash hash_min b1 name) name = match rev l with _ :: _ :: id :: _ => id | _ => 0 end.
Proof.
  intros He b1. assert (forall t, ids (overlapping_stores init_name_hash partial_name_hash end_name_hash hash_min t name l) name = rev l ++ ids t name) as Hids.
  { clear. unfold overlapping_stores. induction l as [|id l IH]; intros t; [done|]. cbn [foldl rev]. rewrite IH, insert_add_ids, decide_True by done. by rewrite <- app_assoc. }
  unfold get_bid, hmdfs_config_bitem_release. cbn [appid b1]. rewrite !query_ids, !remove_ids, !decide_True, Hids, He, app_nil_r by done.
  split; [done|]. by destruct (rev l) as [|i1 [|i2 [|i3 ids]]].
Qed.
End Promise.

(** * Witness *)

(** Two bundles and a release, with a hash that has one chain. *)
Lemma overlapping_stores_survive_release_witness :
  let hash := fun c h : Z => 0 in let name := [99; 111; 109] in
  let b1 := mk_bundles (overlapping_stores 0 hash id id ∅ name [7; 8; 9]) ∅ in
  get_bid 0 hash id id b1 name = 9 /\ get_bid 0 hash id id (hmdfs_config_bitem_release 0 hash id id b1 name) name = 7.
Proof.
  intros hash name b1. exact (overlapping_stores_survive_release 0 hash id id (mk_bundles ∅ ∅) name [7; 8; 9] eq_refl).
Defined.
