(* ===== verification/Connections.v ===== *)
(** The connections of a peer (comm/connection.c, comm/transport.c, comm/socket_adapter.c,
    comm/device_node.c): struct connection on a heap with reference counts, the lists
    conn_impl_list and conn_deleting_list of the peer, the receive thread of every connection,
    and everybody who adds, uses, gives up and closes connections. A thread is the list of
    actions it still has to do, each as long as nobody else can come between; every access to
    a freed connection, or to the peer after it was released, has no result. *)
From S2P Require Import Prelude NodeEvents Handshake Transport.
From stdpp Require relations.

Definition CONNECT_STAT_WAIT_REQUEST := 0.
Definition CONNECT_STAT_WAIT_RESPONSE := 1.
Definition NODE_STAT_SHAKING := 0.
Definition NODE_STAT_ONLINE := 1.
Definition NODE_STAT_OFFLINE := 2.

(** The receive thread of a connection: created and not woken yet, running, or ended. *)
Inductive task := Created | Running | Ended.
#[export] Instance task_dec : EqDecision task.
Proof. solve_decision. Defined.

(** struct connection with its struct tcp_handle: whether tcp->fd is valid and tcp->recv_task is
    set, the task, whether it was told to stop, and whether tcp->close_mutex is held. *)
Record connection := Conn {
  cn_ref : Z;
  cn_status : Z;
  cn_sock : Z;
  cn_fd : bool;
  cn_recv_task : bool;
  cn_task : task;
  cn_should_stop : bool;
  cn_close_mutex : bool
}.

Definition set_ref (c : connection) (r : Z) : connection :=
  Conn r (cn_status c) (cn_sock c) (cn_fd c) (cn_recv_task c) (cn_task c) (cn_should_stop c) (cn_close_mutex c).
Definition set_stat (c : connection) (st : Z) : connection :=
  Conn (cn_ref c) st (cn_sock c) (cn_fd c) (cn_recv_task c) (cn_task c) (cn_should_stop c) (cn_close_mutex c).
Definition clear_fd (c : connection) : connection :=
  Conn (cn_ref c) (cn_status c) (cn_sock c) false (cn_recv_task c) (cn_task c) (cn_should_stop c) (cn_close_mutex c).
Definition set_recv_task (c : connection) (b : bool) : connection :=
  Conn (cn_ref c) (cn_status c) (cn_sock c) (cn_fd c) b (cn_task c) (cn_should_stop c) (cn_close_mutex c).
Definition set_task (c : connection) (t : task) : connection :=
  Conn (cn_ref c) (cn_status c) (cn_sock c) (cn_fd c) (cn_recv_task c) t (cn_should_stop c) (cn_close_mutex c).
Definition set_should_stop (c : connection) : connection :=
  Conn (cn_ref c) (cn_status c) (cn_sock c) (cn_fd c) (cn_recv_task c) (cn_task c) true (cn_close_mutex c).
Definition set_mutex (c : connection) (b : bool) : connection :=
  Conn (cn_ref c) (cn_status c) (cn_sock c) (cn_fd c) (cn_recv_task c) (cn_task c) (cn_should_stop c) b.

(** What user space is told (struct notify_param): the event and the socket, if any. *)
Inductive notification := NOTIFY_GET_SESSION (fd : Z) | NOTIFY_OFFLINE.

(** The part of struct hmdfs_peer that connections are about: its lists (the connections that
    some hmdfs_disconnect_node has on its local list are in [local_conns]), the works queued on
    reget_conn_wq, the raw events queued and the notifications sent so far, what calls of
    hmdfs_sendmessage returned, and whether the peer was released. *)
Record conn_peer := Peer {
  pe_conns : gmap Z connection;
  conn_impl_list : list Z;
  conn_deleting_list : list Z;
  local_conns : list Z;
  reget_conn_wq : list Z;
  pe_status : Z;
  pe_evt_seq : Z;
  raw_evts : list raw_node_evt;
  notified : list notification;
  returned : list Z;
  pe_released : bool
}.

Definition set_conns (p : conn_peer) (m : gmap Z connection) : conn_peer :=
  Peer m (conn_impl_list p) (conn_deleting_list p) (local_conns p) (reget_conn_wq p) (pe_status p) (pe_evt_seq p) (raw_evts p) (notified p) (returned p) (pe_released p).
Definition set_lists (p : conn_peer) (impl deleting local : list Z) : conn_peer :=
  Peer (pe_conns p) impl deleting local (reget_conn_wq p) (pe_status p) (pe_evt_seq p) (raw_evts p) (notified p) (returned p) (pe_released p).
Definition set_works (p : conn_peer) (works : list Z) : conn_peer :=
  Peer (pe_conns p) (conn_impl_list p) (conn_deleting_list p) (local_conns p) works (pe_status p) (pe_evt_seq p) (raw_evts p) (notified p) (returned p) (pe_released p).
Definition set_node_status (p : conn_peer) (st : Z) : conn_peer :=
  Peer (pe_conns p) (conn_impl_list p) (conn_deleting_list p) (local_conns p) (reget_conn_wq p) st (pe_evt_seq p) (raw_evts p) (notified p) (returned p) (pe_released p).
Definition hmdfs_node_inc_evt_seq (p : conn_peer) : conn_peer :=
  Peer (pe_conns p) (conn_impl_list p) (conn_deleting_list p) (local_conns p) (reget_conn_wq p) (pe_status p) (u32 (pe_evt_seq p + 1)) (raw_evts p) (notified p) (returned p) (pe_released p).
Definition add_evt (p : conn_peer) (e : raw_node_evt) : conn_peer :=
  Peer (pe_conns p) (conn_impl_list p) (conn_deleting_list p) (local_conns p) (reget_conn_wq p) (pe_status p) (pe_evt_seq p) (raw_evts p ++ [e]) (notified p) (returned p) (pe_released p).
Definition notify (p : conn_peer) (n : notification) : conn_peer :=
  Peer (pe_conns p) (conn_impl_list p) (conn_deleting_list p) (local_conns p) (reget_conn_wq p) (pe_status p) (pe_evt_seq p) (raw_evts p) (notified p ++ [n]) (returned p) (pe_released p).
Definition add_returned (p : conn_peer) (ret : Z) : conn_peer :=
  Peer (pe_conns p) (conn_impl_list p) (conn_deleting_list p) (local_conns p) (reget_conn_wq p) (pe_status p) (pe_evt_seq p) (raw_evts p) (notified p) (returned p ++ [ret]) (pe_released p).
Definition release_peer (p : conn_peer) : conn_peer :=
  Peer (pe_conns p) (conn_impl_list p) (conn_deleting_list p) (local_conns p) (reget_conn_wq p) (pe_status p) (pe_evt_seq p) (raw_evts p) (notified p) (returned p) true.

Definition set_conn (p : conn_peer) (a : Z) (c : connection) : conn_peer := set_conns p (<[a := c]> (pe_conns p)).

(** !list_empty(&conn->list), and list_del from whatever list it is on. *)
Definition conn_listed (p : conn_peer) (a : Z) : bool := bool_decide (a ∈ conn_impl_list p ++ conn_deleting_list p ++ local_conns p).
Definition without (a : Z) (l : list Z) : list Z := filter (fun x => x <> a) l.
Definition conn_unlist (p : conn_peer) (a : Z) : conn_peer :=
  set_lists p (without a (conn_impl_list p)) (without a (conn_deleting_list p)) (without a (local_conns p)).

(** ** Threads *)

(** The actions. The ones of a function are together, and each says whose connection it uses. *)
Inductive act :=
  (* connection_put *)
  | Put (a : Z)
  (* tcp_close_socket *)
  | CloseLock (a : Z) | CloseWait (a : Z) | CloseEnd (a : Z)
  (* hmdfs_reget_connection, by the receive thread of the connection itself or by another *)
  | RegetMove (a : Z) (self : bool) | RegetShut (a : Z) (stop_thread : bool) | NotifyClose (a : Z)
  (* tcp_recv_thread *)
  | Recv (a : Z) | RecvIn (a : Z) | RecvUnlock (a : Z) | RecvStop (a : Z) | RecvTest (a : Z) | RecvPut (a : Z)
  (* connection_handshake_recv_handler, connection_send_handshake and peer_online *)
  | SendHs (a : Z) (self : bool) | SetStatus (a : Z) (status : Z) | SetNode (status : Z) | Online | QueueEvt (e : raw_node_evt)
  | Notify (n : notification)
  (* hmdfs_sendmessage *)
  | SendStart | SendTry | SendOn (a : Z) | SendShut (a : Z) | QueueReget (a : Z) | IncSeq | SendLoop | Return (ret : Z)
  (* hmdfs_get_conn_tcp *)
  | GetConn (sock status : Z) | AddConn (a : Z) | ClearFd (a : Z) | WakeTask (a : Z)
  (* hmdfs_disconnect_node and hmdfs_del_peer *)
  | DiscStart | DiscTake | DiscDel (a : Z) | DiscWait | DelPeer.

Abbreviation thread := (list act).

(** What tcp_receive_from_sock met, when its result is not -ESHUTDOWN: something without effect on
    connections, or a handshake message. *)
Inductive recv_evt := RecvShutdown | RecvOther | RecvRequest | RecvResponse | RecvAck.

(** What an action meets outside of the model: whether the socket is usable, what it gives, the
    results of sending and of hs_proc_msg_data, the address of a new connection, and whether a
    wait timed out or was interrupted. *)
Record env := Env {
  e_avail : bool;
  e_recv : recv_evt;
  e_sent : Z;
  e_nego : Z;
  e_alloc : option Z;
  e_timeout : bool
}.

(** What an action leads to: the peer, what the thread does next, and threads it started. The
    others are an access to freed memory, and waking up a task that is gone. *)
Inductive act_outcome :=
  | Next (p : conn_peer) (k : thread) (started : list thread)
  | FreedMemory
  | StoppedTask.

Definition with_conn (p : conn_peer) (a : Z) (f : connection -> act_outcome) : act_outcome :=
  match pe_conns p !! a with Some c => f c | None => FreedMemory end.

Definition goes (p : conn_peer) (k : thread) : act_outcome := Next p k [].

(** ** References *)

(** The last reference ends in connection_release: off the list it is on, and freed. *)
Definition connection_put (p : conn_peer) (a : Z) : act_outcome :=
  with_conn p a (fun c =>
    if cn_ref c - 1 =? 0 then
      if conn_listed p a && pe_released p then FreedMemory
      else let p := conn_unlist p a in goes (set_conns p (delete a (pe_conns p))) []
    else goes (set_conn p a (set_ref c (cn_ref c - 1))) []).

Definition connection_get (p : conn_peer) (a : Z) (k : thread) : act_outcome :=
  with_conn p a (fun c => goes (set_conn p a (set_ref c (cn_ref c + 1))) k).

(** The first connection of a list for which [f] holds; the outer [None] is one that was freed. *)
Fixpoint find_conn (f : connection -> bool) (m : gmap Z connection) (l : list Z) : option (option Z) :=
  match l with
  | [] => Some None
  | a :: l => c ← m !! a; if f c then Some (Some a) else find_conn f m l
  end.

(** get_conn_impl, under conn_impl_list_lock, with what is done with its result. *)
Definition get_conn_impl (p : conn_peer) (found : Z -> thread) (none : act_outcome) : act_outcome :=
  match find_conn (fun c => cn_status c =? CONNECT_STAT_WORKING) (pe_conns p) (conn_impl_list p) with
  | None => FreedMemory
  | Some None => none
  | Some (Some a) => connection_get p a (found a)
  end.

Definition lookup_conn_by_socketfd_unsafe (p : conn_peer) (sock : Z) (found : Z -> thread) (none : act_outcome) : act_outcome :=
  match find_conn (fun c => cn_sock c =? sock) (pe_conns p) (conn_impl_list p) with
  | None => FreedMemory
  | Some None => none
  | Some (Some a) => connection_get p a (found a)
  end.

(** ** Closing a connection *)

(** tcp_close_socket: the mutex, kthread_stop, which wakes the task up and waits for it, and the
    rest. A task that was never woken is gone at once, with -EINTR. *)
Definition tcp_close_socket (a : Z) : thread := [CloseLock a].

Definition close_lock (p : conn_peer) (a : Z) : act_outcome :=
  with_conn p a (fun c =>
    if cn_close_mutex c then goes p [CloseLock a]
    else if cn_recv_task c then goes (set_conn p a (set_mutex (set_should_stop c) true)) [CloseWait a]
    else goes p []).

Definition kthread_stop (p : conn_peer) (a : Z) : act_outcome :=
  with_conn p a (fun c =>
    match cn_task c with
    | Created => goes (set_conn p a (set_task c Ended)) [Put a; CloseEnd a]
    | Running => goes p [CloseWait a]
    | Ended => goes p [CloseEnd a]
    end).

Definition close_end (p : conn_peer) (a : Z) : act_outcome :=
  with_conn p a (fun c => goes (set_conn p a (set_mutex (set_recv_task c false) false)) []).

(** hmdfs_reget_connection. Under the lock: only who takes the connection off the list puts it, and
    a receive thread does not stop itself. *)
Definition hmdfs_reget_connection (a : Z) (self : bool) : thread := [RegetMove a self].

Definition reget_move (p : conn_peer) (a : Z) (self : bool) : act_outcome :=
  with_conn p a (fun c =>
    if bool_decide (a ∈ conn_impl_list p) then
      goes (set_lists p (without a (conn_impl_list p)) (a :: conn_deleting_list p) (local_conns p))
        [RegetShut a (cn_recv_task c && negb self)]
    else goes p []).

(** The socket is shut down. *)
Definition reget_shut (p : conn_peer) (a : Z) (stop_thread : bool) : act_outcome :=
  with_conn p a (fun _ => goes p ((if stop_thread then tcp_close_socket a else []) ++ [NotifyClose a; Put a])).

Definition connection_notify_to_close (p : conn_peer) (a : Z) : act_outcome :=
  with_conn p a (fun c => goes (if cn_fd c then notify p (NOTIFY_GET_SESSION (cn_sock c)) else p) []).

(** hmdfs_reget_connection_work_fn. *)
Definition hmdfs_reget_connection_work_fn (a : Z) : thread := hmdfs_reget_connection a false ++ [Put a].

(** ** The receive thread *)

(** The loop: freezing while the connection is not on a list, trying the mutex, and the socket. *)
Definition recv_turn (e : env) (p : conn_peer) (a : Z) : act_outcome :=
  with_conn p a (fun c =>
    if cn_should_stop c then goes p [RecvPut a]
    else if e_avail e && negb (conn_listed p a) then goes p [Recv a]
    else if cn_close_mutex c then goes p [Recv a]
    else if e_avail e then goes (set_conn p a (set_mutex c true)) [RecvIn a]
    else goes (set_conn p a (set_recv_task c false)) [RecvStop a]).

(** connection_send_handshake. *)
Definition connection_send_handshake (e : env) (p : conn_peer) (a : Z) (self : bool) : act_outcome :=
  with_conn p a (fun _ => goes p (if 0 <=? e_sent e then [] else hmdfs_reget_connection a self)).

(** connection_handshake_recv_handler, when the version is right. *)
Definition handshake_actions (e : env) (a : Z) (m : recv_evt) : thread :=
  match m with
  | RecvShutdown | RecvOther => []
  | RecvRequest => [SendHs a true; SetStatus a CONNECT_STAT_WAIT_ACK; SetNode NODE_STAT_SHAKING]
  | RecvResponse =>
      if negb (e_nego e =? 0) then [SetStatus a CONNECT_STAT_NEGO_FAIL; Notify NOTIFY_OFFLINE]
      else [SendHs a true; SetStatus a CONNECT_STAT_WORKING; Online]
  | RecvAck =>
      if negb (e_nego e =? 0) then [SetStatus a CONNECT_STAT_NEGO_FAIL; Notify NOTIFY_OFFLINE]
      else [SetStatus a CONNECT_STAT_WORKING; Online]
  end.

(** connect_recv_callback has the handler of handshakes for these. *)
Definition shakes_hands (status : Z) : bool :=
  (status =? CONNECT_STAT_WAIT_REQUEST) || (status =? CONNECT_STAT_WAIT_RESPONSE) || (status =? CONNECT_STAT_WAIT_ACK).

(** tcp_receive_from_sock, inside of the mutex. *)
Definition recv_message (e : env) (p : conn_peer) (a : Z) : act_outcome :=
  with_conn p a (fun c =>
    match e_recv e with
    | RecvShutdown => goes (set_conn p a (set_mutex (set_recv_task c false) false)) [RecvStop a]
    | m => goes p ((if shakes_hands (cn_status c) then handshake_actions e a m else []) ++ [RecvUnlock a])
    end).

Definition recv_unlock (p : conn_peer) (a : Z) : act_outcome :=
  with_conn p a (fun c => goes (set_conn p a (set_mutex c false)) [Recv a]).

(** -ESHUTDOWN: the sequence number and the status, then the test whether the peer is offline. *)
Definition recv_stop (p : conn_peer) (a : Z) : act_outcome :=
  with_conn p a (fun c => goes (hmdfs_node_inc_evt_seq (set_conn p a (set_stat c CONNECT_STAT_STOP))) [RecvTest a]).

Definition recv_test (p : conn_peer) (a : Z) : act_outcome :=
  with_conn p a (fun _ => goes p ((if negb (pe_status p =? NODE_STAT_OFFLINE) then hmdfs_reget_connection a true else []) ++ [RecvPut a])).

(** The thread puts its reference and ends. *)
Definition recv_put (p : conn_peer) (a : Z) : act_outcome :=
  with_conn p a (fun c => connection_put (set_conn p a (set_task c Ended)) a).

(** The exchange of the status in peer_online; the first to make the peer online queues the event. *)
Definition peer_online (p : conn_peer) : act_outcome :=
  goes (set_node_status p NODE_STAT_ONLINE) (if pe_status p =? NODE_STAT_ONLINE then [] else [QueueEvt ON]).

(** ** Sending *)

(** hmdfs_sendmessage: the test in front, a turn of its loop, and what follows the sending. *)
Definition hmdfs_sendmessage (p : conn_peer) : act_outcome :=
  if negb (pe_status p =? NODE_STAT_ONLINE) then goes p [Return (- EAGAIN)] else goes p [SendTry].

Definition send_try (p : conn_peer) : act_outcome :=
  get_conn_impl p (fun a => [SendOn a])
    (goes (if negb (pe_status p =? NODE_STAT_OFFLINE) then notify p NOTIFY_OFFLINE else p) [Return (- EAGAIN)]).

Definition send_on (e : env) (p : conn_peer) (a : Z) : act_outcome :=
  with_conn p a (fun c =>
    if e_sent e =? - ESHUTDOWN then goes (set_conn p a (set_stat c CONNECT_STAT_STOP)) [SendShut a; Put a; IncSeq; SendLoop]
    else goes p [Put a; Return (e_sent e)]).

Definition send_shut (p : conn_peer) (a : Z) : act_outcome :=
  with_conn p a (fun _ => if negb (pe_status p =? NODE_STAT_OFFLINE) then connection_get p a [QueueReget a] else goes p []).

(** queue_work: false when the work is queued already. *)
Definition queue_reget (p : conn_peer) (a : Z) : act_outcome :=
  with_conn p a (fun _ =>
    if bool_decide (a ∈ reget_conn_wq p) then goes p [Put a] else goes (set_works p (reget_conn_wq p ++ [a])) []).

Definition send_loop (p : conn_peer) : act_outcome :=
  goes p (if negb (pe_status p =? NODE_STAT_OFFLINE) then [SendTry] else [Return (- ESHUTDOWN)]).

(** ** Adding a connection *)

(** hmdfs_get_conn_tcp by ctrl_cmd_update_socket_handler, which puts the connection afterwards.
    alloc_conn_tcp: one reference for the caller, one for the task. *)
Definition alloc_conn_tcp (e : env) (p : conn_peer) (sock status : Z) : act_outcome :=
  match e_alloc e with
  | Some a =>
      match pe_conns p !! a with
      | None => goes (set_conn p a (Conn 2 status sock true true Created false false)) [AddConn a]
      | Some _ => goes p []
      end
  | None => goes p []
  end.

Definition hmdfs_get_conn_tcp (e : env) (p : conn_peer) (sock status : Z) : act_outcome :=
  lookup_conn_by_socketfd_unsafe p sock (fun a => [Put a]) (alloc_conn_tcp e p sock status).

(** add_conn_tcp_unsafe under the lock, and what follows for a new connection and for a socket that
    another thread has added. *)
Definition add_conn_tcp_unsafe (p : conn_peer) (a : Z) : act_outcome :=
  with_conn p a (fun c =>
    lookup_conn_by_socketfd_unsafe p (cn_sock c) (fun b => [ClearFd a] ++ tcp_close_socket a ++ [Put a; Put b])
      (connection_get
         (set_lists p (if cn_status c =? CONNECT_STAT_WAIT_REQUEST then a :: conn_impl_list p else conn_impl_list p ++ [a])
            (conn_deleting_list p) (local_conns p)) a
         ([WakeTask a] ++ (if cn_status c =? CONNECT_STAT_WAIT_RESPONSE then [SendHs a false] else []) ++ [Put a]))).

Definition clear_fd_of (p : conn_peer) (a : Z) : act_outcome := with_conn p a (fun c => goes (set_conn p a (clear_fd c)) []).

(** wake_up_process(tcp->recv_task). A task that was told to stop ends without running its function. *)
Definition wake_up_process (p : conn_peer) (a : Z) : act_outcome :=
  with_conn p a (fun c =>
    match cn_recv_task c, cn_task c with
    | true, Created => if cn_should_stop c then goes p [] else Next (set_conn p a (set_task c Running)) [] [[Recv a]]
    | _, _ => StoppedTask
    end).

(** ** Disconnecting *)

(** hmdfs_disconnect_node up to the lock. *)
Definition hmdfs_disconnect_node (p : conn_peer) : act_outcome :=
  goes (set_node_status (hmdfs_node_inc_evt_seq p) NODE_STAT_OFFLINE) [DiscTake].

(** The connections on the local list one after another, then the wait for the others and the event;
    the wait for the messages in flight before it is left out. *)
Definition disconnect_conn (a : Z) : thread := [ClearFd a] ++ tcp_close_socket a ++ [DiscDel a; Put a].
Definition disconnect_take (p : conn_peer) : act_outcome :=
  goes (set_lists p [] (conn_deleting_list p) (local_conns p ++ conn_impl_list p))
    (concat (map disconnect_conn (conn_impl_list p)) ++ [DiscWait; QueueEvt OFF]).

(** list_del_init: off the local list, from which nobody else takes it. *)
Definition list_del_conn (p : conn_peer) (a : Z) : act_outcome :=
  with_conn p a (fun _ => goes (set_lists p (conn_impl_list p) (conn_deleting_list p) (without a (local_conns p))) []).

(** The deleting list is empty, the time is up, or a signal came. *)
Definition deleting_wait (e : env) (p : conn_peer) : act_outcome :=
  match conn_deleting_list p with
  | [] => goes p []
  | _ => if e_timeout e then goes p [] else goes p [DiscWait]
  end.

(** ** One step of a thread *)

Definition act_step (e : env) (p : conn_peer) (i : act) : act_outcome :=
  match i with
  | Put a => connection_put p a
  | CloseLock a => close_lock p a
  | CloseWait a => kthread_stop p a
  | CloseEnd a => close_end p a
  | RegetMove a self => reget_move p a self
  | RegetShut a stop => reget_shut p a stop
  | NotifyClose a => connection_notify_to_close p a
  | Recv a => recv_turn e p a
  | RecvIn a => recv_message e p a
  | RecvUnlock a => recv_unlock p a
  | RecvStop a => recv_stop p a
  | RecvTest a => recv_test p a
  | RecvPut a => recv_put p a
  | SendHs a self => connection_send_handshake e p a self
  | SetStatus a st => with_conn p a (fun c => goes (set_conn p a (set_stat c st)) [])
  | SetNode st => goes (set_node_status p st) []
  | Online => peer_online p
  | QueueEvt ev => goes (add_evt p ev) []
  | Notify n => goes (notify p n) []
  | SendStart => hmdfs_sendmessage p
  | SendTry => send_try p
  | SendOn a => send_on e p a
  | SendShut a => send_shut p a
  | QueueReget a => queue_reget p a
  | IncSeq => goes (hmdfs_node_inc_evt_seq p) []
  | SendLoop => send_loop p
  | Return ret => goes (add_returned p ret) []
  | GetConn sock st => hmdfs_get_conn_tcp e p sock st
  | AddConn a => add_conn_tcp_unsafe p a
  | ClearFd a => clear_fd_of p a
  | WakeTask a => wake_up_process p a
  | DiscStart => hmdfs_disconnect_node p
  | DiscTake => disconnect_take p
  | DiscDel a => list_del_conn p a
  | DiscWait => deleting_wait e p
  | DelPeer => goes (release_peer p) []
  end.

(** The actions that read or write struct hmdfs_peer; a put does only when it is the last one. *)
Definition uses_peer (i : act) : bool :=
  match i with
  | Put _ | CloseLock _ | CloseWait _ | CloseEnd _ | Recv _ | RecvUnlock _ | RecvPut _ | SetStatus _ _ | SendOn _
  | ClearFd _ | WakeTask _ | DiscDel _ => false
  | _ => true
  end.

(** The state with the thread that holds cmd_handler_mutex, and what can happen: a socket is given to
    the peer, a message sent, the peer disconnected or removed, a queued work begins, or a thread
    goes on. *)
Record conn_state := ConnState { cs_peer : conn_peer; cs_threads : list thread; cs_cmd : option nat }.

Inductive conn_op :=
  | OpUpdateSocket (sock status : Z)
  | OpSend
  | OpDisconnect
  | OpDelete
  | OpWork (a : Z)
  | OpStep (i : nat) (e : env).

Inductive conn_result := ConnOk (s : conn_state) | ConnFreed | ConnStopped.

Definition start (s : conn_state) (t : thread) : conn_result := ConnOk (ConnState (cs_peer s) (cs_threads s ++ [t]) (cs_cmd s)).

(** sbi_cmd_store runs one command at a time, and hmdfs_connections_stop comes after the last; until
    the one before has ended nothing happens. *)
Definition cmd_idle (s : conn_state) : bool :=
  match cs_cmd s with Some i => match cs_threads s !! i with Some (_ :: _) => false | _ => true end | None => true end.
Definition sbi_cmd_store (s : conn_state) (t : thread) : conn_result :=
  if cmd_idle s then ConnOk (ConnState (cs_peer s) (cs_threads s ++ [t]) (Some (length (cs_threads s)))) else ConnOk s.

Definition conn_thread_step (s : conn_state) (i : nat) (e : env) : conn_result :=
  match cs_threads s !! i with
  | Some (x :: rest) =>
      if pe_released (cs_peer s) && uses_peer x then ConnFreed
      else
        match act_step e (cs_peer s) x with
        | Next p k started => ConnOk (ConnState p (<[i := k ++ rest]> (cs_threads s) ++ started) (cs_cmd s))
        | FreedMemory => ConnFreed
        | StoppedTask => ConnStopped
        end
  | _ => ConnOk s
  end.

(** ctrl_cmd_update_socket_handler tests the status; hmdfs_connections_stop disconnects and releases a peer. *)
Definition conn_op_step (s : conn_state) (op : conn_op) : conn_result :=
  match op with
  | OpUpdateSocket sock status =>
      if negb (status =? CONNECT_STAT_WAIT_REQUEST) && negb (status =? CONNECT_STAT_WAIT_RESPONSE) then ConnOk s
      else sbi_cmd_store s [GetConn sock status]
  | OpSend => start s [SendStart]
  | OpDisconnect => sbi_cmd_store s [DiscStart]
  | OpDelete => sbi_cmd_store s [DiscStart; DelPeer]
  | OpWork a =>
      if bool_decide (a ∈ reget_conn_wq (cs_peer s)) then
        let p := set_works (cs_peer s) (without a (reget_conn_wq (cs_peer s))) in
        ConnOk (ConnState p (cs_threads s ++ [hmdfs_reget_connection_work_fn a]) (cs_cmd s))
      else ConnOk s
  | OpStep i e => conn_thread_step s i e
  end.

Fixpoint conn_run (s : conn_state) (ops : list conn_op) : conn_result :=
  match ops with
  | [] => ConnOk s
  | op :: ops => match conn_op_step s op with ConnOk s => conn_run s ops | r => r end
  end.

(** A peer as alloc_peer makes it. *)
Definition new_conn_peer : conn_state := ConnState (Peer ∅ [] [] [] [] NODE_STAT_SHAKING 0 [] [] [] false) [] None.

(** * Who holds what *)

(** What an action says about a connection: it has a reference, it is the receive thread, it holds
    tcp->close_mutex inside of that thread, it waits in kthread_stop or is behind it, it will wake
    up the new task, it will put the connection on a list, and it is none of what a connection can
    meet before its task runs. *)
Inductive role := Holds | Receives | Locks | Waits | Ends | Starts | Adds | Touches.

Definition role_of (r : role) (i : act) : option Z :=
  match r, i with
  | Holds, (Put a | RegetShut a _ | Recv a | RecvIn a | RecvUnlock a | RecvStop a | RecvTest a | RecvPut a
           | SendOn a | QueueReget a | AddConn a)
  | Receives, (Recv a | RecvIn a | RecvUnlock a | RecvStop a | RecvTest a | RecvPut a)
  | Locks, (RecvIn a | RecvUnlock a)
  | Waits, CloseWait a
  | Ends, CloseEnd a
  | Starts, (AddConn a | WakeTask a)
  | Adds, AddConn a
  | Touches, (CloseLock a | CloseWait a | CloseEnd a | RegetMove a _ | RegetShut a _ | NotifyClose a | Recv a | RecvIn a | RecvUnlock a
             | RecvStop a | RecvTest a | RecvPut a | SendHs a true | SetStatus a _ | SendOn a | SendShut a | QueueReget a | ClearFd a | DiscDel a) => Some a
  | _, _ => None
  end.

(** The connection an action uses. *)
Definition user (i : act) : option Z :=
  match i with
  | Put a | CloseLock a | CloseWait a | CloseEnd a | RegetMove a _ | RegetShut a _ | NotifyClose a | Recv a | RecvIn a
  | RecvUnlock a | RecvStop a | RecvTest a | RecvPut a | SendHs a _ | SetStatus a _ | SendOn a | SendShut a | QueueReget a
  | AddConn a | ClearFd a | WakeTask a | DiscDel a => Some a
  | _ => None
  end.

Definition one (o : option Z) (a : Z) : Z := match o with Some b => if decide (b = a) then 1 else 0 | None => 0 end.

(** Sums over the actions of a thread, and of all threads. *)
Definition sum_acts (f : act -> Z) (t : thread) : Z := foldr (fun i n => f i + n) 0 t.
Definition total_acts (f : act -> Z) (ths : list thread) : Z := foldr (fun t n => sum_acts f t + n) 0 ths.
Definition weigh (r : role) (a : Z) (t : thread) : Z := sum_acts (fun i => one (role_of r i) a) t.
Definition tally (a : Z) (ths : list thread) (r : role) : Z := total_acts (fun i => one (role_of r i) a) ths.

Lemma sum_acts_cons f i t : sum_acts f (i :: t) = f i + sum_acts f t.
Proof. done. Qed.
Lemma total_cons f t l : total_acts f (t :: l) = sum_acts f t + total_acts f l.
Proof. done. Qed.
#[global] Arguments sum_acts : simpl never.
#[global] Arguments total_acts : simpl never.

Lemma one_nonneg o a : 0 <= one o a.
Proof. destruct o; cbn; [destruct (decide _)|]; lia. Qed.
Lemma sum_acts_app f t t' : sum_acts f (t ++ t') = sum_acts f t + sum_acts f t'.
Proof. induction t as [|i t IH]; [done|]. cbn [app]. rewrite !sum_acts_cons. lia. Qed.
Lemma total_app f l l' : total_acts f (l ++ l') = total_acts f l + total_acts f l'.
Proof. induction l as [|t l IH]; [done|]. cbn [app]. rewrite !total_cons. lia. Qed.
Lemma sum_acts_nonneg f t : (forall i, 0 <= f i) -> 0 <= sum_acts f t.
Proof. intros H. induction t as [|i t IH]; [done|]. rewrite sum_acts_cons. specialize (H i). lia. Qed.
Lemma total_nonneg f ths : (forall i, 0 <= f i) -> 0 <= total_acts f ths.
Proof. intros H. induction ths as [|t l IH]; [done|]. rewrite total_cons. pose proof (sum_acts_nonneg f t H). lia. Qed.

(** A step replaces the first action of a thread. *)
Lemma total_step f ths i x rest k started : ths !! i = Some (x :: rest) ->
  total_acts f (<[i := k ++ rest]> ths ++ started) = total_acts f ths - f x + sum_acts f k + total_acts f started.
Proof.
  intros Hi. rewrite total_app. cut (total_acts f (<[i := k ++ rest]> ths) = total_acts f ths - f x + sum_acts f k); [lia|].
  revert i Hi. induction ths as [|t ths IH]; intros [|i] Hi; try done.
  - injection Hi as ->. change (<[0%nat := k ++ rest]> ((x :: rest) :: ths)) with ((k ++ rest) :: ths). rewrite !total_cons, sum_acts_app, sum_acts_cons. lia.
  - specialize (IH _ Hi). change (<[S i := k ++ rest]> (t :: ths)) with (t :: <[i := k ++ rest]> ths). rewrite !total_cons. lia.
Qed.

Lemma total_elem f ths t : (forall i, 0 <= f i) -> t ∈ ths -> sum_acts f t <= total_acts f ths.
Proof.
  intros Hf. induction ths as [|u l IH]; [by intros ?%elem_of_nil|]. rewrite total_cons. pose proof (total_nonneg f l Hf). pose proof (sum_acts_nonneg f u Hf).
  intros [<-|Hx]%elem_of_cons; [lia|]. specialize (IH Hx). lia.
Qed.
Lemma weigh_pos r a t : 0 < weigh r a t -> exists i, i ∈ t /\ role_of r i = Some a.
Proof.
  unfold weigh. induction t as [|i t IH]; [done|]. rewrite sum_acts_cons. intros Ht.
  destruct (decide (role_of r i = Some a)) as [E|E]; [exists i; split; [by left|done]|].
  destruct IH as (j&?&?); [|exists j; split; [by right|done]].
  unfold one at 1 in Ht. destruct (role_of r i); [destruct (decide _); [congruence|]|]; lia.
Qed.
Lemma tally_pos r a ths : 0 < tally a ths r -> exists t i, t ∈ ths /\ i ∈ t /\ role_of r i = Some a.
Proof.
  unfold tally. induction ths as [|t l IH]; [done|]. rewrite total_cons. intros H.
  destruct (decide (0 < weigh r a t)) as [Ht|Ht].
  - apply weigh_pos in Ht as (i&?&?). exists t, i. split_and!; [by left|done|done].
  - unfold weigh in Ht. destruct IH as (u&i&?&?&?); [lia|]. exists u, i. split_and!; [by right|done|done].
Qed.
Lemma tally_nonneg r a ths : 0 <= tally a ths r.
Proof. apply total_nonneg. intros. apply one_nonneg. Qed.
Lemma weigh_nonneg r a t : 0 <= weigh r a t.
Proof. apply sum_acts_nonneg. intros. apply one_nonneg. Qed.
Lemma weigh_cons r a i t : weigh r a (i :: t) = one (role_of r i) a + weigh r a t.
Proof. done. Qed.
Lemma weigh_app r a t t' : weigh r a (t ++ t') = weigh r a t + weigh r a t'.
Proof. apply sum_acts_app. Qed.
Lemma weigh_tally r a ths t : t ∈ ths -> weigh r a t <= tally a ths r.
Proof. intros Ht. apply (total_elem (fun i => one (role_of r i) a)); [intros; apply one_nonneg|done]. Qed.

(** Whatever a thread uses from now on it has a reference to. *)
Fixpoint held (t : thread) : Prop :=
  match t with
  | [] => True
  | i :: rest => match user i with Some a => 0 < weigh Holds a t | None => True end /\ held rest
  end.

Lemma held_app t t' : held t -> held t' -> held (t ++ t').
Proof.
  intros Ht Ht'. induction t as [|i t IH]; [done|]. destruct Ht as [Hi Ht]. split; [|by apply IH].
  destruct (user i) as [a|]; [|done]. change ((i :: t) ++ t') with (i :: t ++ t'). rewrite weigh_cons in *.
  rewrite weigh_app. pose proof (weigh_nonneg Holds a t'). lia.
Qed.

Lemma role_user r i a : role_of r i = Some a -> user i = Some a.
Proof. destruct r, i; cbn; intros H; try done; by destruct self. Qed.

Lemma held_in t i a : held t -> i ∈ t -> user i = Some a -> 0 < weigh Holds a t.
Proof.
  intros Ht Hi Hu. induction t as [|j t IH]; [by apply elem_of_nil in Hi|]. destruct Ht as [Hj Ht]. apply elem_of_cons in Hi as [<-|Hi].
  - by rewrite Hu in Hj.
  - specialize (IH Ht Hi). rewrite weigh_cons. pose proof (one_nonneg (role_of Holds j) a). lia.
Qed.

Lemma held_tally ths a r : Forall held ths -> tally a ths Holds = 0 -> tally a ths r = 0.
Proof.
  intros Hh H0. pose proof (tally_nonneg r a ths). destruct (decide (0 < tally a ths r)) as [Hp|]; [|lia]. exfalso.
  apply tally_pos in Hp as (t&i&Ht&Hi&Hr). rewrite list.Forall_forall in Hh. pose proof (held_in _ _ _ (Hh _ Ht) Hi (role_user _ _ _ Hr)).
  pose proof (weigh_tally Holds a ths t Ht). lia.
Qed.

(** * The invariant *)

Definition task_nr (t : task) : Z := match t with Created => 0 | Running => 1 | Ended => 2 end.

(** The references of a connection are those of the list, of the queued work, of the task before it
    was woken, and of the actions; [n] counts what the actions say. *)
Definition conn_ok (p : conn_peer) (a : Z) (n : role -> Z) : Prop :=
  match pe_conns p !! a with
  | Some c =>
      cn_ref c = cnt a (conn_impl_list p) + cnt a (reget_conn_wq p) + Z.b2z (task_nr (cn_task c) =? 0) + n Holds /\
      0 < cn_ref c /\
      n Receives = Z.b2z (task_nr (cn_task c) =? 1) /\
      n Waits + n Ends + n Locks = Z.b2z (cn_close_mutex c) /\
      (0 < n Waits -> Z.b2z (cn_should_stop c) = 1 /\ Z.b2z (cn_recv_task c) = 1) /\
      (0 < n Ends -> task_nr (cn_task c) = 2) /\
      (task_nr (cn_task c) = 0 -> Z.b2z (cn_recv_task c) = 1 /\ Z.b2z (cn_should_stop c) = 0 /\ 0 < n Starts /\ n Touches = 0 /\ cnt a (reget_conn_wq p) = 0 /\ cn_status c < CONNECT_STAT_WORKING) /\
      n Starts <= 1 /\ (0 < n Starts -> task_nr (cn_task c) = 0) /\
      n Adds <= 1 /\
      (0 < n Adds -> cnt a (conn_impl_list p) = 0 /\ cnt a (conn_deleting_list p) = 0)
  | None => n Holds = 0 /\ cnt a (conn_impl_list p) = 0 /\ cnt a (reget_conn_wq p) = 0 /\ cnt a (conn_deleting_list p) = 0
  end.

(** No connection is twice on a list, on both lists, or queued twice. *)
Definition lists_ok (p : conn_peer) : Prop :=
  forall a, 0 <= cnt a (conn_impl_list p) + cnt a (conn_deleting_list p) <= 1 /\ 0 <= cnt a (reget_conn_wq p) <= 1.

Lemma cnt_without a b l : cnt a (without b l) = if decide (a = b) then 0 else cnt a l.
Proof.
  unfold without. induction l as [|x l IH]; [by destruct (decide _)|]. rewrite filter_cons, cnt_cons.
  destruct (decide (x <> b)) as [Hx|Hx]; [rewrite cnt_cons|]; rewrite IH; repeat destruct (decide _); try done; try congruence; lia.
Qed.
Lemma cnt_elem a l : a ∈ l <-> 0 < cnt a l.
Proof.
  split; [apply cnt_pos|]. induction l as [|x l IH]; [done|]. rewrite cnt_cons, elem_of_cons. destruct (decide (x = a)); [by left|].
  intros H. right. apply IH. lia.
Qed.
Lemma cnt_one a x : cnt a [x] = if decide (x = a) then 1 else 0.
Proof. rewrite cnt_cons. destruct (decide _); done. Qed.

(** The counts after an action [x] that is followed by [k] and starts threads. *)
Definition then_acts (n : Z -> role -> Z) (x : act) (k : thread) (started : list thread) (a : Z) (r : role) : Z :=
  n a r - one (role_of r x) a + weigh r a k + tally a started r.

(** An action that uses a connection it has a reference to is safe, and counts stay right. *)
Definition outcome_ok (n : Z -> role -> Z) (x : act) (o : act_outcome) : Prop :=
  match o with
  | Next p k started => lists_ok p /\ pe_released p = false /\ forall a, conn_ok p a (then_acts n x k started a)
  | FreedMemory | StoppedTask => False
  end.

(** Commands, and those that add a connection: what follows a connection being added finds every task running. *)
Definition adding (i : act) : bool := match i with GetConn _ _ | AddConn _ | WakeTask _ => true | _ => false end.
Definition command (i : act) : bool :=
  match i with
  | GetConn _ _ | AddConn _ | WakeTask _ | SendHs _ false | ClearFd _ | DiscStart | DiscTake | DiscDel _ | DiscWait => true
  | _ => false
  end.
Definition no_created (p : conn_peer) : Prop := forall a c, pe_conns p !! a = Some c -> task_nr (cn_task c) <> 0.

Ltac weighs :=
  unfold then_acts, tally, weigh in *; rewrite ?total_cons, ?sum_acts_app, ?sum_acts_cons;
  change (fun f => sum_acts f []) with (fun _ : act -> Z => 0); cbn [role_of one app];
  repeat match goal with |- context [sum_acts ?f []] => change (sum_acts f []) with 0 end;
  repeat match goal with |- context [total_acts ?f []] => change (total_acts f []) with 0 end.

Section Step.
Context (p : conn_peer) (n : Z -> role -> Z).
Context (Hc : forall a, conn_ok p a (n a)) (Hl : lists_ok p) (Hr : pe_released p = false).
Context (Hn : forall a r, 0 <= n a r) (Hz : forall a r, n a Holds = 0 -> n a r = 0).

Lemma live a : 0 < n a Holds \/ 0 < cnt a (conn_impl_list p) -> exists c, pe_conns p !! a = Some c.
Proof. intros H. specialize (Hc a). unfold conn_ok in Hc. destruct (pe_conns p !! a); [by eexists|lia]. Qed.

Lemma with_live a f x : 0 < n a Holds -> (forall c, pe_conns p !! a = Some c -> outcome_ok n x (f c)) -> outcome_ok n x (with_conn p a f).
Proof. intros Ha Hf. unfold with_conn. destruct (live a) as [c E]; [by left|]. rewrite E. by apply Hf. Qed.

(** The bounds that the action itself gives. *)
Context (x : act) (Hx : forall a r, one (role_of r x) a <= n a r).
Context (Hcmd : command x = true -> adding x = false -> no_created p).

Definition only (a : Z) (t : thread) : Prop := Forall (fun i => user i = None \/ user i = Some a) t.

Lemma only_weigh a t b r : only a t -> b <> a -> weigh r b t = 0.
Proof.
  intros Ht Hb. unfold weigh. induction Ht as [|i t Hi Ht IH]; [done|]. rewrite sum_acts_cons, IH.
  assert (one (role_of r i) b = 0); [|lia]. unfold one. destruct (role_of r i) as [c|] eqn:E; [|done]. apply role_user in E.
  destruct Hi as [Hi|Hi]; rewrite Hi in E; [done|]. injection E as ->. by rewrite decide_False by done.
Qed.

(** An action on one connection. *)
Lemma next_ok p' k started a : only a (x :: k) -> Forall (only a) started ->
  (forall b, b <> a -> pe_conns p' !! b = pe_conns p !! b /\ cnt b (conn_impl_list p') = cnt b (conn_impl_list p) /\
     cnt b (conn_deleting_list p') = cnt b (conn_deleting_list p) /\ cnt b (reget_conn_wq p') = cnt b (reget_conn_wq p)) ->
  0 <= cnt a (conn_impl_list p') + cnt a (conn_deleting_list p') <= 1 /\ 0 <= cnt a (reget_conn_wq p') <= 1 ->
  pe_released p' = false -> conn_ok p' a (then_acts n x k started a) -> outcome_ok n x (Next p' k started).
Proof.
  intros Hk Hs Hb Ha Hrel Hok. split_and!; [|done|].
  - intros b. destruct (decide (b = a)) as [->|Hne]; [done|]. destruct (Hb b Hne) as (_&->&->&->). apply Hl.
  - intros b. destruct (decide (b = a)) as [->|Hne]; [done|]. specialize (Hc b). unfold conn_ok in *. destruct (Hb b Hne) as (->&->&->&->).
    assert (forall r, then_acts n x k started b r = n b r) as Heq.
    { intros r. unfold then_acts. apply list.Forall_cons in Hk as [Hxa Hk]. rewrite (only_weigh a k b r Hk Hne).
      pose proof (only_weigh a [x] b r ltac:(by constructor) Hne) as H1. rewrite weigh_cons in H1. change (weigh r b []) with 0 in H1.
      assert (tally b started r = 0); [|lia]. clear -Hs Hne. unfold tally. induction Hs as [|u l Hu Hs IH]; [done|]. rewrite total_cons, IH.
      pose proof (only_weigh a u b r Hu Hne) as H. unfold weigh in H. lia. }
    rewrite !Heq. exact Hc.
Qed.

Ltac simp_conn :=
  cbn [pe_conns conn_impl_list conn_deleting_list local_conns reget_conn_wq pe_status pe_released set_conns set_conn set_lists set_works
       set_node_status hmdfs_node_inc_evt_seq add_evt notify add_returned conn_unlist
       cn_ref cn_status cn_sock cn_fd cn_recv_task cn_task cn_should_stop cn_close_mutex
       set_ref set_stat clear_fd set_recv_task set_task set_should_stop set_mutex] in *.

(** The counts of the connection [a] in the goal, given what they were. *)
Ltac counted a E :=
  let Hb := fresh in pose proof (Hc a) as Hb;
  pose proof (Hx a Holds); pose proof (Hx a Receives); pose proof (Hx a Locks); pose proof (Hx a Waits); pose proof (Hx a Ends);
  pose proof (Hx a Starts); pose proof (Hx a Adds); pose proof (Hx a Touches);
  pose proof (Hn a Holds); pose proof (Hn a Receives); pose proof (Hn a Locks); pose proof (Hn a Waits); pose proof (Hn a Ends);
  pose proof (Hn a Starts); pose proof (Hn a Adds); pose proof (Hn a Touches); pose proof (Hl a);
  unfold conn_ok, CONNECT_STAT_WORKING in *; rewrite E in Hb; simp_conn; subst x; cbn [role_of one] in *;
  rewrite ?lookup_insert_eq, ?lookup_delete_eq, ?E; weighs;
  rewrite ?cnt_without, ?cnt_app, ?cnt_cons; change (cnt a []) with 0 in *;
  repeat rewrite decide_True in * by done; repeat rewrite decide_False in * by done.
Ltac cases c := destruct c as [? ? ? ? [] [] [] []]; simp_conn; try discriminate; cbn [task_nr Z.b2z Z.eqb Pos.eqb] in *; lia.
Ltac only_tac := unfold only; repeat first [apply List.Forall_nil | apply List.Forall_cons; [first [left; reflexivity | right; reflexivity]|]].
Ltac one_conn a :=
  unfold tcp_close_socket, hmdfs_reget_connection; cbn [app]; apply next_ok with (a := a); [subst x; only_tac|by repeat first [apply List.Forall_nil | apply List.Forall_cons; [only_tac|]]|
    intros b Hb; simp_conn; repeat first [rewrite lookup_insert_ne by congruence|rewrite lookup_delete_ne by congruence]; split_and!; rewrite ?cnt_without, ?cnt_cons, ?cnt_app, ?cnt_one, ?(decide_False (P := a = b)), ?(decide_False (P := b = a)) by congruence; first [done|change (cnt b []) with 0; lia]|..|].

Ltac by_counts a c E := one_conn a; [simp_conn; rewrite ?cnt_without, ?cnt_app, ?cnt_cons, ?decide_True by done; change (cnt a []) with 0; pose proof (Hl a); try lia|done|counted a E; cases c].

Lemma close_lock_ok a : x = CloseLock a -> 0 < n a Holds -> outcome_ok n x (close_lock p a).
Proof.
  intros Ex Ha. apply with_live; [done|]. intros c E. destruct (cn_close_mutex c) eqn:Em; [|destruct (cn_recv_task c) eqn:Et]; by_counts a c E.
Qed.

Lemma conn_put_ok a : x = Put a -> outcome_ok n x (connection_put p a).
Proof.
  intros Ex. assert (0 < n a Holds) as Ha by (pose proof (Hx a Holds) as H; subst x; cbn in H; rewrite decide_True in H by done; lia).
  apply with_live; [done|]. intros c E. rewrite Hr, andb_false_r. pose proof (cnt_nonneg a (conn_impl_list p)). pose proof (cnt_nonneg a (conn_deleting_list p)).
  destruct (cn_ref c - 1 =? 0) eqn:Er; zb; by_counts a c E.
Qed.

Lemma kthread_stop_ok a : x = CloseWait a -> 0 < n a Holds -> outcome_ok n x (kthread_stop p a).
Proof. intros Ex Ha. apply with_live; [done|]. intros c E. destruct (cn_task c) eqn:Et; by_counts a c E. Qed.

Lemma close_end_ok a : x = CloseEnd a -> 0 < n a Holds -> outcome_ok n x (close_end p a).
Proof. intros Ex Ha. apply with_live; [done|]. intros c E. by_counts a c E. Qed.

Lemma reget_move_ok a self : x = RegetMove a self -> 0 < n a Holds -> outcome_ok n x (reget_move p a self).
Proof.
  intros Ex Ha. apply with_live; [done|]. intros c E. pose proof (cnt_nonneg a (conn_deleting_list p)). case_bool_decide as Hin; rewrite cnt_elem in Hin; by_counts a c E.
Qed.

Lemma reget_shut_ok a stop : x = RegetShut a stop -> 0 < n a Holds -> outcome_ok n x (reget_shut p a stop).
Proof. intros Ex Ha. apply with_live; [done|]. intros c E. destruct stop; by_counts a c E. Qed.

Lemma notify_close_ok a : x = NotifyClose a -> 0 < n a Holds -> outcome_ok n x (connection_notify_to_close p a).
Proof. intros Ex Ha. apply with_live; [done|]. intros c E. destruct (cn_fd c); by_counts a c E. Qed.

Lemma recv_turn_ok e a : x = Recv a -> 0 < n a Holds -> outcome_ok n x (recv_turn e p a).
Proof.
  intros Ex Ha. apply with_live; [done|]. intros c E. destruct (cn_should_stop c) eqn:Es; [by_counts a c E|].
  destruct (_ && _); [by_counts a c E|]. destruct (cn_close_mutex c) eqn:Em; [by_counts a c E|]. destruct (e_avail e); by_counts a c E.
Qed.

Lemma send_handshake_ok e a self : x = SendHs a self -> 0 < n a Holds -> outcome_ok n x (connection_send_handshake e p a self).
Proof.
  intros Ex Ha. apply with_live; [done|]. intros c E. destruct self.
  - destruct (0 <=? e_sent e); by_counts a c E.
  - assert (task_nr (cn_task c) <> 0) as Ht by (eapply Hcmd; [by rewrite Ex|by rewrite Ex|done]). destruct (0 <=? e_sent e); by_counts a c E.
Qed.

Lemma recv_message_ok e a : x = RecvIn a -> 0 < n a Holds -> outcome_ok n x (recv_message e p a).
Proof.
  intros Ex Ha. apply with_live; [done|]. intros c E. destruct (e_recv e); [by_counts a c E|..]; unfold handshake_actions;
    destruct (shakes_hands (cn_status c)), (e_nego e =? 0); cbn [negb]; by_counts a c E.
Qed.

Lemma recv_unlock_ok a : x = RecvUnlock a -> 0 < n a Holds -> outcome_ok n x (recv_unlock p a).
Proof. intros Ex Ha. apply with_live; [done|]. intros c E. by_counts a c E. Qed.

Lemma recv_stop_ok a : x = RecvStop a -> 0 < n a Holds -> outcome_ok n x (recv_stop p a).
Proof. intros Ex Ha. apply with_live; [done|]. intros c E. by_counts a c E. Qed.

Lemma recv_test_ok a : x = RecvTest a -> 0 < n a Holds -> outcome_ok n x (recv_test p a).
Proof. intros Ex Ha. apply with_live; [done|]. intros c E. destruct (negb _); by_counts a c E. Qed.

Lemma recv_put_ok a : x = RecvPut a -> 0 < n a Holds -> outcome_ok n x (recv_put p a).
Proof.
  intros Ex Ha. apply with_live; [done|]. intros c E. unfold connection_put, with_conn, set_conn, set_conns. cbn [pe_conns pe_released]. rewrite lookup_insert_eq.
  cbn [cn_ref set_task]. rewrite Hr, andb_false_r. pose proof (cnt_nonneg a (conn_impl_list p)). pose proof (cnt_nonneg a (conn_deleting_list p)).
  destruct (cn_ref c - 1 =? 0) eqn:Er; zb; by_counts a c E.
Qed.

(** ** Finding a connection *)

Lemma find_conn_spec f l : (forall a, a ∈ l -> exists c, pe_conns p !! a = Some c) ->
  match find_conn f (pe_conns p) l with
  | Some (Some a) => a ∈ l /\ exists c, pe_conns p !! a = Some c /\ f c = true
  | Some None => forall a c, a ∈ l -> pe_conns p !! a = Some c -> f c = false
  | None => False
  end.
Proof.
  induction l as [|b l IH]; intros Hlive; cbn [find_conn]; [by intros a c ?%elem_of_nil|].
  destruct (Hlive b) as [c Ec]; [by left|]. rewrite Ec. cbn [mbind option_bind]. destruct (f c) eqn:Ef.
  - split; [by left|]. by exists c.
  - specialize (IH ltac:(intros; apply Hlive; by right)). destruct (find_conn f _ l) as [[a|]|]; [destruct IH as [Hin Hc']; split; [by right|done]| |done].
    intros a c' Hin Ha. apply elem_of_cons in Hin as [Hin|Hin]; [congruence|]. by eapply IH.
Qed.

Lemma impl_live a : a ∈ conn_impl_list p -> exists c, pe_conns p !! a = Some c.
Proof. intros Hin%cnt_elem. apply live. by right. Qed.

(** A connection that was found is not new, or is only put again. *)
Lemma get_found_ok a k : 0 < cnt a (conn_impl_list p) -> user x = None -> only a k ->
  (forall r, weigh r a k = match r with Holds => 1 | Touches => weigh Touches a k | _ => 0 end) ->
  (forall c, pe_conns p !! a = Some c -> weigh Touches a k = 0 \/ task_nr (cn_task c) <> 0) -> outcome_ok n x (connection_get p a k).
Proof.
  intros Hin Hu Hk Hw Ht. destruct (live a) as [c E]; [by right|]. specialize (Ht c E). unfold connection_get, with_conn. rewrite E.
  assert (forall r, one (role_of r x) a = 0) as Hx0 by (intros r; destruct (role_of r x) eqn:Hro; [apply role_user in Hro; congruence|done]).
  apply next_ok with (a := a); [apply List.Forall_cons; [by left|done]|done| |apply Hl|done|].
  - intros b Hb. unfold set_conn, set_conns. cbn. rewrite lookup_insert_ne by congruence. done.
  - pose proof (Hc a) as Ha. unfold conn_ok, set_conn, set_conns, then_acts, CONNECT_STAT_WORKING in *. cbn [pe_conns conn_impl_list conn_deleting_list reget_conn_wq] in *.
    rewrite lookup_insert_eq, (Hw Holds), (Hw Receives), (Hw Locks), (Hw Waits), (Hw Ends), (Hw Starts), (Hw Adds), !Hx0. rewrite E in Ha. change (tally a [] ?r) with 0.
    pose proof (weigh_nonneg Touches a k). unfold tally. change (total_acts ?f []) with 0.
    destruct c as [? ? ? ? [] [] [] []]; cbn [cn_ref cn_status cn_task cn_recv_task cn_should_stop cn_close_mutex set_ref task_nr Z.b2z Z.eqb Pos.eqb] in *; lia.
Qed.

(** ** The other actions *)

Lemma unused_weigh r b t : Forall (fun i => user i = None) t -> weigh r b t = 0.
Proof.
  intros Ht. apply (only_weigh (b + 1)); [|lia]. eapply List.Forall_impl; [|exact Ht]. intros i Hi. by left.
Qed.

Lemma same_ok p' k : pe_conns p' = pe_conns p -> conn_impl_list p' = conn_impl_list p -> conn_deleting_list p' = conn_deleting_list p ->
  reget_conn_wq p' = reget_conn_wq p -> pe_released p' = false -> Forall (fun i => user i = None) (x :: k) -> outcome_ok n x (goes p' k).
Proof.
  intros E1 E2 E3 E4 E5 Hu. split_and!; [|done|].
  - intros b. rewrite E2, E3, E4. apply Hl.
  - intros b. specialize (Hc b). unfold conn_ok in *. rewrite E1, E2, E3, E4.
    assert (forall r, then_acts n x k [] b r = n b r) as Heq.
    { intros r. unfold then_acts. apply list.Forall_cons in Hu as [Hxa Hk]. rewrite (unused_weigh r b k Hk).
      pose proof (unused_weigh r b [x] ltac:(by constructor)) as H1. rewrite weigh_cons in H1. change (weigh r b []) with 0 in H1.
      unfold tally. change (total_acts _ []) with 0. lia. }
    rewrite !Heq. exact Hc.
Qed.
Ltac unused := apply same_ok; [done|done|done|done|done|subst x; by repeat constructor].

Lemma set_status_ok a st : x = SetStatus a st -> 0 < n a Holds ->
  outcome_ok n x (with_conn p a (fun c => goes (set_conn p a (set_stat c st)) [])).
Proof. intros Ex Ha. apply with_live; [done|]. intros c E. by_counts a c E. Qed.

Lemma online_ok : x = Online -> outcome_ok n x (peer_online p).
Proof. intros Ex. unfold peer_online. destruct (_ =? _); unused. Qed.

Lemma sendmessage_ok : x = SendStart -> outcome_ok n x (hmdfs_sendmessage p).
Proof. intros Ex. unfold hmdfs_sendmessage. destruct (negb _); unused. Qed.

Lemma send_try_ok : x = SendTry -> outcome_ok n x (send_try p).
Proof.
  intros Ex. unfold send_try, get_conn_impl. pose proof (find_conn_spec (fun c => cn_status c =? CONNECT_STAT_WORKING) _ impl_live) as Hf.
  destruct (find_conn _ _ _) as [[a|]|]; [|destruct (negb _); unused|done]. destruct Hf as [Hin%cnt_elem (c&E&Hs)].
  apply get_found_ok; [done|by subst x|only_tac|intros []; weighs; rewrite ?decide_True by done; lia|].
  intros c' E'. right. rewrite E in E'. injection E' as <-. specialize (Hc a). unfold conn_ok in Hc. rewrite E in Hc. zb. lia.
Qed.

Lemma send_on_ok e a : x = SendOn a -> 0 < n a Holds -> outcome_ok n x (send_on e p a).
Proof. intros Ex Ha. apply with_live; [done|]. intros c E. destruct (_ =? _); by_counts a c E. Qed.

Lemma send_shut_ok a : x = SendShut a -> 0 < n a Holds -> outcome_ok n x (send_shut p a).
Proof.
  intros Ex Ha. apply with_live; [done|]. intros c E. destruct (negb _); [|by_counts a c E].
  unfold connection_get, with_conn. rewrite E. by_counts a c E.
Qed.

Lemma queue_reget_ok a : x = QueueReget a -> 0 < n a Holds -> outcome_ok n x (queue_reget p a).
Proof.
  intros Ex Ha. apply with_live; [done|]. intros c E. case_bool_decide as Hin; [by_counts a c E|].
  assert (cnt a (reget_conn_wq p) = 0) by (rewrite cnt_elem in Hin; pose proof (cnt_nonneg a (reget_conn_wq p)); lia). by_counts a c E.
Qed.

Lemma send_loop_ok : x = SendLoop -> outcome_ok n x (send_loop p).
Proof. intros Ex. unfold send_loop. destruct (negb _); unused. Qed.

Lemma get_conn_ok e sock st : x = GetConn sock st -> st < CONNECT_STAT_WORKING -> outcome_ok n x (hmdfs_get_conn_tcp e p sock st).
Proof.
  intros Ex Hst. unfold hmdfs_get_conn_tcp, lookup_conn_by_socketfd_unsafe. pose proof (find_conn_spec (fun c => cn_sock c =? sock) _ impl_live) as Hf.
  destruct (find_conn _ _ _) as [[a|]|]; [|clear Hf|done].
  - destruct Hf as [Hin%cnt_elem _]. apply get_found_ok; [done|by subst x|only_tac|intros []; weighs; rewrite ?decide_True by done; lia|by left].
  - unfold alloc_conn_tcp. destruct (e_alloc e) as [a|]; [|unused]. destruct (pe_conns p !! a) as [c|] eqn:E; [unused|].
    assert (n a Holds = 0 /\ cnt a (conn_impl_list p) = 0 /\ cnt a (reget_conn_wq p) = 0 /\ cnt a (conn_deleting_list p) = 0) as (Hz0&H1&H2&H3)
      by (pose proof (Hc a) as H; unfold conn_ok in H; by rewrite E in H).
    one_conn a; [simp_conn; apply Hl|done|]. unfold conn_ok. simp_conn. rewrite lookup_insert_eq. weighs. subst x. cbn [role_of one].
    rewrite !decide_True by done. rewrite !(Hz a) by done. simp_conn. cbn [task_nr Z.b2z Z.eqb]. lia.
Qed.

Lemma clear_fd_ok a : x = ClearFd a -> 0 < n a Holds -> outcome_ok n x (clear_fd_of p a).
Proof. intros Ex Ha. apply with_live; [done|]. intros c E. by_counts a c E. Qed.

Lemma wake_ok a : x = WakeTask a -> 0 < n a Holds -> outcome_ok n x (wake_up_process p a).
Proof.
  intros Ex Ha. apply with_live; [done|]. intros c E. pose proof (Hc a) as Hca. unfold conn_ok in Hca. rewrite E in Hca.
  pose proof (Hx a Starts) as Hs. rewrite Ex in Hs. cbn [role_of one] in Hs. rewrite decide_True in Hs by done.
  destruct (cn_recv_task c) eqn:E1, (cn_task c) eqn:E2; cbn [task_nr Z.b2z] in Hca; try lia. destruct (cn_should_stop c) eqn:E3; by_counts a c E.
Qed.

Lemma disc_del_ok a : x = DiscDel a -> 0 < n a Holds -> outcome_ok n x (list_del_conn p a).
Proof. intros Ex Ha. apply with_live; [done|]. intros c E. by_counts a c E. Qed.

Lemma deleting_wait_ok e : x = DiscWait -> outcome_ok n x (deleting_wait e p).
Proof. intros Ex. unfold deleting_wait. destruct (conn_deleting_list p); [|destruct (e_timeout e)]; unused. Qed.

Lemma weigh_disconnect r b l : weigh r b (concat (map disconnect_conn l)) = match r with Holds => cnt b l | Touches => 3 * cnt b l | _ => 0 end.
Proof.
  induction l as [|a l IH]; [by destruct r|]. cbn [map concat]. rewrite weigh_app, IH, cnt_cons.
  unfold disconnect_conn, tcp_close_socket, weigh. cbn [app]. rewrite !sum_acts_cons. change (sum_acts _ []) with 0.
  destruct r; cbn [role_of one]; destruct (decide (a = b)); lia.
Qed.

Lemma disconnect_take_ok : x = DiscTake -> outcome_ok n x (disconnect_take p).
Proof.
  intros Ex. assert (no_created p) as Hno by (apply Hcmd; by rewrite Ex). split_and!; [|done|].
  - intros b. cbn. pose proof (Hl b). pose proof (cnt_nonneg b (conn_deleting_list p)). pose proof (cnt_nonneg b (conn_impl_list p)). change (cnt b []) with 0. lia.
  - intros b. pose proof (Hc b) as Hb. unfold conn_ok, then_acts in *. unfold disconnect_take, goes.
    cbn [pe_conns conn_impl_list conn_deleting_list reget_conn_wq set_lists]. change (cnt b []) with 0. change (tally b [] ?r) with 0.
    rewrite !weigh_app, !weigh_disconnect. subst x. pose proof (cnt_nonneg b (conn_impl_list p)). unfold tally, weigh. rewrite !sum_acts_cons. change (sum_acts _ []) with 0.
    change (total_acts _ []) with 0. cbn [role_of one]. destruct (pe_conns p !! b) as [c|] eqn:E; [|lia]. specialize (Hno _ _ E).
    destruct c as [? ? ? ? [] [] [] []]; cbn [cn_ref cn_status cn_task cn_recv_task cn_should_stop cn_close_mutex task_nr Z.b2z Z.eqb Pos.eqb] in *; lia.
Qed.

(** Commands come one after another, so that nobody else has added the socket. *)
Lemma add_conn_ok a : x = AddConn a -> 0 < n a Holds ->
  (forall c, pe_conns p !! a = Some c -> find_conn (fun d => cn_sock d =? cn_sock c) (pe_conns p) (conn_impl_list p) = Some None) ->
  outcome_ok n x (add_conn_tcp_unsafe p a).
Proof.
  intros Ex Ha Hf. apply with_live; [done|]. intros c E. pose proof (Hc a) as Hca. unfold conn_ok in Hca. rewrite E in Hca.
  pose proof (Hx a Adds) as Hadd. rewrite Ex in Hadd. cbn [role_of one] in Hadd. rewrite decide_True in Hadd by done.
  unfold lookup_conn_by_socketfd_unsafe. rewrite (Hf c E).
  assert (cnt a (if cn_status c =? CONNECT_STAT_WAIT_REQUEST then a :: conn_impl_list p else conn_impl_list p ++ [a]) = 1 + cnt a (conn_impl_list p)) as Hcnt.
  { destruct (cn_status c =? CONNECT_STAT_WAIT_REQUEST); [rewrite cnt_cons|rewrite cnt_app, cnt_cons]; change (cnt a []) with 0; destruct (decide (a = a)); [lia|done|lia|done]. }
  unfold connection_get, with_conn. cbn [pe_conns set_lists]. rewrite E.
  apply next_ok with (a := a); [rewrite Ex; destruct (cn_status c =? CONNECT_STAT_WAIT_RESPONSE); only_tac|done| | |done|].
  - intros b Hb. unfold set_conn, set_conns. cbn [pe_conns conn_impl_list conn_deleting_list reget_conn_wq set_lists]. rewrite lookup_insert_ne by congruence. split_and!; try done.
    destruct (cn_status c =? CONNECT_STAT_WAIT_REQUEST); [rewrite cnt_cons|rewrite cnt_app, cnt_cons]; change (cnt b []) with 0; destruct (decide (a = b)); congruence || lia.
  - unfold set_conn, set_conns. cbn [pe_conns conn_impl_list conn_deleting_list reget_conn_wq set_lists]. rewrite Hcnt. pose proof (Hl a). lia.
  - pose proof (Hn a Adds). unfold conn_ok, then_acts, set_conn, set_conns in *. cbn [pe_conns conn_impl_list conn_deleting_list reget_conn_wq set_lists]. rewrite lookup_insert_eq, Hcnt.
    rewrite !weigh_app. assert (forall r, weigh r a (if cn_status c =? CONNECT_STAT_WAIT_RESPONSE then [SendHs a false] else []) = 0) as Hw by (intros r; by destruct (cn_status c =? CONNECT_STAT_WAIT_RESPONSE), r).
    rewrite !Hw, Ex. unfold tally, weigh. rewrite !sum_acts_cons. change (sum_acts _ []) with 0. change (total_acts _ []) with 0. cbn [role_of one]. rewrite !decide_True by done.
    destruct c as [? ? ? ? [] [] [] []]; cbn [cn_ref cn_status cn_task cn_recv_task cn_should_stop cn_close_mutex set_ref task_nr Z.b2z Z.eqb Pos.eqb] in *; lia.
Qed.
End Step.

(** Every action of a peer that is not released. *)
Lemma act_ok p n e x : (forall a, conn_ok p a (n a)) -> lists_ok p -> pe_released p = false -> (forall a r, 0 <= n a r) ->
  (forall a r, n a Holds = 0 -> n a r = 0) -> (forall a r, one (role_of r x) a <= n a r) ->
  (forall a, user x = Some a -> 0 < n a Holds) -> x <> DelPeer -> (command x = true -> adding x = false -> no_created p) ->
  (forall sock st, x = GetConn sock st -> st < CONNECT_STAT_WORKING) ->
  (forall a c, x = AddConn a -> pe_conns p !! a = Some c -> find_conn (fun d => cn_sock d =? cn_sock c) (pe_conns p) (conn_impl_list p) = Some None) ->
  outcome_ok n x (act_step e p x).
Proof.
  intros Hc Hl Hr Hn Hz Hx Hu Hd Hcmd Hget Hadd. destruct x; cbn [act_step]; try (specialize (Hu _ eq_refl)).
  all: eauto using conn_put_ok, close_lock_ok, kthread_stop_ok, close_end_ok, reget_move_ok, reget_shut_ok, notify_close_ok, recv_turn_ok,
    recv_message_ok, recv_unlock_ok, recv_stop_ok, recv_test_ok, recv_put_ok, send_handshake_ok, set_status_ok, online_ok, sendmessage_ok,
    send_try_ok, send_on_ok, send_shut_ok, queue_reget_ok, send_loop_ok, get_conn_ok, add_conn_ok, clear_fd_ok, wake_ok, disconnect_take_ok,
    disc_del_ok, deleting_wait_ok.
  all: try (eapply same_ok; eauto; by repeat constructor).
Qed.

(** * The shape of threads *)

(** The receive thread of a connection does these before it comes back to its loop; they never wait. *)
Definition quick (i : act) : bool :=
  match i with
  | Put _ | RegetMove _ true | RegetShut _ false | NotifyClose _ | SendHs _ true | SetStatus _ _ | SetNode _ | Online | QueueEvt _ | Notify _ => true
  | _ => false
  end.
Definition receiving (i : act) : bool := if role_of Receives i then true else false.
Definition plain_act (i : act) : bool :=
  match i with CloseWait _ | CloseEnd _ | DelPeer => false | _ => negb (receiving i) end.
Definition closing (t : thread) : bool :=
  match t with [] | [CloseWait _] | [CloseEnd _] | [Put _; CloseEnd _] => true | _ => false end.

(** A receive thread, or one that may be closing a socket at the moment. *)
Inductive conn_thread_ok : thread -> Prop :=
  | Receiver q r : Forall (fun i => quick i = true) q -> receiving r = true -> conn_thread_ok (q ++ [r])
  | Other f rest : closing f = true -> Forall (fun i => plain_act i = true) rest -> conn_thread_ok (f ++ rest).

Ltac next_cases H :=
  unfold close_lock, kthread_stop, close_end, reget_move, reget_shut, connection_notify_to_close, recv_turn, recv_message, recv_unlock, recv_stop,
    recv_test, recv_put, connection_send_handshake, peer_online, hmdfs_sendmessage, send_try, get_conn_impl, send_on, send_shut, queue_reget,
    send_loop, hmdfs_get_conn_tcp, lookup_conn_by_socketfd_unsafe, alloc_conn_tcp, add_conn_tcp_unsafe, lookup_conn_by_socketfd_unsafe, clear_fd_of,
    wake_up_process, hmdfs_disconnect_node, list_del_conn, deleting_wait, connection_get, connection_put, with_conn, goes, handshake_actions,
    hmdfs_reget_connection, tcp_close_socket in H;
  repeat (case_match; try discriminate H); injection H as <- <- <-.

Lemma quick_next e p x p' k st : quick x = true -> act_step e p x = Next p' k st -> Forall (fun i => quick i = true) k /\ st = [].
Proof.
  intros Hq H. destruct x as [| | | |a []|a []| | | | | | | |a []| | | | | | | | | | | | | | | | | | | | | |]; try discriminate Hq; cbn [act_step] in H; next_cases H; rewrite ?andb_false_r; split; try done; by repeat constructor.
Qed.

Lemma recv_next e p x p' k st : receiving x = true -> act_step e p x = Next p' k st ->
  (k = [] \/ exists q r, k = q ++ [r] /\ Forall (fun i => quick i = true) q /\ receiving r = true) /\ st = [].
Proof.
  intros Hq H. destruct x; try discriminate Hq; cbn [act_step] in H; next_cases H; split; try done; try (by left); right;
    match goal with |- exists q r, ?k = _ /\ _ => exists (List.removelast k), (List.last k DelPeer) end; split_and!; try done; by repeat constructor.
Qed.

Lemma plain_next e p x p' k st : plain_act x = true -> act_step e p x = Next p' k st ->
  (exists f rest, k = f ++ rest /\ closing f = true /\ Forall (fun i => plain_act i = true) rest) /\ Forall conn_thread_ok st.
Proof.
  intros Hq H. destruct x; try discriminate Hq; cbn [act_step] in H; unfold disconnect_take in H; next_cases H.
  all: split; [|try (by constructor)].
  all: try (eexists [], _; split_and!; [done|done|by repeat constructor]).
  - by exists [CloseWait a], [].
  - constructor; [|done]. by apply (Receiver []).
  - eexists [], _. split_and!; [done|done|]. apply list.Forall_app. split; [|by repeat constructor].
    induction (conn_impl_list p) as [|a l IH]; [done|]. cbn [map concat]. apply list.Forall_app. split; [by repeat constructor|done].
Qed.

Lemma closing_next e p f rest x p' k st : closing (x :: f) = true -> Forall (fun i => plain_act i = true) rest -> act_step e p x = Next p' k st ->
  conn_thread_ok (k ++ f ++ rest) /\ Forall conn_thread_ok st.
Proof.
  intros Hf Hr H. destruct x; try discriminate Hf; destruct f as [|[] []]; try discriminate Hf; cbn [act_step] in H; next_cases H; split; try done;
    match goal with
    | |- conn_thread_ok ([] ++ [CloseEnd ?a] ++ _) => by apply (Other [CloseEnd a])
    | |- conn_thread_ok ([] ++ [] ++ _) => by apply (Other [])
    | |- conn_thread_ok (?k ++ [] ++ _) => by apply (Other k)
    end.
Qed.

(** A thread keeps its shape. *)
Lemma shape_next e p x rest p' k st : conn_thread_ok (x :: rest) -> act_step e p x = Next p' k st -> conn_thread_ok (k ++ rest) /\ Forall conn_thread_ok st.
Proof.
  intros Ht H. inversion Ht as [q r Hq Hrec E|f rest' Hf Hrest E].
  - destruct q as [|y q]; injection E as -> E.
    + destruct (recv_next _ _ _ _ _ _ Hrec H) as [[->|(q&r'&->&Hq'&Hr')] ->]; subst rest; (split; [|done]); [by apply (Other [] [])|]. rewrite app_nil_r. by constructor.
    + destruct (quick_next _ _ _ _ _ _ (Forall_inv Hq) H) as [Hk ->]. split; [|done]. subst rest. rewrite (assoc_L (++)). constructor; [|done].
      apply list.Forall_app. split; [done|by eapply Forall_inv_tail].
  - destruct f as [|y f]; [|injection E as -> <-; by eapply closing_next]. cbn in E. subst rest'.
    destruct (plain_next _ _ _ _ _ _ (Forall_inv Hrest) H) as [(f&k'&->&Hf'&Hk') Hst]. split; [|done]. rewrite <- (assoc_L (++)). constructor; [done|].
    apply list.Forall_app. split; [done|by eapply Forall_inv_tail].
Qed.

Lemma no_del t : conn_thread_ok t -> DelPeer ∉ t.
Proof.
  intros [q r Hq Hr|f rest Hf Hr] [Hin|Hin]%elem_of_app.
  - rewrite list.Forall_forall in Hq. by specialize (Hq _ Hin).
  - apply list_elem_of_singleton in Hin as <-. done.
  - destruct f as [|[] [|[] []]]; try discriminate Hf; repeat (apply elem_of_cons in Hin as [Hin|Hin]; try discriminate Hin); by apply elem_of_nil in Hin.
  - rewrite list.Forall_forall in Hr. by specialize (Hr _ Hin).
Qed.

(** ** What a thread uses *)

Lemma held_disconnect l : held (concat (map disconnect_conn l)).
Proof.
  induction l as [|a l IH]; [done|]. cbn [map concat]. apply held_app; [|done]. cbn. unfold weigh. rewrite !sum_acts_cons. cbn [role_of one].
  rewrite decide_True by done. change (sum_acts _ []) with 0. lia.
Qed.

Lemma held_next e p x rest p' k st : held (x :: rest) -> act_step e p x = Next p' k st -> held (k ++ rest) /\ Forall held st.
Proof.
  intros [Hx Hrest] H. destruct x; cbn [act_step] in H; unfold disconnect_take in H; next_cases H.
  all: try (split; [|by constructor]).
  all: cbn [app held user] in *; split_and?; try done.
  all: simplify_eq; rewrite ?weigh_cons in *; cbn [role_of one] in *.
  all: repeat match goal with |- context [weigh Holds ?a ?r] =>
    lazymatch goal with H : 0 <= weigh Holds a r |- _ => fail | _ => pose proof (weigh_nonneg Holds a r) end end.
  all: repeat rewrite decide_True in * by done; repeat match goal with |- context [decide ?P] => destruct (decide P) end; try lia.
  - constructor; [|done]. split; [|done]. cbn [user]. rewrite weigh_cons. cbn [role_of one]. by rewrite decide_True by done.
  - rewrite <- (assoc_L (++)). apply held_app; [apply held_disconnect|done].
Qed.

(** ** Commands *)

(** A thread adds a connection with its first action at most. *)
Definition cmd_shape (t : thread) : Prop :=
  match t with
  | [] => True
  | x :: rest => match x with GetConn _ st => st < CONNECT_STAT_WORKING | _ => True end /\ Forall (fun i => adding i = false) rest
  end.

Lemma cmd_next e p x p' k st : act_step e p x = Next p' k st ->
  (command x = false -> Forall (fun i => command i = false) k) /\ Forall (Forall (fun i => command i = false)) st /\
  (Forall (fun i => adding i = false) k \/ exists y k', k = y :: k' /\ command x = true /\ Forall (fun i => adding i = false) k' /\
     match y with GetConn _ _ => False | AddConn a => pe_conns p !! a = None /\ exists sock st, x = GetConn sock st | _ => True end).
Proof.
  intros H. destruct x; cbn [act_step] in H; unfold disconnect_take in H; next_cases H; split_and!; try done; try (intros _; by repeat constructor); try (by repeat constructor);
    try (left; by repeat constructor); try (right; eexists _, _; split; [done|split; [done|split; [by repeat constructor|first [exact I|split; [done|by eexists _, _]]]]]).
  left. apply list.Forall_app. split; [|by repeat constructor].
  induction (conn_impl_list p) as [|a l IH]; [done|]. cbn [map concat]. apply list.Forall_app. split; [by repeat constructor|done].
Qed.

Lemma shape_tail rest : Forall (fun i => adding i = false) rest -> cmd_shape rest.
Proof. intros [|y l Hy Hl]; [done|]. split; [by destruct y|done]. Qed.

Lemma cmd_shape_next e p x rest p' k st : cmd_shape (x :: rest) -> act_step e p x = Next p' k st -> cmd_shape (k ++ rest).
Proof.
  intros [_ Hrest] H. destruct (cmd_next _ _ _ _ _ _ H) as (_&_&[Hk|(y&k'&->&_&Hk&Hy)]).
  - apply shape_tail, list.Forall_app. done.
  - split; [by destruct y|]. apply list.Forall_app. done.
Qed.

Lemma set_conn_lookup p a c : pe_conns (set_conn p a c) !! a = Some c.
Proof. unfold set_conn, set_conns. cbn. by rewrite lookup_insert_eq. Qed.

(** The list only gets the connection that is added, and sockets stay. *)
Lemma peer_next e p x p' k st : act_step e p x = Next p' k st ->
  (forall b, b ∈ conn_impl_list p' -> b ∈ conn_impl_list p \/ x = AddConn b) /\
  (forall b c', pe_conns p' !! b = Some c' -> (exists c, pe_conns p !! b = Some c /\ cn_sock c = cn_sock c') \/
     pe_conns p !! b = None /\ exists sock st, x = GetConn sock st /\ cn_sock c' = sock /\
       find_conn (fun c => cn_sock c =? sock) (pe_conns p) (conn_impl_list p) = Some None).
Proof.
  intros H. destruct x; cbn [act_step] in H; unfold disconnect_take in H; next_cases H; split; intros b;
    cbn [conn_unlist set_conn set_conns set_lists set_works set_node_status hmdfs_node_inc_evt_seq add_evt notify add_returned release_peer pe_conns conn_impl_list];
    try (by left); try (unfold without; intros Hb; first [apply list_elem_of_filter in Hb as [_ Hb]; by left|by apply elem_of_nil in Hb]).
  all: try (intros Hb; first [apply elem_of_cons in Hb as [->|Hb]|apply elem_of_app in Hb as [Hb|Hb%list_elem_of_singleton]]; first [by left|right; congruence]).
  all: intros c' Hb; repeat first [rewrite lookup_insert_Some in Hb|rewrite lookup_delete_Some in Hb].
  all: repeat match goal with H : _ \/ _ |- _ => destruct H | H : _ /\ _ |- _ => destruct H end; subst.
  all: try match goal with H : pe_conns (set_conn _ _ _) !! _ = Some _ |- _ => rewrite set_conn_lookup in H; injection H as <- end.
  all: try (left; eexists; split; [eassumption|done]).
  right. split; [done|]. by eexists _, _.
Qed.

(** * No freed memory is used *)

Record conn_inv (s : conn_state) : Prop := {
  ci_conns : forall a, conn_ok (cs_peer s) a (tally a (cs_threads s));
  ci_lists : lists_ok (cs_peer s);
  ci_peer : pe_released (cs_peer s) = false;
  ci_held : Forall held (cs_threads s);
  ci_shape : Forall conn_thread_ok (cs_threads s);
  ci_cmds : forall j t i, cs_threads s !! j = Some t -> i ∈ t -> command i = true -> cs_cmd s = Some j;
  ci_first : Forall cmd_shape (cs_threads s);
  ci_socks : forall t a c b d, t ∈ cs_threads s -> AddConn a ∈ t -> pe_conns (cs_peer s) !! a = Some c ->
    b ∈ conn_impl_list (cs_peer s) -> pe_conns (cs_peer s) !! b = Some d -> cn_sock d <> cn_sock c
}.

Lemma new_conn_peer_inv : conn_inv new_conn_peer.
Proof. by constructor. Qed.

(** A new thread that has no references. *)
Lemma start_tally s t a r : (forall a r, weigh r a t = 0) -> tally a (cs_threads s ++ [t]) r = tally a (cs_threads s) r.
Proof. intros Hw. specialize (Hw a r). unfold tally, weigh in *. rewrite total_app, total_cons. change (total_acts _ []) with 0. lia. Qed.

Lemma conn_start_inv s t cmd : conn_inv s -> (forall a r, weigh r a t = 0) -> held t -> conn_thread_ok t -> cmd_shape t ->
  Forall (fun i => command i = false) t /\ cmd = cs_cmd s \/ cmd_idle s = true /\ cmd = Some (length (cs_threads s)) ->
  conn_inv (ConnState (cs_peer s) (cs_threads s ++ [t]) cmd).
Proof.
  intros [Hc Hl Hr Hh Hs Hcmd Hf Hso] Hw Ht Hok Hsh Hnew. constructor; cbn [cs_peer cs_threads cs_cmd]; [|done|done|apply list.Forall_app; by split; [|constructor]..| | |].
  - intros a. specialize (Hc a). unfold conn_ok in *. by rewrite !(start_tally s t) by done.
  - intros j u i Hj Hi Hci. apply lookup_app_Some in Hj as [Hj|[Hj Hu]].
    + pose proof (Hcmd _ _ _ Hj Hi Hci) as E. destruct Hnew as [[_ ->]|[Hid _]]; [done|]. unfold cmd_idle in Hid. rewrite E in Hid.
      rewrite Hj in Hid. by destruct u; [apply elem_of_nil in Hi|].
    + apply list_lookup_singleton_Some in Hu as [Hj0 <-]. destruct Hnew as [[Hno _]|[_ ->]]; [|f_equal; lia].
      rewrite list.Forall_forall in Hno. specialize (Hno _ Hi). congruence.
  - apply list.Forall_app. by split; [|constructor].
  - intros u a c b d [Hu|Hu%list_elem_of_singleton]%elem_of_app Hin; [by eapply Hso|]. subst u. intros Ha. specialize (Hw a Holds).
    pose proof (held_in _ _ _ Ht Hin eq_refl). lia.
Qed.

Lemma reget_work_inv s a : conn_inv s -> a ∈ reget_conn_wq (cs_peer s) ->
  conn_inv (ConnState (set_works (cs_peer s) (without a (reget_conn_wq (cs_peer s)))) (cs_threads s ++ [hmdfs_reget_connection_work_fn a]) (cs_cmd s)).
Proof.
  intros [Hc Hl Hr Hh Hs Hcmd Hf Hso] Hin%cnt_elem. constructor; cbn [cs_peer cs_threads cs_cmd]; [| |done|..].
  - intros b. specialize (Hc b). specialize (Hl b). unfold conn_ok in *. cbn [pe_conns conn_impl_list conn_deleting_list reget_conn_wq set_works].
    rewrite cnt_without. assert (forall r, tally b (cs_threads s ++ [hmdfs_reget_connection_work_fn a]) r = tally b (cs_threads s) r + weigh r b [RegetMove a false; Put a]) as Heq.
    { intros r. unfold tally. by rewrite total_app, total_cons, Z.add_0_r. }
    rewrite !Heq. rewrite !weigh_cons. change (weigh _ _ []) with 0. cbn [role_of one]. pose proof (tally_nonneg Holds b (cs_threads s)). destruct (decide (a = b)) as [<-|]; [rewrite decide_True by done|rewrite decide_False by congruence].
    + destruct (pe_conns (cs_peer s) !! a) as [[r0 st0 so0 fd0 [] [] [] []]|]; cbn [cn_ref cn_status cn_task cn_recv_task cn_should_stop cn_close_mutex task_nr Z.b2z Z.eqb Pos.eqb] in *; lia.
    + rewrite !Z.add_0_r. exact Hc.
  - intros b. specialize (Hl b). cbn [conn_impl_list conn_deleting_list reget_conn_wq set_works]. rewrite cnt_without. destruct (decide _); lia.
  - apply list.Forall_app. split; [done|]. constructor; [|done]. cbn [held user hmdfs_reget_connection_work_fn hmdfs_reget_connection app]. rewrite !weigh_cons. cbn [role_of one]. rewrite decide_True by done. change (weigh _ _ []) with 0. lia.
  - apply list.Forall_app. split; [done|]. constructor; [|done]. apply (Other []); [done|]. by repeat constructor.
  - intros j u i Hj Hi Hci. apply lookup_app_Some in Hj as [Hj|[Hj Hu]]; [by eapply Hcmd|]. apply list_lookup_singleton_Some in Hu as [_ <-].
    unfold hmdfs_reget_connection_work_fn, hmdfs_reget_connection in Hi. repeat (apply elem_of_cons in Hi as [->|Hi]; [discriminate Hci|]). by apply elem_of_nil in Hi.
  - apply list.Forall_app. split; [done|]. constructor; [|done]. by repeat constructor.
  - intros u b c d e [Hu|Hu%list_elem_of_singleton]%elem_of_app Hb; [by eapply Hso|]. subst u.
    unfold hmdfs_reget_connection_work_fn, hmdfs_reget_connection in Hb. repeat (apply elem_of_cons in Hb as [Hb|Hb]; [discriminate Hb|]). by apply elem_of_nil in Hb.
Qed.

(** A step keeps the invariant: it is never one on freed memory, and every task that is woken is there. *)
Lemma step_facts s i x rest : conn_inv s -> cs_threads s !! i = Some (x :: rest) -> forall e, outcome_ok (fun a => tally a (cs_threads s)) x (act_step e (cs_peer s) x).
Proof.
  intros [Hc Hl Hr Hh Hs Hcmd Hf Hso] Hi e. assert ((x :: rest) ∈ cs_threads s) as Hin by (by eapply list_elem_of_lookup_2).
  rewrite list.Forall_forall in Hh, Hs, Hf. pose proof (Hh _ Hin) as Hh'. pose proof (Hs _ Hin) as Hs'. pose proof (Hf _ Hin) as [Hget Hrest].
  assert (forall a c, pe_conns (cs_peer s) !! a = Some c -> task_nr (cn_task c) = 0 -> exists t j, cs_threads s !! j = Some t /\ cs_cmd s = Some j /\ exists k, k ∈ t /\ adding k = true) as Hcreated.
  { intros a c E Ht. specialize (Hc a). unfold conn_ok in Hc. rewrite E in Hc. destruct (tally_pos Starts a (cs_threads s)) as (t&k&Hkt&Hk&Hrole); [lia|].
    apply list_elem_of_lookup in Hkt as [j Hj]. exists t, j. assert (command k = true /\ adding k = true) as [Hck Hak] by (by destruct k). split_and!; [done|by eapply Hcmd|by exists k]. }
  apply act_ok; try done; [intros; apply tally_nonneg|intros; apply held_tally; [by apply list.Forall_forall|done]|..].
  - intros a r. etransitivity; [|by apply weigh_tally]. rewrite weigh_cons. pose proof (weigh_nonneg r a rest). lia.
  - intros a Hu. destruct Hh' as [Hx _]. rewrite Hu in Hx. pose proof (weigh_tally Holds a _ _ Hin). lia.
  - intros ->. by eapply no_del; [|left].
  - intros Hcx Hax a c E Ht. destruct (Hcreated a c E Ht) as (t&j&Hj&Hcj&k&Hk&Hak).
    rewrite (Hcmd _ _ x Hi ltac:(by left) Hcx) in Hcj. injection Hcj as <-. rewrite Hi in Hj. injection Hj as <-.
    rewrite list.Forall_forall in Hrest. apply elem_of_cons in Hk as [->|Hk]; [congruence|]. specialize (Hrest _ Hk). congruence.
  - intros sock st ->. done.
  - intros a c -> E. assert (forall b, b ∈ conn_impl_list (cs_peer s) -> exists d, pe_conns (cs_peer s) !! b = Some d) as Hlive.
    { intros b Hb%cnt_elem. specialize (Hc b). unfold conn_ok in Hc. destruct (pe_conns (cs_peer s) !! b); [by eexists|lia]. }
    pose proof (find_conn_spec (cs_peer s) Hr (fun d => cn_sock d =? cn_sock c) _ Hlive) as Hfind. destruct (find_conn _ _ _) as [[b|]|]; [|done|done].
    exfalso. destruct Hfind as [Hb (d&Ed&Hsock)]. zb. by eapply (Hso _ a c b d Hin); [left| | | |].
Qed.

(** The socket of a connection that is being added stays a new one. *)
Lemma socks_next s i x rest e p' k st : conn_inv s -> cs_threads s !! i = Some (x :: rest) -> act_step e (cs_peer s) x = Next p' k st ->
  forall t a c b d, t ∈ <[i:=k ++ rest]> (cs_threads s) ++ st -> AddConn a ∈ t -> pe_conns p' !! a = Some c ->
    b ∈ conn_impl_list p' -> pe_conns p' !! b = Some d -> cn_sock d <> cn_sock c.
Proof.
  intros [Hc Hl Hr Hh Hs Hcmd Hf Hso] Hi E t a c b d Ht Ha Ec Hb Ed.
  destruct (cmd_next _ _ _ _ _ _ E) as (Hnocmd&Hst''&Hadd). destruct (peer_next _ _ _ _ _ _ E) as [Himpl Hconns].
  rewrite list.Forall_forall in Hf, Hh. pose proof (Hf _ (list_elem_of_lookup_2 _ _ _ Hi)) as [_ Hrest]. rewrite list.Forall_forall in Hrest.
  assert (forall b, b ∈ conn_impl_list (cs_peer s) -> exists d, pe_conns (cs_peer s) !! b = Some d) as Hlive.
  { intros b' Hb'%cnt_elem. specialize (Hc b'). unfold conn_ok in Hc. destruct (pe_conns (cs_peer s) !! b'); [by eexists|lia]. }
  assert (forall b', b' ∈ conn_impl_list (cs_peer s) -> b' = b -> exists d0, pe_conns (cs_peer s) !! b = Some d0 /\ cn_sock d0 = cn_sock d) as Hold.
  { intros b' Hb' ->. destruct (Hconns _ _ Ed) as [?|[Hnone _]]; [done|]. destruct (Hlive _ Hb') as [? ?]. congruence. }
  apply list_elem_of_lookup in Ht as [j Hj]. apply lookup_app_Some in Hj as [Hj|[_ Hj]]; [apply list_lookup_insert_Some in Hj as [(<-&<-&_)|(Hij&Hj)]|].
  - apply elem_of_app in Ha as [Ha|Ha]; [|by specialize (Hrest _ Ha)].
    destruct Hadd as [Hno|(y&k'&->&_&Hno&Hy)]; rewrite list.Forall_forall in Hno; [by specialize (Hno _ Ha)|].
    apply elem_of_cons in Ha as [<-|Ha]; [|by specialize (Hno _ Ha)]. destruct Hy as (Hnone&sock&st'&Hxg).
    destruct (Hconns _ _ Ec) as [(?&?&_)|(_&sock'&st0&Hx&Hsock&Hfind)]; [congruence|]. assert (sock' = sock) as -> by congruence. destruct (Himpl _ Hb) as [Hb'|]; [|congruence].
    destruct (Hold b Hb' eq_refl) as (d0&Ed0&<-). pose proof (find_conn_spec (cs_peer s) Hr (fun d => cn_sock d =? sock) _ Hlive) as Hspec.
    rewrite Hfind in Hspec. specialize (Hspec b d0 Hb' Ed0). zb. congruence.
  - assert (exists c0, pe_conns (cs_peer s) !! a = Some c0 /\ cn_sock c0 = cn_sock c) as (c0&Ec0&<-).
    { destruct (Hconns _ _ Ec) as [?|[Hnone _]]; [done|]. exfalso. specialize (Hc a). unfold conn_ok in Hc. rewrite Hnone in Hc.
      pose proof (list_elem_of_lookup_2 _ _ _ Hj) as Hj'. pose proof (held_in _ _ a (Hh _ Hj') Ha eq_refl). pose proof (weigh_tally Holds a _ _ Hj'). lia. }
    destruct (Himpl _ Hb) as [Hb'| ->].
    + destruct (Hold b Hb' eq_refl) as (d0&Ed0&<-). eapply (Hso _ a c0 b d0 (list_elem_of_lookup_2 _ _ _ Hj)); done.
    + pose proof (Hcmd _ _ _ Hj Ha eq_refl). pose proof (Hcmd _ _ (AddConn b) Hi ltac:(by left) eq_refl). congruence.
  - apply list_elem_of_lookup_2 in Hj. rewrite list.Forall_forall in Hst''. specialize (Hst'' _ Hj). rewrite list.Forall_forall in Hst''. by specialize (Hst'' _ Ha).
Qed.

Lemma conn_thread_step_inv s i e : conn_inv s -> exists s', conn_thread_step s i e = ConnOk s' /\ conn_inv s'.
Proof.
  intros Hinv. unfold conn_thread_step. destruct (cs_threads s !! i) as [[|x rest]|] eqn:Hi; [by exists s| |by exists s].
  pose proof (step_facts s i x rest Hinv Hi e) as Hok. pose proof Hinv as [Hc Hl Hr Hh Hs Hcmd Hf Hso]. rewrite Hr. cbn [andb].
  assert ((x :: rest) ∈ cs_threads s) as Hin by (by eapply list_elem_of_lookup_2).
  pose proof Hh as Hh'. pose proof Hs as Hs'. pose proof Hf as Hf'. rewrite list.Forall_forall in Hh', Hs', Hf'. specialize (Hh' _ Hin). specialize (Hs' _ Hin). specialize (Hf' _ Hin).
  destruct (act_step e (cs_peer s) x) as [p' k st| |] eqn:E; [|done|done]. destruct Hok as (Hl'&Hr'&Hc').
  destruct (held_next _ _ _ _ _ _ _ Hh' E) as [Hk Hst]. destruct (shape_next _ _ _ _ _ _ _ Hs' E) as [Hk' Hst'].
  destruct (cmd_next _ _ _ _ _ _ E) as (Hnocmd&Hst''&Hadd). destruct (peer_next _ _ _ _ _ _ E) as [Himpl Hconns].
  eexists. split; [done|]. constructor; cbn [cs_peer cs_threads cs_cmd]; [|done|done|apply list.Forall_app; split; [by apply Forall_insert|done]..| | |].
  - intros a. specialize (Hc' a). unfold conn_ok, then_acts in *. assert (forall r, tally a (<[i:=k ++ rest]> (cs_threads s) ++ st) r =
      tally a (cs_threads s) r - one (role_of r x) a + weigh r a k + tally a st r) as Heq by (intros r; apply (total_step (fun i => one (role_of r i) a)); done).
    by rewrite !Heq.
  - intros j t y Hj Hy Hcy. apply lookup_app_Some in Hj as [Hj|[_ Hj]].
    + apply list_lookup_insert_Some in Hj as [(<-&<-&_)|(_&Hj)]; [|by eapply Hcmd]. apply elem_of_app in Hy as [Hy|Hy]; [|by eapply (Hcmd _ _ y Hi); [right|]].
      destruct (command x) eqn:Hcx; [by eapply (Hcmd _ _ x Hi); [left|]|]. specialize (Hnocmd eq_refl). rewrite list.Forall_forall in Hnocmd. specialize (Hnocmd _ Hy). congruence.
    + apply list_elem_of_lookup_2 in Hj. rewrite list.Forall_forall in Hst''. specialize (Hst'' _ Hj). rewrite list.Forall_forall in Hst''. specialize (Hst'' _ Hy). congruence.
  - apply list.Forall_app. split; [apply Forall_insert; [done|by eapply cmd_shape_next]|].
    eapply List.Forall_impl; [|exact Hst'']. intros t Ht. destruct t as [|y t]; [done|]. apply list.Forall_cons in Ht as [Hy Ht]. split; [by destruct y|].
    eapply List.Forall_impl; [|exact Ht]. by intros [].
  - by eapply socks_next.
Qed.

(** As long as the peer is not released. *)
Definition keeps_peer (op : conn_op) : Prop := op <> OpDelete.

Lemma conn_op_inv s op : conn_inv s -> keeps_peer op -> exists s', conn_op_step s op = ConnOk s' /\ conn_inv s'.
Proof.
  intros Hinv Hk. destruct op as [sock st| | | |a|i e]; cbn [conn_op_step].
  - destruct (negb (st =? CONNECT_STAT_WAIT_REQUEST) && negb (st =? CONNECT_STAT_WAIT_RESPONSE)) eqn:Est; [by exists s|]. unfold sbi_cmd_store.
    destruct (cmd_idle s) eqn:Hid; [|by exists s]. eexists. split; [done|]. apply conn_start_inv; [done|by intros ? []|done| | |by right].
    + apply (Other []); [done|by repeat constructor].
    + split; [|done]. unfold CONNECT_STAT_WAIT_REQUEST, CONNECT_STAT_WAIT_RESPONSE, CONNECT_STAT_WORKING in *. apply andb_false_iff in Est as [Est|Est]; zb; lia.
  - eexists. split; [done|]. apply conn_start_inv; [done|by intros ? []|done| |by repeat constructor|left; split; [by repeat constructor|done]]. apply (Other []); [done|by repeat constructor].
  - unfold sbi_cmd_store. destruct (cmd_idle s) eqn:Hid; [|by exists s]. eexists. split; [done|]. apply conn_start_inv; [done|by intros ? []|done| |by repeat constructor|by right].
    apply (Other []); [done|by repeat constructor].
  - done.
  - case_bool_decide; [|by exists s]. eexists. split; [done|]. by apply reget_work_inv.
  - by apply conn_thread_step_inv.
Qed.

Lemma conn_run_inv s ops : conn_inv s -> Forall keeps_peer ops -> exists s', conn_run s ops = ConnOk s' /\ conn_inv s'.
Proof.
  revert s. induction ops as [|op ops IH]; intros s Hinv Hk; [by exists s|]. apply list.Forall_cons in Hk as [Hop Hk]. cbn [conn_run].
  destruct (conn_op_inv s op Hinv Hop) as (s'&->&Hinv'). by apply IH.
Qed.

(** * Everything comes to an end *)

(** Connections that work: a message is sent on them. *)
Definition works (c : connection) : bool := cn_status c =? CONNECT_STAT_WORKING.




















(** ** Threads do not wait for each other in a circle *)






(** ** The end *)









Lemma nodup_cnt l : (forall a, cnt a l <= 1) -> NoDup l.
Proof.
  induction l as [|x l IH]; intros H; [constructor|]. constructor.
  - intros Hin%cnt_elem. specialize (H x). rewrite cnt_cons, decide_True in H by done. lia.
  - apply IH. intros a. specialize (H a). rewrite cnt_cons in H. destruct (decide _); lia.
Qed.

(** * Sending *)

(** A thread that runs alone, [answer] being what its actions meet. *)
Fixpoint run_alone (fuel : nat) (answer : act -> env) (p : conn_peer) (t : thread) : option conn_peer :=
  match t, fuel with
  | [], _ => Some p
  | _, O => None
  | x :: rest, S fuel =>
      match act_step (answer x) p x with
      | Next p k _ => run_alone fuel answer p (k ++ rest)
      | _ => None
      end
  end.

Lemma run_alone_next answer f p x rest p' k st : act_step (answer x) p x = Next p' k st ->
  run_alone (S f) answer p (x :: rest) = run_alone f answer p' (k ++ rest).
Proof. intros H. cbn [run_alone]. by rewrite H. Qed.

(** A reference that is taken and given back, and more. *)
Lemma with_conn_eq p a c f : pe_conns p !! a = Some c -> with_conn p a f = f c.
Proof. intros E. unfold with_conn. by rewrite E. Qed.
Lemma put_next p a c : pe_conns p !! a = Some c -> 1 < cn_ref c -> connection_put p a = Next (set_conn p a (set_ref c (cn_ref c - 1))) [] [].
Proof. intros E Hr. unfold connection_put. rewrite (with_conn_eq _ _ _ _ E). destruct (cn_ref c - 1 =? 0) eqn:Ez; zb; [lia|done]. Qed.
Lemma set_conn_twice p a c d : set_conn (set_conn p a c) a d = set_conn p a d.
Proof. unfold set_conn, set_conns. cbn. by rewrite insert_insert_eq. Qed.

Lemma without_notin a l : a ∉ l -> without a l = l.
Proof.
  unfold without. induction l as [|x l IH]; intros Ha; [done|]. apply not_elem_of_cons in Ha as [Hx Ha]. rewrite filter_cons, decide_True by congruence. by rewrite IH.
Qed.

Section Send.
(** What the socket of a connection answers. *)
Context (send : Z -> Z).
Definition sending (i : act) : env := Env true RecvOther (match i with SendOn a => send a | _ => 0 end) 0 None false.

(** The connections that work, in the order of the list. *)
Definition is_working (p : conn_peer) (a : Z) : bool :=
  match pe_conns p !! a with Some c => cn_status c =? CONNECT_STAT_WORKING | None => false end.
Definition working (p : conn_peer) : list Z := filter (fun a => is_working p a = true) (conn_impl_list p).

(** A connection that is shut down is stopped, and the work that replaces it queued once. *)
Definition abandon (p : conn_peer) (a : Z) : conn_peer :=
  match pe_conns p !! a with
  | Some c =>
      let queued := bool_decide (a ∈ reget_conn_wq p) in
      hmdfs_node_inc_evt_seq
        (set_works (set_conn p a (set_stat (set_ref c (if queued then cn_ref c else cn_ref c + 1)) CONNECT_STAT_STOP))
           (if queued then reget_conn_wq p else reget_conn_wq p ++ [a]))
  | None => p
  end.

(** The first connection that is not shut down gives the result. *)
Fixpoint send_first (p : conn_peer) (l : list Z) : conn_peer * Z :=
  match l with
  | [] => (notify p NOTIFY_OFFLINE, - EAGAIN)
  | a :: l => if send a =? - ESHUTDOWN then send_first (abandon p a) l else (p, send a)
  end.

Definition conns_alive (p : conn_peer) : Prop :=
  NoDup (conn_impl_list p) /\ forall a, a ∈ conn_impl_list p -> exists c, pe_conns p !! a = Some c /\ 0 < cn_ref c.

Lemma find_working p : conns_alive p ->
  find_conn (fun c => cn_status c =? CONNECT_STAT_WORKING) (pe_conns p) (conn_impl_list p) = Some (head (working p)).
Proof.
  intros [_ Hlive]. unfold working, is_working. induction (conn_impl_list p) as [|a l IH]; [done|]. cbn [find_conn].
  destruct (Hlive a) as (c&E&_); [by left|]. rewrite E. cbn [mbind option_bind]. rewrite filter_cons, E. destruct (cn_status c =? _).
  - by rewrite decide_True.
  - rewrite decide_False by done. apply IH. intros b Hb. apply Hlive. by right.
Qed.

Lemma abandon_alive p a : conns_alive p -> a ∈ working p ->
  conns_alive (abandon p a) /\ pe_status (abandon p a) = pe_status p /\ working (abandon p a) = filter (fun b => b <> a) (working p).
Proof.
  intros [Hnd Hlive] Hin. apply list_elem_of_filter in Hin as [Hw Hin]. destruct (Hlive a Hin) as (c&E&Href).
  assert (forall b, pe_conns (abandon p a) !! b = if decide (a = b) then
    Some (set_stat (set_ref c (if bool_decide (a ∈ reget_conn_wq p) then cn_ref c else cn_ref c + 1)) CONNECT_STAT_STOP) else pe_conns p !! b) as Hlook.
  { intros b. unfold abandon. rewrite E. cbn. destruct (decide (a = b)) as [<-|]; [by rewrite lookup_insert_eq|by rewrite lookup_insert_ne]. }
  assert (conn_impl_list (abandon p a) = conn_impl_list p /\ pe_status (abandon p a) = pe_status p) as [Hi Hs] by (unfold abandon; by rewrite E).
  split_and!; [split; rewrite Hi; [done|]|done|].
  - intros b Hb. rewrite Hlook. destruct (decide (a = b)) as [<-|]; [|by apply Hlive]. eexists. split; [done|]. cbn. case_bool_decide; lia.
  - unfold working. rewrite Hi, list_filter_filter. apply list_filter_iff. intros b. unfold is_working. rewrite Hlook. destruct (decide (a = b)) as [<-|].
    + split; [done|intros [? _]; done].
    + split; [intros ?; split; [congruence|done]|by intros [_ ?]].
Qed.

(** A turn of the loop on a connection that is shut down. *)
Lemma send_turn p a : conns_alive p -> pe_status p = NODE_STAT_ONLINE -> head (working p) = Some a -> send a = - ESHUTDOWN ->
  exists k, (k <= 8)%nat /\ forall fuel, run_alone (k + fuel) sending p [SendTry] = run_alone fuel sending (abandon p a) [SendTry].
Proof.
  intros Hal Hst Hhd Hsend. assert (a ∈ working p) as Hin by (destruct (working p); [done|injection Hhd as ->; by left]).
  apply list_elem_of_filter in Hin as [_ Hin]. pose proof Hal as [Hnd Hlive]. destruct (Hlive a Hin) as (c&E&Href).
  pose proof (find_working p Hal) as Hf. rewrite Hhd in Hf.
  set (queued := bool_decide (a ∈ reget_conn_wq p)). exists (if queued then 8%nat else 7%nat). split; [destruct queued; lia|]. intros fuel.
  assert (forall f, run_alone (S (S (S f))) sending p [SendTry] =
    run_alone f sending (set_conn p a (set_ref (set_stat c CONNECT_STAT_STOP) (cn_ref c + 2))) [QueueReget a; Put a; IncSeq; SendLoop]) as H3.
  { intros f. cbn [run_alone act_step]. unfold send_try, get_conn_impl. rewrite Hf. unfold connection_get at 1. rewrite (with_conn_eq _ _ _ _ E). unfold goes at 1. cbn [app].
    cbn [run_alone act_step sending]. unfold send_on. erewrite with_conn_eq by apply set_conn_lookup. cbn [sending e_sent]. rewrite Hsend, Z.eqb_refl. unfold goes at 1. cbn [app]. rewrite set_conn_twice.
    cbn [run_alone act_step]. unfold send_shut. erewrite with_conn_eq by apply set_conn_lookup. change (pe_status (set_conn _ _ _)) with (pe_status p). rewrite Hst. cbn [negb Z.eqb NODE_STAT_ONLINE NODE_STAT_OFFLINE Pos.eqb].
    unfold connection_get. erewrite with_conn_eq by apply set_conn_lookup. unfold goes. cbn [app]. rewrite set_conn_twice. f_equal. f_equal. unfold set_ref, set_stat; cbn. f_equal; lia. }
  unfold abandon. rewrite E. fold queued. destruct queued eqn:Eq; cbn [Nat.add]; rewrite H3; cbn [run_alone act_step]; unfold queue_reget; erewrite with_conn_eq by apply set_conn_lookup;
    change (reget_conn_wq (set_conn _ _ _)) with (reget_conn_wq p); fold queued; rewrite Eq; unfold goes; cbn [app run_alone act_step].
  - erewrite put_next by (apply set_conn_lookup || (cbn; lia)). cbn [app act_step]. rewrite set_conn_twice.
    erewrite put_next by (apply set_conn_lookup || (cbn; lia)). cbn [app act_step]. rewrite set_conn_twice. unfold goes; cbn [app act_step]; unfold send_loop, goes. match goal with |- context [negb (pe_status ?q =? _)] => change (pe_status q) with (pe_status p) end. rewrite Hst.
    cbn [negb Z.eqb NODE_STAT_ONLINE NODE_STAT_OFFLINE Pos.eqb app]. f_equal. destruct p. unfold set_conn, set_conns, set_works, hmdfs_node_inc_evt_seq. cbn. do 3 f_equal. unfold set_stat, set_ref. cbn. f_equal. lia.
  - erewrite put_next; [|unfold set_works; cbn [pe_conns]; apply set_conn_lookup|cbn; lia].
    cbn [app act_step]; unfold goes; cbn [app act_step]; unfold send_loop, goes; cbn [app act_step]. match goal with |- context [negb (pe_status ?q =? _)] => change (pe_status q) with (pe_status p) end. rewrite Hst.
    cbn [negb Z.eqb NODE_STAT_ONLINE NODE_STAT_OFFLINE Pos.eqb app]. f_equal. destruct p. unfold set_conn, set_conns, set_works, hmdfs_node_inc_evt_seq. cbn. rewrite insert_insert_eq. do 3 f_equal. unfold set_stat, set_ref. cbn. f_equal. lia.
Qed.

Lemma send_loop_first n : forall p, length (working p) = n -> conns_alive p -> pe_status p = NODE_STAT_ONLINE ->
  exists k, (k <= 8 * n + 4)%nat /\ forall fuel, run_alone (k + fuel) sending p [SendTry] =
    let (p', ret) := send_first p (working p) in Some (add_returned p' ret).
Proof.
  induction n as [|n IH]; intros p Hn Hal Hst.
  - exists 2%nat. split; [lia|]. intros fuel. apply nil_length_inv in Hn. cbn [Nat.add run_alone act_step]. unfold send_try, get_conn_impl. rewrite find_working, Hn by done. cbn [head].
    unfold goes. cbn [app run_alone act_step]. rewrite Hst. by destruct fuel.
  - destruct (working p) as [|a l] eqn:Ew; [done|]. cbn [send_first]. destruct (send a =? - ESHUTDOWN) eqn:Es; zb.
    + destruct (send_turn p a Hal Hst) as (k1&Hk1&H1); [by rewrite Ew|done|].
      destruct (abandon_alive p a Hal) as (Hal'&Hst'&Hw'); [rewrite Ew; by left|].
      assert (NoDup (a :: l)) as Hnd by (rewrite <- Ew; apply list.NoDup_filter, Hal). apply list.NoDup_cons in Hnd as [Ha _].
      assert (working (abandon p a) = l) as Hw.
      { rewrite Hw', Ew, filter_cons, decide_False by (by intros ?). by apply without_notin. }
      destruct (IH (abandon p a)) as (k2&Hk2&H2); [rewrite Hw; by injection Hn|done|congruence|]. rewrite Hw in H2.
      exists (k1 + k2)%nat. split; [lia|]. intros fuel. rewrite <- Nat.add_assoc, H1. apply H2.
    + exists 4%nat. split; [lia|]. intros fuel. assert (a ∈ working p) as Hin by (rewrite Ew; by left). apply list_elem_of_filter in Hin as [_ Hin].
      pose proof Hal as [_ Hlive]. destruct (Hlive a Hin) as (c&E&Href). cbn [Nat.add run_alone act_step]. unfold send_try, get_conn_impl. rewrite find_working, Ew by done. cbn [head].
      unfold connection_get. rewrite (with_conn_eq _ _ _ _ E). unfold goes at 1. cbn [app run_alone act_step sending]. unfold send_on. erewrite with_conn_eq by apply set_conn_lookup. cbn [sending e_sent].
      apply Z.eqb_neq in Es as ->. unfold goes at 1. cbn [app run_alone act_step]. erewrite put_next by (apply set_conn_lookup || (cbn; lia)). cbn [app act_step].
      rewrite set_conn_twice. cbn. unfold goes. cbn [app act_step]. assert (set_conn p a (set_ref (set_ref c (cn_ref c + 1)) (cn_ref c + 1 - 1)) = p) as Hid.
      { destruct p, c. unfold set_conn, set_conns, set_ref. cbn in *. rewrite Z.add_simpl_r, insert_id by done. done. }
      cbn in Hid. rewrite Hid. by destruct fuel.
Qed.
End Send.

Lemma inv_alive s : conn_inv s -> conns_alive (cs_peer s).
Proof.
  intros [Hc Hl _ _ _ _ _ _]. split.
  - apply nodup_cnt. intros a. specialize (Hl a). pose proof (cnt_nonneg a (conn_deleting_list (cs_peer s))). lia.
  - intros a Hin%cnt_pos. specialize (Hc a). unfold conn_ok in Hc. destruct (pe_conns (cs_peer s) !! a) as [c|]; [|lia]. exists c. split; [done|apply Hc].
Qed.

(** C15: No interleaving of the threads that add, use, give up, close and disconnect connections, and of
    their receive threads, uses a connection that was freed or wakes a task that is gone: the count of
    every connection is exactly that of its references from the list, the queued works, the task that
    was not woken yet and the threads, a connection is on one list at most, and one without references
    does not exist. *)
Theorem connections_counted ops :
  Forall keeps_peer ops ->
  exists s, conn_run new_conn_peer ops = ConnOk s /\
    (forall a, match pe_conns (cs_peer s) !! a with
               | Some c => 0 < cn_ref c /\
                   cn_ref c = cnt a (conn_impl_list (cs_peer s)) + cnt a (reget_conn_wq (cs_peer s)) +
                     Z.b2z (task_nr (cn_task c) =? 0) + tally a (cs_threads s) Holds
               | None => tally a (cs_threads s) Holds = 0 /\ a ∉ conn_impl_list (cs_peer s) ++ conn_deleting_list (cs_peer s) ++ reget_conn_wq (cs_peer s)
               end) /\
    NoDup (conn_impl_list (cs_peer s) ++ conn_deleting_list (cs_peer s)) /\ NoDup (reget_conn_wq (cs_peer s)).
Proof.
  intros Hk. destruct (conn_run_inv new_conn_peer ops new_conn_peer_inv Hk) as (s&E&[Hc Hl _ _ _ _ _ _]). exists s. split_and!; [done|..].
  - intros a. specialize (Hc a). unfold conn_ok in Hc. destruct (pe_conns (cs_peer s) !! a) as [c|]; [split; apply Hc|].
    split; [apply Hc|]. rewrite cnt_elem, !cnt_app. lia.
  - apply nodup_cnt. intros a. rewrite cnt_app. apply Hl.
  - apply nodup_cnt. intros a. apply Hl.
Qed.


(** C17: A message that is sent while nothing else runs to a peer whose status is online goes to the
    connections that work, in the order of the list, until one of them is not shut down: its answer is
    the result. Those before it are stopped, each with a work queued that replaces it; with none left,
    user space is told, and the result is -EAGAIN. To a peer with any other status nothing is sent,
    even if a connection works, and the result is -EAGAIN. *)
Theorem message_uses_first_working ops s send :
  Forall keeps_peer ops -> conn_run new_conn_peer ops = ConnOk s ->
  exists k, forall fuel, run_alone (k + fuel) (sending send) (cs_peer s) [SendStart] =
    let (p, ret) := if pe_status (cs_peer s) =? NODE_STAT_ONLINE then send_first send (cs_peer s) (working (cs_peer s))
                    else (cs_peer s, - EAGAIN) in
    Some (add_returned p ret).
Proof.
  intros Hk Hrun. destruct (conn_run_inv new_conn_peer ops new_conn_peer_inv Hk) as (s0&E&Hinv). rewrite Hrun in E. injection E as <-.
  destruct (pe_status (cs_peer s) =? NODE_STAT_ONLINE) eqn:Est.
  - destruct (send_loop_first send _ (cs_peer s) eq_refl) as (k&_&H); [by apply inv_alive|by apply Z.eqb_eq|].
    exists (S k). intros fuel. cbn [Nat.add run_alone act_step]. unfold hmdfs_sendmessage. rewrite Est. apply H.
  - exists 2%nat. intros fuel. cbn [Nat.add run_alone act_step]. unfold hmdfs_sendmessage. rewrite Est. by destruct fuel.
Qed.

(** * What goes wrong *)

(** The usual circumstances: a socket that gives [m], and the address of a new connection. *)
Definition gives (m : recv_evt) : env := Env true m 0 0 None false.
Definition at_address (a : Z) : env := Env true RecvOther 0 0 (Some a) false.
Definition steps (l : list (nat * env)) : list conn_op := map (fun x => OpStep x.1 x.2) l.
Definition idle : env := gives RecvOther.
Definition shut : env := Env false RecvShutdown (- EIO) 0 None false.

(** The socket [sock] becomes the connection [a], by the thread [i]; its receive thread is the next. *)
Definition adds (i : nat) (sock status a : Z) : list conn_op := OpUpdateSocket sock status :: steps [(i, at_address a); (i, idle); (i, idle); (i, idle)].
(** The receive thread [i] handles the acknowledgement of a handshake. *)
Definition acknowledged (i : nat) : list conn_op := steps [(i, idle); (i, gives RecvAck); (i, idle); (i, idle); (i, idle); (i, idle)].

(** A receive thread that found its socket shut down has left tcp->recv_task: disconnecting does not wait
    for it, and it uses the peer after that was released. *)
Lemma receive_thread_outlives_peer :
  conn_run new_conn_peer (adds 0 7 CONNECT_STAT_WAIT_REQUEST 1 ++ steps [(1, shut)] ++ [OpDelete] ++ steps (replicate 9 (2, idle)) ++ steps [(1, idle)])%nat = ConnFreed.
Proof. vm_compute. done. Qed.

(** A second connection that begins a handshake takes a peer that is online back to shaking hands: a
    message is refused although the first connection works. *)
Lemma handshake_hides_working_connection :
  exists s, conn_run new_conn_peer (adds 0 7 CONNECT_STAT_WAIT_REQUEST 1 ++ acknowledged 1 ++ adds 2 8 CONNECT_STAT_WAIT_REQUEST 2 ++
    steps [(3, idle); (3, gives RecvRequest); (3, idle); (3, idle); (3, idle)] ++ [OpSend] ++ steps [(4, idle); (4, idle)])%nat = ConnOk s /\
    working (cs_peer s) = [1] /\ pe_status (cs_peer s) = NODE_STAT_SHAKING /\ returned (cs_peer s) = [- EAGAIN].
Proof. eexists. split; [vm_compute; reflexivity|]. done. Qed.

(** A handshake that ends while the peer is being disconnected makes it online after it was marked
    offline: it stays online without a connection. *)
Lemma online_after_disconnect :
  exists s, conn_run new_conn_peer (adds 0 7 CONNECT_STAT_WAIT_REQUEST 1 ++ steps [(1, idle); (1, gives RecvAck); (1, idle)] ++ [OpDisconnect] ++ steps [(2, idle)] ++
    steps (replicate 3 (1, idle)) ++ steps [(2, idle); (2, idle); (2, idle); (1, idle); (1, idle)] ++ steps (replicate 6 (2, idle)))%nat = ConnOk s /\
    Forall (fun t => t = []) (cs_threads s) /\ pe_conns (cs_peer s) = ∅ /\ pe_status (cs_peer s) = NODE_STAT_ONLINE /\ raw_evts (cs_peer s) = [ON; OFF].
Proof. eexists. split; [vm_compute; reflexivity|]. split_and!; [by repeat constructor|done..]. Qed.

(** When the acknowledgement cannot be sent, the connection is given up, and the peer goes online all the same. *)
Lemma failed_ack_goes_online :
  exists s, conn_run new_conn_peer (OpUpdateSocket 7 CONNECT_STAT_WAIT_RESPONSE :: steps [(0, at_address 1); (0, idle); (0, idle); (0, idle); (0, idle);
    (1, idle); (1, gives RecvResponse); (1, shut); (1, idle); (1, idle); (1, idle); (1, idle); (1, idle); (1, idle); (1, idle)])%nat = ConnOk s /\
    conn_impl_list (cs_peer s) = [] /\ pe_status (cs_peer s) = NODE_STAT_ONLINE /\ raw_evts (cs_peer s) = [ON].
Proof. eexists. split; [vm_compute; reflexivity|]. done. Qed.

(** * Witnesses *)

Definition two_connections : list conn_op := adds 0 7 CONNECT_STAT_WAIT_REQUEST 1 ++ acknowledged 1 ++ adds 2 8 CONNECT_STAT_WAIT_REQUEST 2 ++ acknowledged 3.

Lemma connections_counted_witness :
  exists s, conn_run new_conn_peer two_connections = ConnOk s /\ NoDup (conn_impl_list (cs_peer s) ++ conn_deleting_list (cs_peer s)) /\ conn_impl_list (cs_peer s) = [2; 1].
Proof.
  assert (Forall keeps_peer two_connections) as Hk by (by repeat constructor).
  destruct (connections_counted two_connections Hk) as (s&E&_&Hnd&_). exists s. split_and!; [done|done|].
  vm_compute in E. injection E as <-. reflexivity.
Defined.


Lemma message_uses_first_working_witness :
  exists s, conn_run new_conn_peer two_connections = ConnOk s /\ pe_status (cs_peer s) = NODE_STAT_ONLINE /\ working (cs_peer s) = [2; 1] /\
    exists k, forall fuel, run_alone (k + fuel) (sending (fun a => if a =? 2 then - ESHUTDOWN else 5)) (cs_peer s) [SendStart] =
      let (p, ret) := if pe_status (cs_peer s) =? NODE_STAT_ONLINE then send_first (fun a => if a =? 2 then - ESHUTDOWN else 5) (cs_peer s) (working (cs_peer s))
                      else (cs_peer s, - EAGAIN) in
      Some (add_returned p ret).
Proof.
  assert (Forall keeps_peer two_connections) as Hk by (by repeat constructor).
  destruct (conn_run new_conn_peer two_connections) as [s| |] eqn:E; [|vm_compute in E; discriminate E..].
  exists s. split; [done|]. pose proof E as E'. vm_compute in E'. injection E' as E'. do 2 (split; [rewrite <- E'; reflexivity|]).
  apply (message_uses_first_working two_connections); done.
Defined.
